(* ===== verification/_CoqProject ===== *)
-Q . S2P
Prelude.v
PyDict.v
GraphTypes.v
GraphState.v
Checkpoint.v
GraphRuntime.v
GraphContext.v
GraphStream.v
GraphExecutor.v
GraphAsync.v
GraphRun.v
GraphRunFacts.v
GraphLinear.v
GraphResume.v
GraphTheorems.v
Receipts.v
Text.v
Program.v
Anyio.v
Batch.v
FunFlow.v
FunFlowFacts.v
SchemeDatum.v
FunFlowScheme.v
MemoryCheckpointer.v
FileCheckpointer.v
ProgramFacts.v
Builder.v
Messages.v
Tools.v
Subgraphs.v
Stores.v
Merkle.v
EvidenceModel.v
EvidenceStore.v
EvidenceFacts.v
EvidenceTheorems.v
DurablePolicy.v
DurableStore.v
DurableAdapter.v
Sort.v
ReceiptGraph.v
ReceiptGraphFacts.v
ReceiptGraphTheorems.v
Json.v
JsonFacts.v
ReceiptAudit.v
ReceiptAuditTheorems.v
AxleAuthority.v
AxleAuthorityFacts.v
AxleAuthorityTheorems.v
IndependentBundle.v
IndependentBundleFacts.v
ChangeImpact.v
ChangeImpactFacts.v
Admission.v
AdmissionFacts.v
Refinement.v
RefinementFacts.v
ProofCase.v
ProofCaseFacts.v
LeanClosure.v
LeanClosureFacts.v
LeanOwnerOrder.v
SourceText.v
SourceTextFacts.v
ExactClosure.v
ExactClosureFacts.v
ExactAliasFacts.v
Effects.v
ExactBuild.v
ExactBuildFacts.v
LeanExport.v
LeanExportFacts.v
BundleProjection.v
JsonIndent.v
ClosureVerify.v
ClosureVerifyTheorems.v
SchemeLoad.v
SchemeLoadFacts.v
