(* ===== verification/Prelude.v ===== *)
(** * poo-flow: a verification library for the Python runtime

    The subject is the Python runtime of poo-flow,
    [src/packages/python-runtime/src/poo_flow_runtime/] (file names below are
    relative to it): the execution of graphs whose nodes are Python callables,
    the programs that make such graphs durable, the evidence journal that
    records authorised effects, the FunFlow pipelines, and, from the proof
    package [src/packages/proofs/python/src/poo_flow_proof/], the receipt
    graphs and their audits, the AXLE authority, declaration bundles, the
    closures of Lean declarations those bundles are made from, the decision
    procedures of the security model and the proof-case vectors.

    ** The program and its parts

    A _plan_ ([_runtime_graph_types.py]) names nodes, edges and conditional
    edges.  A _builder_ ([builder.py]) or a control plane written in Scheme
    produces plans; an _executor_ ([_runtime_graph_executor.py]) binds a plan to
    actions and routers and runs it: it takes a node and a state from a deque,
    calls the node's action, merges the update through reducers
    ([_runtime_graph_state.py]), and appends the targets of the node's edges or
    of the action's command.  What a run did is in its _context_
    ([_runtime_graph_context.py]): the trace, the event log, the step counter.
    Streams ([_runtime_graph_stream.py], [event_stream.py]) are projections of
    the same run.  A _program_ ([_program_runtime.py]) adds registries
    ([_program_resolution.py]), a runtime ([runtime.py]) and, through a
    _checkpointer_ ([checkpoints.py], [durable.py]), threads that can be
    interrupted and resumed.  Messages, tools and subgraphs ([messages.py],
    [tools.py], [prebuilt.py], [subgraphs.py]) are actions built on top; stores
    ([stores.py], [durable.py]) keep values across runs.  Durable policies and
    envelopes ([durable_policy.py], [durable_envelope.py], ...) are the
    manifests that choose a checkpointer.  The evidence journal ([evidence.py],
    [batched_evidence.py], [batched_evidence_store.py],
    [native_evidence_sink.py]) is a ledger of effects in SQL tables: an effect
    is reserved, executed and appended, and leaves of executions are
    committed in Merkle batches.  _FunFlow_ ([_funflow_*.py]) runs pipelines of
    steps in waves on AnyIO task groups ([_anyio_runtime.py]); a pipeline may
    come from a plan printed by Scheme, which [_scheme_datum.py] reads; the loader
    ([_scheme_load*.py]) keeps what was printed in a cache, in artifacts and in
    compiled runners.  A
    _receipt graph_ ([proof_base_receipt_graph.py]) joins accepted proof
    receipts by the interfaces they provide and assume, and verifies that
    together they support one terminal claim.  An _audit_
    ([proof_base_receipt_graph_audit.py]) is its canonical encoding, decoded
    against an authority ([receipt_acceptance_authority.py],
    [axle_receipt_authority.py]) that verifies receipts afresh; a _bundle_
    ([independent_bundle.py]) is the manifest of the declarations a receipt is
    about.  A _Lean closure_ ([lean_declaration_closure.py]) lists the
    declarations a root depends on; Lean exports it, and a cache keeps what was
    exported.  An _exact closure_ ([axle_exact_closure.py]) holds the source text
    of those declarations: the sources of the owner modules are composed, the
    AXLE service extracts the declarations again, and the closure is answered
    only when both agree and AXLE verified the theorems among the roots.  A
    _verification run_ ([axle_closure_verify.py]) goes from the export to the
    bundle ([independent_bundle_projection.py]) and writes all of it to an
    artifact; the live authority repeats such a run for a receipt.  The
    security model is a set of decision procedures
    ([embodied_ai_*.py], [ai_security_executable_refinement.py]): they admit an
    effect, a declaration, a candidate or a transition, or name the reason why
    not.  A _proof-case vector_ ([proof_case_*.py]) is a binary record whose
    layout a manifest fixes for all languages of the repository.

    ** Conventions

    - A callable of the program (action, router, reducer, tool, projection) is
      a function that reads and changes a world [W], any type; every theorem
      holds for all worlds and all callables unless it says otherwise.
    - Python values are [Value] ([GraphTypes]); a dict is an association list
      in insertion order ([PyDict]), because the order is observable.
    - A call that may raise answers a [result] ([Ok] or [Raise] with an
      exception, see [Exn]).  Methods that mutate a
      run context are computations [M], generator methods computations [Gen]
      that also collect what was yielded, also when an exception ends them
      ([GraphContext]).
    - Bytes are byte strings ([string] of octets); text is its UTF-8 encoding.
      White space, case and digits of text are those of ASCII and of the
      Unicode spaces [Text] lists.
      Python integers are [Z], without bound; where the code has a width (the
      64-bit limbs of a nonce, the lengths of frames) the bound is written out.
    - Code that is not in the repository is a parameter of a Section: SHA-256,
      pickle, [json.dumps], [repr], the clock, the generator of fresh ids.
      Where a theorem relies on such code, the documented behaviour is a named
      hypothesis (SHA-256 does not collide; [pickle.loads] inverts
      [pickle.dumps]; for the in-memory history, generated ids are distinct) and
      the witness of the theorem instantiates it with a concrete function.
    - Code that talks to the world (Lake, Lean, Gerbil, the AXLE service, the files
      and the clock) is a computation [Eff] on a world of any type ([Effects]); the
      calls are parameters of a Section that read and change that world.  So
      are the arithmetic of floats, the order in which Python iterates over a
      set, and the resolution of symbolic links.
    - SQL statements of the source are operations on tables that are lists of
      rows or dictionaries from primary keys to rows.  A transaction of the
      evidence journal is a function to the committed tables, or to the ones it
      started from when its body raises; that this is what the statements on
      a connection do, whichever of them fails and whenever the process dies, is
      proved of the sequences of statements ([EvidenceStore], its last
      part).  A [rollback] itself is taken not to fail.

    ** Files, sources, theorems

    - [Prelude], [PyDict]: strings, decimal text, lists; dicts as association
      lists, their equality up to order and the morphisms for it.
    - [GraphTypes], [GraphState], [GraphRuntime], [GraphContext],
      [GraphStream], [GraphExecutor]: the executor, file by file.  A method of
      [RuntimeGraphExecutor] is the function of the same name, without the
      leading underscore; [GraphExecutor] also holds [linear_plan] and
      [bind_runtime_action] of [_runtime_graph_factory.py].
    - [GraphRun] defines the abstract machine [node_step]: one transition per
      entry of the deque, no fuel, no generators.  [GraphRunFacts] and
      [GraphTheorems]: every run ends, a run that returns is a path of the
      machine, the event log, the trace and the step counter determine each
      other, what the streaming entry points yield, which plans the
      constructor accepts.  [GraphAsync]: asynchronous runs are synchronous
      runs of the awaited callables.  [GraphLinear]: linear plans are folds.
      [GraphResume]: an interrupted run that is
      resumed with a result is the run of the same executor whose action
      returns it, unless it is an interrupt, which is swallowed.
    - [Text]: the methods of [str] the sources use.
    - [Anyio]: the task groups of [_anyio_runtime.py] as a step function that a
      schedule drives; every schedule answers the results in the order of the
      inputs, at most the configured number of calls is in flight, and any
      beginning of a schedule can be completed.  [Batch]: the [abatch] methods
      of executors and programs are that map over [ainvoke].
    - [Checkpoint], [MemoryCheckpointer], [FileCheckpointer] ([checkpoints.py])
      and [DurableStore] ([durable.py]): the checkpointers.  The interface of
      programs is the record [Checkpointer], its contract the class
      [CheckpointerSpec] over an abstract history per thread, or the weaker
      class [KeepsLatest].  In memory the first holds; the file checkpointer
      refines a log per thread whose history is in the order of the ids, and is
      a [KeepsLatest]; the Turso one refines a log that is cut to the newest
      by time and id, and is a [KeepsLatest] when its policy has no limit.
      Nothing is assumed of the clock, nor, but for the in-memory history, of
      the generated ids.  [DurableAdapter]
      ([durable_adapter.py]) joins the Turso checkpointer, a policy and
      programs: an interrupted thread resumes exactly when retention keeps the
      interrupt that was stored.
    - [Receipts] ([receipts.py], [materialization.py]): the description of a
      plan is read back by the receipt parser.
    - [Program], [ProgramFacts]: [RuntimeGraphProgram]; what is saved for a
      thread, the hidden plan key, the digest checks of resumption, and the
      interrupt-save-resume cycle for every checkpointer of the class.
    - [Builder], [Messages], [Tools], [Subgraphs], [Stores]: the components on
      top, each with the contract it has towards the executor or, for stores,
      the simulation of one store by another.
    - [FunFlow], [FunFlowFacts] ([_funflow_types.py], [_funflow_runtime.py]):
      pipelines run in waves of ready steps; the trace is a topological order
      whatever the schedules of the waves, and every run of a valid pipeline
      ends, with an exception only if a step failed or the needs are cyclic.
    - [SchemeDatum] ([_scheme_datum.py]): the reader answers on every text and
      reads back what the writer writes.  [FunFlowScheme]
      ([_funflow_scheme_projection.py], [_funflow_cicd.py]): from a Scheme plan
      to a pipeline, whose needs are the plan's edges; the CI/CD pipeline.
    - [SchemeLoad], [SchemeLoadFacts] ([_scheme_load*.py]): a load answers only
      rows that a load got, from a current artifact, a compiled runner or Gerbil,
      when every file behind the key of the cache had the time and the size it
      has now; and a module that was projected loads without running a program,
      from the cache or else from its artifact, whose rows a program printed for
      it unless the artifact was kept.
    - [Merkle] ([batched_evidence.py]): proofs of inclusion are complete, and
      sound when SHA-256 does not collide.
    - [EvidenceModel] ([evidence_model.py]), [EvidenceStore], [EvidenceFacts],
      [EvidenceTheorems]: the evidence journal.  Every operation preserves the
      invariant of the rows of each session, so whatever operations are tried
      in whatever order a session stays one linear chain; an operation whose
      statements fail, or whose process dies, leaves the old journal or its
      whole effect.
    - [DurablePolicy]: the coercion, validation and receipts of policies.
    - [Sort]: [sorted] with a key, as insertion sort for a boolean order.
      [ReceiptGraph], [ReceiptGraphFacts], [ReceiptGraphTheorems]
      ([proof_base_receipt_graph.py]): [GraphSpec] says what a
      correct receipt graph is, [verify] decides it (Kahn's algorithm and the
      backward closure are proved against acyclicity and reachability), and
      the digest determines the graph up to the order of listing.
    - [Json], [JsonFacts]: the text [json.dumps] writes and the reader of
      [json.loads] as far as the sources use them; the reader answers on every
      text and reads back what is written.  [ReceiptAudit],
      [ReceiptAuditTheorems]: audits decode exactly the canonical encodings of
      verified graphs.
      [JsonIndent]: the indented form, read back as well, and which of the
      texts are Unicode.
    - [AxleAuthority], [AxleAuthorityFacts], [AxleAuthorityTheorems]
      ([axle_receipt_authority.py], [receipt_acceptance_authority.py]): the
      authority accepts only what a fresh verification reproduces.
    - [IndependentBundle], [IndependentBundleFacts]: the constructor of bundles
      accepts exactly the well-formed ones, which are acyclic, and the digest
      binds all the manifest records.
    - [ChangeImpact], [ChangeImpactFacts]
      ([embodied_ai_security_relation_graph.py]): the impact of a change is
      reachability in a well-typed graph.
    - [Admission], [AdmissionFacts]: the three decision procedures against
      declarative conditions, and the fixed cases of the replay modules.
    - [Refinement], [RefinementFacts] ([ai_security_executable_refinement.py]):
      transitions and evidence verification fail closed, the trace root binds
      the action, the Scheme projection of an envelope is read back.
    - [ProofCase], [ProofCaseFacts]: loaded layouts are sound, validation
      accepts exactly the well-formed vectors, a divergence is the first field
      that differs, and the manifest of the repository agrees with the
      generated constants.
    - [LeanClosure], [LeanClosureFacts] ([lean_declaration_closure.py], the
      data): the parser answers on every text and answers only well-formed
      closures, whose manifests are read back.  [LeanOwnerOrder]: the owner
      modules are ordered by their needs unless these are cyclic.
    - [SourceText], [SourceTextFacts], [ExactClosure], [ExactClosureFacts],
      [ExactAliasFacts] ([axle_exact_closure.py], texts and names): slices are
      the text between two positions in UTF-16 units; coalesced ranges do not
      overlap; every declaration has an anchor that spans it; the source closure
      is exactly what the roots need, in topological order.
    - [Effects]: computations on a world, their weakest preconditions, and the
      rules the files below share.
    - [ExactBuild], [ExactBuildFacts] ([axle_exact_closure.py], composition and
      verification): [build_exact_axle_closure] ends, closes a client it opened,
      and answers only what AXLE extracted, matched and verified.
    - [LeanExport], [LeanExportFacts] ([lean_declaration_closure.py], the
      exporter): exports answer the closure that was asked for, the cache only
      ever holds such answers under their keys, and a cached request is answered
      without running the exporter, after the build if that was not made.  An owner module is
      resolved to the one source file below the source roots.
    - [BundleProjection] ([independent_bundle_projection.py]): the bundle that a closure, its exact
      closure and the sources determine.  [ClosureVerify]
      ([axle_closure_verify.py], and [LiveAxleClosureReceiptAuthorityV1] of
      [axle_receipt_authority.py]): a run from the export to the artifact.
      [ClosureVerifyTheorems]: a run that answers has verified
      every step and leaves exactly the artifact of it; the authority reads that
      artifact under conditions that are stated and are not those of the run;
      the live authority accepts only what a successful run reproduced.

    ** Fuel and bounds

    The loops of the executor take a [nat] of fuel, and the entry points answer
    [None] when it runs out; a run with step limit [n] takes at most as many
    iterations as [GraphRunFacts] computes from the limit and the number of
    targets, and the termination theorem states that a sufficient fuel exists
    and that more fuel changes nothing.  The Merkle tree recurses with the
    length of a level as fuel: a level of two or more digests is strictly
    shorter after a round.  The waves of a pipeline take one schedule each from
    a list; each wave completes at least one step, so as many schedules as
    there are steps are enough.  The Scheme reader takes twice the length of its
    text plus one, and [scheme_parser_total] shows it never runs out.  The two
    loops of a receipt graph take the number of its nodes: each round of the
    first adds a node to the order, of the second takes one from the stack,
    and no node is on it twice; the spread of a change takes the number of its
    nodes for the same reason.  The JSON reader takes twice the length of its
    text plus one.  The rounds over owner modules take the number of owners:
    a round without a ready module raises.  The depth-first search of a
    topological order takes the number of names, the length of the longest path
    without repetition; the worklist of a source closure takes the
    number of documents, each of which is selected once.  A generated name is
    normalised to a shorter one, so its length is enough.  The theorems on these
    functions state that they answer.  The recursion limit of Python is not
    modelled.  The other recursions are structural.

    ** What is not modelled

    The command lines of the loader ([scheme_load_aot.py],
    [scheme_projection_artifact.py]), the JSON-schema contract and the person ABI, the build
    profiles, the compatibility layers for crewai and langgraph, the C ABI
    ([_native/]) apart from its evidence records, the benchmarks and the
    automation and bazel packages: they run processes, read files and call
    native code, or they are glue around what is modelled.  Of the proof
    package, the parsing of command lines ([cli.py]), the runs for single sources
    ([axle_verify.py], [lean_emit.py]), the emitters of proof-case text
    and the adapter to the native validator.  Lean, Lake and the AXLE service
    are parameters of the exporter and of the exact closures; directories and
    the messages of JSON decoding errors are left out of both.  The components
    of the manifest give the reason for each.
    The interleaving of two processes on one database or directory is not
    modelled: of several connections, a transaction is one step, and so is a
    file operation; the faults of one connection are modelled.  What a fault
    leaves in files is not modelled.  A task
    group ends with the first task that raises, and what its cancelled tasks
    still do is not modelled; the expiry of a time limit is a parameter of the
    FunFlow runs. *)

From Stdlib Require Ascii.
From stdpp Require Export base list strings gmap numbers sorting option pretty.

#[global] Open Scope Z_scope.

(** ** Scopes, tactics and hint databases *)

Declare Scope py_scope.
Delimit Scope py_scope with py.

Create HintDb py.

(** Rewriting with the equations of the dictionary operations and of the error
    monad; each component adds its own equations to it. *)
Ltac py_simpl :=
  repeat (progress (autorewrite with py in *; simplify_eq/=)).

(** ** Lists *)

Lemma filter_ext_elem {A} (P Q : A → Prop) `{∀ x, Decision (P x)} `{∀ x, Decision (Q x)}
    (l : list A) : (∀ x, x ∈ l → P x ↔ Q x) → filter P l = filter Q l.
Proof.
  induction l as [|x l IH]; intros Hpq; [done|]. rewrite !filter_cons.
  rewrite IH by (intros y ?; apply Hpq; by right).
  pose proof (Hpq x ltac:(by left)). destruct (decide (P x)), (decide (Q x)); tauto.
Qed.

(** ** Results: the value a Python call returns or the exception it raises *)

Inductive result (E A : Type) : Type :=
| Ok (a : A)
| Raise (e : E).
Arguments Ok {E A} a.
Arguments Raise {E A} e.

#[export] Instance result_ret {E} : MRet (result E) := @Ok E.
#[export] Instance result_bind {E} : MBind (result E) := fun A B f m =>
  match m with Ok a => f a | Raise e => Raise e end.
#[export] Instance result_fmap {E} : FMap (result E) := fun A B f m =>
  match m with Ok a => Ok (f a) | Raise e => Raise e end.

#[export] Instance result_eq_dec {E A} `{EqDecision E, EqDecision A} :
  EqDecision (result E A).
Proof. solve_decision. Defined.

(** Python's [if not cond: raise e]. *)
Definition require {E} (b : bool) (e : E) : result E unit :=
  if b then Ok () else Raise e.

(** [try: d[k] except KeyError as exc: raise e from exc]. *)
Definition of_option {E A} (e : E) (o : option A) : result E A :=
  match o with Some a => Ok a | None => Raise e end.

Definition is_ok {E A} (r : result E A) : bool :=
  match r with Ok _ => true | Raise _ => false end.

Definition res_to_option {E A} (r : result E A) : option A :=
  match r with Ok a => Some a | Raise _ => None end.

Section result_lemmas.
Context {E A B : Type}.
Implicit Types (m : result E A) (f : A → result E B).

Lemma bind_Ok m f b : m ≫= f = Ok b ↔ ∃ a, m = Ok a ∧ f a = Ok b.
Proof. destruct m; naive_solver. Qed.

Lemma bind_Raise m f e :
  m ≫= f = Raise e ↔ m = Raise e ∨ ∃ a, m = Ok a ∧ f a = Raise e.
Proof. destruct m; naive_solver. Qed.

Lemma fmap_Ok (g : A → B) m b : g <$> m = Ok b ↔ ∃ a, m = Ok a ∧ b = g a.
Proof. destruct m; naive_solver. Qed.

Lemma fmap_Raise (g : A → B) m e : g <$> m = Raise e ↔ m = Raise e.
Proof. destruct m; naive_solver. Qed.
End result_lemmas.

Lemma require_Ok {E} b (e : E) u : require b e = Ok u ↔ b = true.
Proof. destruct b, u; naive_solver. Qed.

Lemma require_Raise {E} b (e e' : E) : require b e = Raise e' ↔ b = false ∧ e' = e.
Proof. destruct b; naive_solver. Qed.

Lemma of_option_Ok {E A} (e : E) (o : option A) a :
  of_option e o = Ok a ↔ o = Some a.
Proof. destruct o; naive_solver. Qed.

Lemma of_option_Raise {E A} (e e' : E) (o : option A) :
  of_option e o = Raise e' ↔ o = None ∧ e' = e.
Proof. destruct o; naive_solver. Qed.

(** Inverts every hypothesis that says how a monadic computation ended. *)
Ltac inv_result :=
  repeat match goal with
  | H : _ ≫= _ = Ok _ |- _ => apply bind_Ok in H as (?&?&?)
  | H : _ <$> _ = Ok _ |- _ => apply fmap_Ok in H as (?&?&->)
  | H : _ <$> _ = Raise _ |- _ => apply fmap_Raise in H
  | H : require _ _ = Ok _ |- _ => apply require_Ok in H
  | H : require _ _ = Raise _ |- _ => apply require_Raise in H as [? ->]
  | H : of_option _ _ = Ok _ |- _ => apply of_option_Ok in H
  | H : of_option _ _ = Raise _ |- _ => apply of_option_Raise in H as [? ->]
  | H : mret _ = Ok _ |- _ => injection H as H
  | H : Ok _ = Ok _ |- _ => injection H as H
  | H : Raise _ = Raise _ |- _ => injection H as H
  | H : Ok _ = Raise _ |- _ => discriminate H
  | H : Raise _ = Ok _ |- _ => discriminate H
  | H : mret _ = Raise _ |- _ => discriminate H
  end; simplify_eq/=.

(** A list comprehension whose body may raise: elements are evaluated left to
    right and the first exception ends it ([mapM] of stdpp at [result]). *)
Lemma mapM_Ok {E A B} (f : A → result E B) l k :
  mapM f l = Ok k ↔ Forall2 (λ x y, f x = Ok y) l k.
Proof.
  revert k; induction l as [|x l IH]; intros k; simpl.
  - split; [intros; inv_result; constructor|intros H; by inversion H].
  - split.
    + intros H; inv_result. constructor; [done|]. by apply IH.
    + intros H; inversion H as [|? y ? k' Hx Hl]; subst.
      rewrite Hx; simpl. apply IH in Hl. by rewrite Hl.
Qed.

Lemma mapM_omap {E A B} (f : A → result E B) l :
  (∀ x, x ∈ l → is_ok (f x) = true) →
  mapM f l = Ok (omap (λ x, res_to_option (f x)) l).
Proof.
  intros Hl. apply mapM_Ok. induction l as [|x l IH]; csimpl; [constructor|].
  destruct (f x) as [y|e] eqn:Ef; [|by specialize (Hl x ltac:(by left)); rewrite Ef in Hl].
  simpl. constructor; [done|]. apply IH. intros x' ?. apply Hl. by right.
Qed.

Lemma omap_ext_elem {A B} (f g : A → option B) (l : list A) :
  (∀ x, x ∈ l → f x = g x) → omap f l = omap g l.
Proof.
  induction l as [|x l IH]; intros Hl; [done|]. csimpl. rewrite (Hl x) by by left.
  rewrite IH; [done|]. intros x' ?. apply Hl. by right.
Qed.

(** A [for] loop with an accumulator whose body may raise. *)
Fixpoint foldM {E A B} (f : B → A → result E B) (b : B) (l : list A) : result E B :=
  match l with
  | [] => Ok b
  | a :: l => f b a ≫= λ b', foldM f b' l
  end.

Lemma foldM_app {E A B} (f : B → A → result E B) b l1 l2 :
  foldM f b (l1 ++ l2) = foldM f b l1 ≫= λ b', foldM f b' l2.
Proof.
  revert b; induction l1 as [|a l1 IH]; intros b; [done|].
  simpl. destruct (f b a); simpl; [apply IH|done].
Qed.

(** Invariants of such loops, by induction on the list already processed. *)
Lemma foldM_inv {E A B} (P : list A → B → Prop) (f : B → A → result E B) b l b' :
  P [] b →
  (∀ done x b1 b2, done ++ [x] `prefix_of` l →
     P done b1 → f b1 x = Ok b2 → P (done ++ [x]) b2) →
  foldM f b l = Ok b' → P l b'.
Proof.
  intros H0 Hstep Hf.
  enough (∀ todo done b1, l = done ++ todo → P done b1 →
            foldM f b1 todo = Ok b' → P l b') as Hgen
    by (intros; by apply (Hgen l [] b)).
  induction todo as [|x todo IH]; intros done b1 Hl HP Hfold; simpl in *.
  - inv_result. by rewrite app_nil_r.
  - inv_result. eapply (IH (done ++ [x])); [by rewrite <-app_assoc| |done].
    eapply Hstep; [|done|done]. exists todo. by rewrite <-app_assoc.
Qed.

(** A loop that only checks its elements. *)
Lemma foldM_check {E A} (f : A → result E unit) l :
  foldM (λ _ x, f x) () l = Ok () ↔ Forall (λ x, f x = Ok ()) l.
Proof.
  induction l as [|x l IH]; simpl; [done|]. rewrite Forall_cons, <-IH.
  destruct (f x) as [[]|e]; simpl; naive_solver.
Qed.

#[export] Hint Rewrite @bind_Ok @fmap_Ok @require_Ok @of_option_Ok : py.

(** A relation that relates the same elements is well founded too. *)
Lemma well_founded_iff {A} (R Q : A → A → Prop) :
  (∀ x y, R x y ↔ Q x y) → well_founded R ↔ well_founded Q.
Proof.
  intros HRQ. split; intros Hwf x; induction (Hwf x) as [y _ IH]; constructor; intros z Hz;
    by apply IH, HRQ.
Qed.

(** The images of what a filter keeps are distinct when all are. *)
Lemma NoDup_fmap_filter {A B} (f : A → B) (P : A → Prop) `{∀ x, Decision (P x)} l :
  NoDup (f <$> l) → NoDup (f <$> filter P l).
Proof.
  intros Hnd. eapply sublist_NoDup; [exact Hnd|].
  induction l as [|x l IH]; [constructor|]. csimpl in Hnd. apply NoDup_cons in Hnd as [_ Hnd].
  rewrite filter_cons. case_decide; csimpl; constructor; by apply IH.
Qed.

(** Filters that keep everything, or nothing. *)
Lemma filter_all {A} (P : A → Prop) `{∀ x, Decision (P x)} l : Forall P l → filter P l = l.
Proof. induction 1 as [|x l Hx _ IH]; [done|]. by rewrite filter_cons_True, IH. Qed.
Lemma filter_none {A} (P : A → Prop) `{∀ x, Decision (P x)} l :
  Forall (λ x, ¬ P x) l → filter P l = [].
Proof. induction 1 as [|x l Hx _ IH]; [done|]. by rewrite filter_cons_False, IH. Qed.

(** ** Total correctness of fuelled loops

    A [while] loop is a Fixpoint on fuel that answers [None] when the fuel runs
    out.  [converges f P] says that with enough fuel it answers, that more fuel
    does not change the answer, and that the answer satisfies [P]. *)
Definition converges {A} (f : nat → option A) (P : A → Prop) : Prop :=
  ∃ n r, P r ∧ ∀ m, (n ≤ m)%nat → f m = Some r.

Definition fuel_monotone {A} (f : nat → option A) : Prop :=
  ∀ n m r, (n ≤ m)%nat → f n = Some r → f m = Some r.

Lemma converges_intro {A} (f : nat → option A) (P : A → Prop) n r :
  fuel_monotone f → f n = Some r → P r → converges f P.
Proof. intros Hm Hn HP. exists n, r. split; [done|]. intros m Hle. by eapply Hm. Qed.

Lemma converges_mono {A} (f : nat → option A) (P Q : A → Prop) :
  converges f P → (∀ n r, f n = Some r → P r → Q r) → converges f Q.
Proof.
  intros (n & r & HP & Hf) HQ. exists n, r. split; [|done].
  apply (HQ n); [by apply Hf|done].
Qed.

Lemma converges_and {A} (f : nat → option A) (P Q : A → Prop) :
  converges f P → converges f Q → converges f (λ r, P r ∧ Q r).
Proof.
  intros (n & r & HP & Hf) (n' & r' & HQ & Hf').
  exists (max n n'), r. split; [|intros m ?; apply Hf; lia].
  assert (r' = r) as ->; [|done].
  specialize (Hf (max n n') ltac:(lia)). specialize (Hf' (max n n') ltac:(lia)).
  congruence.
Qed.

(** ** Sorting: Python's [sorted] on strings

    Strings are byte strings holding the UTF-8 encoding; byte order and the
    code-point order [sorted] uses agree on UTF-8. *)
Definition py_sorted (l : list string) : list string := merge_sort String.le l.

Lemma py_sorted_perm l : py_sorted l ≡ₚ l.
Proof. apply merge_sort_Permutation. Qed.

Lemma py_sorted_Sorted l : StronglySorted String.le (py_sorted l).
Proof. apply (StronglySorted_merge_sort _). Qed.

Lemma elem_of_py_sorted x l : x ∈ py_sorted l ↔ x ∈ l.
Proof. by rewrite py_sorted_perm. Qed.

Lemma py_sorted_unique l1 l2 : l1 ≡ₚ l2 → py_sorted l1 = py_sorted l2.
Proof.
  intros Hp. apply (StronglySorted_unique String.le); [apply py_sorted_Sorted..|].
  by rewrite !py_sorted_perm.
Qed.

Lemma py_sorted_snoc l x :
  (∀ y, y ∈ l → String.le y x) → py_sorted (l ++ [x]) = py_sorted l ++ [x].
Proof.
  intros Hx. apply (StronglySorted_unique String.le); [apply py_sorted_Sorted|..].
  - pose proof (py_sorted_Sorted l) as Hs. pose proof (py_sorted_perm l) as Hp.
    assert (∀ y, y ∈ py_sorted l → String.le y x) as Hy by (intros y; rewrite Hp; auto).
    clear Hp Hx. induction Hs as [|y ys Hs IH Hall]; simpl; [repeat constructor|].
    constructor; [apply IH; intros; apply Hy; by right|].
    apply Forall_app; split; [done|]. constructor; [|done]. apply Hy. by left.
  - by rewrite !py_sorted_perm.
Qed.

#[export] Hint Resolve py_sorted_perm py_sorted_Sorted : py.

(** Concatenation. *)
Lemma sapp_nil_l (s : string) : "" +:+ s = s.
Proof. done. Qed.
Lemma sapp_cons c (s1 s2 : string) : String c s1 +:+ s2 = String c (s1 +:+ s2).
Proof. done. Qed.
Lemma sapp_nil_r (s : string) : s +:+ "" = s.
Proof. induction s as [|c s IH]; [done|]. by rewrite sapp_cons, IH. Qed.
Lemma sapp_assoc (s1 s2 s3 : string) : (s1 +:+ s2) +:+ s3 = s1 +:+ (s2 +:+ s3).
Proof. induction s1 as [|c s1 IH]; [done|]. by rewrite !sapp_cons, IH. Qed.

Lemma slen_app (s1 s2 : string) :
  String.length (s1 +:+ s2) = (String.length s1 + String.length s2)%nat.
Proof. induction s1 as [|c s1 IH]; [done|]. rewrite sapp_cons. simpl. by rewrite IH. Qed.

Lemma sapp_inj_r (s1 s2 s : string) : s1 +:+ s = s2 +:+ s → s1 = s2.
Proof.
  revert s2; induction s1 as [|c s1 IH]; intros [|c2 s2] H; [done|..];
    try (apply (f_equal String.length) in H; rewrite !slen_app in H; simpl in H; lia).
  rewrite !sapp_cons in H. injection H as -> H. by rewrite (IH _ H).
Qed.

(** [", ".join(l)]. *)
Fixpoint str_join (sep : string) (l : list string) : string :=
  match l with
  | [] => ""
  | [s] => s
  | s :: l => s +:+ sep +:+ str_join sep l
  end.

(** Decimal text of a Python [int]. *)
Definition str_of_Z (z : Z) : string := pretty z.

(** ** Characters of a text *)

Definition sforall (P : Ascii.ascii → bool) (s : string) : bool :=
  forallb P (String.list_ascii_of_string s).

Lemma sforall_cons P c s : sforall P (String c s) = true ↔ P c = true ∧ sforall P s = true.
Proof. unfold sforall. cbn [String.list_ascii_of_string forallb]. apply andb_true_iff. Qed.

Lemma sforall_app P s1 s2 :
  sforall P (s1 +:+ s2) = true ↔ sforall P s1 = true ∧ sforall P s2 = true.
Proof.
  induction s1 as [|c s1 IH]; [rewrite sapp_nil_l; naive_solver|].
  rewrite sapp_cons, !sforall_cons, IH. naive_solver.
Qed.

(** A separator splits a text in one way when the part before it is free of it. *)
Lemma split_sep (c : Ascii.ascii) (s1 s2 r1 r2 : string) :
  sforall (λ x, negb (Ascii.eqb x c)) s1 = true → sforall (λ x, negb (Ascii.eqb x c)) s2 = true →
  s1 +:+ String c r1 = s2 +:+ String c r2 → s1 = s2 ∧ r1 = r2.
Proof.
  revert s2; induction s1 as [|c1 s1 IH]; intros [|c2 s2] H1 H2 H;
    rewrite ?sapp_nil_l, ?sapp_cons in H;
    repeat match goal with H : sforall _ (String _ _) = true |- _ =>
      apply sforall_cons in H as [?%negb_true_iff%Ascii.eqb_neq H] end.
  - by injection H as ->.
  - congruence.
  - congruence.
  - injection H as -> H. by destruct (IH s2 H1 H2 H) as [-> ->].
Qed.

Lemma pretty_N_go_forall (P : Ascii.ascii → bool) x s :
  (∀ n, P (pretty_N_char n) = true) → sforall P s = true → sforall P (pretty_N_go x s) = true.
Proof.
  intros HP. revert s. induction (N.lt_wf_0 x) as [x _ IH]; intros s Hs.
  assert (x = 0 ∨ 0 < x)%N as [->|?] by lia; [by rewrite pretty_N_go_0|].
  rewrite pretty_N_go_step by lia. apply IH; [apply N.div_lt; lia|]. by apply sforall_cons.
Qed.

(** The decimal text of a natural number is made of digits. *)
Lemma str_of_Z_forall (P : Ascii.ascii → bool) z :
  (∀ n, P (pretty_N_char n) = true) → 0 ≤ z → sforall P (str_of_Z z) = true.
Proof.
  intros HP Hz. destruct z as [|p|p]; [by apply sforall_cons; split; [apply (HP 0%N)|]| |lia].
  unfold str_of_Z, pretty, pretty_Z. unfold pretty, pretty_N. by apply pretty_N_go_forall.
Qed.
