(* ===== verification/PyDict.v ===== *)
(** * Python dictionaries

    A [dict] keeps the insertion order of its keys: [d[k] = v] on a present key
    replaces the value in place, on an absent key appends.  The order is
    observable ([tuple(plan.nodes)], ["update-keys"] of an event), so a dict is
    a list of pairs; [dequiv] is the order-insensitive equality [==] of
    mappings, with the operations as morphisms for it. *)

From S2P Require Import Prelude.

Definition dict (K V : Type) : Type := list (K * V).

Section operations.
Context {K V : Type} `{EqDecision K}.

(** [d.get(k)]. *)
Fixpoint dget (k : K) (d : dict K V) : option V :=
  match d with
  | [] => None
  | (k', v) :: d => if decide (k = k') then Some v else dget k d
  end.

(** [k in d]. *)
Definition dmem (k : K) (d : dict K V) : bool :=
  match dget k d with Some _ => true | None => false end.

(** [d[k] = v]. *)
Fixpoint dset (k : K) (v : V) (d : dict K V) : dict K V :=
  match d with
  | [] => [(k, v)]
  | (k', v') :: d => if decide (k = k') then (k', v) :: d else (k', v') :: dset k v d
  end.

(** [d.pop(k, None)] and [del d[k]] (the key occurs at most once). *)
Fixpoint dpop (k : K) (d : dict K V) : dict K V :=
  match d with
  | [] => []
  | (k', v') :: d => if decide (k = k') then d else (k', v') :: dpop k d
  end.

(** [d.update(u)], and [{**d, **u}]. *)
Definition dupdate (d u : dict K V) : dict K V :=
  fold_left (λ d '(k, v), dset k v d) u d.

(** [{k: v for k, v in l}] and [dict(l)]. *)
Definition dict_of (l : list (K * V)) : dict K V := dupdate [] l.

Definition dkeys (d : dict K V) : list K := d.*1.
Definition dvalues (d : dict K V) : list V := d.*2.

(** What every Python dict satisfies: no key occurs twice. *)
Definition dict_wf (d : dict K V) : Prop := NoDup (dkeys d).

Definition dequiv (d1 d2 : dict K V) : Prop := ∀ k, dget k d1 = dget k d2.
End operations.

(** ** Lookup equations *)

Section lemmas.
Context {K V : Type} `{EqDecision K}.
Implicit Types (d u : dict K V) (k : K) (v : V).

Lemma dget_dset d k k' v :
  dget k (dset k' v d) = if decide (k = k') then Some v else dget k d.
Proof.
  induction d as [|[k1 v1] d IH]; csimpl; repeat (case_decide; csimpl; simplify_eq; try done).
Qed.

Lemma dget_dset_eq d k v : dget k (dset k v d) = Some v.
Proof. rewrite dget_dset. by case_decide. Qed.

Lemma dget_dset_ne d k k' v : k ≠ k' → dget k (dset k' v d) = dget k d.
Proof. intros. rewrite dget_dset. by case_decide. Qed.

Lemma dget_Some_elem d k v : dget k d = Some v → (k, v) ∈ d.
Proof.
  induction d as [|[k1 v1] d IH]; csimpl; [done|]. case_decide; intros; simplify_eq.
  - by left.
  - right. auto.
Qed.

Lemma dget_is_Some d k : is_Some (dget k d) ↔ k ∈ dkeys d.
Proof.
  unfold dkeys. induction d as [|[k1 v1] d IH]; csimpl.
  - split; [by intros [??]|by intros ?%elem_of_nil].
  - rewrite elem_of_cons. case_decide; subst.
    + split; [by left|by eauto].
    + rewrite IH. naive_solver.
Qed.

Lemma dget_None d k : dget k d = None ↔ k ∉ dkeys d.
Proof. by rewrite <-dget_is_Some, <-eq_None_not_Some. Qed.

Lemma dmem_spec d k : dmem k d = true ↔ k ∈ dkeys d.
Proof. rewrite <-dget_is_Some. unfold dmem. destruct (dget k d); naive_solver. Qed.

Lemma dmem_false d k : dmem k d = false ↔ dget k d = None.
Proof. unfold dmem. destruct (dget k d); naive_solver. Qed.

Lemma dget_elem_wf d k v : dict_wf d → (k, v) ∈ d → dget k d = Some v.
Proof.
  unfold dict_wf, dkeys. induction d as [|[k1 v1] d IH]; csimpl.
  - by intros _ ?%elem_of_nil.
  - intros [Hk Hd]%NoDup_cons [Heq|Hin]%elem_of_cons; simplify_eq.
    + by rewrite decide_True.
    + rewrite decide_False; [auto|]. intros ->. apply Hk.
      apply list_elem_of_fmap. by exists (k1, v).
Qed.

(** *** Keys and the order of insertion *)

Lemma dkeys_dset d k v :
  dkeys (dset k v d) = if dmem k d then dkeys d else dkeys d ++ [k].
Proof.
  unfold dkeys, dmem. induction d as [|[k1 v1] d IH]; csimpl; [done|].
  case_decide; subst; csimpl; [done|]. rewrite IH. by destruct (dget k d).
Qed.

Lemma elem_of_dkeys_dset d k k' v : k ∈ dkeys (dset k' v d) ↔ k = k' ∨ k ∈ dkeys d.
Proof.
  rewrite <-!dget_is_Some, dget_dset. case_decide; naive_solver.
Qed.

Lemma dset_wf d k v : dict_wf d → dict_wf (dset k v d).
Proof.
  unfold dict_wf. rewrite dkeys_dset. destruct (dmem k d) eqn:E; [done|].
  intros ?. apply NoDup_app. split; [done|]. split; [|apply NoDup_singleton].
  intros x Hx ->%list_elem_of_singleton. apply dmem_false, dget_None in E. done.
Qed.

Lemma dset_idem d k v v' : dset k v (dset k v' d) = dset k v d.
Proof.
  induction d as [|[k1 v1] d IH]; csimpl; repeat (case_decide; csimpl); try congruence.
Qed.

(** Writing back the value a key already has changes nothing, not even the order. *)
Lemma dset_id d k v : dget k d = Some v → dset k v d = d.
Proof.
  induction d as [|[k1 v1] d IH]; csimpl; [done|].
  case_decide; intros; simplify_eq; [done|]. by rewrite IH.
Qed.

Lemma dset_fresh d k v : dget k d = None → dset k v d = d ++ [(k, v)].
Proof.
  induction d as [|[k1 v1] d IH]; csimpl; [done|].
  case_decide; [done|]. intros. by rewrite IH.
Qed.

Lemma dkeys_dpop d k : dkeys (dpop k d) `sublist_of` dkeys d.
Proof.
  unfold dkeys. induction d as [|[k1 v1] d IH]; csimpl; [done|].
  case_decide; csimpl; [by apply sublist_cons|by apply sublist_skip].
Qed.

Lemma dpop_wf d k : dict_wf d → dict_wf (dpop k d).
Proof. unfold dict_wf. intros. by eapply sublist_NoDup, dkeys_dpop. Qed.

Lemma dget_dpop d k k' : dict_wf d →
  dget k (dpop k' d) = if decide (k = k') then None else dget k d.
Proof.
  unfold dict_wf, dkeys. induction d as [|[k1 v1] d IH]; csimpl.
  - by case_decide.
  - intros [Hk Hd]%NoDup_cons. specialize (IH Hd).
    destruct (decide (k' = k1)) as [->|Hne]; csimpl.
    + case_decide; subst; [by apply dget_None|done].
    + rewrite IH. by repeat case_decide; subst.
Qed.

Lemma dpop_absent d k : dget k d = None → dpop k d = d.
Proof.
  induction d as [|[k1 v1] d IH]; csimpl; [done|]. case_decide; [done|].
  intros. by rewrite IH.
Qed.

(** *** Bulk updates: the last binding of a key wins *)

Lemma dupdate_cons d k v u : dupdate d ((k, v) :: u) = dupdate (dset k v d) u.
Proof. done. Qed.

Lemma dupdate_app d u1 u2 : dupdate d (u1 ++ u2) = dupdate (dupdate d u1) u2.
Proof. unfold dupdate. by rewrite fold_left_app. Qed.

Lemma dupdate_wf d u : dict_wf d → dict_wf (dupdate d u).
Proof.
  revert d; induction u as [|[k v] u IH]; intros d Hd; [done|].
  rewrite dupdate_cons. by apply IH, dset_wf.
Qed.

Lemma dget_dupdate d u k : dict_wf u →
  dget k (dupdate d u) = match dget k u with Some v => Some v | None => dget k d end.
Proof.
  revert d; induction u as [|[k1 v1] u IH]; intros d Hu; [done|].
  unfold dict_wf, dkeys in Hu. apply NoDup_cons in Hu as [Hk Hu].
  rewrite dupdate_cons, IH by done. csimpl. rewrite dget_dset.
  case_decide; subst; [|done].
  by replace (dget k1 u) with (@None V) by (symmetry; by apply dget_None).
Qed.

Lemma elem_of_dkeys_dupdate d u k :
  k ∈ dkeys (dupdate d u) ↔ k ∈ dkeys d ∨ k ∈ dkeys u.
Proof.
  revert d; induction u as [|[k1 v1] u IH]; intros d.
  - change (dupdate d []) with d. change (dkeys []) with (@nil K). rewrite elem_of_nil. naive_solver.
  - change (dkeys ((k1, v1) :: u)) with (k1 :: dkeys u).
    rewrite dupdate_cons, IH, elem_of_dkeys_dset, elem_of_cons. naive_solver.
Qed.

Lemma dict_of_wf (l : list (K * V)) : dict_wf (dict_of l).
Proof. apply dupdate_wf, NoDup_nil_2. Qed.

(** [dict(d)] copies a dict: same bindings, same order. *)
Lemma dupdate_fresh d u :
  dict_wf u → (∀ k, k ∈ dkeys u → dget k d = None) → dupdate d u = d ++ u.
Proof.
  revert d; induction u as [|[k v] u IH]; intros d Hu Hd; [by rewrite app_nil_r|].
  unfold dict_wf, dkeys in Hu; csimpl in Hu. apply NoDup_cons in Hu as [Hk Hu].
  rewrite dupdate_cons, dset_fresh by (apply Hd; by left).
  rewrite IH, <-app_assoc; [done|done|].
  intros k' Hk'. rewrite <-dset_fresh with (k := k) by (apply Hd; by left).
  rewrite dget_dset_ne; [apply Hd; by right|]. by intros ->.
Qed.

(** An entry of such a dictionary stands in the list. *)
Lemma dget_dict_of (l : list (K * V)) k v : dget k (dict_of l) = Some v → (k, v) ∈ l.
Proof.
  enough (∀ d, (k, v) ∈ dupdate d l → (k, v) ∈ d ∨ (k, v) ∈ l) as Hgen.
  { intros H%dget_Some_elem. destruct (Hgen [] H) as [Hn|?]; [by apply not_elem_of_nil in Hn|done]. }
  induction l as [|[k' v'] l IH]; intros d Hd; [by left|].
  rewrite dupdate_cons in Hd. apply IH in Hd as [Hd|Hd]; [|right; by right].
  clear IH. induction d as [|[k1 v1] d IHd]; simpl in Hd.
  - apply list_elem_of_singleton in Hd. right. rewrite Hd. left.
  - destruct (decide (k' = k1)) as [->|]; apply elem_of_cons in Hd as [Hd|Hd].
    + right. rewrite Hd. left.
    + left. by right.
    + left. rewrite Hd. left.
    + destruct (IHd Hd) as [?|?]; [left; by right|by right].
Qed.

Lemma dict_of_id d : dict_wf d → dict_of d = d.
Proof. intros. unfold dict_of. by apply dupdate_fresh. Qed.
End lemmas.

(** [{k: f(v) for k, v in d.items()}]. *)
Lemma dget_fmap {K V V'} `{EqDecision K} (f : V → V') (d : dict K V) k :
  dget k ((λ '(k, v), (k, f v)) <$> d) = f <$> dget k d.
Proof. induction d as [|[k1 v1] d IH]; csimpl; [done|]. by case_decide. Qed.

Lemma dkeys_fmap {K V V'} (f : V → V') (d : dict K V) :
  dkeys ((λ '(k, v), (k, f v)) <$> d) = dkeys d.
Proof. unfold dkeys. rewrite <-list_fmap_compose. by apply list_fmap_ext; intros ? [??]. Qed.

#[export] Hint Rewrite @dget_dset_eq @dset_idem : py.
#[export] Hint Resolve dset_wf dpop_wf dupdate_wf dict_of_wf : py.

(** ** Mapping equality *)

Section equivalence.
Context {K V : Type} `{EqDecision K}.

#[export] Instance dequiv_equivalence : Equivalence (@dequiv K V _).
Proof.
  split; [by intros ??|by intros ????|].
  intros d1 d2 d3 H1 H2 k. by rewrite (H1 k), (H2 k).
Qed.

#[export] Instance dget_proper : Proper ((=) ==> dequiv ==> (=)) (@dget K V _).
Proof. intros k ? <- d1 d2 H. apply H. Qed.

#[export] Instance dmem_proper : Proper ((=) ==> dequiv ==> (=)) (@dmem K V _).
Proof. intros k ? <- d1 d2 H. unfold dmem. by rewrite H. Qed.

#[export] Instance dset_proper :
  Proper ((=) ==> (=) ==> dequiv ==> dequiv) (@dset K V _).
Proof. intros k ? <- v ? <- d1 d2 H k'. rewrite !dget_dset. by rewrite H. Qed.

#[export] Instance dupdate_proper : Proper (dequiv ==> (=) ==> dequiv) (@dupdate K V _).
Proof.
  intros d1 d2 H u ? <-. revert d1 d2 H.
  induction u as [|[k v] u IH]; intros d1 d2 H; [done|].
  rewrite !dupdate_cons. apply IH. by rewrite H.
Qed.
End equivalence.

(** ** Insertion of a list of values under their keys: the [defaultdict(list)] index *)

Section multi.
Context {K V : Type} `{EqDecision K}.

(** [d[k]] on a [defaultdict(list)], read without the entry a read creates. *)
Definition dget_list (k : K) (d : dict K (list V)) : list V := default [] (dget k d).

(** [d[k].append(v)] on a [defaultdict(list)]. *)
Definition dappend (k : K) (v : V) (d : dict K (list V)) : dict K (list V) :=
  dset k (dget_list k d ++ [v]) d.

Lemma dget_list_dappend k k' v d :
  dget_list k (dappend k' v d) =
    if decide (k = k') then dget_list k d ++ [v] else dget_list k d.
Proof.
  unfold dget_list at 1, dappend. rewrite dget_dset. by case_decide; subst.
Qed.
End multi.
