(* ===== verification/GraphTypes.v ===== *)
(** * Data model of the runtime graph

    Python values, and the classes of [_runtime_graph_types.py]: plans, edges,
    commands, sends, interrupts, events, exceptions, and what actions and
    routers may return.  A callable (action, router) is a function of its
    argument and of the world [W] it may read and change; it answers the new
    world, the values it emitted on the custom stream, and its result. *)

From S2P Require Import Prelude PyDict.

(** ** Python values *)

(** [Any]: the values a state, an update or an event detail holds.  [VObj] is
    an instance of a class with its fields (a frozen dataclass, a callable). *)
Inductive Value : Type :=
| VNone
| VBool (b : bool)
| VInt (z : Z)
| VStr (s : string)
| VBytes (s : string)
| VList (l : list Value)
| VTuple (l : list Value)
| VDict (d : list (string * Value))
| VObj (cls : string) (fields : list (string * Value)).

Definition is_none (v : Value) : bool := match v with VNone => true | _ => false end.

(** [bool(v)]. *)
Definition truthy (v : Value) : bool :=
  match v with
  | VNone => false
  | VBool b => b
  | VInt z => negb (z =? 0)
  | VStr s | VBytes s => negb (bool_decide (s = ""))
  | VList l | VTuple l => match l with [] => false | _ => true end
  | VDict d => match d with [] => false | _ => true end
  | VObj _ _ => true
  end.

(** [RuntimeState = dict[str, Any]]. *)
Definition RuntimeState : Type := dict string Value.

(** A tuple of strings, and a list of strings, as values. *)
Definition v_strs (l : list string) : Value := VTuple (VStr <$> l).
Definition v_str_list (l : list string) : Value := VList (VStr <$> l).
Definition v_opt_str (o : option string) : Value :=
  match o with Some s => VStr s | None => VNone end.

(** ** Plans *)

Definition START : string := "__start__".
Definition END : string := "__end__".

Record RuntimeGraphEdge : Type := Edge {
  edge_source : string;
  edge_target : string
}.

Record RuntimeGraphConditionalEdge : Type := ConditionalEdge {
  ce_source : string;
  ce_router : string;
  ce_routes : dict string string
}.

Record RuntimeGraphPlan : Type := Plan {
  plan_nodes : list string;
  plan_edges : list RuntimeGraphEdge;
  plan_conditional_edges : list RuntimeGraphConditionalEdge;
  plan_step_limit : Z;
  plan_metadata : dict string string
}.

#[export] Instance edge_eq_dec : EqDecision RuntimeGraphEdge.
Proof. solve_decision. Defined.
#[export] Instance conditional_edge_eq_dec : EqDecision RuntimeGraphConditionalEdge.
Proof. solve_decision. Defined.
#[export] Instance plan_eq_dec : EqDecision RuntimeGraphPlan.
Proof. solve_decision. Defined.

(** The plan as a value: what [RuntimeGraphProgram] stores in the state. *)
Definition v_edge (e : RuntimeGraphEdge) : Value :=
  VObj "RuntimeGraphEdge" [("source", VStr (edge_source e)); ("target", VStr (edge_target e))].
Definition v_conditional_edge (e : RuntimeGraphConditionalEdge) : Value :=
  VObj "RuntimeGraphConditionalEdge"
    [("source", VStr (ce_source e)); ("router", VStr (ce_router e));
     ("routes", VDict ((λ '(k, v), (k, VStr v)) <$> ce_routes e))].
Definition v_plan (p : RuntimeGraphPlan) : Value :=
  VObj "RuntimeGraphPlan"
    [("nodes", v_strs (plan_nodes p));
     ("edges", VTuple (v_edge <$> plan_edges p));
     ("conditional_edges", VTuple (v_conditional_edge <$> plan_conditional_edges p));
     ("step_limit", VInt (plan_step_limit p));
     ("metadata", VDict ((λ '(k, v), (k, VStr v)) <$> plan_metadata p))].

(** ** Control values *)

(** [goto: str | Sequence[str] | None]. *)
Inductive Goto : Type :=
| GotoNone
| GotoStr (s : string)
| GotoSeq (l : list string).

Record RuntimeGraphCommand : Type := Command {
  command_update : dict string Value;
  command_goto : Goto
}.

Definition goto_nodes (c : RuntimeGraphCommand) : list string :=
  match command_goto c with
  | GotoNone => []
  | GotoStr s => [s]
  | GotoSeq l => l
  end.

Record RuntimeGraphSend : Type := Send {
  send_target : string;
  send_update : dict string Value
}.

Record RuntimeGraphInterrupt : Type := Interrupt {
  interrupt_value : Value;
  interrupt_resumable : bool
}.

Record RuntimeGraphEvent : Type := Event {
  event_kind : string;
  event_node : option string;
  event_step : Z;
  event_detail : dict string Value
}.

(** An entry of the pending deque: [str | RuntimeGraphSend]. *)
Inductive PendingItem : Type :=
| PNode (s : string)
| PSend (s : RuntimeGraphSend).

Definition v_send (s : RuntimeGraphSend) : Value :=
  VObj "RuntimeGraphSend" [("target", VStr (send_target s)); ("update", VDict (send_update s))].
Definition v_pending (i : PendingItem) : Value :=
  match i with PNode s => VStr s | PSend s => v_send s end.

(** ** Exceptions *)

(** The fields of [RuntimeGraphInterrupted]; receipts are byte strings. *)
Record Interrupted : Type := MkInterrupted {
  int_interrupt : RuntimeGraphInterrupt;
  int_node : string;
  int_step : Z;
  int_state : RuntimeState;
  int_trace : list string;
  int_pending : list PendingItem;
  int_events : list RuntimeGraphEvent;
  int_validation_receipt : string;
  int_plan_digest : option string
}.

(** [RuntimeGraphInterrupted] derives from [RuntimeGraphError]; every other
    exception is its class name and its message. *)
Inductive Exn : Type :=
| RuntimeGraphError (msg : string)
| RuntimeGraphInterrupted (i : Interrupted)
| PyError (cls msg : string).

Definition KeyError (key : string) : Exn := PyError "KeyError" key.
Definition ValueError (msg : string) : Exn := PyError "ValueError" msg.
Definition AttributeError (msg : string) : Exn := PyError "AttributeError" msg.

(** ** What callables return *)

(** An element of a sequence an action returns. *)
Inductive SeqItem : Type :=
| SISend (s : RuntimeGraphSend)
| SIOther.

(** A returned value that is not awaitable.  [ROther cls] is an instance of a
    class that is none of the others (an [int], a [str], a coroutine). *)
Inductive RuntimeActionResult : Type :=
| RNone
| RMapping (d : dict string Value)
| RCommand (c : RuntimeGraphCommand)
| RInterrupt (i : RuntimeGraphInterrupt)
| RSend (s : RuntimeGraphSend)
| RSequence (l : list SeqItem)
| ROther (cls : string).

(** An element of a sequence a router returns. *)
Inductive RouteItem : Type :=
| RIStr (s : string)
| RISend (s : RuntimeGraphSend)
| RIOther.

(** [ROtherRoute r]: anything else, with its [repr]. *)
Inductive RuntimeRouteResult : Type :=
| RouteStr (s : string)
| RouteSend (s : RuntimeGraphSend)
| RouteSeq (l : list RouteItem) (repr : string)
| RouteOther (repr : string).

(** [RuntimeReducer = Callable[[Any, Any], Any]]. *)
Definition RuntimeReducer : Type := Value → Value → result Exn Value.

Section callables.
Context (W : Type).

(** One activation of Python code: the world after it, what it emitted, and
    the value it returned or the exception it raised. *)
Definition activation (A : Type) : Type := W * (list Value * result Exn A).

(** A result, or an awaitable that gives the result when it is awaited. *)
Inductive MaybeAwaitable (A : Type) : Type :=
| Direct (a : A)
| Awaitable (run : W → activation A).

Definition RuntimeAction : Type :=
  RuntimeState → W → activation (MaybeAwaitable RuntimeActionResult).
Definition RuntimeRouter : Type :=
  RuntimeState → W → activation (MaybeAwaitable RuntimeRouteResult).
End callables.
Arguments Direct {W A} a.
Arguments Awaitable {W A} run.

(** An action that changes nothing outside its result. *)
Definition pure_action {W} (f : RuntimeState → RuntimeActionResult) : RuntimeAction W :=
  λ s w, (w, ([], Ok (Direct (f s)))).
Definition pure_router {W} (f : RuntimeState → RuntimeRouteResult) : RuntimeRouter W :=
  λ s w, (w, ([], Ok (Direct (f s)))).
