(* ===== verification/GraphState.v ===== *)
(** * State merging and plan indexing ([_runtime_graph_state.py])

    The pure helpers of the executor: endpoint checks, edge indexes, the merge
    of an update through reducers, and the normalisation of what an action
    returned. *)

From S2P Require Import Prelude PyDict GraphTypes.

(** [NormalizedActionResult.update]: [None], a mapping, or whatever object the
    action returned in place of a mapping (its class is kept). *)
Inductive Update : Type :=
| UNone
| UMapping (d : dict string Value)
| UOther (cls : string).

Record NormalizedActionResult : Type := Normalized {
  nar_update : Update;
  nar_goto : list string;
  nar_controls_flow : bool;
  nar_sends : list RuntimeGraphSend;
  nar_interrupt : option RuntimeGraphInterrupt
}.

Definition check_endpoint (endpoint : string) (node_set : list string) : result Exn unit :=
  require (bool_decide (endpoint ∈ node_set) || bool_decide (endpoint = START)
           || bool_decide (endpoint = END))
    (RuntimeGraphError ("unknown runtime graph endpoint: " +:+ endpoint)).

Definition index_edges (edges : list RuntimeGraphEdge) : dict string (list string) :=
  fold_left (λ indexed e, dappend (edge_source e) (edge_target e) indexed) edges [].

Definition index_conditional_edges (edges : list RuntimeGraphConditionalEdge) :
    dict string (list RuntimeGraphConditionalEdge) :=
  fold_left (λ indexed e, dappend (ce_source e) e indexed) edges [].

(** One iteration of the loop of [merge_state]. *)
Definition merge_key (reducers : dict string RuntimeReducer) (merged : RuntimeState)
    (kv : string * Value) : result Exn RuntimeState :=
  let (key, value) := kv in
  match dget key merged, dget key reducers with
  | Some old, Some reducer => reducer old value ≫= λ v, Ok (dset key v merged)
  | _, _ => Ok (dset key value merged)
  end.

Definition merge_state (state : RuntimeState) (update : dict string Value)
    (reducers : dict string RuntimeReducer) : result Exn RuntimeState :=
  foldM (merge_key reducers) state update.

(** [update.items()] on an object that is not a mapping. *)
Definition update_items (u : Update) : result Exn (dict string Value) :=
  match u with
  | UMapping d => Ok d
  | UNone => Raise (AttributeError "'NoneType' object has no attribute 'items'")
  | UOther cls => Raise (AttributeError ("'" +:+ cls +:+ "' object has no attribute 'items'"))
  end.

Definition with_branch_update (state : RuntimeState) (update : option (dict string Value)) :
    RuntimeState :=
  match update with
  | Some u => dupdate state u
  | None => state
  end.

Definition as_send (i : SeqItem) : option RuntimeGraphSend :=
  match i with SISend s => Some s | SIOther => None end.

(** [is_send_sequence(result)] with the sends it holds; the empty sequence is one. *)
Definition is_send_sequence (result : RuntimeActionResult) : option (list RuntimeGraphSend) :=
  match result with
  | RSequence l => mapM as_send l
  | _ => None
  end.

Definition normalize_action_result (result : RuntimeActionResult) : NormalizedActionResult :=
  match result with
  | RInterrupt i => Normalized UNone [] true [] (Some i)
  | RCommand c =>
      let goto := goto_nodes c in
      Normalized (UMapping (command_update c)) goto
        (match goto with [] => false | _ => true end) [] None
  | RSend s => Normalized UNone [] true [s] None
  | _ =>
      match is_send_sequence result with
      | Some sends => Normalized UNone [] true sends None
      | None =>
          Normalized (match result with
                      | RMapping d => UMapping d
                      | ROther cls => UOther cls
                      | RSequence _ => UOther "list"
                      | _ => UNone
                      end) [] false [] None
      end
  end.

(** ** Indexing *)

Lemma dget_list_index_edges edges n :
  dget_list n (index_edges edges) =
    edge_target <$> filter (λ e, edge_source e = n) edges.
Proof.
  unfold index_edges.
  induction edges as [|e edges IH] using rev_ind; [done|].
  rewrite fold_left_app; simpl. rewrite dget_list_dappend, IH, filter_app, fmap_app.
  rewrite filter_cons, filter_nil. repeat case_decide; subst; try done.
  by rewrite app_nil_r.
Qed.

Lemma dget_list_index_conditional_edges edges n :
  dget_list n (index_conditional_edges edges) = filter (λ e, ce_source e = n) edges.
Proof.
  unfold index_conditional_edges.
  induction edges as [|e edges IH] using rev_ind; [done|].
  rewrite fold_left_app; simpl. rewrite dget_list_dappend, IH, filter_app.
  rewrite filter_cons, filter_nil. repeat case_decide; subst; try done.
  by rewrite app_nil_r.
Qed.

Lemma check_endpoint_Ok endpoint node_set :
  check_endpoint endpoint node_set = Ok () ↔
    endpoint ∈ node_set ∨ endpoint = START ∨ endpoint = END.
Proof.
  unfold check_endpoint. rewrite require_Ok, !orb_true_iff, !bool_decide_eq_true.
  naive_solver.
Qed.

(** ** Merging *)

(** What [merge_state] leaves under a key of a mapping: the reducer combines
    an old value with the new one only where the state already had the key. *)
Definition merged_value (reducers : dict string RuntimeReducer) (state : RuntimeState)
    (update : dict string Value) (k : string) : result Exn (option Value) :=
  match dget k update with
  | None => Ok (dget k state)
  | Some v =>
      match dget k state, dget k reducers with
      | Some old, Some reducer => reducer old v ≫= λ v', Ok (Some v')
      | _, _ => Ok (Some v)
      end
  end.

Lemma merge_key_frame reducers s kv s' k :
  merge_key reducers s kv = Ok s' → k ≠ kv.1 → dget k s' = dget k s.
Proof.
  destruct kv as [k' v]. unfold merge_key; simpl. intros Hm Hk.
  destruct (dget k' s), (dget k' reducers); inv_result; by rewrite dget_dset_ne.
Qed.

Lemma merge_key_value reducers s k v s' :
  merge_key reducers s (k, v) = Ok s' →
  merged_value reducers s [(k, v)] k = Ok (dget k s').
Proof.
  unfold merge_key, merged_value; simpl. rewrite decide_True by done.
  destruct (dget k s) as [old|], (dget k reducers) as [red|]; intros; inv_result;
    rewrite ?dget_dset_eq; try done.
  match goal with H : red _ _ = _ |- _ => by rewrite H end.
Qed.

Lemma merge_state_frame reducers u s s' k :
  merge_state s u reducers = Ok s' → k ∉ dkeys u → dget k s' = dget k s.
Proof.
  unfold merge_state. revert s; induction u as [|kv u IH]; intros s; simpl.
  - intros; inv_result; done.
  - intros Hf Hk; inv_result.
    unfold dkeys in Hk; csimpl in Hk. apply not_elem_of_cons in Hk as [Hk1 Hk2].
    erewrite IH by done. by eapply merge_key_frame.
Qed.

Lemma merge_state_get reducers u s s' k :
  dict_wf u → merge_state s u reducers = Ok s' →
  merged_value reducers s u k = Ok (dget k s').
Proof.
  unfold merge_state. revert s; induction u as [|[k1 v1] u IH]; intros s Hu; cbn [foldM].
  - intros; inv_result; done.
  - intros (s1 & Hm & Hf)%bind_Ok.
    unfold dict_wf, dkeys in Hu; csimpl in Hu. apply NoDup_cons in Hu as [Hk1 Hu].
    destruct (decide (k = k1)) as [->|Hne].
    + rewrite (merge_state_frame reducers u s1 s' k1) by done.
      rewrite <-(merge_key_value _ _ _ _ _ Hm).
      unfold merged_value; simpl. by rewrite !decide_True.
    + rewrite <-(IH s1 Hu Hf). unfold merged_value; simpl.
      rewrite decide_False by done.
      by rewrite (merge_key_frame _ _ _ _ k Hm Hne).
Qed.

Lemma merge_key_keys reducers s kv s' :
  merge_key reducers s kv = Ok s' →
  dkeys s' = if dmem kv.1 s then dkeys s else dkeys s ++ [kv.1].
Proof.
  destruct kv as [k' v]. unfold merge_key; simpl.
  destruct (dget k' s), (dget k' reducers); intros; inv_result; apply dkeys_dset.
Qed.

(** Keys are never lost, keep their order, and new ones come after the old. *)
Lemma merge_state_keys reducers u s s' :
  merge_state s u reducers = Ok s' →
  ∃ fresh, dkeys s' = dkeys s ++ fresh ∧ fresh `sublist_of` dkeys u.
Proof.
  unfold merge_state. revert s; induction u as [|kv u IH]; intros s; cbn [foldM].
  - intros; inv_result. exists []. by rewrite app_nil_r.
  - intros (s1 & Hm & Hf')%bind_Ok. destruct (IH s1 Hf') as (fresh & Hf & Hsub).
    apply merge_key_keys in Hm as Hk.
    change (dkeys (kv :: u)) with (kv.1 :: dkeys u). destruct (dmem kv.1 s).
    + exists fresh. rewrite Hf, Hk. split; [done|by apply sublist_cons].
    + exists (kv.1 :: fresh). rewrite Hf, Hk, <-app_assoc. split; [done|by apply sublist_skip].
Qed.

Lemma merge_state_wf reducers u s s' :
  dict_wf s → merge_state s u reducers = Ok s' → dict_wf s'.
Proof.
  intros Hs. unfold merge_state.
  apply (foldM_inv (λ _, dict_wf)); [done|]. clear.
  intros _ [k v] s1 s2 _ Hs1 Hm. unfold merge_key in Hm.
  destruct (dget k s1), (dget k reducers); inv_result; auto with py.
Qed.

(** Without reducers an update is Python's [{**state, **update}]. *)
Lemma merge_state_no_reducers s u : merge_state s u [] = Ok (dupdate s u).
Proof.
  unfold merge_state. revert s; induction u as [|[k v] u IH]; intros s; [done|].
  simpl. destruct (dget k s); simpl; apply IH.
Qed.
