(* ===== verification/Checkpoint.v ===== *)
(** * Checkpoint records and the checkpointer interface ([checkpoints.py])

    The immutable record a run leaves behind, its conversions from and to an
    interrupt, and the operations a checkpointer offers to programs.  Each
    operation is a function of the world [W] that holds the checkpointer's
    storage; [MemoryCheckpointer], [FileCheckpointer] and [DurableStore] give the
    implementations. *)

From S2P Require Import Prelude PyDict GraphTypes.

Record RuntimeGraphCheckpoint : Type := Checkpoint {
  cp_checkpoint_id : string;
  cp_thread_id : string;
  cp_interrupt : option RuntimeGraphInterrupt;
  cp_node : string;
  cp_step : Z;
  cp_state : RuntimeState;
  cp_trace : list string;
  cp_pending : list PendingItem;
  cp_events : list RuntimeGraphEvent;
  cp_validation_receipt : string;
  cp_plan_digest : option string
}.

Definition RuntimeGraphCheckpointError (msg : string) : Exn :=
  PyError "RuntimeGraphCheckpointError" msg.

(** [dataclasses.replace(checkpoint, checkpoint_id=...)] and the like. *)
Definition cp_with_id (id : string) (c : RuntimeGraphCheckpoint) : RuntimeGraphCheckpoint :=
  Checkpoint id (cp_thread_id c) (cp_interrupt c) (cp_node c) (cp_step c) (cp_state c)
    (cp_trace c) (cp_pending c) (cp_events c) (cp_validation_receipt c) (cp_plan_digest c).
Definition cp_with_state (s : RuntimeState) (c : RuntimeGraphCheckpoint) : RuntimeGraphCheckpoint :=
  Checkpoint (cp_checkpoint_id c) (cp_thread_id c) (cp_interrupt c) (cp_node c) (cp_step c) s
    (cp_trace c) (cp_pending c) (cp_events c) (cp_validation_receipt c) (cp_plan_digest c).

(** [_assign_checkpoint_id], given the text of [time_ns()-uuid4()]. *)
Definition assign_checkpoint_id (fresh : string) (c : RuntimeGraphCheckpoint) :
    RuntimeGraphCheckpoint :=
  Checkpoint fresh (cp_thread_id c) (cp_interrupt c) (cp_node c) (cp_step c) (cp_state c)
    (cp_trace c) (cp_pending c) (cp_events c) (cp_validation_receipt c) (cp_plan_digest c).

(** [RuntimeGraphCheckpoint.from_interrupted]. *)
Definition checkpoint_from_interrupted (thread_id : string) (i : Interrupted) :
    RuntimeGraphCheckpoint :=
  Checkpoint "" thread_id (Some (int_interrupt i)) (int_node i) (int_step i) (int_state i)
    (int_trace i) (int_pending i) (int_events i) (int_validation_receipt i)
    (int_plan_digest i).

(** [RuntimeGraphCheckpoint.to_interrupted]. *)
Definition to_interrupted (c : RuntimeGraphCheckpoint) : result Exn Interrupted :=
  match cp_interrupt c with
  | None => Raise (RuntimeGraphCheckpointError "checkpoint does not contain an interrupt")
  | Some i =>
      Ok (MkInterrupted i (cp_node c) (cp_step c) (cp_state c) (cp_trace c) (cp_pending c)
            (cp_events c) (cp_validation_receipt c) (cp_plan_digest c))
  end.

(** [RuntimeGraphCheckpoint.with_state_update]. *)
Definition with_state_update (c : RuntimeGraphCheckpoint) (update : dict string Value)
    (replace : bool) : RuntimeGraphCheckpoint :=
  let state := if replace then update else dupdate (cp_state c) update in
  Checkpoint "" (cp_thread_id c) (cp_interrupt c) (cp_node c) (cp_step c) state
    (cp_trace c) (cp_pending c) (cp_events c) (cp_validation_receipt c) (cp_plan_digest c).

(** ** The interface *)

Record Checkpointer (W : Type) : Type := MkCheckpointer {
  ckpt_save : RuntimeGraphCheckpoint → W → W * result Exn RuntimeGraphCheckpoint;
  ckpt_load : string → W → result Exn RuntimeGraphCheckpoint;
  ckpt_load_at : string → string → W → result Exn RuntimeGraphCheckpoint;
  ckpt_history : string → W → result Exn (list RuntimeGraphCheckpoint);
  ckpt_has : string → W → bool;
  ckpt_clear : string → W → W * result Exn unit
}.
Arguments MkCheckpointer {W}.
Arguments ckpt_save {W}.
Arguments ckpt_load {W}.
Arguments ckpt_load_at {W}.
Arguments ckpt_history {W}.
Arguments ckpt_has {W}.
Arguments ckpt_clear {W}.

Section derived.
Context {W : Type} (C : Checkpointer W).

(** The methods every implementation derives from the others. *)
Definition ckpt_save_interrupted (thread_id : string) (i : Interrupted) (w : W) :
    W * result Exn RuntimeGraphCheckpoint :=
  ckpt_save C (checkpoint_from_interrupted thread_id i) w.

Definition ckpt_load_interrupted (thread_id : string) (w : W) : result Exn Interrupted :=
  ckpt_load C thread_id w ≫= to_interrupted.

Definition ckpt_inspect (thread_id : string) (w : W) : result Exn RuntimeGraphCheckpoint :=
  ckpt_load C thread_id w.

Definition ckpt_update_state (thread_id : string) (update : dict string Value)
    (replace : bool) (w : W) : W * result Exn RuntimeGraphCheckpoint :=
  match ckpt_load C thread_id w with
  | Raise e => (w, Raise e)
  | Ok c => ckpt_save C (with_state_update c update replace) w
  end.
End derived.

(** ** What a checkpointer promises

    A checkpointer keeps, for every thread, the list of the checkpoints saved
    for it, oldest first: [history].  Programs are proved against this class;
    the implementations are instances of it. *)
Definition missing_checkpoint (what : string) : Exn :=
  RuntimeGraphCheckpointError ("missing runtime graph checkpoint: " +:+ what).

Class CheckpointerSpec {W : Type} (C : Checkpointer W) (inv : W → Prop)
    (history : W → string → list RuntimeGraphCheckpoint) : Prop := {
  spec_save w c : inv w → cp_checkpoint_id c = "" →
    ∃ id w', ckpt_save C c w = (w', Ok (cp_with_id id c)) ∧ id ≠ "" ∧
      id ∉ cp_checkpoint_id <$> history w (cp_thread_id c) ∧ inv w' ∧
      ∀ t, history w' t = if decide (t = cp_thread_id c)
                          then history w t ++ [cp_with_id id c] else history w t;
  spec_load w t : inv w →
    ckpt_load C t w = of_option (missing_checkpoint t) (last (history w t));
  spec_load_at w t id : inv w →
    ckpt_load_at C t id w =
      of_option (missing_checkpoint (t +:+ "/" +:+ id))
        (head (filter (λ c, cp_checkpoint_id c = id) (history w t)));
  spec_history w t : inv w → ckpt_history C t w = Ok (history w t);
  spec_has w t : inv w → ckpt_has C t w = negb (bool_decide (history w t = []));
  spec_clear w t : inv w →
    ∃ w', ckpt_clear C t w = (w', Ok ()) ∧ inv w' ∧
      ∀ t', history w' t' = if decide (t' = t) then [] else history w t'
}.

(** A weaker promise, which a checkpointer that forgets old checkpoints keeps
    too: what was saved last for a thread is what loads. *)
Class KeepsLatest {W : Type} (C : Checkpointer W) (inv : W → Prop) : Prop := {
  latest_save w c : inv w → cp_checkpoint_id c = "" →
    ∃ id w', ckpt_save C c w = (w', Ok (cp_with_id id c)) ∧ id ≠ "" ∧ inv w' ∧
      ckpt_load C (cp_thread_id c) w' = Ok (cp_with_id id c) ∧
      ∀ t, t ≠ cp_thread_id c → ckpt_load C t w' = ckpt_load C t w
}.

#[export] Instance history_keeps_latest {W} (C : Checkpointer W) inv history
    `{!CheckpointerSpec C inv history} : KeepsLatest C inv.
Proof.
  split. intros w c Hw Hc. destruct (spec_save w c Hw Hc) as (id & w' & Hs & Hid & _ & Hw' & Hh).
  exists id, w'. split_and!; try done.
  - rewrite spec_load, Hh, decide_True, last_snoc by done. done.
  - intros t Ht. rewrite !spec_load, Hh, decide_False by done. done.
Qed.

(** ** Interrupts survive the conversion *)

Lemma to_interrupted_from_interrupted thread_id i :
  to_interrupted (checkpoint_from_interrupted thread_id i) = Ok i.
Proof. by destruct i. Qed.

Lemma to_interrupted_with_id id c : to_interrupted (cp_with_id id c) = to_interrupted c.
Proof. by destruct c. Qed.

Lemma assign_checkpoint_id_eq fresh c : assign_checkpoint_id fresh c = cp_with_id fresh c.
Proof. done. Qed.

#[export] Hint Rewrite to_interrupted_from_interrupted to_interrupted_with_id
  assign_checkpoint_id_eq : py.
