(* ===== verification/GraphRuntime.v ===== *)
(** * The runtime configuration handed to graphs ([runtime.py]) *)

From S2P Require Import Prelude PyDict GraphTypes Checkpoint.

(** The negotiated native session: the model keeps the flag the code reads. *)
Record NativeContext : Type := MkNativeContext { nc_closed : bool }.

Record RuntimeGraphRuntime (W : Type) : Type := MkRuntime {
  rt_thread_id : option string;
  rt_store : option Value;
  rt_checkpointer : option (Checkpointer W);
  rt_metadata : dict string Value;
  rt_backend : string;
  rt_native_context : option NativeContext
}.
Arguments MkRuntime {W}.
Arguments rt_thread_id {W}.
Arguments rt_store {W}.
Arguments rt_checkpointer {W}.
Arguments rt_metadata {W}.
Arguments rt_backend {W}.
Arguments rt_native_context {W}.

Definition RuntimeGraphRuntimeError (msg : string) : Exn :=
  PyError "RuntimeGraphRuntimeError" msg.

Definition CUSTOM_STREAM_KEY : string := "_poo_flow_runtime_custom_stream".

Section runtime.
Context {W : Type}.
Implicit Types (rt : RuntimeGraphRuntime W).

(** [RuntimeGraphRuntime.__post_init__]. *)
Definition runtime_post_init rt : result Exn (RuntimeGraphRuntime W) :=
  if negb (bool_decide (rt_backend rt = "native") || bool_decide (rt_backend rt = "reference"))
  then Raise (RuntimeGraphRuntimeError ("unknown runtime backend: " +:+ rt_backend rt))
  else if bool_decide (rt_backend rt = "reference")
            && match rt_native_context rt with Some _ => true | None => false end
  then Raise (RuntimeGraphRuntimeError
                "reference backend cannot carry a native runtime context")
  else Ok rt.

(** [RuntimeGraphRuntime()]: no thread, no stores, native backend without a context. *)
Definition default_runtime : RuntimeGraphRuntime W :=
  MkRuntime None None None [] "native" None.

(** [RuntimeGraphRuntime.reference()] without arguments. *)
Definition runtime_reference : RuntimeGraphRuntime W :=
  MkRuntime None None None [] "reference" None.

(** [RuntimeGraphRuntime.native(native_context)]. *)
Definition runtime_native (ctx : option NativeContext) : result Exn (RuntimeGraphRuntime W) :=
  match ctx with
  | None => Raise (RuntimeGraphRuntimeError "native runtime context is required")
  | Some c => runtime_post_init (MkRuntime None None None [] "native" (Some c))
  end.

Definition require_native_context rt : result Exn NativeContext :=
  if negb (bool_decide (rt_backend rt = "native"))
  then Raise (RuntimeGraphRuntimeError
                "production runtime requires a negotiated native context")
  else match rt_native_context rt with
       | None => Raise (RuntimeGraphRuntimeError
                          "production runtime requires a negotiated native context")
       | Some c =>
           if nc_closed c
           then Raise (RuntimeGraphRuntimeError "native runtime context is closed")
           else Ok c
       end.

(** [emit_custom(value)]: the value it returns and what it delivers to the
    sink in the metadata — a list (it has [append]), or a callable object. *)
Definition emit_custom rt (value : Value) : result Exn (Value * list Value) :=
  match dget CUSTOM_STREAM_KEY (rt_metadata rt) with
  | None | Some VNone => Ok (value, [])
  | Some (VList _) => Ok (value, [value])
  | Some (VObj "callable" _) => Ok (value, [value])
  | Some _ => Raise (RuntimeGraphRuntimeError
                       "runtime custom stream sink is not appendable or callable")
  end.

Definition require_thread_id rt : result Exn string :=
  of_option (RuntimeGraphRuntimeError "runtime graph thread_id is not configured")
    (rt_thread_id rt).

Definition require_store rt : result Exn Value :=
  of_option (RuntimeGraphRuntimeError "runtime graph store is not configured")
    (rt_store rt).

Definition require_checkpointer rt : result Exn (Checkpointer W) :=
  of_option (RuntimeGraphRuntimeError "runtime graph checkpointer is not configured")
    (rt_checkpointer rt).
End runtime.

(** ** Backend confinement *)

(** A runtime that was constructed is native or reference, and a reference
    runtime never carries a native context. *)
Definition runtime_wf {W} (rt : RuntimeGraphRuntime W) : Prop :=
  (rt_backend rt = "native" ∨ rt_backend rt = "reference") ∧
  (rt_backend rt = "reference" → rt_native_context rt = None).

Lemma runtime_post_init_Ok {W} (rt rt' : RuntimeGraphRuntime W) :
  runtime_post_init rt = Ok rt' ↔ rt' = rt ∧ runtime_wf rt.
Proof.
  unfold runtime_post_init, runtime_wf.
  destruct (decide (rt_backend rt = "native")) as [->|Hn]; simpl.
  - naive_solver.
  - rewrite (bool_decide_eq_false_2 (_ = "native")) by done; simpl.
    case_bool_decide as Hr; simpl; [|naive_solver].
    destruct (rt_native_context rt); naive_solver.
Qed.

Lemma require_native_context_Ok {W} (rt : RuntimeGraphRuntime W) c :
  require_native_context rt = Ok c ↔
    rt_backend rt = "native" ∧ rt_native_context rt = Some c ∧ nc_closed c = false.
Proof.
  unfold require_native_context.
  destruct (decide (rt_backend rt = "native")) as [->|Hn]; simpl.
  - destruct (rt_native_context rt) as [c'|]; [destruct (nc_closed c') eqn:?|];
      (split; [intros ?; simplify_eq; split_and!|intros (_ & ? & ?)]); congruence.
  - rewrite bool_decide_eq_false_2 by done. split; [done|]. by intros [??].
Qed.
