(* ===== verification/GraphContext.v ===== *)
(** * The run context and the effects of a run ([_runtime_graph_context.py])

    [GraphRunContext] is the mutable object one run works on.  A method that
    mutates it is a computation [M]; a generator method is a computation [Gen],
    which also collects what was yielded — also when an exception ends it — and
    answers [None] when the fuel of a [while] loop ran out. *)

From S2P Require Import Prelude PyDict GraphTypes.

Record GraphRunContext : Type := MkContext {
  ctx_state : RuntimeState;
  ctx_pending : list PendingItem;
  ctx_trace : list string;
  ctx_events : list RuntimeGraphEvent;
  ctx_step : Z
}.

(** ** Attribute assignment *)

Definition set_state (s : RuntimeState) (c : GraphRunContext) : GraphRunContext :=
  MkContext s (ctx_pending c) (ctx_trace c) (ctx_events c) (ctx_step c).
Definition set_pending (p : list PendingItem) (c : GraphRunContext) : GraphRunContext :=
  MkContext (ctx_state c) p (ctx_trace c) (ctx_events c) (ctx_step c).
Definition set_trace (t : list string) (c : GraphRunContext) : GraphRunContext :=
  MkContext (ctx_state c) (ctx_pending c) t (ctx_events c) (ctx_step c).
Definition set_events (l : list RuntimeGraphEvent) (c : GraphRunContext) : GraphRunContext :=
  MkContext (ctx_state c) (ctx_pending c) (ctx_trace c) l (ctx_step c).
Definition set_step (n : Z) (c : GraphRunContext) : GraphRunContext :=
  MkContext (ctx_state c) (ctx_pending c) (ctx_trace c) (ctx_events c) n.

(** [GraphRunContext(...)] on a fresh run: [start] is [executor._edges[START]].
    [from_owned] differs from [from_initial] in taking the dictionary without
    copying it; the caller gives it up, so the copy is not observable. *)
Definition from_initial (start : list string) (initial_state : RuntimeState) : GraphRunContext :=
  MkContext initial_state (PNode <$> start) [] [] 0.

Definition from_owned (start : list string) (initial_state : RuntimeState) : GraphRunContext :=
  MkContext initial_state (PNode <$> start) [] [] 0.

Definition from_interrupted (i : Interrupted) : GraphRunContext :=
  MkContext (int_state i) (int_pending i) (int_trace i) (int_events i) (int_step i).

(** What a run mutates: its context, the world of the callables, and the list
    of values the callables emitted on the custom stream. *)
Record ExecState (W : Type) : Type := MkExec {
  es_ctx : GraphRunContext;
  es_world : W;
  es_custom : list Value
}.
Arguments MkExec {W}.
Arguments es_ctx {W}.
Arguments es_world {W}.
Arguments es_custom {W}.

(** ** The monads *)

Definition M (W A : Type) : Type := ExecState W → ExecState W * result Exn A.

Definition Gen (W Y A : Type) : Type :=
  ExecState W → option (list Y * (ExecState W * result Exn A)).

#[export] Instance M_ret {W} : MRet (M W) := λ A a s, (s, Ok a).
#[export] Instance M_bind {W} : MBind (M W) := λ A B f m s,
  match m s with
  | (s', Ok a) => f a s'
  | (s', Raise e) => (s', Raise e)
  end.

#[export] Instance Gen_ret {W Y} : MRet (Gen W Y) := λ A a s, Some ([], (s, Ok a)).
#[export] Instance Gen_bind {W Y} : MBind (Gen W Y) := λ A B f m s,
  match m s with
  | None => None
  | Some (ys, (s', Raise e)) => Some (ys, (s', Raise e))
  | Some (ys, (s', Ok a)) =>
      match f a s' with
      | None => None
      | Some (ys', o) => Some (ys ++ ys', o)
      end
  end.

Section effects.
Context {W : Type}.

Definition get_ctx : M W GraphRunContext := λ s, (s, Ok (es_ctx s)).
Definition get_custom : M W (list Value) := λ s, (s, Ok (es_custom s)).
Definition modify_ctx (f : GraphRunContext → GraphRunContext) : M W unit := λ s,
  (MkExec (f (es_ctx s)) (es_world s) (es_custom s), Ok ()).
Definition raise {A} (e : Exn) : M W A := λ s, (s, Raise e).
Definition lift_result {A} (r : result Exn A) : M W A := λ s, (s, r).

(** Calling Python code that runs in the world. *)
Definition run_activation {A} (f : W → activation W A) : M W A := λ s,
  let '(w, (emitted, r)) := f (es_world s) in
  (MkExec (es_ctx s) w (es_custom s ++ emitted), r).

Definition call {Y A} (m : M W A) : Gen W Y A := λ s, Some ([], m s).
Definition yield_from {Y} (l : list Y) : Gen W Y unit := λ s, Some (l, (s, Ok ())).

(** [for y in g: yield from f(y)], for an [f] without effects. *)
Definition flat_map_gen {Y Y' A} (f : Y → list Y') (g : Gen W Y A) : Gen W Y' A := λ s,
  match g s with
  | None => None
  | Some (ys, o) => Some (ys ≫= f, o)
  end.

(** [for _ in g: pass]. *)
Definition drain {Y Y' A} (g : Gen W Y A) : Gen W Y' A := flat_map_gen (λ _, []) g.

(** [while context.pending: body]. *)
Fixpoint while_pending {Y} (fuel : nat) (body : Gen W Y unit) : Gen W Y unit := λ s,
  match ctx_pending (es_ctx s) with
  | [] => Some ([], (s, Ok ()))
  | _ :: _ =>
      match fuel with
      | O => None
      | S n => (body ≫= λ _, while_pending n body) s
      end
  end.

(** ** Methods *)

(** [next_node]: [popleft] of the pending deque. *)
Definition next_node : M W (string * option (dict string Value)) :=
  c ← get_ctx;
  match ctx_pending c with
  | [] => raise (PyError "IndexError" "pop from an empty deque")
  | PSend send :: rest =>
      _ ← modify_ctx (set_pending rest);
      mret (send_target send, Some (send_update send))
  | PNode node :: rest =>
      _ ← modify_ctx (set_pending rest);
      mret (node, None)
  end.

Definition advance_step (step_limit : Z) : M W unit :=
  _ ← modify_ctx (λ c, set_step (ctx_step c + 1) c);
  c ← get_ctx;
  if step_limit <? ctx_step c
  then raise (RuntimeGraphError "runtime graph step limit exceeded")
  else mret ().

Definition publish (kind : string) (node : option string) (step : Z)
    (detail : dict string Value) : M W RuntimeGraphEvent :=
  let event := Event kind node step detail in
  _ ← modify_ctx (λ c, set_events (ctx_events c ++ [event]) c);
  mret event.
End effects.

(** [record_trace]: the trace is stored under [trace_key] in the run's own state. *)
Definition record_trace (trace_key : option string) (c : GraphRunContext) : GraphRunContext :=
  match trace_key with
  | Some k => set_state (dset k (v_str_list (ctx_trace c)) (ctx_state c)) c
  | None => c
  end.

(** ** Fuel *)

Section fuel.
Context {W Y : Type}.

(** A family of generators that more fuel cannot change. *)
Definition gen_monotone {A} (g : nat → Gen W Y A) : Prop :=
  ∀ n m s r, (n ≤ m)%nat → g n s = Some r → g m s = Some r.

Lemma gen_monotone_const {A} (g : Gen W Y A) : gen_monotone (λ _, g).
Proof. by intros n m s r _. Qed.

Lemma gen_monotone_bind {A B} (g : nat → Gen W Y A) (k : nat → A → Gen W Y B) :
  gen_monotone g → (∀ a, gen_monotone (λ n, k n a)) →
  gen_monotone (λ n, g n ≫= k n).
Proof.
  intros Hg Hk n m s r Hle. unfold mbind, Gen_bind.
  destruct (g n s) as [[ys [s' [a|e]]]|] eqn:E; [| |done];
    rewrite (Hg _ _ _ _ Hle E); [|done].
  destruct (k n a s') as [[ys' o]|] eqn:E'; [|done].
  by rewrite (Hk a _ _ _ _ Hle E').
Qed.

Lemma gen_monotone_flat_map {Y' A} (f : Y → list Y') (g : nat → Gen W Y A) :
  gen_monotone g → ∀ n m s r, (n ≤ m)%nat →
  flat_map_gen f (g n) s = Some r → flat_map_gen f (g m) s = Some r.
Proof.
  intros Hg n m s r Hle. unfold flat_map_gen.
  destruct (g n s) as [[ys o]|] eqn:E; [|done]. by rewrite (Hg _ _ _ _ Hle E).
Qed.

Lemma while_pending_monotone (body : Gen W Y unit) :
  gen_monotone (λ n, while_pending n body).
Proof.
  intros n; induction n as [|n IH]; intros m s r Hle; simpl.
  - destruct m; simpl; by destruct (ctx_pending (es_ctx s)).
  - destruct m as [|m]; [lia|]; simpl.
    destruct (ctx_pending (es_ctx s)) as [|i p]; [done|].
    unfold mbind, Gen_bind. destruct (body s) as [[ys [s' [a|e]]]|]; [|done|done].
    destruct (while_pending n body s') as [[ys' o]|] eqn:E; [|done].
    by rewrite (IH m s' _ ltac:(lia) E).
Qed.
End fuel.

#[export] Hint Resolve gen_monotone_const gen_monotone_bind while_pending_monotone : py.

(** ** How computations end *)

Section inversion.
Context {W : Type}.

Lemma M_bind_Ok {A B} (m : M W A) (f : A → M W B) s s' b :
  (m ≫= f) s = (s', Ok b) ↔ ∃ s1 a, m s = (s1, Ok a) ∧ f a s1 = (s', Ok b).
Proof. unfold mbind, M_bind. destruct (m s) as [s1 [a|e]]; naive_solver. Qed.

Lemma M_bind_Raise {A B} (m : M W A) (f : A → M W B) s s' e :
  (m ≫= f) s = (s', Raise e) ↔
    m s = (s', Raise e) ∨ ∃ s1 a, m s = (s1, Ok a) ∧ f a s1 = (s', Raise e).
Proof. unfold mbind, M_bind. destruct (m s) as [s1 [a|e']]; naive_solver. Qed.

Lemma Gen_bind_Ok {Y A B} (g : Gen W Y A) (f : A → Gen W Y B) s ys s' b :
  (g ≫= f) s = Some (ys, (s', Ok b)) ↔
    ∃ ys1 s1 a ys2, g s = Some (ys1, (s1, Ok a)) ∧
      f a s1 = Some (ys2, (s', Ok b)) ∧ ys = ys1 ++ ys2.
Proof.
  unfold mbind, Gen_bind. destruct (g s) as [[ys1 [s1 [a|e]]]|]; [|naive_solver..].
  destruct (f a s1) as [[ys2 [s2 r]]|] eqn:E; [|naive_solver].
  split.
  - intros [= <- -> ->]. naive_solver.
  - intros (?&?&?&?&?&Hf&?). by simplify_eq.
Qed.

Lemma call_Some {Y A} (m : M W A) s (ys : list Y) o :
  call m s = Some (ys, o) ↔ ys = [] ∧ m s = o.
Proof. unfold call. naive_solver. Qed.

Lemma yield_from_Some {Y} (l ys : list Y) (s : ExecState W) o :
  yield_from l s = Some (ys, o) ↔ ys = l ∧ o = (s, Ok ()).
Proof. unfold yield_from. naive_solver. Qed.
End inversion.

(** Takes apart every hypothesis that says how a monadic computation ended. *)
Ltac inv_gen :=
  repeat match goal with
  | H : (_ ≫= _) _ = Some (_, (_, Ok _)) |- _ => apply Gen_bind_Ok in H as (?&?&?&?&?&?&->)
  | H : (_ ≫= _) _ = (_, Ok _) |- _ => apply M_bind_Ok in H as (?&?&?&?)
  | H : call _ _ = Some _ |- _ => apply call_Some in H as [-> ?]
  | H : yield_from _ _ = Some _ |- _ => apply yield_from_Some in H as [-> ?]
  | H : mret _ _ = (_, _) |- _ => injection H as H; subst
  | H : mret _ _ = Some (_, _) |- _ => injection H as H; subst
  | H : get_ctx _ = (_, _) |- _ => injection H as H; subst
  | H : get_custom _ = (_, _) |- _ => injection H as H; subst
  | H : modify_ctx _ _ = (_, _) |- _ => injection H as H; subst
  | H : raise _ _ = (_, Ok _) |- _ => discriminate H
  | H : lift_result _ _ = (_, _) |- _ => injection H as H; subst
  end; simplify_eq/=.

(** ** Pointwise equality of computations *)

Definition m_equiv {W A} (m1 m2 : M W A) : Prop := ∀ s, m1 s = m2 s.
Definition gen_equiv {W Y A} (g1 g2 : Gen W Y A) : Prop := ∀ s, g1 s = g2 s.

Declare Scope gen_scope.
Delimit Scope gen_scope with gen.
Infix "≈" := m_equiv (at level 70, no associativity) : py_scope.
Infix "≈" := gen_equiv (at level 70, no associativity) : gen_scope.

#[export] Instance m_equiv_equivalence {W A} : Equivalence (@m_equiv W A).
Proof. split; [by intros ??|by intros ????|]. intros m1 m2 m3 H1 H2 s. by rewrite H1. Qed.
#[export] Instance gen_equiv_equivalence {W Y A} : Equivalence (@gen_equiv W Y A).
Proof. split; [by intros ??|by intros ????|]. intros m1 m2 m3 H1 H2 s. by rewrite H1. Qed.

#[export] Instance M_bind_proper {W A B} :
  Proper (pointwise_relation A m_equiv ==> m_equiv ==> m_equiv) (@mbind (M W) M_bind A B).
Proof.
  intros f1 f2 Hf m1 m2 Hm s. unfold mbind, M_bind. rewrite (Hm s).
  destruct (m2 s) as [s' [a|e]]; [apply Hf|done].
Qed.

#[export] Instance Gen_bind_proper {W Y A B} :
  Proper (pointwise_relation A gen_equiv ==> gen_equiv ==> gen_equiv)
    (@mbind (Gen W Y) Gen_bind A B).
Proof.
  intros f1 f2 Hf m1 m2 Hm s. unfold mbind, Gen_bind. rewrite (Hm s).
  destruct (m2 s) as [[ys [s' [a|e]]]|]; [|done..]. by rewrite (Hf a s').
Qed.

#[export] Instance call_proper {W Y A} :
  Proper (m_equiv ==> gen_equiv) (@call W Y A).
Proof. intros m1 m2 Hm s. unfold call. by rewrite (Hm s). Qed.

#[export] Instance flat_map_gen_proper {W Y Y' A} (f : Y → list Y') :
  Proper (gen_equiv ==> gen_equiv) (@flat_map_gen W Y Y' A f).
Proof. intros g1 g2 Hg s. unfold flat_map_gen. by rewrite (Hg s). Qed.

#[export] Instance drain_proper {W Y Y' A} :
  Proper (gen_equiv ==> gen_equiv) (@drain W Y Y' A).
Proof. intros g1 g2 Hg. unfold drain. by rewrite Hg. Qed.

#[export] Instance while_pending_proper {W Y} n :
  Proper (gen_equiv ==> gen_equiv) (@while_pending W Y n).
Proof.
  intros b1 b2 Hb. induction n as [|n IH]; intros s; simpl; [done|].
  destruct (ctx_pending (es_ctx s)); [done|].
  apply Gen_bind_proper; [by intros []|done].
Qed.

Section laws.
Context {W Y : Type}.

Lemma M_bind_assoc {A B C} (m : M W A) (f : A → M W B) (g : B → M W C) :
  ((m ≫= f) ≫= g ≈ m ≫= λ a, f a ≫= g)%py.
Proof. intros s. unfold mbind, M_bind. by destruct (m s) as [s' [a|e]]. Qed.

Lemma M_bind_ret {A B} (a : A) (f : A → M W B) : (mret a ≫= f ≈ f a)%py.
Proof. by intros s. Qed.

Lemma Gen_bind_assoc {A B C} (m : Gen W Y A) (f : A → Gen W Y B) (g : B → Gen W Y C) :
  ((m ≫= f) ≫= g ≈ m ≫= λ a, f a ≫= g)%gen.
Proof.
  intros s. unfold mbind, Gen_bind. destruct (m s) as [[ys [s' [a|e]]]|]; [|done..].
  destruct (f a s') as [[ys' [s'' [b|e]]]|]; [|done..].
  destruct (g b s'') as [[ys'' o]|]; [|done]. by rewrite app_assoc.
Qed.

Lemma Gen_bind_ret {A B} (a : A) (f : A → Gen W Y B) : (mret a ≫= f ≈ f a)%gen.
Proof. intros s. unfold mret, Gen_ret, mbind, Gen_bind. by destruct (f a s) as [[??]|]. Qed.

Lemma call_bind {A B} (m : M W A) (f : A → M W B) :
  (call (Y:=Y) (m ≫= f) ≈ call m ≫= λ a, call (f a))%gen.
Proof.
  intros s. unfold call, mbind, M_bind, Gen_bind. by destruct (m s) as [s' [a|e]].
Qed.

Lemma drain_bind {Y' A B} (g : Gen W Y A) (f : A → Gen W Y B) :
  (drain (Y':=Y') (g ≫= f) ≈ drain g ≫= λ a, drain (f a))%gen.
Proof.
  intros s. unfold drain, flat_map_gen, mbind at 1 3, Gen_bind.
  destruct (g s) as [[ys [s' [a|e]]]|]; [|done..].
  destruct (f a s') as [[ys' o]|]; [|done].
  by rewrite bind_app.
Qed.

Lemma drain_call {Y' A} (m : M W A) : (drain (Y:=Y) (Y':=Y') (call m) ≈ call m)%gen.
Proof. by intros s. Qed.

Lemma drain_ret {Y' A} (a : A) : (drain (Y:=Y) (Y':=Y') (mret a) ≈ (mret a : Gen W Y' A))%gen.
Proof. by intros s. Qed.

Lemma bind_nil_yields {A} (l : list A) : l ≫= (λ _, []) = ([] : list Y).
Proof. by induction l. Qed.

Lemma drain_yield_from {Y'} (l : list Y) : (drain (Y':=Y') (yield_from (W:=W) l) ≈ mret ())%gen.
Proof.
  intros s. unfold drain, flat_map_gen, yield_from. by induction l.
Qed.

Lemma drain_while {Y'} n (body : Gen W Y unit) :
  (drain (Y':=Y') (while_pending n body) ≈ while_pending n (drain body))%gen.
Proof.
  induction n as [|n IH]; intros s.
  - unfold drain, flat_map_gen; simpl. by destruct (ctx_pending (es_ctx s)).
  - simpl. unfold drain at 1, flat_map_gen.
    destruct (ctx_pending (es_ctx s)) eqn:E; [done|].
    transitivity (drain (Y':=Y') (body ≫= λ _, while_pending n body) s); [done|].
    rewrite (drain_bind body (λ _, while_pending n body) s).
    apply Gen_bind_proper; [by intros []|done].
Qed.
End laws.

(** ** Loop invariants and termination *)

Section loop_lemmas.
Context {W Y : Type} (body : Gen W Y unit).

(** Partial correctness: an invariant of the body holds where the loop ends,
    and there the deque is empty. *)
Lemma while_pending_inv (P : list Y → ExecState W → Prop) :
  (∀ ys s ys' s', ctx_pending (es_ctx s) ≠ [] → P ys s →
     body s = Some (ys', (s', Ok ())) → P (ys ++ ys') s') →
  ∀ n ys s ys' s', P ys s → while_pending n body s = Some (ys', (s', Ok ())) →
  P (ys ++ ys') s' ∧ ctx_pending (es_ctx s') = [].
Proof.
  intros Hstep n; induction n as [|n IH]; intros ys s ys' s' HP; simpl.
  - destruct (ctx_pending (es_ctx s)) eqn:E; [|done].
    intros; simplify_eq. by rewrite app_nil_r.
  - destruct (ctx_pending (es_ctx s)) eqn:E.
    + intros; simplify_eq. by rewrite app_nil_r.
    + intros H; inv_gen. destruct x1. rewrite app_assoc. eapply IH; [|done].
      eapply Hstep; [|done|done]. by rewrite E.
Qed.

(** The body advances when every successful iteration decreases the number
    of steps left, or keeps it and shortens the deque. *)
Definition advances (limit : Z) : Prop := ∀ s ys s' ,
  ctx_pending (es_ctx s) ≠ [] → body s = Some (ys, (s', Ok ())) →
  (ctx_step (es_ctx s') = ctx_step (es_ctx s) + 1 ∧ ctx_step (es_ctx s') ≤ limit) ∨
  (ctx_step (es_ctx s') = ctx_step (es_ctx s) ∧
   (length (ctx_pending (es_ctx s')) < length (ctx_pending (es_ctx s)))%nat).

Definition never_stuck : Prop := ∀ s, body s ≠ None.

Lemma while_pending_unfold n s :
  while_pending (S n) body s =
    match ctx_pending (es_ctx s) with
    | [] => Some ([], (s, Ok ()))
    | _ :: _ => (body ≫= λ _, while_pending n body) s
    end.
Proof. done. Qed.

Lemma while_pending_total limit :
  advances limit → never_stuck → ∀ s, ∃ n r, while_pending n body s = Some r.
Proof.
  intros Hadv Hstuck.
  enough (∀ budget len s, Z.to_nat (limit - ctx_step (es_ctx s)) = budget →
            length (ctx_pending (es_ctx s)) = len →
            ∃ n r, while_pending n body s = Some r) as H by eauto.
  intros budget; induction budget as [budget IHb] using lt_wf_ind.
  intros len; induction len as [len IHl] using lt_wf_ind. intros s Hb Hl.
  destruct (ctx_pending (es_ctx s)) as [|item rest] eqn:E.
  { exists 1%nat, ([], (s, Ok ())). by rewrite while_pending_unfold, E. }
  destruct (body s) as [[ys [s' [[]|e]]]|] eqn:Ebody.
  - assert (∃ n r, while_pending n body s' = Some r) as (n & [ys' o] & Hn).
    { destruct (Hadv s ys s' ltac:(by rewrite E) Ebody) as [[Hs Hle]|[Hs Hlt]].
      - eapply IHb; [|done|done]. lia.
      - eapply IHl; [|lia|done]. rewrite E in Hlt. simpl in *. lia. }
    exists (S n), (ys ++ ys', o). rewrite while_pending_unfold, E.
    unfold mbind, Gen_bind. by rewrite Ebody, Hn.
  - exists 1%nat, (ys, (s', Raise e)). rewrite while_pending_unfold, E.
    unfold mbind, Gen_bind. by rewrite Ebody.
  - by apply Hstuck in Ebody.
Qed.
End loop_lemmas.

(** A loop whose body yields nothing yields nothing. *)
Lemma while_pending_silent {W Y} n (m : M W unit) s ys o :
  while_pending n (call (Y:=Y) m) s = Some (ys, o) → ys = [].
Proof.
  revert s ys; induction n as [|n IH]; intros s ys; simpl;
    destruct (ctx_pending (es_ctx s)); intros; simplify_eq; [done|done|].
  unfold mbind, Gen_bind, call in *. destruct (m s) as [s' [a|e]]; simplify_eq; [|done].
  destruct (while_pending n _ s') as [[ys' o']|] eqn:E; simplify_eq. by eapply IH.
Qed.

(** ** Frames: relations every step of a computation preserves *)

Section frames.
Context {W : Type} (R : ExecState W → ExecState W → Prop) `{!PreOrder R}.

Definition m_frame {A} (m : M W A) : Prop := ∀ s, R s (m s).1.

Lemma m_frame_ret {A} (a : A) : m_frame (mret a).
Proof. by intros s. Qed.
Lemma m_frame_raise {A} e : m_frame (@raise W A e).
Proof. by intros s. Qed.
Lemma m_frame_lift {A} (r : result Exn A) : m_frame (lift_result r).
Proof. by intros s. Qed.
Lemma m_frame_get : m_frame get_ctx.
Proof. by intros s. Qed.
Lemma m_frame_get_custom : m_frame get_custom.
Proof. by intros s. Qed.

Lemma m_frame_bind {A B} (m : M W A) (f : A → M W B) :
  m_frame m → (∀ a, m_frame (f a)) → m_frame (m ≫= f).
Proof.
  intros Hm Hf s. unfold mbind, M_bind. specialize (Hm s).
  destruct (m s) as [s' [a|e]]; simpl in *; [|done]. etrans; [done|apply Hf].
Qed.
End frames.

(** The two frames used below: the same step counter, the same context. *)
Definition same_step {W} (s s' : ExecState W) : Prop :=
  ctx_step (es_ctx s') = ctx_step (es_ctx s).
Definition same_ctx {W} (s s' : ExecState W) : Prop := es_ctx s' = es_ctx s.

#[export] Instance same_step_preorder {W} : PreOrder (@same_step W).
Proof. split; unfold same_step; [done|]. intros s1 s2 s3 H1 H2. congruence. Qed.
#[export] Instance same_ctx_preorder {W} : PreOrder (@same_ctx W).
Proof. split; unfold same_ctx; [done|]. intros s1 s2 s3 H1 H2. congruence. Qed.

Lemma run_activation_same_ctx {W A} (f : W → activation W A) :
  m_frame same_ctx (run_activation f).
Proof. intros s. unfold run_activation. by destruct (f (es_world s)) as [w [l r]]. Qed.

Lemma run_activation_ctx {W A} (f : W → activation W A) s s' r :
  run_activation f s = (s', r) → es_ctx s' = es_ctx s.
Proof. intros H. pose proof (run_activation_same_ctx f s) as Hf. by rewrite H in Hf. Qed.

Lemma m_frame_same_step {W A} (m : M W A) : m_frame same_ctx m → m_frame same_step m.
Proof. intros H s. unfold same_step. by rewrite (H s). Qed.

Lemma modify_ctx_same_step {W} (f : GraphRunContext → GraphRunContext) :
  (∀ c, ctx_step (f c) = ctx_step c) → m_frame same_step (@modify_ctx W f).
Proof. intros H s. apply H. Qed.

Lemma publish_same_step {W} kind node step detail :
  m_frame same_step (@publish W kind node step detail).
Proof. by intros s. Qed.

Create HintDb frame.
#[export] Hint Resolve same_step_preorder same_ctx_preorder m_frame_ret m_frame_raise m_frame_lift m_frame_get
  m_frame_get_custom run_activation_same_ctx publish_same_step : frame.
#[export] Hint Extern 1 (m_frame _ (_ ≫= _)) => apply m_frame_bind; [..|intros ?] : frame.
#[export] Hint Extern 2 (m_frame same_step (modify_ctx _)) =>
  apply modify_ctx_same_step; done : frame.
#[export] Hint Extern 3 (m_frame same_step (run_activation _)) =>
  apply m_frame_same_step, run_activation_same_ctx : frame.

(** ** Generators that never run out of fuel *)

Definition gen_total {W Y A} (g : Gen W Y A) : Prop := ∀ s, g s ≠ None.

Section total.
Context {W Y : Type}.

Lemma gen_total_ret {A} (a : A) : gen_total (mret (M:=Gen W Y) a).
Proof. by intros s. Qed.
Lemma gen_total_call {A} (m : M W A) : gen_total (call (Y:=Y) m).
Proof. by intros s. Qed.
Lemma gen_total_yield_from (l : list Y) : gen_total (yield_from (W:=W) l).
Proof. by intros s. Qed.
Lemma gen_total_bind {A B} (g : Gen W Y A) (f : A → Gen W Y B) :
  gen_total g → (∀ a, gen_total (f a)) → gen_total (g ≫= f).
Proof.
  intros Hg Hf s. unfold mbind, Gen_bind. specialize (Hg s).
  destruct (g s) as [[ys [s' [a|e]]]|]; [|done..].
  specialize (Hf a s'). by destruct (f a s') as [[??]|].
Qed.
Lemma gen_total_flat_map {Y' A} (f : Y → list Y') (g : Gen W Y A) :
  gen_total g → gen_total (flat_map_gen f g).
Proof. intros Hg s. specialize (Hg s). unfold flat_map_gen. by destruct (g s) as [[??]|]. Qed.

Lemma gen_total_never_stuck (g : Gen W Y unit) : gen_total g → never_stuck g.
Proof. done. Qed.
End total.

#[export] Hint Resolve gen_total_ret gen_total_call gen_total_yield_from gen_total_flat_map : frame.
#[export] Hint Extern 1 (gen_total (_ ≫= _)) => apply gen_total_bind; [|intros ?] : frame.
