(* ===== verification/GraphStream.v ===== *)
(** * Stream publishing ([_runtime_graph_stream.py], [event_stream.py])

    The chunks a streaming run yields for each requested mode, and the
    projection that groups them.  The list of custom values the publisher
    installs as a sink is [es_custom] of the run. *)

From S2P Require Import Prelude PyDict GraphTypes GraphState Checkpoint GraphRuntime GraphContext.

(** What a chunk carries, by the mode that produces it. *)
Inductive ChunkPayload : Type :=
| CEvent (e : RuntimeGraphEvent)
| CTask (node : string) (step : Z) (status : string)
| CValues (state : RuntimeState)
| CUpdates (node : string) (update : dict string Value)
| CMessage (message : Value) (metadata : dict string Value)
| CCustom (value : Value)
| CCheckpoint (c : RuntimeGraphCheckpoint).

(** With several modes a chunk is the pair [(mode, chunk)]. *)
Inductive Chunk : Type :=
| Tagged (mode : string) (p : ChunkPayload)
| Bare (p : ChunkPayload).

Definition chunk_payload (c : Chunk) : ChunkPayload :=
  match c with Tagged _ p | Bare p => p end.

Definition VALID_STREAM_MODES : list string :=
  ["values"; "updates"; "messages"; "custom"; "checkpoints"; "tasks"; "events"; "debug"].

(** [stream_mode: str | Sequence[str]]. *)
Inductive StreamMode : Type :=
| OneMode (s : string)
| ManyModes (l : list string).

Definition stream_modes (m : StreamMode) : list string :=
  match m with OneMode s => [s] | ManyModes l => l end.

Definition is_multi_mode (m : StreamMode) : bool :=
  match m with OneMode _ => false | ManyModes _ => true end.

Definition validated_stream_modes (stream_mode : StreamMode) : result Exn (list string) :=
  let modes := stream_modes stream_mode in
  match modes with
  | [] => Raise (RuntimeGraphError "runtime graph stream mode cannot be empty")
  | _ =>
      match filter (λ m, m ∉ VALID_STREAM_MODES) modes with
      | [] => Ok modes
      | unknown =>
          Raise (RuntimeGraphError
                   ("unknown runtime graph stream mode: " +:+ str_join ", " unknown))
      end
  end.

(** [_normalize_messages]: a sequence that is neither text nor a mapping, or one message. *)
Definition normalize_messages (value : Value) : list Value :=
  match value with
  | VList l | VTuple l => l
  | _ => [value]
  end.

Record StreamPublisher (W : Type) : Type := MkPublisher {
  pub_modes : list string;
  pub_multi_mode : bool;
  pub_checkpoint_thread_id : option string;
  pub_checkpoint_store : option (Checkpointer W)
}.
Arguments MkPublisher {W}.
Arguments pub_modes {W}.
Arguments pub_multi_mode {W}.
Arguments pub_checkpoint_thread_id {W}.
Arguments pub_checkpoint_store {W}.

Section publisher.
Context {W : Type}.

(** [_checkpoint_thread_id] and [_checkpoint_store]: both are required as soon
    as the mode is requested. *)
Definition checkpoint_thread_id (rt : RuntimeGraphRuntime W) (modes : list string) :
    result Exn (option string) :=
  if bool_decide ("checkpoints" ∉ modes) then Ok None
  else Some <$> require_thread_id rt.

Definition checkpoint_store (rt : RuntimeGraphRuntime W) (modes : list string) :
    result Exn (option (Checkpointer W)) :=
  if bool_decide ("checkpoints" ∉ modes) then Ok None
  else Some <$> require_checkpointer rt.

(** [StreamPublisher.__init__]. *)
Definition mk_publisher (rt : RuntimeGraphRuntime W) (modes : list string)
    (multi_mode : bool) : result Exn (StreamPublisher W) :=
  thread_id ← checkpoint_thread_id rt modes;
  store ← checkpoint_store rt modes;
  Ok (MkPublisher modes multi_mode thread_id store).

Context (pub : StreamPublisher W).

Definition emit (mode : string) (chunk : ChunkPayload) : Chunk :=
  if pub_multi_mode pub then Tagged mode chunk else Bare chunk.

(** [for mode in self.modes: if mode in wanted: yield self.emit(mode, chunk)]. *)
Definition emit_for (wanted : list string) (chunk : ChunkPayload) : list Chunk :=
  (λ mode, emit mode chunk) <$> filter (λ mode, mode ∈ wanted) (pub_modes pub).

Definition publish_events (event : RuntimeGraphEvent) : list Chunk :=
  emit_for ["events"; "debug"] (CEvent event).

Definition publish_tasks (node : string) (step : Z) (status : string) : list Chunk :=
  emit_for ["tasks"] (CTask node step status).

Definition publish_custom (custom_values : list Value) (start : nat) : list Chunk :=
  drop start custom_values ≫= λ v, emit_for ["custom"] (CCustom v).

(** [dict(update or {})]. *)
Definition publish_updates (node : string) (update : option (dict string Value)) : list Chunk :=
  emit_for ["updates"] (CUpdates node (default [] update)).

Definition publish_values (state : RuntimeState) : list Chunk :=
  emit_for ["values"] (CValues state).

Definition publish_messages (node : string) (step : Z)
    (update : option (dict string Value)) : list Chunk :=
  match dget "messages" (default [] update) with
  | None | Some VNone => []
  | Some value =>
      normalize_messages value ≫= λ message,
        emit_for ["messages"]
          (CMessage message [("node", VStr node); ("step", VInt step)])
  end.

(** [checkpoints(node, context)]: saves, then yields what [save] returned. *)
Definition publish_checkpoints (node : string) : Gen W Chunk unit :=
  match pub_checkpoint_thread_id pub, pub_checkpoint_store pub with
  | Some thread_id, Some store =>
      c ← call get_ctx;
      let checkpoint :=
        Checkpoint "" thread_id None node (ctx_step c) (ctx_state c) (ctx_trace c)
          (ctx_pending c) (ctx_events c) "" None in
      saved ← call (run_activation (λ w,
        let '(w', r) := ckpt_save store checkpoint w in (w', ([], r))));
      yield_from (emit_for ["checkpoints"] (CCheckpoint saved))
  | _, _ => mret ()
  end.

Definition publish_node_outputs (node : string) (update : option (dict string Value))
    (custom_start : nat) : Gen W Chunk unit :=
  custom_values ← call get_custom;
  _ ← yield_from (publish_custom custom_values custom_start);
  _ ← publish_checkpoints node;
  _ ← yield_from (publish_updates node update);
  c ← call get_ctx;
  _ ← yield_from (publish_values (ctx_state c));
  yield_from (publish_messages node (ctx_step c) update).
End publisher.

(** ** [event_stream.py] *)

Definition DEFAULT_RUNTIME_GRAPH_STREAM_MODES : list string :=
  ["values"; "updates"; "messages"; "custom"; "tasks"; "events"; "debug"].

Definition normalize_stream_modes (modes : option StreamMode) : StreamMode :=
  match modes with
  | None => ManyModes DEFAULT_RUNTIME_GRAPH_STREAM_MODES
  | Some (OneMode s) => ManyModes [s]
  | Some (ManyModes l) => ManyModes l
  end.

(** [RuntimeGraphStreamProjection]: the pairs [(mode, chunk)] of a stream. *)
Definition StreamProjection : Type := list (string * ChunkPayload).

(** [from_chunks]: unpacks every chunk as a pair; a bare chunk is not one. *)
Definition projection_from_chunks (chunks : list Chunk) : result Exn StreamProjection :=
  mapM (λ c, match c with
             | Tagged mode p => Ok (mode, p)
             | Bare _ => Raise (PyError "TypeError" "cannot unpack stream chunk")
             end) chunks.

(** [tuple(dict.fromkeys(mode for mode, _ in chunks))]. *)
Definition projection_modes (p : StreamProjection) : list string :=
  dkeys (dict_of ((λ '(mode, _), (mode, ())) <$> p)).

Definition iter_mode (p : StreamProjection) (mode : string) : list ChunkPayload :=
  (filter (λ c, c.1 = mode) p).*2.

(** ** Properties of the chunks *)

Lemma emit_for_elem {W} (pub : StreamPublisher W) wanted p c :
  c ∈ emit_for pub wanted p ↔
    ∃ mode, mode ∈ pub_modes pub ∧ mode ∈ wanted ∧ c = emit pub mode p.
Proof.
  unfold emit_for. rewrite list_elem_of_fmap.
  setoid_rewrite list_elem_of_filter. naive_solver.
Qed.

(** With several modes [from_chunks] accepts whatever the publisher emits. *)
Lemma projection_of_emitted {W} (pub : StreamPublisher W) wanted p :
  pub_multi_mode pub = true →
  projection_from_chunks (emit_for pub wanted p) =
    Ok ((λ mode, (mode, p)) <$> filter (λ mode, mode ∈ wanted) (pub_modes pub)).
Proof.
  intros Hm. unfold projection_from_chunks, emit_for. apply mapM_Ok.
  induction (filter _ (pub_modes pub)) as [|mode l IH]; csimpl; constructor; [|done].
  unfold emit. by rewrite Hm.
Qed.
