(* ===== verification/GraphExecutor.v ===== *)
(** * The graph executor ([_runtime_graph_executor.py], [_runtime_graph_factory.py])

    Construction and validation of an executor, one step of a run, the run
    loops and the public entry points, in their synchronous and asynchronous
    forms.  The fuel of the loops is the [nat] argument of the entry points;
    [GraphRunFacts] shows that a sufficient fuel always exists. *)

From S2P Require Import Prelude PyDict GraphTypes GraphState Checkpoint GraphRuntime.
From S2P Require Import GraphContext GraphStream.

(** ** Factory *)

Definition linear_plan (nodes : list string) (step_limit : Z) : result Exn RuntimeGraphPlan :=
  match nodes with
  | [] => Raise (RuntimeGraphError "linear runtime graph requires at least one node")
  | first :: _ =>
      let edges :=
        Edge START first
        :: zip_with Edge nodes (tail nodes)
        ++ [Edge (List.last nodes first) END] in
      Ok (Plan nodes edges [] step_limit [])
  end.

(** [inspect.Parameter.kind]. *)
Inductive ParameterKind : Type :=
| POSITIONAL_ONLY
| POSITIONAL_OR_KEYWORD
| VAR_POSITIONAL
| KEYWORD_ONLY
| VAR_KEYWORD.

#[export] Instance parameter_kind_eq_dec : EqDecision ParameterKind.
Proof. solve_decision. Defined.

(** A Python callable registered as an action: its signature, and its
    behaviour when it is called with the state, or with state and runtime. *)
Record ActionDef (W : Type) : Type := MkActionDef {
  ad_signature : list ParameterKind;
  ad_call1 : RuntimeAction W;
  ad_call2 : RuntimeGraphRuntime W → RuntimeAction W
}.
Arguments MkActionDef {W}.
Arguments ad_signature {W}.
Arguments ad_call1 {W}.
Arguments ad_call2 {W}.

Definition bind_runtime_action {W} (action : ActionDef W) (rt : RuntimeGraphRuntime W) :
    RuntimeAction W :=
  let positional :=
    filter (λ k, k = POSITIONAL_ONLY ∨ k = POSITIONAL_OR_KEYWORD) (ad_signature action) in
  let has_varargs := bool_decide (VAR_POSITIONAL ∈ ad_signature action) in
  if has_varargs || (2 <=? Z.of_nat (length positional))
  then ad_call2 action rt
  else ad_call1 action.

(** A one-parameter function [def action(state)]. *)
Definition simple_action {W} (a : RuntimeAction W) : ActionDef W :=
  MkActionDef [POSITIONAL_OR_KEYWORD] a (λ _ _ w,
    (w, ([], Raise (PyError "TypeError" "action takes 1 positional argument but 2 were given")))).

(** ** The executor object *)

Record RuntimeGraphExecutor (W : Type) : Type := MkExecutor {
  ex_plan : RuntimeGraphPlan;
  ex_runtime : RuntimeGraphRuntime W;
  ex_actions : dict string (RuntimeAction W);
  ex_routers : dict string (RuntimeRouter W);
  ex_reducers : dict string RuntimeReducer;
  ex_edges : dict string (list string);
  ex_conditional_edges : dict string (list RuntimeGraphConditionalEdge)
}.
Arguments MkExecutor {W}.
Arguments ex_plan {W}.
Arguments ex_runtime {W}.
Arguments ex_actions {W}.
Arguments ex_routers {W}.
Arguments ex_reducers {W}.
Arguments ex_edges {W}.
Arguments ex_conditional_edges {W}.

Section construction.
Context {W : Type}.

Definition validate_edge (node_set : list string) (e : RuntimeGraphEdge) : result Exn unit :=
  _ ← check_endpoint (edge_source e) node_set; check_endpoint (edge_target e) node_set.

Definition validate_conditional_edge (node_set : list string)
    (e : RuntimeGraphConditionalEdge) : result Exn unit :=
  _ ← check_endpoint (ce_source e) node_set;
  foldM (λ _ target, check_endpoint target node_set) () (dvalues (ce_routes e)).

(** [_validate_plan]. *)
Definition validate_plan (plan : RuntimeGraphPlan) : result Exn unit :=
  _ ← foldM (λ _ e, validate_edge (plan_nodes plan) e) () (plan_edges plan);
  foldM (λ _ e, validate_conditional_edge (plan_nodes plan) e) ()
    (plan_conditional_edges plan).

(** [_validate_actions]: [sorted(set(nodes) - set(actions))]. *)
Definition missing_actions {A} (plan : RuntimeGraphPlan) (actions : dict string A) :
    list string :=
  py_sorted (remove_dups (filter (λ n, n ∉ dkeys actions) (plan_nodes plan))).

Definition validate_actions {A} (plan : RuntimeGraphPlan) (actions : dict string A) :
    result Exn unit :=
  match missing_actions plan actions with
  | [] => Ok ()
  | missing =>
      Raise (RuntimeGraphError
               ("missing runtime graph actions for nodes: " +:+ str_join ", " missing))
  end.

(** [RuntimeGraphExecutor.__init__]. *)
Definition mk_executor (plan : RuntimeGraphPlan) (actions : dict string (ActionDef W))
    (routers : dict string (RuntimeRouter W)) (reducers : dict string RuntimeReducer)
    (rt : RuntimeGraphRuntime W) : result Exn (RuntimeGraphExecutor W) :=
  let ex :=
    MkExecutor plan rt
      ((λ '(node, action), (node, bind_runtime_action action rt)) <$> actions)
      routers reducers
      (index_edges (plan_edges plan))
      (index_conditional_edges (plan_conditional_edges plan)) in
  _ ← validate_plan plan;
  _ ← validate_actions plan actions;
  Ok ex.
End construction.

(** ** One step of a run *)

(** What synchronous code gets from a callable that returned an awaitable: a
    coroutine object, which is neither a mapping nor a route. *)
Definition sync_result {W} (r : MaybeAwaitable W RuntimeActionResult) : RuntimeActionResult :=
  match r with Direct r => r | Awaitable _ => ROther "coroutine" end.
Definition sync_route {W} (r : MaybeAwaitable W RuntimeRouteResult) : RuntimeRouteResult :=
  match r with Direct r => r | Awaitable _ => RouteOther "<coroutine object>" end.

(** [if inspect.isawaitable(r): r = await r]. *)
Definition await_result {W A} (r : MaybeAwaitable W A) : M W A :=
  match r with Direct a => mret a | Awaitable run => run_activation run end.

Definition update_mapping (u : Update) : option (dict string Value) :=
  match u with UMapping d => Some d | _ => None end.

Definition node_start_detail (branch_update : option (dict string Value))
    (trace : list string) : dict string Value :=
  [("branch-update-keys", v_strs (dkeys (default [] branch_update)));
   ("trace", v_strs trace)].

Definition finish_detail (outcome : NormalizedActionResult) : dict string Value :=
  [("command-controls-flow", VBool (nar_controls_flow outcome));
   ("goto", v_strs (nar_goto outcome));
   ("send-targets", v_strs (send_target <$> nar_sends outcome));
   ("update-keys", v_strs (dkeys (default [] (update_mapping (nar_update outcome)))))].

Definition complete_detail (c : GraphRunContext) : dict string Value :=
  [("state", VDict (ctx_state c)); ("trace", v_strs (ctx_trace c))].

Definition interrupt_detail (i : RuntimeGraphInterrupt) (trace : list string) :
    dict string Value :=
  [("value", interrupt_value i); ("resumable", VBool (interrupt_resumable i));
   ("trace", v_strs trace)].

Definition route_send (i : RouteItem) : option RuntimeGraphSend :=
  match i with RISend s => Some s | _ => None end.
Definition route_str (i : RouteItem) : option string :=
  match i with RIStr s => Some s | _ => None end.

Section step.
Context {W : Type} (ex : RuntimeGraphExecutor W).

Definition validate_runtime_target (target : string) : result Exn unit :=
  check_endpoint target (plan_nodes (ex_plan ex)).

(** [_resolve_route_name]. *)
Definition resolve_route_name (router_name : string) (routes : dict string string)
    (route_name : string) : result Exn string :=
  target ← (match routes with
            | [] => Ok route_name
            | _ => of_option
                     (RuntimeGraphError ("router " +:+ router_name
                        +:+ " returned unknown route: " +:+ route_name))
                     (dget route_name routes)
            end);
  _ ← validate_runtime_target target;
  Ok target.

(** [_resolve_conditional_route], with [_is_send_sequence] and [_is_route_sequence]. *)
Definition resolve_conditional_route (router_name : string) (routes : dict string string)
    (route : RuntimeRouteResult) : result Exn (list PendingItem) :=
  let unsupported repr :=
    Raise (RuntimeGraphError ("router " +:+ router_name
             +:+ " returned unsupported route: " +:+ repr)) in
  match route with
  | RouteSend send =>
      _ ← validate_runtime_target (send_target send); Ok [PSend send]
  | RouteSeq l repr =>
      match mapM route_send l, mapM route_str l with
      | Some sends, _ =>
          _ ← foldM (λ _ send, validate_runtime_target (send_target send)) () sends;
          Ok (PSend <$> sends)
      | None, Some names =>
          targets ← mapM (resolve_route_name router_name routes) names;
          Ok (PNode <$> targets)
      | None, None => unsupported repr
      end
  | RouteStr s => target ← resolve_route_name router_name routes s; Ok [PNode target]
  | RouteOther repr => unsupported repr
  end.

Definition find_router (name : string) : result Exn (RuntimeRouter W) :=
  of_option (RuntimeGraphError ("missing runtime graph router: " +:+ name))
    (dget name (ex_routers ex)).

(** [_conditional_targets] and [_aconditional_targets]; [await] is what the
    two do with the object the router returned. *)
Definition edge_targets (await : MaybeAwaitable W RuntimeRouteResult → M W RuntimeRouteResult)
    (state : RuntimeState) (edge : RuntimeGraphConditionalEdge) : M W (list PendingItem) :=
  router ← lift_result (find_router (ce_router edge));
  returned ← run_activation (router state);
  route ← await returned;
  lift_result (resolve_conditional_route (ce_router edge) (ce_routes edge) route).

Fixpoint targets_of_edges (await : MaybeAwaitable W RuntimeRouteResult → M W RuntimeRouteResult)
    (state : RuntimeState) (edges : list RuntimeGraphConditionalEdge) :
    M W (list PendingItem) :=
  match edges with
  | [] => mret []
  | edge :: edges =>
      ts ← edge_targets await state edge;
      ts' ← targets_of_edges await state edges;
      mret (ts ++ ts')
  end.

Definition conditional_targets (node : string) (state : RuntimeState) : M W (list PendingItem) :=
  targets_of_edges (λ r, mret (sync_route r)) state
    (dget_list node (ex_conditional_edges ex)).

Definition aconditional_targets (node : string) (state : RuntimeState) : M W (list PendingItem) :=
  targets_of_edges await_result state (dget_list node (ex_conditional_edges ex)).

Definition next_targets (node : string) (state : RuntimeState)
    (outcome : NormalizedActionResult) : M W (list PendingItem) :=
  if nar_controls_flow outcome
  then mret ((PNode <$> nar_goto outcome) ++ (PSend <$> nar_sends outcome))
  else targets ← conditional_targets node state;
       mret ((PNode <$> dget_list node (ex_edges ex)) ++ targets).

Definition anext_targets (node : string) (state : RuntimeState)
    (outcome : NormalizedActionResult) : M W (list PendingItem) :=
  if nar_controls_flow outcome
  then mret ((PNode <$> nar_goto outcome) ++ (PSend <$> nar_sends outcome))
  else targets ← aconditional_targets node state;
       mret ((PNode <$> dget_list node (ex_edges ex)) ++ targets).

(** [_raise_interrupted]. *)
Definition raise_interrupted {A} (node : string) (interrupt : RuntimeGraphInterrupt) : M W A :=
  c ← get_ctx;
  _ ← publish "interrupt" (Some node) (ctx_step c) (interrupt_detail interrupt (ctx_trace c));
  c ← get_ctx;
  raise (RuntimeGraphInterrupted
    (MkInterrupted interrupt node (ctx_step c) (ctx_state c) (ctx_trace c)
       (ctx_pending c) (ctx_events c) "" None)).

(** The part [_start_and_run_node] and [_astart_and_run_node] share: counting
    the step, recording the trace, announcing the node. *)
Definition announce_node (node : string) (branch_update : option (dict string Value))
    (trace_key : option string) : M W RuntimeState :=
  _ ← advance_step (plan_step_limit (ex_plan ex));
  _ ← modify_ctx (λ c, set_trace (ctx_trace c ++ [node]) c);
  _ ← modify_ctx (record_trace trace_key);
  c ← get_ctx;
  let action_state := with_branch_update (ctx_state c) branch_update in
  _ ← publish "node-start" (Some node) (ctx_step c)
        (node_start_detail branch_update (ctx_trace c));
  mret action_state.

Definition find_action (node : string) : result Exn (RuntimeAction W) :=
  of_option (KeyError node) (dget node (ex_actions ex)).

Definition check_interrupt (node : string) (outcome : NormalizedActionResult) :
    M W NormalizedActionResult :=
  match nar_interrupt outcome with
  | Some interrupt => raise_interrupted node interrupt
  | None => mret outcome
  end.

Definition start_and_run_node (node : string) (branch_update : option (dict string Value))
    (trace_key : option string) : M W NormalizedActionResult :=
  action_state ← announce_node node branch_update trace_key;
  action ← lift_result (find_action node);
  returned ← run_activation (action action_state);
  check_interrupt node (normalize_action_result (sync_result returned)).

Definition astart_and_run_node (node : string) (branch_update : option (dict string Value))
    (trace_key : option string) : M W NormalizedActionResult :=
  action_state ← announce_node node branch_update trace_key;
  action ← lift_result (find_action node);
  returned ← run_activation (action action_state);
  result ← await_result returned;
  check_interrupt node (normalize_action_result result).

(** [if outcome.update is not None: context.state = merge_state(...)]. *)
Definition merge_outcome (outcome : NormalizedActionResult) : M W unit :=
  match nar_update outcome with
  | UNone => mret ()
  | u =>
      c ← get_ctx;
      items ← lift_result (update_items u);
      merged ← lift_result (merge_state (ctx_state c) items (ex_reducers ex));
      modify_ctx (set_state merged)
  end.

Definition publish_finish (node event_kind : string) (outcome : NormalizedActionResult) :
    M W RuntimeGraphEvent :=
  c ← get_ctx;
  publish event_kind (Some node) (ctx_step c) (finish_detail outcome).

Definition finish_node (node : string) (outcome : NormalizedActionResult)
    (event_kind : string) : Gen W RuntimeGraphEvent unit :=
  _ ← call (merge_outcome outcome);
  c ← call get_ctx;
  targets ← call (next_targets node (ctx_state c) outcome);
  _ ← call (modify_ctx (λ c, set_pending (ctx_pending c ++ targets) c));
  event ← call (publish_finish node event_kind outcome);
  yield_from [event].

Definition afinish_node (node : string) (outcome : NormalizedActionResult)
    (event_kind : string) : M W RuntimeGraphEvent :=
  _ ← merge_outcome outcome;
  c ← get_ctx;
  targets ← anext_targets node (ctx_state c) outcome;
  _ ← modify_ctx (λ c, set_pending (ctx_pending c ++ targets) c);
  publish_finish node event_kind outcome.
End step.

(** ** The loop bodies *)

Section loops.
Context {W : Type} (ex : RuntimeGraphExecutor W) (trace_key : option string).

Definition execute_next_event_step : Gen W RuntimeGraphEvent unit :=
  next ← call next_node;
  let '(node, branch_update) := next in
  if decide (node = END) then mret () else
  outcome ← call (start_and_run_node ex node branch_update trace_key);
  finish_node ex node outcome "node-end".

Definition aexecute_next_event_step : M W unit :=
  next ← next_node;
  let '(node, branch_update) := next in
  if decide (node = END) then mret () else
  outcome ← astart_and_run_node ex node branch_update trace_key;
  _ ← afinish_node ex node outcome "node-end";
  mret ().

Definition last_event_chunks (pub : StreamPublisher W) (c : GraphRunContext) : list Chunk :=
  match last (ctx_events c) with Some e => publish_events pub e | None => [] end.

Definition execute_next_stream_step (pub : StreamPublisher W) : Gen W Chunk unit :=
  next ← call next_node;
  let '(node, branch_update) := next in
  if decide (node = END) then mret () else
  c ← call get_ctx;
  _ ← yield_from (publish_tasks pub node (ctx_step c + 1) "start");
  start_len ← call (custom ← get_custom; mret (length custom));
  outcome ← call (start_and_run_node ex node branch_update trace_key);
  c ← call get_ctx;
  _ ← yield_from (last_event_chunks pub c);
  _ ← flat_map_gen (publish_events pub) (finish_node ex node outcome "node-end");
  c ← call get_ctx;
  _ ← yield_from (publish_tasks pub node (ctx_step c) "finish");
  publish_node_outputs pub node (update_mapping (nar_update outcome)) start_len.

(** The asynchronous step collects its chunks in a list and hands them over
    when it returns; a step that raises hands over nothing.  (The outputs of a
    node are published without a loop, so the case [None] does not occur.) *)
Definition collect_chunks {A} (g : Gen W Chunk A) : M W (list Chunk) := λ s,
  match g s with
  | None => (s, Ok [])
  | Some (chunks, (s', Ok _)) => (s', Ok chunks)
  | Some (_, (s', Raise e)) => (s', Raise e)
  end.

Definition aexecute_next_stream_step (pub : StreamPublisher W) : M W (list Chunk) :=
  next ← next_node;
  let '(node, branch_update) := next in
  if decide (node = END) then mret [] else
  c ← get_ctx;
  let task_chunks := publish_tasks pub node (ctx_step c + 1) "start" in
  custom ← get_custom;
  let start_len := length custom in
  outcome ← astart_and_run_node ex node branch_update trace_key;
  c ← get_ctx;
  let start_chunks := last_event_chunks pub c in
  event ← afinish_node ex node outcome "node-end";
  let finish_chunks := publish_events pub event in
  c ← get_ctx;
  let done_chunks := publish_tasks pub node (ctx_step c) "finish" in
  outputs ← collect_chunks
    (publish_node_outputs pub node (update_mapping (nar_update outcome)) start_len);
  mret (task_chunks ++ start_chunks ++ finish_chunks ++ done_chunks ++ outputs).

Definition publish_start : M W RuntimeGraphEvent :=
  c ← get_ctx;
  publish "start" None 0 [("pending", VTuple (v_pending <$> ctx_pending c))].

Definition publish_complete : M W RuntimeGraphEvent :=
  _ ← modify_ctx (record_trace trace_key);
  c ← get_ctx;
  publish "complete" None (ctx_step c) (complete_detail c).

Definition stream_events_context (fuel : nat) : Gen W RuntimeGraphEvent unit :=
  start ← call publish_start;
  _ ← yield_from [start];
  _ ← while_pending fuel execute_next_event_step;
  complete ← call publish_complete;
  yield_from [complete].

Definition arun_events_context {Y} (fuel : nat) : Gen W Y (list RuntimeGraphEvent) :=
  _ ← call publish_start;
  _ ← while_pending fuel (call aexecute_next_event_step);
  _ ← call publish_complete;
  c ← call get_ctx;
  mret (ctx_events c).

Definition stream_context (fuel : nat) (pub : StreamPublisher W) : Gen W Chunk unit :=
  start ← call publish_start;
  _ ← yield_from (publish_events pub start);
  _ ← while_pending fuel (execute_next_stream_step pub);
  complete ← call publish_complete;
  yield_from (publish_events pub complete).

Definition astream_context (fuel : nat) (pub : StreamPublisher W) : Gen W Chunk unit :=
  start ← call publish_start;
  _ ← yield_from (publish_events pub start);
  _ ← while_pending fuel (chunks ← call (aexecute_next_stream_step pub); yield_from chunks);
  complete ← call publish_complete;
  yield_from (publish_events pub complete).

(** What a run answers: the state, the trace and the events of its context. *)
Definition run_answer {Y} : Gen W Y (RuntimeState * list string * list RuntimeGraphEvent) :=
  c ← call get_ctx;
  mret (ctx_state c, ctx_trace c, ctx_events c).

Definition run_context {Y} (fuel : nat) :
    Gen W Y (RuntimeState * list string * list RuntimeGraphEvent) :=
  _ ← drain (stream_events_context fuel);
  run_answer.

Definition arun_context {Y} (fuel : nat) :
    Gen W Y (RuntimeState * list string * list RuntimeGraphEvent) :=
  _ ← arun_events_context fuel;
  run_answer.
End loops.

(** ** Public entry points

    A call answers what it yielded, the world it left, the context it ended
    with, and the value it returned or the exception it raised. *)

Section entry_points.
Context {W : Type} (ex : RuntimeGraphExecutor W).

Definition run_state : Type := RuntimeState * list string * list RuntimeGraphEvent.

Definition initial_context (s : RuntimeState) : GraphRunContext :=
  from_initial (dget_list START (ex_edges ex)) s.

Definition start_exec (c : GraphRunContext) (w : W) : ExecState W := MkExec c w [].

(** Keeps the returned value and the world of a call. *)
Definition returned {Y A} (o : option (list Y * (ExecState W * result Exn A))) :
    option (W * result Exn A) :=
  (λ '(_, (s, r)), (es_world s, r)) <$> o.

Definition map_returned {A B} (f : A → B) (o : option (W * result Exn A)) :
    option (W * result Exn B) :=
  match o with
  | Some (w, r) => Some (w, f <$> r)
  | None => None
  end.

Definition invoke_with_events (fuel : nat) (s : RuntimeState) (trace_key : option string)
    (w : W) : option (W * result Exn run_state) :=
  returned (run_context (Y:=unit) ex trace_key fuel (start_exec (initial_context s) w)).

Definition ainvoke_with_events (fuel : nat) (s : RuntimeState) (trace_key : option string)
    (w : W) : option (W * result Exn run_state) :=
  returned (arun_context (Y:=unit) ex trace_key fuel (start_exec (initial_context s) w)).

(** [_ainvoke_owned_with_events]. *)
Definition ainvoke_owned_with_events (fuel : nat) (s : RuntimeState)
    (trace_key : option string) (w : W) : option (W * result Exn run_state) :=
  returned (arun_context (Y:=unit) ex trace_key fuel
              (start_exec (from_owned (dget_list START (ex_edges ex)) s) w)).

Definition invoke_with_trace (fuel : nat) (s : RuntimeState) (trace_key : option string)
    (w : W) : option (W * result Exn (RuntimeState * list string)) :=
  map_returned fst (invoke_with_events fuel s trace_key w).

Definition ainvoke_with_trace (fuel : nat) (s : RuntimeState) (trace_key : option string)
    (w : W) : option (W * result Exn (RuntimeState * list string)) :=
  map_returned fst (ainvoke_with_events fuel s trace_key w).

Definition invoke (fuel : nat) (s : RuntimeState) (w : W) : option (W * result Exn RuntimeState) :=
  map_returned fst (invoke_with_trace fuel s None w).

Definition ainvoke (fuel : nat) (s : RuntimeState) (w : W) : option (W * result Exn RuntimeState) :=
  map_returned fst (ainvoke_with_trace fuel s None w).

(** [resume_interrupted]: the trace is recorded again, the interrupted node
    is finished with the given result, then the run goes on. *)
Definition resume_interrupted (fuel : nat) (i : Interrupted)
    (resume_result : RuntimeActionResult) (trace_key : option string) (w : W) :
    option (W * result Exn run_state) :=
  let outcome := normalize_action_result resume_result in
  returned ((_ ← call (Y:=unit) (modify_ctx (record_trace trace_key));
             _ ← drain (finish_node ex (int_node i) outcome "resume");
             run_context ex trace_key fuel)
              (start_exec (from_interrupted i) w)).

Definition aresume_interrupted (fuel : nat) (i : Interrupted)
    (resume_result : MaybeAwaitable W RuntimeActionResult) (trace_key : option string) (w : W) :
    option (W * result Exn run_state) :=
  returned ((_ ← call (Y:=unit) (modify_ctx (record_trace trace_key));
             result ← call (await_result resume_result);
             let outcome := normalize_action_result result in
             _ ← call (afinish_node ex (int_node i) outcome "resume");
             arun_context ex trace_key fuel)
              (start_exec (from_interrupted i) w)).

(** [stream]: the modes are checked, then the publisher is built. *)
Definition with_publisher {A} (stream_mode : StreamMode)
    (run : StreamPublisher W → ExecState W → option (list Chunk * (ExecState W * result Exn A)))
    (s : ExecState W) : option (list Chunk * (ExecState W * result Exn A)) :=
  match (modes ← validated_stream_modes stream_mode;
         mk_publisher (ex_runtime ex) modes (is_multi_mode stream_mode)) with
  | Raise e => Some ([], (s, Raise e))
  | Ok pub => run pub s
  end.

Definition stream (fuel : nat) (s : RuntimeState) (stream_mode : StreamMode)
    (trace_key : option string) (w : W) :
    option (list Chunk * (ExecState W * result Exn unit)) :=
  with_publisher stream_mode (stream_context ex trace_key fuel)
    (start_exec (initial_context s) w).

Definition astream (fuel : nat) (s : RuntimeState) (stream_mode : StreamMode)
    (trace_key : option string) (w : W) :
    option (list Chunk * (ExecState W * result Exn unit)) :=
  with_publisher stream_mode (astream_context ex trace_key fuel)
    (start_exec (initial_context s) w).

Definition stream_events (fuel : nat) (s : RuntimeState) (trace_key : option string) (w : W) :
    option (list RuntimeGraphEvent * (ExecState W * result Exn unit)) :=
  stream_events_context ex trace_key fuel (start_exec (initial_context s) w).

(** [astream_events]: [for event in await ...: yield event]. *)
Definition astream_events (fuel : nat) (s : RuntimeState) (trace_key : option string) (w : W) :
    option (list RuntimeGraphEvent * (ExecState W * result Exn unit)) :=
  (events ← arun_events_context ex trace_key fuel; yield_from events)
    (start_exec (initial_context s) w).

(** [stream_projection]. *)
Definition stream_projection (fuel : nat) (s : RuntimeState) (stream_mode : option StreamMode)
    (trace_key : option string) (w : W) : option (W * result Exn StreamProjection) :=
  (λ '(chunks, (st, r)), (es_world st, r ≫= λ _, projection_from_chunks chunks))
    <$> stream fuel s (normalize_stream_modes stream_mode) trace_key w.
End entry_points.
