(* ===== verification/GraphAsync.v ===== *)
(** * Asynchronous runs are synchronous runs of the awaited callables

    [await_executor ex] is [ex] with every action and router replaced by one
    that awaits what it returned.  The asynchronous entry points of [ex] agree
    with the synchronous ones of [await_executor ex], for every executor. *)

From Stdlib Require Import FunctionalExtensionality.
From S2P Require Import Prelude PyDict GraphTypes GraphState Checkpoint GraphRuntime.
From S2P Require Import GraphContext GraphStream GraphExecutor.

Section awaited.
Context {W : Type}.

(** Calling [f] and awaiting what it returned, as one activation. *)
Definition await_activation {A} (o : activation W (MaybeAwaitable W A)) :
    activation W (MaybeAwaitable W A) :=
  match o with
  | (w1, (l1, Raise e)) => (w1, (l1, Raise e))
  | (w1, (l1, Ok (Direct r))) => (w1, (l1, Ok (Direct r)))
  | (w1, (l1, Ok (Awaitable run))) =>
      let '(w2, (l2, r2)) := run w1 in (w2, (l1 ++ l2, Direct <$> r2))
  end.

Definition await_callable {A} (f : RuntimeState → W → activation W (MaybeAwaitable W A)) :
    RuntimeState → W → activation W (MaybeAwaitable W A) :=
  λ s w, await_activation (f s w).

Definition await_dict {A} (d : dict string (RuntimeState → W → activation W (MaybeAwaitable W A))) :=
  (λ '(k, f), (k, await_callable f)) <$> d.

Definition await_executor (ex : RuntimeGraphExecutor W) : RuntimeGraphExecutor W :=
  MkExecutor (ex_plan ex) (ex_runtime ex) (await_dict (ex_actions ex))
    (await_dict (ex_routers ex)) (ex_reducers ex) (ex_edges ex) (ex_conditional_edges ex).

(** A callable that never returns an awaitable. *)
Definition direct_callable {A} (f : RuntimeState → W → activation W (MaybeAwaitable W A)) : Prop :=
  ∀ s w w' l r, f s w = (w', (l, Ok r)) → ∃ a, r = Direct a.

Definition direct_executor (ex : RuntimeGraphExecutor W) : Prop :=
  Forall (λ kf, direct_callable kf.2) (ex_actions ex) ∧
  Forall (λ kf, direct_callable kf.2) (ex_routers ex).

(** Awaiting after the call is calling the awaited callable; [sync] is how
    synchronous code reads a result. *)
Lemma run_await {A} (f : W → activation W (MaybeAwaitable W A)) (sync : MaybeAwaitable W A → A) :
  (∀ a, sync (Direct a) = a) →
  ((run_activation f ≫= await_result) ≈
   (run_activation (λ w, await_activation (f w)) ≫= λ r, mret (sync r)))%py.
Proof.
  intros Hs s. unfold mbind, M_bind, run_activation.
  destruct (f (es_world s)) as [w1 [l1 [[a|run]|e]]]; simpl; [by rewrite Hs| |done].
  unfold run_activation; simpl. destruct (run w1) as [w2 [l2 [a|e]]]; simpl;
    rewrite app_assoc; [|done]. unfold mret, M_ret. by rewrite Hs.
Qed.

Lemma await_callable_direct {A} (f : RuntimeState → W → activation W (MaybeAwaitable W A)) s w :
  direct_callable f → await_callable f s w = f s w.
Proof.
  intros Hd. unfold await_callable, await_activation.
  destruct (f s w) as [w1 [l1 [r|e]]] eqn:E; [|done].
  by destruct (Hd _ _ _ _ _ E) as [a ->].
Qed.

Lemma await_dict_direct {A}
    (d : dict string (RuntimeState → W → activation W (MaybeAwaitable W A))) :
  Forall (λ kf, direct_callable kf.2) d → await_dict d = d.
Proof.
  unfold await_dict. induction 1 as [|[k f] d Hf _ IH]; csimpl; [done|].
  rewrite IH. do 2 f_equal. extensionality s. extensionality w.
  by apply await_callable_direct.
Qed.

(** Nothing changes for callables that never return an awaitable. *)
Lemma await_executor_direct ex : direct_executor ex → await_executor ex = ex.
Proof.
  intros [Ha Hr]. unfold await_executor. rewrite !await_dict_direct by done. by destruct ex.
Qed.
End awaited.

Section equivalence.
Context {W : Type} (ex : RuntimeGraphExecutor W).

Lemma find_router_await name :
  find_router (await_executor ex) name = await_callable <$> find_router ex name.
Proof.
  unfold find_router, await_executor, await_dict; simpl. rewrite dget_fmap.
  by destruct (dget name _).
Qed.

Lemma find_action_await node :
  find_action (await_executor ex) node = await_callable <$> find_action ex node.
Proof.
  unfold find_action, await_executor, await_dict; simpl. rewrite dget_fmap.
  by destruct (dget node _).
Qed.

Lemma aconditional_targets_await node state :
  (aconditional_targets ex node state ≈ conditional_targets (await_executor ex) node state)%py.
Proof.
  unfold aconditional_targets, conditional_targets; simpl.
  induction (dget_list node (ex_conditional_edges ex)) as [|edge edges IH]; [done|].
  simpl. apply M_bind_proper.
  { intros ts. apply M_bind_proper; [by intros ts'|apply IH]. }
  unfold edge_targets. rewrite find_router_await.
  destruct (find_router ex (ce_router edge)) as [router|e]; [|by intros s].
  change (await_callable <$> Ok router) with (Ok (E:=Exn) (await_callable router)).
  change (@lift_result W ?A (Ok ?r)) with (mret (M:=M W) r).
  rewrite !M_bind_ret, <-!M_bind_assoc.
  apply M_bind_proper; [by intros r|]. by apply (run_await _ sync_route).
Qed.

Lemma anext_targets_await node state outcome :
  (anext_targets ex node state outcome ≈ next_targets (await_executor ex) node state outcome)%py.
Proof.
  unfold anext_targets, next_targets. destruct (nar_controls_flow outcome); [done|].
  apply M_bind_proper; [by intros r|apply aconditional_targets_await].
Qed.

Lemma astart_and_run_node_await node branch_update trace_key :
  (astart_and_run_node ex node branch_update trace_key ≈
   start_and_run_node (await_executor ex) node branch_update trace_key)%py.
Proof.
  unfold astart_and_run_node, start_and_run_node, announce_node; simpl.
  apply M_bind_proper; [|done]. intros action_state.
  rewrite find_action_await.
  destruct (find_action ex node) as [action|e]; [|by intros s].
  change (await_callable <$> Ok action) with (Ok (E:=Exn) (await_callable action)).
  change (@lift_result W ?A (Ok ?r)) with (mret (M:=M W) r).
  rewrite !M_bind_ret, <-!M_bind_assoc.
  transitivity (r ← (run_activation (await_callable action action_state) ≫=
                       λ r, mret (sync_result r));
                check_interrupt node (normalize_action_result r)).
  - apply M_bind_proper; [by intros r|]. by apply (run_await _ sync_result).
  - by rewrite M_bind_assoc.
Qed.

Lemma finish_node_await node outcome kind :
  (finish_node (await_executor ex) node outcome kind ≈
   (e ← call (afinish_node ex node outcome kind); yield_from [e]))%gen.
Proof.
  unfold finish_node, afinish_node. rewrite !call_bind, Gen_bind_assoc.
  apply Gen_bind_proper; [intros []|done].
  rewrite call_bind, Gen_bind_assoc. apply Gen_bind_proper; [intros c|done].
  rewrite call_bind, Gen_bind_assoc. apply Gen_bind_proper; [intros ts|].
  - rewrite call_bind, Gen_bind_assoc. apply Gen_bind_proper; [by intros []|done].
  - by rewrite anext_targets_await.
Qed.

Lemma drain_finish_node {Y} node outcome kind :
  (drain (Y':=Y) (finish_node (await_executor ex) node outcome kind) ≈
   call (_ ← afinish_node ex node outcome kind; mret ()))%gen.
Proof.
  rewrite finish_node_await, drain_bind, call_bind, drain_call.
  apply Gen_bind_proper; [|done]. intros e. by rewrite drain_yield_from.
Qed.

Lemma aexecute_next_event_step_await {Y} trace_key :
  (call (Y:=Y) (aexecute_next_event_step ex trace_key) ≈
   drain (execute_next_event_step (await_executor ex) trace_key))%gen.
Proof.
  unfold aexecute_next_event_step, execute_next_event_step.
  rewrite call_bind, drain_bind, drain_call.
  apply Gen_bind_proper; [|done]. intros [node branch_update].
  destruct (decide (node = END)); [done|].
  rewrite call_bind, drain_bind, drain_call.
  apply Gen_bind_proper; [|by rewrite astart_and_run_node_await].
  intros outcome. by rewrite drain_finish_node.
Qed.

Lemma arun_context_await {Y} trace_key fuel :
  (arun_context (Y:=Y) ex trace_key fuel ≈
   run_context (await_executor ex) trace_key fuel)%gen.
Proof.
  unfold arun_context, run_context, arun_events_context, stream_events_context.
  rewrite drain_bind, drain_call, 2!(Gen_bind_assoc (call publish_start)).
  apply Gen_bind_proper; [|done]. intros start. cbv beta.
  rewrite drain_bind, drain_yield_from, Gen_bind_ret, drain_bind, drain_while.
  rewrite 2!(Gen_bind_assoc (while_pending _ _)). apply Gen_bind_proper.
  - intros []. rewrite drain_bind, drain_call, 2!(Gen_bind_assoc (call (publish_complete _))).
    apply Gen_bind_proper; [|done]. intros complete. cbv beta.
    rewrite drain_yield_from, Gen_bind_ret, Gen_bind_assoc. by intros s.
  - by rewrite aexecute_next_event_step_await.
Qed.

Lemma ainvoke_await fuel s trace_key w :
  ainvoke_with_events ex fuel s trace_key w =
    invoke_with_events (await_executor ex) fuel s trace_key w.
Proof. unfold ainvoke_with_events, invoke_with_events. by rewrite (arun_context_await _ _ _). Qed.
End equivalence.
