(* ===== verification/GraphRun.v ===== *)
(** * What a run does: steps, termination, trace and event log

    [node_step] is the abstract state machine of a run: one transition per
    entry of the deque.  Every run of the executor is a path of it, ends, and
    leaves a trace and an event log that determine each other. *)

From S2P Require Import Prelude PyDict GraphTypes GraphState Checkpoint GraphRuntime.
From S2P Require Import GraphContext GraphStream GraphExecutor.

Definition pending_target (i : PendingItem) : string :=
  match i with PNode s => s | PSend s => send_target s end.
Definition pending_update (i : PendingItem) : option (dict string Value) :=
  match i with PNode _ => None | PSend s => Some (send_update s) end.

Definition valid_endpoint (plan : RuntimeGraphPlan) (target : string) : Prop :=
  target ∈ plan_nodes plan ∨ target = START ∨ target = END.

(** ** Construction *)

Section construction.
Context {W : Type}.

Definition valid_edge (plan : RuntimeGraphPlan) (e : RuntimeGraphEdge) : Prop :=
  valid_endpoint plan (edge_source e) ∧ valid_endpoint plan (edge_target e).

Definition valid_conditional_edge (plan : RuntimeGraphPlan)
    (e : RuntimeGraphConditionalEdge) : Prop :=
  valid_endpoint plan (ce_source e) ∧
  Forall (valid_endpoint plan) (dvalues (ce_routes e)).

Lemma bind_check {A} (m : result Exn unit) (k : result Exn A) a :
  (m ≫= λ _, k) = Ok a ↔ m = Ok () ∧ k = Ok a.
Proof. destruct m as [[]|e]; naive_solver. Qed.

Lemma validate_edge_Ok plan e : validate_edge (plan_nodes plan) e = Ok () ↔ valid_edge plan e.
Proof.
  unfold validate_edge, valid_edge, valid_endpoint. by rewrite bind_check, !check_endpoint_Ok.
Qed.

Lemma validate_conditional_edge_Ok plan e :
  validate_conditional_edge (plan_nodes plan) e = Ok () ↔ valid_conditional_edge plan e.
Proof.
  unfold validate_conditional_edge, valid_conditional_edge.
  rewrite bind_check, check_endpoint_Ok, foldM_check.
  by setoid_rewrite check_endpoint_Ok.
Qed.

Lemma validate_plan_Ok plan :
  validate_plan plan = Ok () ↔
    Forall (valid_edge plan) (plan_edges plan) ∧
    Forall (valid_conditional_edge plan) (plan_conditional_edges plan).
Proof.
  unfold validate_plan. rewrite bind_check, !foldM_check.
  setoid_rewrite validate_edge_Ok. by setoid_rewrite validate_conditional_edge_Ok.
Qed.

Lemma elem_of_missing_actions {A} plan (actions : dict string A) n :
  n ∈ missing_actions plan actions ↔ n ∈ plan_nodes plan ∧ n ∉ dkeys actions.
Proof.
  unfold missing_actions. rewrite elem_of_py_sorted, elem_of_remove_dups, list_elem_of_filter.
  naive_solver.
Qed.

Lemma validate_actions_Ok {A} plan (actions : dict string A) :
  validate_actions plan actions = Ok () ↔
    Forall (λ n, n ∈ dkeys actions) (plan_nodes plan).
Proof.
  unfold validate_actions. rewrite Forall_forall.
  pose proof (elem_of_missing_actions plan actions) as Hm.
  destruct (missing_actions plan actions) as [|m ms].
  - split; [intros _ n Hn|done]. destruct (decide (n ∈ dkeys actions)) as [?|n0]; [done|].
    by destruct (proj1 (elem_of_nil n) (proj2 (Hm n) (conj Hn n0))).
  - split; [done|]. intros Hall. destruct (proj1 (Hm m) ltac:(by left)) as [? []]. auto.
Qed.
End construction.

(** ** The abstract machine *)

Section machine.
Context {W : Type} (ex : RuntimeGraphExecutor W).

(** Where a finished node may send control: where its command said, or along
    its static edges and then to validated targets of its routers. *)
Definition allowed_targets (node : string) (outcome : NormalizedActionResult)
    (targets : list PendingItem) : Prop :=
  if nar_controls_flow outcome
  then targets = (PNode <$> nar_goto outcome) ++ (PSend <$> nar_sends outcome)
  else ∃ routed, targets = (PNode <$> dget_list node (ex_edges ex)) ++ routed ∧
         Forall (λ i, valid_endpoint (ex_plan ex) (pending_target i)) routed.

(** The context in which the action of [node] is called. *)
Definition announced (trace_key : option string) (node : string)
    (branch_update : option (dict string Value)) (c : GraphRunContext) : GraphRunContext :=
  let c1 := record_trace trace_key
              (set_trace (ctx_trace c ++ [node]) (set_step (ctx_step c + 1) c)) in
  set_events (ctx_events c ++ [Event "node-start" (Some node) (ctx_step c + 1)
                                 (node_start_detail branch_update (ctx_trace c ++ [node]))]) c1.

(** The context after [node] was finished with [outcome]. *)
Definition finished (node kind : string) (outcome : NormalizedActionResult)
    (state : RuntimeState) (targets : list PendingItem) (c : GraphRunContext) :
    GraphRunContext :=
  MkContext state (ctx_pending c ++ targets) (ctx_trace c)
    (ctx_events c ++ [Event kind (Some node) (ctx_step c) (finish_detail outcome)])
    (ctx_step c).

(** What the update of an outcome may leave as the state. *)
Definition merged_into (outcome : NormalizedActionResult) (s s' : RuntimeState) : Prop :=
  match nar_update outcome with
  | UNone => s' = s
  | UMapping d => merge_state s d (ex_reducers ex) = Ok s'
  | UOther _ => False
  end.

Inductive node_step (trace_key : option string) : GraphRunContext → GraphRunContext → Prop :=
| step_end c item rest :
    ctx_pending c = item :: rest → pending_target item = END →
    node_step trace_key c (set_pending rest c)
| step_node c item rest node outcome state targets c1 :
    ctx_pending c = item :: rest → pending_target item = node → node ≠ END →
    is_Some (dget node (ex_actions ex)) →
    ctx_step c + 1 ≤ plan_step_limit (ex_plan ex) →
    c1 = announced trace_key node (pending_update item) (set_pending rest c) →
    merged_into outcome (ctx_state c1) state →
    allowed_targets node outcome targets →
    node_step trace_key c (finished node "node-end" outcome state targets c1).
End machine.

(** ** Equations of the methods *)

Section methods.
Context {W : Type} (ex : RuntimeGraphExecutor W).

Lemma announced_fields trace_key node bu c :
  ctx_pending (announced trace_key node bu c) = ctx_pending c ∧
  ctx_trace (announced trace_key node bu c) = ctx_trace c ++ [node] ∧
  ctx_step (announced trace_key node bu c) = ctx_step c + 1 ∧
  ctx_events (announced trace_key node bu c) =
    ctx_events c ++ [Event "node-start" (Some node) (ctx_step c + 1)
                       (node_start_detail bu (ctx_trace c ++ [node]))].
Proof. by destruct trace_key. Qed.

Lemma announce_node_eq node bu trace_key s :
  announce_node ex node bu trace_key s =
    let c := es_ctx s in
    if plan_step_limit (ex_plan ex) <? ctx_step c + 1
    then (MkExec (set_step (ctx_step c + 1) c) (es_world s) (es_custom s),
          Raise (RuntimeGraphError "runtime graph step limit exceeded"))
    else (MkExec (announced trace_key node bu c) (es_world s) (es_custom s),
          Ok (with_branch_update (ctx_state (announced trace_key node bu c)) bu)).
Proof.
  unfold announce_node, advance_step, publish, mbind, M_bind; simpl.
  destruct (plan_step_limit (ex_plan ex) <? ctx_step (es_ctx s) + 1); [done|].
  by destruct trace_key.
Qed.

Lemma next_node_eq (s : ExecState W) item rest :
  ctx_pending (es_ctx s) = item :: rest →
  next_node s = (MkExec (set_pending rest (es_ctx s)) (es_world s) (es_custom s),
                 Ok (pending_target item, pending_update item)).
Proof.
  intros E. unfold next_node, mbind, M_bind; simpl. rewrite E. by destruct item.
Qed.

Lemma next_node_pending (s : ExecState W) : ctx_pending (es_ctx s) ≠ [] →
  ∃ item rest, ctx_pending (es_ctx s) = item :: rest ∧
    next_node s = (MkExec (set_pending rest (es_ctx s)) (es_world s) (es_custom s),
                   Ok (pending_target item, pending_update item)).
Proof.
  intros Hne. destruct (ctx_pending (es_ctx s)) as [|item rest] eqn:E; [done|].
  exists item, rest. split; [done|]. by apply next_node_eq.
Qed.

(** Routing and merging touch the world and the state only. *)
Lemma targets_of_edges_frame await state edges :
  (∀ r, m_frame same_ctx (await r)) →
  m_frame same_ctx (targets_of_edges ex await state edges).
Proof.
  intros Ha. induction edges as [|edge edges IH]; simpl; [auto with frame|].
  unfold edge_targets. auto 12 with frame.
Qed.

Lemma next_targets_frame node state outcome :
  m_frame same_ctx (next_targets ex node state outcome).
Proof.
  unfold next_targets. destruct (nar_controls_flow outcome); [auto with frame|].
  apply m_frame_bind; [apply _| |auto with frame].
  apply targets_of_edges_frame. auto with frame.
Qed.

Lemma validate_runtime_target_Ok target :
  validate_runtime_target ex target = Ok () → valid_endpoint (ex_plan ex) target.
Proof. apply check_endpoint_Ok. Qed.

Lemma resolve_route_name_valid router routes name target :
  resolve_route_name ex router routes name = Ok target → valid_endpoint (ex_plan ex) target.
Proof.
  unfold resolve_route_name. intros; inv_result. by destruct x0; apply validate_runtime_target_Ok.
Qed.

Lemma sends_valid (sends : list RuntimeGraphSend) u :
  foldM (λ _ send, validate_runtime_target ex (send_target send)) () sends = Ok u →
  Forall (λ send, valid_endpoint (ex_plan ex) (send_target send)) sends.
Proof.
  apply (foldM_inv (λ prefix _, Forall _ prefix)); [done|].
  intros prefix send [] [] _ Hprefix Hv. apply Forall_app; split; [done|].
  constructor; [by apply validate_runtime_target_Ok|done].
Qed.

(** A resolved route holds validated endpoints only. *)
Lemma resolve_conditional_route_valid router routes route targets :
  resolve_conditional_route ex router routes route = Ok targets →
  Forall (λ i, valid_endpoint (ex_plan ex) (pending_target i)) targets.
Proof.
  unfold resolve_conditional_route.
  destruct route as [s|send|l repr|repr]; intros H; inv_result.
  - constructor; [|done]. by eapply resolve_route_name_valid.
  - constructor; [|done]. destruct x. by apply validate_runtime_target_Ok.
  - destruct (mapM route_send l) as [sends|], (mapM route_str l) as [names|]; inv_result;
      rewrite Forall_fmap.
    1, 2: by eapply sends_valid.
    rename select (mapM _ _ = _) into Hm. apply mapM_Ok in Hm.
    induction Hm; constructor; [|done]. by eapply resolve_route_name_valid.
Qed.

Lemma targets_of_edges_valid await state edges s s' targets :
  targets_of_edges ex await state edges s = (s', Ok targets) →
  Forall (λ i, valid_endpoint (ex_plan ex) (pending_target i)) targets.
Proof.
  revert s targets; induction edges as [|edge edges IH]; intros s targets; simpl.
  - intros; inv_gen. constructor.
  - intros H; inv_gen. apply Forall_app; split; [|by eapply IH].
    unfold edge_targets in *; inv_gen. by eapply resolve_conditional_route_valid.
Qed.

Lemma next_targets_Ok node state outcome s s' targets :
  next_targets ex node state outcome s = (s', Ok targets) →
  es_ctx s' = es_ctx s ∧ allowed_targets ex node outcome targets.
Proof.
  intros H. split.
  - pose proof (next_targets_frame node state outcome s) as Hf. by rewrite H in Hf.
  - unfold next_targets, allowed_targets in *.
    destruct (nar_controls_flow outcome); inv_gen; [done|].
    eexists; split; [done|]. unfold conditional_targets in *.
    by eapply targets_of_edges_valid.
Qed.

Lemma merge_outcome_Ok outcome s s' :
  merge_outcome ex outcome s = (s', Ok ()) →
  ∃ state, s' = MkExec (set_state state (es_ctx s)) (es_world s) (es_custom s) ∧
    merged_into ex outcome (ctx_state (es_ctx s)) state.
Proof.
  unfold merge_outcome, merged_into. destruct (nar_update outcome) eqn:Eu; intros; inv_gen.
  - exists (ctx_state (es_ctx s')). by destruct s' as [[] ? ?].
  - by eexists.
Qed.

Lemma finish_node_Ok node outcome kind s ys s' :
  finish_node ex node outcome kind s = Some (ys, (s', Ok ())) →
  ∃ state targets,
    es_ctx s' = finished node kind outcome state targets (es_ctx s) ∧
    merged_into ex outcome (ctx_state (es_ctx s)) state ∧
    allowed_targets ex node outcome targets ∧
    ys = [Event kind (Some node) (ctx_step (es_ctx s)) (finish_detail outcome)].
Proof.
  unfold finish_node. intros H; inv_gen.
  rename select (merge_outcome _ _ _ = _) into Hm.
  destruct x1. apply merge_outcome_Ok in Hm as (state & -> & Hm).
  rename select (next_targets _ _ _ _ _ = _) into Ht.
  apply next_targets_Ok in Ht as [Hc Ht]. simpl in *.
  unfold publish_finish, publish in *; inv_gen.
  exists state, x8. rewrite Hc. by destruct (es_ctx s).
Qed.

Lemma start_and_run_node_Ok node bu trace_key s s' outcome :
  start_and_run_node ex node bu trace_key s = (s', Ok outcome) →
  ctx_step (es_ctx s) + 1 ≤ plan_step_limit (ex_plan ex) ∧
  is_Some (dget node (ex_actions ex)) ∧
  es_ctx s' = announced trace_key node bu (es_ctx s) ∧ nar_interrupt outcome = None.
Proof.
  unfold start_and_run_node. intros H; inv_gen.
  rename select (announce_node _ _ _ _ _ = _) into Ha. rewrite announce_node_eq in Ha.
  simpl in Ha. destruct (Z.ltb_spec (plan_step_limit (ex_plan ex)) (ctx_step (es_ctx s) + 1));
    simplify_eq.
  unfold find_action in *. inv_result.
  rename select (run_activation _ _ = _) into Hr. apply run_activation_ctx in Hr as Hf.
  simpl in Hf.
  unfold check_interrupt in *.
  destruct (nar_interrupt _) as [i|] eqn:Ei; [unfold raise_interrupted in *; inv_gen|inv_gen].
  split_and!; [lia|by eexists|done|done].
Qed.

(** ** One iteration is one transition *)

Lemma event_step_refines trace_key s ys s' :
  ctx_pending (es_ctx s) ≠ [] →
  execute_next_event_step ex trace_key s = Some (ys, (s', Ok ())) →
  node_step ex trace_key (es_ctx s) (es_ctx s') ∧
  ys = drop 1 (drop (length (ctx_events (es_ctx s))) (ctx_events (es_ctx s'))).
Proof.
  intros Hne. destruct (next_node_pending s Hne) as (item & rest & Hp & Hn).
  unfold execute_next_event_step. intros H; inv_gen.
  rename select (next_node _ = _) into Hn'. rewrite Hn in Hn'. simplify_eq.
  destruct (decide (pending_target item = END)) as [HE|HE].
  - inv_gen. split; [by eapply step_end|]. by rewrite drop_all.
  - inv_gen. rename select (start_and_run_node _ _ _ _ _ = _) into Hs.
    apply start_and_run_node_Ok in Hs as (Hle & Hact & Hc & Hint).
    rename select (finish_node _ _ _ _ _ = _) into Hf.
    apply finish_node_Ok in Hf as (state & targets & Hc' & Hm & Ht & ->).
    rewrite Hc', Hc. rewrite Hc in Hm. simpl in *.
    split; [by eapply step_node|]. simpl.
    rewrite <-app_assoc, drop_app_length; simpl. by destruct trace_key.
Qed.
End methods.
