(* ===== verification/GraphRunFacts.v ===== *)
(** * Theorems about complete runs

    Termination, the refinement of the abstract machine, the event log, and
    what the streaming entry points yield. *)

From S2P Require Import Prelude PyDict GraphTypes GraphState Checkpoint GraphRuntime.
From S2P Require Import GraphContext GraphStream GraphExecutor GraphAsync GraphRun.

#[local] Opaque announced.

(** ** Termination *)

Section termination.
Context {W : Type} (ex : RuntimeGraphExecutor W) (trace_key : option string).

Lemma finish_node_total node outcome kind : gen_total (finish_node ex node outcome kind).
Proof. unfold finish_node. auto 12 with frame. Qed.

Lemma event_step_total : gen_total (execute_next_event_step ex trace_key).
Proof.
  unfold execute_next_event_step. apply gen_total_bind; [auto with frame|].
  intros [node bu]. destruct (decide (node = END)); [auto with frame|].
  apply gen_total_bind; [auto with frame|]. intros outcome. apply finish_node_total.
Qed.

(** A transition either uses a step of the budget or shortens the deque. *)
Lemma node_step_measure c c' :
  node_step ex trace_key c c' →
  (ctx_step c' = ctx_step c + 1 ∧ ctx_step c' ≤ plan_step_limit (ex_plan ex)) ∨
  (ctx_step c' = ctx_step c ∧ (length (ctx_pending c') < length (ctx_pending c))%nat).
Proof.
  intros [c0 item rest Hp HE|c0 item rest node outcome state targets c1 Hp Hn HE Ha Hle -> Hm Ht].
  - right. rewrite Hp. simpl. split; [done|lia].
  - left. simpl. destruct (announced_fields trace_key node (pending_update item)
      (set_pending rest c0)) as (_&_&->&_). simpl. lia.
Qed.

Lemma event_step_advances :
  advances (execute_next_event_step ex trace_key) (plan_step_limit (ex_plan ex)).
Proof.
  intros s ys s' Hne H. apply event_step_refines in H as [H _]; [|done].
  by apply node_step_measure in H.
Qed.

Lemma event_loop_total s :
  ∃ n r, while_pending n (execute_next_event_step ex trace_key) s = Some r.
Proof.
  eapply while_pending_total; [apply event_step_advances|].
  apply gen_total_never_stuck, event_step_total.
Qed.

Lemma stream_events_context_monotone :
  gen_monotone (stream_events_context ex trace_key).
Proof. unfold stream_events_context. auto 10 with py. Qed.

Lemma run_context_monotone {Y} : gen_monotone (run_context (Y:=Y) ex trace_key).
Proof.
  unfold run_context. apply gen_monotone_bind; [|auto with py].
  intros n m s r Hle. apply gen_monotone_flat_map; [|done].
  apply stream_events_context_monotone.
Qed.

Lemma stream_events_context_total s :
  ∃ n r, stream_events_context ex trace_key n s = Some r.
Proof.
  destruct (event_loop_total (publish_start s).1) as (n & [ys [s' r]] & Hn).
  exists n. unfold stream_events_context, mbind, Gen_bind. simpl.
  unfold publish_start in Hn. simpl in Hn. rewrite Hn.
  destruct r; by eexists.
Qed.

Lemma run_context_total {Y} s : ∃ n r, run_context (Y:=Y) ex trace_key n s = Some r.
Proof.
  destruct (stream_events_context_total s) as (n & [ys [s' r]] & Hn).
  exists n. unfold run_context, drain, flat_map_gen, mbind, Gen_bind. rewrite Hn.
  destruct r; by eexists.
Qed.

Lemma invoke_with_events_monotone s w :
  fuel_monotone (λ n, invoke_with_events ex n s trace_key w).
Proof.
  intros n m r Hle. unfold invoke_with_events, returned.
  destruct (run_context ex trace_key n _) as [o|] eqn:E; [|done].
  by rewrite (run_context_monotone _ _ _ _ Hle E).
Qed.

Lemma invoke_with_events_total s w :
  ∃ n r, invoke_with_events ex n s trace_key w = Some r.
Proof.
  destruct (run_context_total (Y:=unit) (start_exec (initial_context ex s) w))
    as (n & [ys [s' r]] & Hn).
  exists n. unfold invoke_with_events. rewrite Hn. by eexists.
Qed.

Lemma invoke_converges (P : W * result Exn run_state → Prop) s w :
  (∀ n r, invoke_with_events ex n s trace_key w = Some r → P r) →
  converges (λ n, invoke_with_events ex n s trace_key w) P.
Proof.
  intros HP. destruct (invoke_with_events_total s w) as (n & r & Hn).
  eapply converges_intro; [apply invoke_with_events_monotone|done|]. by eapply HP.
Qed.
End termination.

(** ** Runs as paths of the abstract machine *)

Section path.
Context {W : Type} (ex : RuntimeGraphExecutor W) (trace_key : option string).

(** The context of a fresh run once it published its start. *)
Definition started (c : GraphRunContext) : GraphRunContext :=
  set_events (ctx_events c ++ [Event "start" None 0
    [("pending", VTuple (v_pending <$> ctx_pending c))]]) c.

(** The context of a run that completed. *)
Definition completed (c : GraphRunContext) : GraphRunContext :=
  let c1 := record_trace trace_key c in
  set_events (ctx_events c ++ [Event "complete" None (ctx_step c) (complete_detail c1)]) c1.

Lemma publish_complete_eq (s : ExecState W) :
  publish_complete trace_key s =
    (MkExec (completed (es_ctx s)) (es_world s) (es_custom s),
     Ok (Event "complete" None (ctx_step (es_ctx s))
           (complete_detail (record_trace trace_key (es_ctx s))))).
Proof. unfold publish_complete, completed. by destruct trace_key. Qed.

(** A run is its loop, between the start and the completion of its context. *)
Lemma run_context_eq {Y} n s :
  run_context (Y:=Y) ex trace_key n s =
    match while_pending n (execute_next_event_step ex trace_key) (publish_start s).1 with
    | None => None
    | Some (_, (s', Raise e)) => Some ([], (s', Raise e))
    | Some (_, (s', Ok _)) =>
        let c := completed (es_ctx s') in
        Some ([], (MkExec c (es_world s') (es_custom s'),
                   Ok (ctx_state c, ctx_trace c, ctx_events c)))
    end.
Proof.
  assert ((publish_start s) = ((publish_start s).1, Ok (default (Event "" None 0 [])
            (last (ctx_events (es_ctx (publish_start s).1)))))) as Hs.
  { unfold publish_start, publish, mbind, M_bind; simpl. by rewrite last_snoc. }
  unfold run_context, stream_events_context, drain, flat_map_gen, mbind at 1 2, Gen_bind at 1 2.
  unfold call at 1. rewrite Hs. cbn [fst]. unfold mbind at 1, Gen_bind at 1.
  unfold yield_from at 1. unfold mbind at 1, Gen_bind at 1.
  destruct (while_pending _ _ _) as [[ys [s' [[]|e]]]|]; [|by rewrite bind_nil_yields|done].
  unfold mbind, Gen_bind, call. rewrite publish_complete_eq. simpl. f_equal. f_equal.
  by rewrite app_nil_r, bind_nil_yields.
Qed.

(** What an event step yields of what it publishes. *)
Definition streamed (l : list RuntimeGraphEvent) : list RuntimeGraphEvent :=
  filter (λ e, event_kind e ≠ "node-start") l.

Lemma event_step_streamed s ys s' :
  ctx_pending (es_ctx s) ≠ [] →
  execute_next_event_step ex trace_key s = Some (ys, (s', Ok ())) →
  streamed (ctx_events (es_ctx s')) = streamed (ctx_events (es_ctx s)) ++ ys.
Proof.
  intros Hne H. apply event_step_refines in H as [H ->]; [|done].
  inversion H as [c item rest Hp HE|c item rest node outcome state targets c1 Hp Hn HE Ha Hle
    -> Hm Ht]; subst; simpl.
  - by rewrite drop_all, app_nil_r.
  - destruct (announced_fields trace_key (pending_target item) (pending_update item)
      (set_pending rest (es_ctx s))) as (_&_&_&->). simpl.
    rewrite <-app_assoc, drop_app_length. unfold streamed.
    by rewrite filter_app.
Qed.

Lemma event_loop_path n s ys s' :
  while_pending n (execute_next_event_step ex trace_key) s = Some (ys, (s', Ok ())) →
  rtc (node_step ex trace_key) (es_ctx s) (es_ctx s') ∧
  streamed (ctx_events (es_ctx s')) = streamed (ctx_events (es_ctx s)) ++ ys ∧
  ctx_pending (es_ctx s') = [].
Proof.
  intros H.
  eapply (while_pending_inv _ (λ ys' s1, rtc (node_step ex trace_key) (es_ctx s) (es_ctx s1) ∧
    streamed (ctx_events (es_ctx s1)) = streamed (ctx_events (es_ctx s)) ++ ys'))
    with (ys := []) in H as [[Hr Hy] Hp]; [done| |by rewrite app_nil_r].
  intros ys1 s1 ys2 s2 Hne [Hpath Hy] Hstep. split.
  - eapply rtc_r; [done|]. by apply event_step_refines in Hstep as [??].
  - rewrite (event_step_streamed _ _ _ Hne Hstep), Hy. by rewrite app_assoc.
Qed.

Lemma stream_events_context_Ok n s ys s' :
  stream_events_context ex trace_key n s = Some (ys, (s', Ok ())) →
  ∃ c, rtc (node_step ex trace_key) (started (es_ctx s)) c ∧ ctx_pending c = [] ∧
    es_ctx s' = completed c ∧
    streamed (ctx_events (es_ctx s')) = streamed (ctx_events (es_ctx s)) ++ ys.
Proof.
  unfold stream_events_context. intros H; inv_gen.
  rename select (publish_start _ = _) into Hs. unfold publish_start, publish in Hs. inv_gen.
  rename select (while_pending _ _ _ = _) into Hl.
  destruct x8. apply event_loop_path in Hl as (Hpath & Hy & Hp). simpl in *.
  rewrite publish_complete_eq in *. simplify_eq.
  exists (es_ctx x7). split_and!; [done|done|done|]. simpl.
  unfold completed; simpl. unfold streamed in *. rewrite filter_app, Hy, filter_app. simpl.
  by rewrite <-!app_assoc.
Qed.

Lemma run_context_Ok {Y} n s ys s' r :
  run_context (Y:=Y) ex trace_key n s = Some (ys, (s', Ok r)) →
  ∃ c, rtc (node_step ex trace_key) (started (es_ctx s)) c ∧ ctx_pending c = [] ∧
    r = (ctx_state (completed c), ctx_trace (completed c), ctx_events (completed c)).
Proof.
  unfold run_context, run_answer. intros H; inv_gen.
  rename select (drain _ _ = _) into Hd. unfold drain, flat_map_gen in Hd.
  destruct (stream_events_context _ _ _ _) as [[ys' [s1 [[]|e]]]|] eqn:E; simplify_eq.
  apply stream_events_context_Ok in E as (c & Hpath & Hp & Hc & _).
  exists c. by rewrite Hc.
Qed.

Lemma stream_events_Ok n s w ys st :
  stream_events ex n s trace_key w = Some (ys, (st, Ok ())) →
  ys = streamed (ctx_events (es_ctx st)).
Proof.
  unfold stream_events. intros H. apply stream_events_context_Ok in H as (c & _ & _ & _ & ->).
  done.
Qed.

Lemma astream_events_Ok n s w ys st :
  astream_events ex n s trace_key w = Some (ys, (st, Ok ())) →
  ys = ctx_events (es_ctx st).
Proof.
  unfold astream_events, arun_events_context. intros H; inv_gen.
  rename select (while_pending _ _ _ = _) into Hl.
  apply while_pending_silent in Hl as ->. done.
Qed.

Lemma invoke_Ok n s w w' state trace events :
  invoke_with_events ex n s trace_key w = Some (w', Ok (state, trace, events)) →
  ∃ c, rtc (node_step ex trace_key) (started (initial_context ex s)) c ∧
    ctx_pending c = [] ∧ state = ctx_state (completed c) ∧
    trace = ctx_trace (completed c) ∧ events = ctx_events (completed c).
Proof.
  unfold invoke_with_events, returned. intros H.
  destruct (run_context _ _ _ _) as [[ys [s' r]]|] eqn:E; simplify_eq/=.
  apply run_context_Ok in E as (c & Hpath & Hp & Hr). simplify_eq. by exists c.
Qed.
End path.

(** ** Invariants of the machine, by induction on the path *)

Definition event_key (e : RuntimeGraphEvent) : string * option string * Z :=
  (event_kind e, event_node e, event_step e).

(** The log of the nodes of a trace, numbered from [i]. *)
Fixpoint node_log (i : Z) (trace : list string) : list (string * option string * Z) :=
  match trace with
  | [] => []
  | node :: trace =>
      ("node-start", Some node, i) :: ("node-end", Some node, i) :: node_log (i + 1) trace
  end.

Lemma node_log_app i t1 t2 :
  node_log i (t1 ++ t2) = node_log i t1 ++ node_log (i + Z.of_nat (length t1)) t2.
Proof.
  revert i; induction t1 as [|n t1 IH]; intros i; simpl; [by rewrite Z.add_0_r|].
  rewrite IH. do 2 f_equal. f_equal. f_equal. lia.
Qed.

Section invariants.
Context {W : Type} (ex : RuntimeGraphExecutor W) (trace_key : option string).

Record run_invariant (base : list (string * option string * Z)) (c : GraphRunContext) : Prop := {
  inv_step : ctx_step c = Z.of_nat (length (ctx_trace c));
  inv_bound : ctx_step c ≤ Z.max 0 (plan_step_limit (ex_plan ex));
  inv_log : event_key <$> ctx_events c = base ++ node_log 1 (ctx_trace c);
  inv_actions : Forall (λ n, n ≠ END ∧ n ∈ dkeys (ex_actions ex)) (ctx_trace c)
}.

Lemma node_step_invariant base c c' :
  node_step ex trace_key c c' → run_invariant base c → run_invariant base c'.
Proof.
  intros [c0 item rest Hp HE|c0 item rest node outcome state targets c1 Hp Hn HE Ha Hle -> Hm Ht]
    [Hs Hb Hl Hf]; [done|].
  destruct (announced_fields trace_key node (pending_update item) (set_pending rest c0))
    as (_ & Et & Es & Ee).
  split; simpl; rewrite ?Et, ?Es, ?Ee; simpl.
  - rewrite Hs, length_app. simpl. lia.
  - lia.
  - rewrite !fmap_app, Hl, node_log_app, <-!app_assoc. simpl. rewrite Hs.
    by rewrite (Z.add_comm 1).
  - apply Forall_app; split; [done|]. constructor; [|done]. split; [done|].
    by apply dget_is_Some.
Qed.

Lemma path_invariant base c c' :
  rtc (node_step ex trace_key) c c' → run_invariant base c → run_invariant base c'.
Proof. induction 1; eauto using node_step_invariant. Qed.

Lemma started_invariant s :
  run_invariant [("start", None, 0)] (started (initial_context ex s)).
Proof. split; simpl; [done|lia|done|constructor]. Qed.
End invariants.
