(* ===== verification/GraphLinear.v ===== *)
(** * Linear graphs are folds ([linear_plan] of [_runtime_graph_factory.py])

    The executor of a linear plan, run on actions that return mappings, is the
    left-to-right fold of the actions and the merges: [linear_run]. *)

From S2P Require Import Prelude PyDict GraphTypes GraphState Checkpoint GraphRuntime.
From S2P Require Import GraphContext GraphStream GraphExecutor GraphRun GraphRunFacts.

(** ** The reference *)

Section reference.
Context {W : Type} (ex : RuntimeGraphExecutor W).

(** An action that returns a mapping whenever it returns. *)
Definition plain_action (a : RuntimeAction W) : Prop :=
  ∀ s w w' l r, a s w = (w', (l, Ok r)) → ∃ d, r = Direct (RMapping d).

(** One node: the budget, the action, the merge. *)
Definition node_result (step : Z) (node : string) (state : RuntimeState) (w : W) :
    W * result Exn RuntimeState :=
  if plan_step_limit (ex_plan ex) <? step + 1
  then (w, Raise (RuntimeGraphError "runtime graph step limit exceeded"))
  else match dget node (ex_actions ex) with
       | None => (w, Raise (KeyError node))
       | Some action =>
           match action state w with
           | (w', (_, Ok (Direct (RMapping d)))) =>
               (w', merge_state state d (ex_reducers ex))
           | (w', (_, Ok _)) => (w', Ok state)
           | (w', (_, Raise e)) => (w', Raise e)
           end
       end.

Fixpoint linear_run (step : Z) (nodes : list string) (state : RuntimeState) (w : W) :
    W * result Exn RuntimeState :=
  match nodes with
  | [] => (w, Ok state)
  | node :: nodes =>
      match node_result step node state w with
      | (w', Ok state') => linear_run (step + 1) nodes state' w'
      | (w', Raise e) => (w', Raise e)
      end
  end.
End reference.

(** ** The static edges of a linear plan *)

Lemma zip_with_successors nodes e :
  nodes ≠ [] →
  zip_with Edge nodes (tail nodes) ++ [Edge (List.last nodes e) END] =
    zip_with Edge nodes (tail nodes ++ [END]).
Proof.
  destruct nodes as [|n nodes]; [done|]. intros _. simpl.
  revert n; induction nodes as [|n' nodes IH]; intros n; [done|].
  simpl. f_equal. apply IH.
Qed.

Lemma linear_plan_Ok nodes limit plan :
  linear_plan nodes limit = Ok plan ↔
    ∃ first rest, nodes = first :: rest ∧
      plan = Plan nodes (Edge START first :: zip_with Edge nodes (rest ++ [END])) [] limit [].
Proof.
  destruct nodes as [|first rest]; simpl; [naive_solver|].
  pose proof (zip_with_successors (first :: rest) first ltac:(done)) as E. simpl in E.
  rewrite E. naive_solver.
Qed.

Lemma zip_with_no_source nodes targets n :
  n ∉ nodes → filter (λ e, edge_source e = n) (zip_with Edge nodes targets) = [].
Proof.
  revert targets; induction nodes as [|m nodes IH]; intros [|t targets] Hn; simpl; [done..|].
  apply not_elem_of_cons in Hn as [Hm Hn]. rewrite filter_cons. simpl.
  rewrite decide_False by congruence. by apply IH.
Qed.

Lemma zip_with_one_source before n rest :
  NoDup (before ++ n :: rest) →
  edge_target <$> filter (λ e, edge_source e = n)
    (zip_with Edge (before ++ n :: rest) (tail (before ++ n :: rest) ++ [END])) =
    [List.hd END rest].
Proof.
  induction before as [|m before IH]; simpl; intros [Hm Hnd]%NoDup_cons.
  - destruct rest as [|n' rest]; simpl; rewrite filter_cons; simpl; rewrite decide_True by done;
      [done|]. simpl. by rewrite (zip_with_no_source (n' :: rest) (rest ++ [END])).
  - specialize (IH Hnd).
    destruct (before ++ n :: rest) as [|x l] eqn:E; [by destruct before|].
    simpl. rewrite filter_cons. simpl. rewrite decide_False; [exact IH|].
    intros ->. apply Hm. rewrite <-E. set_solver.
Qed.

Lemma linear_start first rest limit nodes plan :
  linear_plan nodes limit = Ok plan → nodes = first :: rest → START ∉ nodes →
  dget_list START (index_edges (plan_edges plan)) = [first].
Proof.
  intros (f & r & -> & ->)%linear_plan_Ok [= -> ->] Hs.
  rewrite dget_list_index_edges. cbn [plan_edges]. rewrite filter_cons. cbn [edge_source].
  rewrite decide_True by done. rewrite fmap_cons.
  by rewrite (zip_with_no_source (first :: rest) (rest ++ [END])).
Qed.

Lemma linear_successor before n rest limit nodes plan :
  linear_plan nodes limit = Ok plan → nodes = before ++ n :: rest → NoDup nodes →
  START ∉ nodes → dget_list n (index_edges (plan_edges plan)) = [List.hd END rest].
Proof.
  intros (f & r & Hn & ->)%linear_plan_Ok Hn' Hnd Hs.
  rewrite dget_list_index_edges. cbn [plan_edges]. rewrite filter_cons. cbn [edge_source].
  rewrite decide_False; [|intros <-; apply Hs; rewrite Hn'; apply elem_of_app; right; left].
  replace r with (tail nodes) by (by rewrite Hn).
  rewrite Hn'. apply zip_with_one_source. by rewrite <-Hn'.
Qed.

(** ** The loop *)

Section linear.
Context {W : Type} (ex : RuntimeGraphExecutor W).
Hypothesis plain : Forall (λ na, plain_action na.2) (ex_actions ex).
Hypothesis no_routes : ex_conditional_edges ex = [].

(** One iteration on a deque that holds a node with one static successor. *)
Lemma linear_step s n t :
  ctx_pending (es_ctx s) = [PNode n] → n ≠ END → dget_list n (ex_edges ex) = [t] →
  ∃ ys s' r, execute_next_event_step ex None s = Some (ys, (s', r)) ∧
    let '(w', expected) := node_result ex (ctx_step (es_ctx s)) n (ctx_state (es_ctx s))
                             (es_world s) in
    es_world s' = w' ∧
    match expected, r with
    | Ok state', Ok () =>
        ctx_state (es_ctx s') = state' ∧ ctx_pending (es_ctx s') = [PNode t] ∧
        ctx_step (es_ctx s') = ctx_step (es_ctx s) + 1 ∧
        ctx_trace (es_ctx s') = ctx_trace (es_ctx s) ++ [n]
    | Raise e, Raise e' => e = e'
    | _, _ => False
    end.
Proof.
  intros Hp HE Ht. unfold execute_next_event_step, node_result.
  unfold mbind at 1, Gen_bind at 1, call at 1. rewrite (next_node_eq _ _ _ Hp). simpl.
  rewrite decide_False by done. unfold start_and_run_node.
  unfold mbind at 1, Gen_bind, call at 1. unfold mbind at 1, M_bind at 1.
  rewrite announce_node_eq. simpl.
  destruct (plan_step_limit (ex_plan ex) <? ctx_step (es_ctx s) + 1); [by eauto 10|].
  unfold find_action, lift_result, mbind, M_bind; simpl.
  destruct (dget n (ex_actions ex)) as [a|] eqn:Ea; simpl; [|by eauto 10].
  unfold run_activation; simpl.
  destruct (a (ctx_state (es_ctx s)) (es_world s)) as [w' [l [r|e]]] eqn:Er; simpl; [|by eauto 10].
  rewrite Forall_forall in plain.
  destruct (plain (n, a) (dget_Some_elem _ _ _ Ea) _ _ _ _ _ Er) as [d ->]; simpl.
  unfold finish_node, merge_outcome, lift_result, call, mbind, Gen_bind, M_bind; simpl.
  destruct (merge_state (ctx_state (es_ctx s)) d (ex_reducers ex)) as [state'|e]; simpl;
    [|by eauto 10].
  unfold next_targets, conditional_targets. rewrite no_routes, Ht. simpl.
  unfold mbind, M_bind; simpl. by repeat eexists.
Qed.

Lemma linear_loop nodes : ∀ s fuel,
  END ∉ nodes →
  (∀ before n rest, nodes = before ++ n :: rest → dget_list n (ex_edges ex) = [List.hd END rest]) →
  ctx_pending (es_ctx s) = [PNode (List.hd END nodes)] →
  (S (length nodes) ≤ fuel)%nat →
  ∃ ys s' r, while_pending fuel (execute_next_event_step ex None) s = Some (ys, (s', r)) ∧
    let '(w', expected) := linear_run ex (ctx_step (es_ctx s)) nodes (ctx_state (es_ctx s))
                             (es_world s) in
    es_world s' = w' ∧
    match expected, r with
    | Ok state', Ok () => ctx_state (es_ctx s') = state' ∧
                          ctx_trace (es_ctx s') = ctx_trace (es_ctx s) ++ nodes
    | Raise e, Raise e' => e = e'
    | _, _ => False
    end.
Proof.
  induction nodes as [|n nodes IH]; intros s [|fuel] HE Hsucc Hp Hf; simpl in Hf; try lia;
    rewrite while_pending_unfold, Hp; simpl in Hp.
  - unfold execute_next_event_step, mbind, Gen_bind, call. rewrite (next_node_eq _ _ _ Hp). simpl.
    destruct fuel; simpl; do 3 eexists; (split; [done|]); simpl; by rewrite app_nil_r.
  - apply not_elem_of_cons in HE as [HE HE'].
    destruct (linear_step s n (List.hd END nodes) Hp ltac:(congruence)
                (Hsucc [] n nodes ltac:(done))) as (ys & s' & r & Hstep & Hr).
    unfold mbind, Gen_bind. rewrite Hstep. simpl.
    destruct (node_result ex _ n _ _) as [w' [state'|e]], Hr as [<- Hr], r as [[]|e'];
      try done; [|subst; by eauto 10].
    destruct Hr as (<- & Hp' & <- & Ht).
    destruct (IH s' fuel HE') as (ys' & s'' & r' & Hw & Hr'); [|done|lia|].
    { intros before m rest ->. by apply (Hsucc (n :: before)). }
    rewrite Hw. do 3 eexists; split; [done|].
    destruct (linear_run ex _ nodes _ _) as [w'' [st|e]], r' as [[]|e'];
      destruct Hr' as [? Hr']; split; try done.
    rewrite Ht in Hr'. by rewrite <-app_assoc in Hr'.
Qed.
End linear.

Section theorem.
Context {W : Type}.

(** C16. The graph that [linear_plan] builds for distinct nodes, run on actions
    that return mappings or raise, computes the fold of its nodes: every
    action sees the state the previous merge left, the first exception ends
    the run, the step limit cuts it after that many nodes, and a run that
    returns has visited exactly the nodes of the plan in their order. *)
Theorem linear_graph_is_fold nodes limit plan actions reducers rt
    (ex : RuntimeGraphExecutor W) s w :
  linear_plan nodes limit = Ok plan →
  mk_executor plan actions [] reducers rt = Ok ex →
  NoDup nodes → START ∉ nodes → END ∉ nodes →
  Forall (λ na, plain_action na.2) (ex_actions ex) →
  ∀ fuel, (length nodes < fuel)%nat →
    invoke_with_trace ex fuel s None w =
      let '(w', r) := linear_run ex 0 nodes s w in
      Some (w', (λ s', (s', nodes)) <$> r).
Proof.
  intros Hplan Hex Hnd HS HE Hplain fuel Hfuel.
  assert (ex_plan ex = plan ∧ ex_edges ex = index_edges (plan_edges plan) ∧
          ex_conditional_edges ex = []) as (Hp & Hedges & Hce).
  { unfold mk_executor in Hex. inv_result.
    destruct nodes; simpl in Hplan; inv_result. done. }
  unfold invoke_with_trace, invoke_with_events.
  destruct (linear_loop ex Hplain Hce nodes
              (publish_start (start_exec (initial_context ex s) w)).1 fuel HE)
    as (ys & s' & r & Hloop & Hr); [| |lia|].
  { intros before n rest ->. rewrite Hedges. by eapply linear_successor. }
  { simpl. unfold initial_context, from_initial; simpl. rewrite Hedges.
    destruct nodes as [|n nodes]; [done|]. by rewrite (linear_start _ _ _ _ _ Hplan eq_refl HS). }
  simpl in Hr. rewrite run_context_eq, Hloop.
  destruct (linear_run ex 0 nodes s w) as [w' [st|e]], r as [[]|e'], Hr as [Hw Hr]; try done;
    simpl; rewrite Hw; [by destruct Hr as [<- <-]|by rewrite Hr].
Qed.
End theorem.

Module LinearDemo.
Definition inc : RuntimeAction unit :=
  pure_action (λ s, RMapping [("n", VInt (match dget "n" s with Some (VInt z) => z + 1 | _ => 1 end))]).
Definition plan : RuntimeGraphPlan :=
  Plan ["a"; "b"] [Edge START "a"; Edge "a" "b"; Edge "b" END] [] 5 [].
Definition actions : dict string (ActionDef unit) :=
  [("a", simple_action inc); ("b", simple_action inc)].
Definition ex : RuntimeGraphExecutor unit :=
  MkExecutor plan default_runtime [("a", inc); ("b", inc)] [] []
    (index_edges (plan_edges plan)) [].
Lemma plain_inc : plain_action inc.
Proof. intros s w w' l r H. unfold inc, pure_action in H. simplify_eq. by eexists. Qed.
End LinearDemo.

Lemma linear_graph_is_fold_witness :
  invoke_with_trace LinearDemo.ex 3 [] None () = Some ((), Ok ([("n", VInt 2)], ["a"; "b"])).
Proof.
  rewrite (linear_graph_is_fold ["a"; "b"] 5 LinearDemo.plan LinearDemo.actions [] default_runtime);
    [reflexivity|reflexivity|reflexivity| | | | |].
  - apply (bool_decide_unpack _). reflexivity.
  - apply (bool_decide_unpack _). reflexivity.
  - apply (bool_decide_unpack _). reflexivity.
  - repeat constructor; apply LinearDemo.plain_inc.
  - simpl. lia.
Defined.
