(* ===== verification/GraphResume.v ===== *)
(** * Interrupt and resume

    A run interrupted in a node and resumed with a result that is not itself an
    interrupt goes on exactly as the run of the same executor in which the
    node's action returned that result: same state, same trace, same world, same
    exceptions; only the event log differs.  Resuming with an interrupt differs:
    the run with such an action is interrupted, the resumed one goes on and does
    not follow the edges of the node.  The proof is a relational one:
    computations that agree up to events agree up to events on related
    states. *)

From S2P Require Import Prelude PyDict GraphTypes GraphState Checkpoint GraphRuntime.
From S2P Require Import GraphContext GraphStream GraphExecutor GraphRun GraphRunFacts.

(** ** Agreement up to events *)

Definition same_but_events (c1 c2 : GraphRunContext) : Prop :=
  ctx_state c1 = ctx_state c2 ∧ ctx_pending c1 = ctx_pending c2 ∧
  ctx_trace c1 = ctx_trace c2 ∧ ctx_step c1 = ctx_step c2.

Definition exec_rel {W} (s1 s2 : ExecState W) : Prop :=
  same_but_events (es_ctx s1) (es_ctx s2) ∧ es_world s1 = es_world s2.

Definition same_interrupted (i1 i2 : Interrupted) : Prop :=
  int_interrupt i1 = int_interrupt i2 ∧ int_node i1 = int_node i2 ∧
  int_step i1 = int_step i2 ∧ int_state i1 = int_state i2 ∧
  int_trace i1 = int_trace i2 ∧ int_pending i1 = int_pending i2.

Definition exn_rel (e1 e2 : Exn) : Prop :=
  e1 = e2 ∨ ∃ i1 i2, e1 = RuntimeGraphInterrupted i1 ∧ e2 = RuntimeGraphInterrupted i2 ∧
              same_interrupted i1 i2.

Definition result_rel {A B} (R : A → B → Prop) (r1 : result Exn A) (r2 : result Exn B) : Prop :=
  match r1, r2 with
  | Ok a, Ok b => R a b
  | Raise e1, Raise e2 => exn_rel e1 e2
  | _, _ => False
  end.

Definition out_rel {W A B} (R : A → B → Prop) (o1 : ExecState W * result Exn A)
    (o2 : ExecState W * result Exn B) : Prop :=
  exec_rel o1.1 o2.1 ∧ result_rel R o1.2 o2.2.

Definition m_rel {W A B} (R : A → B → Prop) (m1 : M W A) (m2 : M W B) : Prop :=
  ∀ s1 s2, exec_rel s1 s2 → out_rel R (m1 s1) (m2 s2).

Definition gen_rel {W Y Y' A B} (R : A → B → Prop) (g1 : Gen W Y A) (g2 : Gen W Y' B) : Prop :=
  ∀ s1 s2, exec_rel s1 s2 →
    match g1 s1, g2 s2 with
    | None, None => True
    | Some (_, o1), Some (_, o2) => out_rel R o1 o2
    | _, _ => False
    end.

#[export] Instance exn_rel_refl : Reflexive exn_rel.
Proof. intros e. by left. Qed.
#[export] Instance exec_rel_refl {W} : Reflexive (@exec_rel W).
Proof. by intros s. Qed.

Lemma result_rel_refl {A} (r : result Exn A) : result_rel (=) r r.
Proof. destruct r; simpl; done. Qed.

Section rel.
Context {W : Type}.

Lemma m_rel_ret {A B} (R : A → B → Prop) a b : R a b → m_rel (W:=W) R (mret a) (mret b).
Proof. by intros H s1 s2 Hs. Qed.

Lemma m_rel_bind {A B A' B'} (R : A → A' → Prop) (Q : B → B' → Prop)
    (m1 : M W A) (m2 : M W A') f1 f2 :
  m_rel R m1 m2 → (∀ a a', R a a' → m_rel Q (f1 a) (f2 a')) →
  m_rel Q (m1 ≫= f1) (m2 ≫= f2).
Proof.
  intros Hm Hf s1 s2 Hs. specialize (Hm _ _ Hs). unfold mbind, M_bind.
  destruct (m1 s1) as [s1' [a|e]], (m2 s2) as [s2' [a'|e']], Hm as [Hs' Hr]; simpl in *;
    try done. by apply Hf.
Qed.

Lemma m_rel_get : m_rel (W:=W) same_but_events get_ctx get_ctx.
Proof. by intros s1 s2 [Hc Hw]. Qed.

Lemma m_rel_lift {A B} (R : A → B → Prop) r1 r2 :
  result_rel R r1 r2 → m_rel (W:=W) R (lift_result r1) (lift_result r2).
Proof. by intros H s1 s2 Hs. Qed.

Lemma m_rel_modify f1 f2 :
  (∀ c1 c2, same_but_events c1 c2 → same_but_events (f1 c1) (f2 c2)) →
  m_rel (W:=W) (=) (modify_ctx f1) (modify_ctx f2).
Proof. intros H s1 s2 [Hc Hw]. split; [split|]; simpl; auto. Qed.

Lemma m_rel_activation {A} (f : W → activation W A) :
  m_rel (=) (run_activation f) (run_activation f).
Proof.
  intros s1 s2 [Hc Hw]. unfold run_activation. rewrite Hw.
  destruct (f (es_world s2)) as [w [l r]]. split; [done|apply result_rel_refl].
Qed.

Lemma m_rel_publish kind1 kind2 node1 node2 step1 step2 d1 d2 :
  m_rel (W:=W) (λ _ _, True) (publish kind1 node1 step1 d1) (publish kind2 node2 step2 d2).
Proof. by intros s1 s2 [Hc Hw]. Qed.

Lemma gen_rel_call {Y Y' A B} (R : A → B → Prop) m1 m2 :
  m_rel R m1 m2 → gen_rel (W:=W) (Y:=Y) (Y':=Y') R (call m1) (call m2).
Proof. intros H s1 s2 Hs. by apply H. Qed.

Lemma gen_rel_ret {Y Y' A B} (R : A → B → Prop) a b :
  R a b → gen_rel (W:=W) (Y:=Y) (Y':=Y') R (mret a) (mret b).
Proof. by intros H s1 s2 Hs. Qed.

Lemma gen_rel_yield {Y Y'} l l' :
  gen_rel (W:=W) (Y:=Y) (Y':=Y') (=) (yield_from l) (yield_from l').
Proof. by intros s1 s2 Hs. Qed.

Lemma gen_rel_bind {Y Y' A B A' B'} (R : A → A' → Prop) (Q : B → B' → Prop)
    (g1 : Gen W Y A) (g2 : Gen W Y' A') f1 f2 :
  gen_rel R g1 g2 → (∀ a a', R a a' → gen_rel Q (f1 a) (f2 a')) →
  gen_rel Q (g1 ≫= f1) (g2 ≫= f2).
Proof.
  intros Hg Hf s1 s2 Hs. specialize (Hg _ _ Hs). unfold mbind, Gen_bind.
  destruct (g1 s1) as [[ys1 [s1' [a|e]]]|], (g2 s2) as [[ys2 [s2' [a'|e']]]|];
    try done; destruct Hg as [Hs' Hr]; simpl in *; try done.
  specialize (Hf _ _ Hr _ _ Hs').
  by destruct (f1 a s1') as [[??]|], (f2 a' s2') as [[??]|].
Qed.

Lemma gen_rel_flat_map {Y1 Y2 Y1' Y2' A B} (R : A → B → Prop) (f1 : Y1 → list Y1')
    (f2 : Y2 → list Y2') g1 g2 :
  gen_rel (W:=W) R g1 g2 → gen_rel R (flat_map_gen f1 g1) (flat_map_gen f2 g2).
Proof.
  intros H s1 s2 Hs. specialize (H _ _ Hs). unfold flat_map_gen.
  by destruct (g1 s1) as [[??]|], (g2 s2) as [[??]|].
Qed.

Lemma gen_rel_while {Y Y'} n (b1 : Gen W Y unit) (b2 : Gen W Y' unit) :
  gen_rel (=) b1 b2 → gen_rel (=) (while_pending n b1) (while_pending n b2).
Proof.
  intros Hb. induction n as [|n IH]; intros s1 s2 Hs; simpl;
    pose proof Hs as [(_ & Hp & _) _]; rewrite Hp; destruct (ctx_pending (es_ctx s2)); try done.
  by eapply gen_rel_bind; [apply Hb|intros [] [] _; apply IH|].
Qed.
End rel.

Create HintDb rel.
#[export] Hint Resolve m_rel_ret m_rel_get m_rel_lift m_rel_activation m_rel_publish
  gen_rel_call gen_rel_ret gen_rel_yield result_rel_refl : rel.

(** ** The executor agrees with itself *)

Section executor.
Context {W : Type} (ex : RuntimeGraphExecutor W).

Lemma edge_targets_rel state edge :
  m_rel (=) (edge_targets ex (λ r, mret (sync_route r)) state edge)
    (edge_targets ex (λ r, mret (sync_route r)) state edge).
Proof.
  unfold edge_targets.
  eapply m_rel_bind; [auto with rel|intros router ? <-].
  eapply m_rel_bind; [auto with rel|intros returned ? <-].
  eapply m_rel_bind; [by apply (m_rel_ret (=))|intros route ? <-]. auto with rel.
Qed.

Lemma targets_of_edges_rel state edges :
  m_rel (=) (targets_of_edges ex (λ r, mret (sync_route r)) state edges)
    (targets_of_edges ex (λ r, mret (sync_route r)) state edges).
Proof.
  induction edges as [|edge edges IH]; simpl; [auto with rel|].
  eapply m_rel_bind; [apply edge_targets_rel|intros ts ? <-].
  eapply m_rel_bind; [apply IH|intros ? ? <-; auto with rel].
Qed.

Lemma next_targets_rel node state outcome :
  m_rel (=) (next_targets ex node state outcome) (next_targets ex node state outcome).
Proof.
  unfold next_targets. destruct (nar_controls_flow outcome); [auto with rel|].
  eapply m_rel_bind; [apply targets_of_edges_rel|intros ts ? <-; auto with rel].
Qed.

Lemma merge_outcome_rel outcome : m_rel (=) (merge_outcome ex outcome) (merge_outcome ex outcome).
Proof.
  unfold merge_outcome. destruct (nar_update outcome) as [|d|cls]; [auto with rel|..];
    (eapply m_rel_bind; [auto with rel|]; intros c1 c2 (Hs & _));
    (eapply m_rel_bind; [auto with rel|]; intros items ? <-);
    rewrite Hs; (eapply m_rel_bind; [auto with rel|]; intros merged ? <-);
    apply m_rel_modify; by intros ? ? (?&?&?&?).
Qed.

Lemma finish_node_rel node outcome kind1 kind2 :
  gen_rel (=) (finish_node ex node outcome kind1) (finish_node ex node outcome kind2).
Proof.
  unfold finish_node.
  eapply gen_rel_bind; [apply gen_rel_call, merge_outcome_rel|intros ? ? _].
  eapply gen_rel_bind; [apply gen_rel_call, m_rel_get|intros c1 c2 (Hs & _)]. rewrite Hs.
  eapply gen_rel_bind; [apply gen_rel_call, next_targets_rel|intros ts ? <-].
  eapply gen_rel_bind; [apply gen_rel_call, m_rel_modify|intros ? ? _].
  { intros d1 d2 (?&Hp&?&?). split_and!; simpl; [done|by rewrite Hp|done|done]. }
  eapply gen_rel_bind; [apply gen_rel_call|intros ? ? _; apply gen_rel_yield].
  unfold publish_finish. eapply m_rel_bind; [auto with rel|intros ? ? _].
  apply m_rel_publish.
Qed.

Lemma record_trace_rel trace_key c1 c2 :
  same_but_events c1 c2 → same_but_events (record_trace trace_key c1) (record_trace trace_key c2).
Proof.
  intros (Hs&?&Ht&?). destruct trace_key; simpl; [|done].
  split_and!; simpl; [by rewrite Hs, Ht|done..].
Qed.

Lemma announce_node_rel node bu trace_key :
  m_rel (=) (announce_node ex node bu trace_key) (announce_node ex node bu trace_key).
Proof.
  unfold announce_node, advance_step.
  eapply m_rel_bind; [eapply m_rel_bind; [apply m_rel_modify|intros ? ? _]|intros ? ? _].
  { intros ? ? (?&?&?&Hs). split_and!; simpl; [done..|by rewrite Hs]. }
  { eapply m_rel_bind; [apply m_rel_get|intros ? ? (_&_&_&Hs)]. rewrite Hs.
    destruct (_ <? _); [|by apply (m_rel_ret (=))]. intros s1 s2 Hs'. by split; [|left]. }
  eapply m_rel_bind; [apply m_rel_modify|intros ? ? _].
  { intros ? ? (?&?&Ht&?). split_and!; simpl; [done..|by rewrite Ht|done]. }
  eapply m_rel_bind; [apply m_rel_modify, record_trace_rel|intros ? ? _].
  eapply m_rel_bind; [apply m_rel_get|intros c1 c2 (Hs&_&_&_)].
  eapply m_rel_bind; [apply m_rel_publish|intros ? ? _]. rewrite Hs. auto with rel.
Qed.

Lemma raise_interrupted_rel {A} node interrupt :
  m_rel (=) (raise_interrupted (W:=W) (A:=A) node interrupt) (raise_interrupted node interrupt).
Proof.
  intros s1 s2 [(Hs&Hp&Ht&Hn) Hw]. split; [by split|]. right. by do 2 eexists.
Qed.

Lemma start_and_run_node_rel node bu trace_key :
  m_rel (=) (start_and_run_node ex node bu trace_key) (start_and_run_node ex node bu trace_key).
Proof.
  unfold start_and_run_node.
  eapply m_rel_bind; [apply announce_node_rel|intros st ? <-].
  eapply m_rel_bind; [auto with rel|intros action ? <-].
  eapply m_rel_bind; [auto with rel|intros ret ? <-].
  unfold check_interrupt. destruct (nar_interrupt _); [apply raise_interrupted_rel|auto with rel].
Qed.

Lemma next_node_rel : m_rel (W:=W) (=) next_node next_node.
Proof.
  unfold next_node. eapply m_rel_bind; [apply m_rel_get|intros c1 c2 (_&Hp&_)].
  rewrite Hp. destruct (ctx_pending c2) as [|[node|send] rest].
  { intros s1 s2 Hs. by split; [|left]. }
  all: eapply m_rel_bind; [apply m_rel_modify; by intros ? ? (?&?&?&?)|intros ? ? _; auto with rel].
Qed.

Lemma event_step_rel trace_key :
  gen_rel (=) (execute_next_event_step ex trace_key) (execute_next_event_step ex trace_key).
Proof.
  unfold execute_next_event_step.
  eapply gen_rel_bind; [apply gen_rel_call, next_node_rel|intros [node bu] ? <-].
  destruct (decide (node = END)); [by apply gen_rel_ret|].
  eapply gen_rel_bind; [apply gen_rel_call, start_and_run_node_rel|intros outcome ? <-].
  apply finish_node_rel.
Qed.
End executor.

(** ** Resuming *)

Section resume.
Context {W : Type} (ex : RuntimeGraphExecutor W) (trace_key : option string).

(** The same world, and the same state and trace, or the same exception. *)
Definition same_answer (o1 o2 : option (W * result Exn run_state)) : Prop :=
  match o1, o2 with
  | None, None => True
  | Some (w1, r1), Some (w2, r2) =>
      w1 = w2 ∧ result_rel (λ a b, a.1 = b.1) r1 r2
  | _, _ => False
  end.

(** The rest of a run: its loop, the final event and its answer. *)
Definition rest_of_run (fuel : nat) : Gen W unit run_state :=
  _ ← drain (Y':=unit) (while_pending fuel (execute_next_event_step ex trace_key));
  _ ← call (publish_complete trace_key);
  run_answer.

(** The rest of a run whose current node answered [outcome]. *)
Definition rest_after (fuel : nat) (node : string) (outcome : NormalizedActionResult) :
    Gen W unit run_state :=
  _ ← drain (finish_node ex node outcome "node-end"); rest_of_run fuel.

Lemma rest_of_run_eq fuel s :
  rest_of_run fuel s =
    match while_pending fuel (execute_next_event_step ex trace_key) s with
    | None => None
    | Some (_, (s', Raise e)) => Some ([], (s', Raise e))
    | Some (_, (s', Ok _)) =>
        let c := completed trace_key (es_ctx s') in
        Some ([], (MkExec c (es_world s') (es_custom s'),
                   Ok (ctx_state c, ctx_trace c, ctx_events c)))
    end.
Proof.
  unfold rest_of_run, drain, flat_map_gen, mbind, Gen_bind, call.
  destruct (while_pending _ _ s) as [[ys [s' [[]|e]]]|]; [|by rewrite bind_nil_yields|done].
  rewrite publish_complete_eq. simpl. by rewrite !app_nil_r, bind_nil_yields.
Qed.

Lemma run_context_rest fuel s : run_context ex trace_key fuel s = rest_of_run fuel (publish_start s).1.
Proof. by rewrite run_context_eq, rest_of_run_eq. Qed.

Lemma rest_of_run_rel fuel : gen_rel (λ a b, a.1 = b.1) (rest_of_run fuel) (rest_of_run fuel).
Proof.
  intros s1 s2 Hs. rewrite !rest_of_run_eq.
  pose proof (gen_rel_while fuel _ _ (event_step_rel ex trace_key) s1 s2 Hs) as H.
  destruct (while_pending fuel _ s1) as [[ys1 [s1' [u1|e1]]]|],
    (while_pending fuel _ s2) as [[ys2 [s2' [u2|e2]]]|]; try done;
    destruct H as [[Hc Hw] Hr]; simpl in Hr, Hc, Hw; try done.
  apply (record_trace_rel trace_key) in Hc. destruct Hc as (Hst & Hp & Ht & Hn).
  split; [split; [split_and!|]|]; unfold completed; simpl; try done.
  by rewrite Hst, Ht.
Qed.

Lemma run_context_rel fuel :
  gen_rel (λ a b, a.1 = b.1) (run_context (Y:=unit) ex trace_key fuel) (rest_of_run fuel).
Proof.
  intros s1 s2 [Hc Hw]. rewrite run_context_rest. apply rest_of_run_rel. by split.
Qed.

Lemma same_answer_of_rel (g1 g2 : Gen W unit run_state) s1 s2 :
  gen_rel (λ a b, a.1 = b.1) g1 g2 → exec_rel s1 s2 →
  same_answer (returned (g1 s1)) (returned (g2 s2)).
Proof.
  intros Hg Hs. specialize (Hg _ _ Hs).
  destruct (g1 s1) as [[? [??]]|], (g2 s2) as [[? [??]]|]; simpl; try done.
  by destruct Hg as [[_ ?] ?].
Qed.

Lemma returned_modify f (g : Gen W unit run_state) s :
  returned ((_ ← call (modify_ctx f); g) s) =
    returned (g (MkExec (f (es_ctx s)) (es_world s) (es_custom s))).
Proof. unfold mbind, Gen_bind, call; simpl. by destruct (g _) as [[? [??]]|]. Qed.

(** *** The run of a node *)

(** The node and the branch update of a pending item, and the context once the
    run has published its start and popped the item. *)
Definition item_node (item : PendingItem) : string :=
  match item with PNode node => node | PSend send => send_target send end.
Definition item_update (item : PendingItem) : option (dict string Value) :=
  match item with PNode _ => None | PSend send => Some (send_update send) end.

Definition popped (c : GraphRunContext) : GraphRunContext :=
  set_pending (tail (ctx_pending c)) (es_ctx (publish_start (MkExec c () [])).1).

Definition node_context (item : PendingItem) (c : GraphRunContext) : GraphRunContext :=
  announced trace_key (item_node item) (item_update item) (popped c).

(** A run from [c] that starts with [item] is within the step budget, and in
    the world [w] the action of its node answers [r] and leaves the world [w']. *)
Definition first_action_answers (c : GraphRunContext) (item : PendingItem) (w : W)
    (r : RuntimeActionResult) (w' : W) : Prop :=
  head (ctx_pending c) = Some item ∧ item_node item ≠ END ∧
  ctx_step c + 1 ≤ plan_step_limit (ex_plan ex) ∧
  ∃ action l, dget (item_node item) (ex_actions ex) = Some action ∧
    action (with_branch_update (ctx_state (node_context item c)) (item_update item)) w
      = (w', (l, Ok (Direct r))).

Definition snapshot (node : string) (i : RuntimeGraphInterrupt) (c : GraphRunContext) :
    Interrupted :=
  MkInterrupted i node (ctx_step c) (ctx_state c) (ctx_trace c) (ctx_pending c)
    (ctx_events c ++ [Event "interrupt" (Some node) (ctx_step c)
                        (interrupt_detail i (ctx_trace c))]) "" None.

Lemma record_trace_announced node bu c :
  record_trace trace_key (announced trace_key node bu c) = announced trace_key node bu c.
Proof.
  unfold announced. destruct trace_key as [k|]; [|done]. unfold set_events; simpl.
  unfold set_state; simpl. by rewrite dset_idem.
Qed.

#[local] Opaque announced.

Lemma event_step_eq s item rest :
  ctx_pending (es_ctx s) = item :: rest → item_node item ≠ END →
  execute_next_event_step ex trace_key s =
    (outcome ← call (start_and_run_node ex (item_node item) (item_update item) trace_key);
     finish_node ex (item_node item) outcome "node-end")
      (MkExec (set_pending rest (es_ctx s)) (es_world s) (es_custom s)).
Proof.
  intros Hp He.
  assert (next_node s = (MkExec (set_pending rest (es_ctx s)) (es_world s) (es_custom s),
                         Ok (item_node item, item_update item))) as Hn.
  { unfold next_node, mbind, M_bind. simpl. rewrite Hp. by destruct item. }
  unfold execute_next_event_step, mbind, Gen_bind, call. rewrite Hn.
  rewrite decide_False by done.
  destruct (start_and_run_node _ _ _ _ _) as [s1 [outcome|e]]; [|done].
  by destruct (finish_node _ _ _ _ s1) as [[? ?]|].
Qed.

Lemma rest_of_run_S fuel s item rest :
  ctx_pending (es_ctx s) = item :: rest → item_node item ≠ END →
  rest_of_run (S fuel) s =
    (outcome ← call (start_and_run_node ex (item_node item) (item_update item) trace_key);
     rest_after fuel (item_node item) outcome)
      (MkExec (set_pending rest (es_ctx s)) (es_world s) (es_custom s)).
Proof.
  intros Hp He. rewrite rest_of_run_eq. cbn [while_pending]. rewrite Hp.
  unfold mbind at 1, Gen_bind at 1. rewrite (event_step_eq _ _ _ Hp He).
  unfold rest_after, drain, flat_map_gen, mbind, Gen_bind, call.
  destruct (start_and_run_node _ _ _ _ _) as [s1 [outcome|e]]; [|done].
  destruct (finish_node _ _ _ _ s1) as [[ys [s2 [u|e]]]|]; [..|done].
  - rewrite rest_of_run_eq, bind_nil_yields.
    by destruct (while_pending _ _ s2) as [[? [? [|]]]|].
  - by rewrite bind_nil_yields.
Qed.

(** The run of the first node, up to its interrupt or to its end. *)
Lemma start_and_run_first c item w r w' custom :
  first_action_answers c item w r w' →
  ∃ s', start_and_run_node ex (item_node item) (item_update item) trace_key
          (MkExec (popped c) w custom) =
        (s', match nar_interrupt (normalize_action_result r) with
             | Some i => Raise (RuntimeGraphInterrupted
                           (snapshot (item_node item) i (node_context item c)))
             | None => Ok (normalize_action_result r)
             end) ∧
    es_world s' = w' ∧
    (nar_interrupt (normalize_action_result r) = None → es_ctx s' = node_context item c).
Proof.
  intros (Hhd & Hend & Hle & action & l & Ha & Hact). unfold start_and_run_node, mbind at 1, M_bind at 1.
  rewrite announce_node_eq. cbn [es_ctx es_world es_custom].
  rewrite (proj2 (Z.ltb_ge _ _)) by (unfold popped; simpl; lia).
  unfold find_action, lift_result, run_activation, mbind, M_bind. simpl. rewrite Ha. simpl.
  unfold node_context in Hact. rewrite Hact. simpl. unfold check_interrupt, mbind, M_bind. simpl.
  destruct (nar_interrupt _) as [i|]; by eexists.
Qed.

Lemma run_of_first_action fuel c item w r w' custom :
  first_action_answers c item w r w' →
  match nar_interrupt (normalize_action_result r) with
  | Some i =>
      returned (run_context (Y:=unit) ex trace_key (S fuel) (MkExec c w custom)) =
        Some (w', Raise (RuntimeGraphInterrupted
                    (snapshot (item_node item) i (node_context item c))))
  | None => ∃ custom',
      returned (run_context (Y:=unit) ex trace_key (S fuel) (MkExec c w custom)) =
        returned (rest_after fuel (item_node item) (normalize_action_result r)
                    (MkExec (node_context item c) w' custom'))
  end.
Proof.
  intros H. pose proof H as (Hhd & Hend & _).
  destruct (start_and_run_first _ _ _ _ _ custom H) as (s' & Hrun & Hw & Hc).
  rewrite run_context_rest.
  rewrite (rest_of_run_S _ (publish_start (MkExec c w custom)).1 item (tail (ctx_pending c))); [|by destruct c as [? [] ? ? ?]; simplify_eq/=|done].
  unfold mbind, Gen_bind, call.
  change (MkExec (set_pending _ (es_ctx _)) _ _) with (MkExec (popped c) w custom). rewrite Hrun.
  destruct (nar_interrupt _) as [i|]; [simpl; by rewrite Hw|].
  exists (es_custom s'). destruct s' as [c' w'' cu]. simpl in *. rewrite <-Hw, <-Hc by done.
  by destruct (rest_after _ _ _ _) as [[? [??]]|].
Qed.

(** *** Interrupting and resuming is transparent *)

Lemma resume_same_answer fuel item c i w r custom :
  same_answer
    (resume_interrupted ex fuel (snapshot (item_node item) i (node_context item c)) r trace_key w)
    (returned (rest_after fuel (item_node item) (normalize_action_result r)
                 (MkExec (node_context item c) w custom))).
Proof.
  unfold resume_interrupted, rest_after. rewrite returned_modify.
  apply same_answer_of_rel.
  - eapply gen_rel_bind; [apply gen_rel_flat_map, finish_node_rel|intros ? ? _].
    apply run_context_rel.
  - split; [|done]. simpl. unfold node_context.
    rewrite <-(record_trace_announced (item_node item) (item_update item) (popped c)) at 2.
    by apply record_trace_rel.
Qed.

(** Nothing looks at the interrupt of an outcome that [_finish_node] is given:
    the node ends without an update and without successors. *)
Lemma finish_interrupt node i kind (s : ExecState W) :
  ∃ event s', finish_node ex node (normalize_action_result (RInterrupt i)) kind s
                = Some ([event], (s', Ok ())) ∧ exec_rel s' s.
Proof.
  destruct s as [[st pend tr ev step] w custom]. do 2 eexists. split; [reflexivity|].
  split; [|done]. split_and!; try done. apply app_nil_r.
Qed.

Lemma rest_after_interrupt fuel node i (s : ExecState W) :
  same_answer (returned (rest_after fuel node (normalize_action_result (RInterrupt i)) s))
    (returned (rest_of_run fuel s)).
Proof.
  unfold rest_after, drain, flat_map_gen, mbind, Gen_bind.
  destruct (finish_interrupt node i "node-end" s) as (ev & s' & -> & Hs). simpl.
  pose proof (same_answer_of_rel _ _ _ _ (rest_of_run_rel fuel) Hs) as H.
  by destruct (rest_of_run fuel s') as [[? [??]]|].
Qed.

Lemma same_answer_sym o1 o2 : same_answer o1 o2 → same_answer o2 o1.
Proof.
  destruct o1 as [[w1 r1]|], o2 as [[w2 r2]|]; try done. intros [-> H]. split; [done|].
  destruct r1 as [a1|e1], r2 as [a2|e2]; simpl in *; try done.
  destruct H as [->|(i1 & i2 & -> & -> & H)]; [by left|right]. do 2 eexists.
  split_and!; [done..|]. unfold same_interrupted in *. intuition congruence.
Qed.

Lemma same_answer_trans o1 o2 o3 : same_answer o1 o2 → same_answer o2 o3 → same_answer o1 o3.
Proof.
  destruct o1 as [[w1 r1]|], o2 as [[w2 r2]|], o3 as [[w3 r3]|]; try done.
  intros [-> H1] [-> H2]. split; [done|].
  destruct r1 as [a1|e1], r2 as [a2|e2], r3 as [a3|e3]; simpl in *; try done; [congruence|].
  destruct H1 as [->|(i1 & i2 & -> & -> & H1)]; [done|].
  destruct H2 as [<-|(i3 & i4 & [= <-] & -> & H2)]; right; do 2 eexists; [by split_and!|].
  split_and!; [done..|]. unfold same_interrupted in *. intuition congruence.
Qed.

(** C4. A run whose first node interrupts stops with a snapshot of itself; and
    resuming from the snapshot with a result that is not an interrupt leaves
    the same world, state and trace, or raises the same exception, as the run
    of the same executor from the same context does in a world in which the
    action returns that result.  Resumed with an interrupt, though, the run is
    not interrupted, as the run with an action that returns it is: it goes on
    as if the node had ended without an update and without successors. *)
Theorem resume_is_transparent fuel c item w1 w2 i r w custom :
  first_action_answers c item w1 (RInterrupt i) w →
  first_action_answers c item w2 r w →
  let snap := snapshot (item_node item) i (node_context item c) in
  returned (run_context (Y:=unit) ex trace_key (S fuel) (MkExec c w1 custom)) =
    Some (w, Raise (RuntimeGraphInterrupted snap)) ∧
  (nar_interrupt (normalize_action_result r) = None →
   same_answer (resume_interrupted ex fuel snap r trace_key w)
     (returned (run_context (Y:=unit) ex trace_key (S fuel) (MkExec c w2 custom)))) ∧
  (∀ i', r = RInterrupt i' →
   returned (run_context (Y:=unit) ex trace_key (S fuel) (MkExec c w2 custom)) =
     Some (w, Raise (RuntimeGraphInterrupted
                 (snapshot (item_node item) i' (node_context item c)))) ∧
   same_answer (resume_interrupted ex fuel snap r trace_key w)
     (returned (run_context (Y:=unit) ex trace_key fuel
                  (MkExec (node_context item c) w custom)))).
Proof.
  intros H1 H2 snap. split; [exact (run_of_first_action fuel _ _ _ _ _ custom H1)|].
  pose proof (run_of_first_action fuel _ _ _ _ _ custom H2) as Hr. split.
  - intros Hi. rewrite Hi in Hr. destruct Hr as [custom' ->]. apply resume_same_answer.
  - intros i' ->. split; [done|].
    eapply same_answer_trans; [apply (resume_same_answer _ _ _ _ _ _ custom)|].
    eapply same_answer_trans; [apply rest_after_interrupt|].
    apply same_answer_sym, same_answer_of_rel; [apply run_context_rel|done].
Qed.
End resume.

#[local] Transparent announced.

(** An action that asks in the first world and has its answer in the others. *)
Module ResumeDemo.
Definition ask : RuntimeAction nat := λ _ w,
  (1%nat, ([], Ok (Direct (if (w =? 0)%nat then RInterrupt (Interrupt (VStr "ok?") true)
                       else RMapping [("ok", VBool true)])))).
Definition plan : RuntimeGraphPlan :=
  Plan ["ask"] [Edge START "ask"; Edge "ask" END] [] 3 [].
Definition ex : RuntimeGraphExecutor nat :=
  MkExecutor plan default_runtime [("ask", ask)] [] [] (index_edges (plan_edges plan)) [].
Definition c : GraphRunContext := MkContext [] [PNode "ask"] [] [] 0.
End ResumeDemo.

Lemma resume_is_transparent_witness :
  let snap := snapshot "ask" (Interrupt (VStr "ok?") true)
                (node_context None (PNode "ask") ResumeDemo.c) in
  returned (run_context (Y:=unit) ResumeDemo.ex None (S 2) (MkExec ResumeDemo.c 0%nat [])) =
    Some (1%nat, Raise (RuntimeGraphInterrupted snap)) ∧
  same_answer (resume_interrupted ResumeDemo.ex 2 snap (RMapping [("ok", VBool true)]) None 1%nat)
    (returned (run_context (Y:=unit) ResumeDemo.ex None (S 2) (MkExec ResumeDemo.c 2%nat []))).
Proof.
  assert (first_action_answers ResumeDemo.ex None ResumeDemo.c (PNode "ask") 0%nat
            (RInterrupt (Interrupt (VStr "ok?") true)) 1%nat) as H1.
  { split_and!; [reflexivity|discriminate|simpl; lia|].
    exists ResumeDemo.ask, []. split; reflexivity. }
  assert (first_action_answers ResumeDemo.ex None ResumeDemo.c (PNode "ask") 2%nat
            (RMapping [("ok", VBool true)]) 1%nat) as H2.
  { split_and!; [reflexivity|discriminate|simpl; lia|].
    exists ResumeDemo.ask, []. split; reflexivity. }
  destruct (resume_is_transparent ResumeDemo.ex None 2 ResumeDemo.c (PNode "ask") 0%nat 2%nat
    (Interrupt (VStr "ok?") true) (RMapping [("ok", VBool true)]) 1%nat [] H1 H2) as (A & B & _).
  split; [exact A|]. apply B. reflexivity.
Defined.
