(* ===== verification/GraphTheorems.v ===== *)
(** * Properties of the graph executor

    The theorems of the executor component, each applying the lemmas of
    [GraphRunFacts], [GraphAsync] and [GraphState]. *)

From S2P Require Import Prelude PyDict GraphTypes GraphState Checkpoint GraphRuntime.
From S2P Require Import GraphContext GraphStream GraphExecutor GraphAsync GraphRun GraphRunFacts.

(** ** A concrete executor for the witnesses

    [a] counts and sends a branch to [b]; [b] ends the run. *)
Module Demo.
Definition count (s : RuntimeState) : Z :=
  match dget "n" s with Some (VInt z) => z | _ => 0 end.
Definition act_a : RuntimeAction unit :=
  pure_action (λ s, RCommand (Command [("n", VInt (count s + 1))] (GotoSeq ["b"]))).
Definition act_b : RuntimeAction unit :=
  pure_action (λ s, RMapping [("n", VInt (count s * 10))]).
Definition plan : RuntimeGraphPlan :=
  Plan ["a"; "b"] [Edge START "a"; Edge "b" END] [] 5 [].
Definition actions : dict string (ActionDef unit) :=
  [("a", simple_action act_a); ("b", simple_action act_b)].
Definition ex : RuntimeGraphExecutor unit :=
  MkExecutor plan default_runtime [("a", act_a); ("b", act_b)] [] []
    (index_edges (plan_edges plan)) [].
Definition answer : run_state :=
  Eval vm_compute in
    match invoke_with_events ex 9 [] (Some "t") () with
    | Some (_, Ok r) => r
    | _ => ([], [], [])
    end.
Definition streamed_end : ExecState unit :=
  Eval vm_compute in
    match stream_events ex 9 [] None () with
    | Some (_, (st, _)) => st
    | None => MkExec (MkContext [] [] [] [] 0) () []
    end.
Definition streamed_events : list RuntimeGraphEvent :=
  Eval vm_compute in
    match stream_events ex 9 [] None () with Some (ys, _) => ys | None => [] end.
End Demo.

Section graph_theorems.
Context {W : Type}.
Implicit Types (ex : RuntimeGraphExecutor W) (s : RuntimeState) (w : W).

(** C1. Every call of [invoke_with_events] ends, whatever the plan, the actions,
    the routers and the initial state do; and when it returns, the context it
    returns is the end of a path of the abstract machine: each transition pops
    one entry of the deque, counts the step, records the node, merges the
    update and enqueues only targets the node may choose, until nothing is
    pending. *)
Theorem invoke_runs_the_machine ex s trace_key w :
  converges (λ fuel, invoke_with_events ex fuel s trace_key w)
    (λ '(_, r), ∀ state trace events, r = Ok (state, trace, events) →
       ∃ c, rtc (node_step ex trace_key) (started (initial_context ex s)) c ∧
         ctx_pending c = [] ∧ state = ctx_state (completed trace_key c) ∧
         trace = ctx_trace (completed trace_key c) ∧
         events = ctx_events (completed trace_key c)).
Proof.
  apply invoke_converges. intros n [w' r] Hrun state trace events ->.
  by eapply invoke_Ok.
Qed.

(** C29. The event log of a run that returned is determined by its trace: "start",
    then for the i-th node of the trace its "node-start" and "node-end" with
    step i, then "complete"; the trace is no longer than the step limit and
    holds only nodes that have an action. *)
Theorem event_log_of_trace ex fuel s trace_key w w' state trace events :
  invoke_with_events ex fuel s trace_key w = Some (w', Ok (state, trace, events)) →
  event_key <$> events =
    ("start", None, 0) :: node_log 1 trace ++
      [("complete", None, Z.of_nat (length trace))] ∧
  Z.of_nat (length trace) ≤ Z.max 0 (plan_step_limit (ex_plan ex)) ∧
  (∀ node, node ∈ trace → node ≠ END ∧ node ∈ dkeys (ex_actions ex)) ∧
  (∀ key, trace_key = Some key → dget key state = Some (v_str_list trace)).
Proof.
  intros H. apply invoke_Ok in H as (c & Hpath & _ & -> & -> & ->).
  destruct (path_invariant ex trace_key _ _ _ Hpath (started_invariant ex s))
    as [Hs Hb Hl Hf].
  assert (ctx_trace (completed trace_key c) = ctx_trace c) as -> by by destruct trace_key.
  split_and!.
  - unfold completed; simpl. rewrite fmap_app, Hl. simpl. by rewrite Hs.
  - lia.
  - by rewrite Forall_forall in Hf.
  - intros key ->. simpl. by rewrite dget_dset_eq.
Qed.

(** C21. The asynchronous run is the synchronous run in which every action and
    router is awaited where it is called: same world, same result or
    exception, same trace and events, for every executor; for one whose
    callables never return an awaitable the two entry points agree. *)
Theorem ainvoke_is_invoke ex fuel s trace_key w :
  ainvoke_with_events ex fuel s trace_key w =
    invoke_with_events (await_executor ex) fuel s trace_key w ∧
  (direct_executor ex →
   ainvoke_with_events ex fuel s trace_key w = invoke_with_events ex fuel s trace_key w).
Proof.
  split; [apply ainvoke_await|]. intros Hd. rewrite ainvoke_await.
  by rewrite await_executor_direct.
Qed.

(** [stream_events] yields the event log of its run without the "node-start"
    events, while [astream_events] yields the whole log. *)
Theorem stream_events_omits_node_start ex fuel s trace_key w ys st :
  (stream_events ex fuel s trace_key w = Some (ys, (st, Ok ())) →
   ys = filter (λ e, event_kind e ≠ "node-start") (ctx_events (es_ctx st))) ∧
  (astream_events ex fuel s trace_key w = Some (ys, (st, Ok ())) →
   ys = ctx_events (es_ctx st)).
Proof. split; [apply stream_events_Ok|apply astream_events_Ok]. Qed.

(** The constructor accepts exactly the plans whose edges and conditional
    edges connect declared nodes or the two endpoints, and for which every
    declared node has an action; the executor it returns indexes the edges by
    their source in the order of the plan. *)
Theorem mk_executor_accepts plan (actions : dict string (ActionDef W)) routers reducers rt ex :
  mk_executor plan actions routers reducers rt = Ok ex ↔
    Forall (valid_edge plan) (plan_edges plan) ∧
    Forall (valid_conditional_edge plan) (plan_conditional_edges plan) ∧
    Forall (λ n, n ∈ dkeys actions) (plan_nodes plan) ∧
    ex_plan ex = plan ∧ ex_runtime ex = rt ∧ ex_routers ex = routers ∧
    ex_reducers ex = reducers ∧
    ex_actions ex = (λ '(n, a), (n, bind_runtime_action a rt)) <$> actions ∧
    ex_edges ex = index_edges (plan_edges plan) ∧
    ex_conditional_edges ex = index_conditional_edges (plan_conditional_edges plan).
Proof.
  unfold mk_executor. rewrite !bind_check, validate_plan_Ok, validate_actions_Ok.
  destruct ex; simpl. split; [|naive_solver].
  intros ([? ?] & ? & ?). by simplify_eq.
Qed.
End graph_theorems.

Lemma event_log_of_trace_witness :
  let '(state, trace, events) := Demo.answer in
  invoke_with_events Demo.ex 9 [] (Some "t") () = Some ((), Ok (state, trace, events)) ∧
  event_key <$> events =
    ("start", None, 0) :: node_log 1 trace ++
      [("complete", None, Z.of_nat (length trace))] ∧
  Z.of_nat (length trace) ≤ Z.max 0 (plan_step_limit (ex_plan Demo.ex)) ∧
  (∀ node, node ∈ trace → node ≠ END ∧ node ∈ dkeys (ex_actions Demo.ex)) ∧
  (∀ key, Some "t" = Some key → dget key state = Some (v_str_list trace)).
Proof.
  split; [vm_compute; reflexivity|].
  apply (event_log_of_trace Demo.ex 9 [] (Some "t") () ()). vm_compute; reflexivity.
Defined.

Lemma ainvoke_is_invoke_witness :
  direct_executor Demo.ex ∧
  ainvoke_with_events Demo.ex 9 [] None () = invoke_with_events Demo.ex 9 [] None ().
Proof.
  assert (direct_executor Demo.ex) as Hd.
  { split; [|constructor].
    repeat constructor; intros s w w' l r H; unfold Demo.act_a, Demo.act_b, pure_action in H;
      simpl in H; simplify_eq; by eexists. }
  split; [exact Hd|]. exact (proj2 (ainvoke_is_invoke Demo.ex 9 [] None ()) Hd).
Defined.

Lemma stream_events_omits_node_start_witness :
  stream_events Demo.ex 9 [] None () = Some (Demo.streamed_events, (Demo.streamed_end, Ok ())) ∧
  Demo.streamed_events =
    filter (λ e, event_kind e ≠ "node-start") (ctx_events (es_ctx Demo.streamed_end)) ∧
  Demo.streamed_events ≠ ctx_events (es_ctx Demo.streamed_end) ∧
  astream_events Demo.ex 9 [] None () =
    Some (ctx_events (es_ctx Demo.streamed_end), (Demo.streamed_end, Ok ())).
Proof.
  split; [vm_compute; reflexivity|]. split.
  - apply (proj1 (stream_events_omits_node_start Demo.ex 9 [] None () _ _)).
    vm_compute; reflexivity.
  - split; [intros H; discriminate H|vm_compute; reflexivity].
Defined.
