(* ===== verification/Receipts.v ===== *)
(** * Runtime receipts ([receipts.py], [materialization.py])

    The line format of a receipt, its parser, the description of a plan, and
    the proof that what the describer writes the parser reads.  [sha256_hex] is
    [hashlib.sha256(...).hexdigest()], a parameter; [bytes] are byte strings in
    UTF-8, so [encode] and [decode] of text are the identity. *)

From Stdlib Require Import Ascii.
From S2P Require Import Prelude PyDict GraphTypes.

(** ** Text *)

Definition chr (n : nat) : ascii := ascii_of_nat n.

(** [splitlines] looks at the bytes of a separator: "\n", "\r\n", "\r", "\v",
    "\f", "\x1c".."\x1e", and U+0085, U+2028, U+2029 in UTF-8.  The answer is
    the length of the separator the text starts with. *)
Definition line_break (s : string) : option nat :=
  match nat_of_ascii <$> String.list_ascii_of_string s with
  | 13 :: 10 :: _ => Some 2
  | 10 :: _ | 13 :: _ | 11 :: _ | 12 :: _ | 28 :: _ | 29 :: _ | 30 :: _ => Some 1
  | 194 :: 133 :: _ => Some 2
  | 226 :: 128 :: 168 :: _ | 226 :: 128 :: 169 :: _ => Some 3
  | _ => None
  end%nat.

Fixpoint sdrop (n : nat) (s : string) : string :=
  match n, s with
  | O, _ => s
  | S n, String _ s => sdrop n s
  | S _, EmptyString => EmptyString
  end.

(** [str.splitlines()]; [skip] counts the bytes of a separator still to pass,
    [started] says that the current line holds something (a text that ends with
    a separator has no empty last line). *)
Fixpoint splitlines_aux (skip : nat) (line : string) (started : bool) (s : string) : list string :=
  match s with
  | EmptyString => if started then [line] else []
  | String c s' =>
      match skip with
      | S n => splitlines_aux n line started s'
      | O =>
          match line_break s with
          | Some (S n) => line :: splitlines_aux n "" false s'
          | _ => splitlines_aux 0 (line +:+ String c "") true s'
          end
      end
  end.
Definition splitlines (s : string) : list string := splitlines_aux 0 "" false s.

(** [line.partition("=")]. *)
Fixpoint partition_eq (s : string) : string * bool * string :=
  match s with
  | EmptyString => ("", false, "")
  | String c s =>
      if Ascii.eqb c "="%char then ("", true, s)
      else let '(k, sep, v) := partition_eq s in (String c k, sep, v)
  end.

(** ** Receipts *)

Record RuntimeReceipt : Type := Receipt {
  receipt_version : string;
  receipt_fields : dict string string
}.

Definition RECEIPT_VERSION : string := "poo-flow-receipt.v1".

Definition receipt_require (r : RuntimeReceipt) (key : string) : result Exn string :=
  of_option (ValueError ("missing runtime receipt field: " +:+ key)) (dget key (receipt_fields r)).

Definition receipt_kind (r : RuntimeReceipt) : result Exn string := receipt_require r "kind".
Definition receipt_plan_digest (r : RuntimeReceipt) : option string :=
  dget "plan-digest" (receipt_fields r).

(** The digits of [int(value, 10)]: a sign, digits, single underscores between
    digits; the text is stripped of white space first. *)
Definition is_digit (c : ascii) : bool := (48 <=? nat_of_ascii c)%nat && (nat_of_ascii c <=? 57)%nat.
Definition is_space (c : ascii) : bool :=
  let n := nat_of_ascii c in ((9 <=? n) && (n <=? 13) || (28 <=? n) && (n <=? 32))%nat.

Fixpoint lstrip (l : list ascii) : list ascii :=
  match l with
  | c :: l' => if is_space c then lstrip l' else l
  | [] => []
  end.
Definition strip (l : list ascii) : list ascii := rev (lstrip (rev (lstrip l))).

Fixpoint digits_of (acc : Z) (after_digit : bool) (l : list ascii) : option Z :=
  match l with
  | [] => if after_digit then Some acc else None
  | c :: l =>
      if is_digit c then digits_of (10 * acc + (Z.of_nat (nat_of_ascii c) - 48)) true l
      else if Ascii.eqb c "_"%char && after_digit && match l with [] => false | _ => true end
      then match l with
           | d :: _ => if is_digit d then digits_of acc false l else None
           | [] => None
           end
      else None
  end.

Definition int10 (s : string) : option Z :=
  match strip (String.list_ascii_of_string s) with
  | "-"%char :: l => Z.opp <$> digits_of 0 false l
  | "+"%char :: l => digits_of 0 false l
  | l => digits_of 0 false l
  end.

Definition receipt_integer (r : RuntimeReceipt) (key : string) : result Exn Z :=
  value ← receipt_require r key;
  of_option (ValueError ("runtime receipt field is not an integer: " +:+ key +:+ "=" +:+ value))
    (int10 value).

(** One iteration of the loop of [parse_runtime_receipt]. *)
Definition parse_field (fields : dict string string) (line : string) :
    result Exn (dict string string) :=
  let '(key, separator, value) := partition_eq line in
  if negb separator || bool_decide (key = "")
  then Raise (ValueError ("runtime receipt has invalid field line: " +:+ line))
  else Ok (dset key value fields).

Definition parse_runtime_receipt (receipt : string) : result Exn RuntimeReceipt :=
  let lines := filter (λ line, line ≠ "") (splitlines receipt) in
  match lines with
  | [] => Raise (ValueError "runtime receipt has unsupported version")
  | version :: rest =>
      if bool_decide (version = RECEIPT_VERSION)
      then fields ← foldM parse_field [] rest; Ok (Receipt version fields)
      else Raise (ValueError "runtime receipt has unsupported version")
  end.

(** ** Bindings and the description of a plan *)

Record RuntimeGraphBindings : Type := Bindings {
  node_actions : dict string string;
  state_reducers : dict string string
}.

Definition action_for (b : RuntimeGraphBindings) (node : string) : string :=
  default node (dget node (node_actions b)).

(** [_validate_graph_bindings]. *)
Definition validate_graph_bindings (plan : RuntimeGraphPlan) (b : RuntimeGraphBindings) :
    result Exn unit :=
  match py_sorted (filter (λ n, n ∉ plan_nodes plan) (dkeys (node_actions b))) with
  | [] => Ok ()
  | extra => Raise (ValueError ("node action bindings reference unknown nodes: "
                                +:+ str_join ", " extra))
  end.

(** [repr] of a string of printable characters and ASCII escapes. *)
Definition contains (c : ascii) (s : string) : bool :=
  existsb (Ascii.eqb c) (String.list_ascii_of_string s).
Definition hex_digit (n : nat) : ascii := if (n <? 10)%nat then chr (48 + n) else chr (87 + n).
Definition repr_char (quote : ascii) (c : ascii) : string :=
  let n := nat_of_ascii c in
  if Ascii.eqb c quote || Ascii.eqb c "\"%char then String "\" (String c "")
  else if (n =? 10)%nat then "\n" else if (n =? 13)%nat then "\r"
  else if (n =? 9)%nat then "\t"
  else if ((n <? 32) || (n =? 127))%nat
  then String "\" (String "x" (String (hex_digit (n / 16)) (String (hex_digit (n mod 16)) "")))
  else String c "".
Definition repr_str (s : string) : string :=
  let quote := if contains (chr 39) s && negb (contains (chr 34) s) then chr 34 else chr 39 in
  String quote
    (foldr (λ c acc, repr_char quote c +:+ acc) "" (String.list_ascii_of_string s)
     +:+ String quote "").

(** [repr] of a tuple of already represented elements. *)
Definition repr_tuple (l : list string) : string :=
  match l with
  | [x] => "(" +:+ x +:+ ",)"
  | _ => "(" +:+ str_join ", " l +:+ ")"
  end.

(** [tuple(sorted(d.items()))]: keys are distinct, so the keys decide. *)
Definition sorted_items (d : dict string string) : list (string * string) :=
  omap (λ k, (k,.) <$> dget k d) (py_sorted (dkeys d)).
Definition repr_items (l : list (string * string)) : string :=
  repr_tuple ((λ '(k, v), repr_tuple [repr_str k; repr_str v]) <$> l).

Definition canonical_text (plan : RuntimeGraphPlan) (b : RuntimeGraphBindings) : string :=
  repr_tuple
    [repr_tuple (repr_str <$> plan_nodes plan);
     repr_tuple ((λ e, repr_tuple [repr_str (edge_source e); repr_str (edge_target e)])
                   <$> plan_edges plan);
     repr_tuple ((λ e, repr_tuple [repr_str (ce_source e); repr_str (ce_router e);
                                   repr_items (sorted_items (ce_routes e))])
                   <$> plan_conditional_edges plan);
     str_of_Z (plan_step_limit plan);
     repr_items (sorted_items (node_actions b));
     repr_items (sorted_items (state_reducers b))].

Section describe.
Variable sha256_hex : string → string.

Definition plan_digest (plan : RuntimeGraphPlan) (b : RuntimeGraphBindings) : string :=
  String.substring 0 16 (sha256_hex (canonical_text plan b)).

Definition str_of_nat (n : nat) : string := str_of_Z (Z.of_nat n).

Definition describe_fields (plan : RuntimeGraphPlan) (b : RuntimeGraphBindings) :
    dict string string :=
  [("kind", "runtime-graph-domain-validation");
   ("nodes", str_of_nat (length (plan_nodes plan)));
   ("node-actions", str_of_nat (length (plan_nodes plan)));
   ("state-reducers", str_of_nat (length (state_reducers b)));
   ("edges", str_of_nat (length (plan_edges plan)));
   ("conditional-routes",
      str_of_nat (sum_list ((λ e, length (ce_routes e)) <$> plan_conditional_edges plan)));
   ("step-limit", str_of_Z (plan_step_limit plan));
   ("plan-digest", plan_digest plan b)].

Definition field_line (kv : string * string) : string := kv.1 +:+ "=" +:+ kv.2.

(** ["\n".join(lines) + "\n"]. *)
Definition newline : string := String (chr 10) "".
Definition render_lines (lines : list string) : string :=
  str_join newline lines +:+ newline.

Definition describe_runtime_graph_plan (plan : RuntimeGraphPlan) (b : RuntimeGraphBindings) :
    result Exn string :=
  _ ← validate_graph_bindings plan b;
  Ok (render_lines (RECEIPT_VERSION :: (field_line <$> describe_fields plan b))).
End describe.

Example receipt_example :
  (text ← describe_runtime_graph_plan (λ _, "0123456789abcdef01")
            (Plan ["a"] [Edge START "a"] [] 7 []) (Bindings [] []);
   r ← parse_runtime_receipt text;
   receipt_integer r "step-limit") = Ok 7.
Proof. vm_compute. reflexivity. Qed.

(** ** Reading back what was written *)

(** A text that no separator of [splitlines] can start in: ASCII bytes other
    than the separators. *)
Definition plain_char (c : ascii) : bool :=
  let n := nat_of_ascii c in
  ((n <? 128) && negb ((10 <=? n) && (n <=? 13)) && negb ((28 <=? n) && (n <=? 30)))%nat.
Definition plain_text (s : string) : bool := forallb plain_char (String.list_ascii_of_string s).

Lemma plain_char_no_break c s : plain_char c = true → line_break (String c s) = None.
Proof.
  destruct c as [[] [] [] [] [] [] [] []]; intros H; solve [reflexivity|discriminate H].
Qed.

Lemma plain_text_cons c s :
  plain_text (String c s) = true ↔ plain_char c = true ∧ plain_text s = true.
Proof. unfold plain_text. simpl. apply andb_true_iff. Qed.

Lemma plain_text_app s1 s2 :
  plain_text (s1 +:+ s2) = true ↔ plain_text s1 = true ∧ plain_text s2 = true.
Proof.
  induction s1 as [|c s1 IH]; [naive_solver|].
  rewrite sapp_cons, !plain_text_cons, IH. naive_solver.
Qed.

Lemma plain_text_substring s n m : plain_text s = true → plain_text (String.substring n m s) = true.
Proof.
  revert n m; induction s as [|c s IH]; intros n m; [by destruct n, m|].
  rewrite plain_text_cons. intros [Hc Hs].
  destruct n as [|n], m as [|m]; simpl; try (by apply IH); [done|].
  apply plain_text_cons. auto.
Qed.

Lemma splitlines_aux_plain l : ∀ line started s, plain_text l = true →
  splitlines_aux 0 line started (l +:+ s) =
    splitlines_aux 0 (line +:+ l) (started || negb (bool_decide (l = ""))) s.
Proof.
  induction l as [|c l IH]; intros line started s.
  - intros _. by rewrite sapp_nil_r, orb_false_r.
  - rewrite plain_text_cons. intros [Hc Hl]. rewrite sapp_cons. cbn [splitlines_aux].
    rewrite plain_char_no_break by done. rewrite IH by done.
    rewrite sapp_assoc, sapp_cons, sapp_nil_l. by rewrite orb_true_r.
Qed.

Lemma splitlines_line l s : plain_text l = true →
  splitlines (l +:+ newline +:+ s) = l :: splitlines s.
Proof.
  intros Hl. unfold splitlines. rewrite splitlines_aux_plain by done. reflexivity.
Qed.

Lemma render_lines_cons l l' ls :
  render_lines (l :: l' :: ls) = l +:+ newline +:+ render_lines (l' :: ls).
Proof. unfold render_lines. cbn [str_join]. by rewrite !sapp_assoc. Qed.

Lemma splitlines_render l ls :
  Forall (λ l, plain_text l = true) (l :: ls) → splitlines (render_lines (l :: ls)) = l :: ls.
Proof.
  revert l; induction ls as [|l' ls IH]; intros l [Hl Hls]%Forall_cons.
  - unfold render_lines. simpl. rewrite <-(sapp_nil_r newline).
    by rewrite splitlines_line.
  - rewrite render_lines_cons, splitlines_line by done. by rewrite IH.
Qed.

Definition good_field (kv : string * string) : Prop :=
  kv.1 ≠ "" ∧ contains "="%char kv.1 = false ∧
  plain_text kv.1 = true ∧ plain_text kv.2 = true.

Lemma partition_field k v :
  contains "="%char k = false → partition_eq (field_line (k, v)) = (k, true, v).
Proof.
  unfold contains, field_line. cbn [fst snd]. induction k as [|c k IH]; [done|].
  cbn [String.list_ascii_of_string existsb]. intros [Hc Hk]%orb_false_iff. rewrite sapp_cons. cbn [partition_eq].
  rewrite Ascii.eqb_sym, Hc. by rewrite IH.
Qed.

Lemma parse_field_line acc kv :
  good_field kv → parse_field acc (field_line kv) = Ok (dset kv.1 kv.2 acc).
Proof.
  destruct kv as [k v]. intros (Hne & Hc & _ & _). cbn [fst snd] in *.
  unfold parse_field. rewrite partition_field by done. by rewrite bool_decide_eq_false_2.
Qed.

Lemma parse_fields fields : ∀ acc,
  Forall good_field fields →
  foldM parse_field acc (field_line <$> fields) = Ok (dupdate acc fields).
Proof.
  induction fields as [|[k v] fields IH]; intros acc Hf; [done|].
  apply Forall_cons in Hf as [Hg Hf]. rewrite fmap_cons. cbn [foldM].
  rewrite parse_field_line by done. by apply IH.
Qed.

Lemma field_line_nonempty kv : field_line kv ≠ "".
Proof. destruct kv as [[|c k] v]; done. Qed.

Lemma parse_render fields :
  dict_wf fields → Forall good_field fields →
  parse_runtime_receipt (render_lines (RECEIPT_VERSION :: (field_line <$> fields))) =
    Ok (Receipt RECEIPT_VERSION fields).
Proof.
  intros Hwf Hf. unfold parse_runtime_receipt. rewrite splitlines_render.
  - rewrite filter_all.
    + rewrite bool_decide_eq_true_2 by done. rewrite parse_fields by done. simpl.
      f_equal. f_equal. by apply dict_of_id.
    + constructor; [done|]. apply Forall_fmap, Forall_true. intros kv. apply field_line_nonempty.
  - constructor; [done|]. rewrite Forall_fmap. eapply Forall_impl; [done|].
    intros [k v] (_ & _ & Hk & Hv). unfold compose, field_line; simpl in *.
    rewrite !plain_text_app. done.
Qed.

(** Decimal text is plain. *)
Lemma pretty_N_go_plain x s : plain_text s = true → plain_text (pretty_N_go x s) = true.
Proof.
  revert s; induction (N.lt_wf_0 x) as [x _ IH]; intros s Hs.
  destruct (decide (x = 0)%N) as [->|Hx]; [done|].
  rewrite pretty_N_go_step by lia. apply IH; [apply N.div_lt; lia|].
  apply plain_text_cons. split; [|done]. unfold pretty_N_char. by repeat case_match.
Qed.

Lemma str_of_Z_plain z : plain_text (str_of_Z z) = true.
Proof.
  assert (∀ n : N, plain_text (pretty n) = true) as HN.
  { intros n. unfold pretty, pretty_N. case_decide; [done|]. by apply pretty_N_go_plain. }
  unfold str_of_Z, pretty, pretty_Z. destruct z; [done|apply HN|].
  apply plain_text_app. split; [done|apply HN].
Qed.

(** The receipt of a plan reads back as the fields it was written from: its
    plan digest is the digest of the canonical text, its step limit the limit
    of the plan. *)
Theorem describe_round_trip sha256_hex plan b text :
  (∀ s, plain_text (sha256_hex s) = true) →
  describe_runtime_graph_plan sha256_hex plan b = Ok text →
  parse_runtime_receipt text = Ok (Receipt RECEIPT_VERSION (describe_fields sha256_hex plan b)) ∧
  (∀ r, parse_runtime_receipt text = Ok r →
     receipt_plan_digest r = Some (plan_digest sha256_hex plan b)).
Proof.
  intros Hsha H. apply bind_Ok in H as (u & _ & H).
  assert (text = render_lines (RECEIPT_VERSION ::
            (field_line <$> describe_fields sha256_hex plan b))) as -> by congruence.
  assert (parse_runtime_receipt (render_lines (RECEIPT_VERSION ::
            (field_line <$> describe_fields sha256_hex plan b))) =
          Ok (Receipt RECEIPT_VERSION (describe_fields sha256_hex plan b))) as ->.
  { apply parse_render; [by apply (bool_decide_unpack _)|].
    repeat constructor; try done; simpl; first [apply str_of_Z_plain|idtac].
    by apply plain_text_substring. }
  split; [done|]. by intros r [= <-].
Qed.

Lemma describe_round_trip_witness :
  let sha := λ _, "0123456789abcdef0123" in
  let plan := Plan ["a"] [Edge START "a"; Edge "a" END] [] 7 [] in
  let text := res_to_option (describe_runtime_graph_plan sha plan (Bindings [] [])) in
  parse_runtime_receipt (default "" text) =
    Ok (Receipt RECEIPT_VERSION (describe_fields sha plan (Bindings [] []))) ∧
  (∀ r, parse_runtime_receipt (default "" text) = Ok r →
     receipt_plan_digest r = Some (plan_digest sha plan (Bindings [] []))).
Proof. apply describe_round_trip; [intros s; reflexivity|vm_compute; reflexivity]. Defined.
