(* ===== verification/Text.v ===== *)
(** * Text

    Methods of [str] on UTF-8 byte strings that several modules of the source
    use, [str] and [repr] of values, and decimal text. *)

From Stdlib Require Import Ascii.
From S2P Require Import Prelude PyDict GraphTypes Receipts.

(** The length in bytes of the white space a text starts with: ASCII, U+0085,
    U+00A0, U+1680, U+2000 to U+200A, U+2028, U+2029, U+202F, U+205F, U+3000. *)
Definition white_prefix (s : string) : nat :=
  match nat_of_ascii <$> String.list_ascii_of_string s with
  | 194 :: 133 :: _ | 194 :: 160 :: _ => 2
  | 225 :: 154 :: 128 :: _ | 226 :: 129 :: 159 :: _ | 227 :: 128 :: 128 :: _ => 3
  | 226 :: 128 :: n :: _ =>
      if ((128 <=? n) && (n <=? 138) || (n =? 168) || (n =? 169) || (n =? 175))%nat then 3 else 0
  | n :: _ => if ((9 <=? n) && (n <=? 13) || (28 <=? n) && (n <=? 32))%nat then 1 else 0
  | [] => 0
  end%nat.

Fixpoint ulstrip (skip : nat) (s : string) : string :=
  match s with
  | EmptyString => ""
  | String _ s' =>
      match skip with
      | S n => ulstrip n s'
      | O => match white_prefix s with O => s | S n => ulstrip n s' end
      end
  end.
Fixpoint urstrip (s : string) : string :=
  match s with
  | EmptyString => ""
  | String c s' => if bool_decide (ulstrip 0 s = "") then "" else String c (urstrip s')
  end.
(** [str.strip()]. *)
Definition ustrip (s : string) : string := urstrip (ulstrip 0 s).

(** [str.lower()] on ASCII letters, the only ones in the words compared with. *)
Definition lower_char (c : ascii) : ascii :=
  let n := nat_of_ascii c in if ((65 <=? n) && (n <=? 90))%nat then ascii_of_nat (n + 32) else c.
Fixpoint lower (s : string) : string :=
  match s with EmptyString => "" | String c s => String (lower_char c) (lower s) end.

(** [s.split(sep)] for a separator of one character. *)
Fixpoint split_on (sep : ascii) (s : string) : list string :=
  match s with
  | EmptyString => [""]
  | String c s =>
      if Ascii.eqb c sep then "" :: split_on sep s
      else match split_on sep s with
           | part :: parts => String c part :: parts
           | [] => [String c ""]
           end
  end.

Definition starts_with_char (c : ascii) (s : string) : bool :=
  match s with String d _ => Ascii.eqb d c | EmptyString => false end.

(** [value.replace(old, new)] for an [old] of one character. *)
Fixpoint replace_char (old : ascii) (new : string) (s : string) : string :=
  match s with
  | EmptyString => ""
  | String c s => (if Ascii.eqb c old then new else String c "") +:+ replace_char old new s
  end.

Section values.
Variable repr : Value → string.

(** [str(v)] and [repr(v)]. *)
Definition py_str (v : Value) : string :=
  match v with
  | VStr s => s
  | VNone => "None"
  | VBool b => if b then "True" else "False"
  | VInt z => str_of_Z z
  | _ => repr v
  end.
Definition py_repr (v : Value) : string :=
  match v with VStr s => repr_str s | _ => py_str v end.

End values.

(** ** Decimal text *)

Lemma strip_id l : (∀ c, c ∈ l → is_space c = false) → strip l = l.
Proof.
  assert (∀ k : list ascii, (∀ c, c ∈ k → is_space c = false) → lstrip k = k) as Hs.
  { intros [|c k] H; [done|]. simpl. rewrite H; [done|by left]. }
  intros H. unfold strip. rewrite (Hs l H), (Hs (rev l)); [apply rev_involutive|].
  intros c Hc. apply H. rewrite list_elem_of_In in Hc |- *. by apply in_rev.
Qed.

Lemma elem_of_sforall P s c :
  sforall P s = true → c ∈ String.list_ascii_of_string s → P c = true.
Proof.
  unfold sforall. rewrite forallb_forall. intros H Hc. apply H. by apply list_elem_of_In.
Qed.

Lemma digits_of_go x s acc b : (0 < x)%N → ∃ d, (0 ≤ d) ∧
  digits_of acc b (String.list_ascii_of_string (pretty_N_go x s))
    = digits_of (acc * 10 ^ d + Z.of_N x) true (String.list_ascii_of_string s).
Proof.
  revert s acc b. induction (N.lt_wf_0 x) as [x _ IH]; intros s acc b Hx.
  assert (∀ acc b, digits_of acc b (String.list_ascii_of_string (String (pretty_N_char (x mod 10)) s))
            = digits_of (10 * acc + Z.of_N (x mod 10)) true (String.list_ascii_of_string s)) as Hd.
  { intros acc' b'. pose proof (N.mod_lt x 10 ltac:(lia)) as Hm.
    destruct (x mod 10)%N as [|p]; [done|].
    do 9 (try (destruct p as [p|p|]; try lia; try reflexivity)). }
  rewrite pretty_N_go_step by done. pose proof (N.div_mod x 10 ltac:(lia)) as Hdm.
  destruct (decide (x / 10 = 0)%N) as [E|E].
  - exists 1. split; [lia|]. rewrite E, pretty_N_go_0, Hd. f_equal. lia.
  - apply N.neq_0_lt_0 in E.
    destruct (IH (x / 10)%N ltac:(apply N.div_lt; lia) (String (pretty_N_char (x mod 10)) s) acc b E)
      as (d & Hd0 & ->).
    exists (d + 1). split; [lia|]. rewrite Hd, Z.pow_add_r, Z.pow_1_r by lia. f_equal. lia.
Qed.

Lemma str_of_pos_digits p : sforall is_digit (str_of_Z (Zpos p)) = true.
Proof.
  apply (str_of_Z_forall (λ c, is_digit c)); [|done].
  intros n. unfold pretty_N_char. by repeat case_match.
Qed.

Lemma digits_of_pos p :
  digits_of 0 false (String.list_ascii_of_string (str_of_Z (Zpos p))) = Some (Zpos p).
Proof. destruct (digits_of_go (Npos p) "" 0 false ltac:(lia)) as (d & _ & Hd). exact Hd. Qed.

(** A text of digits has a first one, and no white space. *)
Lemma digits_head s : s ≠ "" → sforall is_digit s = true →
  ∃ c s', s = String c s' ∧ is_digit c = true.
Proof. destruct s as [|c s]; [done|]. intros _ [Hc _]%sforall_cons. eauto. Qed.

Lemma digit_not_space c : is_digit c = true → is_space c = false.
Proof. destruct c as [[] [] [] [] [] [] [] []]; vm_compute; done. Qed.

Lemma int10_digits s : s ≠ "" → sforall is_digit s = true →
  int10 s = digits_of 0 false (String.list_ascii_of_string s).
Proof.
  intros Hne Hdig. unfold int10. rewrite strip_id.
  2:{ intros c Hc. apply digit_not_space. by eapply elem_of_sforall. }
  destruct (digits_head s Hne Hdig) as (c & s' & -> & Hc). cbn [String.list_ascii_of_string].
  revert Hc. clear. destruct c as [[] [] [] [] [] [] [] []]; intros Hc; solve [done|discriminate Hc].
Qed.

Lemma int10_minus s : sforall is_digit s = true →
  int10 (String "-" s) = Z.opp <$> digits_of 0 false (String.list_ascii_of_string s).
Proof.
  intros Hdig. unfold int10. rewrite strip_id; [done|].
  intros c Hc. cbn [String.list_ascii_of_string] in Hc. apply elem_of_cons in Hc as [->|Hc]; [done|].
  apply digit_not_space. by eapply elem_of_sforall.
Qed.

(** [int(str(z))] is [z]. *)
Lemma int10_str_of_Z z : int10 (str_of_Z z) = Some z.
Proof.
  destruct z as [|p|p]; [reflexivity| |].
  - rewrite int10_digits; [apply digits_of_pos| |apply str_of_pos_digits].
    intros E. pose proof (digits_of_pos p) as H. by rewrite E in H.
  - change (str_of_Z (Zneg p)) with (String "-" (str_of_Z (Zpos p))).
    by rewrite int10_minus, digits_of_pos by apply str_of_pos_digits.
Qed.
