(* ===== verification/Program.v ===== *)
(** * Runtime graph programs ([_program_runtime.py], [_program_resolution.py])

    A program is a plan, its bindings and registries, and a runtime.  Each call
    validates the plan, builds an executor, runs it on the caller's state with
    the plan added under a private key, and hides that key again. *)

From S2P Require Import Prelude PyDict GraphTypes GraphState Checkpoint GraphRuntime.
From S2P Require Import GraphContext GraphStream GraphExecutor GraphRun GraphRunFacts Receipts.

Definition RUNTIME_GRAPH_PLAN_STATE_KEY : string := "_poo_flow_runtime_graph_plan".

(** ** Registries *)

Record RuntimeGraphRegistries (W : Type) : Type := Registries {
  reg_actions : dict string (ActionDef W);
  reg_routers : dict string (RuntimeRouter W);
  reg_reducers : dict string RuntimeReducer
}.
Arguments Registries {W}.
Arguments reg_actions {W}.
Arguments reg_routers {W}.
Arguments reg_reducers {W}.

Section resolution.
Context {W : Type}.

(** One iteration of [resolve_actions]. *)
Definition resolve_action (b : RuntimeGraphBindings) (reg : RuntimeGraphRegistries W)
    (resolved : dict string (ActionDef W)) (node : string) :
    result Exn (dict string (ActionDef W)) :=
  let symbol := action_for b node in
  action ← of_option (RuntimeGraphError ("missing runtime action registry entry: " +:+ symbol))
             (dget symbol (reg_actions reg));
  Ok (dset node action resolved).

Definition resolve_actions (plan : RuntimeGraphPlan) (b : RuntimeGraphBindings)
    (reg : RuntimeGraphRegistries W) : result Exn (dict string (ActionDef W)) :=
  foldM (resolve_action b reg) [] (plan_nodes plan).

Definition resolve_reducer (reg : RuntimeGraphRegistries W)
    (resolved : dict string RuntimeReducer) (kv : string * string) :
    result Exn (dict string RuntimeReducer) :=
  reducer ← of_option (RuntimeGraphError ("missing runtime reducer registry entry: " +:+ kv.2))
              (dget kv.2 (reg_reducers reg));
  Ok (dset kv.1 reducer resolved).

Definition resolve_reducers (b : RuntimeGraphBindings) (reg : RuntimeGraphRegistries W) :
    result Exn (dict string RuntimeReducer) :=
  foldM (resolve_reducer reg) [] (state_reducers b).
End resolution.

(** ** Executions *)

Record RuntimeGraphExecution : Type := Execution {
  exec_state : RuntimeState;
  exec_trace : list string;
  exec_validation_receipt : string;
  exec_events : list RuntimeGraphEvent
}.

Definition exec_validation (e : RuntimeGraphExecution) : result Exn RuntimeReceipt :=
  parse_runtime_receipt (exec_validation_receipt e).

Definition exec_plan_digest (e : RuntimeGraphExecution) : result Exn (option string) :=
  receipt_plan_digest <$> exec_validation e.

(** ** The private key *)

Definition internal_state (plan : RuntimeGraphPlan) (s : RuntimeState) : RuntimeState :=
  dset RUNTIME_GRAPH_PLAN_STATE_KEY (v_plan plan) s.

Definition public_state (s : RuntimeState) : RuntimeState :=
  dpop RUNTIME_GRAPH_PLAN_STATE_KEY s.

Definition public_interrupted (receipt : string) (digest : option string) (i : Interrupted) :
    Interrupted :=
  MkInterrupted (int_interrupt i) (int_node i) (int_step i) (public_state (int_state i))
    (int_trace i) (int_pending i) (int_events i) receipt digest.

Definition execution (state : RuntimeState) (trace : list string) (receipt : string)
    (events : list RuntimeGraphEvent) : RuntimeGraphExecution :=
  Execution (public_state state) trace receipt events.

(** [dict(v)] of a value that should be a mapping. *)
Definition as_mapping (v : Value) : result Exn (dict string Value) :=
  match v with
  | VDict d => Ok d
  | _ => Raise (PyError "TypeError" "object is not a mapping")
  end.

Definition public_event (e : RuntimeGraphEvent) : result Exn RuntimeGraphEvent :=
  match dget "state" (event_detail e) with
  | None => Ok e
  | Some v =>
      state ← as_mapping v;
      Ok (Event (event_kind e) (event_node e) (event_step e)
            (dset "state" (VDict (public_state state)) (event_detail e)))
  end.

Definition public_checkpoint (c : RuntimeGraphCheckpoint) : RuntimeGraphCheckpoint :=
  cp_with_state (public_state (cp_state c)) c.

(** [_public_event] on an event object a node emitted. *)
Definition public_event_object (cls : string) (fields : list (string * Value)) : result Exn Value :=
  match dget "detail" fields with
  | Some (VDict detail) =>
      match dget "state" detail with
      | None => Ok (VObj cls fields)
      | Some v =>
          state ← as_mapping v;
          Ok (VObj cls (dset "detail" (VDict (dset "state" (VDict (public_state state)) detail))
                          fields))
      end
  | _ => Raise (PyError "TypeError" "object is not a mapping")
  end.

(** What [_public_chunk] makes of a value a node emitted, in a stream with one
    mode: a pair is taken for a pair of mode and chunk, a mapping for a state,
    an object with the attributes of a checkpoint for a checkpoint. *)
Definition public_custom (v : Value) : result Exn Value :=
  match v with
  | VTuple [mode; value] =>
      match mode with
      | VStr "values" =>
          state ← as_mapping value; Ok (VTuple [mode; VDict (public_state state)])
      | _ => Ok v
      end
  | VDict d => Ok (VDict (public_state d))
  | VObj cls fields =>
      if bool_decide (cls = "RuntimeGraphEvent") then public_event_object cls fields
      else match dget "checkpoint_id" fields, dget "state" fields with
           | Some _, Some v =>
               state ← as_mapping v;
               Ok (VObj cls (dset "state" (VDict (public_state state)) fields))
           | _, _ => Ok v
           end
  | _ => Ok v
  end.

(** [_public_chunk].  The payloads a publisher can produce decide the branch:
    a bare update is the mapping [{node: update}] with a node's name for key,
    a bare message the pair [(message, metadata)] with a message object, a bare
    task chunk a mapping with three fixed keys. *)
Definition public_chunk (c : Chunk) : result Exn Chunk :=
  match c with
  | Tagged mode p =>
      match p with
      | CValues s => Ok (Tagged mode (CValues (public_state s)))
      | CCheckpoint cp => Ok (Tagged mode (CCheckpoint (public_checkpoint cp)))
      | CEvent e => e' ← public_event e; Ok (Tagged mode (CEvent e'))
      | CCustom (VObj cls fields) =>
          if bool_decide (cls = "RuntimeGraphEvent")
          then v' ← public_event_object cls fields; Ok (Tagged mode (CCustom v'))
          else Ok c
      | _ => Ok c
      end
  | Bare p =>
      match p with
      | CValues s => Ok (Bare (CValues (public_state s)))
      | CCheckpoint cp => Ok (Bare (CCheckpoint (public_checkpoint cp)))
      | CEvent e => e' ← public_event e; Ok (Bare (CEvent e'))
      | CCustom v => v' ← public_custom v; Ok (Bare (CCustom v'))
      | _ => Ok c
      end
  end.

(** ** Programs *)

Record RuntimeGraphProgram (W : Type) : Type := Program {
  prog_plan : RuntimeGraphPlan;
  prog_bindings : RuntimeGraphBindings;
  prog_registries : RuntimeGraphRegistries W;
  prog_runtime : RuntimeGraphRuntime W
}.
Arguments Program {W}.
Arguments prog_plan {W}.
Arguments prog_bindings {W}.
Arguments prog_registries {W}.
Arguments prog_runtime {W}.

(** A checkpointer as asynchronous code sees it: its operations, and the
    asynchronous methods it may have beside them. *)
Record AsyncCheckpointer (W : Type) : Type := MkAsyncCheckpointer {
  ac_sync : Checkpointer W;
  ac_asave : option (RuntimeGraphCheckpoint → W → W * result Exn RuntimeGraphCheckpoint);
  ac_asave_interrupted :
    option (string → Interrupted → W → W * result Exn RuntimeGraphCheckpoint);
  ac_aload_interrupted : option (string → W → result Exn Interrupted);
  ac_aclear : option (string → W → W * result Exn unit);
  ac_ainspect : option (string → W → result Exn RuntimeGraphCheckpoint);
  ac_ahistory : option (string → W → result Exn (list RuntimeGraphCheckpoint));
  ac_aload_at : option (string → string → W → result Exn RuntimeGraphCheckpoint);
  ac_aupdate_state :
    option (string → dict string Value → bool → W → W * result Exn RuntimeGraphCheckpoint)
}.
Arguments MkAsyncCheckpointer {W}.
Arguments ac_sync {W}.
Arguments ac_asave {W}.
Arguments ac_asave_interrupted {W}.
Arguments ac_aload_interrupted {W}.
Arguments ac_aclear {W}.
Arguments ac_ainspect {W}.
Arguments ac_ahistory {W}.
Arguments ac_aload_at {W}.
Arguments ac_aupdate_state {W}.

(** A call: [None] when the fuel ran out, else the world and the outcome. *)
Definition Run (W A : Type) : Type := option (W * result Exn A).

Section program.
Context {W : Type} (sha256_hex : string → string).

(** [RuntimeGraphProgram.__init__] with the defaults of its arguments. *)
Definition mk_program (plan : RuntimeGraphPlan) (b : option RuntimeGraphBindings)
    (reg : option (RuntimeGraphRegistries W)) (rt : option (RuntimeGraphRuntime W)) :
    RuntimeGraphProgram W :=
  Program plan (default (Bindings [] []) b) (default (Registries [] [] []) reg)
    (default default_runtime rt).

(** [RuntimeGraphProgram.reference]. *)
Definition program_reference (plan : RuntimeGraphPlan) (b : option RuntimeGraphBindings)
    (reg : option (RuntimeGraphRegistries W)) (rt : option (RuntimeGraphRuntime W)) :
    result Exn (RuntimeGraphProgram W) :=
  match rt with
  | None => Ok (mk_program plan b reg (Some runtime_reference))
  | Some rt =>
      if bool_decide (rt_backend rt = "reference") then Ok (mk_program plan b reg (Some rt))
      else Raise (RuntimeGraphError "reference program requires a reference runtime")
  end.

Context (P : RuntimeGraphProgram W).

Definition describe : result Exn string :=
  describe_runtime_graph_plan sha256_hex (prog_plan P) (prog_bindings P).

Definition describe_receipt : result Exn RuntimeReceipt :=
  receipt ← describe; parse_runtime_receipt receipt.

Definition validated_plan : result Exn (string * option string) :=
  _ ← (if bool_decide (rt_backend (prog_runtime P) = "native")
       then _ ← require_native_context (prog_runtime P); Ok ()
       else Ok ());
  receipt ← describe;
  r ← parse_runtime_receipt receipt;
  Ok (receipt, receipt_plan_digest r).

Definition program_executor : result Exn (RuntimeGraphExecutor W) :=
  actions ← resolve_actions (prog_plan P) (prog_bindings P) (prog_registries P);
  reducers ← resolve_reducers (prog_bindings P) (prog_registries P);
  mk_executor (prog_plan P) actions (reg_routers (prog_registries P)) reducers
    (prog_runtime P).

(** [try: ... except RuntimeGraphInterrupted as exc: raise self._public_interrupted(exc)]. *)
Definition hide_exn (receipt : string) (digest : option string) (e : Exn) : Exn :=
  match e with
  | RuntimeGraphInterrupted i => RuntimeGraphInterrupted (public_interrupted receipt digest i)
  | e => e
  end.

Definition hide_run {A} (receipt : string) (digest : option string) (r : result Exn A) :
    result Exn A :=
  match r with
  | Ok a => Ok a
  | Raise e => Raise (hide_exn receipt digest e)
  end.

Definition to_execution (receipt : string) (r : run_state) : RuntimeGraphExecution :=
  let '(state, trace, events) := r in execution state trace receipt events.

Definition lift_run {A B} (w : W) (r : result Exn A) (k : A → Run W B) : Run W B :=
  match r with
  | Ok a => k a
  | Raise e => Some (w, Raise e)
  end.

Definition invoke_with_trace (fuel : nat) (s : RuntimeState) (trace_key : option string) (w : W) :
    Run W RuntimeGraphExecution :=
  lift_run w validated_plan (λ '(receipt, digest),
    match program_executor with
    | Raise e => Some (w, Raise (hide_exn receipt digest e))
    | Ok ex =>
        (λ '(w', r), (w', to_execution receipt <$> hide_run receipt digest r)) <$>
          invoke_with_events ex fuel (internal_state (prog_plan P) s) trace_key w
    end).

Definition invoke (fuel : nat) (s : RuntimeState) (w : W) : Run W RuntimeState :=
  map_returned exec_state (invoke_with_trace fuel s None w).

(** [_ainvoke_prepared]. *)
Definition ainvoke_prepared (receipt : string) (digest : option string)
    (ex : RuntimeGraphExecutor W) (fuel : nat) (s : RuntimeState) (trace_key : option string)
    (w : W) : Run W RuntimeGraphExecution :=
  (λ '(w', r), (w', to_execution receipt <$> hide_run receipt digest r)) <$>
    ainvoke_owned_with_events ex fuel (internal_state (prog_plan P) s) trace_key w.

(** [ainvoke_with_trace]: the executor is built outside the [try]. *)
Definition ainvoke_with_trace (fuel : nat) (s : RuntimeState) (trace_key : option string)
    (w : W) : Run W RuntimeGraphExecution :=
  lift_run w validated_plan (λ '(receipt, digest),
    lift_run w program_executor (λ ex, ainvoke_prepared receipt digest ex fuel s trace_key w)).

Definition ainvoke (fuel : nat) (s : RuntimeState) (w : W) : Run W RuntimeState :=
  map_returned exec_state (ainvoke_with_trace fuel s None w).

(** [resumed = RuntimeGraphInterrupted(...)] of both resume operations. *)
Definition restored (receipt : string) (digest : option string) (i : Interrupted) : Interrupted :=
  MkInterrupted (int_interrupt i) (int_node i) (int_step i)
    (internal_state (prog_plan P) (int_state i)) (int_trace i) (int_pending i) (int_events i)
    receipt digest.

Definition digest_mismatch : Exn :=
  RuntimeGraphError "runtime graph plan digest mismatch before resume".

(** [resume_interrupted]: [if interrupted.plan_digest and ... != ...]. *)
Definition resume_check (i : Interrupted) (digest : option string) : result Exn unit :=
  match int_plan_digest i with
  | Some d =>
      if bool_decide (d ≠ "") && negb (bool_decide (Some d = digest))
      then Raise digest_mismatch else Ok ()
  | None => Ok ()
  end.

(** [aresume_interrupted]: [if interrupted.plan_digest is not None and ... != ...]. *)
Definition aresume_check (i : Interrupted) (digest : option string) : result Exn unit :=
  match int_plan_digest i with
  | Some d => if bool_decide (Some d = digest) then Ok () else Raise digest_mismatch
  | None => Ok ()
  end.

Definition resume_interrupted (fuel : nat) (i : Interrupted) (r : RuntimeActionResult)
    (trace_key : option string) (w : W) : Run W RuntimeGraphExecution :=
  lift_run w validated_plan (λ '(receipt, digest),
    lift_run w (resume_check i digest) (λ _,
      lift_run w program_executor (λ ex,
        map_returned (to_execution receipt)
          (GraphExecutor.resume_interrupted ex fuel (restored receipt digest i) r trace_key w)))).

Definition aresume_interrupted (fuel : nat) (i : Interrupted)
    (r : MaybeAwaitable W RuntimeActionResult) (trace_key : option string) (w : W) :
    Run W RuntimeGraphExecution :=
  lift_run w validated_plan (λ '(receipt, digest),
    lift_run w (aresume_check i digest) (λ _,
      lift_run w program_executor (λ ex,
        map_returned (to_execution receipt)
          (GraphExecutor.aresume_interrupted ex fuel (restored receipt digest i) r trace_key w)))).

(** [stream]: chunks pass [_public_chunk] one by one; an exception it raises
    ends the stream after the chunks already delivered. *)
Fixpoint public_chunks (cs : list Chunk) : list Chunk * result Exn unit :=
  match cs with
  | [] => ([], Ok ())
  | c :: cs =>
      match public_chunk c with
      | Raise e => ([], Raise e)
      | Ok c' => let '(cs', r) := public_chunks cs in (c' :: cs', r)
      end
  end.

Definition stream (fuel : nat) (s : RuntimeState) (stream_mode : StreamMode)
    (trace_key : option string) (w : W) : option (list Chunk * result Exn unit) :=
  match validated_plan with
  | Raise e => Some ([], Raise e)
  | Ok (receipt, digest) =>
      match program_executor with
      | Raise e => Some ([], Raise e)
      | Ok ex =>
          match GraphExecutor.stream ex fuel (internal_state (prog_plan P) s) stream_mode
                  trace_key w with
          | None => None
          | Some (cs, (_, r)) =>
              match public_chunks cs with
              | (cs', Raise e) => Some (cs', Raise e)
              | (cs', Ok _) => Some (cs', hide_run receipt digest r)
              end
          end
      end
  end.

Definition astream (fuel : nat) (s : RuntimeState) (stream_mode : StreamMode)
    (trace_key : option string) (w : W) : option (list Chunk * result Exn unit) :=
  match validated_plan with
  | Raise e => Some ([], Raise e)
  | Ok (receipt, digest) =>
      match program_executor with
      | Raise e => Some ([], Raise e)
      | Ok ex =>
          match GraphExecutor.astream ex fuel (internal_state (prog_plan P) s) stream_mode
                  trace_key w with
          | None => None
          | Some (cs, (_, r)) =>
              match public_chunks cs with
              | (cs', Raise e) => Some (cs', Raise e)
              | (cs', Ok _) => Some (cs', hide_run receipt digest r)
              end
          end
      end
  end.

Definition stream_projection (fuel : nat) (s : RuntimeState) (stream_modes : option StreamMode)
    (trace_key : option string) (w : W) : option (result Exn StreamProjection) :=
  (λ '(chunks, r), r ≫= λ _, projection_from_chunks chunks)
    <$> stream fuel s (normalize_stream_modes stream_modes) trace_key w.

(** ** Threads *)

(** [_checkpoint_from_execution]. *)
Definition checkpoint_from_execution (thread_id : string) (e : RuntimeGraphExecution) :
    result Exn RuntimeGraphCheckpoint :=
  let step := match event_step <$> exec_events e with
              | [] => Z.of_nat (length (exec_trace e))
              | n :: ns => fold_left Z.max ns n
              end in
  digest ← exec_plan_digest e;
  Ok (Checkpoint "" thread_id None (default "" (last (exec_trace e))) step (exec_state e)
        (exec_trace e) [] (exec_events e) (exec_validation_receipt e) digest).

(** What the thread operations do with the outcome of a run, given the
    operations [save] and [save_interrupted] they call. *)
Definition save_outcome
    (save : RuntimeGraphCheckpoint → W → W * result Exn RuntimeGraphCheckpoint)
    (save_interrupted : string → Interrupted → W → W * result Exn RuntimeGraphCheckpoint)
    (thread_id : string)
    (o : W * result Exn RuntimeGraphExecution) : W * result Exn RuntimeGraphExecution :=
  match o with
  | (w, Ok e) =>
      match checkpoint_from_execution thread_id e with
      | Raise x => (w, Raise x)
      | Ok c => let '(w', r) := save c w in (w', r ≫= λ _, Ok e)
      end
  | (w, Raise (RuntimeGraphInterrupted i)) =>
      let '(w', r) := save_interrupted thread_id i w in
      (w', r ≫= λ _, Raise (RuntimeGraphInterrupted i))
  | (w, Raise x) => (w, Raise x)
  end.

Definition invoke_thread (C : Checkpointer W) (fuel : nat) (thread_id : string)
    (s : RuntimeState) (trace_key : option string) (w : W) : Run W RuntimeGraphExecution :=
  save_outcome (ckpt_save C) (ckpt_save_interrupted C) thread_id
    <$> invoke_with_trace fuel s trace_key w.

(** [_call_checkpoint_method]: the asynchronous method where the checkpointer
    has it, else the synchronous one in a worker thread. *)
Definition call_checkpoint_method {A} (async_method : option A) (sync_method : A) : A :=
  default sync_method async_method.

Definition ainvoke_thread (C : AsyncCheckpointer W) (fuel : nat) (thread_id : string)
    (s : RuntimeState) (trace_key : option string) (w : W) : Run W RuntimeGraphExecution :=
  save_outcome (call_checkpoint_method (ac_asave C) (ckpt_save (ac_sync C)))
    (call_checkpoint_method (ac_asave_interrupted C) (ckpt_save_interrupted (ac_sync C)))
    thread_id <$> ainvoke_with_trace fuel s trace_key w.

(** [if clear: checkpointer.clear(thread_id)] after a resume that returned. *)
Definition clear_after (clear_thread : string → W → W * result Exn unit) (thread_id : string) (clear : bool)
    (o : W * result Exn RuntimeGraphExecution) : W * result Exn RuntimeGraphExecution :=
  match o with
  | (w, Ok e) =>
      if clear then let '(w', r) := clear_thread thread_id w in (w', r ≫= λ _, Ok e)
      else (w, Ok e)
  | (w, Raise x) => (w, Raise x)
  end.

Definition resume_thread (C : Checkpointer W) (fuel : nat) (thread_id : string)
    (r : RuntimeActionResult) (trace_key : option string) (clear : bool) (w : W) :
    Run W RuntimeGraphExecution :=
  lift_run w (ckpt_load_interrupted C thread_id w) (λ i,
    clear_after (ckpt_clear C) thread_id clear <$> resume_interrupted fuel i r trace_key w).

Definition aresume_thread (C : AsyncCheckpointer W) (fuel : nat) (thread_id : string)
    (r : MaybeAwaitable W RuntimeActionResult) (trace_key : option string) (clear : bool)
    (w : W) : Run W RuntimeGraphExecution :=
  lift_run w (call_checkpoint_method (ac_aload_interrupted C)
                (ckpt_load_interrupted (ac_sync C)) thread_id w) (λ i,
    clear_after (call_checkpoint_method (ac_aclear C) (ckpt_clear (ac_sync C))) thread_id clear
      <$> aresume_interrupted fuel i r trace_key w).

Definition get_state (C : Checkpointer W) (thread_id : string) (w : W) :
    result Exn RuntimeGraphCheckpoint := ckpt_inspect C thread_id w.

Definition get_state_history (C : Checkpointer W) (thread_id : string) (w : W) :
    result Exn (list RuntimeGraphCheckpoint) := ckpt_history C thread_id w.

Definition get_state_at (C : Checkpointer W) (thread_id checkpoint_id : string) (w : W) :
    result Exn RuntimeGraphCheckpoint := ckpt_load_at C thread_id checkpoint_id w.

Definition update_state (C : Checkpointer W) (thread_id : string) (values : dict string Value)
    (replace : bool) (w : W) : W * result Exn RuntimeGraphCheckpoint :=
  ckpt_update_state C thread_id values replace w.

Definition aget_state (C : AsyncCheckpointer W) (thread_id : string) (w : W) :
    result Exn RuntimeGraphCheckpoint :=
  call_checkpoint_method (ac_ainspect C) (ckpt_inspect (ac_sync C)) thread_id w.

Definition aget_state_history (C : AsyncCheckpointer W) (thread_id : string) (w : W) :
    result Exn (list RuntimeGraphCheckpoint) :=
  call_checkpoint_method (ac_ahistory C) (ckpt_history (ac_sync C)) thread_id w.

Definition aget_state_at (C : AsyncCheckpointer W) (thread_id checkpoint_id : string) (w : W) :
    result Exn RuntimeGraphCheckpoint :=
  call_checkpoint_method (ac_aload_at C) (ckpt_load_at (ac_sync C)) thread_id checkpoint_id w.

Definition aupdate_state (C : AsyncCheckpointer W) (thread_id : string)
    (values : dict string Value) (replace : bool) (w : W) :
    W * result Exn RuntimeGraphCheckpoint :=
  call_checkpoint_method (ac_aupdate_state C) (ckpt_update_state (ac_sync C)) thread_id values
    replace w.
End program.
