(* ===== verification/Anyio.v ===== *)
(** * Ordered concurrent mapping ([_anyio_runtime.py])

    A task group maps a call over a list of inputs: either one task per input,
    or a bounded number of workers that take the next input from a shared
    iterator.  A call is a coroutine: [start v] is the call before it ran,
    [resume c w] runs it in the world [w] up to its next [await] or to its end.
    The scheduler is a list of events; a theorem about all lists is a theorem
    about all interleavings.  A task that raises ends the group: AnyIO cancels
    the other tasks and raises [group_exn e]; what cancelled tasks still do is
    not modelled. *)

From S2P Require Import Prelude PyDict GraphTypes.

Section pool.
Context {W C Inp Out : Type}.
Context (start : Inp → C) (resume : C → W → W * (C + result Exn Out)).
Context (group_exn : Exn → Exn).

(** ** The task group *)

(** [pool_next] is the position of the iterator [pending], a task is idle or
    has an index and its call in flight, [None] in [pool_results] is [_MISSING]. *)
Record Pool : Type := MkPool {
  pool_next : nat;
  pool_tasks : list (option (nat * C));
  pool_results : list (option Out);
  pool_world : W;
  pool_failure : option Exn
}.

Inductive PoolEvent : Type :=
| Take (task : nat)
| Resume (task : nat).

Definition in_flight (p : Pool) : nat := length (omap id (pool_tasks p)).

Definition pool_step (values : list Inp) (ev : PoolEvent) (p : Pool) : option Pool :=
  let '(MkPool next tasks results w failure) := p in
  match failure, ev with
  | Some _, _ => None
  | None, Take k =>
      match tasks !! k, values !! next with
      | Some None, Some v =>
          Some (MkPool (S next) (<[k := Some (next, start v)]> tasks) results w None)
      | _, _ => None
      end
  | None, Resume k =>
      match tasks !! k with
      | Some (Some (index, c)) =>
          match resume c w with
          | (w', inl c') => Some (MkPool next (<[k := Some (index, c')]> tasks) results w' None)
          | (w', inr (Ok o)) =>
              Some (MkPool next (<[k := None]> tasks) (<[index := Some o]> results) w' None)
          | (w', inr (Raise e)) => Some (MkPool next (<[k := None]> tasks) results w' (Some e))
          end
      | _ => None
      end
  end.

Fixpoint run_pool (values : list Inp) (schedule : list PoolEvent) (p : Pool) : option Pool :=
  match schedule with
  | [] => Some p
  | ev :: schedule => pool_step values ev p ≫= run_pool values schedule
  end.

(** [_capacity_limiter]; its result only decides between the two variants. *)
Definition capacity_limiter (max_concurrency : option Z) : result Exn (option Z) :=
  match max_concurrency with
  | None => Ok None
  | Some n => if n <? 1 then Raise (ValueError "max_concurrency must be positive") else Ok (Some n)
  end.

(** The tasks given to [start_soon]: one per input, or the workers. *)
Definition initial_pool (limit : option Z) (values : list Inp) (w : W) : Pool :=
  let results := replicate (length values) None in
  match limit with
  | None => MkPool (length values) (imap (λ i v, Some (i, start v)) values) results w None
  | Some n =>
      MkPool 0 (replicate (Z.to_nat (Z.min n (Z.of_nat (length values)))) None) results w None
  end.

(** [_ordered_results]. *)
Definition ordered_results (results : list (option Out)) : result Exn (list Out) :=
  of_option (PyError "RuntimeError" "ordered runtime mapping left an incomplete result")
    (mapM id results).

(** What the [async with] block and the [return] after it answer, once every
    task has ended. *)
Definition pool_outcome (values : list Inp) (p : Pool) : option (result Exn (list Out)) :=
  match pool_failure p with
  | Some e => Some (Raise (group_exn e))
  | None =>
      if bool_decide (length values ≤ pool_next p)%nat && bool_decide (in_flight p = 0%nat)
      then Some (ordered_results (pool_results p))
      else None
  end.

(** [map_ordered_async]; [None] when [schedule] is not the complete order of
    events of such a group. *)
Definition map_ordered_async (values : list Inp) (max_concurrency : option Z)
    (schedule : list PoolEvent) (w : W) : option (W * result Exn (list Out)) :=
  match capacity_limiter max_concurrency with
  | Raise e => Some (w, Raise e)
  | Ok limit =>
      p ← run_pool values schedule (initial_pool limit values w);
      r ← pool_outcome values p;
      Some (pool_world p, r)
  end.

(** ** What a call does, alone and among others *)

Definition suspends (c' c : C) : Prop := ∃ w w', resume c w = (w', inl c').

(** [c] ends with [r] in some interleaving with other tasks. *)
Definition call_ends (c : C) (r : result Exn Out) : Prop :=
  ∃ c' w w', rtc (flip suspends) c c' ∧ resume c' w = (w', inr r).

(** [c] runs from [w] to its end without another task between its steps. *)
Definition alone_step (s s' : C * W) : Prop := resume s.1 s.2 = (s'.2, inl s'.1).
Definition runs_alone (c : C) (w : W) (r : result Exn Out) (w' : W) : Prop :=
  ∃ c1 w1, rtc alone_step (c, w) (c1, w1) ∧ resume c1 w1 = (w', inr r).

(** The calls of a list of inputs, one after the other. *)
Inductive in_turn : list Inp → W → list Out → W → Prop :=
| in_turn_nil w : in_turn [] w [] w
| in_turn_snoc values w outs w1 v o w2 :
    in_turn values w outs w1 → runs_alone (start v) w1 (Ok o) w2 →
    in_turn (values ++ [v]) w (outs ++ [o]) w2.

(** ** The invariant of a group *)

Record PoolInv (values : list Inp) (p : Pool) : Prop := {
  inv_results : length (pool_results p) = length values;
  inv_task k i c : pool_tasks p !! k = Some (Some (i, c)) →
    ∃ v, values !! i = Some v ∧ rtc (flip suspends) (start v) c;
  inv_result i o : pool_results p !! i = Some (Some o) →
    ∃ v, values !! i = Some v ∧ call_ends (start v) (Ok o);
  inv_failure e : pool_failure p = Some e →
    ∃ v, v ∈ values ∧ call_ends (start v) (Raise e);
  inv_covered i : (i < pool_next p)%nat → (i < length values)%nat → pool_failure p = None →
    (∃ k c, pool_tasks p !! k = Some (Some (i, c))) ∨
    (∃ o, pool_results p !! i = Some (Some o));
  inv_workers : pool_tasks p = [] → (length values ≤ pool_next p)%nat
}.

Lemma in_flight_le p : (in_flight p ≤ length (pool_tasks p))%nat.
Proof.
  unfold in_flight. induction (pool_tasks p) as [|[t|] l IH]; csimpl; lia.
Qed.

Lemma in_flight_0 p : in_flight p = 0%nat → ∀ k t, pool_tasks p !! k ≠ Some (Some t).
Proof.
  unfold in_flight. induction (pool_tasks p) as [|[t|] l IH]; csimpl; intros H [|k] t'; naive_solver.
Qed.

Lemma in_flight_pos p : in_flight p ≠ 0%nat → ∃ k t, pool_tasks p !! k = Some (Some t).
Proof.
  unfold in_flight. induction (pool_tasks p) as [|[t|] l IH]; csimpl; intros H; [done| |].
  - by exists 0%nat, t.
  - destruct (IH H) as (k & t & Hk). by exists (S k), t.
Qed.

Lemma initial_pool_inv limit values w :
  capacity_limiter limit = Ok limit → PoolInv values (initial_pool limit values w).
Proof.
  intros Hl. destruct limit as [n|]; split; simpl; try done;
    rewrite ?length_replicate; try done.
  - intros k i c Hk. by apply lookup_replicate in Hk as [? _].
  - intros i o Hi. by apply lookup_replicate in Hi as [? _].
  - intros i Hi. lia.
  - simpl in Hl. destruct (n <? 1) eqn:E; [done|]. apply Z.ltb_ge in E.
    intros Hr. apply (f_equal length) in Hr. rewrite length_replicate in Hr. simpl in Hr. lia.
  - intros k i c Hk. rewrite list_lookup_imap in Hk.
    destruct (values !! k) as [v|] eqn:E; simplify_eq/=. by exists v.
  - intros i o Hi. by apply lookup_replicate in Hi as [? _].
  - intros i _ Hi _. left. apply lookup_lt_is_Some in Hi as [v Hv].
    exists i, (start v). by rewrite list_lookup_imap, Hv.
Qed.

Lemma rtc_suspends_snoc c c' c'' w w' :
  rtc (flip suspends) c c' → resume c' w = (w', inl c'') → rtc (flip suspends) c c''.
Proof. intros H Hr. eapply rtc_r; [done|]. by exists w, w'. Qed.

(** Which tasks are in flight after one of them changed. *)
Lemma lookup_task_insert (tasks : list (option (nat * C))) k t k' i c :
  <[k := t]> tasks !! k' = Some (Some (i, c)) →
  t = Some (i, c) ∨ tasks !! k' = Some (Some (i, c)).
Proof. intros H. apply list_lookup_insert_Some in H. naive_solver. Qed.

Lemma insert_task_nil (tasks : list (option (nat * C))) k t : <[k := t]> tasks = [] → tasks = [].
Proof. by destruct tasks, k. Qed.

Lemma pool_step_inv values ev p p' :
  PoolInv values p → pool_step values ev p = Some p' → PoolInv values p'.
Proof.
  destruct p as [next tasks results w [e|]]; [by destruct ev|].
  intros [Hres Htask Hresult _ Hcov Hwork]; simpl in *.
  destruct ev as [k|k]; simpl.
  - destruct (tasks !! k) as [[?|]|] eqn:Hk; [done| |done].
    destruct (values !! next) as [v|] eqn:Hv; [|done]. intros [= <-].
    split; simpl; [done| |done|done| |].
    + intros k' i c [[= <- <-]|Hk']%lookup_task_insert; [|by eapply Htask]. eauto using rtc_refl.
    + intros i Hi Hlen Hf. apply lookup_lt_Some in Hk as Hkl.
      destruct (decide (i = next)) as [->|Hne].
      * left. exists k, (start v). by rewrite list_lookup_insert_eq.
      * destruct (Hcov i ltac:(lia) Hlen Hf) as [(k' & c & Hk')|?]; [left|by right].
        exists k', c. rewrite list_lookup_insert_ne; [done|]. intros ->. congruence.
    + intros ->%insert_task_nil. by rewrite lookup_nil in Hk.
  - destruct (tasks !! k) as [[[i c]|]|] eqn:Hk; [|done|done].
    destruct (Htask k i c Hk) as (v & Hv & Hc).
    destruct (resume c w) as [w' [c'|[o|e]]] eqn:Hr; intros [= <-];
      apply lookup_lt_Some in Hk as Hkl; split; simpl; try done.
    + intros k' i' c0 [[= <- <-]|Hk']%lookup_task_insert; [|by eapply Htask].
      exists v. split; [done|]. by eapply rtc_suspends_snoc.
    + intros i' Hi Hlen Hf. destruct (Hcov i' Hi Hlen Hf) as [(k' & c0 & Hk')|?]; [left|by right].
      destruct (decide (k' = k)) as [->|Hne].
      * exists k, c'. rewrite list_lookup_insert_eq by done. congruence.
      * exists k', c0. by rewrite list_lookup_insert_ne.
    + by intros ?%insert_task_nil%Hwork.
    + by rewrite length_insert.
    + intros k' i' c0 [?|Hk']%lookup_task_insert; [done|by eapply Htask].
    + intros i' o' Hi'. apply list_lookup_insert_Some in Hi' as [(<-&[= <-]&_)|[_ Hi']];
        [|by apply Hresult].
      exists v. split; [done|]. by exists c, w, w'.
    + intros i' Hi Hlen Hf. destruct (decide (i' = i)) as [->|Hne].
      * right. exists o. apply list_lookup_insert_eq. by rewrite Hres.
      * destruct (Hcov i' Hi Hlen Hf) as [(k' & c0 & Hk')|[o' Ho']].
        -- left. exists k', c0. rewrite list_lookup_insert_ne; [done|]. intros ->. congruence.
        -- right. exists o'. by rewrite list_lookup_insert_ne.
    + by intros ?%insert_task_nil%Hwork.
    + intros k' i' c0 [?|Hk']%lookup_task_insert; [done|by eapply Htask].
    + intros e' [= <-]. exists v. split; [by eapply list_elem_of_lookup_2|]. by exists c, w, w'.
    + by intros ?%insert_task_nil%Hwork.
Qed.

Lemma run_pool_inv values schedule p p' :
  PoolInv values p → run_pool values schedule p = Some p' → PoolInv values p'.
Proof.
  revert p; induction schedule as [|ev schedule IH]; simpl; intros p Hp H; [by simplify_eq|].
  apply bind_Some in H as (p1 & H1 & H). eauto using pool_step_inv.
Qed.

(** ** Every group ends *)

(** A task makes progress when its call goes on or ends. *)
Definition task_lt (t' t : option (nat * C)) : Prop :=
  match t, t' with
  | Some (i, c), Some (i', c') => i' = i ∧ suspends c' c
  | Some _, None => True
  | None, _ => False
  end.

(** One entry of a list makes progress. *)
Definition one_lt {A} (R : A → A → Prop) (l' l : list A) : Prop :=
  ∃ k x y, l !! k = Some x ∧ l' = <[k := y]> l ∧ R y x.

Lemma one_lt_cons_acc {A} (R : A → A → Prop) x l :
  Acc R x → Acc (one_lt R) l → Acc (one_lt R) (x :: l).
Proof.
  intros Hx; revert l; induction Hx as [x Hx IHx]; intros l Hl.
  pose proof Hl as Hl0. induction Hl0 as [l _ IHl].
  constructor. intros l' (k & y & z & Hk & -> & HR). destruct k as [|k]; simplify_eq/=.
  - by apply IHx.
  - apply IHl; [by exists k, y, z|]. apply Hl. by exists k, y, z.
Qed.

Lemma one_lt_wf {A} (R : A → A → Prop) : well_founded R → well_founded (one_lt R).
Proof.
  intros HR l. induction l as [|x l IH]; [|by apply one_lt_cons_acc].
  constructor. by intros l' (k & x & y & Hk & _).
Qed.

Lemma task_lt_wf : well_founded suspends → well_founded task_lt.
Proof.
  intros Hwf.
  assert (Acc task_lt None) as HN by (constructor; by intros [[]|]).
  intros [[i c]|]; [|done]. induction c as [c IH] using (well_founded_ind Hwf).
  constructor. intros [[i' c']|]; [|done]. intros [-> Hc]. by apply IH.
Qed.

Definition pool_lt (values : list Inp) (p' p : Pool) : Prop :=
  ∃ ev, pool_step values ev p = Some p'.

Lemma pool_step_lt values ev p p' :
  pool_step values ev p = Some p' →
  (length values - pool_next p' < length values - pool_next p)%nat ∨
  (pool_next p' = pool_next p ∧ one_lt task_lt (pool_tasks p') (pool_tasks p)).
Proof.
  destruct p as [next tasks results w [e|]]; [by destruct ev|].
  destruct ev as [k|k]; simpl; destruct (tasks !! k) as [[[i c]|]|] eqn:Hk; try done.
  - destruct (values !! next) as [v|] eqn:Hv; [|done]. intros [= <-]; simpl. left.
    apply lookup_lt_Some in Hv. lia.
  - destruct (resume c w) as [w' [c'|[o|e]]] eqn:Hr; intros [= <-]; right; simpl;
      (split; [done|]; eexists k, _, _; split_and!; [done|done|]); simpl; [|done|done].
    split; [done|]. by exists w, w'.
Qed.

Lemma pool_lt_wf values : well_founded suspends → well_founded (pool_lt values).
Proof.
  intros Hwf. pose proof (one_lt_wf _ (task_lt_wf Hwf)) as Htasks.
  enough (∀ n ts p, (length values - pool_next p)%nat = n → pool_tasks p = ts →
            Acc (pool_lt values) p) as H by (intros p; by eapply H).
  intros n; induction n as [n IHn] using lt_wf_ind.
  intros ts; induction ts as [ts IHts] using (well_founded_ind Htasks).
  intros p Hn Hts. constructor. intros p' [ev Hstep].
  apply pool_step_lt in Hstep as [Hlt|[Heq Hlt]].
  - eapply IHn; [|done|done]. lia.
  - eapply IHts; [|by rewrite Heq|done]. by rewrite <-Hts.
Qed.

(** A group that has not ended can go on. *)
Lemma pool_progress values p :
  PoolInv values p → pool_outcome values p = None →
  ∃ ev p', pool_step values ev p = Some p'.
Proof.
  destruct p as [next tasks results w failure]. intros Hp Ho.
  unfold pool_outcome in Ho; simpl in Ho. destruct failure as [e|]; [done|].
  destruct (decide (in_flight (MkPool next tasks results w None) = 0%nat)) as [H0|Hpos].
  - rewrite (bool_decide_eq_true_2 _ H0), andb_true_r in Ho.
    destruct (bool_decide _) eqn:Hlen; [done|]. apply bool_decide_eq_false in Hlen.
    destruct tasks as [|t tasks].
    { destruct Hlen. by apply (inv_workers _ _ Hp). }
    destruct t as [t|]; [by destruct (in_flight_0 _ H0 0%nat t)|].
    destruct (lookup_lt_is_Some_2 values next) as [v Hv]; [lia|].
    exists (Take 0). simpl. rewrite Hv. by eexists.
  - destruct (in_flight_pos _ Hpos) as (k & [i c] & Hk); simpl in Hk.
    exists (Resume k). simpl. rewrite Hk.
    destruct (resume c w) as [w' [c'|[o|e]]]; by eexists.
Qed.

Lemma run_pool_app values s1 s2 p :
  run_pool values (s1 ++ s2) p = run_pool values s1 p ≫= run_pool values s2.
Proof.
  revert p; induction s1 as [|ev s1 IH]; intros p; simpl; [done|].
  destruct (pool_step values ev p); simpl; [apply IH|done].
Qed.

(** From every state of a group its calls, if they end, can be run to the end. *)
Lemma pool_completes values p :
  well_founded suspends → PoolInv values p →
  ∃ schedule p', run_pool values schedule p = Some p' ∧ pool_outcome values p' ≠ None.
Proof.
  intros Hwf. induction p as [p IH] using (well_founded_ind (pool_lt_wf values Hwf)).
  intros Hp. destruct (pool_outcome values p) as [r|] eqn:Ho.
  { exists [], p. by rewrite Ho. }
  destruct (pool_progress values p Hp Ho) as (ev & p1 & H1).
  destruct (IH p1) as (schedule & p' & Hrun & Hout);
    [by exists ev|by eapply pool_step_inv|].
  exists (ev :: schedule), p'. simpl. by rewrite H1.
Qed.

(** ** What a group answers *)

Lemma outcome_results values p outs :
  PoolInv values p → pool_outcome values p = Some (Ok outs) →
  Forall2 (λ v o, call_ends (start v) (Ok o)) values outs.
Proof.
  intros Hp Ho. unfold pool_outcome in Ho. destruct (pool_failure p) eqn:Hf; [done|].
  destruct (_ && _); [|done]. injection Ho as Ho. unfold ordered_results in Ho.
  apply of_option_Ok, mapM_Some_1 in Ho.
  apply Forall2_same_length_lookup. split.
  { rewrite <-(inv_results _ _ Hp). by eapply Forall2_length. }
  intros i v o Hv Houts.
  destruct (Forall2_lookup_r _ _ _ _ _ Ho Houts) as (x & Hx & Hid). simpl in Hid. subst x.
  destruct (inv_result _ _ Hp _ _ Hx) as (v' & ? & ?). by simplify_eq.
Qed.

(** The check of [_ordered_results] never fails. *)
Lemma outcome_failure values p e :
  PoolInv values p → pool_outcome values p = Some (Raise e) →
  ∃ v e', v ∈ values ∧ call_ends (start v) (Raise e') ∧ e = group_exn e'.
Proof.
  intros Hp Ho. unfold pool_outcome in Ho. destruct (pool_failure p) as [e'|] eqn:Hf.
  { simplify_eq. destruct (inv_failure _ _ Hp e' Hf) as (v & ? & ?). eauto. }
  destruct (bool_decide (length _ ≤ _)%nat) eqn:Hl; [|done].
  destruct (bool_decide (in_flight p = _)) eqn:H0; [|done].
  apply bool_decide_eq_true in Hl, H0. injection Ho as Ho. unfold ordered_results in Ho.
  apply of_option_Raise in Ho as [Hnone _].
  apply mapM_None_1, Exists_exists in Hnone as (x & Hin & Hx). simpl in Hx. subst x.
  apply list_elem_of_lookup in Hin as [i Hi]. apply lookup_lt_Some in Hi as Hlt.
  rewrite (inv_results _ _ Hp) in Hlt.
  destruct (inv_covered _ _ Hp i ltac:(lia) Hlt Hf) as [(k & c & Hk)|[o Ho]].
  - by apply in_flight_0 in Hk.
  - congruence.
Qed.

Lemma map_ordered_Some values max_concurrency schedule w w' r :
  map_ordered_async values max_concurrency schedule w = Some (w', r) →
  (w' = w ∧ ∃ e, capacity_limiter max_concurrency = Raise e ∧ r = Raise e) ∨
  ∃ limit p, capacity_limiter max_concurrency = Ok limit ∧
    run_pool values schedule (initial_pool limit values w) = Some p ∧
    PoolInv values p ∧ pool_outcome values p = Some r ∧ w' = pool_world p.
Proof.
  unfold map_ordered_async. destruct (capacity_limiter max_concurrency) as [limit|e] eqn:Hl.
  - intros H. right. apply bind_Some in H as (p & Hp & H).
    apply bind_Some in H as (r' & Hr & [= <- <-]). exists limit, p. split_and!; try done.
    assert (limit = max_concurrency) as ->.
    { destruct max_concurrency as [n|]; simpl in Hl; [destruct (n <? 1)|]; naive_solver. }
    eapply run_pool_inv; [|done]. by apply initial_pool_inv.
  - intros [= <- <-]. left. eauto.
Qed.

Lemma capacity_limiter_Ok m limit :
  capacity_limiter m = Ok limit → limit = m ∧ ∀ n, m = Some n → 1 ≤ n.
Proof.
  destruct m as [n|]; simpl; [|intros [= <-]; split; [done|by intros ?]].
  destruct (n <? 1) eqn:E; [done|]. intros [= <-]. apply Z.ltb_ge in E.
  split; [done|]. by intros ? [= <-].
Qed.

Lemma run_pool_tasks values schedule p p' :
  run_pool values schedule p = Some p' → length (pool_tasks p') = length (pool_tasks p).
Proof.
  revert p; induction schedule as [|ev schedule IH]; simpl; intros p H; [by simplify_eq|].
  apply bind_Some in H as (p1 & H1 & H). rewrite (IH _ H). clear -H1.
  destruct p as [next tasks results w [e|]]; [by destruct ev|].
  destruct ev as [k|k]; simpl in H1; destruct (tasks !! k) as [[[i c]|]|]; try done.
  - destruct (values !! next); [|done]. simplify_eq/=. by rewrite length_insert.
  - destruct (resume c w) as [? [?|[?|?]]]; simplify_eq/=; by rewrite length_insert.
Qed.

Lemma initial_pool_width n values w :
  1 ≤ n →
  Z.of_nat (length (pool_tasks (initial_pool (Some n) values w))) ≤ n.
Proof. intros Hn. simpl. rewrite length_replicate. lia. Qed.

(** ** One worker runs the calls in turn *)

(** The state of a group with one worker: the inputs before the current one
    were called in turn, the current call was resumed without interruption. *)
Definition SeqInv (values : list Inp) (w0 : W) (p : Pool) : Prop :=
  ∃ outs rest w1,
    pool_results p = (Some <$> outs) ++ rest ∧
    in_turn (take (length outs) values) w0 outs w1 ∧
    (length outs ≤ length values)%nat ∧
    match pool_tasks p, pool_failure p with
    | [Some (i, c)], None =>
        i = length outs ∧ pool_next p = S i ∧
        ∃ v, values !! i = Some v ∧ rtc alone_step (start v, w1) (c, pool_world p)
    | [None], None => pool_next p = length outs ∧ pool_world p = w1
    | [None], Some e =>
        ∃ v, values !! length outs = Some v ∧ runs_alone (start v) w1 (Raise e) (pool_world p)
    | _, _ => False
    end.

Lemma seq_step_inv values w0 ev p p' :
  PoolInv values p → SeqInv values w0 p → pool_step values ev p = Some p' → SeqInv values w0 p'.
Proof.
  destruct p as [next tasks results w failure]. intros Hp (outs & rest & w1 & Hres & Hturn & Hlen & Hcase).
  apply inv_results in Hp. simpl in *. destruct failure as [e|]; [by destruct ev|].
  destruct tasks as [|[[i c]|] [|]]; try done; simpl in *.
  - destruct Hcase as (-> & -> & v & Hv & Hsteps).
    destruct ev as [[|k]|[|k]]; try done; simpl.
    destruct (resume c w) as [w' [c'|[o|e]]] eqn:Hr; intros [= <-].
    + exists outs, rest, w1. simpl. split_and!; try done. exists v. split; [done|].
      eapply rtc_r; [done|]. done.
    + apply lookup_lt_Some in Hv as Hvl.
      exists (outs ++ [o]), (tail rest), w'. simpl. rewrite length_app, Nat.add_1_r. split_and!.
      * rewrite Hres in Hp. rewrite length_app, length_fmap in Hp.
        destruct rest as [|x rest]; simpl in Hp; [lia|].
        rewrite Hres, fmap_app, <-app_assoc.
        rewrite insert_app_r_alt by (by rewrite length_fmap).
        by rewrite length_fmap, Nat.sub_diag.
      * rewrite (take_S_r _ _ _ Hv). econstructor; [done|]. by exists c, w.
      * lia.
      * done.
      * done.
    + exists outs, rest, w1. simpl. split_and!; try done. exists v. split; [done|]. by exists c, w.
  - destruct Hcase as [-> ->]. destruct ev as [[|k]|[|k]]; try done; simpl.
    destruct (values !! length outs) as [v|] eqn:Hv; [|done]. intros [= <-].
    exists outs, rest, w1. simpl. split_and!; try done. exists v. split; [done|]. apply rtc_refl.
Qed.

Lemma seq_run_inv values w0 schedule p p' :
  PoolInv values p → SeqInv values w0 p → run_pool values schedule p = Some p' →
  SeqInv values w0 p'.
Proof.
  revert p; induction schedule as [|ev schedule IH]; simpl; intros p Hp Hs H; [by simplify_eq|].
  apply bind_Some in H as (p1 & H1 & H). eauto using pool_step_inv, seq_step_inv.
Qed.

Lemma initial_pool_seq values w : values ≠ [] → SeqInv values w (initial_pool (Some 1) values w).
Proof.
  intros Hne. exists [], (replicate (length values) None), w. simpl.
  replace (Z.to_nat (Z.min 1 (Z.of_nat (length values)))) with 1%nat
    by (destruct values; [done|]; simpl; lia).
  split_and!; try done; [constructor|lia].
Qed.

(** With [max_concurrency=1] the answer is that of a [for] loop. *)
Lemma map_ordered_one values schedule w w' r :
  map_ordered_async values (Some 1) schedule w = Some (w', r) →
  match r with
  | Ok outs => in_turn values w outs w'
  | Raise e => ∃ done v rest outs w1 e', values = done ++ v :: rest ∧
      in_turn done w outs w1 ∧ runs_alone (start v) w1 (Raise e') w' ∧ e = group_exn e'
  end.
Proof.
  intros H. apply map_ordered_Some in H as [(_&e&He&_)|(limit & p & Hl & Hrun & Hp & Ho & ->)];
    [done|].
  injection Hl as <-. destruct (decide (values = [])) as [->|Hne].
  { destruct schedule as [|[k|k] schedule]; [|by destruct k..].
    simpl in Hrun. injection Hrun as <-.
    unfold pool_outcome, in_flight in Ho. simpl in Ho. injection Ho as <-. constructor. }
  pose proof (seq_run_inv _ w _ _ _ (initial_pool_inv (Some 1) _ w eq_refl) (initial_pool_seq _ w Hne) Hrun)
    as (outs & rest & w1 & Hres & Hturn & Hlen & Hcase).
  pose proof (inv_results _ _ Hp) as Hpl. clear Hrun.
  destruct p as [next tasks results wp failure]; simpl in *. unfold pool_outcome in Ho. simpl in Ho.
  destruct failure as [e|].
  - injection Ho as <-. destruct tasks as [|[[]|] [|]]; try done.
    destruct Hcase as (v & Hv & Hruns).
    exists (take (length outs) values), v, (drop (S (length outs)) values), outs, w1, e.
    split_and!; try done. by rewrite take_drop_middle.
  - destruct tasks as [|[[i c]|] [|]]; try done.
    { unfold in_flight in Ho; simpl in Ho. by rewrite andb_false_r in Ho. }
    destruct Hcase as [-> ->]. destruct (bool_decide (_ ≤ _)%nat) eqn:Hn; [|done].
    apply bool_decide_eq_true in Hn. unfold in_flight in Ho; simpl in Ho. injection Ho as <-.
    assert (length outs = length values) as Heq by lia.
    rewrite Hres, length_app, length_fmap in Hpl.
    destruct rest as [|? rest]; [|simpl in Hpl; lia].
    rewrite Hres, app_nil_r. unfold ordered_results.
    assert (mapM id (Some <$> outs) = Some outs) as -> by (apply mapM_fmap_Some; done).
    by rewrite Heq, firstn_all in Hturn.
Qed.
End pool.

Arguments Pool : clear implicits.

(** ** Blocking calls

    [map_ordered_blocking] runs the same group; its calls go to threads through
    [run_blocking], and a call on a thread takes effect in one step. *)
Section blocking.
Context {W Inp Out : Type} (call : Inp → W → W * result Exn Out) (group_exn : Exn → Exn).

Definition run_blocking (v : Inp) (w : W) : W * (Inp + result Exn Out) :=
  let '(w', r) := call v w in (w', inr r).

Definition map_ordered_blocking : list Inp → option Z → list PoolEvent → W →
    option (W * result Exn (list Out)) :=
  map_ordered_async id run_blocking group_exn.

Lemma run_blocking_wf : well_founded (suspends run_blocking).
Proof.
  intros v. constructor. intros v' (w & w' & H). unfold run_blocking in H.
  by destruct (call v w).
Qed.
End blocking.

(** ** Every schedule *)

(** C27. Whatever the order of the events of a group: when it returns, the
    results are those of the calls of the inputs, in the order of the inputs;
    when it raises, the limit was not positive or some call of an input
    raised; meanwhile at most [max_concurrency] calls are in flight; and when
    no call suspends for ever, every order of events that has begun leads to
    an end. *)
Theorem map_ordered_schedules {W C Inp Out : Type} (start : Inp → C)
    (resume : C → W → W * (C + result Exn Out)) (group_exn : Exn → Exn)
    (values : list Inp) (max_concurrency : option Z) (w : W) :
  well_founded (suspends resume) →
  (∀ schedule w' r,
     map_ordered_async start resume group_exn values max_concurrency schedule w = Some (w', r) →
     match r with
     | Ok outs => Forall2 (λ v o, call_ends resume (start v) (Ok o)) values outs
     | Raise e =>
         (∃ n, max_concurrency = Some n ∧ n < 1 ∧ w' = w ∧
            e = ValueError "max_concurrency must be positive") ∨
         (∃ v e', v ∈ values ∧ call_ends resume (start v) (Raise e') ∧ e = group_exn e')
     end) ∧
  (∀ schedule p, capacity_limiter max_concurrency = Ok max_concurrency →
     run_pool start resume values schedule (initial_pool start max_concurrency values w) = Some p →
     (∀ n, max_concurrency = Some n → Z.of_nat (in_flight p) ≤ n) ∧
     ∃ more w' r, map_ordered_async start resume group_exn values max_concurrency
                    (schedule ++ more) w = Some (w', r)).
Proof.
  intros Hwf. split.
  - intros schedule w' r H.
    apply map_ordered_Some in H as [(->&e&He&->)|(limit & p & _ & _ & Hp & Ho & ->)].
    + left. destruct max_concurrency as [n|]; [|done]. simpl in He.
      destruct (n <? 1) eqn:E; [|done]. apply Z.ltb_lt in E. simplify_eq. by exists n.
    + destruct r as [outs|e]; [by eapply outcome_results|right; by eapply outcome_failure].
  - intros schedule p Hl Hrun. split.
    + intros n ->. apply capacity_limiter_Ok in Hl as [_ Hn]. specialize (Hn n eq_refl).
      pose proof (in_flight_le p) as Hle. rewrite (run_pool_tasks _ _ _ _ _ _ Hrun) in Hle.
      pose proof (initial_pool_width (Out:=Out) start n values w Hn). lia.
    + pose proof (run_pool_inv _ _ _ _ _ _ (initial_pool_inv start resume _ values w Hl) Hrun) as Hp.
      destruct (pool_completes start resume group_exn values p Hwf Hp) as (more & p' & Hmore & Ho).
      destruct (pool_outcome group_exn values p') as [r|] eqn:Hr; [|done].
      exists more, (pool_world p'), r. unfold map_ordered_async. rewrite Hl, run_pool_app, Hrun.
      simpl. rewrite Hmore. simpl. by rewrite Hr.
Qed.

(** Coroutines that suspend as often as their input says and count their steps
    in the world. *)
Definition countdown (c : nat) (w : Z) : Z * (nat + result Exn Z) :=
  match c with
  | 0%nat => (w + 1, inr (Ok w))
  | S c' => (w + 1, inl c')
  end.

Lemma countdown_wf : well_founded (suspends countdown).
Proof.
  intros c. induction c as [|c IH]; constructor; intros c' (w & w' & H); simplify_eq/=. done.
Qed.

Lemma map_ordered_schedules_witness :
  map_ordered_async id countdown id [2; 0; 1]%nat (Some 2)
    [Take 0; Take 1; Resume 1; Resume 0; Take 1; Resume 0; Resume 0; Resume 1; Resume 1] 0
    = Some (6, Ok [3; 0; 5]) ∧
  Forall2 (λ v o, call_ends countdown v (Ok o)) [2; 0; 1]%nat [3; 0; 5].
Proof.
  split; [vm_compute; reflexivity|].
  apply (proj1 (map_ordered_schedules id countdown id [2; 0; 1]%nat (Some 2) 0 countdown_wf)
           [Take 0; Take 1; Resume 1; Resume 0; Take 1; Resume 0; Resume 0; Resume 1; Resume 1] 6
           (Ok [3; 0; 5])).
  vm_compute; reflexivity.
Defined.
