(* ===== verification/Batch.v ===== *)
(** * Batches of runs ([abatch] of [_runtime_graph_executor.py] and [_program_runtime.py])

    A run as a coroutine of a task group: it gives way to other tasks after
    each node.  (An action is one step of the world: what happens at the
    [await]s inside an action is not split.)  The theorems compare a batch with
    the runs of its inputs one by one. *)

From S2P Require Import Prelude PyDict GraphTypes GraphState Checkpoint GraphRuntime GraphContext.
From S2P Require Import GraphStream GraphExecutor GraphAsync GraphRun GraphRunFacts Receipts Program.
From S2P Require Import Anyio.

(** ** Runs as coroutines *)

(** A run that was called, and one between two nodes: its context and what it
    emitted on the custom stream. *)
Inductive RunTask : Type :=
| RunCalled (s : RuntimeState)
| RunGoing (c : GraphRunContext) (custom : list Value).

Section coroutine.
Context {W Out : Type} (ex : RuntimeGraphExecutor W).
Context (finish : result Exn run_state → result Exn Out).

Definition going (s : ExecState W) : RunTask := RunGoing (es_ctx s) (es_custom s).

(** The run of [ainvoke_with_events] with [trace_key=None], node by node. *)
Definition run_resume (t : RunTask) (w : W) : W * (RunTask + result Exn Out) :=
  match t with
  | RunCalled s => (w, inl (going (publish_start (start_exec (initial_context ex s) w)).1))
  | RunGoing c custom =>
      let st := MkExec c w custom in
      match ctx_pending c with
      | [] =>
          let '(st', r) := (_ ← publish_complete None; c ← get_ctx;
                            mret (ctx_state c, ctx_trace c, ctx_events c)) st in
          (es_world st', inr (finish r))
      | _ :: _ =>
          match aexecute_next_event_step ex None st with
          | (st', Ok _) => (es_world st', inl (going st'))
          | (st', Raise e) => (es_world st', inr (finish (Raise e)))
          end
      end
  end.

(** ** Runs end *)

Definition run_measure (t : RunTask) : nat * nat :=
  match t with
  | RunCalled _ => (0, 0)%nat
  | RunGoing c _ => (Z.to_nat (plan_step_limit (ex_plan ex) - ctx_step c), length (ctx_pending c))
  end.

Lemma async_step_advances (st st' : ExecState W) :
  ctx_pending (es_ctx st) ≠ [] → aexecute_next_event_step ex None st = (st', Ok ()) →
  (ctx_step (es_ctx st') = ctx_step (es_ctx st) + 1 ∧
   ctx_step (es_ctx st') ≤ plan_step_limit (ex_plan ex)) ∨
  (ctx_step (es_ctx st') = ctx_step (es_ctx st) ∧
   (length (ctx_pending (es_ctx st')) < length (ctx_pending (es_ctx st)))%nat).
Proof.
  intros Hne H.
  pose proof (aexecute_next_event_step_await (Y:=unit) ex None st) as Hs.
  unfold call in Hs. rewrite H in Hs. symmetry in Hs.
  unfold drain, flat_map_gen in Hs.
  destruct (execute_next_event_step (await_executor ex) None st) as [[ys o]|] eqn:E; [|done].
  assert (o = (st', Ok ())) as -> by congruence.
  by apply (event_step_advances _ _ _ ys _ Hne E).
Qed.

Lemma run_suspends_wf : well_founded (suspends run_resume).
Proof.
  assert (∀ n m c custom, run_measure (RunGoing c custom) = (n, m) →
            Acc (suspends run_resume) (RunGoing c custom)) as Hgoing.
  { intros n; induction n as [n IHn] using lt_wf_ind.
    intros m; induction m as [m IHm] using lt_wf_ind. intros c custom Hm.
    constructor. intros t (w & w' & Hr). simpl in Hr.
    destruct (ctx_pending c) as [|item rest] eqn:Hp.
    { discriminate Hr. }
    destruct (aexecute_next_event_step ex None (MkExec c w custom)) as [st' [[]|e]] eqn:E; [|done].
    simplify_eq/=. apply async_step_advances in E; simpl in *; [|by rewrite Hp].
    destruct E as [[Hs Hle]|[Hs Hlt]].
    - eapply IHn; [|done]. lia.
    - eapply IHm; [|unfold going; simpl; by rewrite Hs]. lia. }
  intros [s|c custom]; [|by eapply Hgoing].
  constructor. intros t (w & w' & Hr). simplify_eq/=. by eapply Hgoing.
Qed.

(** ** A run without interruption is [ainvoke] *)

(** What [arun_context] does after it published the start. *)
Definition run_rest (n : nat) : Gen W unit run_state :=
  _ ← while_pending n (call (aexecute_next_event_step ex None));
  _ ← call (publish_complete None);
  run_answer.

Lemma arun_context_rest n st :
  arun_context ex None n st = run_rest n (publish_start st).1.
Proof.
  unfold arun_context, arun_events_context, run_rest, mbind, Gen_bind.
  unfold call at 1. destruct (publish_start st) as [st1 r] eqn:E.
  assert (∃ event, (publish_start st).2 = Ok event) as [event Hok] by by eexists.
  rewrite E in Hok; simpl in Hok. subst r.
  simpl. destruct (while_pending n _ st1) as [[ys [st2 [[]|e]]]|]; simpl; try done.
  by rewrite !app_nil_r.
Qed.

Lemma run_rest_step n st st' :
  ctx_pending (es_ctx st) ≠ [] → aexecute_next_event_step ex None st = (st', Ok ()) →
  run_rest (S n) st = run_rest n st'.
Proof.
  intros Hne H. unfold run_rest, mbind at 1 3, Gen_bind. rewrite while_pending_unfold.
  destruct (ctx_pending (es_ctx st)); [done|].
  unfold mbind, Gen_bind, call at 1. rewrite H.
  destruct (while_pending n _ st') as [[ys o]|]; done.
Qed.

Lemma run_rest_raise n st st' e :
  ctx_pending (es_ctx st) ≠ [] → aexecute_next_event_step ex None st = (st', Raise e) →
  run_rest (S n) st = Some ([], (st', Raise e)).
Proof.
  intros Hne H. unfold run_rest, mbind at 1, Gen_bind. rewrite while_pending_unfold.
  destruct (ctx_pending (es_ctx st)); [done|].
  unfold mbind, Gen_bind, call at 1. by rewrite H.
Qed.

Lemma rest_of_runs_alone c custom w r w' :
  runs_alone run_resume (RunGoing c custom) w r w' →
  ∃ n r0, returned (run_rest n (MkExec c w custom)) = Some (w', r0) ∧ r = finish r0.
Proof.
  intros (t1 & w1 & Hrtc & Hend).
  remember (RunGoing c custom, w) as start0 eqn:E0. remember (t1, w1) as end0 eqn:E1.
  revert c custom w E0; induction Hrtc as [x|x y z Hstep Hrtc IH]; intros c custom w ->.
  - simplify_eq/=. destruct (ctx_pending c) as [|item rest] eqn:Hp.
    + exists 0%nat. unfold run_rest, mbind, Gen_bind. simpl. rewrite Hp. simpl.
      injection Hend as <- <-. eauto.
    + destruct (aexecute_next_event_step ex None _) as [st' [[]|e]] eqn:E; [done|].
      injection Hend as <- <-. exists 1%nat, (Raise e).
      rewrite (run_rest_raise 0 _ st' e); [done|by simpl; rewrite Hp|done].
  - unfold alone_step in Hstep. simpl in Hstep.
    destruct (ctx_pending c) as [|item rest] eqn:Hp; [discriminate Hstep|].
    destruct (aexecute_next_event_step ex None _) as [st' [[]|e]] eqn:E; [|done].
    injection Hstep as Hw Ht. destruct y as [t w2]; simpl in *; subst t w2.
    destruct (IH E1 _ _ _ eq_refl) as (n & r0 & Hn & ->).
    exists (S n), r0. split; [|done].
    rewrite (run_rest_step n _ st'); [|by simpl; rewrite Hp|done]. by destruct st'.
Qed.

Lemma ainvoke_of_runs_alone s w r w' :
  runs_alone run_resume (RunCalled s) w r w' →
  ∃ n r0, ainvoke_with_events ex n s None w = Some (w', r0) ∧ r = finish r0.
Proof.
  intros (t1 & w1 & Hrtc & Hend). apply rtc_inv in Hrtc as [Heq|([t2 w2] & Hstep & Hrtc)].
  { by simplify_eq. }
  unfold alone_step in Hstep; simpl in Hstep. simplify_eq.
  destruct (rest_of_runs_alone _ _ _ r w' (ex_intro _ _ (ex_intro _ _ (conj Hrtc Hend))))
    as (n & r0 & Hn & ->).
  exists n, r0. split; [|done]. unfold ainvoke_with_events. by rewrite arun_context_rest.
Qed.
End coroutine.

(** ** Batches of an executor *)

Section executor_batch.
Context {W : Type} (ex : RuntimeGraphExecutor W) (group_exn : Exn → Exn).

(** [return (await self.ainvoke_with_trace(initial_state))[0]]. *)
Definition answer_state (r : result Exn run_state) : result Exn RuntimeState :=
  fst <$> (fst <$> r).

(** [RuntimeGraphExecutor.abatch]. *)
Definition executor_abatch : list RuntimeState → option Z → list PoolEvent → W →
    option (W * result Exn (list RuntimeState)) :=
  map_ordered_async RunCalled (run_resume ex answer_state) group_exn.

(** [for s in inputs: outputs.append(await self.ainvoke(s))]; what the body
    raises is wrapped as the group would. *)
Fixpoint ainvoke_each (fuel : nat) (inputs : list RuntimeState) (w : W) :
    option (W * result Exn (list RuntimeState)) :=
  match inputs with
  | [] => Some (w, Ok [])
  | s :: inputs =>
      match GraphExecutor.ainvoke ex fuel s w with
      | None => None
      | Some (w', Raise e) => Some (w', Raise (group_exn e))
      | Some (w', Ok o) => map_returned (cons o) (ainvoke_each fuel inputs w')
      end
  end.

Lemma ainvoke_eq n s w :
  GraphExecutor.ainvoke ex n s w =
    (λ '(w', r), (w', answer_state r)) <$> ainvoke_with_events ex n s None w.
Proof.
  unfold GraphExecutor.ainvoke, GraphExecutor.ainvoke_with_trace.
  by destruct (ainvoke_with_events ex n s None w) as [[w' [r|e]]|].
Qed.

Lemma ainvoke_with_events_monotone trace_key s w :
  fuel_monotone (λ n, ainvoke_with_events ex n s trace_key w).
Proof.
  intros n m r Hle. rewrite !ainvoke_await. by apply invoke_with_events_monotone.
Qed.

Lemma ainvoke_monotone s w : fuel_monotone (λ n, GraphExecutor.ainvoke ex n s w).
Proof.
  intros n m r Hle. rewrite !ainvoke_eq.
  destruct (ainvoke_with_events ex n s None w) as [o|] eqn:E; [|done].
  by rewrite (ainvoke_with_events_monotone _ _ _ _ _ _ Hle E).
Qed.

Lemma ainvoke_each_app n inputs s w :
  ainvoke_each n (inputs ++ [s]) w =
    match ainvoke_each n inputs w with
    | Some (w', Ok outs) => map_returned (λ o, outs ++ [o])
        (match GraphExecutor.ainvoke ex n s w' with
         | Some (w2, Raise e) => Some (w2, Raise (group_exn e))
         | o => o
         end)
    | r => r
    end.
Proof.
  revert w; induction inputs as [|s' inputs IH]; intros w; simpl.
  - by destruct (GraphExecutor.ainvoke ex n s w) as [[w' [o|e]]|].
  - destruct (GraphExecutor.ainvoke ex n s' w) as [[w' [o|e]]|]; [|done|done].
    rewrite IH. destruct (ainvoke_each n inputs w') as [[w2 [outs|e]]|]; simpl; [|done|done].
    destruct (GraphExecutor.ainvoke ex n s w2) as [[w3 [o'|e]]|]; done.
Qed.

Lemma ainvoke_each_monotone inputs w : fuel_monotone (λ n, ainvoke_each n inputs w).
Proof.
  intros n m r Hle; revert w r; induction inputs as [|s inputs IH]; intros w r; simpl; [done|].
  destruct (GraphExecutor.ainvoke ex n s w) as [[w' [o|e]]|] eqn:E; [| |done];
    rewrite (ainvoke_monotone _ _ _ _ _ Hle E); [|done].
  destruct (ainvoke_each n inputs w') as [o'|] eqn:E'; [|done]. by rewrite (IH _ _ E').
Qed.

Lemma ainvoke_of_alone s w r w' :
  runs_alone (run_resume ex answer_state) (RunCalled s) w r w' →
  ∃ n, GraphExecutor.ainvoke ex n s w = Some (w', r).
Proof.
  intros (n & r0 & Hn & ->)%ainvoke_of_runs_alone. exists n. by rewrite ainvoke_eq, Hn.
Qed.

Lemma in_turn_each inputs w outs w' :
  in_turn RunCalled (run_resume ex answer_state) inputs w outs w' →
  ∃ n, ainvoke_each n inputs w = Some (w', Ok outs).
Proof.
  induction 1 as [w|inputs w outs w1 s o w2 Hturn [n IH] Hs]; [by exists 0%nat|].
  apply ainvoke_of_alone in Hs as [m Hm]. exists (n `max` m)%nat.
  rewrite ainvoke_each_app, (ainvoke_each_monotone _ _ n (n `max` m)%nat _ ltac:(lia) IH).
  by rewrite (ainvoke_monotone _ _ m (n `max` m)%nat _ ltac:(lia) Hm).
Qed.

Lemma ainvoke_each_stop n done s rest w outs w1 e w2 :
  ainvoke_each n done w = Some (w1, Ok outs) → GraphExecutor.ainvoke ex n s w1 = Some (w2, Raise e) →
  ainvoke_each n (done ++ s :: rest) w = Some (w2, Raise (group_exn e)).
Proof.
  revert w outs; induction done as [|s' done' IH]; intros w outs; simpl.
  - intros [= <- <-] ->. done.
  - destruct (GraphExecutor.ainvoke ex n s' w) as [[w' [o|e']]|]; [|by intros..].
    intros H Hs. destruct (ainvoke_each n done' w') as [[w3 [outs'|e']]|] eqn:E; simplify_eq/=.
    by rewrite (IH _ _ E Hs).
Qed.
End executor_batch.

(** A batch of one run at a time is a [for] loop over [ainvoke]: the same
    results, the same world, the same exception, whatever the order of the
    events. *)
Theorem abatch_in_turn {W} (ex : RuntimeGraphExecutor W) (group_exn : Exn → Exn)
    (inputs : list RuntimeState) (schedule : list PoolEvent) (w w' : W)
    (r : result Exn (list RuntimeState)) :
  executor_abatch ex group_exn inputs (Some 1) schedule w = Some (w', r) →
  converges (λ n, ainvoke_each ex group_exn n inputs w) (λ o, o = (w', r)).
Proof.
  intros H. apply map_ordered_one in H.
  assert (∃ n, ainvoke_each ex group_exn n inputs w = Some (w', r)) as [n Hn].
  { destruct r as [outs|e]; [by apply in_turn_each|].
    destruct H as (before & s & rest & outs & w1 & e' & -> & Hturn & Hs & ->).
    apply (in_turn_each ex group_exn) in Hturn as [n Hn]. apply ainvoke_of_alone in Hs as [m Hm].
    exists (n `max` m)%nat. eapply ainvoke_each_stop.
    - by apply (ainvoke_each_monotone _ _ _ _ n); [lia|].
    - by apply (ainvoke_monotone _ _ _ m); [lia|]. }
  eapply converges_intro; [apply ainvoke_each_monotone|done|done].
Qed.

(** ** Batches of a program *)

Section program_batch.
Context {W : Type} (sha256_hex : string → string) (P : RuntimeGraphProgram W).
Context (group_exn : Exn → Exn).

(** [invoke_prepared]: [_ainvoke_prepared] of one input, then its state. *)
Definition prepared_answer (receipt : string) (digest : option string)
    (r : result Exn run_state) : result Exn RuntimeState :=
  exec_state <$> (to_execution receipt <$> hide_run receipt digest r).

(** [RuntimeGraphProgram.abatch]: without inputs nothing is validated, and the
    call is never made ([run_never]). *)
Definition run_never (s : RuntimeState) (w : W) :
    W * (RuntimeState + result Exn RuntimeState) := (w, inl s).

Definition program_abatch (values : list RuntimeState) (max_concurrency : option Z)
    (schedule : list PoolEvent) (w : W) : option (W * result Exn (list RuntimeState)) :=
  match values with
  | [] => map_ordered_async id run_never group_exn values max_concurrency schedule w
  | _ :: _ =>
      lift_run w (validated_plan sha256_hex P) (λ '(receipt, digest),
        lift_run w (program_executor P) (λ ex,
          map_ordered_async (λ s, RunCalled (internal_state (prog_plan P) s))
            (run_resume ex (prepared_answer receipt digest)) group_exn values
            max_concurrency schedule w))
  end.

Lemma program_ainvoke_eq receipt digest ex n s w :
  validated_plan sha256_hex P = Ok (receipt, digest) → program_executor P = Ok ex →
  ainvoke sha256_hex P n s w =
    (λ '(w', r), (w', prepared_answer receipt digest r))
      <$> ainvoke_with_events ex n (internal_state (prog_plan P) s) None w.
Proof.
  intros Hv He. unfold ainvoke, ainvoke_with_trace. rewrite Hv. simpl. rewrite He. simpl.
  unfold ainvoke_prepared, ainvoke_owned_with_events, ainvoke_with_events, from_owned.
  change (MkContext _ _ [] [] 0) with (initial_context ex (internal_state (prog_plan P) s)).
  by destruct (returned _) as [[w' [r|e]]|].
Qed.

Lemma program_ainvoke_monotone s w : fuel_monotone (λ n, ainvoke sha256_hex P n s w).
Proof.
  intros n m r Hle.
  destruct (validated_plan sha256_hex P) as [[receipt digest]|e] eqn:Hv;
    [|unfold ainvoke, ainvoke_with_trace; by rewrite Hv].
  destruct (program_executor P) as [ex|e] eqn:He;
    [|unfold ainvoke, ainvoke_with_trace; rewrite Hv; simpl; by rewrite He].
  rewrite !(program_ainvoke_eq _ _ _ _ _ _ Hv He).
  destruct (ainvoke_with_events ex n _ None w) as [o|] eqn:E; [|done].
  by rewrite (ainvoke_with_events_monotone _ _ _ _ _ _ _ Hle E).
Qed.
End program_batch.

(** In a world with one state interleaving cannot be observed. *)
Lemma call_ends_alone {C Out} (resume : C → unit → unit * (C + result Exn Out)) c r :
  call_ends resume c r → runs_alone resume c () r ().
Proof.
  intros (c' & [] & [] & Hrtc & Hend). exists c', (). split; [|done].
  clear Hend. induction Hrtc as [|c c1 c' Hs _ IH]; [done|]. destruct Hs as ([] & [] & Hs).
  eapply rtc_l; [|exact IH]. exact Hs.
Qed.

Section isolated.
Context (sha256_hex : string → string) (P : RuntimeGraphProgram unit).

(** [ainvoke] on [s] ends with [r]. *)
Definition ainvoke_ends (s : RuntimeState) (r : result Exn RuntimeState) : Prop :=
  converges (λ n, ainvoke sha256_hex P n s ()) (λ o, o = ((), r)).

Lemma ainvoke_ends_intro n s r : ainvoke sha256_hex P n s () = Some ((), r) → ainvoke_ends s r.
Proof. intros H. eapply converges_intro; [apply program_ainvoke_monotone|done|done]. Qed.

Lemma prepared_call_ends receipt digest ex s r :
  validated_plan sha256_hex P = Ok (receipt, digest) → program_executor P = Ok ex →
  call_ends (run_resume ex (prepared_answer receipt digest))
    (RunCalled (internal_state (prog_plan P) s)) r →
  ainvoke_ends s r.
Proof.
  intros Hv He (n & r0 & Hn & ->)%call_ends_alone%ainvoke_of_runs_alone.
  apply (ainvoke_ends_intro n). by rewrite (program_ainvoke_eq _ _ _ _ _ _ _ _ Hv He), Hn.
Qed.

Lemma ainvoke_ends_invalid s e :
  (validated_plan sha256_hex P = Raise e ∨
   is_ok (validated_plan sha256_hex P) = true ∧ program_executor P = Raise e) →
  ainvoke_ends s (Raise e).
Proof.
  intros H. apply (ainvoke_ends_intro 0). unfold ainvoke, ainvoke_with_trace.
  destruct H as [->|[Hv He]]; [done|]. destruct (validated_plan _ P) as [[??]|]; [|done].
  simpl. by rewrite He.
Qed.
End isolated.

(** When the callables share no mutable world, a batch of a program answers,
    whatever its concurrency limit and the order of its events, the list of
    what [ainvoke] answers on each input, in the order of the inputs; and an
    exception of the batch is one [ainvoke] raises on some input. *)
Theorem program_abatch_is_ainvoke (sha256_hex : string → string) (P : RuntimeGraphProgram unit)
    (group_exn : Exn → Exn) (values : list RuntimeState) (max_concurrency : option Z)
    (schedule : list PoolEvent) (r : result Exn (list RuntimeState)) :
  capacity_limiter max_concurrency = Ok max_concurrency →
  program_abatch sha256_hex P group_exn values max_concurrency schedule () = Some ((), r) →
  match r with
  | Ok outs => Forall2 (λ s o, ainvoke_ends sha256_hex P s (Ok o)) values outs
  | Raise e => ∃ s e', s ∈ values ∧ ainvoke_ends sha256_hex P s (Raise e') ∧
      (e = e' ∨ e = group_exn e')
  end.
Proof.
  intros Hm H. destruct values as [|s0 values].
  { apply map_ordered_Some in H as [(_&e&He&_)|(limit & p & _ & _ & Hp & Ho & _)]; [congruence|].
    destruct r as [outs|e].
    - apply (outcome_results _ _ _ _ _ _ Hp) in Ho. by apply Forall2_nil_inv_l in Ho as ->.
    - apply (outcome_failure _ _ _ _ _ _ Hp) in Ho as (v & ? & Hv & _). by apply not_elem_of_nil in Hv. }
  unfold program_abatch in H.
  destruct (validated_plan sha256_hex P) as [[receipt digest]|e] eqn:Hv; simpl in H; simplify_eq.
  2: { exists s0, e. split_and!; [left|apply ainvoke_ends_invalid; by left|by left]. }
  destruct (program_executor P) as [ex|e] eqn:He; simpl in H; simplify_eq.
  2: { exists s0, e. split_and!; [left| |by left]. apply ainvoke_ends_invalid. right. by rewrite Hv. }
  apply map_ordered_Some in H as [(_&e&Hl&_)|(limit & p & _ & _ & Hp & Ho & _)]; [congruence|].
  destruct r as [outs|e].
  - apply (outcome_results _ _ _ _ _ _ Hp) in Ho.
    eapply Forall2_impl; [exact Ho|]. intros s o Hs. by eapply prepared_call_ends.
  - apply (outcome_failure _ _ _ _ _ _ Hp) in Ho as (s & e' & Hs & Hc & ->).
    exists s, e'. split_and!; [done| |by right]. by eapply prepared_call_ends.
Qed.

(** ** Witnesses *)

Module BatchDemo.
(** A node that adds its number to the world and stores the sum. *)
Definition tick : RuntimeAction Z := λ s w,
  let n := match dget "n" s with Some (VInt n) => n | _ => 0 end in
  (w + n, ([], Ok (Direct (RMapping [("sum", VInt (w + n))])))).
Definition plan : RuntimeGraphPlan := Plan ["t"] [Edge START "t"; Edge "t" END] [] 5 [].
Definition ex : RuntimeGraphExecutor Z :=
  MkExecutor plan runtime_reference [("t", tick)] [] [] (index_edges (plan_edges plan)) [].
Definition inputs : list RuntimeState := [[("n", VInt 1)]; [("n", VInt 2)]].
Definition hello : RuntimeAction unit := pure_action (λ _, RMapping [("hello", VInt 1)]).
Definition program : RuntimeGraphProgram unit :=
  Program plan (Bindings [] []) (Registries [("t", simple_action hello)] [] []) runtime_reference.
Definition sha (_ : string) : string := "0123456789abcdef0123".
(** One worker; then two workers that take turns. *)
Definition one_worker : list PoolEvent :=
  [Take 0; Resume 0; Resume 0; Resume 0; Resume 0; Take 0; Resume 0; Resume 0; Resume 0; Resume 0].
Definition two_workers : list PoolEvent :=
  [Take 1; Take 0; Resume 0; Resume 1; Resume 1; Resume 0; Resume 0; Resume 0; Resume 1; Resume 1].
Definition state_1 : RuntimeState := Eval vm_compute in [("n", VInt 1); ("hello", VInt 1)].
Definition state_2 : RuntimeState := Eval vm_compute in [("n", VInt 2); ("hello", VInt 1)].
End BatchDemo.

Lemma abatch_in_turn_witness :
  let r := Ok [[("n", VInt 1); ("sum", VInt 11)]; [("n", VInt 2); ("sum", VInt 13)]] in
  executor_abatch BatchDemo.ex id BatchDemo.inputs (Some 1) BatchDemo.one_worker 10
    = Some (13, r) ∧
  converges (λ n, ainvoke_each BatchDemo.ex id n BatchDemo.inputs 10) (λ o, o = (13, r)).
Proof.
  split; [vm_compute; reflexivity|].
  apply (abatch_in_turn BatchDemo.ex id BatchDemo.inputs BatchDemo.one_worker 10 13).
  vm_compute; reflexivity.
Defined.

Lemma program_abatch_is_ainvoke_witness :
  program_abatch BatchDemo.sha BatchDemo.program id BatchDemo.inputs (Some 2)
    BatchDemo.two_workers () = Some ((), Ok [BatchDemo.state_1; BatchDemo.state_2]) ∧
  Forall2 (λ s o, ainvoke_ends BatchDemo.sha BatchDemo.program s (Ok o)) BatchDemo.inputs
    [BatchDemo.state_1; BatchDemo.state_2].
Proof.
  split; [vm_compute; reflexivity|].
  apply (program_abatch_is_ainvoke BatchDemo.sha BatchDemo.program id BatchDemo.inputs (Some 2)
           BatchDemo.two_workers (Ok [BatchDemo.state_1; BatchDemo.state_2]));
    vm_compute; reflexivity.
Defined.
