(* ===== verification/FunFlow.v ===== *)
(** * FunFlow pipelines ([_funflow_types.py], [_funflow_runtime.py])

    A pipeline is a set of steps that need other steps.  The runtime runs it in
    waves: all pending steps whose needs are completed run concurrently in one
    task group on the same state, then their patches are applied in the order
    of the pipeline.  Actions are coroutines in a world [W] (see [Anyio]);
    [perf_counter_ns] reads the clock of the world; [timed_out] says whether
    the deadline of a step has passed when it would be resumed, and is only
    asked for steps with a timeout. *)

From Stdlib Require QArith.QArith_base.
From S2P Require Import Prelude PyDict GraphTypes Receipts Anyio.

(** ** Data *)

Definition FunFlowRuntimeError (msg : string) : Exn := PyError "FunFlowRuntimeError" msg.

Record FunFlowSandbox : Type := Sandbox {
  sandbox_label : string;
  sandbox_timeout_seconds : option QArith_base.Q;
  sandbox_allowed_env : list string
}.

(** What the action of a step returned: a mapping, or an object of a class
    without keys. *)
Inductive StepPatch : Type :=
| Patch (d : dict string Value)
| NotMapping (type_name : string).

(** [action state] is the call [_call_action(action, state)] before it ran. *)
Record FunFlowStep (C : Type) : Type := Step {
  step_name : string;
  step_action : RuntimeState → C;
  step_needs : list string;
  step_sandbox : FunFlowSandbox
}.
Arguments Step {C}.
Arguments step_name {C}.
Arguments step_action {C}.
Arguments step_needs {C}.
Arguments step_sandbox {C}.

Record FunFlowStepReceipt : Type := StepReceipt {
  sr_name : string;
  sr_status : string;
  sr_elapsed_micros : Z;
  sr_sandbox : string;
  sr_output_keys : list string
}.

Record FunFlowRunReceipt : Type := RunReceipt {
  rr_status : string;
  rr_elapsed_micros : Z;
  rr_trace : list string;
  rr_steps : list FunFlowStepReceipt;
  rr_state : RuntimeState;
  rr_max_wave_width : Z
}.

Definition dquote (s : string) : string := String (chr 34) (s +:+ String (chr 34) "").

Definition line_receipt (r : FunFlowRunReceipt) : string :=
  "|poo-flow-funflow-runtime " +:+
  "(schema: " +:+ dquote "poo-flow.funflow-runtime.v1" +:+ " " +:+
  "status: " +:+ dquote (rr_status r) +:+ " " +:+
  "steps: " +:+ str_of_Z (Z.of_nat (length (rr_steps r))) +:+ " " +:+
  "max-wave-width: " +:+ str_of_Z (rr_max_wave_width r) +:+ " " +:+
  "elapsed-us: " +:+ str_of_Z (rr_elapsed_micros r) +:+ ")|".

Record FunFlowDag (C : Type) : Type := Dag {
  dag_name : string;
  dag_steps : list (FunFlowStep C)
}.
Arguments Dag {C}.
Arguments dag_name {C}.
Arguments dag_steps {C}.

Record FunFlowPlanProjection (C : Type) : Type := PlanProjection {
  pp_dag : FunFlowDag C;
  pp_schema : string;
  pp_origin : string;
  pp_runtime_contract : string;
  pp_source_map : dict string string
}.
Arguments PlanProjection {C}.
Arguments pp_dag {C}.
Arguments pp_runtime_contract {C}.

(** [FunFlowDag | FunFlowPlanProjection]. *)
Inductive FunFlowInput (C : Type) : Type :=
| InDag (d : FunFlowDag C)
| InProjection (p : FunFlowPlanProjection C).
Arguments InDag {C}.
Arguments InProjection {C}.

Definition coerce_projection {C} (i : FunFlowInput C) : result Exn (FunFlowDag C) :=
  match i with
  | InProjection p =>
      if bool_decide (pp_runtime_contract p = "poo-flow.anyio.v1") then Ok (pp_dag p)
      else Raise (FunFlowRuntimeError
                    "FunFlow projection requires runtime contract 'poo-flow.anyio.v1'")
  | InDag d => Ok d
  end.

(** ** The runtime *)

Section runtime.
Context {W C : Type} (resume : C → W → W * (C + result Exn StepPatch)).
Context (perf_counter_ns : W → Z) (timed_out : FunFlowStep C → C → W → bool).
Context (group_exn : Exn → Exn).

(** [_validate_dag]; [steps] is the dictionary [pending] of [run]. *)
Definition validate_dag (steps : dict string (FunFlowStep C)) : result Exn unit :=
  match steps with
  | [] => Raise (FunFlowRuntimeError "FunFlow DAG must contain at least one step")
  | _ :: _ =>
      foldM (λ _ step,
        foldM (λ _ dependency,
          if dmem dependency steps then Ok ()
          else Raise (FunFlowRuntimeError
                        ("FunFlow step " +:+ repr_str (step_name step)
                           +:+ " depends on missing step " +:+ repr_str dependency)))
          () (step_needs step))
        () (dvalues steps)
  end.

(** [_run_step]: called, or waiting in its action since it read the clock. *)
Inductive StepTask : Type :=
| StepCalled (step : FunFlowStep C) (state : RuntimeState)
| StepGoing (step : FunFlowStep C) (started : Z) (c : C).

Definition StepResult : Type := FunFlowStepReceipt * dict string Value.

Definition finish_step (step : FunFlowStep C) (started now : Z) (r : result Exn StepPatch) :
    result Exn StepResult :=
  match r with
  | Raise _ => Raise (FunFlowRuntimeError ("FunFlow step failed: " +:+ step_name step))
  | Ok (NotMapping t) => Raise (AttributeError (repr_str t +:+ " object has no attribute 'keys'"))
  | Ok (Patch patch) =>
      Ok (StepReceipt (step_name step) "passed" ((now - started) / 1000)
            (sandbox_label (step_sandbox step)) (py_sorted (dkeys patch)), patch)
  end.

Definition step_after (step : FunFlowStep C) (started : Z)
    (o : W * (C + result Exn StepPatch)) : W * (StepTask + result Exn StepResult) :=
  match o with
  | (w, inl c) => (w, inl (StepGoing step started c))
  | (w, inr r) => (w, inr (finish_step step started (perf_counter_ns w) r))
  end.

(** [with anyio.fail_after(timeout)]. *)
Definition step_resume (t : StepTask) (w : W) : W * (StepTask + result Exn StepResult) :=
  match t with
  | StepCalled step state =>
      step_after step (perf_counter_ns w) (resume (step_action step state) w)
  | StepGoing step started c =>
      if bool_decide (is_Some (sandbox_timeout_seconds (step_sandbox step))) && timed_out step c w
      then step_after step started (w, inr (Raise (PyError "TimeoutError" "")))
      else step_after step started (resume c w)
  end.

(** [_run_wave]: one task per step, the results keyed by step name.  Its
    schedule is the order in which the event loop resumed the tasks. *)
Definition run_wave (steps : list (FunFlowStep C)) (state : RuntimeState)
    (schedule : list PoolEvent) (w : W) : option (W * result Exn (dict string StepResult)) :=
  match map_ordered_async (λ step, StepCalled step state) step_resume group_exn steps None
          schedule w with
  | None => None
  | Some (w', Raise e) => Some (w', Raise e)
  | Some (w', Ok outs) => Some (w', Ok (dict_of (zip (step_name <$> steps) outs)))
  end.

(** The local variables of [run]. *)
Record RunLoop : Type := MkLoop {
  rl_pending : dict string (FunFlowStep C);
  rl_completed : list string;
  rl_state : RuntimeState;
  rl_receipts : list FunFlowStepReceipt;
  rl_trace : list string;
  rl_max_wave_width : Z
}.

Definition step_ready (completed : list string) (step : FunFlowStep C) : bool :=
  forallb (λ dependency, bool_decide (dependency ∈ completed)) (step_needs step).

Definition ready_entries (l : RunLoop) : dict string (FunFlowStep C) :=
  filter (λ '(_, step), step_ready (rl_completed l) step = true) (rl_pending l).

(** The body of [for name in ready]. *)
Definition take_result (wave : dict string StepResult) (l : RunLoop) (name : string) :
    result Exn RunLoop :=
  '(step_receipt, patch) ← of_option (KeyError name) (dget name wave);
  Ok (MkLoop (dpop name (rl_pending l)) (rl_completed l ++ [name]) (dupdate (rl_state l) patch)
        (rl_receipts l ++ [step_receipt]) (rl_trace l ++ [name]) (rl_max_wave_width l)).

Definition set_width (n : Z) (l : RunLoop) : RunLoop :=
  MkLoop (rl_pending l) (rl_completed l) (rl_state l) (rl_receipts l) (rl_trace l) n.

(** [while pending: ...], one schedule per wave; [None] when the schedules end
    before the run or do not fit its waves. *)
Fixpoint run_waves (schedules : list (list PoolEvent)) (l : RunLoop) (w : W) :
    option (W * result Exn RunLoop) :=
  match rl_pending l with
  | [] => Some (w, Ok l)
  | _ :: _ =>
      match ready_entries l with
      | [] => Some (w, Raise (FunFlowRuntimeError "FunFlow DAG has unresolved dependencies"))
      | ready =>
          match schedules with
          | [] => None
          | schedule :: schedules =>
              let l1 := set_width (Z.max (rl_max_wave_width l) (Z.of_nat (length ready))) l in
              match run_wave (dvalues ready) (rl_state l) schedule w with
              | None => None
              | Some (w', Raise e) => Some (w', Raise e)
              | Some (w', Ok wave) =>
                  match foldM (take_result wave) l1 (dkeys ready) with
                  | Raise e => Some (w', Raise e)
                  | Ok l' => run_waves schedules l' w'
                  end
              end
          end
      end
  end.

(** [{step.name: step for step in dag.steps}]. *)
Definition pending_of (dag : FunFlowDag C) : dict string (FunFlowStep C) :=
  dict_of ((λ step, (step_name step, step)) <$> dag_steps dag).

(** [AnyioFunFlowRuntime.run]. *)
Definition run (input : FunFlowInput C) (state : option RuntimeState)
    (schedules : list (list PoolEvent)) (w : W) : option (W * result Exn FunFlowRunReceipt) :=
  match (dag ← coerce_projection input;
         _ ← validate_dag (pending_of dag);
         Ok (pending_of dag)) with
  | Raise e => Some (w, Raise e)
  | Ok pending =>
      match run_waves schedules (MkLoop pending [] (default [] state) [] [] 0) w with
      | None => None
      | Some (w', Raise e) => Some (w', Raise e)
      | Some (w', Ok l) =>
          Some (w', Ok (RunReceipt "passed" ((perf_counter_ns w' - perf_counter_ns w) / 1000)
                          (rl_trace l) (rl_receipts l) (rl_state l) (rl_max_wave_width l)))
      end
  end.
End runtime.
