(* ===== verification/FunFlowFacts.v ===== *)
(** * FunFlow pipelines run in dependency order

    What a run of [FunFlow] answers: the trace is a topological order of the
    steps, a pipeline completes unless a step fails or its needs are cyclic,
    and without a shared world the order in which the event loop resumes the
    steps of a wave cannot be observed. *)

From S2P Require Import Prelude PyDict GraphTypes Receipts Anyio Batch FunFlow.

(** ** Facts about dictionaries *)

Lemma dkeys_dpop_perm {V} (d : dict string V) k :
  k ∈ dkeys d → dkeys d ≡ₚ k :: dkeys (dpop k d).
Proof.
  induction d as [|[k' v] d IH]; csimpl; intros Hk; [by apply not_elem_of_nil in Hk|].
  destruct (decide (k = k')) as [->|Hne]; [done|].
  apply elem_of_cons in Hk as [?|Hk]; [done|]. csimpl. rewrite (IH Hk) at 1. constructor.
Qed.

Lemma dict_of_zip {V} (ks : list string) (vs : list V) k v :
  NoDup ks → Forall2 (λ _ _, True) ks vs →
  (dget k (dict_of (zip ks vs)) = Some v ↔ ∃ i, ks !! i = Some k ∧ vs !! i = Some v).
Proof.
  intros Hnd Hlen. apply Forall2_length in Hlen.
  assert (dict_wf (zip ks vs)) as Hwf.
  { unfold dict_wf, dkeys. rewrite fst_zip; [done|lia]. }
  rewrite (dict_of_id _ Hwf). split.
  - intros H. apply dget_Some_elem, list_elem_of_lookup in H as [i Hi].
    exists i. apply lookup_zip_Some in Hi. naive_solver.
  - intros (i & Hk & Hv). apply dget_elem_wf; [done|].
    apply (list_elem_of_lookup_2 _ i). by apply lookup_zip_Some.
Qed.

(** ** Waves *)

Section waves.
Context {W C : Type} (resume : C → W → W * (C + result Exn StepPatch)).
Context (perf_counter_ns : W → Z) (timed_out : FunFlowStep C → C → W → bool).
Context (group_exn : Exn → Exn).

#[local] Notation step_resume := (step_resume resume perf_counter_ns timed_out).
#[local] Notation run_wave := (run_wave resume perf_counter_ns timed_out group_exn).
#[local] Notation run_waves := (run_waves resume perf_counter_ns timed_out group_exn).

Definition task_step (t : StepTask (C:=C)) : FunFlowStep C :=
  match t with StepCalled step _ | StepGoing step _ _ => step end.

(** The exceptions of a step. *)
Definition step_error (step : FunFlowStep C) (e : Exn) : Prop :=
  e = FunFlowRuntimeError ("FunFlow step failed: " +:+ step_name step) ∨
  ∃ t, e = AttributeError (repr_str t +:+ " object has no attribute 'keys'").

Lemma step_after_spec step started o :
  match step_after perf_counter_ns step started o with
  | (_, inl t) => task_step t = step
  | (_, inr (Ok (rc, _))) => sr_name rc = step_name step
  | (_, inr (Raise e)) => step_error step e
  end.
Proof.
  destruct o as [w [c|[[patch|t]|e]]]; simpl; try done; [right; by eexists|by left].
Qed.

Lemma step_resume_spec t w :
  match step_resume t w with
  | (_, inl t') => task_step t' = task_step t
  | (_, inr (Ok (rc, _))) => sr_name rc = step_name (task_step t)
  | (_, inr (Raise e)) => step_error (task_step t) e
  end.
Proof.
  destruct t as [step state|step started c]; unfold FunFlow.step_resume.
  - apply step_after_spec.
  - destruct (_ && _); apply step_after_spec.
Qed.

Lemma rtc_task_step t t' : rtc (flip (suspends step_resume)) t t' → task_step t' = task_step t.
Proof.
  induction 1 as [|t1 t2 t3 (w & w' & H) _ IH]; [done|].
  pose proof (step_resume_spec t1 w) as Hs. rewrite H in Hs. congruence.
Qed.

Lemma call_ends_spec t r :
  call_ends step_resume t r →
  match r with
  | Ok (rc, _) => sr_name rc = step_name (task_step t)
  | Raise e => step_error (task_step t) e
  end.
Proof.
  intros (t' & w & w' & Hrtc & Hend). apply rtc_task_step in Hrtc.
  pose proof (step_resume_spec t' w) as Hs. rewrite Hend in Hs. by rewrite <-Hrtc.
Qed.

Lemma step_resume_wf : well_founded (suspends resume) → well_founded (suspends step_resume).
Proof.
  intros Hwf.
  assert (∀ c step started, Acc (suspends step_resume) (StepGoing step started c)) as Hgoing.
  { intros c; induction c as [c IH] using (well_founded_ind Hwf). intros step started.
    constructor. intros t (w & w' & H). simpl in H.
    destruct (_ && _); [done|].
    destruct (resume c w) as [w1 [c'|r]] eqn:E; simplify_eq/=. apply IH. by exists w, w'. }
  intros [step state|step started c]; [|apply Hgoing].
  constructor. intros t (w & w' & H). simpl in H.
  destruct (resume (step_action step state) w) as [w1 [c'|r]]; simplify_eq/=. apply Hgoing.
Qed.

(** A wave that returns has a result for each of its steps. *)
Lemma run_wave_Ok steps state schedule w w' wave :
  NoDup (step_name <$> steps) →
  run_wave steps state schedule w = Some (w', Ok wave) →
  ∃ outs, Forall2 (λ step o, call_ends step_resume (StepCalled step state) (Ok o)) steps outs ∧
    ∀ i step o, steps !! i = Some step → outs !! i = Some o →
      dget (step_name step) wave = Some o.
Proof.
  intros Hnd H. unfold FunFlow.run_wave in H.
  destruct (map_ordered_async _ _ _ _ _ _ _) as [[w1 [outs|e]]|] eqn:E; simplify_eq.
  apply map_ordered_Some in E as [(_&?&?&?)|(limit & p & _ & _ & Hp & Ho & _)]; [done|].
  apply (outcome_results _ _ _ _ _ _ Hp) in Ho. exists outs. split; [done|].
  intros i step o Hs Hout. apply dict_of_zip; [done| |].
  - apply Forall2_same_length_lookup. split; [|done].
    rewrite length_fmap. by eapply Forall2_length.
  - exists i. by rewrite list_lookup_fmap, Hs.
Qed.

Lemma run_wave_Raise steps state schedule w w' e :
  run_wave steps state schedule w = Some (w', Raise e) →
  ∃ step e', step ∈ steps ∧ call_ends step_resume (StepCalled step state) (Raise e') ∧
    e = group_exn e'.
Proof.
  intros H. unfold FunFlow.run_wave in H.
  destruct (map_ordered_async _ _ _ _ _ _ _) as [[w1 [outs|e1]]|] eqn:E; simplify_eq.
  apply map_ordered_Some in E as [(_&?&?&?)|(limit & p & _ & _ & Hp & Ho & _)]; [done|].
  by apply (outcome_failure _ _ _ _ _ _ Hp) in Ho.
Qed.

Lemma run_wave_total steps state w :
  well_founded (suspends resume) → ∃ schedule o, run_wave steps state schedule w = Some o.
Proof.
  intros Hwf%step_resume_wf.
  destruct (pool_completes (λ step, StepCalled step state) step_resume group_exn steps
              (initial_pool (λ step, StepCalled step state) None steps w) Hwf)
    as (schedule & p & Hrun & Ho); [by apply (initial_pool_inv _ _ None)|].
  destruct (pool_outcome group_exn steps p) as [r|] eqn:Hr; [|done].
  exists schedule. unfold FunFlow.run_wave, map_ordered_async. simpl capacity_limiter. cbv iota.
  rewrite Hrun. simpl. rewrite Hr. simpl. destruct r; by eexists.
Qed.

(** ** The loop *)

(** [d] is needed by [n] in the pipeline [P]. *)
Definition needed_by (P : dict string (FunFlowStep C)) (d n : string) : Prop :=
  ∃ step, dget n P = Some step ∧ d ∈ step_needs step.

(** Every step of [trace] comes after the steps it needs. *)
Definition dependency_order (P : dict string (FunFlowStep C)) (trace : list string) : Prop :=
  ∀ i n d, trace !! i = Some n → needed_by P d n → d ∈ take i trace.

Record LoopInv (P : dict string (FunFlowStep C)) (l : RunLoop (C:=C)) : Prop := {
  li_wf : dict_wf (rl_pending l);
  li_sub n step : dget n (rl_pending l) = Some step → dget n P = Some step;
  li_completed : rl_completed l = rl_trace l;
  li_perm : rl_trace l ++ dkeys (rl_pending l) ≡ₚ dkeys P;
  li_receipts : sr_name <$> rl_receipts l = rl_trace l;
  li_order : dependency_order P (rl_trace l)
}.

Lemma dependency_order_snoc P trace n :
  dependency_order P trace → (∀ d, needed_by P d n → d ∈ trace) → dependency_order P (trace ++ [n]).
Proof.
  intros Ho Hn i m d Hi Hd. apply lookup_app_Some in Hi as [Hi|[Hi Hm]].
  - apply lookup_lt_Some in Hi as Hlt. rewrite take_app_le by lia. by eapply Ho.
  - apply list_lookup_singleton_Some in Hm as [Hz ->]. rewrite take_app_le by lia.
    rewrite firstn_all2 by lia. by apply Hn.
Qed.

Lemma take_result_inv P wave l n l' step :
  LoopInv P l → dget n (rl_pending l) = Some step →
  (∀ d, d ∈ step_needs step → d ∈ rl_completed l) →
  (∀ o : StepResult, dget n wave = Some o → sr_name o.1 = n) →
  take_result wave l n = Ok l' →
  LoopInv P l' ∧ rl_pending l' = dpop n (rl_pending l) ∧ rl_completed l' = rl_completed l ++ [n].
Proof.
  intros [Hwf Hsub Hc Hperm Hrec Hord] Hn Hneeds Hwave H. unfold take_result in H. inv_result.
  destruct x as [rc patch]. injection H0 as <-. split_and!; try done.
  specialize (Hwave _ H). simpl in Hwave. split; simpl.
  - by apply dpop_wf.
  - intros m s Hm. apply Hsub. rewrite dget_dpop in Hm by done. by case_decide.
  - by rewrite Hc.
  - rewrite <-app_assoc. simpl. rewrite <-dkeys_dpop_perm; [done|].
    apply dget_is_Some. by eexists.
  - rewrite fmap_app, Hrec. simpl. by rewrite Hwave.
  - apply dependency_order_snoc; [done|]. intros d (s & Hs & Hd).
    rewrite (Hsub _ _ Hn) in Hs. simplify_eq. rewrite <-Hc. by apply Hneeds.
Qed.

Lemma take_results_inv P wave names l l' :
  LoopInv P l → NoDup names →
  (∀ n, n ∈ names → ∃ step, dget n (rl_pending l) = Some step ∧
     ∀ d, d ∈ step_needs step → d ∈ rl_completed l) →
  (∀ n (o : StepResult), n ∈ names → dget n wave = Some o → sr_name o.1 = n) →
  foldM (take_result wave) l names = Ok l' → LoopInv P l'.
Proof.
  revert l; induction names as [|n names IH]; simpl; intros l Hl Hnd Hready Hwave H.
  { by inv_result. }
  apply NoDup_cons in Hnd as [Hnew Hnd]. inv_result.
  destruct (Hready n ltac:(by left)) as (step & Hn & Hneeds).
  destruct (take_result_inv P wave l n x step Hl Hn Hneeds) as (Hx & Hp & Hc); [|done|].
  { intros o. apply Hwave. by left. }
  apply (IH x); [done|done| | |done].
  - intros m Hm. destruct (Hready m ltac:(by right)) as (s & Hs & Hsn). exists s. split.
    + rewrite Hp, dget_dpop by apply (li_wf _ _ Hl). rewrite decide_False; [done|]. by intros ->.
    + intros d Hd. rewrite Hc. apply elem_of_app. left. by apply Hsn.
  - intros m o Hm. apply Hwave. by right.
Qed.

Lemma take_results_total wave names (l : RunLoop (C:=C)) :
  (∀ n, n ∈ names → is_Some (dget n wave)) →
  ∃ l', foldM (take_result wave) l names = Ok l'.
Proof.
  revert l; induction names as [|n names IH]; simpl; intros l H; [by eexists|].
  destruct (H n ltac:(by left)) as [[rc patch] Ho].
  assert (∃ l1, take_result wave l n = Ok l1) as [l1 ->]
    by (unfold take_result; rewrite Ho; by eexists).
  simpl. apply IH. intros m Hm. apply H. by right.
Qed.

Lemma ready_sublist l : ready_entries (C:=C) l `sublist_of` rl_pending l.
Proof. apply sublist_filter. Qed.

Lemma ready_wf l : dict_wf (rl_pending l) → dict_wf (ready_entries (C:=C) l).
Proof. intros H. eapply sublist_NoDup; [exact H|]. apply fmap_sublist, ready_sublist. Qed.

Lemma elem_of_ready l n step :
  (n, step) ∈ ready_entries (C:=C) l ↔
  (n, step) ∈ rl_pending l ∧ ∀ d, d ∈ step_needs step → d ∈ rl_completed l.
Proof.
  unfold ready_entries. rewrite list_elem_of_filter. unfold step_ready.
  rewrite forallb_forall. setoid_rewrite bool_decide_eq_true. setoid_rewrite <-list_elem_of_In.
  clear. naive_solver.
Qed.

(** One iteration of the loop, in a wave that returned. *)
Lemma wave_body P l schedule w w' wave :
  LoopInv P l → (∀ n step, dget n P = Some step → step_name step = n) →
  run_wave (dvalues (ready_entries l)) (rl_state l) schedule w = Some (w', Ok wave) →
  ∀ width, ∃ l', foldM (take_result wave) (set_width width l) (dkeys (ready_entries l)) = Ok l' ∧
    LoopInv P l'.
Proof.
  intros Hl Hnames Hrun width.
  pose proof (ready_wf l (li_wf _ _ Hl)) as Hwf.
  assert (step_name <$> dvalues (ready_entries l) = dkeys (ready_entries l)) as Hkeys.
  { unfold dvalues, dkeys. rewrite <-list_fmap_compose. apply list_fmap_ext.
    intros i [n step] Hi. simpl. apply Hnames, (li_sub _ _ Hl), dget_elem_wf; [apply Hl|].
    apply list_elem_of_lookup_2 in Hi. by apply elem_of_ready in Hi as [? _]. }
  apply run_wave_Ok in Hrun as (outs & Houts & Hwave); [|by rewrite Hkeys].
  assert (∀ n, n ∈ dkeys (ready_entries l) → ∃ step o, (n, step) ∈ ready_entries l ∧
            dget n wave = Some o ∧ sr_name o.1 = n) as Hres.
  { intros n Hn. apply list_elem_of_lookup in Hn as [i Hi]. rewrite <-Hkeys in Hi.
    rewrite list_lookup_fmap in Hi. destruct (dvalues (ready_entries l) !! i) as [step|] eqn:Hs;
      [|done]. injection Hi as <-.
    destruct (Forall2_lookup_l _ _ _ _ _ Houts Hs) as (o & Ho & Hc). exists step, o.
    split_and!.
    - unfold dvalues in Hs. rewrite list_lookup_fmap in Hs.
      apply fmap_Some in Hs as ([n s] & Hr & ->). apply list_elem_of_lookup_2 in Hr. simpl.
      assert (step_name s = n) as ->; [|done].
      apply Hnames, (li_sub _ _ Hl), dget_elem_wf; [apply Hl|].
      by apply elem_of_ready in Hr as [? _].
    - by apply Hwave with i.
    - apply call_ends_spec in Hc. destruct o as [rc patch]. by apply Hc. }
  destruct (take_results_total wave (dkeys (ready_entries l)) (set_width width l)) as [l' Hl'].
  { intros n Hn. destruct (Hres n Hn) as (? & o & _ & -> & _). by eexists. }
  exists l'. split; [done|].
  apply (take_results_inv P wave (dkeys (ready_entries l)) (set_width width l)); [|done| | |done].
  - destruct Hl. by split.
  - intros n Hn. destruct (Hres n Hn) as (step & o & He & _). exists step.
    apply elem_of_ready in He as [He Hneeds]. split; [|done].
    apply dget_elem_wf; [apply Hl|done].
  - intros n o Hn Ho. destruct (Hres n Hn) as (? & o' & _ & Ho' & ?).
    by assert (o = o') as -> by congruence.
Qed.

(** The equation of an iteration. *)
Lemma run_waves_eq schedules l w :
  run_waves schedules l w =
    match rl_pending l with
    | [] => Some (w, Ok l)
    | _ :: _ =>
        match ready_entries l with
        | [] => Some (w, Raise (FunFlowRuntimeError "FunFlow DAG has unresolved dependencies"))
        | ready =>
            match schedules with
            | [] => None
            | schedule :: schedules =>
                let l1 := set_width (Z.max (rl_max_wave_width l) (Z.of_nat (length ready))) l in
                match run_wave (dvalues ready) (rl_state l) schedule w with
                | None => None
                | Some (w', Raise e) => Some (w', Raise e)
                | Some (w', Ok wave) =>
                    match foldM (take_result wave) l1 (dkeys ready) with
                    | Raise e => Some (w', Raise e)
                    | Ok l' => run_waves schedules l' w'
                    end
                end
            end
        end
    end.
Proof. by destruct schedules. Qed.

(** How the loop ends. *)
Lemma run_waves_inv P schedules l w w' r :
  LoopInv P l → (∀ n step, dget n P = Some step → step_name step = n) →
  run_waves schedules l w = Some (w', r) →
  match r with
  | Ok l' => LoopInv P l' ∧ rl_pending l' = []
  | Raise e =>
      (e = FunFlowRuntimeError "FunFlow DAG has unresolved dependencies" ∧
       ∃ l', LoopInv P l' ∧ rl_pending l' ≠ [] ∧ ready_entries l' = []) ∨
      ∃ n step e', dget n P = Some step ∧ step_error step e' ∧ e = group_exn e'
  end.
Proof.
  intros Hl Hnames; revert l w Hl; induction schedules as [|schedule schedules IH];
    intros l w Hl H; rewrite run_waves_eq in H;
    destruct (rl_pending l) as [|en pending] eqn:Hp; simplify_eq; try done;
    destruct (ready_entries l) as [|re ready] eqn:Hr; simplify_eq;
    try (left; split; [done|]; exists l; by rewrite Hp).
  rewrite <-Hr in H. cbv zeta in H.
  destruct (run_wave _ _ schedule w) as [[w1 [wave|e]]|] eqn:Hw; [| |done].
  - destruct (wave_body P l schedule w w1 wave Hl Hnames Hw
      (Z.max (rl_max_wave_width l) (Z.of_nat (length (ready_entries l))))) as (l' & Hl' & Hinv).
    rewrite Hl' in H. by eapply IH.
  - simplify_eq. right. apply run_wave_Raise in Hw as (step & e' & Hs & Hc & ->).
    apply list_elem_of_fmap in Hs as ([n s] & -> & Hin).
    apply elem_of_ready in Hin as [Hin _]. apply call_ends_spec in Hc. simpl in *.
    exists n, s, e'. split_and!; [|done|done].
    apply (li_sub _ _ Hl), dget_elem_wf; [apply Hl|done].
Qed.

Lemma take_results_trace wave names (l l' : RunLoop (C:=C)) :
  foldM (take_result wave) l names = Ok l' → rl_trace l' = rl_trace l ++ names.
Proof.
  revert l; induction names as [|n names IH]; simpl; intros l H; inv_result.
  { by rewrite app_nil_r. }
  rewrite (IH _ H0). unfold take_result in H. inv_result. destruct x0 as [rc patch].
  injection H1 as <-. simpl. by rewrite <-app_assoc.
Qed.

(** ** Cyclic and acyclic pipelines *)

Lemma order_well_founded P trace :
  (∀ n, n ∈ dkeys P → n ∈ trace) → dependency_order P trace → well_founded (needed_by P).
Proof.
  intros Hall Ho.
  assert (∀ i n, trace !! i = Some n → Acc (needed_by P) n) as Hacc.
  { intros i; induction i as [i IH] using lt_wf_ind. intros n Hi. constructor. intros d Hd.
    pose proof (Ho i n d Hi Hd) as Hin. apply list_elem_of_lookup in Hin as [j Hj].
    apply lookup_take_Some in Hj as [Hj Hlt]. by apply (IH j). }
  intros n. destruct (decide (n ∈ dkeys P)) as [Hn|Hn].
  - apply Hall, list_elem_of_lookup in Hn as [i Hi]. by eapply Hacc.
  - constructor. intros d (step & Hs & _). destruct Hn. apply dget_is_Some. by eexists.
Qed.

Lemma validate_dag_Ok P :
  validate_dag P = Ok () → P ≠ [] ∧ ∀ n d, needed_by P d n → d ∈ dkeys P.
Proof.
  destruct P as [|[k0 s0] P]; [done|]. intros H. split; [done|].
  unfold validate_dag in H. apply foldM_check in H. rewrite Forall_forall in H.
  intros n d (step & Hs & Hd). apply dget_Some_elem in Hs.
  assert (step ∈ dvalues ((k0, s0) :: P)) as Hin by (apply list_elem_of_fmap; by exists (n, step)).
  specialize (H _ Hin). apply foldM_check in H. rewrite Forall_forall in H. specialize (H _ Hd).
  destruct (dmem d _) eqn:E; [|done]. by apply dmem_spec.
Qed.

(** A pipeline without cycles never gets stuck. *)
Lemma acyclic_ready P l :
  LoopInv P l → well_founded (needed_by P) → (∀ n d, needed_by P d n → d ∈ dkeys P) →
  rl_pending l ≠ [] → ready_entries l ≠ [].
Proof.
  intros Hl Hwf Hvalid Hne.
  assert (∀ n, n ∈ dkeys (rl_pending l) → ready_entries l ≠ []) as H.
  { intros n; induction n as [n IH] using (well_founded_ind Hwf). intros Hn.
    apply dget_is_Some in Hn as [step Hs].
    pose proof (li_sub _ _ Hl _ _ Hs) as HP.
    destruct (decide (Exists (λ d, d ∈ dkeys (rl_pending l)) (step_needs step))) as [He|He].
    - apply Exists_exists in He as (d & Hd & Hdp). apply (IH d); [by exists step|done].
    - assert ((n, step) ∈ ready_entries l) as Hin.
      { apply elem_of_ready. split; [by apply dget_Some_elem|]. intros d Hd.
        rewrite (li_completed _ _ Hl).
        assert (d ∈ rl_trace l ++ dkeys (rl_pending l)) as Hall.
        { rewrite (li_perm _ _ Hl). apply (Hvalid n). by exists step. }
        apply elem_of_app in Hall as [?|Hdp]; [done|].
        destruct He. apply Exists_exists. eauto. }
      intros Hnil. rewrite Hnil in Hin. by apply not_elem_of_nil in Hin. }
  destruct (rl_pending l) as [|[n step] pending]; [done|]. apply (H n). by left.
Qed.

(** ** The loop ends *)

(** A wave removes its steps from [pending]. *)
Lemma wave_shrinks P wave width l l' :
  LoopInv P l → LoopInv P l' →
  foldM (take_result wave) (set_width width l) (dkeys (ready_entries l)) = Ok l' →
  (length (rl_pending l') + length (ready_entries l) = length (rl_pending l))%nat.
Proof.
  intros Hl Hl' H. apply take_results_trace in H. simpl in H.
  pose proof (Permutation_length (li_perm _ _ Hl)) as H1.
  pose proof (Permutation_length (li_perm _ _ Hl')) as H2.
  rewrite H, !length_app in H2. rewrite length_app in H1. unfold dkeys in *.
  rewrite !length_fmap in *. lia.
Qed.

Lemma run_waves_total P l w :
  well_founded (suspends resume) → LoopInv P l →
  (∀ n step, dget n P = Some step → step_name step = n) →
  ∃ schedules o, run_waves schedules l w = Some o.
Proof.
  intros Hwf Hl Hnames. remember (length (rl_pending l)) as len eqn:Hlen.
  revert l w Hl Hlen; induction len as [len IH] using lt_wf_ind. intros l w Hl Hlen.
  destruct (rl_pending l) as [|en pending] eqn:Hp.
  { exists [], (w, Ok l). by rewrite run_waves_eq, Hp. }
  destruct (ready_entries l) as [|re ready] eqn:Hr.
  { eexists [], _. rewrite run_waves_eq, Hp, Hr. done. }
  destruct (run_wave_total (dvalues (ready_entries l)) (rl_state l) w Hwf) as (schedule & [w1 [wave|e]] & Hw).
  - destruct (wave_body P l schedule w w1 wave Hl Hnames Hw
      (Z.max (rl_max_wave_width l) (Z.of_nat (length (ready_entries l))))) as (l' & Hl' & Hinv).
    destruct (IH (length (rl_pending l'))
                ltac:(pose proof (wave_shrinks _ _ _ _ _ Hl Hinv Hl') as Hs;
                      rewrite Hp, Hr in Hs; simpl in *; lia)
      l' w1 Hinv eq_refl) as (schedules & o & Ho).
    exists (schedule :: schedules), o. rewrite run_waves_eq, Hp, Hr, <-Hr. cbv zeta.
    by rewrite Hw, Hl'.
  - exists [schedule], (w1, Raise e). rewrite run_waves_eq, Hp, Hr, <-Hr. cbv zeta. by rewrite Hw.
Qed.

(** ** The pipeline of a dag *)

Lemma pending_names (dag : FunFlowDag C) n step :
  dget n (pending_of dag) = Some step → step_name step = n.
Proof.
  intros H. apply dget_dict_of, list_elem_of_fmap in H as (s & Hs & _). by simplify_eq.
Qed.

Lemma initial_loop_inv (dag : FunFlowDag C) state :
  LoopInv (pending_of dag) (MkLoop (pending_of dag) [] state [] [] 0).
Proof.
  split; simpl; [apply dict_of_wf|done|done|done|done|]. intros i n d Hi. by rewrite lookup_nil in Hi.
Qed.
End waves.

(** ** Worlds with one state *)

Section isolated.
Context {C : Type}.

Lemma runs_alone_det {Out} (resume : C → unit → unit * (C + result Exn Out)) c r1 r2 :
  runs_alone resume c () r1 () → runs_alone resume c () r2 () → r1 = r2.
Proof.
  intros (c1 & [] & H1 & E1) (c2 & [] & H2 & E2).
  remember (c, ()) as x eqn:Ex. remember (c1, ()) as y eqn:Ey.
  revert c Ex; induction H1 as [x|x x' y Hs _ IH]; intros c ->.
  - injection Ey as ->. apply rtc_inv in H2 as [Heq|([c3 []] & Hs & _)]; [injection Heq as ->; congruence|].
    unfold alone_step in Hs. simpl in Hs. congruence.
  - destruct x' as [c3 []]. apply rtc_inv in H2 as [Heq|([c4 []] & Hs' & H2)].
    + injection Heq as ->. unfold alone_step in Hs. simpl in Hs. congruence.
    + unfold alone_step in *. simpl in *. assert (c3 = c4) as -> by congruence. by eapply IH.
Qed.

Lemma call_ends_det {Out} (resume : C → unit → unit * (C + result Exn Out)) c r1 r2 :
  call_ends resume c r1 → call_ends resume c r2 → r1 = r2.
Proof. intros ?%call_ends_alone ?%call_ends_alone. by eapply runs_alone_det. Qed.
End isolated.

Section agree.
Context {C : Type} (resume : C → unit → unit * (C + result Exn StepPatch)).
Context (perf_counter_ns : unit → Z) (timed_out : FunFlowStep C → C → unit → bool).
Context (group_exn : Exn → Exn).

#[local] Notation run_wave := (run_wave resume perf_counter_ns timed_out group_exn).
#[local] Notation run_waves := (run_waves resume perf_counter_ns timed_out group_exn).

Lemma map_ordered_agree {T Inp Out} (start : Inp → T) (go : T → unit → unit * (T + result Exn Out))
    values m s1 s2 outs r :
  map_ordered_async start go group_exn values m s1 () = Some ((), Ok outs) →
  map_ordered_async start go group_exn values m s2 () = Some ((), r) → r = Ok outs.
Proof.
  intros H1 H2.
  apply map_ordered_Some in H1 as [(_&?&?&?)|(limit & p1 & Hl & _ & Hp1 & Ho1 & _)]; [done|].
  apply map_ordered_Some in H2 as [(_&?&?&?)|(limit2 & p2 & _ & _ & Hp2 & Ho2 & _)]; [congruence|].
  apply (outcome_results _ _ _ _ _ _ Hp1) in Ho1. destruct r as [outs2|e].
  - apply (outcome_results _ _ _ _ _ _ Hp2) in Ho2. f_equal. clear -Ho1 Ho2.
    revert outs2 Ho2; induction Ho1 as [|v o values outs Hv _ IH]; intros outs2 Ho2;
      inversion Ho2 as [|? o2 ? outs2' Hv2 Ho2']; subst; [done|].
    f_equal; [|by apply IH]. pose proof (call_ends_det _ _ _ _ Hv2 Hv). by simplify_eq.
  - apply (outcome_failure _ _ _ _ _ _ Hp2) in Ho2 as (v & e' & Hv & Hc & _).
    apply list_elem_of_lookup in Hv as [i Hi].
    destruct (Forall2_lookup_l _ _ _ _ _ Ho1 Hi) as (o & _ & Hok).
    by pose proof (call_ends_det _ _ _ _ Hc Hok).
Qed.

Lemma run_wave_agree steps state s1 s2 wave r :
  run_wave steps state s1 () = Some ((), Ok wave) →
  run_wave steps state s2 () = Some ((), r) → r = Ok wave.
Proof.
  unfold FunFlow.run_wave. intros H1 H2.
  destruct (map_ordered_async _ _ _ _ _ s1 _) as [[[] [outs|e]]|] eqn:E1; simplify_eq.
  destruct (map_ordered_async _ _ _ _ _ s2 _) as [[[] r2]|] eqn:E2; [|done].
  pose proof (map_ordered_agree _ _ _ _ _ _ _ _ E1 E2) as ->. by simplify_eq.
Qed.

Lemma run_waves_agree s1 s2 l l1 r :
  run_waves s1 l () = Some ((), Ok l1) → run_waves s2 l () = Some ((), r) → r = Ok l1.
Proof.
  revert s2 l; induction s1 as [|sch1 s1 IH]; intros s2 l H1 H2;
    rewrite run_waves_eq in H1, H2;
    destruct (rl_pending l) as [|en pending]; simplify_eq; try done;
    destruct (ready_entries l) as [|re ready]; simplify_eq; try done.
  destruct s2 as [|sch2 s2]; [done|]. cbv zeta in H1, H2.
  destruct (run_wave _ _ sch1 _) as [[[] [wave|e]]|] eqn:E1; [|done|done].
  destruct (run_wave _ _ sch2 _) as [[[] r2]|] eqn:E2; [|done].
  pose proof (run_wave_agree _ _ _ _ _ _ E1 E2) as ->.
  destruct (foldM _ _ _) as [l'|e]; [|done]. by eapply IH.
Qed.
End agree.

Lemma run_returns {W C : Type} (resume : C → W → W * (C + result Exn StepPatch))
    (perf_counter_ns : W → Z) (timed_out : FunFlowStep C → C → W → bool) (group_exn : Exn → Exn)
    (input : FunFlowInput C) (dag : FunFlowDag C) state schedules w w' receipt :
  coerce_projection input = Ok dag →
  run resume perf_counter_ns timed_out group_exn input state schedules w
    = Some (w', Ok receipt) →
  ∃ l, LoopInv (pending_of dag) l ∧ rl_pending l = [] ∧ rr_trace receipt = rl_trace l ∧
    rr_steps receipt = rl_receipts l ∧ rr_status receipt = "passed".
Proof.
  intros Hd H. unfold run in H. rewrite Hd in H. simpl in H.
  destruct (validate_dag (pending_of dag)) as [[]|]; simpl in H; [|done].
  destruct (run_waves _ _ _ _ _ _ _) as [[w1 [l|e]]|] eqn:E; simplify_eq/=.
  apply (run_waves_inv resume perf_counter_ns timed_out group_exn (pending_of dag)) in E
    as [Hl Hp]; [|apply initial_loop_inv|apply pending_names].
  by exists l.
Qed.

(** ** Theorems *)

(** C26. A run that returns executed every step of the pipeline exactly once,
    each after the steps it needs, and has a receipt of each in that order. *)
Theorem funflow_runs_in_dependency_order {W C : Type}
    (resume : C → W → W * (C + result Exn StepPatch)) (perf_counter_ns : W → Z)
    (timed_out : FunFlowStep C → C → W → bool) (group_exn : Exn → Exn)
    (input : FunFlowInput C) (dag : FunFlowDag C) (state : option RuntimeState)
    (schedules : list (list PoolEvent)) (w w' : W) (receipt : FunFlowRunReceipt) :
  coerce_projection input = Ok dag →
  run resume perf_counter_ns timed_out group_exn input state schedules w
    = Some (w', Ok receipt) →
  rr_trace receipt ≡ₚ dkeys (pending_of dag) ∧
  dependency_order (pending_of dag) (rr_trace receipt) ∧
  sr_name <$> rr_steps receipt = rr_trace receipt ∧
  rr_status receipt = "passed".
Proof.
  intros Hd H. destruct (run_returns _ _ _ _ _ _ _ _ _ _ _ Hd H) as (l & Hl & Hp & -> & -> & ->).
  destruct Hl as [_ _ _ Hperm Hrec Hord]. rewrite Hp in Hperm. rewrite app_nil_r in Hperm.
  done.
Qed.

(** C25. If no action suspends for ever, every run of a valid pipeline ends; it
    returns only if the needs of the steps have no cycle, and it raises only
    because they have one or because a step failed. *)
Theorem funflow_completes_unless_cyclic {W C : Type}
    (resume : C → W → W * (C + result Exn StepPatch)) (perf_counter_ns : W → Z)
    (timed_out : FunFlowStep C → C → W → bool) (group_exn : Exn → Exn)
    (input : FunFlowInput C) (dag : FunFlowDag C) (state : option RuntimeState) :
  well_founded (suspends resume) →
  coerce_projection input = Ok dag → validate_dag (pending_of dag) = Ok () →
  (∀ w, ∃ schedules o,
     run resume perf_counter_ns timed_out group_exn input state schedules w = Some o) ∧
  (∀ schedules w w' r,
     run resume perf_counter_ns timed_out group_exn input state schedules w = Some (w', r) →
     match r with
     | Ok _ => well_founded (needed_by (pending_of dag))
     | Raise e =>
         (e = FunFlowRuntimeError "FunFlow DAG has unresolved dependencies" ∧
          ¬ well_founded (needed_by (pending_of dag))) ∨
         ∃ n step e', dget n (pending_of dag) = Some step ∧ step_error step e' ∧ e = group_exn e'
     end).
Proof.
  intros Hwf Hd Hv. split.
  - intros w. unfold run. rewrite Hd. simpl. rewrite Hv. simpl.
    destruct (run_waves_total resume perf_counter_ns timed_out group_exn (pending_of dag)
      (MkLoop (pending_of dag) [] (default [] state) [] [] 0) w Hwf (initial_loop_inv dag _)
      (pending_names dag)) as (schedules & [w' [l|e]] & Hrun);
      exists schedules; rewrite Hrun; by eexists.
  - intros schedules w w' r H. unfold run in H. rewrite Hd in H. simpl in H.
    rewrite Hv in H. simpl in H.
    destruct (run_waves _ _ _ _ _ _ _) as [[w1 r1]|] eqn:E; [|done].
    apply (run_waves_inv resume perf_counter_ns timed_out group_exn (pending_of dag)) in E;
      [|apply initial_loop_inv|apply pending_names].
    destruct r1 as [l|e]; simplify_eq.
    + destruct E as [Hl Hp]. apply (order_well_founded _ (rl_trace l)); [|apply Hl].
      intros n Hn. rewrite <-(li_perm _ _ Hl), Hp in Hn. simpl in Hn. by rewrite app_nil_r in Hn.
    + destruct E as [[-> (l & Hl & Hne & Hr)]|E]; [left|by right].
      split; [done|]. intros Hacyclic. apply validate_dag_Ok in Hv as [_ Hv].
      by apply (acyclic_ready _ _ Hl Hacyclic Hv Hne).
Qed.

(** Without a shared world a run that returns for one order in which the
    event loop resumes the steps of its waves returns the same receipt for
    every other order. *)
Theorem funflow_schedules_agree {C : Type} (resume : C → unit → unit * (C + result Exn StepPatch))
    (perf_counter_ns : unit → Z) (timed_out : FunFlowStep C → C → unit → bool)
    (group_exn : Exn → Exn) (input : FunFlowInput C) (state : option RuntimeState)
    (s1 s2 : list (list PoolEvent)) (receipt : FunFlowRunReceipt) (r : result Exn FunFlowRunReceipt) :
  run resume perf_counter_ns timed_out group_exn input state s1 () = Some ((), Ok receipt) →
  run resume perf_counter_ns timed_out group_exn input state s2 () = Some ((), r) →
  r = Ok receipt.
Proof.
  intros H1 H2. unfold run in *. destruct (_ ≫= _) as [pending|e]; [|done].
  destruct (run_waves _ _ _ _ s1 _ _) as [[[] [l|e]]|] eqn:E1; simplify_eq.
  destruct (run_waves _ _ _ _ s2 _ _) as [[[] r2]|] eqn:E2; [|done].
  pose proof (run_waves_agree _ _ _ _ _ _ _ _ _ E1 E2) as ->. by simplify_eq.
Qed.

(** ** Witnesses *)

Module FunFlowDemo.
(** Actions that suspend a number of times, then return a patch. *)
Definition resume {W} (c : nat * StepPatch) (w : W) : W * (nat * StepPatch + result Exn StepPatch) :=
  match c with
  | (0%nat, p) => (w, inr (Ok p))
  | (S n, p) => (w, inl (n, p))
  end.
Lemma resume_wf {W} : well_founded (suspends (W:=W) resume).
Proof.
  intros [n p]. induction n as [|n IH]; constructor; intros c (w & w' & H); simpl in H; simplify_eq.
  done.
Qed.
Definition step (name : string) (suspensions : nat) (needs : list string) :
    FunFlowStep (nat * StepPatch) :=
  Step name (λ _, (suspensions, Patch [(name, VInt 1)])) needs (Sandbox "default" None []).
Definition diamond : FunFlowDag (nat * StepPatch) :=
  Dag "diamond"
    [step "join" 0 ["left"; "right"]; step "left" 1 ["top"]; step "right" 0 ["top"];
     step "top" 0 []].
Definition clock (_ : unit) : Z := 0.
Definition timed_out (_ : FunFlowStep (nat * StepPatch)) (_ : nat * StepPatch) (_ : unit) : bool :=
  false.
(** The steps of the second wave, in both orders. *)
Definition schedule_1 : list (list PoolEvent) :=
  [[Resume 0]; [Resume 0; Resume 1; Resume 0]; [Resume 0]].
Definition schedule_2 : list (list PoolEvent) :=
  [[Resume 0]; [Resume 1; Resume 0; Resume 0]; [Resume 0]].
Definition run_with (s : list (list PoolEvent)) : option (unit * result Exn FunFlowRunReceipt) :=
  run resume clock timed_out id (InDag diamond) None s ().
Definition receipt : FunFlowRunReceipt :=
  Eval vm_compute in
    match run_with schedule_1 with
    | Some (_, Ok r) => r
    | _ => RunReceipt "failed" 0 [] [] [] 0
    end.
End FunFlowDemo.

Lemma funflow_runs_in_dependency_order_witness :
  FunFlowDemo.run_with FunFlowDemo.schedule_1 = Some ((), Ok FunFlowDemo.receipt) ∧
  rr_trace FunFlowDemo.receipt = ["top"; "left"; "right"; "join"] ∧
  dependency_order (pending_of FunFlowDemo.diamond) (rr_trace FunFlowDemo.receipt).
Proof.
  split; [vm_compute; reflexivity|]. split; [vm_compute; reflexivity|].
  apply (funflow_runs_in_dependency_order FunFlowDemo.resume FunFlowDemo.clock
           FunFlowDemo.timed_out id (InDag FunFlowDemo.diamond) FunFlowDemo.diamond None
           FunFlowDemo.schedule_1 () ()); vm_compute; reflexivity.
Defined.

Lemma funflow_completes_unless_cyclic_witness :
  ∃ schedules o,
    run FunFlowDemo.resume FunFlowDemo.clock FunFlowDemo.timed_out id
      (InDag FunFlowDemo.diamond) None schedules () = Some o.
Proof.
  refine (proj1 (funflow_completes_unless_cyclic FunFlowDemo.resume FunFlowDemo.clock
           FunFlowDemo.timed_out id (InDag FunFlowDemo.diamond) FunFlowDemo.diamond None
           FunFlowDemo.resume_wf _ _) ()); vm_compute; reflexivity.
Defined.

Lemma funflow_schedules_agree_witness :
  FunFlowDemo.run_with FunFlowDemo.schedule_1 = Some ((), Ok FunFlowDemo.receipt) ∧
  ∀ r, FunFlowDemo.run_with FunFlowDemo.schedule_2 = Some ((), r) → r = Ok FunFlowDemo.receipt.
Proof.
  split; [vm_compute; reflexivity|]. intros r.
  apply (funflow_schedules_agree FunFlowDemo.resume FunFlowDemo.clock FunFlowDemo.timed_out id
           (InDag FunFlowDemo.diamond) None FunFlowDemo.schedule_1 FunFlowDemo.schedule_2).
  vm_compute; reflexivity.
Defined.
