(* ===== verification/SchemeDatum.v ===== *)
(** * Scheme data ([_scheme_datum.py])

    The recursive-descent parser of the rows the Scheme control plane prints,
    and the writer.  The parser keeps an index into its source; here a function
    takes the source from that index on and answers the rest.  [_datum] and
    [_list] recurse on fuel, [None] when it runs out; [parser_parse] gives them
    twice the length of the source, which [scheme_parser_total] shows is enough
    for every source.  Text is UTF-8; digits are ASCII.  Python's limits on the
    depth of recursion and on the digits of an [int] are not modelled. *)

From Stdlib Require Import Ascii.
From S2P Require Import Prelude PyDict GraphTypes Receipts Text.

Definition dq : ascii := chr 34.
Definition bs : ascii := chr 92.
Definition nl : ascii := chr 10.
Definition TypeError (msg : string) : Exn := PyError "TypeError" msg.

(** ** The writer *)

Definition escape_scheme_string (value : string) : string :=
  replace_char nl (String bs "n")
    (replace_char dq (String bs (String dq ""))
       (replace_char bs (String bs (String bs "")) value)).

(** [type(value).__name__]. *)
Definition type_name (v : Value) : string :=
  match v with
  | VNone => "NoneType" | VBool _ => "bool" | VInt _ => "int" | VStr _ => "str"
  | VBytes _ => "bytes" | VList _ => "list" | VTuple _ => "tuple" | VDict _ => "dict"
  | VObj cls _ => cls
  end.

Fixpoint write_scheme_datum (v : Value) : result Exn string :=
  let write_items := fix write_items (l : list Value) : result Exn (list string) :=
    match l with
    | [] => Ok []
    | item :: l => text ← write_scheme_datum item; texts ← write_items l; Ok (text :: texts)
    end in
  match v with
  | VBool true => Ok "#t"
  | VBool false => Ok "#f"
  | VInt z => Ok (str_of_Z z)
  | VStr s => Ok (String dq (escape_scheme_string s +:+ String dq ""))
  | VTuple l | VList l => texts ← write_items l; Ok ("(" +:+ str_join " " texts +:+ ")")
  | _ => Raise (TypeError ("unsupported Scheme datum value: " +:+ type_name v))
  end.

(** ** The parser *)

Fixpoint skip_space (skip : nat) (s : string) : string :=
  match s with
  | EmptyString => ""
  | String _ s' =>
      match skip with
      | S n => skip_space n s'
      | O => match white_prefix s with O => s | S n => skip_space n s' end
      end
  end.

Definition peek (s : string) : result Exn ascii :=
  match s with
  | EmptyString => Raise (ValueError "unexpected end of Scheme load projection")
  | String c _ => Ok c
  end.
Definition peek_next (s : string) : option ascii :=
  match s with String _ (String c _) => Some c | _ => None end.

Definition consume (expected : ascii) (s : string) : result Exn string :=
  c ← peek s;
  if Ascii.eqb c expected then Ok (sdrop 1 s)
  else Raise (ValueError ("expected Scheme token: " +:+ String expected "")).

Definition starts_white (s : string) : bool := negb (white_prefix s =? 0)%nat.

Definition dot_token (s : string) : bool :=
  match s with
  | String c s' =>
      Ascii.eqb c "."%char &&
      (bool_decide (s' = "") || starts_white s' ||
       match s' with String d _ => Ascii.eqb d ")"%char | EmptyString => false end)
  | EmptyString => false
  end.

(** [_string] after its opening quote. *)
Fixpoint string_chars (s : string) : result Exn (string * string) :=
  match s with
  | EmptyString => Raise (ValueError "unterminated Scheme string")
  | String c s' =>
      if Ascii.eqb c dq then Ok ("", s')
      else if Ascii.eqb c bs then
        match s' with
        | EmptyString => Raise (ValueError "unterminated Scheme string escape")
        | String e s'' =>
            '(chars, rest) ← string_chars s'';
            Ok (String (if Ascii.eqb e "n"%char then nl else e) chars, rest)
        end
      else '(chars, rest) ← string_chars s'; Ok (String c chars, rest)
  end.

Definition parse_string (s : string) : result Exn (string * string) :=
  rest ← consume dq s; string_chars rest.

(** The token an atom consists of. *)
Definition ends_atom (s : string) : bool :=
  match s with
  | EmptyString => true
  | String c _ => starts_white s || Ascii.eqb c "("%char || Ascii.eqb c ")"%char
  end.
Fixpoint atom_token (s : string) : string * string :=
  match s with
  | EmptyString => ("", "")
  | String c s' =>
      if ends_atom s then ("", s) else let '(token, rest) := atom_token s' in (String c token, rest)
  end.

(** [token.lstrip("+-")]. *)
Fixpoint lstrip_signs (s : string) : string :=
  match s with
  | String c s' => if Ascii.eqb c "+"%char || Ascii.eqb c "-"%char then lstrip_signs s' else s
  | EmptyString => ""
  end.
Definition isdigit (s : string) : bool := negb (bool_decide (s = "")) && sforall is_digit s.

Definition atom_value (token : string) : result Exn Value :=
  if bool_decide (token = "#t") then Ok (VBool true)
  else if bool_decide (token = "#f") then Ok (VBool false)
  else if isdigit (lstrip_signs token)
  then VInt <$> of_option (ValueError ("invalid literal for int() with base 10: "
                                         +:+ repr_str token)) (int10 token)
  else Ok (VStr token).

Definition parse_atom (s : string) : result Exn (Value * string) :=
  let '(token, rest) := atom_token s in
  if bool_decide (token = "") then Raise (ValueError "expected Scheme datum")
  else v ← atom_value token; Ok (v, rest).

(** [for item in reversed(items): result = (item, result)]. *)
Definition dotted (items : list Value) (cdr : Value) : Value :=
  foldr (λ item result, VTuple [item; result]) cdr items.

Fixpoint datum (fuel : nat) (s : string) : option (result Exn (Value * string)) :=
  match fuel with
  | O => None
  | S fuel =>
      let s := skip_space 0 s in
      match peek s with
      | Raise e => Some (Raise e)
      | Ok c =>
          if Ascii.eqb c "("%char then list_items fuel [] (sdrop 1 s)
          else if Ascii.eqb c dq then
            Some ('(chars, rest) ← parse_string s; Ok (VStr chars, rest))
          else if Ascii.eqb c "#"%char && bool_decide (peek_next s = Some "("%char)
          then list_items fuel [] (sdrop 2 s)
          else Some (parse_atom s)
      end
  end
(** The loop of [_list], after the opening parenthesis. *)
with list_items (fuel : nat) (items : list Value) (s : string) :
    option (result Exn (Value * string)) :=
  match fuel with
  | O => None
  | S fuel =>
      let s := skip_space 0 s in
      match peek s with
      | Raise e => Some (Raise e)
      | Ok c =>
          if Ascii.eqb c ")"%char then Some (Ok (VTuple items, sdrop 1 s))
          else if dot_token s then
            match items with
            | [] => Some (Raise (ValueError "dotted Scheme pair is missing head"))
            | _ =>
                match datum fuel (sdrop 1 s) with
                | None => None
                | Some (Raise e) => Some (Raise e)
                | Some (Ok (cdr, rest)) =>
                    Some (rest ← consume ")"%char (skip_space 0 rest); Ok (dotted items cdr, rest))
                end
            end
          else
            match datum fuel s with
            | None => None
            | Some (Raise e) => Some (Raise e)
            | Some (Ok (item, rest)) => list_items fuel (items ++ [item]) rest
            end
      end
  end.

(** [_SchemeDatumParser.parse]. *)
Definition parser_parse (source : string) : option (result Exn Value) :=
  match datum (2 * String.length source + 1) source with
  | None => None
  | Some r =>
      Some ('(v, rest) ← r;
            if bool_decide (skip_space 0 rest = "") then Ok v
            else Raise (ValueError "unexpected trailing data in Scheme load projection"))
  end.

Definition parse_scheme_datum (source : string) : option (result Exn Value) :=
  (λ r, v ← r;
        match v with
        | VTuple _ => Ok v
        | _ => Raise (ValueError "Scheme load projection did not return a row sequence")
        end) <$> parser_parse source.

(** ** Progress of the parser *)

Lemma skip_space_length skip s : (String.length (skip_space skip s) ≤ String.length s)%nat.
Proof.
  revert skip; induction s as [|c s IH]; intros skip; [done|]. cbn [skip_space].
  destruct skip as [|n]; [destruct (white_prefix (String c s)) as [|n]; [done|]|];
    etrans; [apply IH| |apply IH|]; simpl; lia.
Qed.

Lemma sdrop_length n s : (String.length (sdrop n s) = String.length s - n)%nat.
Proof. revert s; induction n as [|n IH]; intros [|c s]; simpl; [done..|]. apply IH. Qed.

Lemma peek_Ok s c : peek s = Ok c ↔ ∃ s', s = String c s'.
Proof. destruct s; naive_solver. Qed.

Lemma consume_length c s s' : consume c s = Ok s' → (String.length s' < String.length s)%nat.
Proof.
  unfold consume. destruct s as [|d s]; [done|]. simpl. destruct (Ascii.eqb d c); [|done].
  intros [= <-]. simpl. destruct s; simpl; lia.
Qed.

Lemma string_chars_length s chars rest :
  string_chars s = Ok (chars, rest) → (String.length rest < String.length s)%nat.
Proof.
  remember (String.length s) as n eqn:Hn. revert s Hn chars rest.
  induction n as [n IH] using lt_wf_ind. intros [|c s] -> chars rest H; [done|].
  cbn [string_chars] in H. destruct (Ascii.eqb c dq); [injection H as <- <-; simpl; lia|].
  destruct (Ascii.eqb c bs).
  - destruct s as [|e s]; [done|]. inv_result. destruct x as [cs r]. injection H0 as <- <-.
    apply (IH (String.length s)) in H; [simpl; lia|simpl; lia|done].
  - inv_result. destruct x as [cs r]. injection H0 as <- <-.
    apply (IH (String.length s)) in H; [simpl; lia|simpl; lia|done].
Qed.

Lemma atom_token_length s :
  (String.length (atom_token s).1 + String.length (atom_token s).2 = String.length s)%nat.
Proof.
  induction s as [|c s IH]; [done|]. cbn [atom_token]. destruct (ends_atom _); [done|].
  destruct (atom_token s) as [token rest]. simpl in *. lia.
Qed.

Lemma parse_atom_length s v rest :
  parse_atom s = Ok (v, rest) → (String.length rest < String.length s)%nat.
Proof.
  unfold parse_atom. pose proof (atom_token_length s) as Hl.
  destruct (atom_token s) as [token r]. simpl in Hl. destruct token as [|c token]; [done|].
  simpl. intros H. inv_result. simpl in Hl. lia.
Qed.

(** What is read is removed from the source. *)
Lemma parser_consumes fuel :
  (∀ s v rest, datum fuel s = Some (Ok (v, rest)) → (String.length rest < String.length s)%nat) ∧
  (∀ items s v rest, list_items fuel items s = Some (Ok (v, rest)) →
     (String.length rest < String.length s)%nat).
Proof.
  induction fuel as [|fuel [IHd IHl]]; [done|]. split.
  - intros s v rest H. cbn [datum] in H. pose proof (skip_space_length 0 s) as Hs.
    destruct (skip_space 0 s) as [|c s1] eqn:E; [done|]. simpl peek in H. cbv iota in H.
    destruct (Ascii.eqb c "("%char); [|destruct (Ascii.eqb c dq); [|destruct (_ && _)]].
    + apply IHl in H. simpl in *. destruct s1; simpl in *; lia.
    + injection H as H. inv_result. destruct x as [chars r]. injection H0 as <- <-.
      unfold parse_string in H. inv_result. apply string_chars_length in H0.
      apply consume_length in H. simpl in *. lia.
    + apply IHl in H. rewrite sdrop_length in H. simpl in *. lia.
    + injection H as H. apply parse_atom_length in H. simpl in *. lia.
  - intros items s v rest H. cbn [list_items] in H. pose proof (skip_space_length 0 s) as Hs.
    destruct (skip_space 0 s) as [|c s1] eqn:E; [done|]. simpl peek in H. cbv iota in H.
    destruct (Ascii.eqb c ")"%char); [|destruct (dot_token _)].
    + injection H as <- <-. simpl in *. destruct s1; simpl in *; lia.
    + destruct items; [done|]. destruct (datum fuel _) as [[[cdr r]|e]|] eqn:Ed; [|done|done].
      injection H as H. inv_result. apply IHd in Ed. apply consume_length in H.
      pose proof (skip_space_length 0 r). simpl in *. destruct s1; simpl in *; lia.
    + destruct (datum fuel _) as [[[item r]|e]|] eqn:Ed; [|done|done].
      apply IHd in Ed. apply IHl in H. simpl in *. lia.
Qed.

(** Twice the length of the source is enough fuel. *)
Lemma parser_total fuel :
  (∀ s, (2 * String.length s + 1 ≤ fuel)%nat → datum fuel s ≠ None) ∧
  (∀ items s, (2 * String.length s + 2 ≤ fuel)%nat → list_items fuel items s ≠ None).
Proof.
  induction fuel as [|fuel [IHd IHl]]; [split; intros; lia|]. split.
  - intros s Hf. cbn [datum]. pose proof (skip_space_length 0 s) as Hs.
    destruct (skip_space 0 s) as [|c s1] eqn:E; [done|]. simpl peek. cbv iota.
    destruct (Ascii.eqb c "("%char); [|destruct (Ascii.eqb c dq); [done|destruct (_ && _); [|done]]];
      apply IHl; rewrite sdrop_length; simpl in *; lia.
  - intros items s Hf. cbn [list_items]. pose proof (skip_space_length 0 s) as Hs.
    destruct (skip_space 0 s) as [|c s1] eqn:E; [done|]. simpl peek. cbv iota.
    destruct (Ascii.eqb c ")"%char); [done|]. destruct (dot_token _).
    + destruct items; [done|].
      destruct (datum fuel (sdrop 1 (String c s1))) as [[[cdr r]|e]|] eqn:Ed; [done|done|].
      exfalso. revert Ed. apply IHd. rewrite sdrop_length. simpl in *. lia.
    + destruct (datum fuel (String c s1)) as [[[item r]|e]|] eqn:Ed; [|done|].
      * apply IHl. apply (proj1 (parser_consumes fuel)) in Ed. simpl in *. lia.
      * exfalso. revert Ed. apply IHd. simpl in *. lia.
Qed.

(** Every exception of the parser is a [ValueError]. *)
Definition value_error {A} (r : result Exn A) : Prop :=
  ∀ e, r = Raise e → ∃ msg, e = ValueError msg.

Lemma value_error_bind {A B} (m : result Exn A) (f : A → result Exn B) :
  value_error m → (∀ a, value_error (f a)) → value_error (m ≫= f).
Proof. intros Hm Hf e [->|(a & -> & H)]%bind_Raise; [by apply Hm|by eapply Hf]. Qed.
Lemma value_error_Ok {A} (a : A) : value_error (Ok a).
Proof. by intros e. Qed.
Lemma value_error_Raise {A} msg : value_error (A:=A) (Raise (ValueError msg)).
Proof. intros e [= <-]. by eexists. Qed.
#[local] Hint Resolve value_error_Ok value_error_Raise : core.

Lemma peek_error s : value_error (peek s).
Proof. destruct s; simpl; auto. Qed.

Lemma consume_error c s : value_error (consume c s).
Proof.
  apply value_error_bind; [apply peek_error|]. intros d. destruct (Ascii.eqb d c); auto.
Qed.

Lemma string_chars_error s : value_error (string_chars s).
Proof.
  remember (String.length s) as n eqn:Hn. revert s Hn.
  induction n as [n IH] using lt_wf_ind. intros [|c s] ->; cbn [string_chars]; [auto|].
  destruct (Ascii.eqb c dq); [auto|].
  destruct (Ascii.eqb c bs); [destruct s as [|e s]; [auto|]|];
    (apply value_error_bind; [eapply IH; [|done]; simpl; lia|intros [??]; auto]).
Qed.

Lemma parse_atom_error s : value_error (parse_atom s).
Proof.
  unfold parse_atom. destruct (atom_token s) as [token rest]. case_bool_decide; [auto|].
  apply value_error_bind; [|auto]. unfold atom_value.
  repeat case_bool_decide; auto. destruct (isdigit _); [|auto].
  destruct (int10 token); simpl; auto.
Qed.

Lemma parser_errors_fuel fuel :
  (∀ s r, datum fuel s = Some r → value_error r) ∧
  (∀ items s r, list_items fuel items s = Some r → value_error r).
Proof.
  induction fuel as [|fuel [IHd IHl]]; [done|]. split.
  - intros s r H. cbn [datum] in H.
    destruct (peek _) as [c|e] eqn:Ep; [|simplify_eq; intros ? [= <-]; by eapply peek_error].
    destruct (Ascii.eqb c "("%char); [|destruct (Ascii.eqb c dq); [|destruct (_ && _)]].
    + by eapply IHl.
    + injection H as <-. apply value_error_bind; [|intros [??]; auto].
      apply value_error_bind; [apply consume_error|apply string_chars_error].
    + by eapply IHl.
    + injection H as <-. apply parse_atom_error.
  - intros items s r H. cbn [list_items] in H.
    destruct (peek _) as [c|e] eqn:Ep; [|simplify_eq; intros ? [= <-]; by eapply peek_error].
    destruct (Ascii.eqb c ")"%char); [simplify_eq; auto|]. destruct (dot_token _).
    + destruct items; [simplify_eq; auto|].
      destruct (datum fuel _) as [[[cdr rest]|e]|] eqn:Ed; [| |done]; simplify_eq.
      * apply value_error_bind; [apply consume_error|auto].
      * intros ? [= <-]. by eapply IHd.
    + destruct (datum fuel _) as [[[item rest]|e]|] eqn:Ed; [by eapply IHl| |done].
      simplify_eq. intros ? [= <-]. by eapply IHd.
Qed.

Lemma parser_errors fuel s e : datum fuel s = Some (Raise e) → ∃ msg, e = ValueError msg.
Proof. intros H. by eapply (proj1 (parser_errors_fuel fuel)). Qed.

(** ** What the writer writes *)

(** Lists and tuples are one thing in the text. *)
Fixpoint datum_norm (v : Value) : Value :=
  match v with
  | VTuple l | VList l => VTuple (datum_norm <$> l)
  | v => v
  end.

Section value_ind.
Variable P : Value → Prop.
Hypothesis (HN : P VNone) (HB : ∀ b, P (VBool b)) (HI : ∀ z, P (VInt z)) (HS : ∀ s, P (VStr s)).
Hypothesis (HY : ∀ s, P (VBytes s)) (HD : ∀ d, P (VDict d)) (HO : ∀ c f, P (VObj c f)).
Hypothesis (HL : ∀ l, Forall P l → P (VList l)) (HT : ∀ l, Forall P l → P (VTuple l)).

Fixpoint datum_ind (v : Value) : P v :=
  let go := fix go (l : list Value) : Forall P l :=
    match l with [] => Forall_nil_2 P | x :: l => Forall_cons_2 P x l (datum_ind x) (go l) end in
  match v with
  | VNone => HN | VBool b => HB b | VInt z => HI z | VStr s => HS s | VBytes s => HY s
  | VList l => HL l (go l) | VTuple l => HT l (go l) | VDict d => HD d | VObj c f => HO c f
  end.
End value_ind.

Definition write_items : list Value → result Exn (list string) := mapM write_scheme_datum.

Lemma write_list l :
  write_scheme_datum (VTuple l) = (texts ← write_items l; Ok ("(" +:+ str_join " " texts +:+ ")")) ∧
  write_scheme_datum (VList l) = (texts ← write_items l; Ok ("(" +:+ str_join " " texts +:+ ")")).
Proof.
  assert ((fix write_items (l : list Value) : result Exn (list string) :=
    match l with
    | [] => Ok []
    | item :: l => text ← write_scheme_datum item; texts ← write_items l; Ok (text :: texts)
    end) l = write_items l) as E; [|cbn [write_scheme_datum]; by rewrite E].
  induction l as [|v l IH]; [done|]. unfold write_items in *. simpl. by rewrite IH.
Qed.

(** [escape_scheme_string] escapes character by character. *)
Definition escape_char (c : ascii) : string :=
  if Ascii.eqb c bs then String bs (String bs "")
  else if Ascii.eqb c dq then String bs (String dq "")
  else if Ascii.eqb c nl then String bs "n"
  else String c "".

Lemma replace_char_app old new s1 s2 :
  replace_char old new (s1 +:+ s2) = replace_char old new s1 +:+ replace_char old new s2.
Proof.
  induction s1 as [|c s1 IH]; [done|]. rewrite sapp_cons. cbn [replace_char].
  by rewrite IH, sapp_assoc.
Qed.

Lemma escape_cons c s :
  escape_scheme_string (String c s) = escape_char c +:+ escape_scheme_string s.
Proof.
  unfold escape_scheme_string. cbn [replace_char]. rewrite !replace_char_app. f_equal.
  clear. destruct c as [[] [] [] [] [] [] [] []]; reflexivity.
Qed.

Lemma string_chars_escape s rest :
  string_chars (escape_scheme_string s +:+ String dq rest) = Ok (s, rest).
Proof.
  induction s as [|c s IH]; [done|]. rewrite escape_cons, sapp_assoc. unfold escape_char.
  destruct (Ascii.eqb_spec c bs) as [->|Hb]; [|destruct (Ascii.eqb_spec c dq) as [->|Hd];
    [|destruct (Ascii.eqb_spec c nl) as [->|Hn]]];
    rewrite ?sapp_cons, ?sapp_nil_l; cbn [string_chars].
  - change (Ascii.eqb bs dq) with false. change (Ascii.eqb bs bs) with true. cbv iota.
    rewrite IH. done.
  - change (Ascii.eqb bs dq) with false. change (Ascii.eqb bs bs) with true. cbv iota.
    rewrite IH. done.
  - change (Ascii.eqb bs dq) with false. change (Ascii.eqb bs bs) with true. cbv iota.
    rewrite IH. done.
  - apply Ascii.eqb_neq in Hb, Hd. rewrite Hd, Hb, IH. done.
Qed.

(** ** The parser reads what the writer wrote *)

Definition datum_start (c : ascii) : bool :=
  is_digit c || existsb (Ascii.eqb c) [dq; "("%char; "#"%char; "-"%char].
Definition atom_char (c : ascii) : bool :=
  is_digit c || existsb (Ascii.eqb c) ["#"%char; "t"%char; "f"%char; "-"%char].

Lemma datum_start_facts c s :
  datum_start c = true →
  white_prefix (String c s) = 0%nat ∧ Ascii.eqb c ")"%char = false ∧ Ascii.eqb c "."%char = false.
Proof. destruct c as [[] [] [] [] [] [] [] []]; intros H; try discriminate H; done. Qed.

Lemma atom_char_facts c s :
  atom_char c = true →
  ends_atom (String c s) = false ∧ Ascii.eqb c "("%char = false ∧ Ascii.eqb c dq = false.
Proof. destruct c as [[] [] [] [] [] [] [] []]; intros H; try discriminate H; done. Qed.

Lemma skip_space_start c s : datum_start c = true → skip_space 0 (String c s) = String c s.
Proof. intros H. cbn [skip_space]. by destruct (datum_start_facts c s H) as [-> _]. Qed.

Lemma atom_token_app token rest :
  sforall atom_char token = true → ends_atom rest = true →
  atom_token (token +:+ rest) = (token, rest).
Proof.
  intros Ht Hr. induction token as [|c token IH].
  - rewrite sapp_nil_l. destruct rest as [|c rest]; [done|]. cbn [atom_token]. by rewrite Hr.
  - apply sforall_cons in Ht as [Hc Ht]. rewrite sapp_cons. cbn [atom_token].
    destruct (atom_char_facts c (token +:+ rest) Hc) as [-> _]. by rewrite (IH Ht).
Qed.

(** An atom of the writer followed by a delimiter. *)
Lemma datum_atom fuel c token v rest :
  datum_start c = true → sforall atom_char (String c token) = true → ends_atom rest = true →
  (c = "#"%char → ∃ d token', token = String d token' ∧ d ≠ "("%char) →
  atom_value (String c token) = Ok v →
  datum (S fuel) (String c token +:+ rest) = Some (Ok (v, rest)).
Proof.
  intros Hs Ht Hr Hhash Hv. cbn [datum]. rewrite sapp_cons, skip_space_start by done.
  simpl peek. cbv iota. pose proof Ht as [Hc _]%sforall_cons.
  destruct (atom_char_facts c "" Hc) as (_ & -> & ->).
  assert ((Ascii.eqb c "#"%char && bool_decide (peek_next (String c (token +:+ rest)) = Some "("%char))
            = false) as ->.
  { destruct (Ascii.eqb_spec c "#"%char) as [->|]; [|done].
    destruct (Hhash eq_refl) as (d & token' & -> & Hd). rewrite sapp_cons. simpl.
    apply bool_decide_eq_false_2. by intros [= ->]. }
  rewrite <-sapp_cons. unfold parse_atom. rewrite atom_token_app by done. simpl.
  by rewrite Hv.
Qed.

Lemma str_of_Z_atom z :
  ∃ c token, str_of_Z z = String c token ∧ datum_start c = true ∧ c ≠ "#"%char ∧
    sforall atom_char (String c token) = true ∧ atom_value (String c token) = Ok (VInt z).
Proof.
  assert (∀ s, sforall is_digit s = true → sforall atom_char s = true) as Hatom.
  { intros s. induction s as [|c s IH]; [done|]. intros [Hc Hs]%sforall_cons. apply sforall_cons.
    split; [|by apply IH]. unfold atom_char. by rewrite Hc. }
  assert (∀ p, ∃ c token, str_of_Z (Zpos p) = String c token ∧ is_digit c = true ∧
            sforall is_digit (String c token) = true) as Hpos.
  { intros p. pose proof (str_of_pos_digits p) as Hd.
    destruct (digits_head (str_of_Z (Zpos p))) as (c & token & E & Hc); [|done|].
    - intros E. pose proof (digits_of_pos p) as H. by rewrite E in H.
    - exists c, token. by rewrite E in Hd. }
  assert (∀ s, sforall is_digit s = true → lstrip_signs s = s) as Hstrip.
  { intros [|c s]; [done|]. intros [Hc _]%sforall_cons.
    revert Hc. destruct c as [[] [] [] [] [] [] [] []]; intros Hc; solve [done|discriminate Hc]. }
  assert (∀ s z, s ≠ "#t" → s ≠ "#f" → isdigit (lstrip_signs s) = true → int10 s = Some z →
            atom_value s = Ok (VInt z)) as Hvalue.
  { intros s z' H1 H2 H3 H4. unfold atom_value.
    rewrite !bool_decide_eq_false_2 by done. rewrite H3, H4. done. }
  pose proof (int10_str_of_Z z) as Hz.
  destruct z as [|p|p].
  - exists "0"%char, "". split_and!; try done.
  - destruct (Hpos p) as (c & token & E & Hc & Hd). exists c, token. rewrite E in Hz.
    split_and!; [done|unfold datum_start; by rewrite Hc|intros ->; done|by apply Hatom|].
    apply Hvalue; [| | |done]; try (intros [= -> _]; done).
    rewrite (Hstrip _ Hd). unfold isdigit. by rewrite Hd.
  - destruct (Hpos p) as (c & token & E & Hc & Hd).
    change (str_of_Z (Zneg p)) with (String "-" (str_of_Z (Zpos p))) in *. rewrite E in *.
    exists "-"%char, (String c token).
    split_and!; [done|done|done|apply sforall_cons; split; [done|by apply Hatom]|].
    apply Hvalue; [done|done| |done]. change (lstrip_signs (String "-" (String c token)))
      with (lstrip_signs (String c token)). rewrite (Hstrip _ Hd). unfold isdigit. by rewrite Hd.
Qed.

Lemma write_starts v text :
  write_scheme_datum v = Ok text → ∃ c s, text = String c s ∧ datum_start c = true.
Proof.
  destruct v as [|[]|z|s|s|l|l|d|cls f]; intros H; try discriminate H.
  - injection H as <-. by eexists _, _.
  - injection H as <-. by eexists _, _.
  - injection H as <-. destruct (str_of_Z_atom z) as (c & token & -> & Hc & _). eauto.
  - injection H as <-. by eexists _, _.
  - rewrite (proj2 (write_list l)) in H. inv_result. by eexists _, _.
  - rewrite (proj1 (write_list l)) in H. inv_result. by eexists _, _.
Qed.

Definition reads_back (v : Value) : Prop := ∀ text rest fuel,
  write_scheme_datum v = Ok text → ends_atom rest = true →
  (2 * String.length (text +:+ rest) + 1 ≤ fuel)%nat →
  datum fuel (text +:+ rest) = Some (Ok (datum_norm v, rest)).

Lemma list_items_skip fuel items s s' :
  skip_space 0 s = skip_space 0 s' → list_items fuel items s = list_items fuel items s'.
Proof. intros H. destruct fuel as [|fuel]; [done|]. cbn [list_items]. by rewrite H. Qed.

(** One item of a list. *)
Lemma list_items_cons fuel items v text rest :
  reads_back v → write_scheme_datum v = Ok text → ends_atom rest = true →
  (2 * String.length (text +:+ rest) + 2 ≤ fuel)%nat →
  list_items fuel items (text +:+ rest) = list_items (fuel - 1) (items ++ [datum_norm v]) rest.
Proof.
  intros Hv Hw Hr Hf. destruct fuel as [|fuel]; [lia|]. cbn [list_items].
  destruct (write_starts v text Hw) as (c & s & E & Hc).
  assert (skip_space 0 (text +:+ rest) = text +:+ rest) as ->
    by (rewrite E, sapp_cons; by apply skip_space_start).
  destruct (datum_start_facts c "" Hc) as (_ & Hparen & Hdot).
  assert (peek (text +:+ rest) = Ok c) as -> by by rewrite E.
  rewrite Hparen. assert (dot_token (text +:+ rest) = false) as ->.
  { rewrite E, sapp_cons. cbn [dot_token]. by rewrite Hdot. }
  rewrite (Hv text rest fuel Hw Hr) by lia. by rewrite Nat.sub_1_r.
Qed.

Lemma list_items_close fuel items rest :
  (1 ≤ fuel)%nat → list_items fuel items (String ")" rest) = Some (Ok (VTuple items, rest)).
Proof. destruct fuel; [lia|done]. Qed.

Lemma list_items_join l texts rest : Forall reads_back l → write_items l = Ok texts →
  ∀ fuel items, (2 * String.length (str_join " " texts +:+ String ")" rest) + 2 ≤ fuel)%nat →
  list_items fuel items (str_join " " texts +:+ String ")" rest)
    = Some (Ok (VTuple (items ++ (datum_norm <$> l)), rest)).
Proof.
  intros Hl Hw. apply mapM_Ok in Hw. revert texts Hw.
  induction Hl as [|v l Hv Hl IH]; intros texts Hw fuel items Hf;
    inversion Hw as [|? text ? texts' Hvt Hw']; subst.
  - rewrite app_nil_r. rewrite slen_app in Hf. apply list_items_close. lia.
  - destruct Hw' as [|v2 t2 l texts2 Hv2 Hw2].
    + cbn [str_join] in *. rewrite list_items_cons with (v := v) by done.
      apply list_items_close. rewrite slen_app in Hf. simpl in Hf. lia.
    + change (str_join " " (text :: t2 :: texts2))
        with (text +:+ (String " " (str_join " " (t2 :: texts2)))) in *.
      rewrite sapp_assoc, sapp_cons in *. rewrite list_items_cons with (v := v) by done.
      rewrite (list_items_skip _ _ _ (str_join " " (t2 :: texts2) +:+ String ")" rest)) by done.
      rewrite (IH (t2 :: texts2)); [by rewrite <-app_assoc|by constructor|].
      rewrite slen_app in Hf. simpl in *. lia.
Qed.

Lemma parse_string_quote s : parse_string (String dq s) = string_chars s.
Proof. by destruct s. Qed.

Lemma datum_list fuel l texts rest : Forall reads_back l → write_items l = Ok texts →
  (2 * String.length (("(" +:+ str_join " " texts +:+ ")") +:+ rest) + 1 ≤ S fuel)%nat →
  datum (S fuel) (("(" +:+ str_join " " texts +:+ ")") +:+ rest)
    = Some (Ok (VTuple (datum_norm <$> l), rest)).
Proof.
  intros Hl Hw. rewrite <-sapp_assoc, !sapp_assoc, sapp_cons, sapp_nil_l, sapp_cons, sapp_nil_l.
  intros Hf. cbn [datum]. rewrite skip_space_start by done. simpl peek. cbv iota.
  change (Ascii.eqb "("%char "("%char) with true. cbv iota.
  replace (sdrop 1 (String "(" (str_join " " texts +:+ String ")" rest)))
    with (str_join " " texts +:+ String ")" rest) by (by destruct (str_join _ _ +:+ _)).
  rewrite (list_items_join l texts) by (done || (simpl in Hf; lia)). done.
Qed.

(** The parser reads what the writer wrote, up to a delimiter. *)
Lemma datum_write v : reads_back v.
Proof.
  induction v as [|b|z|s|s|d|cls f|l IH|l IH] using datum_ind; intros text rest fuel Hw Hr Hf;
    try discriminate Hw; destruct fuel as [|fuel]; try lia.
  - destruct b; injection Hw as <-; (apply datum_atom; [done..| |done]); intros _; by eexists _, _.
  - injection Hw as <-. destruct (str_of_Z_atom z) as (c & token & -> & Hs & Hc & Ha & Hv).
    by apply datum_atom.
  - injection Hw as <-. rewrite sapp_cons, sapp_assoc, sapp_cons, sapp_nil_l. cbn [datum].
    rewrite skip_space_start by done. simpl peek. cbv iota.
    change (Ascii.eqb dq "("%char) with false. change (Ascii.eqb dq dq) with true. cbv iota.
    by rewrite parse_string_quote, string_chars_escape.
  - rewrite (proj2 (write_list l)) in Hw. inv_result. by apply datum_list.
  - rewrite (proj1 (write_list l)) in Hw. inv_result. by apply datum_list.
Qed.

(** ** Theorems *)

(** On every source the parser ends, with a value or with a [ValueError]. *)
Theorem scheme_parser_total (source : string) :
  ∃ r, parser_parse source = Some r ∧ ∀ e, r = Raise e → ∃ msg, e = ValueError msg.
Proof.
  unfold parser_parse.
  destruct (datum (2 * String.length source + 1) source) as [r|] eqn:E.
  - eexists. split; [done|]. intros e H. apply bind_Raise in H as [->|([v rest] & -> & H)].
    + by eapply parser_errors.
    + case_bool_decide; inv_result. by eexists.
  - exfalso. revert E. by apply parser_total.
Qed.

(** C28. The parser reads back every value the writer can write, a list as a
    tuple; the rows of a projection survive the way through text. *)
Theorem scheme_datum_round_trip (v : Value) (text : string) :
  write_scheme_datum v = Ok text →
  parser_parse text = Some (Ok (datum_norm v)) ∧
  ((∃ l, v = VTuple l ∨ v = VList l) → parse_scheme_datum text = Some (Ok (datum_norm v))).
Proof.
  intros Hw.
  assert (parser_parse text = Some (Ok (datum_norm v))) as Hp.
  { unfold parser_parse. pose proof (datum_write v text "" _ Hw eq_refl (le_n _)) as H.
    rewrite sapp_nil_r in H. rewrite H. done. }
  split; [done|]. intros (l & Hl). unfold parse_scheme_datum. rewrite Hp. by destruct Hl as [->| ->].
Qed.

Lemma scheme_datum_round_trip_witness :
  let v := VTuple [VList [VStr "name"; VStr (String dq "a b")]; VTuple [VInt (-12); VBool true]] in
  ∃ text, write_scheme_datum v = Ok text ∧ parser_parse text = Some (Ok (datum_norm v)).
Proof.
  eexists. split; [vm_compute; reflexivity|].
  apply (proj1 (scheme_datum_round_trip
    (VTuple [VList [VStr "name"; VStr (String dq "a b")]; VTuple [VInt (-12); VBool true]]) _
    ltac:(vm_compute; reflexivity))).
Defined.
