(* ===== verification/FunFlowScheme.v ===== *)
(** * Pipelines from the Scheme control plane ([_funflow_scheme_projection.py], [_funflow_cicd.py])

    A plan is a mapping or a sequence of rows, as [SchemeDatum] parses them;
    the projection reads its node and edge tables into a pipeline of [FunFlow].
    [repr] is Python's [repr] of values that are not text, numbers, [None] or
    booleans; an instance of a class that is not a container cannot be
    iterated.  The second part is the fixture pipeline of the repository. *)

From Stdlib Require Import Ascii.
From Stdlib Require QArith.QArith_base.
From S2P Require Import Prelude PyDict GraphTypes Receipts Text SchemeDatum Anyio Batch.
From S2P Require Import FunFlow FunFlowFacts.

(** ** Rows *)

Section projection.
Context {C : Type} (repr : Value → string).
#[local] Notation text := (py_str repr).
#[local] Notation py_repr := (py_repr repr).

(** The first character of a text, of one to four bytes. *)
Definition first_character (s : string) : string :=
  match s with
  | EmptyString => ""
  | String c _ =>
      let n := nat_of_ascii c in
      String.substring 0 (if n <? 128 then 1 else if n <? 224 then 2 else if n <? 240 then 3 else 4)%nat s
  end.

(** The elements a [for] loop takes from a value. *)
Definition iterate (v : Value) : result Exn (list Value) :=
  match v with
  | VTuple l | VList l => Ok l
  | VDict d => Ok (VStr <$> dkeys d)
  | VStr s => Ok (if bool_decide (s = "") then [] else [VStr (first_character s)])
  | VBytes s => Ok ((λ c, VInt (Z.of_nat (nat_of_ascii c))) <$> String.list_ascii_of_string s)
  | _ => Raise (TypeError (repr_str (type_name v) +:+ " object is not iterable"))
  end.

(** The body of the loop of [_rows].  (It ends at the first character of a
    text, which is no row: [iterate] gives no more than that one.) *)
Definition add_row (rows : dict string Value) (row : Value) : result Exn (dict string Value) :=
  match row with
  | VTuple (key :: l) | VList (key :: l) =>
      Ok (dset (text key) (match l with [x] => x | _ => VTuple l end) rows)
  | _ => Raise (FunFlowRuntimeError ("invalid Scheme row: " +:+ py_repr row))
  end.

Definition rows_of (v : Value) : result Exn (dict string Value) :=
  match v with
  | VDict d => Ok (dict_of d)
  | _ => l ← iterate v; foldM add_row [] l
  end.

(** [_sequence]. *)
Definition sequence_of (v : Value) : result Exn (list Value) :=
  match v with
  | VNone => Ok []
  | VTuple l | VList l => Ok l
  | _ => Raise (FunFlowRuntimeError ("expected Scheme sequence, got: " +:+ py_repr v))
  end.

Definition required (rows : dict string Value) (key : string) : result Exn Value :=
  of_option (FunFlowRuntimeError ("FunFlow Scheme plan missing field: " +:+ key)) (dget key rows).

Definition required_action (actions : dict string (RuntimeState → C)) (node : string) :
    result Exn (RuntimeState → C) :=
  of_option (FunFlowRuntimeError ("FunFlow Scheme plan missing Python action binding: " +:+ node))
    (dget node actions).

Definition node_name (node : Value) : result Exn string :=
  rows ← rows_of node; name ← required rows "name"; Ok (text name).

Definition path_text (v : Value) : string :=
  match v with
  | VTuple l | VList l => str_join "/" (text <$> l)
  | _ => text v
  end.

Definition add_source (source_map : dict string string) (row : Value) :
    result Exn (dict string string) :=
  rows ← rows_of row;
  match dget "stage" rows, dget "path" rows with
  | Some stage, Some path =>
      if is_none stage || is_none path then Ok source_map
      else Ok (dset (text stage) (path_text path) source_map)
  | _, _ => Ok source_map
  end.

Definition source_map_of (v : Value) : result Exn (dict string string) :=
  l ← sequence_of v; foldM add_source [] l.

Definition origin_of (v : Value) : string :=
  let origin := text v in
  if bool_decide (origin = "use-module-funflow") then "use-module funflow"
  else if bool_decide (origin = "user-composition-funflow") then "user-composition funflow"
  else origin.

(** ** The projection *)

(** The rows of the plan itself, out of its wrapper where it has one. *)
Definition plan_rows (plan : Value) : result Exn (dict string Value) :=
  rows ← rows_of plan;
  schema ← required rows "schema";
  '(rows, schema) ← (if bool_decide (text schema = "poo-flow.funflow-plan-projection.v1")
                     then inner ← required rows "plan"; inner_rows ← rows_of inner;
                          inner_schema ← required inner_rows "schema";
                          Ok (inner_rows, inner_schema)
                     else Ok (rows, schema));
  _ ← require (bool_decide (text schema = "poo-flow.modules.funflow.plan.v1"))
        (FunFlowRuntimeError ("unsupported FunFlow Scheme plan schema: " +:+ text schema));
  contract ← required rows "runtime-contract";
  _ ← require (bool_decide (text contract = "poo-flow.anyio.v1"))
        (FunFlowRuntimeError
           "FunFlow Scheme plan requires runtime contract 'poo-flow.anyio.v1'");
  Ok rows.

Definition plan_node_names (rows : dict string Value) : result Exn (list string) :=
  nodes ← sequence_of (default (VTuple []) (dget "node-table" rows));
  mapM node_name nodes.

Definition plan_edge_rows (rows : dict string Value) : result Exn (list (dict string Value)) :=
  edges ← sequence_of (default (VTuple []) (dget "edge-table" rows));
  mapM rows_of edges.

(** The body of [for edge in edge_rows]. *)
Definition add_edge (needs_by_node : dict string (list string)) (edge : dict string Value) :
    result Exn (dict string (list string)) :=
  source ← required edge "from";
  target ← required edge "to";
  if dmem (text target) needs_by_node
  then Ok (dappend (text target) (text source) needs_by_node)
  else Raise (FunFlowRuntimeError
                ("FunFlow Scheme plan edge targets unknown node: " +:+ text target)).

Definition make_step (actions : dict string (RuntimeState → C))
    (sandboxes : dict string FunFlowSandbox) (needs_by_node : dict string (list string))
    (node : string) : result Exn (FunFlowStep C) :=
  action ← required_action actions node;
  Ok (Step node action (dget_list node needs_by_node)
        (default (Sandbox node None []) (dget node sandboxes))).

(** [funflow_projection_from_scheme_plan]. *)
Definition funflow_projection_from_scheme_plan (plan : Value)
    (actions : dict string (RuntimeState → C)) (sandboxes : option (dict string FunFlowSandbox)) :
    result Exn (FunFlowPlanProjection C) :=
  wrapper ← rows_of plan;
  rows ← plan_rows plan;
  name ← required rows "name";
  node_names ← plan_node_names rows;
  edge_rows ← plan_edge_rows rows;
  needs ← foldM add_edge (dict_of ((λ node, (node, [])) <$> node_names)) edge_rows;
  steps ← mapM (make_step actions (default [] sandboxes) needs) node_names;
  let wrapper_origin := default (VStr "use-module-funflow") (dget "origin" wrapper) in
  let wrapper_map := match dget "source-map" wrapper with
                     | Some v => if truthy v then v else VTuple []
                     | None => VTuple []
                     end in
  source_map ← source_map_of (default wrapper_map (dget "source-map" rows));
  Ok (PlanProjection (Dag (text name) steps) "poo-flow.funflow-plan-projection.v1"
        (origin_of (default wrapper_origin (dget "origin" rows))) "poo-flow.anyio.v1" source_map).
End projection.

(** ** What the projection reads *)

Section facts.
Context {C : Type} (repr : Value → string).
#[local] Notation text := (py_str repr).

(** The source of an edge into [n]. *)
Definition edge_into (n : string) (edge : dict string Value) : option string :=
  match dget "from" edge, dget "to" edge with
  | Some source, Some target => if decide (text target = n) then Some (text source) else None
  | _, _ => None
  end.

Lemma add_edges_needs edges needs needs' :
  foldM (add_edge repr) needs edges = Ok needs' →
  (∀ n, dget_list n needs' = dget_list n needs ++ omap (edge_into n) edges) ∧
  (∀ edge, edge ∈ edges → ∃ target, dget "to" edge = Some target ∧ text target ∈ dkeys needs).
Proof.
  revert needs; induction edges as [|edge edges IH]; intros needs H; cbn [foldM] in H.
  { inv_result. split; [intros n; by rewrite app_nil_r|intros e He; by apply not_elem_of_nil in He]. }
  inv_result. unfold add_edge, required in H. inv_result.
  destruct (dmem (text x1) needs) eqn:Hm; [|done]. injection H2 as <-. apply dmem_spec in Hm.
  apply IH in H0 as [Hneeds Htargets]. split.
  - intros n. rewrite Hneeds, dget_list_dappend. cbn [omap list_omap].
    unfold edge_into at 2. rewrite H, H1. destruct (decide (n = text x1)) as [->|Hne].
    + by rewrite decide_True, <-app_assoc by done.
    + by rewrite decide_False by congruence.
  - intros e [->|He]%elem_of_cons; [by exists x1|].
    destruct (Htargets e He) as (t & Ht & Hin). exists t. split; [done|].
    unfold dappend in Hin. apply elem_of_dkeys_dset in Hin as [->|?]; done.
Qed.

Lemma initial_needs (names : list string) n :
  dget_list n (dict_of ((λ node, (node, [])) <$> names) : dict string (list string)) = [].
Proof.
  unfold dget_list. destruct (dget n _) as [l|] eqn:E; [|done].
  apply dget_dict_of, list_elem_of_fmap in E as (m & [= _ ->] & _). done.
Qed.

Lemma initial_needs_keys (names : list string) n :
  n ∈ dkeys (dict_of ((λ node, (node, [])) <$> names) : dict string (list string)) → n ∈ names.
Proof.
  intros [l Hl]%dget_is_Some. apply dget_dict_of, list_elem_of_fmap in Hl as (m & [= -> _] & Hm). done.
Qed.

Lemma projection_spec plan (actions : dict string (RuntimeState → C)) sandboxes p :
  funflow_projection_from_scheme_plan repr plan actions sandboxes = Ok p →
  ∃ rows names edges,
    plan_rows repr plan = Ok rows ∧ plan_node_names repr rows = Ok names ∧
    plan_edge_rows repr rows = Ok edges ∧
    Forall2 (λ name step, step_name step = name ∧ dget name actions = Some (step_action step) ∧
        step_needs step = omap (edge_into name) edges) names (dag_steps (pp_dag p)) ∧
    (∀ edge, edge ∈ edges → ∃ target, dget "to" edge = Some target ∧ text target ∈ names) ∧
    pp_runtime_contract p = "poo-flow.anyio.v1".
Proof.
  unfold funflow_projection_from_scheme_plan. intros H. apply bind_Ok in H as (wrapper & _ & H).
  apply bind_Ok in H as (rows & Hrows & H). apply bind_Ok in H as (name & _ & H).
  apply bind_Ok in H as (names & Hnames & H). apply bind_Ok in H as (edges & Hedges & H).
  apply bind_Ok in H as (needs & Hneeds & H). apply bind_Ok in H as (steps & Hsteps & H).
  apply bind_Ok in H as (source_map & _ & H). injection H as <-. simpl.
  exists rows, names, edges. apply add_edges_needs in Hneeds as [Hneeds Htargets].
  split_and!; try done.
  - apply mapM_Ok in Hsteps. eapply Forall2_impl; [exact Hsteps|].
    intros n step Hs. unfold make_step, required_action in Hs. inv_result. simpl.
    by rewrite Hneeds, initial_needs.
  - intros edge He. destruct (Htargets edge He) as (t & Ht & Hin). exists t. split; [done|].
    by apply initial_needs_keys.
Qed.

Lemma pending_step (dag : FunFlowDag C) n step :
  dget n (pending_of dag) = Some step → step ∈ dag_steps dag ∧ step_name step = n.
Proof.
  intros H. apply dget_dict_of, list_elem_of_fmap in H as (s & [= -> ->] & Hs). done.
Qed.

Lemma pending_keys (dag : FunFlowDag C) step :
  step ∈ dag_steps dag → step_name step ∈ dkeys (pending_of dag).
Proof.
  intros H. unfold pending_of, dict_of. rewrite elem_of_dkeys_dupdate. right.
  unfold dkeys. rewrite <-list_fmap_compose. by apply list_elem_of_fmap_2.
Qed.
End facts.

(** A plan of the control plane runs as its tables say: every node of its
    node table runs exactly once, and for every edge of its edge table the
    source of the edge runs before its target. *)
Theorem scheme_edges_are_respected {W C : Type} (repr : Value → string)
    (resume : C → W → W * (C + result Exn StepPatch)) (perf_counter_ns : W → Z)
    (timed_out : FunFlowStep C → C → W → bool) (group_exn : Exn → Exn) (plan : Value)
    (actions : dict string (RuntimeState → C)) (sandboxes : option (dict string FunFlowSandbox))
    (p : FunFlowPlanProjection C) (state : option RuntimeState)
    (schedules : list (list PoolEvent)) (w w' : W) (receipt : FunFlowRunReceipt) :
  funflow_projection_from_scheme_plan repr plan actions sandboxes = Ok p →
  run resume perf_counter_ns timed_out group_exn (InProjection p) state schedules w
    = Some (w', Ok receipt) →
  ∃ rows names edges,
    plan_rows repr plan = Ok rows ∧ plan_node_names repr rows = Ok names ∧
    plan_edge_rows repr rows = Ok edges ∧
    NoDup (rr_trace receipt) ∧ (∀ n, n ∈ rr_trace receipt ↔ n ∈ names) ∧
    ∀ edge source target, edge ∈ edges → dget "from" edge = Some source →
      dget "to" edge = Some target →
      ∃ i, rr_trace receipt !! i = Some (py_str repr target) ∧
        py_str repr source ∈ take i (rr_trace receipt).
Proof.
  intros Hp Hrun. apply projection_spec in Hp as (rows & names & edges & Hr & Hn & He & Hsteps & Ht & Hc).
  assert (coerce_projection (InProjection p) = Ok (pp_dag p)) as Hd by (simpl; by rewrite Hc).
  destruct (run_returns _ _ _ _ _ _ _ _ _ _ _ Hd Hrun) as (l & Hl & Hnil & -> & _ & _).
  pose proof (li_perm _ _ Hl) as Hperm. rewrite Hnil, app_nil_r in Hperm.
  assert (∀ n, n ∈ rl_trace l ↔ n ∈ names) as Hnames.
  { intros n. rewrite Hperm. split.
    - intros [step Hs]%dget_is_Some. apply pending_step in Hs as [Hin <-].
      apply list_elem_of_lookup in Hin as [i Hi].
      destruct (Forall2_lookup_r _ _ _ _ _ Hsteps Hi) as (name & Hname & -> & _).
      by eapply list_elem_of_lookup_2.
    - intros [i Hi]%list_elem_of_lookup.
      destruct (Forall2_lookup_l _ _ _ _ _ Hsteps Hi) as (step & Hs & <- & _).
      apply pending_keys. by eapply list_elem_of_lookup_2. }
  exists rows, names, edges. split_and!; try done.
  - rewrite Hperm. apply dict_of_wf.
  - intros edge source target Hedge Hfrom Hto.
    destruct (Ht edge Hedge) as (target' & Ht' & Hin). simplify_eq.
    apply Hnames, list_elem_of_lookup in Hin as [i Hi]. exists i. split; [done|].
    apply (li_order _ _ Hl i _ _ Hi).
    assert (py_str repr target ∈ dkeys (pending_of (pp_dag p))) as [step Hs]%dget_is_Some
      by (rewrite <-Hperm; by eapply list_elem_of_lookup_2).
    exists step. split; [done|]. apply pending_step in Hs as [Hin Hname].
    apply list_elem_of_lookup in Hin as [j Hj].
    destruct (Forall2_lookup_r _ _ _ _ _ Hsteps Hj) as (name & _ & Hnm & _ & ->).
    apply list_elem_of_omap. exists edge. split; [done|]. unfold edge_into.
    rewrite Hfrom, Hto, decide_True; [done|]. congruence.
Qed.

(** The source map of a plan is a list, so a plan with one entry prints it as
    [(source-map ((stage . s) (path . p)))]: a row of two, whose second part
    [rows_of] takes for the list of entries.  Such a plan is rejected. *)
Lemma single_source_map_entry_rejected (repr : Value → string) (stage path : Value)
    (rows : dict string Value) :
  add_row repr [] (VTuple [VStr "source-map";
    VTuple [VTuple [VStr "stage"; stage]; VTuple [VStr "path"; path]]]) = Ok rows →
  source_map_of repr (default (VTuple []) (dget "source-map" rows))
    = Raise (FunFlowRuntimeError ("invalid Scheme row: " +:+ repr_str "stage")).
Proof. intros [= <-]. reflexivity. Qed.

(** ** The fixture pipeline ([_funflow_cicd.py])

    Its actions suspend at most once ([anyio.sleep(0)]) and do not touch the
    world. *)

Definition CicdCall : Type := bool * result Exn StepPatch.

Definition cicd_resume {W} (c : CicdCall) (w : W) : W * (CicdCall + result Exn StepPatch) :=
  let '(suspends_once, r) := c in
  if suspends_once then (w, inl (false, r)) else (w, inr r).

Section cicd.
Context (repr : Value → string).

Definition checkout (state : RuntimeState) : CicdCall :=
  (false, Ok (Patch [("checkout", VStr "ready");
                     ("commit", default (VStr "HEAD") (dget "commit" state))])).
Definition lint (state : RuntimeState) : CicdCall := (false, Ok (Patch [("lint", VStr "passed")])).
Definition package (state : RuntimeState) : CicdCall :=
  (false, commit ← of_option (KeyError "commit") (dget "commit" state);
          Ok (Patch [("artifact", VStr (py_str repr commit +:+ ":package"))])).

Definition quarter : QArith_base.Q := QArith_base.Qmake 1 4.

Definition unit_step (index : Z) : FunFlowStep CicdCall :=
  Step ("unit-" +:+ str_of_Z index)
    (λ _, (true, Ok (Patch [("unit_" +:+ str_of_Z index, VStr "passed")])))
    ["checkout"] (Sandbox "unit-test" (Some quarter) []).

Definition gated_key (key : string) : bool :=
  bool_decide (key = "lint") || String.prefix "unit_" key.
Definition is_passed (v : Value) : bool :=
  match v with VStr s => bool_decide (s = "passed") | _ => false end.

Definition sandbox_policy_gate (state : RuntimeState) : CicdCall :=
  let failed := filter (λ '(key, value), gated_key key && negb (is_passed value) = true) state in
  (false, if bool_decide (dkeys failed = [])
          then Ok (Patch [("sandbox_policy", VStr "passed")])
          else Raise (FunFlowRuntimeError ("sandbox policy gate rejected steps: "
                        +:+ repr_tuple (repr_str <$> dkeys failed)))).

Definition build_funflow_cicd_sandbox_dag (fanout : Z) : FunFlowDag CicdCall :=
  let unit_steps := unit_step <$> seqZ 0 fanout in
  let gate_needs := "lint" :: (step_name <$> unit_steps) in
  Dag "funflow-cicd-sandbox-dag"
    ([Step "checkout" checkout [] (Sandbox "source-checkout" (Some quarter) []);
      Step "lint" lint ["checkout"] (Sandbox "tooling" (Some quarter) [])]
     ++ unit_steps ++
     [Step "sandbox-policy" sandbox_policy_gate gate_needs
        (Sandbox "poo-policy-gate" (Some quarter) ["CI"; "POO_FLOW_POLICY"]);
      Step "package" package ["sandbox-policy"] (Sandbox "artifact-package" (Some quarter) [])]).

Definition build_funflow_cicd_sandbox_projection (fanout : Z) : FunFlowPlanProjection CicdCall :=
  let dag := build_funflow_cicd_sandbox_dag fanout in
  PlanProjection dag "poo-flow.funflow-plan-projection.v1" "use-module funflow" "poo-flow.anyio.v1"
    (dict_of ((λ step, (step_name step,
       "use-module funflow:" +:+ dag_name dag +:+ ":" +:+ step_name step)) <$> dag_steps dag)).

Definition run_funflow_cicd_sandbox_dag {W} (perf_counter_ns : W → Z)
    (timed_out : FunFlowStep CicdCall → CicdCall → W → bool) (group_exn : Exn → Exn)
    (fanout : Z) (commit : string) (schedules : list (list PoolEvent)) (w : W) :
    option (W * result Exn FunFlowRunReceipt) :=
  run cicd_resume perf_counter_ns timed_out group_exn
    (InProjection (build_funflow_cicd_sandbox_projection fanout))
    (Some [("commit", VStr commit)]) schedules w.
End cicd.

(** ** Witnesses *)

Module SchemeDemo.
(** A plan of two nodes, in the text the control plane would print. *)
Definition q (s : string) : string := dquote s.
Definition source : string :=
  "((schema . " +:+ q "poo-flow.modules.funflow.plan.v1" +:+ ") (runtime-contract poo-flow.anyio.v1)"
  +:+ " (name . demo) (node-table . #(((name . build)) ((name . test))))"
  +:+ " (edge-table . #(((from . build) (to . test)))))".
Definition plan : Value :=
  Eval vm_compute in
    match parse_scheme_datum source with Some (Ok v) => v | _ => VNone end.
Definition repr (_ : Value) : string := "<value>".
Definition actions : dict string (RuntimeState → CicdCall) :=
  [("test", lint); ("build", checkout)].
Definition projection : FunFlowPlanProjection CicdCall :=
  match funflow_projection_from_scheme_plan repr plan actions None with
  | Ok p => p
  | Raise _ => PlanProjection (Dag "" []) "" "" "" []
  end.
Definition clock (_ : unit) : Z := 0.
Definition timed_out (_ : FunFlowStep CicdCall) (_ : CicdCall) (_ : unit) : bool := false.
Definition receipt : FunFlowRunReceipt :=
  Eval vm_compute in
    match run cicd_resume clock timed_out id (InProjection projection) None
            [[Resume 0]; [Resume 0]] () with
    | Some (_, Ok r) => r
    | _ => RunReceipt "failed" 0 [] [] [] 0
    end.
End SchemeDemo.

Lemma scheme_edges_are_respected_witness :
  parse_scheme_datum SchemeDemo.source = Some (Ok SchemeDemo.plan) ∧
  run cicd_resume SchemeDemo.clock SchemeDemo.timed_out id (InProjection SchemeDemo.projection) None
    [[Resume 0]; [Resume 0]] () = Some ((), Ok SchemeDemo.receipt) ∧
  ∃ rows names edges,
    plan_rows SchemeDemo.repr SchemeDemo.plan = Ok rows ∧
    plan_node_names SchemeDemo.repr rows = Ok names ∧
    plan_edge_rows SchemeDemo.repr rows = Ok edges ∧
    NoDup (rr_trace SchemeDemo.receipt) ∧ (∀ n, n ∈ rr_trace SchemeDemo.receipt ↔ n ∈ names) ∧
    ∀ edge source target, edge ∈ edges → dget "from" edge = Some source →
      dget "to" edge = Some target →
      ∃ i, rr_trace SchemeDemo.receipt !! i = Some (py_str SchemeDemo.repr target) ∧
        py_str SchemeDemo.repr source ∈ take i (rr_trace SchemeDemo.receipt).
Proof.
  split; [vm_compute; reflexivity|]. split; [vm_compute; reflexivity|].
  apply (scheme_edges_are_respected SchemeDemo.repr cicd_resume SchemeDemo.clock
    SchemeDemo.timed_out id SchemeDemo.plan SchemeDemo.actions None SchemeDemo.projection None
    [[Resume 0]; [Resume 0]] () ()); vm_compute; reflexivity.
Defined.

(** The fixture passes with two unit steps, the first of which resumes last. *)
Example cicd_passes :
  match run_funflow_cicd_sandbox_dag SchemeDemo.repr SchemeDemo.clock SchemeDemo.timed_out id 2 "abc"
          [[Resume 0]; [Resume 1; Resume 2; Resume 2; Resume 0; Resume 1]; [Resume 0]; [Resume 0]] ()
  with
  | Some (_, Ok receipt) => Some (rr_trace receipt)
  | _ => None
  end = Some ["checkout"; "lint"; "unit-0"; "unit-1"; "sandbox-policy"; "package"].
Proof. vm_compute. reflexivity. Qed.
