(* ===== verification/MemoryCheckpointer.v ===== *)
(** * The in-memory checkpointer ([MemoryRuntimeGraphCheckpointer])

    Two dictionaries: the latest checkpoint and the history of every thread.
    The object is a part of the world [W], reached through [get] and [put];
    [fresh n] is the text of the n-th [time_ns()-uuid4()]. *)

From S2P Require Import Prelude PyDict GraphTypes Checkpoint.

Record MemoryRuntimeGraphCheckpointer : Type := MkMemory {
  mem_checkpoints : dict string RuntimeGraphCheckpoint;
  mem_history : dict string (list RuntimeGraphCheckpoint);
  mem_clock : nat
}.

Section memory.
Variable fresh : nat → string.

(** [if not checkpoint.checkpoint_id: checkpoint = _assign_checkpoint_id(checkpoint)],
    with the clock after it. *)
Definition identified (clock : nat) (c : RuntimeGraphCheckpoint) :
    RuntimeGraphCheckpoint * nat :=
  if bool_decide (cp_checkpoint_id c = "")
  then (assign_checkpoint_id (fresh clock) c, S clock)
  else (c, clock).

Definition mem_save (c : RuntimeGraphCheckpoint) (m : MemoryRuntimeGraphCheckpointer) :
    MemoryRuntimeGraphCheckpointer * RuntimeGraphCheckpoint :=
  let '(c', clock) := identified (mem_clock m) c in
  (MkMemory (dset (cp_thread_id c') c' (mem_checkpoints m))
     (dappend (cp_thread_id c') c' (mem_history m)) clock, c').

Definition mem_load (t : string) (m : MemoryRuntimeGraphCheckpointer) :
    result Exn RuntimeGraphCheckpoint :=
  of_option (missing_checkpoint t) (dget t (mem_checkpoints m)).

Definition mem_load_at (t id : string) (m : MemoryRuntimeGraphCheckpointer) :
    result Exn RuntimeGraphCheckpoint :=
  of_option (missing_checkpoint (t +:+ "/" +:+ id))
    (head (filter (λ c, cp_checkpoint_id c = id) (dget_list t (mem_history m)))).

Definition mem_histories (t : string) (m : MemoryRuntimeGraphCheckpointer) :
    list RuntimeGraphCheckpoint := dget_list t (mem_history m).

Definition mem_has (t : string) (m : MemoryRuntimeGraphCheckpointer) : bool :=
  dmem t (mem_checkpoints m).

Definition mem_clear (t : string) (m : MemoryRuntimeGraphCheckpointer) :
    MemoryRuntimeGraphCheckpointer :=
  MkMemory (dpop t (mem_checkpoints m)) (dpop t (mem_history m)) (mem_clock m).

(** ** The checkpointer *)

Context {W : Type} (get : W → MemoryRuntimeGraphCheckpointer)
  (put : MemoryRuntimeGraphCheckpointer → W → W).

Definition memory_checkpointer : Checkpointer W :=
  MkCheckpointer
    (λ c w, let '(m, c') := mem_save c (get w) in (put m w, Ok c'))
    (λ t w, mem_load t (get w))
    (λ t id w, mem_load_at t id (get w))
    (λ t w, Ok (mem_histories t (get w)))
    (λ t w, mem_has t (get w))
    (λ t w, (put (mem_clear t (get w)) w, Ok ())).

Hypothesis get_put : ∀ m w, get (put m w) = m.
Hypothesis fresh_inj : ∀ n m, fresh n = fresh m → n = m.
Hypothesis fresh_nonempty : ∀ n, fresh n ≠ "".

Record mem_inv (m : MemoryRuntimeGraphCheckpointer) : Prop := {
  mem_wf : dict_wf (mem_checkpoints m) ∧ dict_wf (mem_history m);
  mem_latest : ∀ t, dget t (mem_checkpoints m) = last (mem_histories t m);
  mem_ids : ∀ t c, c ∈ mem_histories t m → ∃ n, (n < mem_clock m)%nat ∧ cp_checkpoint_id c = fresh n
}.

Lemma mem_histories_save c m t :
  mem_histories t (mem_save c m).1 =
    let c' := (identified (mem_clock m) c).1 in
    if decide (t = cp_thread_id c') then mem_histories t m ++ [c'] else mem_histories t m.
Proof.
  unfold mem_save, mem_histories. destruct (identified (mem_clock m) c) as [c' clock]. simpl.
  apply dget_list_dappend.
Qed.

Lemma identified_fresh clock c : cp_checkpoint_id c = "" →
  identified clock c = (cp_with_id (fresh clock) c, S clock).
Proof. intros H. unfold identified. by rewrite bool_decide_eq_true_2. Qed.

Lemma mem_save_inv c m : cp_checkpoint_id c = "" → mem_inv m → mem_inv (mem_save c m).1.
Proof.
  intros Hc [[Hw1 Hw2] Hl Hids].
  unfold mem_save. rewrite identified_fresh by done. simpl.
  assert (∀ t, mem_histories t (MkMemory
      (dset (cp_thread_id c) (cp_with_id (fresh (mem_clock m)) c) (mem_checkpoints m))
      (dappend (cp_thread_id c) (cp_with_id (fresh (mem_clock m)) c) (mem_history m))
      (S (mem_clock m))) =
    if decide (t = cp_thread_id c)
    then mem_histories t m ++ [cp_with_id (fresh (mem_clock m)) c] else mem_histories t m) as Hh.
  { intros t. unfold mem_histories. apply dget_list_dappend. }
  split; simpl.
  - split; [|unfold dappend]; auto with py.
  - intros t. rewrite Hh, dget_dset. case_decide; [by rewrite last_snoc|apply Hl].
  - intros t c0. rewrite Hh. case_decide; intros Hin.
    + apply elem_of_app in Hin as [Hin| ->%list_elem_of_singleton].
      * destruct (Hids _ _ Hin) as (n & ? & ?). exists n. split; [lia|done].
      * exists (mem_clock m). split; [lia|done].
    + destruct (Hids _ _ Hin) as (n & ? & ?). exists n. split; [lia|done].
Qed.

Lemma mem_histories_clear t t' m : dict_wf (mem_history m) →
  mem_histories t' (mem_clear t m) = if decide (t' = t) then [] else mem_histories t' m.
Proof.
  intros Hw. unfold mem_histories, dget_list, mem_clear; simpl.
  rewrite dget_dpop by done. by case_decide.
Qed.

Lemma mem_clear_inv t m : mem_inv m → mem_inv (mem_clear t m).
Proof.
  intros [[Hw1 Hw2] Hl Hids]. split; [split; simpl; auto with py| |];
    intros t'; [|intros c]; rewrite mem_histories_clear by done; simpl.
  - rewrite dget_dpop by done. case_decide; [done|apply Hl].
  - case_decide; [by intros ?%elem_of_nil|apply Hids].
Qed.

(** The in-memory checkpointer keeps its promise to programs. *)
#[export] Instance memory_checkpointer_spec :
  CheckpointerSpec memory_checkpointer (λ w, mem_inv (get w)) (λ w t, mem_histories t (get w)).
Proof.
  split.
  - intros w c Hw Hc. pose proof (mem_save_inv c _ Hc Hw) as Hinv.
    pose proof (mem_histories_save c (get w)) as Hh. rewrite (identified_fresh _ _ Hc) in Hh.
    simpl. unfold mem_save in *. rewrite (identified_fresh _ _ Hc) in *. simpl in *.
    do 2 eexists. split; [done|]. rewrite get_put. split; [apply fresh_nonempty|].
    split; [|by split].
    intros (c' & Hid & Hin)%list_elem_of_fmap.
    destruct (mem_ids _ Hw _ _ Hin) as (n & Hn & Hid'). rewrite Hid' in Hid.
    apply fresh_inj in Hid. lia.
  - intros w t Hw. simpl. unfold mem_load. by rewrite mem_latest.
  - done.
  - done.
  - intros w t Hw. simpl. unfold mem_has, dmem. rewrite mem_latest by done.
    destruct (mem_histories t (get w)) as [|c l] using rev_ind; [done|].
    rewrite last_snoc. rewrite bool_decide_eq_false_2; [done|]. by destruct l.
  - intros w t Hw. eexists. split; [done|]. simpl. rewrite get_put.
    split; [by apply mem_clear_inv|]. intros t'. apply mem_histories_clear, Hw.
Qed.
End memory.

(** ** The contract *)

(** The in-memory checkpointer refines the history of checkpoints per thread:
    a save appends the checkpoint under a fresh id to its thread and touches no
    other, a load answers the last one saved, a load by id the one with that
    id, and a clear empties one thread. *)
Theorem memory_checkpointer_refines_history fresh {W : Type}
    (get : W → MemoryRuntimeGraphCheckpointer) (put : MemoryRuntimeGraphCheckpointer → W → W) :
  (∀ m w, get (put m w) = m) → (∀ n m, fresh n = fresh m → n = m) → (∀ n, fresh n ≠ "") →
  CheckpointerSpec (memory_checkpointer fresh get put) (λ w, mem_inv fresh (get w))
    (λ w t, mem_histories t (get w)).
Proof. intros Hget Hinj Hne. by apply memory_checkpointer_spec. Qed.

(** Texts that grow with their number, for the witnesses. *)
Fixpoint numbered (n : nat) : string :=
  match n with O => "a" | S n => "b" +:+ numbered n end.

Lemma numbered_nonempty n : numbered n ≠ "".
Proof. by destruct n. Qed.

Lemma numbered_le n m s : (n < m)%nat → String.le (numbered n +:+ s) (numbered m +:+ s).
Proof.
  revert m; induction n as [|n IH]; intros [|m] Hlt; [lia|done|lia|].
  specialize (IH m ltac:(lia)). unfold String.le, String.leb in *. simpl numbered.
  rewrite !sapp_assoc, !sapp_cons, !sapp_nil_l. simpl.
  by destruct (String.compare (numbered n +:+ s) (numbered m +:+ s)).
Qed.

Lemma numbered_length n : String.length (numbered n) = S n.
Proof. induction n as [|n IH]; [done|]. simpl numbered. rewrite slen_app, IH. done. Qed.

Lemma numbered_inj n m : numbered n = numbered m → n = m.
Proof. intros H. apply (f_equal String.length) in H. rewrite !numbered_length in H. lia. Qed.

Definition empty_memory : MemoryRuntimeGraphCheckpointer := MkMemory [] [] 0.

Lemma empty_memory_inv fresh : mem_inv fresh empty_memory.
Proof.
  split; [split; constructor|done|]. unfold mem_histories; simpl. by intros t c ?%elem_of_nil.
Qed.

Definition memory_only : Checkpointer MemoryRuntimeGraphCheckpointer :=
  memory_checkpointer numbered (λ m, m) (λ m _, m).

Lemma memory_checkpointer_refines_history_witness :
  CheckpointerSpec memory_only (mem_inv numbered) (λ m t, mem_histories t m) ∧
  mem_inv numbered empty_memory.
Proof.
  split; [|apply empty_memory_inv].
  apply (memory_checkpointer_refines_history numbered (λ m, m) (λ m _, m));
    [reflexivity|apply numbered_inj|apply numbered_nonempty].
Defined.
