(* ===== verification/FileCheckpointer.v ===== *)
(** * The file checkpointer ([FileRuntimeGraphCheckpointer])

    One pickle file for the latest checkpoint of a thread and a directory of
    pickle files for its history, named after the SHA-256 of the thread id.
    The file system below the root is a dictionary from (directory, name) to
    file contents, and the list of the directories; a file that exists is readable.
    Checkpoint ids name files: they hold no path separator. *)

From Stdlib Require Import Ascii.
From S2P Require Import Prelude PyDict GraphTypes Checkpoint MemoryCheckpointer.

Notation path := (string * string)%type.

Record FileSystem (Bytes : Type) : Type := MkFiles {
  fs_files : dict path Bytes;
  fs_dirs : list string;
  fs_clock : nat
}.
Arguments MkFiles {Bytes}.
Arguments fs_files {Bytes}.
Arguments fs_dirs {Bytes}.
Arguments fs_clock {Bytes}.

Definition SUFFIX : string := ".checkpoint.pickle".

(** [name.endswith(".checkpoint.pickle")]. *)
Fixpoint ends_with (suffix s : string) : bool :=
  bool_decide (s = suffix) ||
  match s with
  | EmptyString => false
  | String _ s => ends_with suffix s
  end.

Lemma ends_with_app suffix s : ends_with suffix (s +:+ suffix) = true.
Proof.
  induction s as [|c s IH].
  - rewrite sapp_nil_l. destruct suffix; cbn [ends_with]; by rewrite bool_decide_eq_true_2.
  -  rewrite sapp_cons. cbn [ends_with]. by rewrite IH, orb_true_r.
Qed.

Section file.
Variable fresh : nat → string.
Variable sha256_hex : string → string.
(** [pickle.dumps] of a checkpoint, and [pickle.loads]: [None] is an object
    of another class. *)
Context {Bytes : Type} (pickle_dumps : RuntimeGraphCheckpoint → Bytes)
  (pickle_loads : Bytes → result Exn (option RuntimeGraphCheckpoint)).

(** [_path], [_history_dir], [_history_path]; the root itself is [""]. *)
Definition file_path (t : string) : path := ("", sha256_hex t +:+ SUFFIX).
Definition history_dir (t : string) : string := sha256_hex t +:+ ".history".
Definition checkpoint_name (id : string) : string := id +:+ SUFFIX.
Definition history_path (t id : string) : path := (history_dir t, checkpoint_name id).

(** [path.with_suffix(".tmp")] of a path built by the functions above. *)
Definition tmp_of (stem : string) : string := stem +:+ ".checkpoint.tmp".

(** [_write]: mkdir of the parent, write of the temporary file, replace. *)
Definition fs_write (dir stem : string) (c : RuntimeGraphCheckpoint) (fs : FileSystem Bytes) :
    FileSystem Bytes :=
  let bytes := pickle_dumps c in
  let dirs := if decide (dir ∈ fs_dirs fs) then fs_dirs fs else fs_dirs fs ++ [dir] in
  let written := dset (dir, tmp_of stem) bytes (fs_files fs) in
  MkFiles (dset (dir, stem +:+ SUFFIX) bytes (dpop (dir, tmp_of stem) written)) dirs
    (fs_clock fs).

Definition file_save (c : RuntimeGraphCheckpoint) (fs : FileSystem Bytes) :
    FileSystem Bytes * RuntimeGraphCheckpoint :=
  let '(c', clock) := identified fresh (fs_clock fs) c in
  let t := cp_thread_id c' in
  let fs1 := fs_write "" (sha256_hex t) c' (MkFiles (fs_files fs) (fs_dirs fs) clock) in
  (fs_write (history_dir t) (cp_checkpoint_id c') c' fs1, c').

(** [pickle.loads(path.read_bytes())] and the class check. *)
Definition load_bytes (invalid : string) (bytes : Bytes) : result Exn RuntimeGraphCheckpoint :=
  o ← pickle_loads bytes;
  of_option (RuntimeGraphCheckpointError (invalid)) o.

Definition file_load (t : string) (fs : FileSystem Bytes) : result Exn RuntimeGraphCheckpoint :=
  bytes ← of_option (missing_checkpoint t) (dget (file_path t) (fs_files fs));
  load_bytes ("invalid runtime graph checkpoint: " +:+ t) bytes.

Definition file_load_at (t id : string) (fs : FileSystem Bytes) : result Exn RuntimeGraphCheckpoint :=
  bytes ← of_option (missing_checkpoint (t +:+ "/" +:+ id))
            (dget (history_path t id) (fs_files fs));
  load_bytes ("invalid runtime graph checkpoint: " +:+ t +:+ "/" +:+ id) bytes.

(** [sorted(history_dir.glob("*.checkpoint.pickle"))]. *)
Definition glob (dir : string) (fs : FileSystem Bytes) : list string :=
  filter (λ name, ends_with SUFFIX name = true)
    ((filter (λ p, p.1 = dir) (dkeys (fs_files fs))).*2).

Definition read_history (t : string) (fs : FileSystem Bytes) (name : string) :
    result Exn RuntimeGraphCheckpoint :=
  bytes ← of_option (PyError "FileNotFoundError" name)
            (dget (history_dir t, name) (fs_files fs));
  load_bytes ("invalid runtime graph checkpoint history: " +:+ t) bytes.

Definition file_history (t : string) (fs : FileSystem Bytes) :
    result Exn (list RuntimeGraphCheckpoint) :=
  if decide (history_dir t ∈ fs_dirs fs)
  then mapM (read_history t fs) (py_sorted (glob (history_dir t) fs))
  else Ok [].

Definition file_has (t : string) (fs : FileSystem Bytes) : bool := dmem (file_path t) (fs_files fs).

(** [clear]: [unlink(missing_ok=True)], then every globbed file, then [rmdir],
    which fails on a directory that still holds a file. *)
Definition file_clear (t : string) (fs : FileSystem Bytes) : FileSystem Bytes * result Exn unit :=
  let files := dpop (file_path t) (fs_files fs) in
  let fs1 := MkFiles files (fs_dirs fs) (fs_clock fs) in
  if decide (history_dir t ∈ fs_dirs fs) then
    let files2 := foldr (λ name d, dpop (history_dir t, name) d) files
                    (glob (history_dir t) fs1) in
    match filter (λ p, p.1 = history_dir t) (dkeys files2) with
    | [] => (MkFiles files2 (filter (λ d, d ≠ history_dir t) (fs_dirs fs)) (fs_clock fs), Ok ())
    | _ => (MkFiles files2 (fs_dirs fs) (fs_clock fs),
            Raise (PyError "OSError" "Directory not empty"))
    end
  else (fs1, Ok ()).

Context {W : Type} (get : W → FileSystem Bytes) (put : FileSystem Bytes → W → W).

Definition file_checkpointer : Checkpointer W :=
  MkCheckpointer
    (λ c w, let '(fs, c') := file_save c (get w) in (put fs w, Ok c'))
    (λ t w, file_load t (get w))
    (λ t id w, file_load_at t id (get w))
    (λ t w, file_history t (get w))
    (λ t w, file_has t (get w))
    (λ t w, let '(fs, r) := file_clear t (get w) in (put fs w, r)).

(** ** What the libraries promise *)

Hypothesis get_put : ∀ fs w, get (put fs w) = fs.
(** No two thread ids in use have the same SHA-256. *)
Hypothesis sha_inj : ∀ t t', sha256_hex t = sha256_hex t' → t = t'.
(** Unpickling what was pickled. *)
Hypothesis pickle_round_trip : ∀ c, pickle_loads (pickle_dumps c) = Ok (Some c).

(** ** Names and paths *)

Lemma history_dir_nonempty t : history_dir t ≠ "".
Proof.
  unfold history_dir. intros H. apply (f_equal String.length) in H.
  rewrite slen_app in H. simpl in H. lia.
Qed.

Lemma history_dir_inj t t' : history_dir t = history_dir t' → t = t'.
Proof. intros H. by apply sha_inj, sapp_inj_r with ".history". Qed.

Lemma file_path_inj t t' : file_path t = file_path t' → t = t'.
Proof. intros [= H]. by apply sha_inj, sapp_inj_r with SUFFIX. Qed.

Lemma tmp_not_checkpoint stem stem' : tmp_of stem ≠ stem' +:+ SUFFIX.
Proof.
  unfold tmp_of, SUFFIX. intros H.
  assert (ends_with ".tmp" (stem +:+ ".checkpoint.tmp") = true) as H1.
  { replace ".checkpoint.tmp" with (".checkpoint" +:+ ".tmp") by done.
    rewrite <-sapp_assoc. apply ends_with_app. }
  assert (∀ s, ends_with ".tmp" (s +:+ ".checkpoint.pickle") = false) as H2.
  { intros s. induction s as [|c s IH]; [vm_compute; reflexivity|].
    rewrite sapp_cons. cbn [ends_with]. rewrite IH, orb_false_r.
    apply bool_decide_eq_false_2. intros E. apply (f_equal String.length) in E.
    simpl in E. rewrite slen_app in E. simpl in E. lia. }
  rewrite H, H2 in H1. done.
Qed.

Lemma fs_write_get dir stem c fs k : dict_wf (fs_files fs) →
  dget k (fs_files (fs_write dir stem c fs)) =
    if decide (k = (dir, stem +:+ SUFFIX)) then Some (pickle_dumps c)
    else if decide (k = (dir, tmp_of stem)) then None else dget k (fs_files fs).
Proof.
  intros Hw. unfold fs_write; simpl. rewrite dget_dset. case_decide; [done|].
  rewrite dget_dpop by auto with py. case_decide; [done|]. by rewrite dget_dset_ne.
Qed.

Lemma fs_write_wf dir stem c fs : dict_wf (fs_files fs) → dict_wf (fs_files (fs_write dir stem c fs)).
Proof. unfold fs_write; simpl. auto with py. Qed.

(** ** The history a directory holds *)

Lemma elem_of_glob dir fs name :
  name ∈ glob dir fs ↔ is_Some (dget (dir, name) (fs_files fs)) ∧ ends_with SUFFIX name = true.
Proof.
  unfold glob. rewrite list_elem_of_filter, list_elem_of_fmap, dget_is_Some.
  setoid_rewrite list_elem_of_filter. split.
  - intros (? & [d n] & -> & <- & ?). done.
  - intros [? ?]. split; [done|]. by exists (dir, name).
Qed.

Lemma NoDup_names (dir : string) (l : list path) :
  NoDup l → Forall (λ p, p.1 = dir) l → NoDup l.*2.
Proof.
  induction 1 as [|p l Hp Hn IH]; intros Hd; csimpl; constructor;
    apply Forall_cons in Hd as [Hp1 Hd]; [|by apply IH].
  intros ([d n] & Heq & Hin)%list_elem_of_fmap. apply Hp.
  rewrite Forall_forall in Hd. specialize (Hd _ Hin).
  destruct p as [d' n']; simpl in *; subst. done.
Qed.

Lemma NoDup_glob dir fs : dict_wf (fs_files fs) → NoDup (glob dir fs).
Proof.
  intros Hw. apply NoDup_filter.
  apply (NoDup_names dir); [by apply NoDup_filter|].
  apply Forall_forall. intros p. rewrite list_elem_of_filter. naive_solver.
Qed.

(** ** What the files hold *)

(** The checkpoints of a thread, in the order of their saves, with different
    ids: a save under an id that is there replaces that checkpoint. *)
Definition log_save (c : RuntimeGraphCheckpoint) (log : list RuntimeGraphCheckpoint) :
    list RuntimeGraphCheckpoint :=
  filter (λ d, cp_checkpoint_id d ≠ cp_checkpoint_id c) log ++ [c].

(** The checkpoint of an id. *)
Definition log_at (id : string) (log : list RuntimeGraphCheckpoint) : option RuntimeGraphCheckpoint :=
  head (filter (λ c, cp_checkpoint_id c = id) log).

(** The log in the order of the file names. *)
Definition name_le (c d : RuntimeGraphCheckpoint) : Prop :=
  String.le (checkpoint_name (cp_checkpoint_id c)) (checkpoint_name (cp_checkpoint_id d)).
#[local] Instance name_le_dec : RelDecision name_le.
Proof. intros c d. unfold name_le. apply _. Defined.
Definition by_name (log : list RuntimeGraphCheckpoint) : list RuntimeGraphCheckpoint :=
  merge_sort name_le log.

(** Files that hold the logs of the threads. *)
Record holds (fs : FileSystem Bytes) (log : string → list RuntimeGraphCheckpoint) : Prop := {
  ho_wf : dict_wf (fs_files fs);
  ho_ids : ∀ t, NoDup (cp_checkpoint_id <$> log t);
  ho_at : ∀ t id, dget (history_path t id) (fs_files fs) = pickle_dumps <$> log_at id (log t);
  ho_names : ∀ t name, is_Some (dget (history_dir t, name) (fs_files fs)) →
    ∃ id, name = checkpoint_name id;
  ho_dirs : ∀ t, log t ≠ [] → history_dir t ∈ fs_dirs fs;
  ho_latest : ∀ t, dget (file_path t) (fs_files fs) = pickle_dumps <$> last (log t)
}.

Lemma load_dumps msg c : load_bytes msg (pickle_dumps c) = Ok c.
Proof. unfold load_bytes. by rewrite pickle_round_trip. Qed.

Lemma checkpoint_name_inj id id' : checkpoint_name id = checkpoint_name id' → id = id'.
Proof. apply sapp_inj_r. Qed.

Lemma log_at_Some id log c : log_at id log = Some c → c ∈ log ∧ cp_checkpoint_id c = id.
Proof. unfold log_at. intros H%head_Some_elem_of%list_elem_of_filter. tauto. Qed.

Lemma log_at_None id log : log_at id log = None ↔ id ∉ cp_checkpoint_id <$> log.
Proof.
  unfold log_at. rewrite list_elem_of_fmap. destruct (filter _ log) as [|c l] eqn:E; simpl.
  - split; [|done]. intros _ (c & -> & Hc).
    assert (c ∈ filter (λ d, cp_checkpoint_id d = cp_checkpoint_id c) log) as Hin
      by by apply list_elem_of_filter.
    rewrite E in Hin. by apply elem_of_nil in Hin.
  - split; [done|]. intros []. assert (c ∈ filter (λ d, cp_checkpoint_id d = id) log) as Hin
      by (rewrite E; by left).
    apply list_elem_of_filter in Hin as [? ?]. by exists c.
Qed.

Lemma log_at_elem log c : NoDup (cp_checkpoint_id <$> log) → c ∈ log →
  log_at (cp_checkpoint_id c) log = Some c.
Proof.
  unfold log_at. induction log as [|d log IH]; csimpl; [by intros _ ?%elem_of_nil|].
  intros [Hd Hn]%NoDup_cons [->|Hin]%elem_of_cons; [by rewrite filter_cons_True|].
  rewrite filter_cons_False; [by apply IH|]. intros Heq. apply Hd. rewrite Heq.
  by apply list_elem_of_fmap_2.
Qed.

Lemma log_save_ids c log : NoDup (cp_checkpoint_id <$> log) → NoDup (cp_checkpoint_id <$> log_save c log).
Proof.
  intros Hn. unfold log_save. rewrite fmap_app. apply NoDup_app. split_and!; [|..].
  - eapply sublist_NoDup; [exact Hn|]. apply fmap_sublist, sublist_filter.
  - intros id (d & -> & [Hd _]%list_elem_of_filter)%list_elem_of_fmap. csimpl.
    by rewrite list_elem_of_singleton.
  - apply NoDup_singleton.
Qed.

Lemma log_save_at c log id :
  log_at id (log_save c log) = if decide (id = cp_checkpoint_id c) then Some c else log_at id log.
Proof.
  unfold log_at, log_save. rewrite filter_app, list_filter_filter. case_decide as Hid.
  - subst id. rewrite filter_none by (apply Forall_true; tauto). by rewrite filter_cons_True.
  - rewrite (filter_cons_False (λ d, cp_checkpoint_id d = id)) by congruence.
    rewrite filter_nil, app_nil_r. f_equal. apply list_filter_iff. intros d. naive_solver.
Qed.

(** *** Saving *)

Section saved.
Context (c : RuntimeGraphCheckpoint) (fs : FileSystem Bytes) (log : string → list RuntimeGraphCheckpoint).
Hypothesis fs_ok : holds fs log.
Let c' := (identified fresh (fs_clock fs) c).1.
Let t := cp_thread_id c'.
Let fs' := (file_save c fs).1.

Lemma file_save_eq :
  file_save c fs =
    (fs_write (history_dir t) (cp_checkpoint_id c') c'
       (fs_write "" (sha256_hex t) c'
          (MkFiles (fs_files fs) (fs_dirs fs) (identified fresh (fs_clock fs) c).2)), c').
Proof. unfold file_save, t, c'. by destruct (identified _ _ _). Qed.

Lemma saved_wf : dict_wf (fs_files fs').
Proof. unfold fs'. rewrite file_save_eq. apply fs_write_wf, fs_write_wf. apply fs_ok. Qed.

(** The name of a temporary file is not there before, and not after. *)
Lemma no_tmp t' stem : dget (history_dir t', tmp_of stem) (fs_files fs) = None.
Proof.
  destruct (dget _ _) eqn:E; [|done].
  destruct (ho_names _ _ fs_ok t' (tmp_of stem)) as [id Hid]; [by eexists|].
  by apply tmp_not_checkpoint in Hid.
Qed.

Lemma saved_history_get t' n :
  dget (history_dir t', n) (fs_files fs') =
    if decide (t' = t ∧ n = checkpoint_name (cp_checkpoint_id c')) then Some (pickle_dumps c')
    else dget (history_dir t', n) (fs_files fs).
Proof.
  unfold fs'. rewrite file_save_eq. simpl fst.
  rewrite fs_write_get by (apply fs_write_wf, fs_ok).
  rewrite fs_write_get by apply fs_ok.
  pose proof (history_dir_nonempty t').
  rewrite (decide_False (P := (_, _) = ("", _))) by congruence.
  rewrite (decide_False (P := (_, _) = ("", _))) by congruence.
  destruct (decide ((history_dir t', n) = (history_dir t, cp_checkpoint_id c' +:+ SUFFIX)))
    as [[= Ht ->]|Hne].
  { apply history_dir_inj in Ht as ->. by rewrite decide_True. }
  rewrite (decide_False (P := t' = t ∧ _)) by (intros [-> ->]; by apply Hne).
  case_decide as Htmp; [|done]. injection Htmp as Ht ->. by rewrite no_tmp.
Qed.

Lemma saved_path_get t' :
  dget (file_path t') (fs_files fs') =
    if decide (t' = t) then Some (pickle_dumps c') else dget (file_path t') (fs_files fs).
Proof.
  unfold fs'. rewrite file_save_eq. simpl fst.
  rewrite fs_write_get by (apply fs_write_wf, fs_ok).
  rewrite fs_write_get by apply fs_ok.
  pose proof (history_dir_nonempty t). unfold file_path.
  rewrite !(decide_False (P := (_, _) = (history_dir t, _))) by congruence.
  destruct (decide (("", sha256_hex t' +:+ SUFFIX) = ("", sha256_hex t +:+ SUFFIX)))
    as [Heq|Hne].
  { apply file_path_inj in Heq as ->. by rewrite decide_True. }
  rewrite (decide_False (P := t' = t)) by (intros ->; by apply Hne).
  rewrite decide_False; [done|]. intros [= H1]. by apply (tmp_not_checkpoint (sha256_hex t) (sha256_hex t')).
Qed.

Lemma saved_dirs d : d ∈ fs_dirs fs' ↔ d ∈ fs_dirs fs ∨ d = "" ∨ d = history_dir t.
Proof.
  unfold fs'. rewrite file_save_eq. simpl.
  repeat case_decide; rewrite ?elem_of_app, ?list_elem_of_singleton in *; naive_solver.
Qed.

Lemma saved_holds : holds fs' (λ t', if decide (t' = t) then log_save c' (log t') else log t').
Proof.
  split; [apply saved_wf|..]; intros t'.
  - case_decide; [apply log_save_ids|]; apply fs_ok.
  - intros id. unfold history_path. rewrite saved_history_get. destruct (decide (t' = t)) as [Ht|Ht].
    + rewrite log_save_at. destruct (decide (id = cp_checkpoint_id c')) as [->|Hid].
      * by rewrite decide_True.
      * rewrite decide_False by (intros [_ ?%checkpoint_name_inj]; done). apply fs_ok.
    + rewrite decide_False by naive_solver. apply fs_ok.
  - intros name. rewrite saved_history_get. case_decide as Hn; [|apply fs_ok].
    destruct Hn as [_ ->]. intros _. by exists (cp_checkpoint_id c').
  - rewrite saved_dirs. case_decide as Ht; [rewrite Ht; tauto|]. left. by apply (ho_dirs _ _ fs_ok).
  - rewrite saved_path_get. case_decide; [|apply fs_ok]. unfold log_save. by rewrite last_snoc.
Qed.
End saved.

(** *** Reading *)

Section reading.
Context (fs : FileSystem Bytes) (log : string → list RuntimeGraphCheckpoint) (fs_ok : holds fs log).

Lemma file_load_spec t : file_load t fs = of_option (missing_checkpoint t) (last (log t)).
Proof.
  unfold file_load. rewrite (ho_latest _ _ fs_ok). destruct (last (log t)); [|done]. apply load_dumps.
Qed.

Lemma file_has_spec t : file_has t fs = negb (bool_decide (log t = [])).
Proof.
  unfold file_has, dmem. rewrite (ho_latest _ _ fs_ok).
  destruct (log t) as [|c l] using rev_ind; [done|].
  rewrite last_snoc. rewrite bool_decide_eq_false_2; [done|]. by destruct l.
Qed.

Lemma file_load_at_spec t id :
  file_load_at t id fs = of_option (missing_checkpoint (t +:+ "/" +:+ id)) (log_at id (log t)).
Proof.
  unfold file_load_at. rewrite (ho_at _ _ fs_ok). destruct (log_at id (log t)); [|done]. apply load_dumps.
Qed.

#[local] Instance name_le_total : Total name_le.
Proof. intros c d. unfold name_le. apply (total String.le). Qed.
#[local] Instance name_le_trans : Transitive name_le.
Proof. intros c d e. unfold name_le. apply (transitivity (R:=String.le)). Qed.

Lemma sorted_names t :
  py_sorted (glob (history_dir t) fs) = (checkpoint_name ∘ cp_checkpoint_id) <$> by_name (log t).
Proof.
  apply (StronglySorted_unique String.le); [apply py_sorted_Sorted|..].
  - pose proof (StronglySorted_merge_sort name_le (log t)) as H. fold (by_name (log t)) in H.
    induction H as [|c l _ IH Hc]; [constructor|]. csimpl. constructor; [exact IH|].
    by apply Forall_fmap.
  - rewrite py_sorted_perm. unfold by_name. rewrite merge_sort_Permutation.
    apply NoDup_Permutation; [apply NoDup_glob, fs_ok|..].
    + rewrite list_fmap_compose. apply (NoDup_fmap_2_strong checkpoint_name); [|apply fs_ok].
      intros x y _ _. apply checkpoint_name_inj.
    + intros name. rewrite elem_of_glob, list_elem_of_fmap. split.
      * intros [Hs _]. destruct (ho_names _ _ fs_ok _ _ Hs) as [id ->].
        pose proof (ho_at _ _ fs_ok t id) as H. unfold history_path in H. rewrite H in Hs.
        destruct (log_at id (log t)) as [c|] eqn:E; [|by destruct Hs].
        apply log_at_Some in E as [Hin <-]. by exists c.
      * intros (c & -> & Hin). unfold compose. split; [|apply ends_with_app].
        pose proof (ho_at _ _ fs_ok t (cp_checkpoint_id c)) as H. unfold history_path in H.
        rewrite H, (log_at_elem _ _ (ho_ids _ _ fs_ok t) Hin). by eexists.
Qed.

Lemma file_history_spec t : file_history t fs = Ok (by_name (log t)).
Proof.
  unfold file_history. case_decide as Hd.
  - rewrite sorted_names. apply mapM_Ok, Forall2_fmap_l, Forall_Forall2_diag, Forall_forall.
    intros c Hin. unfold by_name in Hin. rewrite merge_sort_Permutation in Hin.
    unfold read_history, compose.
    pose proof (ho_at _ _ fs_ok t (cp_checkpoint_id c)) as H. unfold history_path in H.
    rewrite H, (log_at_elem _ _ (ho_ids _ _ fs_ok t) Hin). simpl. apply load_dumps.
  - destruct (log t) as [|c l] eqn:E; [done|]. exfalso. apply Hd, fs_ok. by rewrite E.
Qed.
End reading.

(** *** Clearing *)

Lemma dget_dpop_all (dir : string) names (d : dict path Bytes) k : dict_wf d →
  dict_wf (foldr (λ name d, dpop (dir, name) d) d names) ∧
  dget k (foldr (λ name d, dpop (dir, name) d) d names) =
    if decide (k.1 = dir ∧ k.2 ∈ names) then None else dget k d.
Proof.
  intros Hd. induction names as [|name names [Hw IH]]; csimpl.
  - split; [done|]. rewrite decide_False; [done|]. intros [_ []%elem_of_nil].
  - split; [by apply dpop_wf|]. rewrite dget_dpop by done. rewrite IH.
    destruct k as [kd kn]; simpl.
    repeat case_decide; rewrite ?elem_of_cons in *; try done; naive_solver.
Qed.

Lemma clear_get fs t k log : holds fs log →
  let files := foldr (λ name d, dpop (history_dir t, name) d) (dpop (file_path t) (fs_files fs))
                 (glob (history_dir t) (MkFiles (dpop (file_path t) (fs_files fs))
                                          (fs_dirs fs) (fs_clock fs))) in
  dict_wf files ∧
  dget k files = if decide (k = file_path t ∨ k.1 = history_dir t) then None
                 else dget k (fs_files fs).
Proof.
  intros Hi files. subst files.
  assert (dict_wf (dpop (file_path t) (fs_files fs))) as Hw by apply dpop_wf, Hi.
  destruct (dget_dpop_all (history_dir t) (glob (history_dir t)
    (MkFiles (dpop (file_path t) (fs_files fs)) (fs_dirs fs) (fs_clock fs))) _ k Hw) as [Hw' ->].
  split; [done|]. rewrite dget_dpop by apply Hi. destruct k as [kd kn]; simpl.
  destruct (decide ((kd, kn) = file_path t)) as [->|Hne].
  { rewrite (decide_True (P := _ ∨ _)) by by left. by case_decide. }
  destruct (decide (kd = history_dir t)) as [->|Hd].
  - rewrite (decide_True (P := _ ∨ _)) by by right.
    case_decide as Hin; [done|]. destruct (dget (history_dir t, kn) (fs_files fs)) eqn:Eb; [|done].
    exfalso. apply Hin. split; [done|]. apply elem_of_glob. simpl.
    rewrite dget_dpop by apply Hi. rewrite decide_False by done. rewrite Eb.
    split; [by eexists|]. destruct (ho_names _ _ Hi t kn) as [id ->]; [by eexists|]. apply ends_with_app.
  - rewrite decide_False by naive_solver. by rewrite decide_False by naive_solver.
Qed.

Lemma file_clear_spec fs t log : holds fs log →
  ∃ fs', file_clear t fs = (fs', Ok ()) ∧ holds fs' (λ t', if decide (t' = t) then [] else log t').
Proof.
  intros Hi. pose proof (λ k, clear_get fs t k log Hi) as Hget. cbn zeta in Hget.
  set (files := foldr _ _ _) in Hget.
  assert (∀ dirs', (∀ d, d ∈ fs_dirs fs → d ≠ history_dir t → d ∈ dirs') →
    holds (MkFiles files dirs' (fs_clock fs)) (λ t', if decide (t' = t) then [] else log t')) as Hafter.
  { intros dirs' Hdirs. pose proof (λ k, proj2 (Hget k)) as Hk.
    assert (∀ t' n, dget (history_dir t', n) files =
              if decide (t' = t) then None else dget (history_dir t', n) (fs_files fs)) as Hh.
    { intros t' n. rewrite Hk. destruct (decide (t' = t)) as [->|Ht]; [by rewrite decide_True by by right|].
      rewrite decide_False; [done|]. intros [[= E _]|E%history_dir_inj]; [|done].
      by apply history_dir_nonempty in E. }
    split; cbn [fs_files fs_dirs]; [apply (proj1 (Hget ("", "")))|..]; intros t'.
    - case_decide; [constructor|]. apply Hi.
    - intros id. unfold history_path. rewrite Hh. case_decide; [done|]. apply Hi.
    - intros name. rewrite Hh. case_decide; [by intros []|]. apply Hi.
    - case_decide as Ht; [done|]. intros Hl. apply Hdirs; [by apply (ho_dirs _ _ Hi)|].
      by intros ?%history_dir_inj.
    - rewrite Hk. destruct (decide (t' = t)) as [->|Ht]; [by rewrite decide_True by by left|].
      rewrite decide_False; [apply Hi|]. intros [E%file_path_inj|E]; [done|].
      simpl in E. by apply (history_dir_nonempty t). }
  unfold file_clear. fold files. case_decide as Hd.
  - destruct (filter (λ p : path, p.1 = history_dir t) (dkeys files)) as [|p l] eqn:Ef.
    + eexists. split; [done|]. apply Hafter. intros d Hin Hne. by apply list_elem_of_filter.
    + exfalso. assert (p ∈ filter (λ p : path, p.1 = history_dir t) (dkeys files)) as Hp
        by (rewrite Ef; by left).
      apply list_elem_of_filter in Hp as [Hp Hk]. apply dget_is_Some in Hk.
      rewrite (proj2 (Hget p)), decide_True in Hk by by right. by destruct Hk.
  - assert (files = dpop (file_path t) (fs_files fs)) as Hfiles.
    { unfold files. destruct (glob (history_dir t) _) as [|n l] eqn:E; [done|]. exfalso. apply Hd.
      apply (ho_dirs _ _ Hi). intros Hl.
      assert (n ∈ glob (history_dir t)
                (MkFiles (dpop (file_path t) (fs_files fs)) (fs_dirs fs) (fs_clock fs)))
        as [[bytes Hb] _]%elem_of_glob by (rewrite E; by left).
      simpl in Hb. rewrite dget_dpop in Hb by apply Hi. case_decide; [done|].
      destruct (ho_names _ _ Hi t n) as [id ->]; [by eexists|].
      pose proof (ho_at _ _ Hi t id) as Hat. unfold history_path in Hat. by rewrite Hl, Hb in Hat. }
    rewrite <-Hfiles. eexists. split; [done|]. by apply Hafter.
Qed.

(** What was saved last for a thread is what loads, whatever the clock. *)
#[export] Instance file_keeps_latest (fresh_nonempty : ∀ n, fresh n ≠ "") :
  KeepsLatest file_checkpointer (λ w, ∃ log, holds (get w) log).
Proof.
  split. intros w c [log Hw] Hc. pose proof (saved_holds c (get w) log Hw) as Hs.
  rewrite file_save_eq in Hs. rewrite (identified_fresh _ _ _ Hc) in Hs. simpl in Hs.
  exists (fresh (fs_clock (get w))). simpl. rewrite file_save_eq, (identified_fresh _ _ _ Hc). simpl.
  eexists. split; [done|]. rewrite get_put. split; [done|]. split; [by eexists|]. split.
  - rewrite (file_load_spec _ _ Hs), decide_True by done. unfold log_save. by rewrite last_snoc.
  - intros t Ht. rewrite (file_load_spec _ _ Hs), (file_load_spec _ _ Hw). by rewrite decide_False.
Qed.
End file.

(** ** The contract *)


(** Two saves of a thread while the clock is set back: the second loads, and
    the history lists it first. *)
Definition set_back (n : nat) : string := match n with O => "2-x" | _ => "1-y" end.
Definition ex_saved (step : Z) : RuntimeGraphCheckpoint := Checkpoint "" "t" None "n" step [] [] [] [] "" None.

