(* ===== verification/ProgramFacts.v ===== *)
(** * Properties of programs

    What the state a program answers holds, and how interrupts travel through
    a checkpointer, for every checkpointer that satisfies [CheckpointerSpec]. *)

From S2P Require Import Prelude PyDict GraphTypes GraphState Checkpoint GraphRuntime.
From S2P Require Import GraphContext GraphStream GraphExecutor GraphRun GraphRunFacts.
From S2P Require Import Receipts Program MemoryCheckpointer.

(** ** The state along a run *)

Section states.
Context {W : Type} (ex : RuntimeGraphExecutor W) (trace_key : option string).

Lemma record_trace_wf c : dict_wf (ctx_state c) → dict_wf (ctx_state (record_trace trace_key c)).
Proof. destruct trace_key; simpl; auto with py. Qed.

Lemma record_trace_keys k c :
  k ∈ dkeys (ctx_state c) → k ∈ dkeys (ctx_state (record_trace trace_key c)).
Proof. destruct trace_key; simpl; rewrite ?elem_of_dkeys_dset; auto. Qed.

Lemma merged_wf outcome s s' : merged_into ex outcome s s' → dict_wf s → dict_wf s'.
Proof.
  unfold merged_into. destruct (nar_update outcome); [by intros ->| |done].
  intros Hm Hs. by eapply merge_state_wf.
Qed.

Lemma merged_keys outcome s s' k : merged_into ex outcome s s' → k ∈ dkeys s → k ∈ dkeys s'.
Proof.
  unfold merged_into. destruct (nar_update outcome); [by intros ->| |done].
  intros (fresh & -> & _)%merge_state_keys Hk. apply elem_of_app. by left.
Qed.

Definition good_state (k : string) (c : GraphRunContext) : Prop :=
  dict_wf (ctx_state c) ∧ k ∈ dkeys (ctx_state c).

Lemma node_step_good k c c' : node_step ex trace_key c c' → good_state k c → good_state k c'.
Proof.
  intros [c0 item rest Hp HE|c0 item rest node outcome state targets c1 Hp Hn HE Ha Hle -> Hm Ht]
    [Hw Hk]; [done|]. split; simpl.
  - eapply merged_wf; [done|]. by apply (record_trace_wf (set_trace _ (set_step _ _))).
  - eapply merged_keys; [done|]. by apply (record_trace_keys _ (set_trace _ (set_step _ _))).
Qed.

Lemma path_good k c c' : rtc (node_step ex trace_key) c c' → good_state k c → good_state k c'.
Proof. induction 1; eauto using node_step_good. Qed.

Lemma invoke_state_good k fuel s w w' state trace events :
  dict_wf s → k ∈ dkeys s →
  invoke_with_events ex fuel s trace_key w = Some (w', Ok (state, trace, events)) →
  dict_wf state ∧ k ∈ dkeys state ∧
  ∃ step detail, last events = Some (Event "complete" None step detail) ∧
    dget "state" detail = Some (VDict state).
Proof.
  intros Hs Hk (c & Hpath & _ & -> & _ & ->)%invoke_Ok.
  apply (path_good k) in Hpath as [Hw Hk']; [|done].
  split; [by apply (record_trace_wf c)|]. split; [by apply (record_trace_keys _ c)|].
  do 2 eexists. unfold completed; simpl. rewrite last_snoc. done.
Qed.
End states.

Lemma public_state_hides s : dict_wf s → dget RUNTIME_GRAPH_PLAN_STATE_KEY (public_state s) = None.
Proof. intros H. unfold public_state. rewrite dget_dpop by done. by rewrite decide_True. Qed.

Lemma public_state_keeps s k : dict_wf s → k ≠ RUNTIME_GRAPH_PLAN_STATE_KEY →
  dget k (public_state s) = dget k s.
Proof. intros H Hk. unfold public_state. rewrite dget_dpop by done. by rewrite decide_False. Qed.

Section program_facts.
Context {W : Type} (sha256_hex : string → string) (P : RuntimeGraphProgram W).

(** How an answer or an interrupt of [invoke_with_trace] came about. *)
Lemma invoke_with_trace_Ok fuel s trace_key w w' e :
  invoke_with_trace sha256_hex P fuel s trace_key w = Some (w', Ok e) →
  ∃ receipt digest ex state trace events,
    validated_plan sha256_hex P = Ok (receipt, digest) ∧ program_executor P = Ok ex ∧
    invoke_with_events ex fuel (internal_state (prog_plan P) s) trace_key w =
      Some (w', Ok (state, trace, events)) ∧
    e = execution state trace receipt events.
Proof.
  unfold invoke_with_trace, lift_run. intros H.
  destruct (validated_plan _ _) as [[receipt digest]|]; [|done].
  destruct (program_executor P) as [ex|]; [|done].
  destruct (invoke_with_events _ _ _ _ _) as [[w1 [[[state trace] events]|x]]|] eqn:E;
    simplify_eq/=. naive_solver.
Qed.

Lemma validated_plan_parses receipt digest :
  validated_plan sha256_hex P = Ok (receipt, digest) →
  ∃ r, parse_runtime_receipt receipt = Ok r ∧ receipt_plan_digest r = digest.
Proof.
  unfold validated_plan. intros (u & _ & H)%bind_Ok.
  apply bind_Ok in H as (receipt' & _ & H). apply bind_Ok in H as (r & Hr & [= <- <-]).
  by exists r.
Qed.

(** A program answers the caller's view of the state: the private plan key
    is gone and every other key is as the run left it.  The event log it
    answers still shows the full state, the plan included, in the detail of
    its "complete" event. *)
Theorem invoke_hides_plan fuel s trace_key w w' e :
  dict_wf s →
  invoke_with_trace sha256_hex P fuel s trace_key w = Some (w', Ok e) →
  dget RUNTIME_GRAPH_PLAN_STATE_KEY (exec_state e) = None ∧
  ∃ step detail state,
    last (exec_events e) = Some (Event "complete" None step detail) ∧
    dget "state" detail = Some (VDict state) ∧
    RUNTIME_GRAPH_PLAN_STATE_KEY ∈ dkeys state ∧
    ∀ k, k ≠ RUNTIME_GRAPH_PLAN_STATE_KEY → dget k (exec_state e) = dget k state.
Proof.
  intros Hs (receipt & digest & ex & state & trace & events & _ & _ & Hrun & ->)%invoke_with_trace_Ok.
  apply (invoke_state_good _ _ RUNTIME_GRAPH_PLAN_STATE_KEY) in Hrun
    as (Hw & Hk & step & detail & Hl & Hd).
  - split; [by apply public_state_hides|]. exists step, detail, state.
    split_and!; try done. intros k Hne. by apply public_state_keeps.
  - by apply dset_wf.
  - apply elem_of_dkeys_dset. by left.
Qed.

(** The digest checks of the two resume operations.  The synchronous one lets
    an interrupt without a digest, or with the empty digest, pass; the
    asynchronous one lets only an interrupt without a digest pass.  A check
    that fails leaves the world untouched. *)
Theorem resume_digest_checks receipt digest i fuel r ar trace_key w :
  validated_plan sha256_hex P = Ok (receipt, digest) →
  (int_plan_digest i ≠ None → int_plan_digest i ≠ Some "" → int_plan_digest i ≠ digest →
   resume_interrupted sha256_hex P fuel i r trace_key w = Some (w, Raise digest_mismatch)) ∧
  (int_plan_digest i ≠ None → int_plan_digest i ≠ digest →
   aresume_interrupted sha256_hex P fuel i ar trace_key w = Some (w, Raise digest_mismatch)) ∧
  (∀ ex, program_executor P = Ok ex →
   int_plan_digest i = None ∨ int_plan_digest i = Some "" ∨ int_plan_digest i = digest →
   resume_interrupted sha256_hex P fuel i r trace_key w =
     map_returned (to_execution receipt)
       (GraphExecutor.resume_interrupted ex fuel (restored P receipt digest i) r trace_key w)).
Proof.
  intros Hv. unfold resume_interrupted, aresume_interrupted. rewrite Hv. simpl.
  unfold resume_check, aresume_check. destruct (int_plan_digest i) as [d|]; split_and!.
  - intros _ Hd Hne. rewrite bool_decide_eq_true_2 by congruence.
    by rewrite bool_decide_eq_false_2 by done.
  - intros _ Hne. by rewrite bool_decide_eq_false_2 by done.
  - intros ex Hex [?|[?|Hd]]; simplify_eq; rewrite Hex; [done|].
    by rewrite (bool_decide_eq_true_2 (Some d = Some d)), andb_false_r by done.
  - done.
  - done.
  - intros ex Hex _. by rewrite Hex.
Qed.

(** ** Threads *)

(** An interrupted run leaves its interrupt where the thread loads it from. *)
Lemma interrupt_is_saved (C : Checkpointer W) (inv : W → Prop) `{!KeepsLatest C inv}
    receipt digest ex fuel t s trace_key w w1 i :
  validated_plan sha256_hex P = Ok (receipt, digest) → program_executor P = Ok ex →
  invoke_with_events ex fuel (internal_state (prog_plan P) s) trace_key w =
    Some (w1, Raise (RuntimeGraphInterrupted i)) →
  inv w1 →
  let public := public_interrupted receipt digest i in
  ∃ w2, invoke_thread sha256_hex P C fuel t s trace_key w =
          Some (w2, Raise (RuntimeGraphInterrupted public)) ∧
    inv w2 ∧ ckpt_load_interrupted C t w2 = Ok public.
Proof.
  intros Hv Hex Hrun Hw public.
  destruct (latest_save w1 (checkpoint_from_interrupted t public) Hw eq_refl)
    as (id & w2 & Hsave & _ & Hw2 & Hload & _). simpl in Hload.
  exists w2. unfold invoke_thread, invoke_with_trace. rewrite Hv. simpl. rewrite Hex, Hrun. simpl.
  unfold ckpt_save_interrupted. fold public. rewrite Hsave. split; [done|]. split; [done|].
  unfold ckpt_load_interrupted. rewrite Hload. unfold mbind, result_bind.
  by rewrite to_interrupted_with_id, to_interrupted_from_interrupted.
Qed.

(** A thread that loads the interrupt of a run of this program resumes it. *)
Lemma loaded_interrupt_resumes (C : Checkpointer W) receipt digest ex fuel t r trace_key clear w i :
  validated_plan sha256_hex P = Ok (receipt, digest) → program_executor P = Ok ex →
  let public := public_interrupted receipt digest i in
  ckpt_load_interrupted C t w = Ok public →
  resume_thread sha256_hex P C fuel t r trace_key clear w =
    clear_after (ckpt_clear C) t clear <$> map_returned (to_execution receipt)
      (GraphExecutor.resume_interrupted ex fuel (restored P receipt digest public) r trace_key w).
Proof.
  intros Hv Hex public Hload. unfold resume_thread. rewrite Hload. cbn [lift_run]. f_equal.
  unfold resume_interrupted. rewrite Hv. cbn [lift_run].
  unfold resume_check. cbn [int_plan_digest public public_interrupted].
  rewrite Hex. destruct digest as [d|]; [|done].
  by rewrite (bool_decide_eq_true_2 (Some d = Some d)), andb_false_r.
Qed.

(** C18. A thread whose run was interrupted keeps the interrupt: [invoke_thread]
    raises it with the private key hidden and the receipt attached, and
    [resume_thread] finds it again, passes the digest check, and hands the
    executor the interrupted state with the plan key put back. *)
Theorem interrupted_thread_resumes (C : Checkpointer W) (inv : W → Prop) {latest : KeepsLatest C inv} receipt digest ex fuel t s trace_key w w1 i :
  validated_plan sha256_hex P = Ok (receipt, digest) → program_executor P = Ok ex →
  invoke_with_events ex fuel (internal_state (prog_plan P) s) trace_key w =
    Some (w1, Raise (RuntimeGraphInterrupted i)) →
  inv w1 → dict_wf (int_state i) →
  let public := public_interrupted receipt digest i in
  let again := restored P receipt digest public in
  ∃ w2, invoke_thread sha256_hex P C fuel t s trace_key w =
          Some (w2, Raise (RuntimeGraphInterrupted public)) ∧
    (∀ fuel' r trace_key' clear,
       resume_thread sha256_hex P C fuel' t r trace_key' clear w2 =
         clear_after (ckpt_clear C) t clear <$> map_returned (to_execution receipt)
           (GraphExecutor.resume_interrupted ex fuel' again r trace_key' w2)) ∧
    dget RUNTIME_GRAPH_PLAN_STATE_KEY (int_state public) = None ∧
    (∀ k, dget k (int_state again) =
            if decide (k = RUNTIME_GRAPH_PLAN_STATE_KEY) then Some (v_plan (prog_plan P))
            else dget k (int_state i)) ∧
    int_pending again = int_pending i ∧ int_trace again = int_trace i.
Proof.
  intros Hv Hex Hrun Hw Hst public again.
  destruct (interrupt_is_saved C inv receipt digest ex fuel t s trace_key w w1 i Hv Hex Hrun Hw)
    as (w2 & Hinv & _ & Hload).
  exists w2. split; [done|]. split_and!; try done.
  - intros fuel' r trace_key' clear. by apply loaded_interrupt_resumes.
  - by apply public_state_hides.
  - intros k. simpl. unfold internal_state. rewrite dget_dset. case_decide; [done|].
    by apply public_state_keeps.
Qed.
Context (C : Checkpointer W) (inv : W → Prop)
  (history : W → string → list RuntimeGraphCheckpoint)
  {spec : CheckpointerSpec C inv history}.

Lemma save_appends c w : inv w → cp_checkpoint_id c = "" →
  ∃ id w', ckpt_save C c w = (w', Ok (cp_with_id id c)) ∧ inv w' ∧ id ≠ "" ∧
    history w' (cp_thread_id c) = history w (cp_thread_id c) ++ [cp_with_id id c].
Proof.
  intros Hw Hc. destruct (spec_save w c Hw Hc) as (id & w' & Hs & Hid & _ & Hw' & Hh).
  exists id, w'. split_and!; try done. rewrite Hh. by rewrite decide_True.
Qed.

Lemma load_last w t c : inv w → last (history w t) = Some c → ckpt_load C t w = Ok c.
Proof. intros Hw Hl. rewrite spec_load by done. by rewrite Hl. Qed.

(** A thread whose run returned gets one more checkpoint: it carries the
    public state, the trace and the plan digest of the execution, is not an
    interrupt, and is what the thread's state reads from then on. *)
Theorem invoke_thread_saves fuel t s trace_key w w1 e :
  invoke_with_trace sha256_hex P fuel s trace_key w = Some (w1, Ok e) → inv w1 →
  ∃ w2 c, invoke_thread sha256_hex P C fuel t s trace_key w = Some (w2, Ok e) ∧ inv w2 ∧
    history w2 t = history w1 t ++ [c] ∧ get_state C t w2 = Ok c ∧
    cp_state c = exec_state e ∧ cp_trace c = exec_trace e ∧ cp_interrupt c = None ∧
    exec_plan_digest e = Ok (cp_plan_digest c).
Proof.
  intros Hrun Hw. pose proof Hrun as (receipt & digest & ex & state & trace & events &
    Hv & _ & _ & He)%invoke_with_trace_Ok.
  apply validated_plan_parses in Hv as (r & Hr & Hd).
  unfold invoke_thread. rewrite Hrun. simpl.
  assert (exec_plan_digest e = Ok digest) as Hed.
  { subst. unfold exec_plan_digest, exec_validation; simpl. by rewrite Hr. }
  unfold checkpoint_from_execution. rewrite Hed. simpl.
  match goal with |- context [ckpt_save C ?c _] =>
    destruct (save_appends c w1 Hw eq_refl) as (id & w2 & Hsave & Hw2 & _ & Hh) end.
  rewrite Hsave. do 2 eexists. split; [done|]. split; [done|]. simpl in Hh.
  split; [done|]. split_and!; try done. apply load_last; [done|]. by rewrite Hh, last_snoc.
Qed.

End program_facts.

(** ** Witnesses *)

Module ProgramDemo.
Definition W : Type := MemoryRuntimeGraphCheckpointer.
Definition sha (_ : string) : string := "0123456789abcdef0123".
Definition hello : RuntimeAction W := pure_action (λ _, RMapping [("hello", VInt 1)]).
Definition ask : RuntimeAction W := pure_action (λ _, RInterrupt (Interrupt (VStr "ok?") true)).
Definition plan : RuntimeGraphPlan := Plan ["n"] [Edge START "n"; Edge "n" END] [] 5 [].
Definition program (a : RuntimeAction W) : RuntimeGraphProgram W :=
  Program plan (Bindings [] []) (Registries [("n", simple_action a)] [] [])
    runtime_reference.
Definition execution_of : RuntimeGraphExecution :=
  Eval vm_compute in
    match invoke_with_trace sha (program hello) 3 [] None empty_memory with
    | Some (_, Ok e) => e
    | _ => Execution [] [] "" []
    end.
Definition interrupt_of : Interrupted :=
  Eval vm_compute in
    match program_executor (program ask) with
    | Ok ex =>
        match invoke_with_events ex 3 (internal_state plan []) None empty_memory with
        | Some (_, Raise (RuntimeGraphInterrupted i)) => i
        | _ => MkInterrupted (Interrupt VNone true) "" 0 [] [] [] [] "" None
        end
    | Raise _ => MkInterrupted (Interrupt VNone true) "" 0 [] [] [] [] "" None
    end.
Definition validated : string * option string :=
  Eval vm_compute in
    match validated_plan sha (program ask) with Ok v => v | Raise _ => ("", None) end.
Lemma memory_spec : CheckpointerSpec memory_only (mem_inv numbered) (λ m t, mem_histories t m).
Proof.
  by apply (memory_checkpointer_spec numbered (λ m, m) (λ m _, m) (λ _ _, eq_refl) numbered_inj
             numbered_nonempty).
Qed.
Definition executor : RuntimeGraphExecutor W :=
  MkExecutor plan runtime_reference [("n", ask)] [] [] (index_edges (plan_edges plan)) [].
End ProgramDemo.

Lemma invoke_hides_plan_witness :
  let e := ProgramDemo.execution_of in
  invoke_with_trace ProgramDemo.sha (ProgramDemo.program ProgramDemo.hello) 3 [] None empty_memory =
    Some (empty_memory, Ok e) ∧
  dget RUNTIME_GRAPH_PLAN_STATE_KEY (exec_state e) = None ∧
  ∃ step detail state,
    last (exec_events e) = Some (Event "complete" None step detail) ∧
    dget "state" detail = Some (VDict state) ∧
    RUNTIME_GRAPH_PLAN_STATE_KEY ∈ dkeys state ∧
    ∀ k, k ≠ RUNTIME_GRAPH_PLAN_STATE_KEY → dget k (exec_state e) = dget k state.
Proof.
  split; [vm_compute; reflexivity|].
  apply (invoke_hides_plan ProgramDemo.sha (ProgramDemo.program ProgramDemo.hello) 3 [] None
           empty_memory empty_memory); [constructor|vm_compute; reflexivity].
Defined.

Lemma resume_digest_checks_witness :
  let P := ProgramDemo.program ProgramDemo.ask in
  let i := MkInterrupted (Interrupt VNone true) "n" 1 [] ["n"] [] [] "" (Some "other") in
  resume_interrupted ProgramDemo.sha P 3 i RNone None empty_memory =
    Some (empty_memory, Raise digest_mismatch) ∧
  aresume_interrupted ProgramDemo.sha P 3 i (Direct RNone) None empty_memory =
    Some (empty_memory, Raise digest_mismatch).
Proof.
  split.
  - apply (proj1 (resume_digest_checks ProgramDemo.sha (ProgramDemo.program ProgramDemo.ask)
      ProgramDemo.validated.1 ProgramDemo.validated.2 _ 3 RNone (Direct RNone) None empty_memory
      ltac:(vm_compute; reflexivity))); vm_compute; discriminate.
  - apply (proj1 (proj2 (resume_digest_checks ProgramDemo.sha
      (ProgramDemo.program ProgramDemo.ask)
      ProgramDemo.validated.1 ProgramDemo.validated.2 _ 3 RNone (Direct RNone) None empty_memory
      ltac:(vm_compute; reflexivity)))); vm_compute; discriminate.
Defined.

Lemma invoke_thread_saves_witness :
  ∃ w2 c, invoke_thread ProgramDemo.sha (ProgramDemo.program ProgramDemo.hello) memory_only 3
            "thread" [] None empty_memory = Some (w2, Ok ProgramDemo.execution_of) ∧
    mem_inv numbered w2 ∧
    mem_histories "thread" w2 = mem_histories "thread" empty_memory ++ [c] ∧
    get_state memory_only "thread" w2 = Ok c ∧
    cp_state c = exec_state ProgramDemo.execution_of ∧
    cp_trace c = exec_trace ProgramDemo.execution_of ∧ cp_interrupt c = None ∧
    exec_plan_digest ProgramDemo.execution_of = Ok (cp_plan_digest c).
Proof.
  apply (invoke_thread_saves ProgramDemo.sha (ProgramDemo.program ProgramDemo.hello) memory_only
    (mem_inv numbered) (λ m t, mem_histories t m) (spec := ProgramDemo.memory_spec)
    3 "thread" [] None empty_memory empty_memory);
    [vm_compute; reflexivity|apply empty_memory_inv].
Defined.

Lemma interrupted_thread_resumes_witness :
  let '(receipt, digest) := ProgramDemo.validated in
  let P := ProgramDemo.program ProgramDemo.ask in
  let i := ProgramDemo.interrupt_of in
  let public := public_interrupted receipt digest i in
  let again := restored P receipt digest public in
  ∃ w2, invoke_thread ProgramDemo.sha P memory_only 3 "thread" [] None empty_memory =
          Some (w2, Raise (RuntimeGraphInterrupted public)) ∧
    (∀ fuel' r trace_key' clear,
       resume_thread ProgramDemo.sha P memory_only fuel' "thread" r trace_key' clear w2 =
         clear_after (ckpt_clear memory_only) "thread" clear <$> map_returned (to_execution receipt)
           (GraphExecutor.resume_interrupted ProgramDemo.executor fuel' again r trace_key' w2)) ∧
    dget RUNTIME_GRAPH_PLAN_STATE_KEY (int_state public) = None ∧
    (∀ k, dget k (int_state again) =
            if decide (k = RUNTIME_GRAPH_PLAN_STATE_KEY) then Some (v_plan (prog_plan P))
            else dget k (int_state i)) ∧
    int_pending again = int_pending i ∧ int_trace again = int_trace i.
Proof.
  apply (interrupted_thread_resumes ProgramDemo.sha (ProgramDemo.program ProgramDemo.ask)
    memory_only (mem_inv numbered)
    (latest := history_keeps_latest _ _ _ (CheckpointerSpec0 := ProgramDemo.memory_spec))
    _ _ ProgramDemo.executor 3 "thread" [] None empty_memory empty_memory).
  - vm_compute; reflexivity.
  - reflexivity.
  - vm_compute; reflexivity.
  - apply empty_memory_inv.
  - apply (bool_decide_unpack _). vm_compute; reflexivity.
Defined.
