(* ===== verification/Builder.v ===== *)
(** * The graph builder ([builder.py])

    The mutable builder as a record, one function per method, and the two ways
    to compile it: to an executor and to a program. *)

From S2P Require Import Prelude PyDict GraphTypes GraphState Checkpoint GraphRuntime.
From S2P Require Import GraphContext GraphExecutor GraphRun GraphLinear Receipts Program.

Record RuntimeGraphBuilder (W : Type) : Type := Builder {
  b_nodes : dict string (ActionDef W);
  b_edges : list RuntimeGraphEdge;
  b_conditional_edges : list RuntimeGraphConditionalEdge;
  b_routers : dict string (RuntimeRouter W);
  b_reducers : dict string RuntimeReducer;
  b_metadata : dict string string;
  b_step_limit : Z
}.
Arguments Builder {W}.
Arguments b_nodes {W}.
Arguments b_edges {W}.
Arguments b_conditional_edges {W}.
Arguments b_routers {W}.
Arguments b_reducers {W}.
Arguments b_metadata {W}.
Arguments b_step_limit {W}.

Section builder.
Context {W : Type}.
Implicit Types (b : RuntimeGraphBuilder W).

Definition empty_builder : RuntimeGraphBuilder W := Builder [] [] [] [] [] [] 100.

Definition add_node (name : string) (action : ActionDef W) b : RuntimeGraphBuilder W :=
  Builder (dset name action (b_nodes b)) (b_edges b) (b_conditional_edges b) (b_routers b)
    (b_reducers b) (b_metadata b) (b_step_limit b).

Definition add_edge (source target : string) b : RuntimeGraphBuilder W :=
  Builder (b_nodes b) (b_edges b ++ [Edge source target]) (b_conditional_edges b) (b_routers b)
    (b_reducers b) (b_metadata b) (b_step_limit b).

(** The loop of [add_sequence]. *)
Fixpoint add_items (previous : option string) (items : list (string * ActionDef W)) b :
    RuntimeGraphBuilder W :=
  match items with
  | [] => b
  | (name, action) :: items =>
      let b1 := add_node name action b in
      let b2 := match previous with Some p => add_edge p name b1 | None => b1 end in
      add_items (Some name) items b2
  end.

Definition add_sequence (items : list (string * ActionDef W)) b :
    result Exn (RuntimeGraphBuilder W) :=
  match items with
  | [] => Raise (RuntimeGraphError "runtime graph sequence cannot be empty")
  | _ => Ok (add_items None items b)
  end.

Definition set_entry_point (name : string) b : RuntimeGraphBuilder W := add_edge START name b.
Definition set_finish_point (name : string) b : RuntimeGraphBuilder W := add_edge name END b.

(** [router: str | RuntimeRouter]. *)
Inductive RouterArg : Type :=
| RouterName (name : string)
| RouterFunction (router : RuntimeRouter W).

(** [name or f"{source}:router:{len(self.conditional_edges)}"]. *)
Definition generated_router_name (source : string) (name : option string) b : string :=
  let generated := source +:+ ":router:"
                     +:+ str_of_Z (Z.of_nat (length (b_conditional_edges b))) in
  match name with
  | Some n => if bool_decide (n = "") then generated else n
  | None => generated
  end.

Definition add_conditional_edges (source : string) (router : RouterArg)
    (routes : option (dict string string)) (name : option string) b : RuntimeGraphBuilder W :=
  let '(router_name, routers) :=
    match router with
    | RouterName n => (n, b_routers b)
    | RouterFunction f =>
        let n := generated_router_name source name b in (n, dset n f (b_routers b))
    end in
  Builder (b_nodes b) (b_edges b)
    (b_conditional_edges b ++ [ConditionalEdge source router_name (default [] routes)])
    routers (b_reducers b) (b_metadata b) (b_step_limit b).

Definition add_reducer (state_key : string) (reducer : RuntimeReducer) b :
    RuntimeGraphBuilder W :=
  Builder (b_nodes b) (b_edges b) (b_conditional_edges b) (b_routers b)
    (dset state_key reducer (b_reducers b)) (b_metadata b) (b_step_limit b).

(** [RuntimeGraphBuilder.plan]. *)
Definition builder_plan b : RuntimeGraphPlan :=
  Plan (dkeys (b_nodes b)) (b_edges b) (b_conditional_edges b) (b_step_limit b) (b_metadata b).

(** The options of [compile]. *)
Record CompileOptions : Type := Options {
  opt_runtime : option (RuntimeGraphRuntime W);
  opt_thread_id : option string;
  opt_store : option Value;
  opt_checkpointer : option (Checkpointer W);
  opt_metadata : option (dict string Value)
}.

Definition no_options : CompileOptions := Options None None None None None.

(** [a if a is not None else b]. *)
Definition or_else {A} (a b : option A) : option A := match a with Some _ => a | None => b end.

Definition runtime_from_compile_options (o : CompileOptions) :
    result Exn (RuntimeGraphRuntime W) :=
  match opt_runtime o with
  | None =>
      match opt_thread_id o, opt_store o, opt_checkpointer o, opt_metadata o with
      | None, None, None, None => runtime_post_init default_runtime
      | t, s, c, m => runtime_post_init (MkRuntime t s c (default [] m) "native" None)
      end
  | Some rt =>
      match opt_thread_id o, opt_store o, opt_checkpointer o, opt_metadata o with
      | None, None, None, None => Ok rt
      | t, s, c, m =>
          runtime_post_init
            (MkRuntime (or_else t (rt_thread_id rt)) (or_else s (rt_store rt))
               (or_else c (rt_checkpointer rt)) (dupdate (rt_metadata rt) (default [] m))
               (rt_backend rt) (rt_native_context rt))
      end
  end.

Definition compile (o : CompileOptions) b : result Exn (RuntimeGraphExecutor W) :=
  rt ← runtime_from_compile_options o;
  mk_executor (builder_plan b) (b_nodes b) (b_routers b) (b_reducers b) rt.

Definition compile_program (o : CompileOptions) b : result Exn (RuntimeGraphProgram W) :=
  rt ← runtime_from_compile_options o;
  Ok (mk_program (builder_plan b)
        (Some (Bindings ((λ n, (n, n)) <$> dkeys (b_nodes b))
                 ((λ k, (k, k)) <$> dkeys (b_reducers b))))
        (Some (Registries (b_nodes b) (b_routers b) (b_reducers b))) (Some rt)).

Definition compile_reference_program b : result Exn (RuntimeGraphProgram W) :=
  compile_program (Options (Some runtime_reference) None None None None) b.
End builder.
Arguments RouterArg : clear implicits.
Arguments CompileOptions : clear implicits.

(** ** The invariant of a builder *)

Section facts.
Context {W : Type}.
Implicit Types (b : RuntimeGraphBuilder W).

(** What every builder satisfies: its dictionaries hold no key twice. *)
Definition builder_wf b : Prop :=
  dict_wf (b_nodes b) ∧ dict_wf (b_routers b) ∧ dict_wf (b_reducers b).

Lemma empty_builder_wf : builder_wf (@empty_builder W).
Proof. repeat split; constructor. Qed.

Lemma add_node_wf n a b : builder_wf b → builder_wf (add_node n a b).
Proof. intros (?&?&?). split_and!; simpl; auto with py. Qed.
Lemma add_edge_wf s t b : builder_wf b → builder_wf (add_edge s t b).
Proof. done. Qed.
Lemma add_items_wf prev items b : builder_wf b → builder_wf (add_items prev items b).
Proof.
  revert prev b; induction items as [|[n a] items IH]; intros prev b Hb; simpl; [done|].
  apply IH. destruct prev; simpl; [apply add_edge_wf|]; by apply add_node_wf.
Qed.
Lemma add_reducer_wf k r b : builder_wf b → builder_wf (add_reducer k r b).
Proof. intros (?&?&?). split_and!; simpl; auto with py. Qed.
Lemma add_conditional_edges_wf s r routes n b :
  builder_wf b → builder_wf (add_conditional_edges s r routes n b).
Proof. intros (?&?&?). destruct r; split_and!; simpl; auto with py. Qed.

(** ** Resolution through identity bindings *)

Lemma dget_identity (l : list string) k : dget k ((λ n, (n, n)) <$> l) = if decide (k ∈ l) then Some k else None.
Proof.
induction l as [|x l IH]; csimpl; [done|].
  destruct (decide (k = x)) as [->|Hne].
  - by rewrite decide_True by by left.
  - rewrite IH. destruct (decide (k ∈ l)).
    + by rewrite decide_True by by right.
    + rewrite decide_False; [done|]. by intros [?|?]%elem_of_cons.
Qed.

(** Resolving the keys of a dictionary one by one, each to itself, rebuilds it. *)
Lemma resolve_self {V} (f : dict string V → string → result Exn (dict string V)) (d : dict string V) :
  dict_wf d →
  (∀ acc k v, (k, v) ∈ d → f acc k = Ok (dset k v acc)) →
  foldM f [] (dkeys d) = Ok d.
Proof.
  intros Hwf Hf.
  enough (∀ todo done, d = done ++ todo → foldM f done (dkeys todo) = Ok d) as H by by apply H.
  induction todo as [|[k v] todo IH]; intros done Hd; csimpl.
  - by rewrite Hd, app_nil_r.
  - rewrite (Hf _ _ v) by (rewrite Hd; set_solver). simpl.
    rewrite dset_fresh.
    + apply IH. by rewrite Hd, <-app_assoc.
    + apply dget_None. unfold dict_wf in Hwf. rewrite Hd in Hwf. unfold dkeys in *.
      rewrite fmap_app in Hwf. apply NoDup_app in Hwf as (_ & Hdis & _).
      intros Hin. apply (Hdis k Hin). csimpl. by left.
Qed.

Lemma resolve_actions_self b ms rs :
  dict_wf (b_nodes b) →
  resolve_actions (builder_plan b) (Bindings ((λ n, (n, n)) <$> dkeys (b_nodes b)) ms)
    (Registries (b_nodes b) (b_routers b) rs) = Ok (b_nodes b).
Proof.
  intros Hwf. unfold resolve_actions. simpl. apply resolve_self; [done|].
  intros acc k v Hin. unfold resolve_action, action_for. simpl.
  assert (k ∈ dkeys (b_nodes b)) as Hk by (apply list_elem_of_fmap; by exists (k, v)).
  rewrite dget_identity, decide_True by done. simpl.
  by rewrite (dget_elem_wf _ _ _ Hwf Hin).
Qed.

Lemma resolve_reducers_self (reducers : dict string RuntimeReducer) na
    (actions : dict string (ActionDef W)) routers :
  dict_wf reducers →
  resolve_reducers (Bindings na ((λ k, (k, k)) <$> dkeys reducers))
    (Registries actions routers reducers) = Ok reducers.
Proof.
  intros Hwf. unfold resolve_reducers. simpl.
  transitivity (foldM (λ acc k, resolve_reducer (Registries actions routers reducers) acc (k, k))
                  [] (dkeys reducers)).
  { generalize (@nil (string * RuntimeReducer)). induction (dkeys reducers) as [|k l IH];
      intros acc; csimpl; [done|].
    destruct (resolve_reducer _ acc (k, k)); simpl; [apply IH|done]. }
  apply resolve_self; [done|]. intros acc k v Hin. unfold resolve_reducer. simpl.
  by rewrite (dget_elem_wf _ _ _ Hwf Hin).
Qed.

(** The executor a compiled program builds for each call is the executor
    that [compile] builds from the same builder and options. *)
Theorem compile_program_executes_compile o b P :
  builder_wf b → compile_program o b = Ok P → program_executor P = compile o b.
Proof.
  intros (Hn & _ & Hr) HP. unfold compile_program, compile in *.
  apply bind_Ok in HP as (rt & -> & [= <-]). unfold program_executor, mk_program; simpl.
  by rewrite resolve_actions_self, resolve_reducers_self.
Qed.

(** ** Sequences *)

Lemma add_items_nodes prev items b :
  dict_wf (b_nodes b ++ items) → b_nodes (add_items prev items b) = b_nodes b ++ items.
Proof.
  revert prev b; induction items as [|[n a] items IH]; intros prev b Hwf; simpl;
    [by rewrite app_nil_r|].
  assert (dset n a (b_nodes b) = b_nodes b ++ [(n, a)]) as Hd.
  { apply dset_fresh, dget_None. unfold dict_wf, dkeys in *. rewrite fmap_app in Hwf.
    apply NoDup_app in Hwf as (_ & Hdis & _). intros Hin. apply (Hdis n Hin). csimpl. by left. }
  destruct prev; (rewrite IH; simpl; rewrite Hd, <-app_assoc; [done|exact Hwf]).
Qed.

Lemma add_items_edges p items b :
  b_edges (add_items (Some p) items b) = b_edges b ++ zip_with Edge (p :: dkeys items) (dkeys items) ∧
  b_conditional_edges (add_items (Some p) items b) = b_conditional_edges b ∧
  b_step_limit (add_items (Some p) items b) = b_step_limit b.
Proof.
  revert p b; induction items as [|[n a] items IH]; intros p b; csimpl; [by rewrite app_nil_r|].
  destruct (IH n (add_edge p n (add_node n a b))) as (-> & -> & ->). simpl.
  by rewrite <-app_assoc.
Qed.

(** The index does not depend on where the one edge out of START stands. *)
Lemma index_edges_start z first last n :
  Forall (λ e, edge_source e ≠ START) z → last ≠ START →
  dget_list n (index_edges (z ++ [Edge START first; Edge last END])) =
    dget_list n (index_edges (Edge START first :: z ++ [Edge last END])).
Proof.
  intros Hz Hl. rewrite !dget_list_index_edges, filter_app, filter_cons.
  rewrite (filter_cons _ (Edge START first)). rewrite filter_app. cbn [edge_source].
  destruct (decide (START = n)) as [<-|Hne]; [|done].
  rewrite (filter_none _ z) by done. rewrite filter_cons_False by done. done.
Qed.

Lemma zip_with_sources (sources targets : list string) :
  START ∉ sources → Forall (λ e, edge_source e ≠ START) (zip_with Edge sources targets).
Proof.
  revert targets; induction sources as [|x l IH]; intros [|t targets] Hs; simpl; [done..|].
  apply not_elem_of_cons in Hs as [? ?]. constructor; [done|by apply IH].
Qed.

Lemma last_elem (x : string) l : List.last (x :: l) x ∈ x :: l.
Proof.
  destruct (exists_last (l:=x :: l) ltac:(done)) as (l' & y & ->).
  rewrite last_last. set_solver.
Qed.

(** A builder given a sequence of distinct nodes, its entry and its finish
    point, plans the graph of [linear_plan]: same nodes, same step limit, and
    the same successors of every node. *)
Theorem sequence_is_linear_plan first (a : ActionDef W) items b1 plan :
  dict_wf ((first, a) :: items) → START ∉ dkeys ((first, a) :: items) →
  add_sequence ((first, a) :: items) empty_builder = Ok b1 →
  linear_plan (dkeys ((first, a) :: items)) 100 = Ok plan →
  let b := set_finish_point (List.last (dkeys ((first, a) :: items)) first)
             (set_entry_point first b1) in
  plan_nodes (builder_plan b) = plan_nodes plan ∧
  plan_step_limit (builder_plan b) = plan_step_limit plan ∧
  ∀ n, dget_list n (index_edges (plan_edges (builder_plan b))) =
         dget_list n (index_edges (plan_edges plan)).
Proof.
  intros Hwf HS [= <-] [= <-] b.
  destruct (add_items_edges first items (add_node first a empty_builder)) as (He & Hc & Hl).
  change ((first, a) :: items) with ([(first, a)] ++ items) in Hwf.
  split_and!; simpl.
  - rewrite (add_items_nodes (Some first) items (add_node first a empty_builder)) by done. done.
  - by rewrite Hl.
  - intros n. rewrite He.
    pose proof (index_edges_start (zip_with Edge (dkeys ((first, a) :: items)) (dkeys items)) first
      (List.last (dkeys ((first, a) :: items)) first) n) as Hi.
    simpl in Hi |- *. rewrite <-app_assoc. apply Hi.
    + by apply (zip_with_sources (first :: dkeys items)).
    + intros Heq. apply HS. rewrite <-Heq. apply (last_elem first (dkeys items)).
Qed.
End facts.

Lemma compile_program_executes_compile_witness :
  let b := add_edge "a" END (set_entry_point "a"
             (add_node "a" (simple_action (W:=unit) (pure_action (λ _, RNone))) empty_builder)) in
  let P := mk_program (builder_plan b) (Some (Bindings [("a", "a")] []))
             (Some (Registries (b_nodes b) [] [])) (Some default_runtime) in
  program_executor P = compile no_options b.
Proof.
  apply compile_program_executes_compile; [|reflexivity].
  apply add_edge_wf, add_edge_wf, add_node_wf, empty_builder_wf.
Defined.

Lemma sequence_is_linear_plan_witness :
  let act := simple_action (W:=unit) (pure_action (λ _, RNone)) in
  let b1 := add_items None [("a", act); ("b", act)] empty_builder in
  let b := set_finish_point "b" (set_entry_point "a" b1) in
  let plan := Plan ["a"; "b"] [Edge START "a"; Edge "a" "b"; Edge "b" END] [] 100 [] in
  plan_nodes (builder_plan b) = plan_nodes plan ∧
  plan_step_limit (builder_plan b) = plan_step_limit plan ∧
  ∀ n, dget_list n (index_edges (plan_edges (builder_plan b))) =
         dget_list n (index_edges (plan_edges plan)).
Proof.
  apply (sequence_is_linear_plan "a" (simple_action (W:=unit) (pure_action (λ _, RNone)))
           [("b", simple_action (pure_action (λ _, RNone)))]).
  - apply (bool_decide_unpack _). reflexivity.
  - apply (bool_decide_unpack _). reflexivity.
  - reflexivity.
  - reflexivity.
Defined.
