(* ===== verification/Messages.v ===== *)
(** * Messages ([messages.py])

    Messages as records, and the [add_messages] reducer that merges lists of
    them by id. *)

From S2P Require Import Prelude PyDict GraphTypes GraphState Checkpoint GraphRuntime.
From S2P Require Import GraphContext GraphExecutor GraphRun Receipts Program Builder.

Record RuntimeGraphToolCall : Type := ToolCall {
  tc_name : string;
  tc_args : dict string Value;
  tc_id : string
}.

Record RuntimeGraphMessage : Type := Message {
  msg_role : string;
  msg_content : Value;
  msg_id : option string;
  msg_name : option string;
  msg_tool_calls : list RuntimeGraphToolCall;
  msg_tool_call_id : option string
}.

Definition human_message (content : Value) (id : option string) : RuntimeGraphMessage :=
  Message "human" content id None [] None.
Definition ai_message (content : Value) (id : option string)
    (tool_calls : list RuntimeGraphToolCall) : RuntimeGraphMessage :=
  Message "ai" content id None tool_calls None.
Definition tool_message (content : Value) (tool_call_id : string) (id name : option string) :
    RuntimeGraphMessage :=
  Message "tool" content id name [] (Some tool_call_id).

(** ** The reducer *)

(** [_coerce_messages]: nothing, one message, or a sequence. *)
Inductive MessagesArg : Type :=
| NoMessages
| OneMessage (m : RuntimeGraphMessage)
| ManyMessages (l : list RuntimeGraphMessage).

Definition coerce_messages (value : MessagesArg) : list RuntimeGraphMessage :=
  match value with
  | NoMessages => []
  | OneMessage m => [m]
  | ManyMessages l => l
  end.

(** [{message.id: index for index, message in enumerate(merged) if ...}]. *)
Definition index_messages (merged : list RuntimeGraphMessage) : dict (option string) Z :=
  dict_of (omap (λ im, match msg_id im.2 with
                       | Some i => Some (Some i, Z.of_nat im.1)
                       | None => None
                       end) (imap pair merged)).

(** One iteration of the loop of [add_messages]: the list and its index. *)
Definition add_message (st : list RuntimeGraphMessage * dict (option string) Z)
    (m : RuntimeGraphMessage) : list RuntimeGraphMessage * dict (option string) Z :=
  let '(merged, index) := st in
  match msg_id m, dget (msg_id m) index with
  | Some _, Some k => (<[Z.to_nat k := m]> merged, index)
  | Some _, None => (merged ++ [m], dset (msg_id m) (Z.of_nat (length merged)) index)
  | None, _ => (merged ++ [m], dset (msg_id m) (-1) index)
  end.

Definition add_messages (left right : MessagesArg) : list RuntimeGraphMessage :=
  let merged := coerce_messages left in
  (fold_left add_message (coerce_messages right) (merged, index_messages merged)).1.

(** ** What the reducer promises

    A list whose identified messages have distinct ids is an ordered map from
    ids to messages with some anonymous messages in between; the reducer
    updates it in place and appends what is new. *)

Definition ids (l : list RuntimeGraphMessage) : list string := omap msg_id l.
Definition has_id (i : string) (m : RuntimeGraphMessage) : Prop := msg_id m = Some i.
#[export] Instance has_id_dec i m : Decision (has_id i m).
Proof. unfold has_id. apply _. Defined.

Definition find_message (i : string) (l : list RuntimeGraphMessage) : option RuntimeGraphMessage :=
  last (filter (has_id i) l).
Definition anonymous (l : list RuntimeGraphMessage) : list RuntimeGraphMessage :=
  filter (λ m, msg_id m = None) l.

(** The index knows the place of every identified message. *)
Definition indexed (l : list RuntimeGraphMessage) (index : dict (option string) Z) : Prop :=
  NoDup (ids l) ∧
  ∀ i k, dget (Some i) index = Some k ↔ 0 ≤ k ∧ ∃ m, l !! Z.to_nat k = Some m ∧ msg_id m = Some i.

Lemma ids_app l1 l2 : ids (l1 ++ l2) = ids l1 ++ ids l2.
Proof. apply omap_app. Qed.

Lemma elem_of_ids i l : i ∈ ids l ↔ ∃ m, m ∈ l ∧ msg_id m = Some i.
Proof. apply list_elem_of_omap. Qed.

Lemma find_message_None i l : find_message i l = None ↔ i ∉ ids l.
Proof.
  unfold find_message. rewrite last_None. split.
  - intros Hf (m & Hin & Hid)%elem_of_ids.
    assert (m ∈ filter (has_id i) l) as H by by apply list_elem_of_filter.
    rewrite Hf in H. by apply elem_of_nil in H.
  - intros Hi. apply filter_none, Forall_forall. intros m Hin Hid. apply Hi.
    apply elem_of_ids. by exists m.
Qed.

Lemma find_message_app i l1 l2 :
  find_message i (l1 ++ l2) =
    match find_message i l2 with Some m => Some m | None => find_message i l1 end.
Proof. unfold find_message. by rewrite filter_app, last_app. Qed.

(** The place of an identified message splits the list. *)
Lemma split_at (l : list RuntimeGraphMessage) k m : l !! k = Some m →
  ∃ l1 l2, l = l1 ++ m :: l2 ∧ length l1 = k ∧ ∀ m', <[k := m']> l = l1 ++ m' :: l2.
Proof.
  intros H. exists (take k l), (drop (S k) l).
  pose proof (take_drop_middle _ _ _ H) as Hl. apply lookup_lt_Some in H as Hlt.
  split_and!; [done|rewrite length_take; lia|].
  intros m'. by rewrite insert_take_drop.
Qed.

Lemma indexed_snoc_id l index m i : msg_id m = Some i → i ∉ ids l → indexed l index →
  indexed (l ++ [m]) (dset (Some i) (Z.of_nat (length l)) index).
Proof.
  intros Hm Hi [Hnd Hix]. split.
  - rewrite ids_app. apply NoDup_app. split; [done|]. unfold ids at 2 3. csimpl. rewrite Hm.
    split; [|apply NoDup_singleton]. by intros x Hx ->%list_elem_of_singleton.
  - intros j k. rewrite dget_dset. destruct (decide (Some j = Some i)) as [[= ->]|Hne].
    + split.
      * intros [= <-]. split; [lia|]. exists m. rewrite Nat2Z.id, lookup_app_r by lia.
        by rewrite Nat.sub_diag.
      * intros (Hk & m' & Hl & Hid). apply lookup_app_Some in Hl as [Hl|[Hlen Hl]].
        -- destruct Hi. apply elem_of_ids. exists m'. split; [by eapply list_elem_of_lookup_2|done].
        -- apply list_lookup_singleton_Some in Hl as [Hz _]. f_equal. lia.
    + rewrite Hix. split; intros (Hk & m' & Hl & Hid); (split; [done|]); exists m'; (split; [|done]).
      * by apply lookup_app_l_Some.
      * apply lookup_app_Some in Hl as [Hl|[_ Hl]]; [done|].
        apply list_lookup_singleton_Some in Hl as [_ <-]. congruence.
Qed.

Lemma indexed_snoc_anonymous l index m k : msg_id m = None → indexed l index →
  indexed (l ++ [m]) (dset None k index).
Proof.
  intros Hm [Hnd Hix]. split.
  - rewrite ids_app. unfold ids at 2. csimpl. by rewrite Hm, app_nil_r.
  - intros j k'. rewrite dget_dset_ne by done. rewrite Hix.
    split; intros (Hk & m' & Hl & Hid); (split; [done|]); exists m'; (split; [|done]).
    + by apply lookup_app_l_Some.
    + apply lookup_app_Some in Hl as [Hl|[_ Hl]]; [done|].
      apply list_lookup_singleton_Some in Hl as [_ <-]. congruence.
Qed.

Lemma index_messages_snoc l m :
  index_messages (l ++ [m]) =
    match msg_id m with
    | Some i => dset (Some i) (Z.of_nat (length l)) (index_messages l)
    | None => index_messages l
    end.
Proof.
  unfold index_messages. rewrite imap_app. csimpl. rewrite omap_app, Nat.add_0_r. csimpl.
  unfold dict_of. rewrite dupdate_app. by destruct (msg_id m).
Qed.

Lemma index_messages_indexed l : NoDup (ids l) → indexed l (index_messages l).
Proof.
  induction l as [|m l IH] using rev_ind; intros Hnd.
  - split; [done|]. intros i k. split; [done|]. by intros (_ & m & ? & _).
  - rewrite ids_app in Hnd. apply NoDup_app in Hnd as (Hl & Hdis & _). specialize (IH Hl).
    rewrite index_messages_snoc. destruct (msg_id m) as [i|] eqn:Em.
    + apply indexed_snoc_id; [done| |done]. intros Hi. apply (Hdis i Hi).
      unfold ids. csimpl. rewrite Em. by left.
    + destruct IH as [_ IH]. split.
      * rewrite ids_app. unfold ids at 2. csimpl. by rewrite Em, app_nil_r.
      * intros j k'. rewrite IH.
        split; intros (Hk & m' & Hlk & Hid); (split; [done|]); exists m'; (split; [|done]).
        -- by apply lookup_app_l_Some.
        -- apply lookup_app_Some in Hlk as [Hlk|[_ Hlk]]; [done|].
           apply list_lookup_singleton_Some in Hlk as [_ <-]. congruence.
Qed.

(** One iteration keeps the index right and updates or appends. *)
Lemma add_message_step l index m l' index' :
  indexed l index → add_message (l, index) m = (l', index') →
  indexed l' index' ∧
  (∀ i, find_message i l' = if decide (has_id i m) then Some m else find_message i l) ∧
  anonymous l' = anonymous l ++ anonymous [m] ∧
  ids l' = ids l ++ match msg_id m with
                    | Some i => if decide (i ∈ ids l) then [] else [i]
                    | None => []
                    end.
Proof.
  intros Hix Hadd. unfold add_message in Hadd. unfold anonymous at 3.
  destruct (msg_id m) as [i|] eqn:Em.
  - rewrite filter_cons_False by congruence. rewrite filter_nil, app_nil_r.
    destruct (dget (Some i) index) as [k|] eqn:Ek; injection Hadd as <- <-.
    + destruct (proj1 (proj2 Hix i k) Ek) as (Hk & m0 & Hl & Hm0).
      destruct (split_at _ _ _ Hl) as (l1 & l2 & Hl' & Hlen & Hins). rewrite Hins.
      assert (ids (l1 ++ m :: l2) = ids l) as Hids.
      { rewrite Hl', !ids_app. unfold ids. csimpl. by rewrite Em, Hm0. }
      split_and!.
      * split; [by rewrite Hids; apply Hix|]. intros j k'. rewrite (proj2 Hix j k'). f_equiv.
        rewrite <-Hins. destruct (decide (Z.to_nat k' = Z.to_nat k)) as [Heq|Hne].
        -- rewrite Heq, Hl, list_lookup_insert_eq by (by apply lookup_lt_Some in Hl). naive_solver.
        -- by rewrite list_lookup_insert_ne.
      * intros j. rewrite Hl', !(find_message_app j l1). change (m :: l2) with ([m] ++ l2).
        change (m0 :: l2) with ([m0] ++ l2). rewrite !find_message_app.
        assert (∀ m', find_message j [m'] = if decide (has_id j m') then Some m' else None) as Hone.
        { intros m'. unfold find_message. rewrite filter_cons. by case_decide. }
        rewrite !Hone. destruct (decide (has_id j m)) as [Hj|Hj].
        -- assert (find_message j l2 = None) as ->; [|done]. apply find_message_None.
           unfold has_id in Hj. assert (i = j) as -> by congruence.
           intros Hin. destruct Hix as [Hnd _]. rewrite Hl', ids_app in Hnd.
           apply NoDup_app in Hnd as (_ & _ & Hnd). unfold ids in Hnd. csimpl in Hnd.
           rewrite Hm0 in Hnd. by apply NoDup_cons in Hnd as [[] _].
        -- by rewrite decide_False by (unfold has_id in *; congruence).
      * rewrite Hl'. unfold anonymous. rewrite !filter_app.
        by rewrite !filter_cons_False by congruence.
      * rewrite Hids. rewrite decide_True; [by rewrite app_nil_r|]. apply elem_of_ids.
        exists m0. split; [by eapply list_elem_of_lookup_2|done].
    + assert (i ∉ ids l) as Hi.
      { intros (m0 & Hin & Hm0)%elem_of_ids. apply list_elem_of_lookup_1 in Hin as [n Hn].
        assert (dget (Some i) index = Some (Z.of_nat n)) as Hd; [|congruence].
        apply (proj2 Hix). split; [lia|]. exists m0. by rewrite Nat2Z.id. }
      split_and!.
      * by apply indexed_snoc_id.
      * intros j. rewrite find_message_app. unfold find_message at 1. rewrite filter_cons.
        by case_decide.
      * unfold anonymous. rewrite filter_app, filter_cons_False by congruence.
        by rewrite filter_nil, app_nil_r.
      * rewrite ids_app. unfold ids at 2. csimpl. rewrite Em. by rewrite decide_False.
  - injection Hadd as <- <-. split_and!.
    + by apply indexed_snoc_anonymous.
    + intros j. rewrite find_message_app. unfold find_message at 1. rewrite filter_cons.
      by rewrite !decide_False by (unfold has_id; congruence).
    + unfold anonymous. by rewrite filter_app.
    + rewrite ids_app. unfold ids at 2. csimpl. by rewrite Em.
Qed.

(** ** The theorem *)

(** When the ids on the left are distinct, [add_messages] is an upsert: ids stay
    distinct, an id reads as the last message of the right that has it, else as
    before, the ids of the left keep their order and come first, and anonymous
    messages are appended in order and never replaced. *)
Theorem add_messages_upserts left right :
  NoDup (ids (coerce_messages left)) →
  NoDup (ids (add_messages left right)) ∧
  (∀ i, find_message i (add_messages left right) =
          match find_message i (coerce_messages right) with
          | Some m => Some m
          | None => find_message i (coerce_messages left)
          end) ∧
  anonymous (add_messages left right) =
    anonymous (coerce_messages left) ++ anonymous (coerce_messages right) ∧
  ids (coerce_messages left) `prefix_of` ids (add_messages left right).
Proof.
  intros Hnd. unfold add_messages. pose proof (index_messages_indexed _ Hnd) as Hix.
  generalize dependent (index_messages (coerce_messages left)).
  generalize dependent (coerce_messages left). intros l Hnd index.
  generalize (coerce_messages right). intros r. clear left right. revert l Hnd index.
  induction r as [|m r IH]; intros l Hnd index Hix; cbn [fold_left].
  - cbn [fst]. split_and!; [done|done|by rewrite app_nil_r|done].
  - destruct (add_message (l, index) m) as [l' index'] eqn:E.
    destruct (add_message_step _ _ _ _ _ Hix E) as (Hix' & Hf & Ha & Hi).
    destruct (IH l' (proj1 Hix') index' Hix') as (Hnd' & Hf' & Ha' & Hp').
    split_and!.
    + done.
    + intros i. rewrite Hf', Hf. change (m :: r) with ([m] ++ r). rewrite find_message_app.
      destruct (find_message i r); [done|]. unfold find_message at 2. rewrite filter_cons.
      by case_decide.
    + rewrite Ha', Ha, <-app_assoc. f_equal. unfold anonymous. by rewrite <-filter_app.
    + etrans; [|exact Hp']. rewrite Hi. by eexists.
Qed.

Lemma add_messages_upserts_witness :
  let a1 := human_message (VInt 1) (Some "a") in
  let a2 := human_message (VInt 2) (Some "a") in
  let n := human_message (VInt 3) None in
  add_messages (OneMessage a1) (ManyMessages [n; a2]) = [a2; n] ∧
  find_message "a" (add_messages (OneMessage a1) (ManyMessages [n; a2])) = Some a2.
Proof.
  split; [reflexivity|].
  rewrite (proj1 (proj2 (add_messages_upserts
    (OneMessage (human_message (VInt 1) (Some "a")))
    (ManyMessages [human_message (VInt 3) None; human_message (VInt 2) (Some "a")])
    ltac:(apply NoDup_singleton)))).
  reflexivity.
Defined.
