(* ===== verification/Tools.v ===== *)
(** * Tool nodes and the tool-call loop ([tools.py], [prebuilt.py])

    A state holds messages as values; [v_message] and [message_of] convert.
    Tools are Python callables in a world [W]. *)

From S2P Require Import Prelude PyDict GraphTypes GraphState Checkpoint GraphRuntime.
From S2P Require Import GraphContext GraphExecutor GraphRun Receipts Program Builder Messages.

(** ** Messages as values *)

Definition v_tool_call (c : RuntimeGraphToolCall) : Value :=
  VObj "RuntimeGraphToolCall"
    [("name", VStr (tc_name c)); ("args", VDict (tc_args c)); ("id", VStr (tc_id c))].

Definition v_message (m : RuntimeGraphMessage) : Value :=
  VObj "RuntimeGraphMessage"
    [("role", VStr (msg_role m)); ("content", msg_content m); ("id", v_opt_str (msg_id m));
     ("name", v_opt_str (msg_name m)); ("tool_calls", VTuple (v_tool_call <$> msg_tool_calls m));
     ("tool_call_id", v_opt_str (msg_tool_call_id m))].

Definition opt_str_of (v : Value) : option (option string) :=
  match v with VStr s => Some (Some s) | VNone => Some None | _ => None end.

Definition tool_call_of (v : Value) : option RuntimeGraphToolCall :=
  match v with
  | VObj _ [("name", VStr n); ("args", VDict a); ("id", VStr i)] => Some (ToolCall n a i)
  | _ => None
  end.

Definition message_of (v : Value) : option RuntimeGraphMessage :=
  match v with
  | VObj _ [("role", VStr role); ("content", content); ("id", id); ("name", name);
            ("tool_calls", VTuple calls); ("tool_call_id", call_id)] =>
      id ← opt_str_of id; name ← opt_str_of name; call_id ← opt_str_of call_id;
      calls ← mapM tool_call_of calls;
      Some (Message role content id name calls call_id)
  | _ => None
  end.

Lemma opt_str_of_v o : opt_str_of (v_opt_str o) = Some o.
Proof. by destruct o. Qed.

Lemma message_of_v m : message_of (v_message m) = Some m.
Proof.
  destruct m as [role content id name calls call_id]. simpl. rewrite !opt_str_of_v. simpl.
  assert (mapM tool_call_of (v_tool_call <$> calls) = Some calls) as ->; [|done].
  apply mapM_Some, Forall2_fmap_l. induction calls as [|[]]; constructor; done.
Qed.

Definition not_a_message (attr : string) : Exn :=
  AttributeError ("object has no attribute '" +:+ attr +:+ "'").

(** [_coerce_messages] of a value: an element that is not a message raises as
    soon as its [id] is read. *)
Definition messages_arg (v : Value) : result Exn MessagesArg :=
  match v with
  | VNone => Ok NoMessages
  | VList l | VTuple l =>
      ManyMessages <$> of_option (not_a_message "id") (mapM message_of l)
  | _ =>
      match message_of v with
      | Some m => Ok (OneMessage m)
      | None => Raise (PyError "TypeError" "object is not iterable")
      end
  end.

(** [add_messages] as a reducer of state values. *)
Definition add_messages_reducer : RuntimeReducer := λ left right,
  l ← messages_arg left; r ← messages_arg right;
  Ok (VList (v_message <$> add_messages l r)).

(** ** Tools *)

Section tools.
Context {W : Type}.

(** A Python function called with keyword arguments. *)
Definition ToolFunction : Type := dict string Value → W → activation W Value.

Record RuntimeGraphTool : Type := MkTool {
  tool_name : string;
  tool_invoke : ToolFunction
}.

(** [RuntimeGraphTool.from_callable]: the arguments become keyword arguments. *)
Definition tool_from_callable (name : string) (function : ToolFunction) : RuntimeGraphTool :=
  MkTool name function.

Record RuntimeGraphToolNode : Type := MkToolNode {
  tn_tools : dict string RuntimeGraphTool;
  tn_messages_key : string
}.

Definition from_callables (tools : dict string ToolFunction) (messages_key : string) :
    RuntimeGraphToolNode :=
  MkToolNode ((λ '(name, f), (name, tool_from_callable name f)) <$> tools) messages_key.

Definition RuntimeGraphToolError (msg : string) : Exn := PyError "RuntimeGraphToolError" msg.

(** Sequencing of activations: emissions are concatenated, an exception ends. *)
Definition act_ret {A} (a : A) : W → activation W A := λ w, (w, ([], Ok a)).
Definition act_raise {A} (e : Exn) : W → activation W A := λ w, (w, ([], Raise e)).
Definition act_bind {A B} (m : W → activation W A) (f : A → W → activation W B) :
    W → activation W B := λ w,
  match m w with
  | (w1, (l1, Ok a)) => let '(w2, (l2, r)) := f a w1 in (w2, (l1 ++ l2, r))
  | (w1, (l1, Raise e)) => (w1, (l1, Raise e))
  end.

(** [_invoke_tool]. *)
Definition invoke_tool (node : RuntimeGraphToolNode) (call : RuntimeGraphToolCall) :
    W → activation W RuntimeGraphMessage :=
  match dget (tc_name call) (tn_tools node) with
  | None => act_raise (RuntimeGraphToolError ("missing runtime graph tool: " +:+ tc_name call))
  | Some tool =>
      act_bind (tool_invoke tool (tc_args call))
        (λ v, act_ret (tool_message v (tc_id call) None (Some (tc_name call))))
  end.

(** [[self._invoke_tool(call) for call in calls]]. *)
Fixpoint invoke_tools (node : RuntimeGraphToolNode) (calls : list RuntimeGraphToolCall) :
    W → activation W (list RuntimeGraphMessage) :=
  match calls with
  | [] => act_ret []
  | call :: calls =>
      act_bind (invoke_tool node call) (λ m,
        act_bind (invoke_tools node calls) (λ ms, act_ret (m :: ms)))
  end.

(** [tuple(state.get(key, ()))]. *)
Definition state_messages (key : string) (s : RuntimeState) : result Exn (list Value) :=
  match dget key s with
  | None => Ok []
  | Some (VList l) | Some (VTuple l) => Ok l
  | Some _ => Raise (PyError "TypeError" "object is not iterable")
  end.

(** [messages[-1].tool_calls]. *)
Definition last_tool_calls (v : Value) : result Exn (list RuntimeGraphToolCall) :=
  msg_tool_calls <$> of_option (not_a_message "tool_calls") (message_of v).

(** [RuntimeGraphToolNode.__call__]. *)
Definition call_tool_node (node : RuntimeGraphToolNode) : RuntimeAction W := λ s w,
  match (messages ← state_messages (tn_messages_key node) s;
         last_message ← of_option (RuntimeGraphToolError "runtime graph tool node requires messages")
                          (last messages);
         last_tool_calls last_message) with
  | Raise e => (w, ([], Raise e))
  | Ok calls =>
      act_bind (invoke_tools node calls) (λ outputs,
        act_ret (Direct (RMapping [(tn_messages_key node, VList (v_message <$> outputs))]))) w
  end.

(** ** The prebuilt loop *)

Definition tools_condition (messages_key tools_route end_route : string) (s : RuntimeState) :
    result Exn string :=
  messages ← state_messages messages_key s;
  match last messages with
  | None => Ok end_route
  | Some m =>
      calls ← last_tool_calls m;
      Ok (match calls with [] => end_route | _ => tools_route end)
  end.

Definition condition_router (messages_key tool_node : string) : RuntimeRouter W := λ s w,
  (w, ([], (λ r, Direct (RouteStr r)) <$> tools_condition messages_key tool_node END s)).

Definition tool_loop_builder (model_action : ActionDef W) (tools : dict string ToolFunction)
    (model_node tool_node messages_key : string) : RuntimeGraphBuilder W :=
  let b := add_node model_node model_action empty_builder in
  let b := add_node tool_node
             (simple_action (call_tool_node (from_callables tools messages_key))) b in
  let b := set_entry_point model_node b in
  let b := add_edge tool_node model_node b in
  let b := add_conditional_edges model_node
             (RouterFunction (condition_router messages_key tool_node))
             (Some (dict_of [(tool_node, tool_node); (END, END)]))
             (Some (model_node +:+ ":tools-condition")) b in
  add_reducer messages_key add_messages_reducer b.

Definition create_tool_call_loop (model_action : ActionDef W) (tools : dict string ToolFunction)
    (model_node tool_node messages_key : string) (rt : option (RuntimeGraphRuntime W)) :
    result Exn (RuntimeGraphExecutor W) :=
  compile (Options rt None None None None)
    (tool_loop_builder model_action tools model_node tool_node messages_key).
End tools.
Arguments ToolFunction : clear implicits.
Arguments RuntimeGraphTool : clear implicits.
Arguments RuntimeGraphToolNode : clear implicits.

(** ** Properties *)

Section facts.
Context {W : Type}.

(** Calls that return: the outputs, in the order of the calls. *)
Lemma invoke_tools_Ok (node : RuntimeGraphToolNode W) calls w w' l outputs :
  invoke_tools node calls w = (w', (l, Ok outputs)) →
  Forall2 (λ c m, msg_role m = "tool" ∧ msg_tool_call_id m = Some (tc_id c) ∧
                  msg_name m = Some (tc_name c) ∧ is_Some (dget (tc_name c) (tn_tools node)))
    calls outputs.
Proof.
  revert w l outputs; induction calls as [|c calls IH]; intros w l outputs; simpl.
  - intros [= <- <- <-]. constructor.
  - unfold act_bind. destruct (invoke_tool node c w) as [w1 [l1 [m|e]]] eqn:E1; [|done].
    destruct (invoke_tools node calls w1) as [w2 [l2 [ms|e]]] eqn:E2; [|done]. simpl.
    intros [= -> <- <-]. constructor; [|by eapply IH].
    unfold invoke_tool, act_bind, act_raise, act_ret in E1.
    destruct (dget (tc_name c) (tn_tools node)) as [tool|]; [|done].
    destruct (tool_invoke tool (tc_args c) w) as [w0 [l0 [v|e]]]; simplify_eq/=.
    split_and!; [done..|by eexists].
Qed.

Lemma tool_loop_plan (a : ActionDef W) tools model tool key :
  let p := builder_plan (tool_loop_builder a tools model tool key) in
  plan_edges p = [Edge START model; Edge tool model] ∧
  plan_conditional_edges p =
    [ConditionalEdge model (model +:+ ":tools-condition")
       (dict_of [(tool, tool); (END, END)])] ∧
  (∀ n, n ∈ plan_nodes p ↔ n = model ∨ n = tool).
Proof.
  unfold tool_loop_builder, add_conditional_edges, generated_router_name. simpl.
  rewrite bool_decide_eq_false_2 by (destruct model; discriminate).
  split_and!; [done..|]. intros n.
  change (n ∈ dkeys (dset tool (simple_action (call_tool_node (from_callables tools key)))
                       [(model, a)]) ↔ n = model ∨ n = tool).
  rewrite elem_of_dkeys_dset. unfold dkeys. csimpl. rewrite list_elem_of_singleton. naive_solver.
Qed.

(** The tool loop compiles for every model action, every tools and every choice
    of names, over the reference runtime; its model node goes where
    [tools_condition] points: to the tools when the last message of the state
    asks for some, else to the end. *)
Theorem tool_loop_compiles (a : ActionDef W) tools model tool key :
  ∃ ex, create_tool_call_loop a tools model tool key (Some runtime_reference) = Ok ex ∧
    (∀ s, dget_list model (ex_conditional_edges ex) =
            [ConditionalEdge model (model +:+ ":tools-condition")
               (dict_of [(tool, tool); (END, END)])] ∧
          resolve_conditional_route ex (model +:+ ":tools-condition")
            (dict_of [(tool, tool); (END, END)]) (RouteStr s) =
            if decide (s = tool ∨ s = END)
            then Ok [PNode s]
            else Raise (RuntimeGraphError ("router " +:+ (model +:+ ":tools-condition")
                          +:+ " returned unknown route: " +:+ s))) ∧
    (∀ state m, state_messages key state = Ok m →
       ∀ last_message calls, last m = Some last_message → last_tool_calls last_message = Ok calls →
       tools_condition key tool END state = Ok (match calls with [] => END | _ => tool end)).
Proof.
  destruct (tool_loop_plan a tools model tool key) as (He & Hce & Hn).
  set (b := tool_loop_builder a tools model tool key) in *.
  unfold create_tool_call_loop, compile. simpl. fold b.
  destruct (mk_executor (builder_plan b) (b_nodes b) (b_routers b) (b_reducers b) runtime_reference)
    as [ex|e] eqn:Eex.
  - exists ex. split; [done|]. unfold mk_executor in Eex.
    apply bind_check in Eex as [_ Eex]. apply bind_check in Eex as [_ [= <-]].
    split; [|intros state m Hm lm calls Hl Hc; unfold tools_condition; rewrite Hm; simpl;
             rewrite Hl, Hc; done].
    intros s. split.
    + transitivity (dget_list model
        (index_conditional_edges (plan_conditional_edges (builder_plan b)))); [done|].
      rewrite Hce. unfold index_conditional_edges. simpl.
      unfold dappend, dget_list. simpl. by rewrite decide_True.
    + assert (∀ x, x = tool ∨ x = END → check_endpoint x (plan_nodes (builder_plan b)) = Ok ()) as Hok.
      { intros x Hx. apply check_endpoint_Ok. rewrite Hn. naive_solver. }
      unfold resolve_conditional_route, resolve_route_name, validate_runtime_target.
      cbn [ex_plan]. unfold dict_of, dupdate. cbn [fold_left dset].
      destruct (decide (END = tool)) as [<-|Hne]; cbn [dget].
      * destruct (decide (s = END)) as [->|Hs]; simpl.
        -- rewrite Hok by naive_solver. simpl.
           first [done|by rewrite decide_True by naive_solver].
        -- by rewrite decide_False by naive_solver.
      * destruct (decide (s = tool)) as [->|Ht]; simpl.
        -- rewrite Hok by naive_solver. simpl.
           first [done|by rewrite decide_True by naive_solver].
        -- destruct (decide (s = END)) as [->|Hs]; simpl.
           ++ rewrite Hok by naive_solver. simpl.
           first [done|by rewrite decide_True by naive_solver].
           ++ by rewrite decide_False by naive_solver.
  - exfalso.
    assert (validate_plan (builder_plan b) = Ok ()) as Hp.
    { assert (∀ x, x = model ∨ x = tool ∨ x = START ∨ x = END →
                valid_endpoint (builder_plan b) x) as Hv.
      { intros x Hx. unfold valid_endpoint. rewrite Hn. tauto. }
      apply validate_plan_Ok. rewrite He, Hce. split.
      - apply Forall_cons; split; [split; apply Hv; simpl; tauto|].
        apply Forall_singleton. split; apply Hv; simpl; tauto.
      - apply Forall_singleton. split; [apply Hv; simpl; tauto|].
        unfold dict_of, dupdate. cbn [fold_left dset ce_routes].
        destruct (decide (END = tool)); unfold dvalues; csimpl; rewrite ?Forall_cons, Forall_nil;
          split_and!; try done; apply Hv; tauto. }
    assert (validate_actions (builder_plan b) (b_nodes b) = Ok ()) as Ha.
    { by apply validate_actions_Ok, Forall_forall. }
    unfold mk_executor in Eex. rewrite Hp, Ha in Eex. done.
Qed.
End facts.
