(* ===== verification/Subgraphs.v ===== *)
(** * Subgraphs ([subgraphs.py])

    A graph used as a node of another: its input and output are projections of
    the states, its stream is projected chunk by chunk. *)

From S2P Require Import Prelude PyDict GraphTypes GraphState Checkpoint GraphRuntime.
From S2P Require Import GraphContext GraphStream GraphExecutor GraphRun GraphRunFacts.

Record RuntimeGraphSubgraph (W : Type) : Type := Subgraph {
  sg_executor : RuntimeGraphExecutor W;
  sg_input_keys : option (list string);
  sg_output_keys : option (list string);
  sg_trace_key : option string;
  sg_trace_output_key : option string
}.
Arguments Subgraph {W}.
Arguments sg_executor {W}.
Arguments sg_input_keys {W}.
Arguments sg_output_keys {W}.
Arguments sg_trace_key {W}.
Arguments sg_trace_output_key {W}.

(** [{key: state[key] for key in keys}]. *)
Definition select_keys (keys : list string) (s : dict string Value) :
    result Exn (dict string Value) :=
  dict_of <$> mapM (λ k, (k,.) <$> of_option (KeyError k) (dget k s)) keys.

(** [{key: state[key] for key in keys if key in state}]. *)
Definition select_present (keys : list string) (s : dict string Value) : dict string Value :=
  dict_of (omap (λ k, (k,.) <$> dget k s) keys).

(** A chunk of a subgraph: as the executor made it, or replaced by a mapping. *)
Inductive SubgraphChunk : Type :=
| Kept (c : Chunk)
| Projected (mode : option string) (d : dict string Value).

(** The mapping a bare chunk is, if it is one. *)
Definition payload_mapping (p : ChunkPayload) : option (dict string Value) :=
  match p with
  | CValues s => Some s
  | CUpdates node update => Some [(node, VDict update)]
  | CTask node step status =>
      Some [("node", VStr node); ("step", VInt step); ("status", VStr status)]
  | CCustom (VDict d) => Some d
  | _ => None
  end.

Section subgraph.
Context {W : Type}.
Implicit Types (g : RuntimeGraphSubgraph W).

(** [from_parts]. *)
Definition from_parts (plan : RuntimeGraphPlan) (actions : dict string (ActionDef W))
    (reducers : dict string RuntimeReducer) (routers : dict string (RuntimeRouter W))
    (input_keys output_keys : option (list string)) (trace_key trace_output_key : option string) :
    result Exn (RuntimeGraphSubgraph W) :=
  ex ← mk_executor plan actions routers reducers default_runtime;
  Ok (Subgraph ex input_keys output_keys trace_key trace_output_key).

Definition subgraph_input g (s : dict string Value) : result Exn (dict string Value) :=
  match sg_input_keys g with
  | Some keys => select_keys keys s
  | None => Ok s
  end.

(** What [invoke] makes of the state and the trace of the run. *)
Definition subgraph_output g (r : RuntimeState * list string) : result Exn (dict string Value) :=
  update ← (match sg_output_keys g with
            | Some keys => select_keys keys r.1
            | None => Ok r.1
            end);
  Ok (match sg_trace_output_key g with
      | Some k => dset k (v_str_list r.2) update
      | None => update
      end).

Definition subgraph_invoke g (fuel : nat) (s : dict string Value) (w : W) :
    option (W * result Exn (dict string Value)) :=
  match subgraph_input g s with
  | Raise e => Some (w, Raise e)
  | Ok input =>
      match invoke_with_trace (sg_executor g) fuel input (sg_trace_key g) w with
      | None => None
      | Some (w', r) => Some (w', r ≫= subgraph_output g)
      end
  end.

(** [_project_state]. *)
Definition project_state g (s : dict string Value) : dict string Value :=
  let result := match sg_output_keys g with
                | None => s
                | Some keys => select_present keys s
                end in
  match sg_trace_output_key g, sg_trace_key g with
  | Some out, Some key =>
      if bool_decide (out ≠ "") && bool_decide (key ≠ "") then
        match dget key s with
        | Some trace => dset out trace result
        | None => result
        end
      else result
  | _, _ => result
  end.

(** [_project_stream_chunk].  A bare value a node emitted may itself be a pair
    whose first component is the name of a mode. *)
Definition project_stream_chunk g (c : Chunk) : result Exn SubgraphChunk :=
  match c with
  | Tagged mode (CValues s) => Ok (Projected (Some mode) (project_state g s))
  | Tagged _ _ => Ok (Kept c)
  | Bare (CCustom (VTuple [VStr "values"; VDict s])) =>
      Ok (Projected (Some "values") (project_state g s))
  | Bare (CCustom (VTuple [VStr "values"; _])) =>
      Raise (PyError "TypeError" "object is not a mapping")
  | Bare p =>
      match payload_mapping p with
      | Some d => Ok (Projected None (project_state g d))
      | None => Ok (Kept c)
      end
  end.

(** The input of [stream]: keys that are missing are left out. *)
Definition stream_input g (s : dict string Value) : dict string Value :=
  match sg_input_keys g with
  | Some keys => select_present keys s
  | None => s
  end.

Fixpoint project_chunks g (cs : list Chunk) : list SubgraphChunk * result Exn unit :=
  match cs with
  | [] => ([], Ok ())
  | c :: cs =>
      match project_stream_chunk g c with
      | Raise e => ([], Raise e)
      | Ok c' => let '(cs', r) := project_chunks g cs in (c' :: cs', r)
      end
  end.

Definition subgraph_stream g (fuel : nat) (s : dict string Value) (stream_mode : StreamMode)
    (w : W) : option (list SubgraphChunk * result Exn unit) :=
  match stream (sg_executor g) fuel (stream_input g s) stream_mode (sg_trace_key g) w with
  | None => None
  | Some (cs, (_, r)) =>
      match project_chunks g cs with
      | (cs', Raise e) => Some (cs', Raise e)
      | (cs', Ok _) => Some (cs', r)
      end
  end.

(** [stream_projection]: with a sequence of modes every chunk names its mode;
    a chunk without one cannot be unpacked. *)
Definition subgraph_stream_projection g (fuel : nat) (s : dict string Value)
    (stream_modes : option StreamMode) (w : W) :
    option (result Exn (list (string * (ChunkPayload + dict string Value)))) :=
  (λ '(chunks, r), r ≫= λ _,
     mapM (λ c, match c with
                | Kept (Tagged mode p) => Ok (mode, inl p)
                | Projected (Some mode) d => Ok (mode, inr d)
                | _ => Raise (PyError "TypeError" "cannot unpack stream chunk")
                end) chunks)
    <$> subgraph_stream g fuel s (normalize_stream_modes stream_modes) w.

(** [as_action]: the bound method [invoke]. *)
Definition as_action g : nat → dict string Value → W → option (W * result Exn (dict string Value)) :=
  subgraph_invoke g.
End subgraph.

(** ** Projections *)

Lemma dget_zip_selected (keys : list string) (f : string → option Value) k :
  dget k (dict_of (omap (λ k, (k,.) <$> f k) keys)) =
    if decide (k ∈ keys) then f k else None.
Proof.
  unfold dict_of. induction keys as [|k1 keys IH] using rev_ind; [done|].
  rewrite omap_app, dupdate_app. csimpl.
  destruct (f k1) as [v|] eqn:Ef; csimpl.
  - change (dget k (dset k1 v (dupdate [] (omap (λ k, (k,.) <$> f k) keys))) =
            if decide (k ∈ keys ++ [k1]) then f k else None).
    rewrite dget_dset, IH.
    destruct (decide (k = k1)) as [->|Hne].
    + by rewrite decide_True by set_solver.
    + destruct (decide (k ∈ keys)); [by rewrite decide_True by set_solver|].
      by rewrite decide_False by set_solver.
  - change (dget k (dupdate [] (omap (λ k, (k,.) <$> f k) keys)) =
            if decide (k ∈ keys ++ [k1]) then f k else None).
    rewrite IH. destruct (decide (k = k1)) as [->|Hne].
    + rewrite Ef. by case_decide; rewrite decide_True by set_solver.
    + destruct (decide (k ∈ keys)); [by rewrite decide_True by set_solver|].
      by rewrite decide_False by set_solver.
Qed.

Lemma dget_select_present keys s k :
  dget k (select_present keys s) = if decide (k ∈ keys) then dget k s else None.
Proof. apply (dget_zip_selected keys (λ k, dget k s)). Qed.

Lemma select_keys_Ok keys s d :
  select_keys keys s = Ok d ↔
    Forall (λ k, is_Some (dget k s)) keys ∧ d = select_present keys s.
Proof.
  unfold select_keys, select_present. rewrite fmap_Ok. split.
  - intros (l & Hl & ->). apply mapM_Ok in Hl.
    enough (Forall (λ k, is_Some (dget k s)) keys ∧ l = omap (λ k, (k,.) <$> dget k s) keys)
      as [? ->] by done.
    induction Hl as [|k kv keys l Hkv Hl [IH1 IH2]]; [done|].
    apply fmap_Ok in Hkv as (v & Hv & ->). apply of_option_Ok in Hv. split.
    + constructor; [by eexists|done].
    + csimpl. rewrite Hv. csimpl. by rewrite IH2.
  - intros [Hall ->]. eexists. split; [|done]. apply mapM_Ok.
    induction Hall as [|k keys [v Hv] _ IH]; csimpl; [constructor|].
    rewrite Hv. csimpl. constructor; [by rewrite Hv|done].
Qed.

(** ** Isolation *)

Section isolation.
Context {W : Type}.

(** A subgraph is isolated: its run starts from exactly the selected input
    keys, all of which the caller must have; the update it answers holds
    exactly the selected output keys, with the values the run left, and the
    trace of the run under the trace key. *)
Theorem subgraph_is_isolated (g : RuntimeGraphSubgraph W) ins outs key fuel s w w' update :
  sg_input_keys g = Some ins → sg_output_keys g = Some outs → sg_trace_output_key g = Some key →
  subgraph_invoke g fuel s w = Some (w', Ok update) →
  Forall (λ k, is_Some (dget k s)) ins ∧
  ∃ input state trace,
    (∀ k, dget k input = if decide (k ∈ ins) then dget k s else None) ∧
    invoke_with_trace (sg_executor g) fuel input (sg_trace_key g) w = Some (w', Ok (state, trace)) ∧
    ∀ k, dget k update =
      if decide (k = key) then Some (v_str_list trace)
      else if decide (k ∈ outs) then dget k state else None.
Proof.
  intros Hin Hout Hkey. unfold subgraph_invoke, subgraph_input. rewrite Hin.
  destruct (select_keys ins s) as [input|e] eqn:Ei; [|done].
  apply select_keys_Ok in Ei as [Hins ->].
  destruct (invoke_with_trace _ _ _ _ _) as [[w1 [[state trace]|e]]|] eqn:Er; [|done..].
  intros [= -> Hu]. split; [done|]. exists (select_present ins s), state, trace.
  split; [apply dget_select_present|]. split; [done|].
  unfold subgraph_output in Hu. rewrite Hout, Hkey in Hu.
  apply bind_Ok in Hu as (d & Hd & [= <-]). apply select_keys_Ok in Hd as [_ ->].
  intros k. by rewrite dget_dset, dget_select_present.
Qed.

(** A stream with one mode gives bare chunks, and a bare update or task chunk
    is a mapping like a state: a subgraph with output keys projects it on
    them, so an update of a node that is not named like an output key arrives
    empty.  The same update in a stream with several modes arrives whole. *)
Theorem bare_updates_are_projected (g : RuntimeGraphSubgraph W) outs node update :
  sg_output_keys g = Some outs → node ∉ outs → sg_trace_output_key g = None →
  project_stream_chunk g (Bare (CUpdates node update)) = Ok (Projected None []) ∧
  project_stream_chunk g (Tagged "updates" (CUpdates node update)) =
    Ok (Kept (Tagged "updates" (CUpdates node update))).
Proof.
  intros Hout Hn Hkey. split; [|done]. simpl. unfold project_state. rewrite Hout, Hkey.
  f_equal. f_equal. unfold select_present.
  replace (omap _ outs) with (@nil (string * Value)); [done|].
  clear Hout. induction outs as [|k outs IH]; csimpl; [done|].
  apply not_elem_of_cons in Hn as [Hk Hn]. rewrite decide_False by done. csimpl.
  by apply IH.
Qed.
End isolation.

(** ** Witnesses *)

Module SubgraphDemo.
Definition ex : RuntimeGraphExecutor unit :=
  MkExecutor (Plan ["n"] [Edge START "n"; Edge "n" END] [] 5 []) default_runtime
    [("n", pure_action (λ s, RMapping [("y", default VNone (dget "x" s))]))] [] []
    (index_edges [Edge START "n"; Edge "n" END]) [].
Definition g : RuntimeGraphSubgraph unit := Subgraph ex (Some ["x"]) (Some ["y"]) None (Some "t").
Definition quiet : RuntimeGraphSubgraph unit := Subgraph ex (Some ["x"]) (Some ["y"]) None None.
Definition update : dict string Value := [("y", VInt 1); ("t", v_str_list ["n"])].
End SubgraphDemo.

Lemma subgraph_is_isolated_witness :
  subgraph_invoke SubgraphDemo.g 3 [("x", VInt 1); ("z", VInt 2)] () =
    Some ((), Ok SubgraphDemo.update) ∧
  Forall (λ k, is_Some (dget k [("x", VInt 1); ("z", VInt 2)])) ["x"] ∧
  ∃ input state trace,
    (∀ k, dget k input = if decide (k ∈ ["x"]) then dget k [("x", VInt 1); ("z", VInt 2)] else None) ∧
    invoke_with_trace SubgraphDemo.ex 3 input None () = Some ((), Ok (state, trace)) ∧
    ∀ k, dget k SubgraphDemo.update =
      if decide (k = "t") then Some (v_str_list trace)
      else if decide (k ∈ ["y"]) then dget k state else None.
Proof.
  split; [vm_compute; reflexivity|].
  apply (subgraph_is_isolated SubgraphDemo.g ["x"] ["y"] "t" 3 [("x", VInt 1); ("z", VInt 2)] () ()
           SubgraphDemo.update); [reflexivity..|vm_compute; reflexivity].
Defined.

Lemma bare_updates_are_projected_witness :
  project_stream_chunk SubgraphDemo.quiet (Bare (CUpdates "n" [("y", VInt 1)])) =
    Ok (Projected None []) ∧
  project_stream_chunk SubgraphDemo.quiet (Tagged "updates" (CUpdates "n" [("y", VInt 1)])) =
    Ok (Kept (Tagged "updates" (CUpdates "n" [("y", VInt 1)]))).
Proof.
  apply (bare_updates_are_projected SubgraphDemo.quiet ["y"]); [reflexivity| |reflexivity].
  apply (bool_decide_unpack _). reflexivity.
Defined.
