(* ===== verification/Stores.v ===== *)
(** * Graph stores ([stores.py])

    The in-memory store as a dictionary keyed by namespace and key, the file
    store as files named after SHA-256 digests, and the simulation between
    them.  [time.time_ns()] is the argument [now] of [put]. *)

From Stdlib Require Import Ascii.
From S2P Require Import Prelude PyDict GraphTypes FileCheckpointer.

Definition Namespace : Type := list string.

Record RuntimeGraphStoreItem : Type := StoreItem {
  item_namespace : Namespace;
  item_key : string;
  item_value : Value;
  item_created_at : Z;
  item_updated_at : Z
}.

Definition RuntimeGraphStoreError (msg : string) : Exn := PyError "RuntimeGraphStoreError" msg.

Definition normalize_namespace (ns : Namespace) : result Exn Namespace :=
  match ns with
  | [] => Raise (RuntimeGraphStoreError "runtime graph store namespace must not be empty")
  | _ =>
      if forallb (λ part, negb (bool_decide (part = ""))) ns then Ok ns
      else Raise (RuntimeGraphStoreError "runtime graph store namespace parts must be non-empty")
  end.

Definition check_key (key : string) : result Exn unit :=
  require (negb (bool_decide (key = "")))
    (RuntimeGraphStoreError "runtime graph store key must not be empty").

(** The item [put] writes, given the previous one. *)
Definition next_item (ns : Namespace) (key : string) (value : Value) (now : Z)
    (previous : option RuntimeGraphStoreItem) : RuntimeGraphStoreItem :=
  StoreItem ns key value (match previous with Some p => item_created_at p | None => now end) now.

(** [item_namespace[: len(prefix)] == prefix]. *)
Definition has_prefix (prefix ns : Namespace) : bool := bool_decide (take (length prefix) ns = prefix).

(** The order of [sorted] on pairs of a namespace tuple and a key. *)
Fixpoint ns_le (a b : Namespace) : bool :=
  match a, b with
  | [], _ => true
  | _ :: _, [] => false
  | x :: a, y :: b => if decide (x = y) then ns_le a b else String.leb x y
  end.
Definition store_key_le (a b : Namespace * string) : Prop :=
  (if decide (a.1 = b.1) then String.leb a.2 b.2 else ns_le a.1 b.1) = true.
#[export] Instance store_key_le_dec : RelDecision store_key_le.
Proof. intros a b. unfold store_key_le. apply _. Defined.

Definition item_le (a b : (Namespace * string) * RuntimeGraphStoreItem) : Prop :=
  store_key_le a.1 b.1.
#[export] Instance item_le_dec : RelDecision item_le.
Proof. intros a b. unfold item_le. apply _. Defined.

(** ** The in-memory store *)

Definition MemoryStore : Type := dict (Namespace * string) RuntimeGraphStoreItem.

Definition store_put (ns : Namespace) (key : string) (value : Value) (now : Z) (m : MemoryStore) :
    result Exn (MemoryStore * RuntimeGraphStoreItem) :=
  ns ← normalize_namespace ns;
  _ ← check_key key;
  let item := next_item ns key value now (dget (ns, key) m) in
  Ok (dset (ns, key) item m, item).

Definition store_get (ns : Namespace) (key : string) (m : MemoryStore) :
    result Exn (option RuntimeGraphStoreItem) :=
  ns ← normalize_namespace ns; Ok (dget (ns, key) m).

Definition store_delete (ns : Namespace) (key : string) (m : MemoryStore) :
    result Exn MemoryStore :=
  ns ← normalize_namespace ns; Ok (dpop (ns, key) m).

Definition sorted_store_items (m : MemoryStore) : list ((Namespace * string) * RuntimeGraphStoreItem) :=
  merge_sort item_le m.

Definition store_list (ns : Namespace) (m : MemoryStore) :
    result Exn (list RuntimeGraphStoreItem) :=
  ns ← normalize_namespace ns;
  Ok ((filter (λ e, e.1.1 = ns) (sorted_store_items m)).*2).

Definition store_search (prefix : Namespace) (m : MemoryStore) :
    result Exn (list RuntimeGraphStoreItem) :=
  prefix ← normalize_namespace prefix;
  Ok ((filter (λ e, has_prefix prefix e.1.1 = true) (sorted_store_items m)).*2).

(** ** The file store *)

Definition NUL : string := String (Ascii.ascii_of_nat 0) "".
Definition STORE_SUFFIX : string := ".store.pickle".

Section file_store.
Variable sha256_hex : string → string.
Context {Bytes : Type} (pickle_dumps : RuntimeGraphStoreItem → Bytes)
  (pickle_loads : Bytes → result Exn (option RuntimeGraphStoreItem)).

Definition FileStore : Type := dict path Bytes.

Definition namespace_dir (ns : Namespace) : string := sha256_hex (str_join NUL ns).
Definition store_path (ns : Namespace) (key : string) : path :=
  (namespace_dir ns, sha256_hex key +:+ STORE_SUFFIX).
Definition store_tmp (ns : Namespace) (key : string) : path :=
  (namespace_dir ns, sha256_hex key +:+ ".store.tmp").

(** [_load_item]. *)
Definition load_item (bytes : Bytes) : result Exn RuntimeGraphStoreItem :=
  o ← pickle_loads bytes;
  of_option (RuntimeGraphStoreError "invalid runtime graph store item") o.

Definition file_get (ns : Namespace) (key : string) (f : FileStore) :
    result Exn (option RuntimeGraphStoreItem) :=
  ns ← normalize_namespace ns;
  match dget (store_path ns key) f with
  | None => Ok None
  | Some bytes => Some <$> load_item bytes
  end.

Definition file_put (ns : Namespace) (key : string) (value : Value) (now : Z) (f : FileStore) :
    result Exn (FileStore * RuntimeGraphStoreItem) :=
  ns ← normalize_namespace ns;
  _ ← check_key key;
  previous ← file_get ns key f;
  let item := next_item ns key value now previous in
  let written := dset (store_tmp ns key) (pickle_dumps item) f in
  Ok (dset (store_path ns key) (pickle_dumps item) (dpop (store_tmp ns key) written), item).

Definition file_delete (ns : Namespace) (key : string) (f : FileStore) : result Exn FileStore :=
  ns ← normalize_namespace ns; Ok (dpop (store_path ns key) f).

(** [sorted(dir.glob("*.store.pickle"))]. *)
Definition store_files (dir : string) (f : FileStore) : list string :=
  py_sorted (filter (λ name, ends_with STORE_SUFFIX name = true)
               ((filter (λ p : path, p.1 = dir) (dkeys f)).*2)).

Definition load_file (dir : string) (f : FileStore) (name : string) :
    result Exn RuntimeGraphStoreItem :=
  bytes ← of_option (PyError "FileNotFoundError" name) (dget (dir, name) f);
  load_item bytes.

Definition file_list (ns : Namespace) (f : FileStore) : result Exn (list RuntimeGraphStoreItem) :=
  ns ← normalize_namespace ns;
  mapM (load_file (namespace_dir ns) f) (store_files (namespace_dir ns) f).

(** [sorted(root.glob("*/*.store.pickle"))]: directory by directory. *)
Definition file_search (prefix : Namespace) (f : FileStore) :
    result Exn (list RuntimeGraphStoreItem) :=
  prefix ← normalize_namespace prefix;
  items ← mapM (λ dir, mapM (load_file dir f) (store_files dir f))
            (py_sorted (remove_dups (dkeys f).*1));
  Ok (filter (λ item, has_prefix prefix (item_namespace item) = true) (mjoin items)).

(** ** The simulation *)

(** The digests of the texts in use are distinct. *)
Hypothesis sha_inj : ∀ s s', sha256_hex s = sha256_hex s' → s = s'.
Hypothesis pickle_round_trip : ∀ item, pickle_loads (pickle_dumps item) = Ok (Some item).

Definition nul_free (s : string) : bool :=
  forallb (λ c, negb (Ascii.eqb c (Ascii.ascii_of_nat 0))) (String.list_ascii_of_string s).
(** A namespace in which no part holds a NUL character. *)
Definition plain_namespace (ns : Namespace) : Prop :=
  normalize_namespace ns = Ok ns ∧ Forall (λ part, nul_free part = true) ns.

Lemma nul_free_cons c s :
  nul_free (String c s) = true ↔ c ≠ Ascii.ascii_of_nat 0 ∧ nul_free s = true.
Proof.
  unfold nul_free. cbn [String.list_ascii_of_string forallb].
  rewrite andb_true_iff, negb_true_iff, Ascii.eqb_neq. done.
Qed.

Lemma nul_split s1 s2 r1 r2 : nul_free s1 = true → nul_free s2 = true →
  s1 +:+ NUL +:+ r1 = s2 +:+ NUL +:+ r2 → s1 = s2 ∧ r1 = r2.
Proof. unfold NUL. rewrite !sapp_cons, !sapp_nil_l. apply split_sep. Qed.

Lemma nul_free_no_split s s' r : nul_free s = true → s ≠ s' +:+ NUL +:+ r.
Proof.
  revert s; induction s' as [|c s' IH]; intros [|c2 s].
  - unfold NUL. rewrite sapp_nil_l, sapp_cons. done.
  - intros [Hc _]%nul_free_cons. unfold NUL. rewrite sapp_nil_l, sapp_cons. congruence.
  - by rewrite sapp_cons.
  - intros [_ H]%nul_free_cons. rewrite sapp_cons. intros [= _ Heq]. by apply (IH s H).
Qed.

Lemma join_inj l1 l2 :
  Forall (λ part, nul_free part = true) l1 → Forall (λ part, nul_free part = true) l2 →
  l1 ≠ [] → l2 ≠ [] → str_join NUL l1 = str_join NUL l2 → l1 = l2.
Proof.
  revert l2; induction l1 as [|s1 l1 IH]; intros [|s2 l2] H1 H2 N1 N2; [done..|].
  apply Forall_cons in H1 as [Hs1 Hl1]. apply Forall_cons in H2 as [Hs2 Hl2].
  destruct l1 as [|a1 l1], l2 as [|a2 l2]; cbn [str_join].
  - by intros ->.
  - intros H. by apply nul_free_no_split in H.
  - intros H. symmetry in H. by apply nul_free_no_split in H.
  - intros [-> H]%nul_split; [|done..]. f_equal. by apply IH.
Qed.

Lemma store_path_inj ns ns' key key' : plain_namespace ns → plain_namespace ns' →
  store_path ns key = store_path ns' key' → ns = ns' ∧ key = key'.
Proof.
  intros [Hn Hp] [Hn' Hp'] [= Hd Hk]. split; [|by apply sha_inj, sapp_inj_r with STORE_SUFFIX].
  apply sha_inj in Hd. apply join_inj; try done; by intros ->.
Qed.

Lemma store_tmp_not_path (s s' : string) : s +:+ ".store.tmp" ≠ s' +:+ STORE_SUFFIX.
Proof.
  intros H.
  assert (ends_with ".tmp" (s +:+ ".store.tmp") = true) as H1.
  { replace ".store.tmp" with (".store" +:+ ".tmp") by done. rewrite <-sapp_assoc. apply ends_with_app. }
  rewrite H in H1. unfold STORE_SUFFIX in H1. clear H.
  induction s' as [|c s' IH]; [by vm_compute in H1|]. rewrite sapp_cons in H1.
  cbn [ends_with] in H1. apply orb_true_iff in H1 as [H1|H1]; [|by apply IH].
  apply bool_decide_eq_true in H1. apply (f_equal String.length) in H1.
  simpl in H1. rewrite slen_app in H1. simpl in H1. lia.
Qed.

(** The files of a store are the items of a dictionary of plain namespaces. *)
Record same_store (m : MemoryStore) (f : FileStore) : Prop := {
  ss_wf : dict_wf m ∧ dict_wf f;
  ss_plain : ∀ ns key, is_Some (dget (ns, key) m) → plain_namespace ns;
  ss_item : ∀ ns key item, dget (ns, key) m = Some item → item_namespace item = ns;
  ss_read : ∀ ns key, plain_namespace ns →
    dget (store_path ns key) f = pickle_dumps <$> dget (ns, key) m;
  ss_files : ∀ p bytes, dget p f = Some bytes →
    ∃ ns key, p = store_path ns key ∧ is_Some (dget (ns, key) m)
}.

Lemma load_dumps_item item : load_item (pickle_dumps item) = Ok item.
Proof. unfold load_item. by rewrite pickle_round_trip. Qed.

Lemma empty_same_store : same_store [] [].
Proof. split; [split; constructor|..]; try done. by intros ns key [? ?]. Qed.

Lemma get_same m f ns key : same_store m f → plain_namespace ns →
  file_get ns key f = store_get ns key m.
Proof.
  intros Hs Hns. unfold file_get, store_get. rewrite (proj1 Hns). simpl.
  rewrite (ss_read _ _ Hs) by done. destruct (dget (ns, key) m); simpl; [|done].
  by rewrite load_dumps_item.
Qed.

Lemma tmp_absent m f ns key : same_store m f → dget (store_tmp ns key) f = None.
Proof.
  intros Hs. destruct (dget (store_tmp ns key) f) as [bytes|] eqn:E; [|done].
  apply (ss_files _ _ Hs) in E as (ns' & key' & [= _ H] & _). by apply store_tmp_not_path in H.
Qed.

Lemma put_same m f ns key value now : same_store m f → plain_namespace ns →
  match store_put ns key value now m with
  | Ok (m', item) => ∃ f', file_put ns key value now f = Ok (f', item) ∧ same_store m' f'
  | Raise e => file_put ns key value now f = Raise e
  end.
Proof.
  intros Hs Hns. unfold store_put, file_put. rewrite (proj1 Hns). simpl.
  unfold check_key, require. destruct (negb (bool_decide (key = ""))); simpl; [|done].
  rewrite (get_same _ _ _ _ Hs Hns). unfold store_get. rewrite (proj1 Hns). simpl.
  eexists. split; [done|]. set (item := next_item _ _ _ _ _).
  pose proof (tmp_absent m f ns key Hs) as Htmp.
  assert (∀ p, dget p (dset (store_path ns key) (pickle_dumps item)
             (dpop (store_tmp ns key) (dset (store_tmp ns key) (pickle_dumps item) f))) =
           if decide (p = store_path ns key) then Some (pickle_dumps item) else dget p f) as Hget.
  { intros p. rewrite dget_dset. case_decide; [done|].
    rewrite dget_dpop by (apply dset_wf, Hs). case_decide; [by subst|]. by rewrite dget_dset_ne. }
  split.
  - split; [apply dset_wf, Hs|]. apply dset_wf, dpop_wf, dset_wf, Hs.
  - intros ns' key'. rewrite dget_dset. case_decide; [by simplify_eq|]. apply Hs.
  - intros ns' key' item'. rewrite dget_dset. case_decide; [by intros; simplify_eq|]. apply Hs.
  - intros ns' key' Hns'. rewrite Hget, dget_dset.
    destruct (decide (store_path ns' key' = store_path ns key)) as [Heq|Hne].
    + apply store_path_inj in Heq as [-> ->]; [|done..]. by rewrite decide_True.
    + rewrite decide_False by congruence. by apply Hs.
  - intros p bytes. rewrite Hget. case_decide as Hp.
    + intros _. exists ns, key. split; [done|]. rewrite dget_dset_eq. by eexists.
    + intros (ns' & key' & -> & Hin)%(ss_files _ _ Hs). exists ns', key'. split; [done|].
      rewrite dget_dset_ne by congruence. done.
Qed.

Lemma delete_same m f ns key : same_store m f → plain_namespace ns →
  ∃ m' f', store_delete ns key m = Ok m' ∧ file_delete ns key f = Ok f' ∧ same_store m' f'.
Proof.
  intros Hs Hns. unfold store_delete, file_delete. rewrite (proj1 Hns). simpl.
  do 2 eexists. split_and!; [done..|]. destruct (ss_wf _ _ Hs) as [Hm Hf].
  split.
  - split; by apply dpop_wf.
  - intros ns' key'. rewrite dget_dpop by done. case_decide; [by intros [??]|]. apply Hs.
  - intros ns' key' item'. rewrite dget_dpop by done. case_decide; [done|]. apply Hs.
  - intros ns' key' Hns'. rewrite !dget_dpop by done.
    destruct (decide (store_path ns' key' = store_path ns key)) as [Heq|Hne].
    + apply store_path_inj in Heq as [-> ->]; [|done..]. by rewrite decide_True.
    + rewrite decide_False by congruence. by apply Hs.
  - intros p bytes. rewrite dget_dpop by done. case_decide as Hp; [done|].
    intros (ns' & key' & -> & Hin)%(ss_files _ _ Hs). exists ns', key'. split; [done|].
    rewrite dget_dpop by done. by rewrite decide_False by congruence.
Qed.

(** *** Listing *)

Lemma elem_of_store_files dir f name :
  name ∈ store_files dir f ↔ is_Some (dget (dir, name) f) ∧ ends_with STORE_SUFFIX name = true.
Proof.
  unfold store_files. rewrite elem_of_py_sorted, list_elem_of_filter, list_elem_of_fmap, dget_is_Some.
  setoid_rewrite list_elem_of_filter. split.
  - intros (? & [d n] & -> & <- & ?). done.
  - intros [? ?]. split; [done|]. by exists (dir, name).
Qed.

Lemma elem_of_store_list ns m item : dict_wf m → normalize_namespace ns = Ok ns →
  ∃ l, store_list ns m = Ok l ∧ (item ∈ l ↔ ∃ key, dget (ns, key) m = Some item).
Proof.
  intros Hm Hns. unfold store_list. rewrite Hns. simpl. eexists. split; [done|].
  rewrite list_elem_of_fmap. setoid_rewrite list_elem_of_filter.
  assert (∀ e, e ∈ sorted_store_items m ↔ e ∈ m) as Hperm.
  { intros e. unfold sorted_store_items. by rewrite merge_sort_Permutation. }
  setoid_rewrite Hperm. split.
  - intros ([[ns' key] it] & -> & <- & Hin). exists key. by apply dget_elem_wf.
  - intros [key Hd]. exists ((ns, key), item). split_and!; [done..|]. by apply dget_Some_elem.
Qed.

Lemma file_list_same m f ns : same_store m f → plain_namespace ns →
  ∃ l, file_list ns f = Ok l ∧ ∀ item, item ∈ l ↔ ∃ key, dget (ns, key) m = Some item.
Proof.
  intros Hs Hns. unfold file_list. rewrite (proj1 Hns). simpl.
  assert (∀ name, name ∈ store_files (namespace_dir ns) f → ∃ key item,
            name = sha256_hex key +:+ STORE_SUFFIX ∧ dget (ns, key) m = Some item ∧
            load_file (namespace_dir ns) f name = Ok item) as Hfiles.
  { intros name [[bytes Hb] _]%elem_of_store_files.
    destruct (ss_files _ _ Hs _ _ Hb) as (ns' & key & Hp & Hin).
    assert (plain_namespace ns') as Hns' by by eapply ss_plain.
    injection Hp as Hd ->. apply sha_inj in Hd.
    apply join_inj in Hd as <-; [|apply Hns|apply Hns'|by intros ->; destruct Hns|by intros ->; destruct Hns'].
    destruct Hin as [item Hitem]. exists key, item. split_and!; [done..|].
    unfold load_file. pose proof (ss_read _ _ Hs ns key Hns) as Hr. rewrite Hitem in Hr.
    unfold store_path in Hr. rewrite Hr. simpl. apply load_dumps_item. }
  rewrite mapM_omap.
  - eexists. split; [done|]. intros item. rewrite list_elem_of_omap. split.
    + intros (name & Hin & Hl). destruct (Hfiles _ Hin) as (key & item' & _ & Hk & Hf).
      rewrite Hf in Hl. simplify_eq/=. by exists key.
    + intros [key Hk]. exists (sha256_hex key +:+ STORE_SUFFIX).
      assert (sha256_hex key +:+ STORE_SUFFIX ∈ store_files (namespace_dir ns) f) as Hin.
      { apply elem_of_store_files. split; [|apply ends_with_app].
        pose proof (ss_read _ _ Hs ns key Hns) as Hr. unfold store_path in Hr. rewrite Hr, Hk.
        by eexists. }
      split; [done|]. destruct (Hfiles _ Hin) as (key' & item' & Hname & Hk' & Hf).
      apply sapp_inj_r, sha_inj in Hname as <-. rewrite Hf. simpl. congruence.
  - intros name Hin. by destruct (Hfiles _ Hin) as (key & item & _ & _ & ->).
Qed.
End file_store.

(** ** The theorems *)

(** The file store simulates the in-memory store on namespaces without NUL
    characters: every operation answers the same, errors included, and leaves
    related stores; a namespace lists the same items. *)
Theorem file_store_simulates_memory sha256_hex {Bytes : Type}
    (dumps : RuntimeGraphStoreItem → Bytes) (loads : Bytes → result Exn (option RuntimeGraphStoreItem))
    m f ns key value now :
  (∀ s s', sha256_hex s = sha256_hex s' → s = s') →
  (∀ item, loads (dumps item) = Ok (Some item)) →
  same_store sha256_hex dumps m f → plain_namespace ns →
  file_get sha256_hex loads ns key f = store_get ns key m ∧
  match store_put ns key value now m with
  | Ok (m', item) => ∃ f', file_put sha256_hex dumps loads ns key value now f = Ok (f', item) ∧
                       same_store sha256_hex dumps m' f'
  | Raise e => file_put sha256_hex dumps loads ns key value now f = Raise e
  end ∧
  (∃ m' f', store_delete ns key m = Ok m' ∧ file_delete sha256_hex ns key f = Ok f' ∧
     same_store sha256_hex dumps m' f') ∧
  ∃ l l', store_list ns m = Ok l ∧ file_list sha256_hex loads ns f = Ok l' ∧
     ∀ item, item ∈ l ↔ item ∈ l'.
Proof.
  intros Hsha Hpickle Hs Hns. split_and!.
  - by eapply get_same.
  - by apply put_same.
  - by apply delete_same.
  - destruct (file_list_same _ _ _ Hsha Hpickle _ _ _ Hs Hns) as (l' & Hl' & Hin').
    destruct (elem_of_store_list ns m (StoreItem [] "" VNone 0 0)) as (l & Hl & _);
      [apply Hs|apply Hns|].
    exists l, l'. split_and!; [done..|]. intros item. rewrite Hin'.
    destruct (elem_of_store_list ns m item) as (l2 & Hl2 & Hin); [apply Hs|apply Hns|].
    rewrite Hl in Hl2. injection Hl2 as <-. done.
Qed.

(** The join with NUL is not injective on namespaces that hold a NUL: an item
    the file store puts under the one-part namespace ["a\0b"] is what it
    answers for the two-part namespace ["a"; "b"], whatever the digest is; the
    in-memory store keeps the two apart. *)
Theorem nul_namespaces_collide sha256_hex {Bytes : Type}
    (dumps : RuntimeGraphStoreItem → Bytes) (loads : Bytes → result Exn (option RuntimeGraphStoreItem))
    key value now :
  (∀ item, loads (dumps item) = Ok (Some item)) → key ≠ "" →
  (∃ f item, file_put sha256_hex dumps loads ["a" +:+ NUL +:+ "b"] key value now [] = Ok (f, item) ∧
     file_get sha256_hex loads ["a"; "b"] key f = Ok (Some item) ∧
     item_namespace item ≠ ["a"; "b"]) ∧
  (∃ m item, store_put ["a" +:+ NUL +:+ "b"] key value now [] = Ok (m, item) ∧
     store_get ["a"; "b"] key m = Ok None).
Proof.
  intros Hpickle Hkey. unfold file_put, store_put, check_key.
  rewrite (bool_decide_eq_false_2 (key = "")) by done. split.
  - do 2 eexists. split; [reflexivity|]. split.
    + unfold file_get. cbn [normalize_namespace forallb].
      match goal with |- _ ≫= ?k = _ => change (k ["a"; "b"] = Ok (Some (next_item ["a" +:+ NUL +:+ "b"] key value now None))) end.
      cbv beta. unfold store_path at 1, namespace_dir.
      change (str_join NUL ["a"; "b"]) with (str_join NUL ["a" +:+ NUL +:+ "b"]).
      rewrite (dget_dset_eq _ (store_path sha256_hex ["a" +:+ NUL +:+ "b"] key)).
      unfold load_item. by rewrite Hpickle.
    + discriminate.
  - do 2 eexists. split; [reflexivity|]. unfold store_get. reflexivity.
Qed.

Lemma file_store_simulates_memory_witness :
  let loads := λ item, Ok (Some item) in
  ∃ m item f, store_put ["a"] "k" (VInt 1) 5 [] = Ok (m, item) ∧
    file_put (λ s, s) (λ item, item) loads ["a"] "k" (VInt 1) 5 [] = Ok (f, item) ∧
    same_store (λ s, s) (λ item, item) m f.
Proof.
  assert (plain_namespace ["a"]) as Hns by (split; [reflexivity|repeat constructor]).
  pose proof (file_store_simulates_memory (λ s, s) (λ item, item) (λ item, Ok (Some item))
    [] [] ["a"] "k" (VInt 1) 5 (λ _ _ H, H) (λ _, eq_refl)
    (empty_same_store (λ s, s) (λ item, item)) Hns) as (_ & Hput & _).
  simpl in Hput. destruct Hput as (f' & Hf & Hs). do 3 eexists. split; [reflexivity|].
  split; [exact Hf|exact Hs].
Defined.

Lemma nul_namespaces_collide_witness :
  let loads := λ item, Ok (Some item) in
  (∃ f item, file_put (λ s, s) (λ item, item) loads ["a" +:+ NUL +:+ "b"] "k" (VInt 1) 5 [] =
               Ok (f, item) ∧
     file_get (λ s, s) loads ["a"; "b"] "k" f = Ok (Some item) ∧
     item_namespace item ≠ ["a"; "b"]) ∧
  (∃ m item, store_put ["a" +:+ NUL +:+ "b"] "k" (VInt 1) 5 [] = Ok (m, item) ∧
     store_get ["a"; "b"] "k" m = Ok None).
Proof.
  apply (nul_namespaces_collide (λ s, s) (λ item, item) (λ item, Ok (Some item)));
    [reflexivity|discriminate].
Defined.
