(* ===== verification/Merkle.v ===== *)
(** * Batched Merkle evidence ([batched_evidence.py])

    The framed packets, the leaf and node digests, the tree, its inclusion
    proofs and their verification.  Bytes and text are byte strings (text in
    UTF-8); [sha256] is [hashlib.sha256(...).digest()], a parameter, of which
    the soundness theorem assumes that it does not collide. *)

From Stdlib Require Import Ascii.
From S2P Require Import Prelude GraphTypes.

(** ** [bytes.hex] and [bytes.fromhex] *)

Definition hex_digit (n : nat) : ascii :=
  ascii_of_nat (if (n <? 10)%nat then 48 + n else 87 + n).

Definition hex_val (c : ascii) : option nat :=
  let n := nat_of_ascii c in
  if ((48 <=? n) && (n <=? 57))%nat then Some (n - 48)%nat
  else if ((97 <=? n) && (n <=? 102))%nat then Some (n - 87)%nat
  else if ((65 <=? n) && (n <=? 70))%nat then Some (n - 55)%nat
  else None.

Fixpoint hex (s : string) : string :=
  match s with
  | EmptyString => EmptyString
  | String c s =>
      String (hex_digit (nat_of_ascii c / 16)) (String (hex_digit (nat_of_ascii c mod 16)) (hex s))
  end.

(** ASCII white space may stand before a pair of digits. *)
Definition hex_space (c : ascii) : bool :=
  let n := nat_of_ascii c in (((9 <=? n) && (n <=? 13)) || (n =? 32))%nat.

Fixpoint unhex (s : string) : option string :=
  match s with
  | EmptyString => Some EmptyString
  | String c s =>
      if hex_space c then unhex s
      else match s with
           | EmptyString => None
           | String d s =>
               high ← hex_val c; low ← hex_val d; rest ← unhex s;
               Some (String (ascii_of_nat (16 * high + low)) rest)
           end
  end.

Definition fromhex (s : string) : result Exn string :=
  of_option (ValueError "non-hexadecimal number found in fromhex() arg") (unhex s).

Lemma hex_byte c :
  hex_space (hex_digit (nat_of_ascii c / 16)) = false ∧
  hex_val (hex_digit (nat_of_ascii c / 16)) = Some (nat_of_ascii c / 16)%nat ∧
  hex_val (hex_digit (nat_of_ascii c mod 16)) = Some (nat_of_ascii c mod 16)%nat ∧
  ascii_of_nat (16 * (nat_of_ascii c / 16) + nat_of_ascii c mod 16) = c.
Proof. destruct c as [[] [] [] [] [] [] [] []]; vm_compute; done. Qed.

Lemma unhex_hex s : unhex (hex s) = Some s.
Proof.
  induction s as [|c s IH]; [done|]. destruct (hex_byte c) as (H1 & H2 & H3 & H4).
  cbn [hex unhex]. rewrite H1, H2, H3, IH. cbn [mbind option_bind]. by rewrite H4.
Qed.

Lemma fromhex_hex s : fromhex (hex s) = Ok s.
Proof. unfold fromhex. by rewrite unhex_hex. Qed.

Lemma hex_inj s s' : hex s = hex s' → s = s'.
Proof. intros H. assert (Some s = Some s') as [= ->]; [by rewrite <-!unhex_hex, H|done]. Qed.

(** ** Framed fields *)

(** The fields of a packet; a [bool] and every value that is neither text nor
    an integer are the last case. *)
Inductive Field : Type :=
| FStr (text : string)
| FInt (z : Z)
| FOther.

Definition TypeError (msg : string) : Exn := PyError "TypeError" msg.
Definition IndexError (msg : string) : Exn := PyError "IndexError" msg.

Definition frame_text (text : string) : string :=
  str_of_Z (Z.of_nat (String.length text)) +:+ ":" +:+ text.

Definition frame (value : Field) : result Exn string :=
  match value with
  | FOther => Raise (TypeError "non-canonical Batched Merkle field")
  | FInt z =>
      if z <? 0 then Raise (ValueError "Batched Merkle integer fields must be non-negative")
      else Ok (frame_text (str_of_Z z))
  | FStr s => Ok (frame_text s)
  end.

Definition str_concat (l : list string) : string := foldr (λ a b, a +:+ b) "" l.

Definition LEAF_DOMAIN : string := "poo-flow.batched-evidence-leaf.draft.1|".
Definition NODE_DOMAIN : string := "poo-flow.batched-merkle-node.draft.1|".

Record BatchedEvidenceLeaf : Type := Leaf {
  leaf_id : string;
  leaf_index : Z;
  leaf_nonce : string;
  leaf_first_sequence : Z;
  leaf_last_sequence : Z;
  leaf_payload_digest : string;
  leaf_semantic_root : string;
  leaf_previous_execution_root : string;
  leaf_observation_digest : string;
  leaf_outcome : string;
  leaf_digest : string
}.

(** The [direction] is a string: a verifier meets any text there. *)
Record BatchedMerkleProofStep : Type := ProofStep {
  step_direction : string;
  step_sibling : string
}.

Record BatchedMerkleProof : Type := MerkleProof {
  proof_leaf_index : Z;
  proof_leaf_count : Z;
  proof_steps : list BatchedMerkleProofStep;
  proof_root : string
}.

(** The first ten fields, in the order the digest reads them. *)
Definition leaf_fields (l : BatchedEvidenceLeaf) : list Field :=
  [FStr (leaf_id l); FInt (leaf_index l); FStr (leaf_nonce l);
   FInt (leaf_first_sequence l); FInt (leaf_last_sequence l);
   FStr (leaf_payload_digest l); FStr (leaf_semantic_root l);
   FStr (leaf_previous_execution_root l); FStr (leaf_observation_digest l);
   FStr (leaf_outcome l)].

(** [range(0, n, 2)]. *)
Definition range2 (n : nat) : list nat := (λ i, (2 * i)%nat) <$> seq 0 ((n + 1) / 2).

Section merkle.
Variable sha256 : string → string.

Definition hexdigest (packet : string) : string := hex (sha256 packet).

Definition digest (domain : string) (fields : list Field) : result Exn string :=
  frames ← mapM frame fields;
  Ok (hexdigest (domain +:+ str_concat frames)).

Definition node (left right : string) : result Exn string :=
  digest NODE_DOMAIN [FStr left; FStr right].

Definition at_index (level : list string) (i : nat) : result Exn string :=
  of_option (IndexError "tuple index out of range") (level !! i).

Definition next_level (level : list string) : result Exn (list string) :=
  mapM (λ index,
    left ← at_index level index;
    right ← at_index level (Nat.min (index + 1) (length level - 1));
    node left right) (range2 (length level)).

(** [while len(level) > 1: level = _next_level(level)]. *)
Fixpoint root_loop (fuel : nat) (level : list string) : option (result Exn string) :=
  if (1 <? length level)%nat
  then match fuel with
       | O => None
       | S fuel =>
           match next_level level with
           | Raise e => Some (Raise e)
           | Ok level => root_loop fuel level
           end
       end
  else Some (at_index level 0).

(** Each round shortens the level, so its length is fuel enough
    ([root_loop_enough]). *)
Definition root (level : list string) : result Exn string :=
  match level with
  | [] => Raise (ValueError "Batched Merkle tree requires at least one leaf")
  | _ => default (Raise (PyError "RecursionError" "")) (root_loop (length level) level)
  end.

Definition batched_evidence_leaf (id : string) (index : Z) (nonce : string)
    (first_sequence last_sequence : Z)
    (payload_digest semantic_root previous_execution_root observation_digest outcome : string) :
    result Exn BatchedEvidenceLeaf :=
  let leaf := Leaf id index nonce first_sequence last_sequence payload_digest semantic_root
                previous_execution_root observation_digest outcome in
  d ← digest LEAF_DOMAIN (leaf_fields (leaf ""));
  Ok (leaf d).

Definition batched_merkle_root (leaves : list BatchedEvidenceLeaf) : result Exn string :=
  root (leaf_digest <$> leaves).

Definition batched_merkle_root_digests (digests : list string) : result Exn string :=
  _ ← require (forallb (λ d, (String.length d =? 32)%nat) digests)
        (ValueError "Batched Merkle digest must be exactly 32 bytes");
  r ← root (hex <$> digests);
  fromhex r.

Definition sibling_index (cursor len : nat) : nat :=
  if Nat.even cursor then Nat.min (cursor + 1) (len - 1) else (cursor - 1)%nat.
Definition direction (cursor : nat) : string := if Nat.even cursor then "right" else "left".

Fixpoint proof_loop (fuel : nat) (level : list string) (cursor : nat)
    (steps : list BatchedMerkleProofStep) :
    option (result Exn (list BatchedMerkleProofStep * string)) :=
  if (1 <? length level)%nat
  then match fuel with
       | O => None
       | S fuel =>
           match (sibling ← at_index level (sibling_index cursor (length level));
                  level' ← next_level level;
                  Ok (steps ++ [ProofStep (direction cursor) sibling], level')) with
           | Raise e => Some (Raise e)
           | Ok (steps, level') => proof_loop fuel level' (cursor / 2) steps
           end
       end
  else Some (r ← at_index level 0; Ok (steps, r)).

Definition batched_merkle_proof (leaves : list BatchedEvidenceLeaf) (index : Z) :
    result Exn BatchedMerkleProof :=
  _ ← require ((0 <=? index) && (index <? Z.of_nat (length leaves)))
        (IndexError "Batched Merkle proof index out of bounds");
  '(steps, r) ← default (Raise (PyError "RecursionError" ""))
      (proof_loop (length leaves) (leaf_digest <$> leaves) (Z.to_nat index) []);
  Ok (MerkleProof index (Z.of_nat (length leaves)) steps r).

(** The loop of [batched_merkle_proof_verify]; [None] is its [return False]. *)
Fixpoint climb (current : string) (steps : list BatchedMerkleProofStep) :
    result Exn (option string) :=
  match steps with
  | [] => Ok (Some current)
  | step :: steps =>
      if decide (step_direction step = "left")
      then current ← node (step_sibling step) current; climb current steps
      else if decide (step_direction step = "right")
      then current ← node current (step_sibling step); climb current steps
      else Ok None
  end.

Definition batched_merkle_proof_verify (leaf : BatchedEvidenceLeaf) (proof : BatchedMerkleProof) :
    result Exn bool :=
  o ← climb (leaf_digest leaf) (proof_steps proof);
  Ok match o with Some current => bool_decide (current = proof_root proof) | None => false end.

(** ** The shape of a level *)

Definition node_text (left right : string) : string :=
  hexdigest (NODE_DOMAIN +:+ frame_text left +:+ frame_text right).

Lemma node_Ok l r : node l r = Ok (node_text l r).
Proof. unfold node, digest, node_text. cbn [mapM frame mbind result_bind mret result_ret str_concat foldr]. by rewrite sapp_nil_r. Qed.

Definition pair_at (level : list string) (i : nat) : string :=
  node_text (level !!! (2 * i)%nat) (level !!! Nat.min (2 * i + 1) (length level - 1)).
Definition next (level : list string) : list string :=
  pair_at level <$> seq 0 ((length level + 1) / 2).

Lemma half_lt n i : (i < (n + 1) / 2 ↔ 2 * i < n)%nat.
Proof.
  pose proof (Nat.div_mod (n + 1) 2 ltac:(lia)) as E.
  pose proof (Nat.mod_upper_bound (n + 1) 2 ltac:(lia)). split; intros; nia.
Qed.

Lemma at_index_lookup level i : (i < length level)%nat → at_index level i = Ok (level !!! i).
Proof. intros Hi. unfold at_index. by rewrite (list_lookup_lookup_total_lt level i Hi). Qed.

Lemma next_level_eq level : next_level level = Ok (next level).
Proof.
  unfold next_level, next, range2. apply mapM_Ok, Forall2_fmap_2, Forall_Forall2_diag, Forall_seq.
  intros i Hi. assert (2 * i < length level)%nat by (apply half_lt; lia).
  rewrite !at_index_lookup by lia. cbn [mbind result_bind]. by rewrite node_Ok.
Qed.

Lemma length_next level : length (next level) = ((length level + 1) / 2)%nat.
Proof. unfold next. by rewrite length_fmap, length_seq. Qed.

Lemma next_shorter level : (1 < length level)%nat → (0 < length (next level) < length level)%nat.
Proof. rewrite length_next. intros H. split; [by apply half_lt; lia|]. apply Nat.div_lt_upper_bound; lia. Qed.

Lemma lookup_next level i : (2 * i < length level)%nat → next level !! i = Some (pair_at level i).
Proof. intros Hi. unfold next. rewrite list_lookup_fmap, lookup_seq_lt by by apply half_lt. done. Qed.

Lemma elem_of_next level d : d ∈ next level → ∃ l r, l ∈ level ∧ r ∈ level ∧ d = node_text l r.
Proof.
  unfold next. intros (i & -> & Hi)%list_elem_of_fmap. apply elem_of_seq in Hi.
  assert (2 * i < length level)%nat by (apply half_lt; lia).
  eexists _, _; split_and!; [..|reflexivity]; apply list_elem_of_lookup_total_2; lia.
Qed.

(** ** Termination *)

Lemma root_loop_S m level :
  root_loop m level =
    if (1 <? length level)%nat
    then match m with O => None | S m => root_loop m (next level) end
    else Some (at_index level 0).
Proof. destruct m; cbn [root_loop]; by rewrite ?next_level_eq. Qed.

Lemma root_loop_enough level m : level ≠ [] → (length level ≤ m)%nat →
  ∃ d, root_loop m level = Some (Ok d).
Proof.
  revert level; induction m as [|m IH]; intros level Hl Hm; rewrite root_loop_S;
    destruct (Nat.ltb_spec 1 (length level)) as [H|H].
  - lia.
  - destruct level; [done|simpl in *; lia].
  - apply next_shorter in H. apply IH; [|lia]. intros E. rewrite E in H. simpl in H. lia.
  - destruct level as [|d [|??]]; [done|by exists d|simpl in *; lia].
Qed.

Lemma root_loop_more level m m' r :
  root_loop m level = Some r → (m ≤ m')%nat → root_loop m' level = Some r.
Proof.
  revert level m'; induction m as [|m IH]; intros level m' H Hm; rewrite root_loop_S in H |- *;
    destruct (1 <? length level)%nat; try done.
  destruct m' as [|m']; [lia|]. apply IH; [done|lia].
Qed.

Lemma root_eq level m : level ≠ [] → (length level ≤ m)%nat → root_loop m level = Some (root level).
Proof.
  intros Hl Hm. destruct (root_loop_enough level (length level) Hl ltac:(lia)) as [d Hd].
  rewrite (root_loop_more _ _ _ _ Hd Hm). unfold root. destruct level; [done|]. by rewrite Hd.
Qed.

Lemma root_Ok level : level ≠ [] → ∃ d, root level = Ok d.
Proof.
  intros Hl. destruct (root_loop_enough level (length level) Hl ltac:(lia)) as [d Hd].
  exists d. rewrite (root_eq _ _ Hl ltac:(done)) in Hd. congruence.
Qed.

Lemma root_step level : (1 < length level)%nat → root level = root (next level).
Proof.
  intros H. pose proof (next_shorter _ H) as Hn.
  assert (level ≠ []) by (intros ->; simpl in H; lia).
  assert (next level ≠ []) by (intros E; rewrite E in Hn; simpl in Hn; lia).
  assert (Some (root level) = Some (root (next level))) as [= ->]; [|done].
  rewrite <-(root_eq _ (S (length level))) by (done || lia).
  rewrite <-(root_eq (next level) (length level)) by (done || lia).
  rewrite root_loop_S. by rewrite (proj2 (Nat.ltb_lt _ _) H).
Qed.

(** ** Completeness of the proofs *)

Lemma climb_app c steps1 steps2 :
  climb c (steps1 ++ steps2) =
    (o ← climb c steps1; match o with Some c => climb c steps2 | None => Ok None end).
Proof.
  revert c; induction steps1 as [|s l IH]; intros c; cbn [climb app]; [done|].
  repeat case_decide; [..|done]; rewrite node_Ok; apply IH.
Qed.

(** One step up from position [cursor] arrives at position [cursor / 2]. *)
Lemma climb_step level cursor c : (1 < length level)%nat → level !! cursor = Some c →
  climb c [ProofStep (direction cursor) (level !!! sibling_index cursor (length level))]
    = Ok (Some (pair_at level (cursor / 2))).
Proof.
  intros Hl Hc. assert (c = level !!! cursor) as -> by (symmetry; by apply list_lookup_total_correct).
  unfold direction, sibling_index, pair_at. cbn [climb step_direction step_sibling].
  pose proof (Nat.div_mod cursor 2 ltac:(lia)) as E.
  destruct (Nat.even cursor) eqn:Ev.
  - apply Nat.even_spec in Ev as [q ->]. replace (2 * q / 2)%nat with q by (rewrite Nat.mul_comm, Nat.div_mul; lia).
    rewrite decide_False, decide_True, node_Ok by done. done.
  - assert (Nat.odd cursor = true) as [q ->]%Nat.odd_spec by by rewrite <-Nat.negb_even, Ev.
    replace ((2 * q + 1) / 2)%nat with q by (rewrite Nat.mul_comm, Nat.div_add_l; [simpl; lia|lia]).
    apply lookup_lt_Some in Hc. rewrite decide_True, node_Ok by done.
    replace (2 * q + 1 - 1)%nat with (2 * q)%nat by lia.
    replace (Nat.min (2 * q + 1) (length level - 1)) with (2 * q + 1)%nat by lia. done.
Qed.

Lemma cursor_half level cursor : (cursor < length level)%nat →
  next level !! (cursor / 2)%nat = Some (pair_at level (cursor / 2)).
Proof.
  intros H. apply lookup_next. pose proof (Nat.div_mod cursor 2 ltac:(lia)). lia.
Qed.

Lemma proof_loop_complete m level cursor c0 c steps :
  (length level ≤ m)%nat → level !! cursor = Some c → climb c0 steps = Ok (Some c) →
  ∃ steps' d, proof_loop m level cursor steps = Some (Ok (steps', d)) ∧
    root level = Ok d ∧ climb c0 steps' = Ok (Some d).
Proof.
  revert level cursor c steps; induction m as [|m IH]; intros level cursor c steps Hm Hc Hs;
    pose proof (lookup_lt_Some _ _ _ Hc) as Hlt; [lia|].
  cbn [proof_loop]. destruct (Nat.ltb_spec 1 (length level)) as [H|H].
  - pose proof (next_shorter _ H) as Hn.
    assert (sibling_index cursor (length level) < length level)%nat
      by (unfold sibling_index; destruct (Nat.even cursor); lia).
    rewrite at_index_lookup, next_level_eq by done. cbn [mbind result_bind].
    destruct (IH (next level) (cursor / 2)%nat (pair_at level (cursor / 2))
                (steps ++ [ProofStep (direction cursor)
                             (level !!! sibling_index cursor (length level))])) as (steps' & d & ? & Hd & ?);
      [lia|by apply cursor_half| |].
    + rewrite climb_app, Hs. cbn [mbind result_bind]. by apply climb_step.
    + exists steps', d. by rewrite root_step.
  - destruct level as [|d [|??]]; [done| |simpl in *; lia]. destruct cursor; [|done].
    injection Hc as ->. exists steps, c. done.
Qed.

(** ** Soundness *)

Lemma frame_text_inj a b x y :
  frame_text a +:+ x = frame_text b +:+ y → a = b ∧ x = y.
Proof.
  unfold frame_text. rewrite !sapp_assoc, !sapp_cons, !sapp_nil_l. intros H.
  assert (∀ s, sforall (λ c, negb (Ascii.eqb c ":"%char)) (str_of_Z (Z.of_nat (String.length s))) = true) as Hd.
  { intros s. apply str_of_Z_forall; [|lia]. intros n. unfold pretty_N_char. by repeat case_match. }
  apply split_sep in H as [Hl H]; [|done..]. apply (inj pretty), Nat2Z.inj in Hl.
  revert b Hl H; induction a as [|c a IH]; intros [|c' b] Hl H; [..|apply eq_add_S in Hl]; try done.
  - rewrite !sapp_cons in H. injection H as -> H. by destruct (IH b Hl H) as [-> ->].
Qed.

(** The texts of the fields, which is what a packet determines. *)
Definition field_text (f : Field) : string :=
  match f with FStr s => s | FInt z => str_of_Z z | FOther => "" end.

Lemma frame_field f s : frame f = Ok s → s = frame_text (field_text f).
Proof. destruct f; simpl; [congruence| |done]. case_match; intros; inv_result; congruence. Qed.

Lemma frames_inj fs fs' ss ss' : mapM frame fs = Ok ss → mapM frame fs' = Ok ss' →
  str_concat ss = str_concat ss' → field_text <$> fs = field_text <$> fs'.
Proof.
  intros H H'. apply mapM_Ok in H, H'. revert fs' ss' H'.
  induction H as [|f s fs ss Hf _ IH]; intros fs' ss' H' E; destruct H' as [|f' s' fs' ss' Hf' H']; [done|..];
    try apply frame_field in Hf as ->; try apply frame_field in Hf' as ->; cbn [str_concat foldr] in E.
  - apply (f_equal String.length) in E. unfold frame_text in E. rewrite !slen_app in E. simpl in E. lia.
  - apply (f_equal String.length) in E. unfold frame_text in E. rewrite !slen_app in E. simpl in E. lia.
  - apply frame_text_inj in E as [E1 E2]. csimpl. by rewrite E1, (IH fs' ss').
Qed.

Section soundness.
Hypothesis sha_inj : ∀ p p', sha256 p = sha256 p' → p = p'.

Lemma hexdigest_inj p p' : hexdigest p = hexdigest p' → p = p'.
Proof. intros H%hex_inj. by apply sha_inj. Qed.

Lemma node_text_inj l r l' r' : node_text l r = node_text l' r' → l = l' ∧ r = r'.
Proof.
  unfold node_text. intros H%hexdigest_inj.
  assert (∀ s t t', s +:+ t = s +:+ t' → t = t') as Hcancel.
  { induction s as [|c s IH]; intros t t'; [by rewrite !sapp_nil_l|]. rewrite !sapp_cons. intros [= E]. by apply IH. }
  apply Hcancel, frame_text_inj in H as [-> H].
  by destruct (frame_text_inj r r' "" "") as [-> _]; [by rewrite !sapp_nil_r|].
Qed.

(** The digest of a leaf made by [batched_evidence_leaf]. *)
Definition is_leaf_digest (d : string) : Prop := ∃ packet, d = hexdigest (LEAF_DOMAIN +:+ packet).

Lemma leaf_not_node d l r : is_leaf_digest d → d ≠ node_text l r.
Proof.
  intros [p ->] H%hexdigest_inj. revert H. unfold LEAF_DOMAIN, NODE_DOMAIN. rewrite !sapp_cons. congruence.
Qed.

Lemma leaf_digest_is_leaf id i n f t p s e o out leaf :
  batched_evidence_leaf id i n f t p s e o out = Ok leaf → is_leaf_digest (leaf_digest leaf).
Proof.
  unfold batched_evidence_leaf, digest. intros H. apply bind_Ok in H as (d & Hd & [= <-]).
  apply bind_Ok in Hd as (frames & _ & [= <-]). by eexists.
Qed.

(** The binary trees whose hash is a digest of some level. *)
Inductive tree : Type := TLeaf (d : string) | TNode (l r : tree).
Fixpoint thash (t : tree) : string :=
  match t with TLeaf d => d | TNode l r => node_text (thash l) (thash r) end.
Fixpoint tleaves (t : tree) : list string :=
  match t with TLeaf d => [d] | TNode l r => tleaves l ++ tleaves r end.

Definition covers (level0 : list string) (d : string) : Prop :=
  ∃ t, thash t = d ∧ ∀ x, x ∈ tleaves t → x ∈ level0.

Lemma covers_next level0 level : (∀ d, d ∈ level → covers level0 d) →
  ∀ d, d ∈ next level → covers level0 d.
Proof.
  intros H d (l & r & (tl & <- & Hl)%H & (tr & <- & Hr)%H & ->)%elem_of_next.
  exists (TNode tl tr). split; [done|]. intros x [?|?]%elem_of_app; auto.
Qed.

Lemma root_covers level d : root level = Ok d → covers level d.
Proof.
  intros Hd. enough (∀ m level', level' ≠ [] → (length level' ≤ m)%nat →
    (∀ x, x ∈ level' → covers level x) → root level' = Ok d → covers level d) as Hgen.
  { apply (Hgen (length level) level); [by intros ->|done| |done].
    intros x Hx. exists (TLeaf x). split; [done|]. by intros y ->%list_elem_of_singleton. }
  induction m as [|m IH]; intros level' Hn Hm Hc Hr; [destruct level'; [done|simpl in Hm; lia]|].
  destruct (decide (1 < length level')%nat) as [H|H].
  - pose proof (next_shorter _ H). rewrite root_step in Hr by done.
    apply (IH (next level')); [by destruct (next level'); [simpl in *; lia|]|lia| |done].
    by apply covers_next.
  - destruct level' as [|x [|??]]; [done| |simpl in H; lia]. apply Hc.
    change (Ok (E:=Exn) x = Ok d) in Hr. injection Hr as ->. by left.
Qed.

(** A climb that ends in the hash of a tree of leaf digests started in it. *)
Lemma climb_sound t c steps : is_leaf_digest c → Forall is_leaf_digest (tleaves t) →
  climb c steps = Ok (Some (thash t)) → c ∈ tleaves t.
Proof.
  intros Hc. revert t. induction steps as [|s steps IH] using rev_ind; intros t Ht H.
  - injection H as ->. destruct t as [d|l r]; [by left|]. by destruct (leaf_not_node _ _ _ Hc eq_refl).
  - rewrite climb_app in H. apply bind_Ok in H as ([c'|] & H1 & H2); [|done].
    cbn [climb] in H2. rewrite !node_Ok in H2. cbn [mbind result_bind] in H2.
    destruct t as [d|l r].
    { inversion Ht as [|?? Hd _]; subst. simpl in H2.
      repeat case_decide; simplify_eq; by destruct (leaf_not_node _ _ _ Hd eq_refl). }
    apply Forall_app in Ht as [Hl Hr]. cbn [tleaves thash] in *. apply elem_of_app.
    repeat case_decide; simplify_eq.
    + right. apply IH; [done|]. rewrite H1. by apply node_text_inj in H2 as [_ ->].
    + left. apply IH; [done|]. rewrite H1. by apply node_text_inj in H2 as [-> _].
Qed.
End soundness.

(** C17. Inclusion proofs are sound: if SHA-256 does not collide, a leaf made by
    [batched_evidence_leaf] whose proof verifies against the root of a
    collection of such leaves has the digest of one of them, whatever steps
    the proof holds. *)
Theorem merkle_proof_sound (leaves : list BatchedEvidenceLeaf) (leaf : BatchedEvidenceLeaf)
    (proof : BatchedMerkleProof) :
  (∀ p p', sha256 p = sha256 p' → p = p') →
  Forall (λ l, is_leaf_digest (leaf_digest l)) (leaf :: leaves) →
  batched_merkle_root leaves = Ok (proof_root proof) →
  batched_merkle_proof_verify leaf proof = Ok true →
  leaf_digest leaf ∈ leaf_digest <$> leaves.
Proof.
  intros Hinj Hl%Forall_cons Hroot Hv. destruct Hl as [Hleaf Hleaves].
  apply bind_Ok in Hv as ([c|] & Hc & [= Hv]).
  apply bool_decide_eq_true in Hv as ->.
  apply root_covers in Hroot as (t & Ht & Hin). rewrite <-Ht in Hc. apply Hin.
  apply (climb_sound Hinj) with (steps := proof_steps proof); [done| |done].
  apply Forall_forall. intros x (l & -> & Hx)%Hin%list_elem_of_fmap.
  by apply (proj1 (Forall_forall _ _) Hleaves).
Qed.

(** Inclusion proofs are complete and total: for every index of a leaf,
    [batched_merkle_proof] returns a proof that carries the root of the
    leaves and verifies for the leaf at that index; for any other index it
    raises. *)
Theorem merkle_proof_complete (leaves : list BatchedEvidenceLeaf) (index : Z) :
  match leaves !! Z.to_nat index with
  | Some leaf =>
      0 ≤ index →
      ∃ proof, batched_merkle_proof leaves index = Ok proof ∧
        batched_merkle_root leaves = Ok (proof_root proof) ∧
        batched_merkle_proof_verify leaf proof = Ok true
  | None =>
      batched_merkle_proof leaves index
        = Raise (IndexError "Batched Merkle proof index out of bounds")
  end.
Proof.
  unfold batched_merkle_proof. destruct (leaves !! Z.to_nat index) as [leaf|] eqn:Hi.
  - intros H0. pose proof (lookup_lt_Some _ _ _ Hi).
    destruct (proof_loop_complete (length leaves) (leaf_digest <$> leaves) (Z.to_nat index)
                (leaf_digest leaf) (leaf_digest leaf) []) as (steps & d & Hp & Hr & Hc).
    + by rewrite length_fmap.
    + by rewrite list_lookup_fmap, Hi.
    + done.
    + rewrite (proj2 (Z.leb_le _ _) H0), (proj2 (Z.ltb_lt _ _)) by lia. rewrite Hp.
      eexists; split_and!; [reflexivity|done|]. unfold batched_merkle_proof_verify.
      cbn [proof_steps proof_root]. rewrite Hc. cbn [mbind result_bind].
      by rewrite bool_decide_eq_true_2.
  - apply lookup_ge_None in Hi.
    destruct (0 <=? index) eqn:E; [|done]. rewrite (proj2 (Z.ltb_ge _ _)) by lia. done.
Qed.

(** The last leaf of a level of odd length is paired with itself, so a
    batch of an odd number (above one) of leaves and the batch that repeats
    its last leaf have the same root: the root does not bind the leaf count. *)
Theorem odd_batch_root_repeats (leaves : list BatchedEvidenceLeaf) (leaf : BatchedEvidenceLeaf) :
  leaves ≠ [] → Nat.even (length leaves) = true →
  batched_merkle_root (leaves ++ [leaf]) = batched_merkle_root (leaves ++ [leaf; leaf]).
Proof.
  unfold batched_merkle_root. rewrite !fmap_app. intros Hn Hev. apply Nat.even_spec in Hev as [q Hq].
  assert (length (leaf_digest <$> leaves) = 2 * q)%nat as Hd by by rewrite length_fmap.
  assert (0 < q)%nat by (destruct leaves, q; simpl in *; try done; lia).
  set (L := leaf_digest <$> leaves) in *. csimpl. set (d := leaf_digest leaf).
  rewrite (root_step (L ++ [d])), (root_step (L ++ [d; d])) by (rewrite length_app; simpl; lia).
  f_equal. apply list_eq. intros i. destruct (decide (i < q + 1)%nat) as [Hi|Hi].
  - rewrite !lookup_next by (rewrite length_app; simpl; lia). f_equal. unfold pair_at. f_equal.
    + rewrite !list_lookup_total_alt. f_equal. destruct (decide (i < q)%nat).
      * by rewrite !lookup_app_l by lia.
      * rewrite !lookup_app_r by lia. by replace (2 * i - length L)%nat with 0%nat by lia.
    + rewrite !list_lookup_total_alt. f_equal. rewrite !length_app, Hd. cbn [length].
      destruct (decide (i < q)%nat).
      * rewrite !Nat.min_l by lia. by rewrite !lookup_app_l by lia.
      * rewrite !Nat.min_r by lia. rewrite !lookup_app_r by lia. rewrite !Hd.
        replace i with q by lia. by replace (2 * q + 2 - 1 - 2 * q)%nat with 1%nat by lia;
        replace (2 * q + 1 - 1 - 2 * q)%nat with 0%nat by lia.
  - rewrite !lookup_ge_None_2; [done|..]; rewrite length_next, length_app, Hd; cbn [length];
      pose proof (half_lt (2 * q + 1) i); pose proof (half_lt (2 * q + 2) i); lia.
Qed.
End merkle.

(** ** A concrete batch: three leaves under a transparent digest *)

Definition ex_sha (packet : string) : string := packet.
Definition ex_leaf (i : Z) : BatchedEvidenceLeaf :=
  Leaf ("s:" +:+ str_of_Z (i + 1)) i "n" 1 2 "p" "r" "b" "o" "buffered"
    (hexdigest ex_sha (LEAF_DOMAIN +:+
       match mapM frame (leaf_fields (Leaf ("s:" +:+ str_of_Z (i + 1)) i "n" 1 2 "p" "r" "b" "o" "buffered" ""))
       with Ok frames => str_concat frames | Raise _ => "" end)).
Definition ex_leaves : list BatchedEvidenceLeaf := ex_leaf <$> [0; 1; 2].

Example ex_leaf_made :
  batched_evidence_leaf ex_sha "s:1" 0 "n" 1 2 "p" "r" "b" "o" "buffered" = Ok (ex_leaf 0).
Proof. vm_compute. reflexivity. Qed.

Definition ex_proof : BatchedMerkleProof :=
  match batched_merkle_proof ex_sha ex_leaves 2 with
  | Ok p => p
  | Raise _ => MerkleProof 0 0 [] ""
  end.

Example ex_proof_directions : step_direction <$> proof_steps ex_proof = ["right"; "left"].
Proof. vm_compute. reflexivity. Qed.

Lemma merkle_proof_sound_witness :
  leaf_digest (ex_leaf 2) ∈ leaf_digest <$> ex_leaves.
Proof.
  apply (merkle_proof_sound ex_sha ex_leaves (ex_leaf 2) ex_proof).
  - intros p p' H. exact H.
  - repeat constructor; eexists; reflexivity.
  - vm_compute. reflexivity.
  - vm_compute. reflexivity.
Defined.

Lemma merkle_proof_complete_witness :
  ∃ proof, batched_merkle_proof ex_sha ex_leaves 1 = Ok proof ∧
    batched_merkle_root ex_sha ex_leaves = Ok (proof_root proof) ∧
    batched_merkle_proof_verify ex_sha (ex_leaf 1) proof = Ok true.
Proof. apply (merkle_proof_complete ex_sha ex_leaves 1). lia. Defined.

Lemma odd_batch_root_repeats_witness :
  batched_merkle_root ex_sha ([ex_leaf 0; ex_leaf 1] ++ [ex_leaf 2])
    = batched_merkle_root ex_sha ([ex_leaf 0; ex_leaf 1] ++ [ex_leaf 2; ex_leaf 2]).
Proof. apply (odd_batch_root_repeats ex_sha); [discriminate | reflexivity]. Defined.
