(* ===== verification/EvidenceModel.v ===== *)
(** * Evidence receipts ([evidence_model.py])

    The typed receipts of authorised effects, their validation and claim
    level, and the text of a nonce.  Bytes are byte strings;
    [time.time_ns()] is the argument [now]. *)

From Stdlib Require Import Ascii.
From S2P Require Import Prelude GraphTypes Receipts Text Merkle.

Definition AuthorizedEffectEvidenceError (msg : string) : Exn :=
  PyError "AuthorizedEffectEvidenceError" msg.

Definition DIGEST_BYTES : nat := 32.

Record AuthorizedEffectEvidenceReceipt : Type := EvidenceReceipt {
  er_session_id : string;
  er_mediation_sequence : Z;
  er_first_sequence : Z;
  er_last_sequence : Z;
  er_nonce : Z * Z;
  er_semantic_root : string;
  er_before_execution_root : string;
  er_after_execution_root : string;
  er_outcome : string;
  er_observation_digest : string;
  er_evidence_reference : string;
  er_kernel_signature : string;
  er_signature_verified : bool;
  er_inclusion_proof_verified : bool;
  er_created_at_ns : Z
}.

Record AuthorizedEffectEvidenceReconciliation : Type := Reconciliation {
  rec_semantic_root : string;
  rec_execution_root : string;
  rec_mediation_sequence : Z;
  rec_runtime_sequence : Z;
  rec_consumed_nonces : list (Z * Z);
  rec_staged_mediation_sequences : list Z;
  rec_staged_leaf_digests : list string
}.

Record BatchedEvidenceCommitReceipt : Type := BatchCommit {
  bc_session_id : string;
  bc_first_mediation_sequence : Z;
  bc_last_mediation_sequence : Z;
  bc_leaf_count : Z;
  bc_before_execution_root : string;
  bc_batch_root : string;
  bc_after_execution_root : string;
  bc_evidence_digest : string;
  bc_attestation_digest : string;
  bc_verification_flags : Z
}.

Record AuthorizedEffectEvidenceReservation : Type := Reservation {
  rs_session_id : string;
  rs_mediation_sequence : Z;
  rs_first_sequence : Z;
  rs_last_sequence : Z;
  rs_nonce : Z * Z;
  rs_semantic_root : string;
  rs_before_execution_root : string
}.

(** [outcome in {"buffered", "indeterminate"}]. *)
Definition non_committed (outcome : string) : bool :=
  bool_decide (outcome ∈ ["buffered"; "indeterminate"]).

Definition nonempty (s : string) : bool := negb (bool_decide (s = "")).

Definition l3_verified (r : AuthorizedEffectEvidenceReceipt) : bool :=
  bool_decide (er_outcome r = "committed") && nonempty (er_evidence_reference r)
  && nonempty (er_kernel_signature r) && er_signature_verified r && er_inclusion_proof_verified r.

Definition claim_level (r : AuthorizedEffectEvidenceReceipt) : string :=
  if l3_verified r then "l3-verified"
  else if non_committed (er_outcome r) then "l1-mediated" else "l2-evidenced".

Definition validate_authorized_effect_evidence_receipt (r : AuthorizedEffectEvidenceReceipt) :
    result Exn unit :=
  if bool_decide (er_session_id r = "") || (er_mediation_sequence r <=? 0)
     || (er_first_sequence r <=? 0) || (er_last_sequence r <? er_first_sequence r)
  then Raise (AuthorizedEffectEvidenceError "invalid evidence session or sequence")
  else if negb (bool_decide (er_outcome r ∈ ["committed"; "buffered"; "indeterminate"]))
  then Raise (AuthorizedEffectEvidenceError "unsupported mediation outcome")
  else if existsb (λ d, negb (String.length d =? DIGEST_BYTES)%nat)
            [er_semantic_root r; er_before_execution_root r;
             er_after_execution_root r; er_observation_digest r]
  then Raise (AuthorizedEffectEvidenceError "evidence digest must be 32 bytes")
  else if non_committed (er_outcome r)
          && negb (bool_decide (er_after_execution_root r = er_before_execution_root r))
  then Raise (AuthorizedEffectEvidenceError "non-committed evidence cannot advance execution root")
  else Ok ().

Definition authorized_effect_evidence_receipt (now : Z) (session_id : string)
    (mediation_sequence first_sequence last_sequence : Z) (nonce : Z * Z)
    (semantic_root before_execution_root after_execution_root outcome observation_digest
     evidence_reference kernel_signature : string)
    (signature_verified inclusion_proof_verified : bool) :
    result Exn AuthorizedEffectEvidenceReceipt :=
  let receipt := EvidenceReceipt session_id mediation_sequence first_sequence last_sequence nonce
                   semantic_root before_execution_root after_execution_root outcome
                   observation_digest evidence_reference kernel_signature
                   signature_verified inclusion_proof_verified now in
  _ ← validate_authorized_effect_evidence_receipt receipt;
  Ok receipt.

(** The attributes read from the native mediation and from its result. *)
Record NativeMediation : Type := Mediation {
  nm_nonce : Z * Z;
  nm_semantic_root : string;
  nm_before_execution_root : string
}.
Record NativeMediationResult : Type := MediationResult {
  nr_mediation_outcome : Z;
  nr_mediation_sequence : Z;
  nr_execution_root : string;
  nr_observation_digest : string
}.

(** [{1: "committed", 2: "buffered", 4: "indeterminate"}]. *)
Definition native_outcomes (code : Z) : option string :=
  if decide (code = 1) then Some "committed"
  else if decide (code = 2) then Some "buffered"
  else if decide (code = 4) then Some "indeterminate"
  else None.

Definition authorized_effect_evidence_from_native (now : Z) (session_id : string)
    (mediation : NativeMediation) (res : NativeMediationResult)
    (evidence_reference kernel_signature : string)
    (signature_verified inclusion_proof_verified : bool) (first_sequence last_sequence : Z) :
    result Exn AuthorizedEffectEvidenceReceipt :=
  outcome ← of_option
    (AuthorizedEffectEvidenceError "native mediation returned an unknown outcome")
    (native_outcomes (nr_mediation_outcome res));
  authorized_effect_evidence_receipt now session_id (nr_mediation_sequence res)
    first_sequence last_sequence (nm_nonce mediation) (nm_semantic_root mediation)
    (nm_before_execution_root mediation) (nr_execution_root res) outcome
    (nr_observation_digest res) evidence_reference kernel_signature
    signature_verified inclusion_proof_verified.

(** ** The text of a nonce *)

(** [f"{z:016x}"] of [0 <= z < 2 ** 64]: sixteen digits, most significant first. *)
Fixpoint hex_fixed (digits : nat) (z : Z) : string :=
  match digits with
  | O => ""
  | S d => String (hex_digit (Z.to_nat (z / 16 ^ Z.of_nat d mod 16))) (hex_fixed d z)
  end.

Definition uint64 (z : Z) : bool := (0 <=? z) && (z <? 2 ^ 64).

Definition evidence_nonce_text (nonce : Z * Z) : result Exn string :=
  let '(high, low) := nonce in
  if negb (uint64 high && uint64 low)
  then Raise (AuthorizedEffectEvidenceError "nonce limbs must be uint64")
  else Ok (hex_fixed 16 high +:+ hex_fixed 16 low).

(** [int(text, 16)]: white space around, a sign, the prefix "0x", hexadecimal
    digits with single underscores between them. *)
Fixpoint hexdigits_of (acc : Z) (after_digit : bool) (l : list ascii) : option Z :=
  match l with
  | [] => if after_digit then Some acc else None
  | c :: l =>
      match hex_val c with
      | Some d => hexdigits_of (16 * acc + Z.of_nat d) true l
      | None =>
          if Ascii.eqb c "_"%char && after_digit
          then match l with
               | d :: _ => if hex_val d then hexdigits_of acc false l else None
               | [] => None
               end
          else None
      end
  end.

Definition unprefixed (l : list ascii) : option Z :=
  match l with
  | "0"%char :: ("x"%char | "X"%char) :: "_"%char :: l => hexdigits_of 0 false l
  | "0"%char :: ("x"%char | "X"%char) :: l => hexdigits_of 0 false l
  | l => hexdigits_of 0 false l
  end.

Definition int16 (s : string) : option Z :=
  match strip (String.list_ascii_of_string s) with
  | "-"%char :: l => Z.opp <$> unprefixed l
  | "+"%char :: l => unprefixed l
  | l => unprefixed l
  end.

Definition int_base16 (s : string) : result Exn Z :=
  of_option (ValueError ("invalid literal for int() with base 16: " +:+ s)) (int16 s).

Fixpoint stake (n : nat) (s : string) : string :=
  match n, s with
  | S n, String c s => String c (stake n s)
  | _, _ => ""
  end.

Definition parse_evidence_nonce (value : string) : result Exn (Z * Z) :=
  high ← int_base16 (stake 16 value);
  low ← int_base16 (sdrop 16 value);
  Ok (high, low).

(** ** Lemmas *)

Definition lower_hex (c : ascii) : bool :=
  let n := nat_of_ascii c in ((48 <=? n) && (n <=? 57) || (97 <=? n) && (n <=? 102))%nat.

Lemma hex_digit_facts n : (n < 16)%nat →
  hex_val (hex_digit n) = Some n ∧ lower_hex (hex_digit n) = true ∧
  is_space (hex_digit n) = false.
Proof. intros H. do 16 (destruct n as [|n]; [by vm_compute|]). lia. Qed.

Lemma nibble_lt z d : (Z.to_nat (z / 16 ^ Z.of_nat d mod 16) < 16)%nat.
Proof. pose proof (Z.mod_pos_bound (z / 16 ^ Z.of_nat d) 16). lia. Qed.

Lemma hex_fixed_length n z : String.length (hex_fixed n z) = n.
Proof. induction n as [|n IH]; simpl; congruence. Qed.

Lemma hex_fixed_chars n z : sforall lower_hex (hex_fixed n z) = true.
Proof.
  induction n as [|n IH]; [done|]. cbn [hex_fixed]. apply sforall_cons. split; [|done].
  apply hex_digit_facts, nibble_lt.
Qed.

Lemma hexdigits_fixed n z acc b : (0 < n)%nat →
  hexdigits_of acc b (String.list_ascii_of_string (hex_fixed n z))
    = Some (acc * 16 ^ Z.of_nat n + z mod 16 ^ Z.of_nat n).
Proof.
  revert acc b; induction n as [|n IH]; intros acc b Hn; [lia|].
  cbn [hex_fixed String.list_ascii_of_string hexdigits_of].
  destruct (hex_digit_facts _ (nibble_lt z n)) as [-> _].
  pose proof (Z.mod_pos_bound (z / 16 ^ Z.of_nat n) 16 ltac:(lia)) as Hd.
  assert (16 ^ Z.of_nat (S n) = 16 ^ Z.of_nat n * 16) as HS
    by (rewrite Nat2Z.inj_succ, Z.pow_succ_r; lia).
  rewrite Z2Nat.id, HS by lia.
  rewrite (Z.rem_mul_r z (16 ^ Z.of_nat n) 16) by lia.
  destruct n as [|n].
  - cbn [hex_fixed String.list_ascii_of_string hexdigits_of Z.of_nat].
    rewrite Z.mod_1_r. f_equal. lia.
  - rewrite IH by lia. f_equal. lia.
Qed.

(** [int(text, 16)] reads the digits of [f"{z:016x}"] back. *)
Lemma int16_fixed z : uint64 z = true → int16 (hex_fixed 16 z) = Some z.
Proof.
  intros Hz. apply andb_true_iff in Hz as [H0%Z.leb_le H1%Z.ltb_lt].
  pose proof (hex_fixed_chars 16 z) as Hc.
  unfold int16. rewrite strip_id.
  2:{ intros c Hin. pose proof (elem_of_sforall _ _ _ Hc Hin) as Hl.
      revert Hl. clear. destruct c as [[] [] [] [] [] [] [] []]; vm_compute; done. }
  pose proof (hexdigits_fixed 16 z 0 false ltac:(lia)) as Hr.
  rewrite Z.mod_small in Hr by (change (16 ^ Z.of_nat 16) with (2 ^ 64); lia).
  set (l := String.list_ascii_of_string (hex_fixed 16 z)) in *.
  assert (∀ c, c ∈ l → lower_hex c = true) as Hl by (intros c; by apply elem_of_sforall).
  clearbody l.
  assert (unprefixed l = hexdigits_of 0 false l) as Hu.
  { unfold unprefixed. destruct l as [|c [|d l]]; [done| |].
    - by destruct c as [[] [] [] [] [] [] [] []].
    - assert (d ≠ "x"%char ∧ d ≠ "X"%char) as [Hx HX]
        by (split; intros ->; by specialize (Hl _ ltac:(right; left))).
      destruct c as [[] [] [] [] [] [] [] []]; try done.
      destruct d as [[] [] [] [] [] [] [] []]; done. }
  destruct l as [|c l]; [by rewrite Hu, Hr|].
  assert (c ≠ "-"%char ∧ c ≠ "+"%char) as [Hm Hp]
    by (split; intros ->; by specialize (Hl _ ltac:(left))).
  destruct c as [[] [] [] [] [] [] [] []]; try done; by rewrite Hu, Hr.
Qed.

Lemma stake_app n s1 s2 : String.length s1 = n → stake n (s1 +:+ s2) = s1.
Proof.
  revert n; induction s1 as [|c s1 IH]; intros n <-; [by destruct s2|].
  rewrite sapp_cons. simpl. by rewrite IH.
Qed.
Lemma sdrop_app n s1 s2 : String.length s1 = n → sdrop n (s1 +:+ s2) = s2.
Proof.
  revert n; induction s1 as [|c s1 IH]; intros n <-; [by destruct s2|].
  rewrite sapp_cons. simpl. by apply IH.
Qed.

Lemma nonce_parses n t : evidence_nonce_text n = Ok t → parse_evidence_nonce t = Ok n.
Proof.
  destruct n as [high low]. unfold evidence_nonce_text, parse_evidence_nonce, int_base16.
  destruct (uint64 high) eqn:Hh, (uint64 low) eqn:Hl; try done. intros H.
  assert (t = hex_fixed 16 high +:+ hex_fixed 16 low) as -> by (cbn [andb negb] in H; congruence).
  rewrite stake_app, sdrop_app by apply hex_fixed_length.
  by rewrite !int16_fixed.
Qed.

Lemma nonce_text_inj n n' t :
  evidence_nonce_text n = Ok t → evidence_nonce_text n' = Ok t → n = n'.
Proof. intros H%nonce_parses H'%nonce_parses. congruence. Qed.

Lemma nonce_text_length n t : evidence_nonce_text n = Ok t → String.length t = 32%nat.
Proof.
  destruct n as [high low]. unfold evidence_nonce_text. case_match; [done|]. intros H'.
  assert (t = hex_fixed 16 high +:+ hex_fixed 16 low) as -> by congruence.
  by rewrite slen_app, !hex_fixed_length.
Qed.

Lemma receipt_valid_nonempty r :
  validate_authorized_effect_evidence_receipt r = Ok () →
  er_session_id r ≠ "" ∧ 0 < er_mediation_sequence r ∧
  0 < er_first_sequence r ≤ er_last_sequence r ∧
  String.length (er_after_execution_root r) = 32%nat ∧
  (non_committed (er_outcome r) = true →
     er_after_execution_root r = er_before_execution_root r).
Proof.
  unfold validate_authorized_effect_evidence_receipt. intros H.
  repeat (case_match; [done|]).
  repeat match goal with
  | H : _ || _ = false |- _ => apply orb_false_iff in H as [? ?]
  | H : existsb _ _ = false |- _ => cbn [existsb] in H
  end.
  split_and!; [by eapply bool_decide_eq_false; eauto|lia..| |].
  - repeat match goal with
    | H : negb _ = false |- _ => apply negb_false_iff in H end. by apply Nat.eqb_eq.
  - intros Hn. rewrite Hn in *. simpl in *.
    repeat match goal with
    | H : negb _ = false |- _ => apply negb_false_iff in H end.
    by eapply bool_decide_eq_true; eauto.
Qed.

(** The text of a nonce: exactly the pairs of unsigned 64-bit limbs have
    one, it has 32 characters, [parse_evidence_nonce] reads it back, and two
    nonces with the same text are equal. *)
Theorem nonce_round_trip (nonce : Z * Z) :
  match evidence_nonce_text nonce with
  | Ok text =>
      0 ≤ nonce.1 < 2 ^ 64 ∧ 0 ≤ nonce.2 < 2 ^ 64 ∧
      String.length text = 32%nat ∧ parse_evidence_nonce text = Ok nonce ∧
      ∀ nonce', evidence_nonce_text nonce' = Ok text → nonce' = nonce
  | Raise e =>
      e = AuthorizedEffectEvidenceError "nonce limbs must be uint64" ∧
      ¬ (0 ≤ nonce.1 < 2 ^ 64 ∧ 0 ≤ nonce.2 < 2 ^ 64)
  end.
Proof.
  destruct (evidence_nonce_text nonce) as [t|e] eqn:E.
  - pose proof (nonce_text_length _ _ E). pose proof (nonce_parses _ _ E).
    assert (0 ≤ nonce.1 < 2 ^ 64 ∧ 0 ≤ nonce.2 < 2 ^ 64) as [H1 H2].
    { destruct nonce as [high low]. unfold evidence_nonce_text, uint64 in E.
      case_match; [done|]. simpl. lia. }
    split_and!; try done; try lia. intros nonce' E'. by apply (nonce_text_inj _ _ t).
  - destruct nonce as [high low]. unfold evidence_nonce_text, uint64 in E.
    case_match eqn:Ec; [|done]. injection E as <-. split; [done|]. simpl. lia.
Qed.

Lemma nonce_round_trip_witness :
  evidence_nonce_text (255, 2 ^ 64 - 1) = Ok "00000000000000ffffffffffffffffff" ∧
  (∀ nonce', evidence_nonce_text nonce' = Ok "00000000000000ffffffffffffffffff" →
     nonce' = (255, 2 ^ 64 - 1)).
Proof.
  split; [vm_compute; reflexivity|].
  exact (proj2 (proj2 (proj2 (proj2 (nonce_round_trip (255, 2 ^ 64 - 1)))))).
Defined.
