(* ===== verification/EvidenceStore.v ===== *)
(** * The evidence journal ([evidence.py], [batched_evidence_store.py], [native_evidence_sink.py])

    The tables of the journal as lists of rows, the SQL statements of the
    source as operations on them (inserts check their primary keys and unique
    constraints and raise), and every transaction twice.  As a function it
    answers the journal after it: the committed one, or, when the body raises,
    the one it started from.  As a program on a connection it is what the source
    runs: [begin immediate], one statement after the other on an uncommitted
    copy, [commit], and [rollback] in the handlers; every statement may fail,
    and the process may die in front of it or behind it.  [EvidenceTheorems]
    shows that the programs implement the functions.  Integer columns hold
    every integer. *)

From S2P Require Import Prelude PyDict GraphTypes Receipts Merkle EvidenceModel.

(** ** Tables *)

Record EvidenceRow : Type := MkEvidenceRow {
  ev_session : string; ev_sequence : Z; ev_first : Z; ev_last : Z;
  ev_nonce : string; ev_semantic_root : string;
  ev_before_root : string; ev_after_root : string;
  ev_outcome : string; ev_observation_digest : string;
  ev_reference : string; ev_signature : string;
  ev_signature_verified : Z; ev_inclusion_verified : Z; ev_created_at_ns : Z
}.

Record ReservationRow : Type := MkReservationRow {
  rv_session : string; rv_sequence : Z; rv_first : Z; rv_last : Z;
  rv_nonce : string; rv_semantic_root : string; rv_before_root : string;
  rv_state : string
}.

Record LeafRow : Type := MkLeafRow {
  lf_session : string; lf_sequence : Z; lf_index : Z;
  lf_input_digest : string; lf_digest : string;
  lf_state : string; lf_batch_id : option Z
}.

Record BatchRow : Type := MkBatchRow {
  ba_session : string; ba_id : Z; ba_first : Z; ba_last : Z; ba_leaf_count : Z;
  ba_before_root : string; ba_batch_root : string; ba_after_root : string;
  ba_evidence_digest : string; ba_attestation_digest : string; ba_flags : Z
}.

Record Journal : Type := MkJournal {
  jr_evidence : list EvidenceRow;
  jr_reservations : list ReservationRow;
  jr_heads : dict string (Z * string);
  jr_leaves : list LeafRow;
  jr_batches : list BatchRow
}.

(** [_create_schema] on a new database. *)
Definition empty_journal : Journal := MkJournal [] [] [] [] [].

(** [bytes(32)]. *)
Definition ZERO_ROOT : string := Nat.iter 32 (String (Ascii.ascii_of_nat 0)) "".

(** ** Statements *)

(** [order by key]. *)
Fixpoint insert_by {A} (key : A → Z) (x : A) (l : list A) : list A :=
  match l with
  | [] => [x]
  | y :: l => if key x <=? key y then x :: y :: l else y :: insert_by key x l
  end.
Definition order_by {A} (key : A → Z) (l : list A) : list A := foldr (insert_by key) [] l.

(** [max(column)], [null] on no rows. *)
Definition max_of (l : list Z) : option Z :=
  match l with [] => None | z :: l => Some (foldr Z.max z l) end.

Definition IntegrityError (msg : string) : Exn := PyError "IntegrityError" msg.

(** [insert into authorized_effect_evidence] and [..._reservations]: primary
    key (session, sequence), unique (session, nonce). *)
Definition insert_evidence (row : EvidenceRow) (j : Journal) : result Exn Journal :=
  _ ← require (negb (existsb (λ r, bool_decide (ev_session r = ev_session row) &&
          ((ev_sequence r =? ev_sequence row) || bool_decide (ev_nonce r = ev_nonce row)))
        (jr_evidence j))) (IntegrityError "authorized_effect_evidence");
  Ok (MkJournal (jr_evidence j ++ [row]) (jr_reservations j) (jr_heads j)
        (jr_leaves j) (jr_batches j)).

Definition insert_reservation (row : ReservationRow) (j : Journal) : result Exn Journal :=
  _ ← require (negb (existsb (λ r, bool_decide (rv_session r = rv_session row) &&
          ((rv_sequence r =? rv_sequence row) || bool_decide (rv_nonce r = rv_nonce row)))
        (jr_reservations j))) (IntegrityError "authorized_effect_reservations");
  Ok (MkJournal (jr_evidence j) (jr_reservations j ++ [row]) (jr_heads j)
        (jr_leaves j) (jr_batches j)).

Definition insert_leaf (row : LeafRow) (j : Journal) : result Exn Journal :=
  _ ← require (negb (existsb (λ r, bool_decide (lf_session r = lf_session row) &&
          (lf_sequence r =? lf_sequence row)) (jr_leaves j)))
        (IntegrityError "authorized_effect_batched_leaves");
  Ok (MkJournal (jr_evidence j) (jr_reservations j) (jr_heads j)
        (jr_leaves j ++ [row]) (jr_batches j)).

Definition insert_batch (row : BatchRow) (j : Journal) : result Exn Journal :=
  _ ← require (negb (existsb (λ r, bool_decide (ba_session r = ba_session row) &&
          (ba_id r =? ba_id row)) (jr_batches j)))
        (IntegrityError "authorized_effect_evidence_batches");
  Ok (MkJournal (jr_evidence j) (jr_reservations j) (jr_heads j)
        (jr_leaves j) (jr_batches j ++ [row])).

Definition set_state (state : string) (r : ReservationRow) : ReservationRow :=
  MkReservationRow (rv_session r) (rv_sequence r) (rv_first r) (rv_last r)
    (rv_nonce r) (rv_semantic_root r) (rv_before_root r) state.

(** [update authorized_effect_reservations set state = ? where ...]. *)
Definition update_reservations (where_ : ReservationRow → bool) (state : string)
    (j : Journal) : Journal :=
  MkJournal (jr_evidence j)
    ((λ r, if where_ r then set_state state r else r) <$> jr_reservations j)
    (jr_heads j) (jr_leaves j) (jr_batches j).

Definition flush_row (batch_id : Z) (r : LeafRow) : LeafRow :=
  MkLeafRow (lf_session r) (lf_sequence r) (lf_index r) (lf_input_digest r)
    (lf_digest r) "flushed" (Some batch_id).

Definition update_leaves (where_ : LeafRow → bool) (batch_id : Z) (j : Journal) : Journal :=
  MkJournal (jr_evidence j) (jr_reservations j) (jr_heads j)
    ((λ r, if where_ r then flush_row batch_id r else r) <$> jr_leaves j) (jr_batches j).

(** [insert or replace into authorized_effect_evidence_heads]. *)
Definition replace_head (session_id : string) (sequence : Z) (root : string) (j : Journal) :
    Journal :=
  MkJournal (jr_evidence j) (jr_reservations j) (dset session_id (sequence, root) (jr_heads j))
    (jr_leaves j) (jr_batches j).

(** ** Queries *)

Definition load_head (j : Journal) (session_id : string) : option (Z * string) :=
  dget session_id (jr_heads j).

Definition session_reservations (j : Journal) (session_id : string) : list ReservationRow :=
  filter (λ r, rv_session r = session_id) (jr_reservations j).

Definition session_evidence (j : Journal) (session_id : string) : list EvidenceRow :=
  filter (λ r, ev_session r = session_id) (jr_evidence j).

Definition staged_leaves (j : Journal) (session_id : string) : list LeafRow :=
  filter (λ r, lf_session r = session_id ∧ lf_state r = "staged") (jr_leaves j).

Definition session_batches (j : Journal) (session_id : string) : list BatchRow :=
  filter (λ r, ba_session r = session_id) (jr_batches j).

(** [_reservation]. *)
Definition reservation (j : Journal) (session_id : string) (sequence : Z) :
    option ReservationRow :=
  head (filter (λ r, rv_sequence r = sequence) (session_reservations j session_id)).

Definition next_reservation_sequence (j : Journal) (session_id : string) : Z :=
  match max_of (rv_sequence <$> session_reservations j session_id) with
  | None => 1
  | Some n => n + 1
  end.

(** [_head_root]: [_ZERO_ROOT if head is None else bytes(head[1])]. *)
Definition head_root (j : Journal) (session_id : string) : string :=
  match load_head j session_id with None => ZERO_ROOT | Some h => h.2 end.

Definition staged_count (j : Journal) (session_id : string) : Z :=
  Z.of_nat (length (staged_leaves j session_id)).

Definition staged_rows (j : Journal) (session_id : string) : list LeafRow :=
  order_by lf_index (staged_leaves j session_id).

Definition next_batch_id (j : Journal) (session_id : string) : Z :=
  match max_of (ba_id <$> session_batches j session_id) with
  | None => 1
  | Some n => n + 1
  end.

Definition staged_reconciliation (j : Journal) (session_id : string) : list Z * list string :=
  let rows := staged_rows j session_id in (lf_sequence <$> rows, lf_digest <$> rows).

(** ** Transactions *)

Definition is_evidence_error (e : Exn) : bool :=
  match e with
  | PyError kind _ => bool_decide (kind = "AuthorizedEffectEvidenceError")
  | _ => false
  end.

(** [begin immediate], the body, [commit]; a raise rolls back, and what is not
    an evidence error becomes one with the message of the operation. *)
Definition transaction {A} (failed : string) (body : Journal → result Exn (Journal * A))
    (j : Journal) : Journal * result Exn A :=
  match body j with
  | Ok (j', a) => (j', Ok a)
  | Raise e => (j, Raise (if is_evidence_error e then e else AuthorizedEffectEvidenceError failed))
  end.

(** ** Reservations *)

Definition validate_reservation (r : AuthorizedEffectEvidenceReservation) : result Exn unit :=
  if bool_decide (rs_session_id r = "") || (rs_mediation_sequence r <=? 0)
     || (rs_first_sequence r <=? 0) || (rs_last_sequence r <? rs_first_sequence r)
     || negb (String.length (rs_semantic_root r) =? 32)%nat
     || negb (String.length (rs_before_execution_root r) =? 32)%nat
  then Raise (AuthorizedEffectEvidenceError "invalid evidence reservation")
  else _ ← evidence_nonce_text (rs_nonce r); Ok ().

(** [_reservation_matches]: the conjunction is evaluated from the left, and the
    nonce text may raise. *)
Definition reservation_matches (r : AuthorizedEffectEvidenceReservation) (row : ReservationRow) :
    result Exn bool :=
  if (rs_first_sequence r =? rv_first row) && (rs_last_sequence r =? rv_last row)
  then text ← evidence_nonce_text (rs_nonce r);
       Ok (bool_decide (text = rv_nonce row)
           && bool_decide (rs_semantic_root r = rv_semantic_root row)
           && bool_decide (rs_before_execution_root r = rv_before_root row))
  else Ok false.

Definition reserve_body (r : AuthorizedEffectEvidenceReservation) (j : Journal) :
    result Exn (Journal * unit) :=
  match reservation j (rs_session_id r) (rs_mediation_sequence r) with
  | Some existing =>
      matches ← reservation_matches r existing;
      _ ← require matches (AuthorizedEffectEvidenceError "durable reservation binding mismatch");
      Ok (j, ())
  | None =>
      _ ← require (negb (existsb (λ row, bool_decide (rv_state row = "reserved"))
                           (session_reservations j (rs_session_id r))))
            (AuthorizedEffectEvidenceError "unresolved durable reservation blocks new effect");
      _ ← require (rs_mediation_sequence r =? next_reservation_sequence j (rs_session_id r))
            (AuthorizedEffectEvidenceError "reservation does not extend mediation sequence");
      _ ← require (bool_decide (rs_before_execution_root r = head_root j (rs_session_id r)))
            (AuthorizedEffectEvidenceError "reservation forks durable execution root");
      nonce ← evidence_nonce_text (rs_nonce r);
      j ← insert_reservation
            (MkReservationRow (rs_session_id r) (rs_mediation_sequence r) (rs_first_sequence r)
               (rs_last_sequence r) nonce (rs_semantic_root r) (rs_before_execution_root r)
               "reserved") j;
      Ok (j, ())
  end.

Definition reserve (r : AuthorizedEffectEvidenceReservation) (j : Journal) :
    Journal * result Exn unit :=
  match validate_reservation r with
  | Raise e => (j, Raise e)
  | Ok _ => transaction "durable evidence reservation failed" (reserve_body r) j
  end.

(** ** Finalising one effect *)

(** The reservation [_assert_reserved] looks for. *)
Definition reservation_of (r : AuthorizedEffectEvidenceReceipt) :
    AuthorizedEffectEvidenceReservation :=
  Reservation (er_session_id r) (er_mediation_sequence r) (er_first_sequence r)
    (er_last_sequence r) (er_nonce r) (er_semantic_root r) (er_before_execution_root r).

Definition assert_reserved (r : AuthorizedEffectEvidenceReceipt) (j : Journal) : result Exn unit :=
  let error := AuthorizedEffectEvidenceError "evidence finalize requires matching durable reservation" in
  match reservation j (er_session_id r) (er_mediation_sequence r) with
  | None => Raise error
  | Some row =>
      if bool_decide (rv_state row = "reserved")
      then matches ← reservation_matches (reservation_of r) row; require matches error
      else Raise error
  end.

Definition assert_extends (r : AuthorizedEffectEvidenceReceipt) (h : option (Z * string)) :
    result Exn unit :=
  let expected_sequence := match h with None => 1 | Some h => h.1 + 1 end in
  let expected_root := match h with None => ZERO_ROOT | Some h => h.2 end in
  _ ← require (er_mediation_sequence r =? expected_sequence)
        (AuthorizedEffectEvidenceError "mediation sequence does not extend durable evidence head");
  require (bool_decide (er_before_execution_root r = expected_root))
    (AuthorizedEffectEvidenceError "before execution root forks durable evidence head").

(** The row of a receipt, [int(...)] of the booleans included. *)
Definition row_of_receipt (r : AuthorizedEffectEvidenceReceipt) (nonce : string) : EvidenceRow :=
  MkEvidenceRow (er_session_id r) (er_mediation_sequence r) (er_first_sequence r)
    (er_last_sequence r) nonce (er_semantic_root r) (er_before_execution_root r)
    (er_after_execution_root r) (er_outcome r) (er_observation_digest r)
    (er_evidence_reference r) (er_kernel_signature r) (Z.b2z (er_signature_verified r))
    (Z.b2z (er_inclusion_proof_verified r)) (er_created_at_ns r).

Definition insert_receipt (r : AuthorizedEffectEvidenceReceipt) (j : Journal) :
    result Exn Journal :=
  nonce ← evidence_nonce_text (er_nonce r);
  insert_evidence (row_of_receipt r nonce) j.

Definition advance_head (r : AuthorizedEffectEvidenceReceipt) (j : Journal) : Journal :=
  replace_head (er_session_id r) (er_mediation_sequence r) (er_after_execution_root r) j.

(** [where session_id = ? and mediation_sequence = ?]. *)
Definition same_reservation (r : AuthorizedEffectEvidenceReceipt) (row : ReservationRow) : bool :=
  bool_decide (rv_session row = er_session_id r) && (rv_sequence row =? er_mediation_sequence r).

Definition append_body (r : AuthorizedEffectEvidenceReceipt) (j : Journal) :
    result Exn (Journal * unit) :=
  _ ← assert_reserved r j;
  _ ← assert_extends r (load_head j (er_session_id r));
  j ← insert_receipt r j;
  Ok (advance_head r (update_reservations (same_reservation r) "finalized" j), ()).

Definition append (r : AuthorizedEffectEvidenceReceipt) (j : Journal) :
    Journal * result Exn unit :=
  match validate_authorized_effect_evidence_receipt r with
  | Raise e => (j, Raise e)
  | Ok _ => transaction "durable evidence append failed" (append_body r) j
  end.

(** ** Reading *)

Definition receipt_from_row (session_id : string) (row : EvidenceRow) :
    result Exn AuthorizedEffectEvidenceReceipt :=
  nonce ← parse_evidence_nonce (ev_nonce row);
  Ok (EvidenceReceipt session_id (ev_sequence row) (ev_first row) (ev_last row) nonce
        (ev_semantic_root row) (ev_before_root row) (ev_after_root row) (ev_outcome row)
        (ev_observation_digest row) (ev_reference row) (ev_signature row)
        (negb (ev_signature_verified row =? 0)) (negb (ev_inclusion_verified row =? 0))
        (ev_created_at_ns row)).

(** [order by mediation_sequence desc limit 1]. *)
Definition journal_head (j : Journal) (session_id : string) :
    result Exn (option AuthorizedEffectEvidenceReceipt) :=
  match last (order_by ev_sequence (session_evidence j session_id)) with
  | None => Ok None
  | Some row => Some <$> receipt_from_row session_id row
  end.

Definition journal_history (j : Journal) (session_id : string) :
    result Exn (list AuthorizedEffectEvidenceReceipt) :=
  mapM (receipt_from_row session_id) (order_by ev_sequence (session_evidence j session_id)).

Definition reconciliation (j : Journal) (session_id : string) :
    result Exn (option AuthorizedEffectEvidenceReconciliation) :=
  let reservations := order_by rv_sequence (session_reservations j session_id) in
  match reservations, last reservations with
  | first :: _, Some last_row =>
      let semantic_root := rv_semantic_root first in
      _ ← require (forallb (λ item, bool_decide (rv_semantic_root item = semantic_root)) reservations)
            (AuthorizedEffectEvidenceError "durable evidence history changes semantic root");
      let '(staged_sequences, staged_digests) := staged_reconciliation j session_id in
      nonces ← mapM (λ item, parse_evidence_nonce (rv_nonce item)) reservations;
      Ok (Some (Reconciliation semantic_root (head_root j session_id) (rv_sequence last_row)
                  (rv_last last_row) nonces staged_sequences staged_digests))
  | _, _ => Ok None
  end.

(** ** Digests, batches and the native sink; [sha256] is a parameter *)

Section sha.
Variable sha256 : string → string.

Definition evidence_digest (r : AuthorizedEffectEvidenceReceipt) : result Exn string :=
  nonce ← evidence_nonce_text (er_nonce r);
  Ok (sha256 (str_join "|"
        [er_session_id r; str_of_Z (er_mediation_sequence r); str_of_Z (er_first_sequence r);
         str_of_Z (er_last_sequence r); nonce; er_semantic_root r; er_before_execution_root r;
         er_after_execution_root r; er_outcome r; er_observation_digest r;
         er_evidence_reference r])).

Definition append_and_digest (r : AuthorizedEffectEvidenceReceipt) (j : Journal) :
    Journal * result Exn string :=
  let '(j, res) := append r j in (j, _ ← res; evidence_digest r).

Definition stage_body (r : AuthorizedEffectEvidenceReceipt) (input_digest : string) (j : Journal) :
    result Exn (Journal * string) :=
  _ ← assert_reserved r j;
  _ ← require (bool_decide (er_before_execution_root r = head_root j (er_session_id r)))
        (AuthorizedEffectEvidenceError "Batched leaf forks durable evidence head");
  let leaf_index := staged_count j (er_session_id r) in
  nonce ← evidence_nonce_text (er_nonce r);
  leaf ← batched_evidence_leaf sha256
           (er_session_id r +:+ ":" +:+ str_of_Z (er_mediation_sequence r)) leaf_index nonce
           (er_first_sequence r) (er_last_sequence r) (hex input_digest)
           (hex (er_semantic_root r)) (hex (er_before_execution_root r))
           (hex (er_observation_digest r)) (er_outcome r);
  leaf_digest ← fromhex (Merkle.leaf_digest leaf);
  j ← insert_receipt r j;
  j ← insert_leaf (MkLeafRow (er_session_id r) (er_mediation_sequence r) leaf_index
                     input_digest leaf_digest "staged" None) j;
  Ok (update_reservations (same_reservation r) "staged" j, leaf_digest).

Definition stage_batched_evidence (r : AuthorizedEffectEvidenceReceipt) (input_digest : string)
    (j : Journal) : Journal * result Exn string :=
  match validate_authorized_effect_evidence_receipt r with
  | Raise e => (j, Raise e)
  | Ok _ =>
      if negb (bool_decide (er_outcome r = "buffered")) || negb (String.length input_digest =? 32)%nat
      then (j, Raise (AuthorizedEffectEvidenceError "invalid Batched evidence leaf"))
      else transaction "durable Batched evidence staging failed" (stage_body r input_digest) j
  end.

Definition BATCH_ROOT_DOMAIN : string := "poo-flow.batched-execution-root.draft.1|".

(** The local [frame] of the source is [frame_text] of the hexadecimal text. *)
Definition batch_execution_root (before_root batch_root : string) : string :=
  sha256 (BATCH_ROOT_DOMAIN +:+ frame_text (hex before_root) +:+ frame_text (hex batch_root)).

Definition batch_evidence_digest (session_id : string) (batch_id : Z)
    (before root after : string) : string :=
  sha256 (str_join "|" [session_id; str_of_Z batch_id; before; root; after]).

Definition attestation_of (kernel_signature : string) : string :=
  if nonempty kernel_signature then sha256 kernel_signature else ZERO_ROOT.

Definition is_staged_leaf (session_id : string) (r : LeafRow) : bool :=
  bool_decide (lf_session r = session_id) && bool_decide (lf_state r = "staged").
Definition is_staged_reservation (session_id : string) (r : ReservationRow) : bool :=
  bool_decide (rv_session r = session_id) && bool_decide (rv_state r = "staged").

Definition commit_batch (row : BatchRow) (j : Journal) : result Exn Journal :=
  j ← insert_batch row j;
  let j := update_leaves (is_staged_leaf (ba_session row)) (ba_id row) j in
  let j := update_reservations (is_staged_reservation (ba_session row)) "finalized" j in
  Ok (replace_head (ba_session row) (ba_last row) (ba_after_root row) j).

Definition flush_body (session_id : string) (leaf_digests : list string)
    (kernel_signature : string) (verification_flags : Z) (j : Journal) :
    result Exn (Journal * BatchedEvidenceCommitReceipt) :=
  let rows := staged_rows j session_id in
  let durable_digests := lf_digest <$> rows in
  match rows, last rows with
  | first :: _, Some last_row =>
      _ ← require (bool_decide (durable_digests = leaf_digests))
            (AuthorizedEffectEvidenceError "flush leaf range does not match durable staged leaves");
      let before_root := head_root j session_id in
      batch_root ← batched_merkle_root_digests sha256 durable_digests;
      let after_root := batch_execution_root before_root batch_root in
      let batch_id := next_batch_id j session_id in
      let evidence := batch_evidence_digest session_id batch_id before_root batch_root after_root in
      let attestation := attestation_of kernel_signature in
      let count := Z.of_nat (length rows) in
      j ← commit_batch (MkBatchRow session_id batch_id (lf_sequence first) (lf_sequence last_row)
                          count before_root batch_root after_root evidence attestation
                          verification_flags) j;
      Ok (j, BatchCommit session_id (lf_sequence first) (lf_sequence last_row) count before_root
               batch_root after_root evidence attestation verification_flags)
  | _, _ =>
      Raise (AuthorizedEffectEvidenceError "flush leaf range does not match durable staged leaves")
  end.

Definition flush_batched_evidence (session_id : string) (leaf_digests : list string)
    (kernel_signature : string) (verification_flags : Z) (j : Journal) :
    Journal * result Exn BatchedEvidenceCommitReceipt :=
  transaction "durable Batched evidence flush failed"
    (flush_body session_id leaf_digests kernel_signature verification_flags) j.

(** ** The native callbacks *)

Record NativeEvidenceReservation : Type := NativeReservation {
  nv_mediation_sequence : Z; nv_first_sequence : Z; nv_last_sequence : Z;
  nv_nonce : Z * Z; nv_semantic_root : string; nv_before_execution_root : string
}.

Record NativeEvidenceInvocation : Type := NativeInvocation {
  ni_outcome : Z; ni_adapter_status : Z; ni_mediation_sequence : Z;
  ni_first_sequence : Z; ni_last_sequence : Z; ni_nonce : Z * Z;
  ni_semantic_root : string; ni_before_execution_root : string;
  ni_input_digest : string; ni_observation_digest : string
}.

Record NativeEvidenceCommit : Type := NativeCommit {
  nc_after_execution_root : string; nc_evidence_digest : string;
  nc_attestation_digest : string; nc_verification_flags : Z
}.

Record NativeEvidenceFlushInvocation : Type := NativeFlushInvocation {
  nf_first_mediation_sequence : Z; nf_last_mediation_sequence : Z;
  nf_leaf_digests : list string; nf_before_execution_root : string
}.

Record NativeEvidenceFlushCommit : Type := NativeFlushCommit {
  nk_after_execution_root : string; nk_batch_root : string; nk_evidence_digest : string;
  nk_attestation_digest : string; nk_verification_flags : Z
}.

(** [__post_init__] of the two commits: the first field that is not 32 bytes
    long is reported. *)
Definition check_lengths (fields : list (string * string)) : result Exn unit :=
  foldM (λ _ field, require (String.length field.2 =? 32)%nat
    (ValueError ("native evidence " +:+ field.1 +:+ " must be exactly 32 bytes"))) () fields.

Definition native_commit (c : NativeEvidenceCommit) : result Exn NativeEvidenceCommit :=
  _ ← check_lengths [("after_execution_root", nc_after_execution_root c);
                     ("evidence_digest", nc_evidence_digest c);
                     ("attestation_digest", nc_attestation_digest c)];
  Ok c.

Definition native_flush_commit (c : NativeEvidenceFlushCommit) :
    result Exn NativeEvidenceFlushCommit :=
  _ ← check_lengths [("after_execution_root", nk_after_execution_root c);
                     ("batch_root", nk_batch_root c);
                     ("evidence_digest", nk_evidence_digest c);
                     ("attestation_digest", nk_attestation_digest c)];
  Ok c.

(** The arguments of [build_turso_native_evidence_sink] other than the store. *)
Record SinkConfig : Type := Sink {
  sk_session_id : string; sk_committed_execution_root : string;
  sk_evidence_reference : string; sk_kernel_signature : string;
  sk_signature_verified : bool; sk_inclusion_proof_verified : bool
}.

Definition sink_flags (cfg : SinkConfig) : Z :=
  Z.lor (Z.b2z (sk_signature_verified cfg)) (Z.shiftl (Z.b2z (sk_inclusion_proof_verified cfg)) 1).

Definition native_reserve (cfg : SinkConfig) (value : NativeEvidenceReservation) (j : Journal) :
    Journal * result Exn unit :=
  reserve (Reservation (sk_session_id cfg) (nv_mediation_sequence value) (nv_first_sequence value)
             (nv_last_sequence value) (nv_nonce value) (nv_semantic_root value)
             (nv_before_execution_root value)) j.

Definition native_commit_effect (cfg : SinkConfig) (now : Z) (inv : NativeEvidenceInvocation)
    (j : Journal) : Journal * result Exn NativeEvidenceCommit :=
  let outcome := default "indeterminate" (native_outcomes (ni_outcome inv)) in
  let after_root := if bool_decide (outcome = "committed") then sk_committed_execution_root cfg
                    else ni_before_execution_root inv in
  match authorized_effect_evidence_receipt now (sk_session_id cfg) (ni_mediation_sequence inv)
          (ni_first_sequence inv) (ni_last_sequence inv) (ni_nonce inv) (ni_semantic_root inv)
          (ni_before_execution_root inv) after_root outcome (ni_observation_digest inv)
          (sk_evidence_reference cfg) (sk_kernel_signature cfg) (sk_signature_verified cfg)
          (sk_inclusion_proof_verified cfg) with
  | Raise e => (j, Raise e)
  | Ok receipt =>
      let '(j, res) :=
        if bool_decide (outcome = "buffered")
        then stage_batched_evidence receipt (ni_input_digest inv) j
        else append_and_digest receipt j in
      (j, digest ← res;
          native_commit (NativeCommit after_root digest (attestation_of (sk_kernel_signature cfg))
                           (sink_flags cfg)))
  end.

(** The comparison of the roots comes after the transaction. *)
Definition native_flush (cfg : SinkConfig) (inv : NativeEvidenceFlushInvocation) (j : Journal) :
    Journal * result Exn NativeEvidenceFlushCommit :=
  let '(j, res) := flush_batched_evidence (sk_session_id cfg) (nf_leaf_digests inv)
                     (sk_kernel_signature cfg) (sink_flags cfg) j in
  (j, batch ← res;
      _ ← require (bool_decide (bc_before_execution_root batch = nf_before_execution_root inv))
            (AuthorizedEffectEvidenceError "native flush forks durable execution root");
      native_flush_commit
        (NativeFlushCommit (bc_after_execution_root batch) (bc_batch_root batch)
           (bc_evidence_digest batch) (bc_attestation_digest batch) (bc_verification_flags batch))).
End sha.

(** ** The transactions as programs on a connection *)

(** A connection: the committed journal, the uncommitted one while a
    transaction is open, and how many statements it was given. *)
Record Connection : Type := MkConnection {
  cn_disk : Journal;
  cn_work : option Journal;
  cn_count : nat
}.

(** What happens to a statement: it runs, it raises without an effect, or the
    process dies in front of it or right behind it. *)
Inductive Fault : Type :=
| Runs
| Fails (e : Exn)
| DiesBefore
| DiesAfter.

Inductive Outcome (A : Type) : Type :=
| Done (a : A)
| Raised (e : Exn)
| Died.
Arguments Done {A}.
Arguments Raised {A}.
Arguments Died {A}.

Definition outcome_of {A} (r : result Exn A) : Outcome A :=
  match r with Ok a => Done a | Raise e => Raised e end.

Definition CM (A : Type) : Type := Connection → Connection * Outcome A.

#[export] Instance CM_ret : MRet CM := λ A a c, (c, Done a).
#[export] Instance CM_bind : MBind CM := λ A B f m c,
  match m c with
  | (c, Done a) => f a c
  | (c, Raised e) => (c, Raised e)
  | (c, Died) => (c, Died)
  end.

(** What a statement sees: the copy of the open transaction, or the committed
    journal. *)
Definition seen (c : Connection) : Journal := default (cn_disk c) (cn_work c).

Definition with_work (w : option Journal) (c : Connection) : Connection :=
  MkConnection (cn_disk c) w (cn_count c).

(** [connection.rollback()]; it does nothing outside a transaction. *)
Definition rollback (c : Connection) : Connection := with_work None c.

(** Python code between two statements. *)
Definition computing {A} (r : result Exn A) : CM A := λ c, (c, outcome_of r).

Section connection.
Variable faults : nat → Fault.

Definition statement {A} (run : Connection → Connection * result Exn A) : CM A := λ c,
  let c1 := MkConnection (cn_disk c) (cn_work c) (S (cn_count c)) in
  match faults (cn_count c) with
  | Runs => let '(c', r) := run c1 in (c', outcome_of r)
  | Fails e => (c1, Raised e)
  | DiesBefore => (c1, Died)
  | DiesAfter => ((run c1).1, Died)
  end.

Definition begin_immediate : CM unit := statement (λ c,
  match cn_work c with
  | None => (with_work (Some (cn_disk c)) c, Ok ())
  | Some _ => (c, Raise (PyError "OperationalError" "cannot start a transaction within a transaction"))
  end).

(** A [select], and what the code computes from its rows. *)
Definition querying {A} (q : Journal → result Exn A) : CM A := statement (λ c, (c, q (seen c))).

(** An [insert] or [update]; outside a transaction it opens one. *)
Definition executing (f : Journal → result Exn Journal) : CM unit := statement (λ c,
  match f (seen c) with
  | Ok j => (with_work (Some j) c, Ok ())
  | Raise e => (c, Raise e)
  end).

Definition commit : CM unit := statement (λ c, (MkConnection (seen c) None (cn_count c), Ok ())).

(** [try: ... except AuthorizedEffectEvidenceError: rollback; raise
    except Exception: rollback; raise AuthorizedEffectEvidenceError(failed)]. *)
Definition guarded {A} (failed : string) (m : CM A) : CM A := λ c,
  match m c with
  | (c', Raised e) =>
      if is_evidence_error e then (rollback c', Raised e)
      else (rollback c', Raised (AuthorizedEffectEvidenceError failed))
  | answer => answer
  end.

Definition reserve_on (r : AuthorizedEffectEvidenceReservation) : CM unit :=
  let s := rs_session_id r in
  _ ← computing (validate_reservation r);
  guarded "durable evidence reservation failed" (
    _ ← begin_immediate;
    existing ← querying (λ j, Ok (reservation j s (rs_mediation_sequence r)));
    match existing with
    | Some existing =>
        matches ← computing (reservation_matches r existing);
        _ ← computing (require matches
              (AuthorizedEffectEvidenceError "durable reservation binding mismatch"));
        commit
    | None =>
        unresolved ← querying (λ j, Ok (existsb (λ row, bool_decide (rv_state row = "reserved"))
                                          (session_reservations j s)));
        _ ← computing (require (negb unresolved)
              (AuthorizedEffectEvidenceError "unresolved durable reservation blocks new effect"));
        expected ← querying (λ j, Ok (next_reservation_sequence j s));
        _ ← computing (require (rs_mediation_sequence r =? expected)
              (AuthorizedEffectEvidenceError "reservation does not extend mediation sequence"));
        root ← querying (λ j, Ok (head_root j s));
        _ ← computing (require (bool_decide (rs_before_execution_root r = root))
              (AuthorizedEffectEvidenceError "reservation forks durable execution root"));
        nonce ← computing (evidence_nonce_text (rs_nonce r));
        _ ← executing (insert_reservation
              (MkReservationRow s (rs_mediation_sequence r) (rs_first_sequence r)
                 (rs_last_sequence r) nonce (rs_semantic_root r) (rs_before_execution_root r)
                 "reserved"));
        commit
    end).

(** [_insert_receipt]. *)
Definition insert_receipt_on (r : AuthorizedEffectEvidenceReceipt) : CM unit :=
  nonce ← computing (evidence_nonce_text (er_nonce r));
  executing (insert_evidence (row_of_receipt r nonce)).

Definition append_on (r : AuthorizedEffectEvidenceReceipt) : CM unit :=
  _ ← computing (validate_authorized_effect_evidence_receipt r);
  guarded "durable evidence append failed" (
    _ ← begin_immediate;
    _ ← querying (assert_reserved r);
    _ ← querying (λ j, assert_extends r (load_head j (er_session_id r)));
    _ ← insert_receipt_on r;
    _ ← executing (λ j, Ok (update_reservations (same_reservation r) "finalized" j));
    _ ← executing (λ j, Ok (advance_head r j));
    commit).

Variable sha256 : string → string.

Definition stage_on (r : AuthorizedEffectEvidenceReceipt) (input_digest : string) : CM string :=
  let s := er_session_id r in
  _ ← computing (validate_authorized_effect_evidence_receipt r);
  _ ← computing (require (bool_decide (er_outcome r = "buffered")
                          && (String.length input_digest =? 32)%nat)
        (AuthorizedEffectEvidenceError "invalid Batched evidence leaf"));
  guarded "durable Batched evidence staging failed" (
    _ ← begin_immediate;
    _ ← querying (assert_reserved r);
    expected_root ← querying (λ j, Ok (head_root j s));
    _ ← computing (require (bool_decide (er_before_execution_root r = expected_root))
          (AuthorizedEffectEvidenceError "Batched leaf forks durable evidence head"));
    leaf_index ← querying (λ j, Ok (staged_count j s));
    nonce ← computing (evidence_nonce_text (er_nonce r));
    leaf ← computing (batched_evidence_leaf sha256
             (s +:+ ":" +:+ str_of_Z (er_mediation_sequence r)) leaf_index nonce
             (er_first_sequence r) (er_last_sequence r) (hex input_digest)
             (hex (er_semantic_root r)) (hex (er_before_execution_root r))
             (hex (er_observation_digest r)) (er_outcome r));
    leaf_digest ← computing (fromhex (Merkle.leaf_digest leaf));
    _ ← insert_receipt_on r;
    _ ← executing (insert_leaf (MkLeafRow s (er_mediation_sequence r) leaf_index input_digest
                                  leaf_digest "staged" None));
    _ ← executing (λ j, Ok (update_reservations (same_reservation r) "staged" j));
    _ ← commit;
    mret leaf_digest).

(** [_commit_batch]. *)
Definition commit_batch_on (row : BatchRow) : CM unit :=
  _ ← executing (insert_batch row);
  _ ← executing (λ j, Ok (update_leaves (is_staged_leaf (ba_session row)) (ba_id row) j));
  _ ← executing (λ j, Ok (update_reservations (is_staged_reservation (ba_session row)) "finalized" j));
  executing (λ j, Ok (replace_head (ba_session row) (ba_last row) (ba_after_root row) j)).

Definition flush_on (session_id : string) (leaf_digests : list string)
    (kernel_signature : string) (verification_flags : Z) : CM BatchedEvidenceCommitReceipt :=
  guarded "durable Batched evidence flush failed" (
    _ ← begin_immediate;
    rows ← querying (λ j, Ok (staged_rows j session_id));
    let durable_digests := lf_digest <$> rows in
    match rows, last rows with
    | first :: _, Some last_row =>
        _ ← computing (require (bool_decide (durable_digests = leaf_digests))
              (AuthorizedEffectEvidenceError "flush leaf range does not match durable staged leaves"));
        before_root ← querying (λ j, Ok (head_root j session_id));
        batch_root ← computing (batched_merkle_root_digests sha256 durable_digests);
        let after_root := batch_execution_root sha256 before_root batch_root in
        batch_id ← querying (λ j, Ok (next_batch_id j session_id));
        let evidence := batch_evidence_digest sha256 session_id batch_id before_root batch_root after_root in
        let attestation := attestation_of sha256 kernel_signature in
        let count := Z.of_nat (length rows) in
        _ ← commit_batch_on (MkBatchRow session_id batch_id (lf_sequence first)
              (lf_sequence last_row) count before_root batch_root after_root evidence attestation
              verification_flags);
        _ ← commit;
        mret (BatchCommit session_id (lf_sequence first) (lf_sequence last_row) count before_root
                batch_root after_root evidence attestation verification_flags)
    | _, _ =>
        computing (Raise (AuthorizedEffectEvidenceError
                            "flush leaf range does not match durable staged leaves"))
    end).
End connection.
