(* ===== verification/EvidenceFacts.v ===== *)
(** * The evidence journal is linear

    The view of one session of the journal, the shape every reachable view
    has, and what each operation does to it: sequences are contiguous, at most
    one reservation is pending, the root transitions form one chain. *)

From S2P Require Import Prelude PyDict GraphTypes Receipts Merkle EvidenceModel EvidenceStore.

(** ** Lists of consecutive integers *)

Lemma elem_of_max l m : max_of l = Some m → m ∈ l ∧ ∀ x, x ∈ l → x ≤ m.
Proof.
  destruct l as [|z l]; [done|]. intros [= <-]. induction l as [|y l IH]; simpl.
  - split; [by left|]. by intros x ->%list_elem_of_singleton.
  - destruct IH as [Hin Hle]. split.
    + destruct (Z.max_spec y (foldr Z.max z l)) as [[_ ->]|[_ ->]]; [|by right; left].
      apply elem_of_cons in Hin as [->|?]; [by left|by right; right].
    + intros x Hx. assert (x = y ∨ x ∈ z :: l) as [->|Hx'] by (rewrite !elem_of_cons in *; naive_solver).
      * lia.
      * specialize (Hle x Hx'). lia.
Qed.

Lemma max_of_None l : max_of l = None → l = [].
Proof. by destruct l. Qed.

(** [max(sequence) + 1] of the sequences 1 to n. *)
Lemma next_of_seqZ n :
  match max_of (seqZ 1 (Z.of_nat n)) with None => 1 | Some m => m + 1 end = Z.of_nat n + 1.
Proof.
  destruct (max_of _) as [m|] eqn:E.
  - apply elem_of_max in E as [Hin Hle]. apply elem_of_seqZ in Hin.
    specialize (Hle (Z.of_nat n)). rewrite elem_of_seqZ in Hle. lia.
  - apply max_of_None in E. destruct n; [done|]. apply (f_equal length) in E.
    rewrite length_seqZ in E. simpl in E. lia.
Qed.

(** Rows that are in order stay as they are. *)
Lemma order_by_seqZ {A} (key : A → Z) l m n : key <$> l = seqZ m n → order_by key l = l.
Proof.
  revert m n; induction l as [|x l IH]; intros m n H; [done|].
  assert (0 < n) as Hn by (destruct (decide (0 < n)); [done|]; rewrite seqZ_nil in H by lia; done).
  rewrite seqZ_cons in H by done. injection H as Hx Hl. cbn [order_by foldr]. fold (order_by key l).
  rewrite (IH _ _ Hl). destruct l as [|y l]; [done|]. cbn [insert_by].
  assert (0 < Z.pred n) by (destruct (decide (0 < Z.pred n)); [done|]; rewrite seqZ_nil in Hl by lia; done).
  rewrite seqZ_cons in Hl by done. injection Hl as Hy _.
  by rewrite (proj2 (Z.leb_le _ _)) by lia.
Qed.

(** ** The view of a session *)

Record View : Type := MkView {
  v_reservations : list ReservationRow;
  v_evidence : list EvidenceRow;
  v_head : option (Z * string);
  v_leaves : list LeafRow;
  v_batches : list BatchRow
}.

Definition view (j : Journal) (s : string) : View :=
  MkView (session_reservations j s) (session_evidence j s) (load_head j s)
    (filter (λ r, lf_session r = s) (jr_leaves j)) (session_batches j s).

Definition v_staged (v : View) : list LeafRow := filter (λ r, lf_state r = "staged") (v_leaves v).

Lemma staged_leaves_view j s : staged_leaves j s = v_staged (view j s).
Proof.
  unfold staged_leaves, v_staged. simpl. rewrite list_filter_filter.
  apply list_filter_iff. naive_solver.
Qed.

(** A transition of the execution root: the effects it covers, the root
    before and the root after. *)
Record Link : Type := MkLink { ln_first : Z; ln_last : Z; ln_before : string; ln_after : string }.

Definition link_of_row (r : EvidenceRow) : Link :=
  MkLink (ev_sequence r) (ev_sequence r) (ev_before_root r) (ev_after_root r).
Definition link_of_batch (b : BatchRow) : Link :=
  MkLink (ba_first b) (ba_last b) (ba_before_root b) (ba_after_root b).

(** The transitions the tables record: effects finalised one by one (they have
    no leaf) and batches. *)
Definition direct_rows (v : View) : list EvidenceRow :=
  filter (λ r, ev_sequence r ∉ lf_sequence <$> v_leaves v) (v_evidence v).
Definition links (v : View) : list Link :=
  (link_of_row <$> direct_rows v) ++ (link_of_batch <$> v_batches v).

(** Follows transitions from a sequence and a root: each begins where the last
    one ended. *)
Fixpoint follow (n : Z) (root : string) (log : list Link) : option (Z * string) :=
  match log with
  | [] => Some (n, root)
  | l :: log =>
      if bool_decide (ln_first l = n + 1 ∧ ln_first l ≤ ln_last l ∧ ln_before l = root)
      then follow (ln_last l) (ln_after l) log else None
  end.

Lemma follow_snoc n root log l n' root' :
  follow n root log = Some (n', root') →
  ln_first l = n' + 1 → ln_first l ≤ ln_last l → ln_before l = root' →
  follow n root (log ++ [l]) = Some (ln_last l, ln_after l).
Proof.
  revert n root; induction log as [|l0 log IH]; intros n root; cbn [follow app].
  - intros [= -> ->] **. by rewrite bool_decide_eq_true_2.
  - case_bool_decide; [|done]. auto.
Qed.

(** The evidence row of a reservation. *)
Definition recorded (e : EvidenceRow) (r : ReservationRow) : Prop :=
  ev_sequence e = rv_sequence r ∧ ev_first e = rv_first r ∧ ev_last e = rv_last r ∧
  ev_nonce e = rv_nonce r ∧ ev_semantic_root e = rv_semantic_root r ∧
  ev_before_root e = rv_before_root r.

(** ** The shape of a session

    The reservations are the finalised ones, then the staged ones, then at
    most one pending; [root] is the execution root the session has reached
    and [log] the chain of transitions that led to it. *)
Record Shape (v : View) (fin st : list ReservationRow) (pend : option ReservationRow)
    (root : string) (log : list Link) : Prop := MkShape {
  sh_rows : v_reservations v = fin ++ st ++ option_list pend;
  sh_seq : rv_sequence <$> v_reservations v = seqZ 1 (Z.of_nat (length (v_reservations v)));
  sh_fin : Forall (λ r, rv_state r = "finalized") fin;
  sh_st : Forall (λ r, rv_state r = "staged" ∧ rv_before_root r = root) st;
  sh_pend : ∀ r, pend = Some r → rv_state r = "reserved";
  sh_head : v_head v = match fin with [] => None | _ => Some (Z.of_nat (length fin), root) end;
  sh_root0 : fin = [] → root = ZERO_ROOT;
  sh_ev : Forall2 recorded (v_evidence v) (fin ++ st);
  sh_leaves : Forall (λ l, lf_sequence l ≤ Z.of_nat (length (fin ++ st))) (v_leaves v);
  sh_staged : lf_sequence <$> v_staged v = rv_sequence <$> st;
  sh_index : lf_index <$> v_staged v = seqZ 0 (Z.of_nat (length st));
  sh_batches : ba_id <$> v_batches v = seqZ 1 (Z.of_nat (length (v_batches v)));
  sh_nodup : NoDup (rv_nonce <$> v_reservations v);
  sh_nonce : Forall (λ r, ∃ n, evidence_nonce_text n = Ok (rv_nonce r)) (v_reservations v);
  sh_links : log ≡ₚ links v;
  sh_follow : follow 0 ZERO_ROOT log = Some (Z.of_nat (length fin), root)
}.

Definition session_ok (v : View) : Prop := ∃ fin st pend root log, Shape v fin st pend root log.

Lemma empty_session_ok s : session_ok (view empty_journal s).
Proof.
  exists [], [], None, ZERO_ROOT, []. split; simpl; try constructor; try done.
Qed.

(** ** Statements on views *)

Lemma filter_snoc {A} (P : A → Prop) `{∀ x, Decision (P x)} (l : list A) x :
  filter P (l ++ [x]) = filter P l ++ if decide (P x) then [x] else [].
Proof. by rewrite filter_app. Qed.

Lemma filter_fmap_iff {A} (P : A → Prop) `{∀ x, Decision (P x)} (f : A → A) (l : list A) :
  (∀ x, P (f x) ↔ P x) → filter P (f <$> l) = f <$> filter P l.
Proof.
  intros Hf. induction l as [|x l IH]; [done|]. csimpl. destruct (decide (P x)).
  - by rewrite !filter_cons_True, IH by naive_solver.
  - by rewrite !filter_cons_False, IH by naive_solver.
Qed.

Lemma filter_iff_elem {A} (P Q : A → Prop) `{∀ x, Decision (P x), ∀ x, Decision (Q x)} (l : list A) :
  (∀ x, x ∈ l → P x ↔ Q x) → filter P l = filter Q l.
Proof.
  induction l as [|x l IH]; intros Hl; [done|].
  assert (filter P l = filter Q l) as E by (apply IH; intros; apply Hl; by right).
  destruct (decide (P x)) as [Hp|Hp].
  - rewrite !filter_cons_True; [by rewrite E|by apply Hl; [left|]|done].
  - rewrite !filter_cons_False; [done|intros Hq; by apply Hp, Hl; [left|]|done].
Qed.

Lemma fmap_id_Forall {A} (f : A → A) (l : list A) : Forall (λ x, f x = x) l → f <$> l = l.
Proof. induction 1 as [|x l Hx _ IH]; [done|]. csimpl. by rewrite Hx, IH. Qed.

Lemma require_negb_existsb {A} (f : A → bool) l e u :
  require (E:=Exn) (negb (existsb f l)) e = Ok u → Forall (λ x, f x = false) l.
Proof.
  rewrite require_Ok, negb_true_iff. intros Hf. apply Forall_forall. intros x Hx.
  destruct (f x) eqn:E; [|done]. assert (existsb f l = true); [|congruence].
  apply existsb_exists. exists x. by rewrite <-list_elem_of_In.
Qed.

(** An update of the rows of one session, as it shows in the others. *)
Definition map_reservations (where_ : ReservationRow → bool) (state : string) (v : View) : View :=
  MkView ((λ r, if where_ r then set_state state r else r) <$> v_reservations v)
    (v_evidence v) (v_head v) (v_leaves v) (v_batches v).

Lemma view_update_reservations where_ state j s :
  view (update_reservations where_ state j) s = map_reservations where_ state (view j s).
Proof.
  unfold view, map_reservations, session_reservations, update_reservations. simpl. f_equal.
  apply filter_fmap_iff. intros r. by destruct (where_ r).
Qed.

Lemma map_reservations_other where_ state v :
  Forall (λ r, where_ r = false) (v_reservations v) → map_reservations where_ state v = v.
Proof.
  intros H. destruct v as [vr ? ? ? ?]. unfold map_reservations. f_equal. simpl in *. apply fmap_id_Forall.
  eapply Forall_impl; [exact H|]. simpl. by intros r ->.
Qed.

Lemma view_sessions j s : Forall (λ r, rv_session r = s) (v_reservations (view j s)).
Proof. simpl. unfold session_reservations. apply Forall_forall. intros r. rewrite list_elem_of_filter. naive_solver. Qed.

Lemma view_update_other where_ state j s s' : s ≠ s' →
  (∀ r, where_ r = true → rv_session r = s') →
  view (update_reservations where_ state j) s = view j s.
Proof.
  intros Hs Hw. rewrite view_update_reservations. apply map_reservations_other.
  eapply Forall_impl; [apply view_sessions|]. simpl. intros r Hr.
  destruct (where_ r) eqn:E; [|done]. apply Hw in E. congruence.
Qed.

Lemma view_replace_head session seq root j s :
  view (replace_head session seq root j) s =
    MkView (v_reservations (view j s)) (v_evidence (view j s))
      (if decide (s = session) then Some (seq, root) else v_head (view j s))
      (v_leaves (view j s)) (v_batches (view j s)).
Proof. unfold view, replace_head, load_head. simpl. by rewrite dget_dset. Qed.

Lemma view_insert_evidence row j j' s : insert_evidence row j = Ok j' →
  view j' s =
    MkView (v_reservations (view j s))
      (v_evidence (view j s) ++ if decide (ev_session row = s) then [row] else [])
      (v_head (view j s)) (v_leaves (view j s)) (v_batches (view j s)).
Proof.
  unfold insert_evidence. intros H. apply bind_Ok in H as (? & _ & [= <-]).
  unfold view, session_evidence. simpl. by rewrite filter_snoc.
Qed.

Lemma view_insert_leaf row j j' s : insert_leaf row j = Ok j' →
  view j' s =
    MkView (v_reservations (view j s)) (v_evidence (view j s)) (v_head (view j s))
      (v_leaves (view j s) ++ if decide (lf_session row = s) then [row] else [])
      (v_batches (view j s)).
Proof.
  unfold insert_leaf. intros H. apply bind_Ok in H as (? & _ & [= <-]).
  unfold view. simpl. by rewrite filter_snoc.
Qed.

Lemma view_insert_batch row j j' s : insert_batch row j = Ok j' →
  view j' s =
    MkView (v_reservations (view j s)) (v_evidence (view j s)) (v_head (view j s))
      (v_leaves (view j s))
      (v_batches (view j s) ++ if decide (ba_session row = s) then [row] else []).
Proof.
  unfold insert_batch. intros H. apply bind_Ok in H as (? & _ & [= <-]).
  unfold view, session_batches. simpl. by rewrite filter_snoc.
Qed.

Lemma view_insert_reservation row j j' : insert_reservation row j = Ok j' →
  Forall (λ r, rv_nonce r ≠ rv_nonce row) (session_reservations j (rv_session row)) ∧
  ∀ s, view j' s =
    MkView (v_reservations (view j s) ++ if decide (rv_session row = s) then [row] else [])
      (v_evidence (view j s)) (v_head (view j s)) (v_leaves (view j s)) (v_batches (view j s)).
Proof.
  unfold insert_reservation. intros H. apply bind_Ok in H as (? & Hu & [= <-]).
  apply require_negb_existsb in Hu. split.
  - apply Forall_forall. intros r [Hs Hr]%list_elem_of_filter Hn.
    rewrite Forall_forall in Hu. specialize (Hu r Hr). simpl in Hu.
    rewrite Hs, Hn, !bool_decide_eq_true_2, orb_true_r in Hu by done. done.
  - intros s. unfold view, session_reservations. simpl. by rewrite filter_snoc.
Qed.

Lemma view_update_leaves where_ id j s :
  view (update_leaves where_ id j) s =
    MkView (v_reservations (view j s)) (v_evidence (view j s)) (v_head (view j s))
      ((λ r, if where_ r then flush_row id r else r) <$> v_leaves (view j s))
      (v_batches (view j s)).
Proof.
  unfold view, update_leaves. simpl. f_equal. apply filter_fmap_iff. intros r. by destruct (where_ r).
Qed.

Lemma view_leaf_sessions j s : Forall (λ r, lf_session r = s) (v_leaves (view j s)).
Proof. simpl. apply Forall_forall. intros r. rewrite list_elem_of_filter. naive_solver. Qed.

Lemma reservation_Some j s n row : reservation j s n = Some row →
  row ∈ v_reservations (view j s) ∧ rv_sequence row = n.
Proof.
  unfold reservation. intros H. apply head_Some_elem_of, list_elem_of_filter in H as [? ?]. done.
Qed.

Lemma reservation_matches_true r row : reservation_matches r row = Ok true →
  rs_first_sequence r = rv_first row ∧ rs_last_sequence r = rv_last row ∧
  evidence_nonce_text (rs_nonce r) = Ok (rv_nonce row) ∧
  rs_semantic_root r = rv_semantic_root row ∧ rs_before_execution_root r = rv_before_root row.
Proof.
  unfold reservation_matches. case_match eqn:E; [|done]. intros H.
  apply bind_Ok in H as (t & Ht & [= H]). apply andb_true_iff in E as [?%Z.eqb_eq ?%Z.eqb_eq].
  apply andb_true_iff in H as [H Hb%bool_decide_eq_true].
  apply andb_true_iff in H as [Hn%bool_decide_eq_true Hs%bool_decide_eq_true].
  subst t. done.
Qed.

(** What [assert_reserved] establishes. *)
Lemma assert_reserved_Ok r j u : assert_reserved r j = Ok u →
  ∃ row, row ∈ v_reservations (view j (er_session_id r)) ∧
    rv_sequence row = er_mediation_sequence r ∧ rv_state row = "reserved" ∧
    evidence_nonce_text (er_nonce r) = Ok (rv_nonce row) ∧
    rv_first row = er_first_sequence r ∧ rv_last row = er_last_sequence r ∧
    rv_semantic_root row = er_semantic_root r ∧ rv_before_root row = er_before_execution_root r.
Proof.
  unfold assert_reserved. destruct (reservation _ _ _) as [row|] eqn:Er; [|done].
  case_bool_decide as Hst; [|done]. intros H. apply bind_Ok in H as (b & Hm & Hb).
  apply require_Ok in Hb as ->. apply reservation_matches_true in Hm as (? & ? & ? & ? & ?).
  apply reservation_Some in Er as [? ?]. exists row. simpl in *. split_and!; try done; by symmetry.
Qed.

(** ** Shapes *)

Lemma shape_length {v fin st pend root log} (HS : Shape v fin st pend root log) :
  length (v_reservations v) = (length fin + length st + length (option_list pend))%nat.
Proof. rewrite (sh_rows _ _ _ _ _ _ HS), !length_app. lia. Qed.

(** The pending reservation is the only row in the state "reserved", and it
    is the last. *)
Lemma shape_pending {v fin st pend root log} (HS : Shape v fin st pend root log) r : r ∈ v_reservations v → rv_state r = "reserved" →
  pend = Some r ∧ rv_sequence r = Z.of_nat (length fin + length st) + 1.
Proof.
  intros Hr Hst. rewrite (sh_rows _ _ _ _ _ _ HS), !elem_of_app in Hr.
  destruct Hr as [Hr|[Hr|Hr]].
  - pose proof (proj1 (Forall_forall _ _) (sh_fin _ _ _ _ _ _ HS) _ Hr) as H. simpl in H. congruence.
  - pose proof (proj1 (Forall_forall _ _) (sh_st _ _ _ _ _ _ HS) _ Hr) as [H _]. congruence.
  - destruct pend as [p|]; [|by apply elem_of_nil in Hr].
    apply list_elem_of_singleton in Hr as ->. split; [done|].
    pose proof (sh_seq _ _ _ _ _ _ HS) as Hseq. rewrite (shape_length HS) in Hseq. simpl in Hseq.
    rewrite (sh_rows _ _ _ _ _ _ HS) in Hseq. simpl in Hseq.
    rewrite Nat.add_1_r, seqZ_S, app_assoc, fmap_app in Hseq.
    apply app_inj_2 in Hseq as [_ [= ->]]; [lia|done].
Qed.

Lemma shape_no_pending {v fin st pend root log} (HS : Shape v fin st pend root log) : Forall (λ r, rv_state r ≠ "reserved") (v_reservations v) → pend = None.
Proof.
  intros H. destruct pend as [p|] eqn:E; [|done].
  rewrite Forall_forall in H. destruct (H p).
  - rewrite (sh_rows _ _ _ _ _ _ HS). rewrite !elem_of_app. right; right. simpl. by left.
  - by apply (sh_pend _ _ _ _ _ _ HS).
Qed.

Lemma shape_resolved_seq {v fin st pend root log} (HS : Shape v fin st pend root log) :
  rv_sequence <$> fin ++ st = seqZ 1 (Z.of_nat (length (fin ++ st))).
Proof.
  pose proof (sh_seq _ _ _ _ _ _ HS) as H. rewrite (sh_rows _ _ _ _ _ _ HS), app_assoc in H.
  rewrite fmap_app, length_app, Nat2Z.inj_add, seqZ_app in H by lia.
  apply app_inj_1 in H as [H _]; [done|]. rewrite length_fmap, length_seqZ. lia.
Qed.

Lemma shape_evidence_seq {v fin st pend root log} (HS : Shape v fin st pend root log) : ev_sequence <$> v_evidence v = seqZ 1 (Z.of_nat (length (v_evidence v))).
Proof.
  pose proof (sh_ev _ _ _ _ _ _ HS) as H. rewrite (Forall2_length _ _ _ H), <-(shape_resolved_seq HS).
  induction H as [|e r le lr Her _ IH]; [done|]. csimpl. rewrite IH. f_equal. apply Her.
Qed.

Lemma shape_head_root {v fin st pend root log} (HS : Shape v fin st pend root log) : match v_head v with None => ZERO_ROOT | Some h => h.2 end = root.
Proof.
  rewrite (sh_head _ _ _ _ _ _ HS). destruct fin; [|done]. symmetry. by apply (sh_root0 _ _ _ _ _ _ HS).
Qed.

Lemma shape_head_seq {v fin st pend root log} (HS : Shape v fin st pend root log) :
  match v_head v with None => 1 | Some h => h.1 + 1 end = Z.of_nat (length fin) + 1.
Proof. rewrite (sh_head _ _ _ _ _ _ HS). by destruct fin. Qed.

(** Updating the pending row. *)
Lemma shape_update_pending {v fin st pend root log} (HS : Shape v fin st pend root log) r f (w : ReservationRow → bool) : pend = Some r →
  (∀ x, x ∈ v_reservations v → w x = (rv_sequence x =? rv_sequence r)) →
  rv_sequence r = Z.of_nat (length fin + length st) + 1 →
  (λ x, if w x then f x else x) <$> v_reservations v = fin ++ st ++ [f r].
Proof.
  intros Hp Hw Hr. rewrite (sh_rows _ _ _ _ _ _ HS), Hp in Hw |- *. simpl in *.
  rewrite app_assoc in Hw |- *. rewrite fmap_app. simpl.
  rewrite Hw, Z.eqb_refl by (apply elem_of_app; right; by left). rewrite app_assoc. f_equal.
  apply fmap_id_Forall, Forall_forall. intros x Hx.
  rewrite Hw by (apply elem_of_app; by left).
  assert (rv_sequence x ∈ rv_sequence <$> fin ++ st) as Hs by (apply list_elem_of_fmap; eauto).
  rewrite (shape_resolved_seq HS), elem_of_seqZ, length_app in Hs.
  destruct (Z.eqb_spec (rv_sequence x) (rv_sequence r)); [lia|done].
Qed.

(** ** Reserving *)

Lemma existsb_reserved l :
  existsb (λ row, bool_decide (rv_state row = "reserved")) l = false →
  Forall (λ r, rv_state r ≠ "reserved") l.
Proof.
  induction l as [|r l IH]; simpl; [by constructor|]. intros [H1%bool_decide_eq_false H2]%orb_false_iff.
  constructor; auto.
Qed.

(** A reservation either was there or is added as the pending one. *)
Lemma reserve_inv r j j' u : reserve_body r j = Ok (j', u) →
  j' = j ∨ ∃ row, rv_session row = rs_session_id r ∧
    rv_sequence row = next_reservation_sequence j (rs_session_id r) ∧
    rv_state row = "reserved" ∧ evidence_nonce_text (rs_nonce r) = Ok (rv_nonce row) ∧
    Forall (λ x, rv_state x ≠ "reserved") (session_reservations j (rs_session_id r)) ∧
    Forall (λ x, rv_nonce x ≠ rv_nonce row) (session_reservations j (rs_session_id r)) ∧
    ∀ s, view j' s =
      MkView (v_reservations (view j s) ++ if decide (rs_session_id r = s) then [row] else [])
        (v_evidence (view j s)) (v_head (view j s)) (v_leaves (view j s)) (v_batches (view j s)).
Proof.
  unfold reserve_body. case_match.
  - intros H'. left. by inv_result.
  - intros H'. right. apply bind_Ok in H' as (? & Hp%require_Ok & H').
    apply bind_Ok in H' as (? & Hq%require_Ok & H'). apply bind_Ok in H' as (? & _ & H').
    apply bind_Ok in H' as (nonce & Hn & H'). apply bind_Ok in H' as (j1 & Hi & [= <- _]).
    apply view_insert_reservation in Hi as [Hu Hv]. simpl in Hu, Hv.
    exists (MkReservationRow (rs_session_id r) (rs_mediation_sequence r) (rs_first_sequence r)
              (rs_last_sequence r) nonce (rs_semantic_root r) (rs_before_execution_root r)
              "reserved"). split_and!; [done| |done|exact Hn| |exact Hu|exact Hv].
    + by apply Z.eqb_eq in Hq.
    + apply existsb_reserved. by apply negb_true_iff.
Qed.

Lemma shape_reserve v fin st root log row : Shape v fin st None root log →
  rv_sequence row = Z.of_nat (length fin + length st) + 1 → rv_state row = "reserved" →
  (∃ n, evidence_nonce_text n = Ok (rv_nonce row)) →
  Forall (λ x, rv_nonce x ≠ rv_nonce row) (v_reservations v) →
  Shape (MkView (v_reservations v ++ [row]) (v_evidence v) (v_head v) (v_leaves v) (v_batches v))
    fin st (Some row) root log.
Proof.
  intros HS Hseq Hst Hn Hu. pose proof (shape_length HS) as Hlen.
  destruct HS. split; simpl; try done.
  - rewrite sh_rows0. simpl. by rewrite app_nil_r, <-!app_assoc.
  - rewrite fmap_app, sh_seq0, length_app. simpl. rewrite Nat.add_1_r, seqZ_S, Hseq, Hlen.
    simpl. f_equal. f_equal. lia.
  - by intros r [= ->].
  - rewrite fmap_app. apply NoDup_app. split_and!; [done| |apply NoDup_singleton].
    intros x (y & -> & Hy)%list_elem_of_fmap Hx%list_elem_of_singleton.
    rewrite Forall_forall in Hu. by apply (Hu y).
  - apply Forall_app. split; [done|]. by constructor.
Qed.

Lemma next_reservation_eq j s fin st pend root log :
  Shape (view j s) fin st pend root log →
  next_reservation_sequence j s =
    Z.of_nat (length fin + length st + length (option_list pend)) + 1.
Proof.
  intros HS. unfold next_reservation_sequence.
  change (session_reservations j s) with (v_reservations (view j s)).
  rewrite (sh_seq _ _ _ _ _ _ HS), next_of_seqZ, (shape_length HS). done.
Qed.

Lemma view_eta v :
  MkView (v_reservations v) (v_evidence v) (v_head v) (v_leaves v) (v_batches v) = v.
Proof. by destruct v. Qed.

Lemma reserve_ok r j j' u s : reserve_body r j = Ok (j', u) →
  session_ok (view j s) → session_ok (view j' s).
Proof.
  intros [->|(row & _ & Hseq & Hst & Hn & Hr & Hu & Hv)]%reserve_inv; [done|].
  intros (fin & st & pend & root & log & HS). rewrite Hv. case_decide as Hs.
  - subst s. pose proof (shape_no_pending HS Hr) as ->.
    exists fin, st, (Some row), root, log. apply shape_reserve; eauto.
    rewrite Hseq, (next_reservation_eq _ _ _ _ _ _ _ HS). simpl. lia.
  - rewrite app_nil_r, view_eta. by exists fin, st, pend, root, log.
Qed.

(** ** Finalising and staging *)

Lemma set_state_nonce state r : rv_nonce (set_state state r) = rv_nonce r.
Proof. done. Qed.

(** Resolving the pending row keeps what the tables say about it. *)
Lemma shape_resolve_rows v fin st row root log state :
  Shape v fin st (Some row) root log →
  let rows := fin ++ st ++ [set_state state row] in
  length rows = length (v_reservations v) ∧
  rv_sequence <$> rows = rv_sequence <$> v_reservations v ∧
  rv_nonce <$> rows = rv_nonce <$> v_reservations v ∧
  Forall (λ r, ∃ n, evidence_nonce_text n = Ok (rv_nonce r)) rows.
Proof.
  intros HS rows. pose proof (sh_nonce _ _ _ _ _ _ HS) as Hn. rewrite (sh_rows _ _ _ _ _ _ HS) in *.
  simpl in *. unfold rows. rewrite !length_app, !fmap_app. split_and!; [done..|].
  rewrite !Forall_app in *. destruct Hn as (? & ? & Hn). split_and!; [done..|].
  apply Forall_cons in Hn as [Hn _]. by constructor.
Qed.

Lemma direct_rows_snoc v erow : Forall (λ l, lf_sequence l < ev_sequence erow) (v_leaves v) →
  filter (λ r, ev_sequence r ∉ lf_sequence <$> v_leaves v) (v_evidence v ++ [erow])
    = direct_rows v ++ [erow].
Proof.
  intros Hl. rewrite filter_snoc, decide_True; [done|].
  intros (l & E & Hin)%list_elem_of_fmap. rewrite Forall_forall in Hl. specialize (Hl l Hin). lia.
Qed.

Lemma match_nonempty {A B} (l : list A) (x y : B) :
  l ≠ [] → match l with [] => x | _ => y end = y.
Proof. by destruct l. Qed.

Lemma shape_append v fin row root log erow after :
  Shape v fin [] (Some row) root log → rv_sequence row = Z.of_nat (length fin) + 1 →
  rv_before_root row = root →
  recorded erow (set_state "finalized" row) → ev_after_root erow = after →
  Shape (MkView (fin ++ [set_state "finalized" row]) (v_evidence v ++ [erow])
           (Some (ev_sequence erow, after)) (v_leaves v) (v_batches v))
    (fin ++ [set_state "finalized" row]) [] None after (log ++ [link_of_row erow]).
Proof.
  intros HS Hseq Hb Hrec Haft. destruct (shape_resolve_rows _ _ _ _ _ _ "finalized" HS) as (Hl & Hs & Hn & Hp).
  simpl in Hl, Hs, Hn, Hp. assert (ev_sequence erow = rv_sequence row) as Hrs by apply Hrec.
  destruct HS. rewrite app_nil_r in sh_ev0, sh_leaves0. split; simpl; try done.
  - by rewrite app_nil_r.
  - by rewrite Hs, sh_seq0, Hl.
  - apply Forall_app. split; [done|]. by constructor.
  - rewrite match_nonempty by by destruct fin. rewrite length_app. simpl.
    rewrite Hrs, Hseq. do 2 f_equal. lia.
  - by destruct fin.
  - rewrite app_nil_r. apply Forall2_app; [done|]. constructor; [done|constructor].
  - rewrite app_nil_r. eapply Forall_impl; [exact sh_leaves0|]. simpl. intros x ?. rewrite length_app. lia.
  - by rewrite Hn.
  - unfold links, direct_rows. cbn [v_leaves v_batches v_evidence]. rewrite direct_rows_snoc, fmap_app.
    + cbn [fmap list_fmap]. rewrite <-app_assoc, (Permutation_app_comm [_] _), app_assoc.
      by rewrite sh_links0.
    + eapply Forall_impl; [exact sh_leaves0|]. simpl. intros x ?. lia.
  - rewrite (follow_snoc _ _ _ _ _ _ sh_follow0); simpl; [|lia|lia|].
    + rewrite length_app, Haft, Hrs, Hseq. simpl. do 2 f_equal. lia.
    + destruct Hrec as (_ & _ & _ & _ & _ & ->). done.
Qed.

Lemma shape_stage v fin st row root log erow leaf :
  Shape v fin st (Some row) root log →
  rv_sequence row = Z.of_nat (length fin + length st) + 1 → rv_before_root row = root →
  recorded erow (set_state "staged" row) →
  lf_sequence leaf = rv_sequence row → lf_state leaf = "staged" →
  lf_index leaf = Z.of_nat (length (v_staged v)) →
  Shape (MkView (fin ++ st ++ [set_state "staged" row]) (v_evidence v ++ [erow])
           (v_head v) (v_leaves v ++ [leaf]) (v_batches v))
    fin (st ++ [set_state "staged" row]) None root log.
Proof.
  intros HS Hseq Hb Hrec Hls Hlst Hli. pose proof (shape_evidence_seq HS) as Hes.
  destruct (shape_resolve_rows _ _ _ _ _ _ "staged" HS) as (Hl & Hs & Hn & Hp).
  simpl in Hl, Hs, Hn, Hp. assert (ev_sequence erow = rv_sequence row) as Hrs by apply Hrec.
  destruct HS. rewrite length_app in sh_leaves0.
  pose proof (Forall2_length _ _ _ sh_ev0) as Hel. rewrite length_app in Hel.
  split; simpl; try done.
  - by rewrite app_nil_r.
  - by rewrite Hs, sh_seq0, Hl.
  - apply Forall_app. split; [done|]. by constructor.
  - rewrite app_assoc. apply Forall2_app; [done|]. constructor; [done|constructor].
  - apply Forall_app. split; [|constructor; [|done]; rewrite !length_app; simpl; lia].
    eapply Forall_impl; [exact sh_leaves0|]. simpl. intros x ?. rewrite !length_app. lia.
  - unfold v_staged. simpl. rewrite filter_snoc, decide_True, !fmap_app by done. simpl.
    rewrite Hls. f_equal. exact sh_staged0.
  - unfold v_staged. simpl. rewrite filter_snoc, decide_True, fmap_app by done. simpl.
    fold (v_staged v). rewrite sh_index0, Hli, length_app. simpl. rewrite Nat.add_1_r, seqZ_S.
    f_equal. f_equal. apply (f_equal length) in sh_staged0. rewrite !length_fmap in sh_staged0. lia.
  - by rewrite Hn.
  - rewrite sh_links0. unfold links, direct_rows. simpl. rewrite filter_snoc, decide_False, app_nil_r.
    2:{ intros Hx. apply Hx, list_elem_of_fmap. exists leaf. split; [lia|]. apply elem_of_app; right; by left. }
    apply reflexive_eq. do 2 f_equal. apply filter_iff_elem. intros e He. rewrite fmap_app, elem_of_app. simpl.
    assert (ev_sequence e ∈ seqZ 1 (Z.of_nat (length (v_evidence v)))) as Hin%elem_of_seqZ
      by (rewrite <-Hes; apply list_elem_of_fmap; eauto).
    rewrite list_elem_of_singleton. intuition lia.
Qed.

(** ** Flushing a batch *)

Lemma flush_leaves_facts s id l : Forall (λ r, lf_session r = s) l →
  let l' := (λ r, if is_staged_leaf s r then flush_row id r else r) <$> l in
  filter (λ r, lf_state r = "staged") l' = [] ∧ lf_sequence <$> l' = lf_sequence <$> l.
Proof.
  induction 1 as [|r l Hr _ [IH1 IH2]]; [done|]. csimpl. rewrite IH2. unfold is_staged_leaf at 1 3.
  rewrite bool_decide_eq_true_2 by done. simpl. case_bool_decide as Hs.
  - by rewrite filter_cons_False.
  - by rewrite filter_cons_False.
Qed.

Definition flush_reservation (s : string) (r : ReservationRow) : ReservationRow :=
  if is_staged_reservation s r then set_state "finalized" r else r.

Lemma flush_reservation_rows s l : Forall (λ r, rv_session r = s) l →
  Forall (λ r, rv_state r = "staged") l →
  flush_reservation s <$> l = set_state "finalized" <$> l.
Proof.
  intros H1 H2. apply list_fmap_ext. intros i r Hr. rewrite Forall_forall in H1, H2.
  apply list_elem_of_lookup_2 in Hr. unfold flush_reservation, is_staged_reservation.
  by rewrite !bool_decide_eq_true_2 by auto.
Qed.

Lemma flush_reservation_id s l : Forall (λ r, rv_state r ≠ "staged") l →
  flush_reservation s <$> l = l.
Proof.
  intros H. apply fmap_id_Forall. eapply Forall_impl; [exact H|]. simpl. intros r Hr.
  unfold flush_reservation, is_staged_reservation.
  by rewrite (bool_decide_eq_false_2 (rv_state r = "staged")), andb_false_r.
Qed.

Lemma shape_flush s id v fin st pend root log b :
  Shape v fin st pend root log → st ≠ [] →
  Forall (λ r, rv_session r = s) (v_reservations v) → Forall (λ r, lf_session r = s) (v_leaves v) →
  ba_id b = Z.of_nat (length (v_batches v)) + 1 →
  ba_first b = Z.of_nat (length fin) + 1 → ba_last b = Z.of_nat (length fin + length st) →
  ba_before_root b = root →
  Shape (MkView (flush_reservation s <$> v_reservations v) (v_evidence v)
           (Some (ba_last b, ba_after_root b))
           ((λ r, if is_staged_leaf s r then flush_row id r else r) <$> v_leaves v)
           (v_batches v ++ [b]))
    (fin ++ (set_state "finalized" <$> st)) [] pend (ba_after_root b) (log ++ [link_of_batch b]).
Proof.
  intros HS Hst Hrs Hls Hid Hf Hl Hb.
  destruct (flush_leaves_facts s id _ Hls) as [Hstg Hseq].
  destruct HS. rewrite sh_rows0 in Hrs. apply Forall_app in Hrs as [_ [Hrs _]%Forall_app].
  assert (flush_reservation s <$> v_reservations v
            = fin ++ (set_state "finalized" <$> st) ++ option_list pend) as Hrows.
  { rewrite sh_rows0, !fmap_app. f_equal; [|f_equal].
    - apply flush_reservation_id. eapply Forall_impl; [exact sh_fin0|]. simpl. by intros r ->.
    - apply flush_reservation_rows; [done|]. eapply Forall_impl; [exact sh_st0|]. by intros r [].
    - apply flush_reservation_id. destruct pend as [p|]; [|done]. constructor; [|done].
      by rewrite (sh_pend0 p). }
  assert (∀ B (f : ReservationRow → B), (∀ r, f (set_state "finalized" r) = f r) →
            f <$> (flush_reservation s <$> v_reservations v) = f <$> v_reservations v) as Hfld.
  { intros B f Hff. rewrite Hrows, sh_rows0, !fmap_app. f_equal. f_equal.
    rewrite <-list_fmap_compose. apply list_fmap_ext. intros; apply Hff. }
  assert (0 < length st)%nat by (destruct st; [done|simpl; lia]).
  split; simpl; try done.
  - by rewrite Hrows, <-app_assoc.
  - rewrite Hfld, sh_seq0 by done. by rewrite length_fmap.
  - apply Forall_app. split; [done|]. apply Forall_fmap, Forall_true. done.
  - rewrite match_nonempty by (by destruct fin, st). rewrite length_app, length_fmap, Hl. done.
  - intros [-> ->%fmap_nil_inv]%app_eq_nil. done.
  - rewrite app_nil_r. apply Forall2_app_inv_r in sh_ev0 as (e1 & e2 & H1 & H2 & ->).
    apply Forall2_app; [done|]. apply Forall2_fmap_r. eapply Forall2_impl; [exact H2|]. done.
  - rewrite app_nil_r, length_app, length_fmap, <-length_app. apply Forall_fmap.
    eapply Forall_impl; [exact sh_leaves0|]. intros r Hr. unfold compose. by destruct (is_staged_leaf s r).
  - unfold v_staged. simpl. by rewrite Hstg.
  - unfold v_staged. simpl. by rewrite Hstg.
  - rewrite fmap_app, sh_batches0, length_app. simpl. by rewrite Nat.add_1_r, seqZ_S, Hid, Z.add_comm.
  - by rewrite Hfld.
  - rewrite Hrows, !Forall_app. rewrite sh_rows0, !Forall_app in sh_nonce0.
    destruct sh_nonce0 as (? & Hn & ?). split_and!; [done| |done]. by apply Forall_fmap.
  - rewrite sh_links0. unfold links, direct_rows. simpl. rewrite Hseq, !fmap_app, app_assoc. done.
  - rewrite (follow_snoc _ _ _ _ _ _ sh_follow0); simpl; [|lia..|done].
    rewrite length_app, length_fmap, Hl. done.
Qed.

(** ** The operations on every session *)

Lemma view_finalize r state j s : er_session_id r ≠ s →
  view (update_reservations (same_reservation r) state j) s = view j s.
Proof.
  intros Hs. apply (view_update_other _ _ _ _ (er_session_id r)); [congruence|].
  unfold same_reservation. intros x [H _]%andb_true_iff. by apply bool_decide_eq_true in H.
Qed.

(** The pending row, updated by the statement of [append] and [stage]. *)
Lemma shape_same_reservation r state j fin st pend root log row :
  Shape (view j (er_session_id r)) fin st pend root log →
  row ∈ v_reservations (view j (er_session_id r)) → rv_state row = "reserved" →
  rv_sequence row = er_mediation_sequence r →
  (λ x, if same_reservation r x then set_state state x else x)
    <$> v_reservations (view j (er_session_id r)) = fin ++ st ++ [set_state state row].
Proof.
  intros HS Hin Hst Hseq. destruct (shape_pending HS _ Hin Hst) as [-> Hn].
  apply (shape_update_pending HS row); [done| |done]. intros x Hx. unfold same_reservation.
  pose proof (proj1 (Forall_forall _ _) (view_sessions j (er_session_id r)) x Hx) as ->.
  rewrite bool_decide_eq_true_2 by done. simpl. by rewrite Hseq.
Qed.

Lemma recorded_row r row nonce state : evidence_nonce_text (er_nonce r) = Ok nonce →
  rv_sequence row = er_mediation_sequence r → rv_nonce row = nonce →
  rv_first row = er_first_sequence r → rv_last row = er_last_sequence r →
  rv_semantic_root row = er_semantic_root r → rv_before_root row = er_before_execution_root r →
  recorded (row_of_receipt r nonce) (set_state state row).
Proof. intros. unfold recorded. simpl. by split_and!. Qed.

Lemma append_shape r j j' u s : append_body r j = Ok (j', u) → session_ok (view j s) →
  if decide (er_session_id r = s)
  then ∃ fin row root log nonce,
    Shape (view j s) fin [] (Some row) root log ∧
    evidence_nonce_text (er_nonce r) = Ok nonce ∧
    v_evidence (view j' s) = v_evidence (view j s) ++ [row_of_receipt r nonce] ∧
    Shape (view j' s) (fin ++ [set_state "finalized" row]) [] None
      (er_after_execution_root r) (log ++ [link_of_row (row_of_receipt r nonce)])
  else view j' s = view j s.
Proof.
  unfold append_body. intros H Hok. apply bind_Ok in H as (? & Hres & H).
  apply bind_Ok in H as (? & Hext & H). apply bind_Ok in H as (j1 & Hins & H). injection H as <- <-.
  apply bind_Ok in Hins as (nonce & Hnonce & Hins). unfold advance_head.
  rewrite view_replace_head. case_decide as Hs; subst.
  - destruct Hok as (fin & st & pend & root & log & HS).
    apply assert_reserved_Ok in Hres as (row & Hin & Hseq & Hst & Hn & ? & ? & ? & Hb).
    rewrite Hnonce in Hn. injection Hn as ->.
    apply bind_Ok in Hext as (? & Hq%require_Ok%Z.eqb_eq & Hr%require_Ok).
    apply bool_decide_eq_true in Hr.
    change (load_head j (er_session_id r)) with (v_head (view j (er_session_id r))) in Hq, Hr.
    rewrite (shape_head_seq HS) in Hq. rewrite (shape_head_root HS) in Hr.
    destruct (shape_pending HS _ Hin Hst) as [-> Hrow].
    assert (st = []) as -> by (destruct st; [done|simpl in Hrow; lia]).
    exists fin, row, root, log, (rv_nonce row). rewrite decide_True by done.
    rewrite view_update_reservations, (view_insert_evidence _ _ _ _ Hins), decide_True by done.
    split_and!; [done..|]. unfold map_reservations.
    cbn [v_reservations v_evidence v_head v_leaves v_batches].
    pose proof (shape_same_reservation r "finalized" j _ _ _ _ _ row HS Hin Hst Hseq) as Hrows.
    rewrite Hrows.
    apply (shape_append (view j (er_session_id r)) fin row root log
             (row_of_receipt r (rv_nonce row)) (er_after_execution_root r)); [done|lia|congruence| |done].
    by apply recorded_row.
  - rewrite decide_False by congruence. rewrite view_finalize by done.
    rewrite (view_insert_evidence _ _ _ _ Hins), decide_False by done. by rewrite app_nil_r.
Qed.

Lemma shape_staged_seq {v fin st pend root log} (HS : Shape v fin st pend root log) :
  lf_sequence <$> v_staged v = seqZ (Z.of_nat (length fin) + 1) (Z.of_nat (length st)).
Proof.
  rewrite (sh_staged _ _ _ _ _ _ HS). pose proof (shape_resolved_seq HS) as H.
  rewrite fmap_app, length_app, Nat2Z.inj_add, seqZ_app in H by lia.
  apply app_inj_1 in H as [_ H]; [|by rewrite length_fmap, length_seqZ; lia].
  rewrite H. f_equal. lia.
Qed.

Lemma shape_staged_rows {j s fin st pend root log} (HS : Shape (view j s) fin st pend root log) :
  staged_rows j s = v_staged (view j s).
Proof.
  unfold staged_rows. rewrite staged_leaves_view.
  by apply (order_by_seqZ _ _ _ _ (sh_index _ _ _ _ _ _ HS)).
Qed.

(** The range of a batch. *)
Lemma shape_staged_range {v fin st pend root log first rest last_row}
    (HS : Shape v fin st pend root log) :
  v_staged v = first :: rest → last (first :: rest) = Some last_row →
  lf_sequence first = Z.of_nat (length fin) + 1 ∧
  lf_sequence last_row = Z.of_nat (length fin + length st) ∧ length (first :: rest) = length st.
Proof.
  intros Hv Hl. pose proof (shape_staged_seq HS) as Hs. rewrite Hv in Hs.
  assert (length (first :: rest) = length st) as Hlen.
  { apply (f_equal length) in Hs. rewrite length_fmap, length_seqZ in Hs. lia. }
  destruct st as [|r st]; [done|]. split_and!; [| |done].
  - cbn [length] in Hs. rewrite seqZ_cons in Hs by lia. csimpl in Hs. congruence.
  - cbn [length] in Hs. rewrite seqZ_S in Hs. apply (f_equal last) in Hs.
    rewrite fmap_last, last_snoc, Hl in Hs. cbn [fmap option_fmap option_map] in Hs.
    injection Hs as ->. simpl. lia.
Qed.

Section sha.
Variable sha256 : string → string.

Lemma stage_shape r d j j' ld s : stage_body sha256 r d j = Ok (j', ld) → session_ok (view j s) →
  if decide (er_session_id r = s)
  then ∃ fin st row root log nonce,
    Shape (view j s) fin st (Some row) root log ∧
    evidence_nonce_text (er_nonce r) = Ok nonce ∧
    v_evidence (view j' s) = v_evidence (view j s) ++ [row_of_receipt r nonce] ∧
    lf_digest <$> v_staged (view j' s) = (lf_digest <$> v_staged (view j s)) ++ [ld] ∧
    Shape (view j' s) fin (st ++ [set_state "staged" row]) None root log
  else view j' s = view j s.
Proof.
  unfold stage_body. intros H Hok. apply bind_Ok in H as (? & Hres & H).
  apply bind_Ok in H as (? & Hr%require_Ok & H). apply bind_Ok in H as (nonce & Hnonce & H).
  apply bind_Ok in H as (leaf & _ & H). apply bind_Ok in H as (ld' & _ & H).
  apply bind_Ok in H as (j1 & Hins & H). apply bind_Ok in H as (j2 & Hleaf & H). injection H as <- ->.
  apply bind_Ok in Hins as (nonce' & Hn' & Hins).
  assert (nonce' = nonce) as -> by congruence. clear Hn'.
  destruct (decide (er_session_id r = s)) as [Hs|Hs]; [subst s|].
  - destruct Hok as (fin & st & pend & root & log & HS).
    apply assert_reserved_Ok in Hres as (row & Hin & Hseq & Hst & Hn & ? & ? & ? & Hb).
    rewrite Hnonce in Hn. injection Hn as ->.
    apply bool_decide_eq_true in Hr.
    change (head_root j (er_session_id r))
      with (match v_head (view j (er_session_id r)) with None => ZERO_ROOT | Some h => h.2 end) in Hr.
    rewrite (shape_head_root HS) in Hr.
    destruct (shape_pending HS _ Hin Hst) as [-> Hrow].
    exists fin, st, row, root, log, (rv_nonce row).
    rewrite view_update_reservations, (view_insert_leaf _ _ _ _ Hleaf), decide_True by done.
    rewrite (view_insert_evidence _ _ _ _ Hins), decide_True by done.
    unfold map_reservations. cbn [v_reservations v_evidence v_head v_leaves v_batches].
    split_and!; [done..| |].
    { unfold v_staged. cbn [v_leaves]. by rewrite filter_snoc, decide_True, fmap_app. }
    pose proof (shape_same_reservation r "staged" j _ _ _ _ _ row HS Hin Hst Hseq) as Hrows.
    rewrite Hrows.
    apply (shape_stage (view j (er_session_id r)) fin st row root log (row_of_receipt r (rv_nonce row)));
      [done|lia|congruence|by apply recorded_row|simpl; lia|done|].
    cbn [lf_index]. unfold staged_count. by rewrite staged_leaves_view.
  - rewrite view_finalize by done.
    rewrite (view_insert_leaf _ _ _ _ Hleaf), decide_False by done.
    rewrite (view_insert_evidence _ _ _ _ Hins), decide_False by done. by rewrite !app_nil_r.
Qed.

Lemma view_commit_batch b j j' s : commit_batch b j = Ok j' →
  view j' s =
    if decide (s = ba_session b)
    then MkView (flush_reservation s <$> v_reservations (view j s)) (v_evidence (view j s))
           (Some (ba_last b, ba_after_root b))
           ((λ r, if is_staged_leaf s r then flush_row (ba_id b) r else r) <$> v_leaves (view j s))
           (v_batches (view j s) ++ [b])
    else view j s.
Proof.
  unfold commit_batch. intros H. apply bind_Ok in H as (j1 & Hi & [= <-]).
  rewrite view_replace_head. destruct (decide (s = ba_session b)) as [->|Hs].
  - rewrite view_update_reservations, view_update_leaves, (view_insert_batch _ _ _ _ Hi).
    by rewrite decide_True by done.
  - rewrite (view_update_other _ _ _ _ (ba_session b)), view_update_leaves; [|done|].
    + rewrite (view_insert_batch _ _ _ _ Hi), decide_False, app_nil_r by congruence.
      cbn [v_leaves v_reservations v_evidence v_head v_batches].
      rewrite fmap_id_Forall; [by destruct (view j s)|].
      eapply Forall_impl; [apply view_leaf_sessions|]. intros r Hr. unfold is_staged_leaf.
      by rewrite bool_decide_eq_false_2 by congruence.
    + unfold is_staged_reservation. intros r [Hr _]%andb_true_iff.
      by apply bool_decide_eq_true in Hr.
Qed.

Lemma next_batch_eq j s fin st pend root log : Shape (view j s) fin st pend root log →
  next_batch_id j s = Z.of_nat (length (v_batches (view j s))) + 1.
Proof.
  intros HS. unfold next_batch_id. change (session_batches j s) with (v_batches (view j s)).
  by rewrite (sh_batches _ _ _ _ _ _ HS), next_of_seqZ.
Qed.

(** What a batch row says about the leaves staged before it. *)
Definition batch_of (v : View) (root : string) (b : BatchRow) : Prop :=
  ba_leaf_count b = Z.of_nat (length (v_staged v)) ∧ ba_before_root b = root ∧
  batched_merkle_root_digests sha256 (lf_digest <$> v_staged v) = Ok (ba_batch_root b) ∧
  ba_after_root b = batch_execution_root sha256 root (ba_batch_root b).

Lemma flush_shape s0 ds sig flags j j' bc s :
  flush_body sha256 s0 ds sig flags j = Ok (j', bc) → session_ok (view j s) →
  if decide (s = s0)
  then ∃ fin st pend root log b,
    Shape (view j s) fin st pend root log ∧ st ≠ [] ∧ ds = lf_digest <$> v_staged (view j s) ∧
    batch_of (view j s) root b ∧ v_batches (view j' s) = v_batches (view j s) ++ [b] ∧
    v_staged (view j' s) = [] ∧
    bc = BatchCommit s (ba_first b) (ba_last b) (ba_leaf_count b) (ba_before_root b)
           (ba_batch_root b) (ba_after_root b) (ba_evidence_digest b) (ba_attestation_digest b)
           (ba_flags b) ∧
    Shape (view j' s) (fin ++ (set_state "finalized" <$> st)) [] pend (ba_after_root b)
      (log ++ [link_of_batch b])
  else view j' s = view j s.
Proof.
  unfold flush_body. intros H Hok. destruct (staged_rows j s0) as [|first rest] eqn:Er; [done|].
  destruct (last (first :: rest)) as [last_row|] eqn:El; [|done].
  apply bind_Ok in H as (? & Hd%require_Ok%bool_decide_eq_true & H).
  apply bind_Ok in H as (root' & Hroot & H). apply bind_Ok in H as (j1 & Hc & H).
  injection H as <- <-. rewrite (view_commit_batch _ _ _ s Hc). cbn [ba_session].
  destruct (decide (s = s0)) as [->|Hs]; [|done].
  destruct Hok as (fin & st & pend & root & log & HS).
  rewrite (shape_staged_rows HS) in Er.
  destruct (shape_staged_range HS Er El) as (Hf & Hl & Hlen).
  pose proof (shape_head_root HS) as Hhr.
  change (match v_head (view j s0) with None => ZERO_ROOT | Some h => h.2 end)
    with (head_root j s0) in Hhr.
  set (b := MkBatchRow _ _ _ _ _ _ _ _ _ _ _) in *.
  assert (st ≠ []) as Hst by (by intros ->).
  pose proof (shape_flush s0 (ba_id b) _ _ _ _ _ _ b HS Hst (view_sessions _ _)
    (view_leaf_sessions _ _) (next_batch_eq _ _ _ _ _ _ _ HS) Hf Hl Hhr) as HS'.
  exists fin, st, pend, root, log, b. split_and!; try done.
  - by rewrite Er.
  - unfold batch_of. rewrite Er, <-Hhr. done.
  - pose proof (sh_staged _ _ _ _ _ _ HS') as Hnil. by apply fmap_nil_inv in Hnil.
Qed.
End sha.
