(* ===== verification/EvidenceTheorems.v ===== *)
(** * Theorems on the evidence journal

    Operations in any order from the empty journal: every session stays
    linear, also when statements fail or the process dies; the programs on a
    connection implement the transactions; appends extend the history,
    batches carry the Merkle root of what was staged, recovery reads the journal
    back, and two situations in which the code leaves a session stuck or a batch committed behind an error. *)

From Stdlib Require Import Ascii.
From S2P Require Import Prelude PyDict GraphTypes Receipts Merkle EvidenceModel EvidenceStore EvidenceFacts.

(** The operations that change the journal. *)
Inductive JournalOp : Type :=
| OpReserve (r : AuthorizedEffectEvidenceReservation)
| OpAppend (r : AuthorizedEffectEvidenceReceipt)
| OpStage (r : AuthorizedEffectEvidenceReceipt) (input_digest : string)
| OpFlush (session_id : string) (leaf_digests : list string) (kernel_signature : string)
    (verification_flags : Z).

Section sha.
Variable sha256 : string → string.

(** The journal after an operation, and whether the operation raised. *)
Definition apply_op (op : JournalOp) (j : Journal) : Journal * result Exn unit :=
  match op with
  | OpReserve r => reserve r j
  | OpAppend r => append r j
  | OpStage r d => let '(j, res) := stage_batched_evidence sha256 r d j in (j, _ ← res; Ok ())
  | OpFlush s ds sig flags =>
      let '(j, res) := flush_batched_evidence sha256 s ds sig flags j in (j, _ ← res; Ok ())
  end.

Definition run_ops (ops : list JournalOp) (j : Journal) : Journal :=
  fold_left (λ j op, (apply_op op j).1) ops j.

(** ** What an operation does, when it does something *)

Lemma transaction_Ok {A} m (body : Journal → result Exn (Journal * A)) j j' a :
  transaction m body j = (j', Ok a) → body j = Ok (j', a).
Proof. unfold transaction. destruct (body j) as [[??]|]; congruence. Qed.

Lemma transaction_Raise {A} m (body : Journal → result Exn (Journal * A)) j j' e :
  transaction m body j = (j', Raise e) → j' = j ∧ is_evidence_error e = true.
Proof.
  unfold transaction. destruct (body j) as [[??]|e']; [done|]. intros [= <- <-].
  split; [done|]. by destruct (is_evidence_error e') eqn:E.
Qed.

(** The ways an operation changes the journal. *)
Inductive changes (j : Journal) : Journal → Prop :=
| ch_none : changes j j
| ch_reserve r j' u : reserve_body r j = Ok (j', u) → changes j j'
| ch_append r j' u : append_body r j = Ok (j', u) → changes j j'
| ch_stage r d j' ld : stage_body sha256 r d j = Ok (j', ld) → changes j j'
| ch_flush s ds sig flags j' bc : flush_body sha256 s ds sig flags j = Ok (j', bc) → changes j j'.

Lemma transaction_fst {A} m (body : Journal → result Exn (Journal * A)) j :
  (transaction m body j).1 = j ∨ ∃ a, body j = Ok ((transaction m body j).1, a).
Proof. unfold transaction. destruct (body j) as [[??]|]; simpl; eauto. Qed.

Lemma apply_op_changes op j : changes j (apply_op op j).1.
Proof.
  destruct op as [r|r|r d|s ds sig flags]; simpl.
  - unfold reserve. case_match; [|by constructor].
    destruct (transaction_fst "durable evidence reservation failed" (reserve_body r) j) as [->|[u Hu]];
      [by constructor|by eapply ch_reserve].
  - unfold append. case_match; [|by constructor].
    destruct (transaction_fst "durable evidence append failed" (append_body r) j) as [->|[u Hu]];
      [by constructor|by eapply ch_append].
  - destruct (stage_batched_evidence sha256 r d j) as [j' res] eqn:E. simpl.
    unfold stage_batched_evidence in E. case_match; [|injection E as <- _; constructor].
    case_match; [injection E as <- _; constructor|].
    destruct (transaction_fst "durable Batched evidence staging failed" (stage_body sha256 r d) j)
      as [H'|[u Hu]]; rewrite E in *; simpl in *; [subst; constructor|by eapply ch_stage].
  - destruct (flush_batched_evidence sha256 s ds sig flags j) as [j' res] eqn:E. simpl.
    unfold flush_batched_evidence in E.
    destruct (transaction_fst "durable Batched evidence flush failed" (flush_body sha256 s ds sig flags) j)
      as [H'|[u Hu]]; rewrite E in *; simpl in *; [subst; constructor|by eapply ch_flush].
Qed.

Lemma changes_ok j j' s : changes j j' → session_ok (view j s) → session_ok (view j' s).
Proof.
  intros [|r j1 u H|r j1 u H|r d j1 ld H|s0 ds sig flags j1 bc H] Hok; [done|..].
  - by eapply reserve_ok.
  - pose proof (append_shape _ _ _ _ s H Hok) as Hs.
    destruct (decide (er_session_id r = s)); [|by rewrite Hs].
    destruct Hs as (? & ? & ? & ? & ? & _ & _ & _ & HS). by do 5 eexists.
  - pose proof (stage_shape _ _ _ _ _ _ s H Hok) as Hs.
    destruct (decide (er_session_id r = s)); [|by rewrite Hs].
    destruct Hs as (? & ? & ? & ? & ? & ? & _ & _ & _ & _ & HS). by do 5 eexists.
  - pose proof (flush_shape _ _ _ _ _ _ _ _ s H Hok) as Hs.
    destruct (decide (s = s0)); [|by rewrite Hs].
    destruct Hs as (? & ? & ? & ? & ? & ? & _ & _ & _ & _ & _ & _ & _ & HS). by do 5 eexists.
Qed.

Lemma run_ops_ok ops j s : session_ok (view j s) → session_ok (view (run_ops ops j) s).
Proof.
  revert j; induction ops as [|op ops IH]; intros j Hok; [done|]. simpl. apply IH.
  eapply changes_ok; [apply apply_op_changes|done].
Qed.

(** A journal some sequence of operations leads to. *)
Definition reachable (j : Journal) : Prop := ∃ ops, j = run_ops ops empty_journal.

Lemma reachable_ok j s : reachable j → session_ok (view j s).
Proof. intros [ops ->]. apply run_ops_ok, empty_session_ok. Qed.

(** ** Reading rows back *)

Lemma receipt_of_row r nonce : evidence_nonce_text (er_nonce r) = Ok nonce →
  receipt_from_row (er_session_id r) (row_of_receipt r nonce) = Ok r.
Proof.
  intros Hn%nonce_parses. unfold receipt_from_row. simpl. rewrite Hn. simpl.
  destruct r as [? ? ? ? ? ? ? ? ? ? ? ? b1 b2 ?]. simpl. by destruct b1, b2.
Qed.

Lemma shape_history j s fin st pend root log : Shape (view j s) fin st pend root log →
  journal_history j s = mapM (receipt_from_row s) (v_evidence (view j s)).
Proof.
  intros HS. unfold journal_history. change (session_evidence j s) with (v_evidence (view j s)).
  by rewrite (order_by_seqZ _ _ _ _ (shape_evidence_seq HS)).
Qed.

Lemma shape_history_Ok j s fin st pend root log : Shape (view j s) fin st pend root log →
  ∃ h, journal_history j s = Ok h.
Proof.
  intros HS. rewrite (shape_history _ _ _ _ _ _ _ HS).
  pose proof (sh_ev _ _ _ _ _ _ HS) as Hev. pose proof (sh_nonce _ _ _ _ _ _ HS) as Hn.
  rewrite (sh_rows _ _ _ _ _ _ HS), app_assoc in Hn. apply Forall_app in Hn as [Hn _].
  induction Hev as [|e r le lr He _ IH]; [by exists []|].
  apply Forall_cons in Hn as [[n Hn] Hns]. destruct (IH Hns) as [h Hh].
  apply nonce_parses in Hn.
  assert (∃ x, receipt_from_row s e = Ok x) as [x Hx].
  { unfold receipt_from_row. destruct He as (_ & _ & _ & -> & _). rewrite Hn. by eexists. }
  cbn [mapM]. rewrite Hx. cbn [mbind result_bind]. rewrite Hh. by eexists.
Qed.

Lemma mapM_snoc {A B} (f : A → result Exn B) l x h y :
  mapM f l = Ok h → f x = Ok y → mapM f (l ++ [x]) = Ok (h ++ [y]).
Proof. intros H Hx. apply mapM_Ok in H. apply mapM_Ok, Forall2_app; [done|]. by constructor. Qed.

(** C5. Every session of the evidence journal is linear: from the empty
    journal, whatever operations are tried in whatever order, the
    reservations of a session carry the sequences 1, 2, 3, ... and are the
    finalised ones, then the staged ones, then at most one pending; the
    evidence rows are those of the resolved reservations in the same order; and
    the recorded transitions of the execution root form one chain from the
    zero root to the head, without a fork ([Shape]). *)
Theorem evidence_journal_is_linear (ops : list JournalOp) (s : string) :
  session_ok (view (run_ops ops empty_journal) s).
Proof. apply run_ops_ok, empty_session_ok. Qed.

(** An append that returns adds exactly its receipt: the history of the
    session is the old history followed by the receipt as it was given, the
    receipt is the new head, the execution root is the receipt's, and no
    other session changes. *)
Theorem append_extends_history (j j' : Journal) (r : AuthorizedEffectEvidenceReceipt) :
  reachable j → append r j = (j', Ok ()) →
  (∃ history, journal_history j (er_session_id r) = Ok history ∧
     journal_history j' (er_session_id r) = Ok (history ++ [r])) ∧
  journal_head j' (er_session_id r) = Ok (Some r) ∧
  head_root j' (er_session_id r) = er_after_execution_root r ∧
  ∀ s, s ≠ er_session_id r → view j' s = view j s.
Proof.
  intros Hr Ha. unfold append in Ha. case_match; [|done]. apply transaction_Ok in Ha.
  pose proof (append_shape _ _ _ _ (er_session_id r) Ha (reachable_ok j _ Hr)) as Hs.
  rewrite decide_True in Hs by done.
  destruct Hs as (fin & row & root & log & nonce & HS & Hn & Hev & HS').
  split_and!.
  - destruct (shape_history_Ok _ _ _ _ _ _ _ HS) as [h Hh]. exists h. split; [done|].
    rewrite (shape_history _ _ _ _ _ _ _ HS) in Hh. rewrite (shape_history _ _ _ _ _ _ _ HS'), Hev.
    apply mapM_snoc; [done|]. by apply receipt_of_row.
  - unfold journal_head.
    change (session_evidence j' (er_session_id r)) with (v_evidence (view j' (er_session_id r))).
    rewrite (order_by_seqZ _ _ _ _ (shape_evidence_seq HS')), Hev, last_snoc.
    by rewrite receipt_of_row by done.
  - pose proof (shape_head_root HS') as Hh. exact Hh.
  - intros s Hs. pose proof (append_shape _ _ _ _ s Ha (reachable_ok j _ Hr)) as Hv.
    by rewrite decide_False in Hv by congruence.
Qed.

(** A flush that returns commits exactly the staged leaves: the digests
    it was given are those of the staged rows in order, the batch covers a
    contiguous range of as many effects, its root is their Merkle root, the
    new execution root is the digest of the old one and the batch root,
    nothing stays staged and no other session changes. *)
Theorem flush_commits_staged (j j' : Journal) s leaf_digests sig flags bc :
  reachable j → flush_batched_evidence sha256 s leaf_digests sig flags j = (j', Ok bc) →
  leaf_digests = lf_digest <$> staged_leaves j s ∧ leaf_digests ≠ [] ∧
  bc_leaf_count bc = Z.of_nat (length leaf_digests) ∧
  bc_last_mediation_sequence bc = bc_first_mediation_sequence bc + bc_leaf_count bc - 1 ∧
  batched_merkle_root_digests sha256 leaf_digests = Ok (bc_batch_root bc) ∧
  bc_before_execution_root bc = head_root j s ∧
  bc_after_execution_root bc
    = batch_execution_root sha256 (bc_before_execution_root bc) (bc_batch_root bc) ∧
  head_root j' s = bc_after_execution_root bc ∧ staged_leaves j' s = [] ∧
  ∀ s', s' ≠ s → view j' s' = view j s'.
Proof.
  intros Hr Hf%transaction_Ok.
  pose proof (flush_shape _ _ _ _ _ _ _ _ s Hf (reachable_ok j _ Hr)) as Hs.
  rewrite decide_True in Hs by done.
  destruct Hs as (fin & st & pend & root & log & b & HS & Hst & -> & (Hc & Hb & Hroot & Ha) & Hbs & Hstg & -> & HS').
  cbn [bc_leaf_count bc_last_mediation_sequence bc_first_mediation_sequence bc_batch_root
       bc_before_execution_root bc_after_execution_root].
  rewrite staged_leaves_view. pose proof (sh_staged _ _ _ _ _ _ HS) as Hlen.
  apply (f_equal length) in Hlen. rewrite !length_fmap in Hlen.
  pose proof (sh_follow _ _ _ _ _ _ HS) as Hfo. pose proof (sh_follow _ _ _ _ _ _ HS') as Hfo'.
  assert (ba_first b = Z.of_nat (length fin) + 1 ∧ ba_last b = Z.of_nat (length fin + length st)) as [Hf1 Hf2].
  { clear -Hfo Hfo'. rewrite length_app, length_fmap in Hfo'.
    revert Hfo Hfo'. generalize 0 ZERO_ROOT. induction log as [|l log IH]; intros n rt; cbn [follow app].
    - intros [= -> _]. case_bool_decide as H; [|done]. intros [= E]. simpl in *. lia.
    - case_bool_decide; [|done]. apply IH. }
  split_and!; try done.
  - intros E. apply fmap_nil_inv in E. rewrite E in Hlen. by destruct st.
  - by rewrite length_fmap.
  - lia.
  - rewrite Hb. symmetry. exact (shape_head_root HS).
  - by rewrite Hb.
  - exact (shape_head_root HS').
  - by rewrite staged_leaves_view.
  - intros s' Hs. pose proof (flush_shape _ _ _ _ _ _ _ _ s' Hf (reachable_ok j _ Hr)) as Hv.
    by rewrite decide_False in Hv by congruence.
Qed.

(** ** Failures *)

Lemma nonce_text_error n e : evidence_nonce_text n = Raise e → is_evidence_error e = true.
Proof. destruct n. unfold evidence_nonce_text. case_match; [|done]. by intros [= <-]. Qed.

Lemma receipt_error r e :
  validate_authorized_effect_evidence_receipt r = Raise e → is_evidence_error e = true.
Proof.
  unfold validate_authorized_effect_evidence_receipt.
  repeat (case_match; [by intros [= <-]|]). done.
Qed.

(** What the operations raise is an evidence error. *)
Lemma validate_reservation_error r e :
  validate_reservation r = Raise e → is_evidence_error e = true.
Proof.
  unfold validate_reservation. case_match; [by intros [= <-]|].
  intros [Hn|(? & _ & ?)]%bind_Raise; [by eapply nonce_text_error|done].
Qed.

(** ** Programs on a connection implement the transactions *)

Section faults.
Variable faults : nat → Fault.

Definition faultless : Prop := ∀ n, faults n = Runs.

(** A program that runs in an open transaction on the copy [w] of the committed
    journal [d] and ends with its commit, against the answer [res] of the
    transaction: if it returns, so does [res], and the new journal is committed;
    if it raises, the committed journal is the old one; if the process dies, it
    is one of the two; and without faults it answers what [res] answers. *)
Definition implements {A} (m : CM A) (d w : Journal) (res : result Exn (Journal * A)) : Prop :=
  ∀ c, cn_disk c = d → cn_work c = Some w →
    match (m c).2 with
    | Done a => cn_work (m c).1 = None ∧ res = Ok (cn_disk (m c).1, a)
    | Raised e => cn_disk (m c).1 = d
    | Died => cn_disk (m c).1 = d ∨ ∃ a, res = Ok (cn_disk (m c).1, a)
    end ∧
    (faultless → (m c).2 = outcome_of (snd <$> res)).

Lemma implements_computing {A B} (r : result Exn A) (k : A → CM B) d w res :
  (∀ a, r = Ok a → implements (k a) d w res) → (∀ e, r = Raise e → res = Raise e) →
  implements (computing r ≫= k) d w res.
Proof.
  intros HO HR c Hd Hw. unfold mbind, CM_bind, computing.
  destruct r as [a|e]; simpl; [by apply HO|]. by rewrite (HR e).
Qed.

Lemma implements_raise {A} e d w : implements (A:=A) (computing (Raise e)) d w (Raise e).
Proof. by intros c Hd Hw. Qed.

Ltac statement_cases c :=
  unfold mbind, CM_bind, statement;
  destruct (faults (cn_count c)) eqn:?; simpl;
  [|split; [auto|intros Hf; by rewrite Hf in *]..].

Lemma implements_querying {A B} (q : Journal → result Exn A) (k : A → CM B) d w res :
  (∀ a, q w = Ok a → implements (k a) d w res) → (∀ e, q w = Raise e → res = Raise e) →
  implements (querying faults q ≫= k) d w res.
Proof.
  intros HO HR c Hd Hw. unfold querying. statement_cases c.
  unfold seen; simpl. rewrite Hw; simpl.
  destruct (q w) as [a|e]; simpl; [by apply HO|]. by rewrite (HR e).
Qed.

Lemma implements_executing {B} (f : Journal → result Exn Journal) (k : unit → CM B) d w res :
  (∀ w', f w = Ok w' → implements (k ()) d w' res) → (∀ e, f w = Raise e → res = Raise e) →
  implements (executing faults f ≫= k) d w res.
Proof.
  intros HO HR c Hd Hw. unfold executing. statement_cases c;
    unfold seen; simpl; rewrite ?Hw; simpl.
  - destruct (f w) as [w'|e]; simpl; [by apply (HO w' eq_refl)|]. by rewrite (HR e).
  - left. by destruct (f w).
Qed.

Lemma implements_commit {A} (a : A) d w :
  implements (_ ← commit faults; mret a) d w (Ok (w, a)).
Proof.
  intros c Hd Hw. unfold commit. statement_cases c; unfold seen; simpl; rewrite ?Hw; simpl; eauto.
Qed.

Lemma implements_commit_unit d w : implements (commit faults) d w (Ok (w, ())).
Proof.
  intros c Hd Hw. pose proof (implements_commit () d w c Hd Hw) as H.
  unfold mbind, CM_bind in H. by destruct (commit faults c) as [c' [[]| |]].
Qed.

Lemma implements_assoc {A B C} (m : CM A) (f : A → CM B) (g : B → CM C) d w res :
  implements (m ≫= λ a, f a ≫= g) d w res → implements ((m ≫= f) ≫= g) d w res.
Proof.
  intros H c Hd Hw. specialize (H c Hd Hw). unfold mbind, CM_bind in *.
  by destruct (m c) as [c' [a|e|]].
Qed.

(** What an operation on a connection with no open transaction does, against
    the answer of the operation on the committed journal. *)
Definition atomic {A} (m : CM A) (c : Connection) (answer : Journal * result Exn A) : Prop :=
  match (m c).2 with
  | Done a => cn_work (m c).1 = None ∧ answer = (cn_disk (m c).1, Ok a)
  | Raised e => cn_work (m c).1 = None ∧ cn_disk (m c).1 = cn_disk c ∧ is_evidence_error e = true
  | Died => cn_disk (m c).1 = cn_disk c ∨ cn_disk (m c).1 = answer.1
  end ∧
  (faultless → (m c).2 = outcome_of answer.2).

(** A transaction whose body is implemented runs atomically. *)
Lemma guarded_atomic {A} failed (m : CM A) (body : Journal → result Exn (Journal * A)) c :
  (∀ w, implements m w w (body w)) → cn_work c = None →
  atomic (guarded failed (_ ← begin_immediate faults; m)) c (transaction failed body (cn_disk c)).
Proof.
  intros Hm Hc. unfold atomic, guarded, begin_immediate, mbind, CM_bind, statement.
  destruct (faults (cn_count c)) as [|e| |] eqn:Hf; simpl; rewrite ?Hc; simpl.
  - set (c1 := with_work _ _). specialize (Hm (cn_disk c) c1 eq_refl eq_refl).
    destruct (m c1) as [c' [a|e|]]; simpl in Hm; destruct Hm as [Hm Hfl]; simpl.
    + destruct Hm as [Hw Hb]. unfold transaction. by rewrite Hb.
    + assert (faultless → is_evidence_error e = is_evidence_error e ∧
        transaction failed body (cn_disk c)
          = (cn_disk c, Raise (if is_evidence_error e then e else AuthorizedEffectEvidenceError failed)))
        as Ht.
      { intros Hr. specialize (Hfl Hr). unfold transaction.
        destruct (body (cn_disk c)) as [[??]|e'] eqn:Hb; [done|]. by simplify_eq/=. }
      destruct (is_evidence_error e) eqn:He; simpl; (split; [done|]);
        intros Hr; by destruct (Ht Hr) as [_ ->].
    + split; [|intros Hr; specialize (Hfl Hr); unfold transaction;
                by destruct (body (cn_disk c)) as [[??]|?]].
      unfold transaction. destruct Hm as [Hm|[a Hm]]; [by left|right; by rewrite Hm].
  - destruct (is_evidence_error e) eqn:He; simpl; (split; [done|]); intros Hr; by rewrite Hr in Hf.
  - split; [by left|]. intros Hr; by rewrite Hr in Hf.
  - split; [by left|]. intros Hr; by rewrite Hr in Hf.
Qed.

(** Checks in front of the transaction. *)
Lemma computing_atomic {A B} (r : result Exn B) (m : CM A) c answer :
  cn_work c = None → (∀ e, r = Raise e → is_evidence_error e = true) →
  (∀ b, r = Ok b → atomic m c answer) →
  (∀ e, r = Raise e → answer = (cn_disk c, Raise e)) →
  atomic (_ ← computing r; m) c answer.
Proof.
  intros Hc He HO HR. unfold atomic, computing, mbind, CM_bind.
  destruct r as [b|e]; simpl; [by apply (HO b)|]. rewrite (HR e) by done. split; [auto|done].
Qed.

(** The forms the steps of the programs have, against the binds of the bodies. *)
Lemma implements_select {A B} (q : Journal → A) (k : A → CM B) d w res :
  implements (k (q w)) d w res → implements (querying faults (λ j, Ok (q j)) ≫= k) d w res.
Proof. intros H. apply implements_querying; [by intros ? [= <-]|done]. Qed.

Lemma implements_update {B} (f : Journal → Journal) (k : unit → CM B) d w res :
  implements (k ()) d (f w) res → implements (executing faults (λ j, Ok (f j)) ≫= k) d w res.
Proof. intros H. apply implements_executing; [by intros ? [= <-]|done]. Qed.

Lemma implements_compute {A B} (r : result Exn A) (k : A → CM B) g d w :
  (∀ a, implements (k a) d w (g a)) → implements (computing r ≫= k) d w (r ≫= g).
Proof. intros H. by apply implements_computing; intros ? ->. Qed.

Lemma implements_query {A B} (q : Journal → result Exn A) (k : A → CM B) g d w :
  (∀ a, implements (k a) d w (g a)) → implements (querying faults q ≫= k) d w (q w ≫= g).
Proof. intros H. by apply implements_querying; intros ? ->. Qed.

Lemma implements_insert {B} (f : Journal → result Exn Journal) (k : unit → CM B) g d w :
  (∀ w', implements (k ()) d w' (g w')) → implements (executing faults f ≫= k) d w (f w ≫= g).
Proof. intros H. by apply implements_executing; intros ? ->. Qed.

Lemma result_bind_assoc {A B C} (r : result Exn A) (f : A → result Exn B) (g : B → result Exn C) :
  (r ≫= f) ≫= g = r ≫= λ a, f a ≫= g.
Proof. by destruct r. Qed.

Ltac step_implements :=
  first
    [ rewrite result_bind_assoc | apply implements_commit_unit | apply implements_commit | apply implements_raise
    | apply implements_select | apply implements_update
    | match goal with |- implements (querying _ ?q ≫= ?k) _ _ _ =>
        apply (implements_query q k); intros ? end
    | apply implements_compute; intros ?
    | apply implements_insert; intros ? | apply implements_assoc ].

Lemma reserve_atomic r c : cn_work c = None →
  atomic (reserve_on faults r) c (reserve r (cn_disk c)).
Proof.
  intros Hc. unfold reserve_on, reserve.
  apply computing_atomic; [done|apply validate_reservation_error|intros b ->|by intros e ->].
  apply guarded_atomic; [|done]. intros w. unfold reserve_body. step_implements.
  destruct (reservation w _ _); repeat step_implements.
Qed.

Lemma append_atomic r c : cn_work c = None →
  atomic (append_on faults r) c (append r (cn_disk c)).
Proof.
  intros Hc. unfold append_on, append.
  apply computing_atomic; [done|apply receipt_error|intros b ->|by intros e ->].
  apply guarded_atomic; [|done]. intros w. unfold append_body, insert_receipt_on, insert_receipt.
  repeat step_implements.
Qed.

Lemma stage_atomic r d c : cn_work c = None →
  atomic (stage_on faults sha256 r d) c (stage_batched_evidence sha256 r d (cn_disk c)).
Proof.
  intros Hc. unfold stage_on, stage_batched_evidence.
  apply computing_atomic; [done|apply receipt_error|intros b ->|by intros e ->].
  apply computing_atomic; [done|by intros e [_ ->]%require_Raise|..].
  - intros b' Hb%require_Ok%andb_prop. destruct Hb as [-> ->]. simpl.
    apply guarded_atomic; [|done]. intros w. unfold stage_body, insert_receipt_on, insert_receipt.
    repeat step_implements.
  - intros e [He ->]%require_Raise. by rewrite <-negb_andb, He.
Qed.

Lemma flush_atomic s ds sig flags c : cn_work c = None →
  atomic (flush_on faults sha256 s ds sig flags) c
    (flush_batched_evidence sha256 s ds sig flags (cn_disk c)).
Proof.
  intros Hc. unfold flush_on, flush_batched_evidence.
  apply guarded_atomic; [|done]. intros w. unfold flush_body, commit_batch_on, commit_batch.
  step_implements. destruct (staged_rows w s) as [|row rows]; [apply implements_raise|].
  destruct (last (row :: rows)) as [last_row|]; [|apply implements_raise].
  repeat step_implements.
Qed.

(** An operation as the program on a connection that it is. *)
Definition run_op_on (op : JournalOp) : CM unit :=
  match op with
  | OpReserve r => reserve_on faults r
  | OpAppend r => append_on faults r
  | OpStage r d => _ ← stage_on faults sha256 r d; mret ()
  | OpFlush s ds sig flags => _ ← flush_on faults sha256 s ds sig flags; mret ()
  end.

Lemma atomic_forget {A} (m : CM A) c j (res : result Exn A) :
  atomic m c (j, res) → atomic (_ ← m; mret ()) c (j, _ ← res; Ok ()).
Proof.
  unfold atomic, mbind, CM_bind. destruct (m c) as [c' [a|e|]]; simpl; intros [H Hf].
  - destruct H as [Hw [= -> ->]]. done.
  - split; [done|]. intros Hr. specialize (Hf Hr). by destruct res; simplify_eq/=.
  - split; [done|]. intros Hr. specialize (Hf Hr). by destruct res.
Qed.

Lemma run_op_atomic op c : cn_work c = None → atomic (run_op_on op) c (apply_op op (cn_disk c)).
Proof.
  intros Hc. destruct op as [r|r|r d|s ds sig flags]; simpl.
  - by apply reserve_atomic.
  - by apply append_atomic.
  - pose proof (stage_atomic r d c Hc) as H. destruct (stage_batched_evidence _ _ _ _) as [j res].
    by apply atomic_forget.
  - pose proof (flush_atomic s ds sig flags c Hc) as H.
    destruct (flush_batched_evidence _ _ _ _ _ _) as [j res]. by apply atomic_forget.
Qed.

(** C38. An operation that raises rolls back, whatever statement failed and
    however much it had written: run statement by statement on a connection
    without an open transaction, whose statements may fail and during which the
    process may die, an operation either returns, and has committed what it
    answers; or raises an [AuthorizedEffectEvidenceError], and the committed
    journal is the old one; in both cases no transaction is left open.  A
    process that dies leaves the old journal or the whole effect of the
    operation, and an operation without faults returns or raises what
    [apply_op] says. *)
Theorem failed_operation_rolls_back (op : JournalOp) (c : Connection) :
  cn_work c = None →
  match (run_op_on op c).2 with
  | Done _ => cn_work (run_op_on op c).1 = None ∧
      apply_op op (cn_disk c) = (cn_disk (run_op_on op c).1, Ok ())
  | Raised e => cn_work (run_op_on op c).1 = None ∧
      cn_disk (run_op_on op c).1 = cn_disk c ∧ is_evidence_error e = true
  | Died => cn_disk (run_op_on op c).1 = cn_disk c ∨
      cn_disk (run_op_on op c).1 = (apply_op op (cn_disk c)).1
  end ∧
  ((∀ n, faults n = Runs) → (run_op_on op c).2 = outcome_of (apply_op op (cn_disk c)).2).
Proof.
  intros Hc. pose proof (run_op_atomic op c Hc) as [H Hf]. split; [|exact Hf].
  by destruct (run_op_on op c) as [c' [[]|e|]].
Qed.

(** Operations in turn; when the process dies, the journal is opened anew,
    without the transaction that was open. *)
Definition run_ops_on (ops : list JournalOp) (c : Connection) : Connection :=
  fold_left (λ c op, match run_op_on op c with
                     | (c', Died) => with_work None c'
                     | (c', _) => c'
                     end) ops c.

(** Whatever fails and whenever the process dies, the committed journal is the
    one that some of the operations, in their order, lead to from the empty
    journal; so every session stays linear. *)
Theorem evidence_survives_faults (ops : list JournalOp) (s : string) :
  let c := MkConnection empty_journal None 0 in
  (∃ effective, effective `sublist_of` ops ∧
     cn_disk (run_ops_on ops c) = run_ops effective empty_journal) ∧
  session_ok (view (cn_disk (run_ops_on ops c)) s).
Proof.
  intros c0. assert (∀ c, cn_work c = None → ∃ effective, effective `sublist_of` ops ∧
     cn_disk (run_ops_on ops c) = run_ops effective (cn_disk c)) as H.
  { induction ops as [|op ops IH]; intros c Hc; [by exists []|]. simpl.
    pose proof (run_op_atomic op c Hc) as [H _].
    destruct (run_op_on op c) as [c' [u|e|]]; simpl in H.
    - destruct H as [Hw Ha]. destruct (IH c' Hw) as (l & Hl & ->).
      exists (op :: l). split; [by constructor|]. simpl. by rewrite Ha.
    - destruct H as (Hw & <- & _). destruct (IH c' Hw) as (l & Hl & ->).
      exists l. split; [by constructor|done].
    - destruct (IH (with_work None c') eq_refl) as (l & Hl & ->). simpl.
      destruct H as [->| ->]; [exists l|exists (op :: l)]; (split; [by constructor|done]). }
  destruct (H c0 eq_refl) as (l & Hl & Hd). split; [by exists l|]. rewrite Hd.
  apply run_ops_ok, empty_session_ok.
Qed.
End faults.

(** A session whose pending reservation was made for another root than the one
    the session has now. *)
Definition stuck (v : View) : Prop :=
  v_staged v = [] ∧
  ∃ row, row ∈ v_reservations v ∧ rv_state row = "reserved" ∧
    rv_before_root row ≠ match v_head v with None => ZERO_ROOT | Some h => h.2 end.

Lemma stuck_reserved v row' : session_ok v → stuck v →
  row' ∈ v_reservations v → rv_state row' = "reserved" →
  rv_before_root row' ≠ match v_head v with None => ZERO_ROOT | Some h => h.2 end.
Proof.
  intros (fin & st & pend & root & log & HS) (_ & row & Hin & Hst & Hb) Hin' Hst'.
  destruct (shape_pending HS _ Hin Hst) as [-> _]. by destruct (shape_pending HS _ Hin' Hst') as [[= ->] _].
Qed.

Lemma stuck_changes j j' s : changes j j' → session_ok (view j s) → stuck (view j s) →
  view j' s = view j s.
Proof.
  intros [|r j1 u H|r j1 u H|r d j1 ld H|s0 ds sig flags j1 bc H] Hok Hstuck; [done|..].
  - apply reserve_inv in H as [->|(row & _ & _ & _ & _ & Hno & _ & Hv)]; [done|].
    rewrite Hv. case_decide as Hs; [|by rewrite app_nil_r, view_eta]. subst s.
    destruct Hstuck as (_ & row' & Hin & Hst & _). rewrite Forall_forall in Hno.
    by destruct (Hno row').
  - pose proof (append_shape _ _ _ _ s H Hok) as Hs.
    destruct (decide (er_session_id r = s)) as [<-|]; [exfalso|done].
    unfold append_body in H. apply bind_Ok in H as (? & Hres & H).
    apply bind_Ok in H as (? & Hext & _). apply bind_Ok in Hext as (? & _ & Hr%require_Ok%bool_decide_eq_true).
    apply assert_reserved_Ok in Hres as (row & Hin & _ & Hst & _ & _ & _ & _ & Hb).
    by apply (stuck_reserved _ row Hok Hstuck Hin Hst); rewrite Hb.
  - pose proof (stage_shape _ _ _ _ _ _ s H Hok) as Hs.
    destruct (decide (er_session_id r = s)) as [<-|]; [exfalso|done].
    unfold stage_body in H. apply bind_Ok in H as (? & Hres & H).
    apply bind_Ok in H as (? & Hr%require_Ok%bool_decide_eq_true & _).
    apply assert_reserved_Ok in Hres as (row & Hin & _ & Hst & _ & _ & _ & _ & Hb).
    by apply (stuck_reserved _ row Hok Hstuck Hin Hst); rewrite Hb.
  - pose proof (flush_shape _ _ _ _ _ _ _ _ s H Hok) as Hs.
    destruct (decide (s = s0)) as [->|]; [exfalso|done].
    destruct Hs as (fin & st & pend & root & log & b & HS & Hst & _).
    pose proof (sh_staged _ _ _ _ _ _ HS) as E. rewrite (proj1 Hstuck) in E.
    symmetry in E. by apply fmap_nil_inv in E.
Qed.

(** A flush while a reservation is pending leaves the session stuck: the
    flush moves the execution root, the pending reservation keeps the old
    one, and from then on no sequence of operations changes the session:
    neither finalising or staging the pending effect, nor any new
    reservation, nor another flush. *)
Theorem flush_with_pending_sticks (j j' : Journal) s ds sig flags bc pending (ops : list JournalOp) :
  reachable j → flush_batched_evidence sha256 s ds sig flags j = (j', Ok bc) →
  pending ∈ session_reservations j s → rv_state pending = "reserved" →
  rv_before_root pending ≠ bc_after_execution_root bc →
  stuck (view j' s) ∧ view (run_ops ops j') s = view j' s.
Proof.
  intros Hr Hf%transaction_Ok Hin Hst Hb.
  pose proof (reachable_ok j s Hr) as Hok.
  pose proof (flush_shape _ _ _ _ _ _ _ _ s Hf Hok) as Hs.
  rewrite decide_True in Hs by done.
  destruct Hs as (fin & st & pend & root & log & b & HS & _ & _ & _ & _ & Hstg & -> & HS').
  destruct (shape_pending HS pending Hin Hst) as [-> _].
  assert (stuck (view j' s)) as Hstuck.
  { split; [done|]. exists pending. split_and!; [|done|].
    - rewrite (sh_rows _ _ _ _ _ _ HS'), !elem_of_app. right; right. simpl. by left.
    - by rewrite (shape_head_root HS'). }
  split; [done|]. assert (session_ok (view j' s)) as Hok' by by do 5 eexists.
  clear -Hstuck Hok'. revert j' Hstuck Hok'. induction ops as [|op ops IH]; intros j Hstuck Hok; [done|].
  simpl. pose proof (stuck_changes _ _ s (apply_op_changes op j) Hok Hstuck) as Hv.
  rewrite IH; rewrite Hv; done.
Qed.

(** The native flush compares the roots after the transaction: when the
    staged batch does not start at the root of the invocation it raises,
    and yet the batch is committed. *)
Theorem native_flush_commits_before_check (cfg : SinkConfig) (inv : NativeEvidenceFlushInvocation)
    (j j' : Journal) bc :
  flush_batched_evidence sha256 (sk_session_id cfg) (nf_leaf_digests inv)
    (sk_kernel_signature cfg) (sink_flags cfg) j = (j', Ok bc) →
  bc_before_execution_root bc ≠ nf_before_execution_root inv →
  native_flush sha256 cfg inv j =
    (j', Raise (AuthorizedEffectEvidenceError "native flush forks durable execution root")).
Proof.
  intros Hf Hb. unfold native_flush. rewrite Hf. cbn [mbind result_bind].
  by rewrite bool_decide_eq_false_2.
Qed.

(** Recovery reads the journal back: of a reachable journal whose
    reservations of a session agree on the semantic root, [reconciliation]
    answers the current execution root, the sequence and the last runtime
    sequence of the last reservation, the distinct nonces of all of them in
    order and the sequences and digests that a flush would commit. *)
Theorem reconciliation_reads_back (j : Journal) (s semantic : string) last_row :
  reachable j → last (session_reservations j s) = Some last_row →
  Forall (λ r, rv_semantic_root r = semantic) (session_reservations j s) →
  ∃ nonces,
    reconciliation j s = Ok (Some (Reconciliation semantic (head_root j s) (rv_sequence last_row)
      (rv_last last_row) nonces (lf_sequence <$> staged_leaves j s) (lf_digest <$> staged_leaves j s))) ∧
    rv_sequence last_row = Z.of_nat (length (session_reservations j s)) ∧
    Forall2 (λ n r, evidence_nonce_text n = Ok (rv_nonce r)) nonces (session_reservations j s) ∧
    NoDup nonces.
Proof.
  intros Hr Hlast Hsem. destruct (reachable_ok j s Hr) as (fin & st & pend & root & log & HS).
  unfold reconciliation, staged_reconciliation. rewrite (shape_staged_rows HS), staged_leaves_view.
  change (session_reservations j s) with (v_reservations (view j s)) in *.
  rewrite (order_by_seqZ _ _ _ _ (sh_seq _ _ _ _ _ _ HS)).
  pose proof (sh_nonce _ _ _ _ _ _ HS) as Hn. pose proof (sh_nodup _ _ _ _ _ _ HS) as Hd.
  pose proof (sh_seq _ _ _ _ _ _ HS) as Hseq.
  set (rows := v_reservations (view j s)) in *. clearbody rows.
  assert (∃ nonces, mapM (λ item, parse_evidence_nonce (rv_nonce item)) rows = Ok nonces ∧
            Forall2 (λ n r, evidence_nonce_text n = Ok (rv_nonce r)) nonces rows ∧
            NoDup nonces) as (nonces & Hm & Hf & Hnd).
  { clear -Hn Hd. induction rows as [|r rows IH]; [exists []; split_and!; constructor|].
    apply Forall_cons in Hn as [[n Hn] Hns]. csimpl in Hd. apply NoDup_cons in Hd as [Hni Hd].
    destruct (IH Hns Hd) as (nonces & Hm & Hf & Hnd). exists (n :: nonces). cbn [mapM].
    rewrite (nonce_parses _ _ Hn). cbn [mbind result_bind]. rewrite Hm.
    split_and!; [done|by constructor|]. constructor; [|done].
    intros Hin. apply Hni. apply list_elem_of_lookup_1 in Hin as [i Hi].
    destruct (Forall2_lookup_l _ _ _ _ _ Hf Hi) as (r' & Hr' & Hn').
    apply list_elem_of_fmap. exists r'. split; [congruence|]. by eapply list_elem_of_lookup_2. }
  exists nonces. split_and!; [|  |done|done].
  - destruct rows as [|first rows]; [done|]. rewrite Hlast.
    assert (rv_semantic_root first = semantic) as -> by by apply Forall_cons in Hsem as [? _].
    replace (forallb _ _) with true.
    2:{ symmetry. apply forallb_forall. intros x Hx%list_elem_of_In.
        rewrite Forall_forall in Hsem. by apply bool_decide_eq_true_2, Hsem. }
    cbn [mbind result_bind require]. by rewrite Hm.
  - destruct rows as [|x rows _] using rev_ind; [done|]. rewrite last_snoc in Hlast.
    injection Hlast as ->. rewrite fmap_app, length_app in Hseq. simpl in Hseq.
    rewrite Nat.add_1_r, seqZ_S in Hseq. apply app_inj_2 in Hseq as [_ [= ->]]; [|done].
    rewrite length_app. simpl. lia.
Qed.

(** ** Progress *)

Lemma existsb_unique {A} (sess : A → string) (s : string) (g : A → bool) (l : list A) :
  Forall (λ r, g r = false) (filter (λ r, sess r = s) l) →
  existsb (λ r, bool_decide (sess r = s) && g r) l = false.
Proof.
  intros H. apply not_true_iff_false. rewrite existsb_exists.
  intros (x & Hx & [Hs%bool_decide_eq_true Hg]%andb_true_iff).
  rewrite Forall_forall in H. rewrite H in Hg; [done|].
  apply list_elem_of_filter. split; [done|]. by apply list_elem_of_In.
Qed.

Lemma insert_reservation_Ok row j :
  Forall (λ r, rv_sequence r ≠ rv_sequence row ∧ rv_nonce r ≠ rv_nonce row)
    (session_reservations j (rv_session row)) →
  ∃ j', insert_reservation row j = Ok j'.
Proof.
  intros H. unfold insert_reservation. rewrite (existsb_unique rv_session).
  - by eexists.
  - eapply Forall_impl; [exact H|]. simpl. intros r [H1 H2].
    rewrite (proj2 (Z.eqb_neq _ _) H1). by apply bool_decide_eq_false.
Qed.

Lemma insert_evidence_Ok row j :
  Forall (λ r, ev_sequence r ≠ ev_sequence row ∧ ev_nonce r ≠ ev_nonce row)
    (session_evidence j (ev_session row)) →
  ∃ j', insert_evidence row j = Ok j'.
Proof.
  intros H. unfold insert_evidence. rewrite (existsb_unique ev_session).
  - by eexists.
  - eapply Forall_impl; [exact H|]. simpl. intros r [H1 H2].
    rewrite (proj2 (Z.eqb_neq _ _) H1). by apply bool_decide_eq_false.
Qed.

Lemma validate_reservation_of r nonce :
  validate_authorized_effect_evidence_receipt r = Ok () →
  evidence_nonce_text (er_nonce r) = Ok nonce → validate_reservation (reservation_of r) = Ok ().
Proof.
  unfold validate_authorized_effect_evidence_receipt, validate_reservation.
  repeat (case_match; [done|]). intros _ Hn. cbn [existsb] in *.
  repeat match goal with H : _ || _ = false |- _ => apply orb_false_iff in H as [? ?] end.
  cbn [rs_session_id rs_mediation_sequence rs_first_sequence rs_last_sequence
       rs_semantic_root rs_before_execution_root rs_nonce reservation_of].
  repeat match goal with H : ?b = false |- _ => rewrite H; clear H end.
  cbn [orb]. unfold DIGEST_BYTES in *.
  repeat match goal with H : ?b = false |- context [?b] => rewrite H end. by rewrite Hn.
Qed.

Lemma reservation_last j s rows row : session_reservations j s = rows ++ [row] →
  Forall (λ r, rv_sequence r ≠ rv_sequence row) rows → reservation j s (rv_sequence row) = Some row.
Proof.
  intros Hs Hf. unfold reservation. rewrite Hs, filter_app, (filter_none _ rows) by done.
  by rewrite filter_cons_True.
Qed.

(** The sequence that a session expects next is above those it has. *)
Lemma shape_fresh {j s fin st pend root log} (HS : Shape (view j s) fin st pend root log) :
  Forall (λ r, rv_sequence r ≠ next_reservation_sequence j s) (session_reservations j s) ∧
  Forall (λ e, ev_sequence e ≠ next_reservation_sequence j s ∧
               ev_nonce e ∈ rv_nonce <$> session_reservations j s) (session_evidence j s).
Proof.
  pose proof (next_reservation_eq _ _ _ _ _ _ _ HS) as Hn.
  pose proof (shape_length HS) as Hl. pose proof (sh_seq _ _ _ _ _ _ HS) as Hs.
  assert (Forall (λ r, rv_sequence r ≠ next_reservation_sequence j s) (session_reservations j s)) as Hr.
  { apply Forall_forall. intros r Hr. change (session_reservations j s) with (v_reservations (view j s)) in Hr.
    assert (rv_sequence r ∈ rv_sequence <$> v_reservations (view j s)) as Hin by (apply list_elem_of_fmap; eauto).
    rewrite Hs, elem_of_seqZ, Hl in Hin. lia. }
  split; [done|]. apply Forall_forall. intros e He.
  apply list_elem_of_lookup_1 in He as [i Hi].
  destruct (Forall2_lookup_l _ _ _ _ _ (sh_ev _ _ _ _ _ _ HS) Hi) as (r & Hri & Hrec).
  assert (r ∈ session_reservations j s) as Hin.
  { change (r ∈ v_reservations (view j s)). rewrite (sh_rows _ _ _ _ _ _ HS), app_assoc, elem_of_app.
    left. by eapply list_elem_of_lookup_2. }
  destruct Hrec as (-> & _ & _ & -> & _). split.
  - rewrite Forall_forall in Hr. by apply Hr.
  - apply list_elem_of_fmap. eauto.
Qed.

(** Progress: when nothing of a session is pending or staged, a valid
    receipt with the expected sequence, the current root and a fresh nonce is
    accepted: its reservation returns, and then the append returns. *)
Theorem effect_can_be_finalized (j : Journal) (r : AuthorizedEffectEvidenceReceipt) (nonce : string) :
  let s := er_session_id r in
  reachable j → validate_authorized_effect_evidence_receipt r = Ok () →
  evidence_nonce_text (er_nonce r) = Ok nonce → nonce ∉ rv_nonce <$> session_reservations j s →
  staged_leaves j s = [] → Forall (λ row, rv_state row ≠ "reserved") (session_reservations j s) →
  er_mediation_sequence r = next_reservation_sequence j s →
  er_before_execution_root r = head_root j s →
  ∃ j1 j2, reserve (reservation_of r) j = (j1, Ok ()) ∧ append r j1 = (j2, Ok ()).
Proof.
  intros s Hreach Hv Hn Hfresh Hstg Hnop Hseq Hroot.
  destruct (reachable_ok j s Hreach) as (fin & st & pend & root & log & HS).
  destruct (shape_fresh HS) as [Hf1 Hf2]. rewrite <-Hseq in Hf1, Hf2.
  set (row := MkReservationRow s (er_mediation_sequence r) (er_first_sequence r) (er_last_sequence r)
                nonce (er_semantic_root r) (er_before_execution_root r) "reserved").
  destruct (insert_reservation_Ok row j) as [j1 Hi].
  { apply Forall_and. split; [exact Hf1|]. apply Forall_forall. intros x Hx E.
    apply Hfresh, list_elem_of_fmap. exists x. done. }
  pose proof (view_insert_reservation _ _ _ Hi) as [_ Hview]. specialize (Hview s).
  rewrite decide_True in Hview by done.
  assert (reserve (reservation_of r) j = (j1, Ok ())) as Hres.
  { unfold reserve. rewrite (validate_reservation_of _ _ Hv Hn). unfold transaction, reserve_body.
    cbn [reservation_of rs_session_id rs_mediation_sequence rs_nonce rs_first_sequence
         rs_last_sequence rs_semantic_root rs_before_execution_root]. fold s.
    unfold reservation. rewrite (filter_none _ _ Hf1). cbn [head].
    replace (existsb _ _) with false.
    2:{ symmetry. apply not_true_iff_false. rewrite existsb_exists. intros (x & Hx%list_elem_of_In & Hs).
        rewrite Forall_forall in Hnop. apply (Hnop x Hx). by apply bool_decide_eq_true in Hs. }
    rewrite <-Hseq, Z.eqb_refl, <-Hroot, bool_decide_eq_true_2, Hn by done.
    cbn [mbind result_bind require negb].
    change (insert_reservation _ j) with (insert_reservation row j). by rewrite Hi. }
  assert (st = []) as -> by (rewrite staged_leaves_view in Hstg; pose proof (sh_staged _ _ _ _ _ _ HS) as E;
    rewrite Hstg in E; symmetry in E; by apply fmap_nil_inv in E).
  assert (pend = None) as -> by by apply (shape_no_pending HS).
  pose proof (next_reservation_eq _ _ _ _ _ _ _ HS) as Hnext. simpl in Hnext.
  destruct (insert_evidence_Ok (row_of_receipt r nonce) j1) as [j2 He].
  { change (session_evidence j1 (ev_session (row_of_receipt r nonce))) with (v_evidence (view j1 s)).
    rewrite Hview. cbn [v_evidence]. eapply Forall_impl; [exact Hf2|]. simpl. intros e [? Hin].
    split; [done|]. intros E. apply Hfresh. by rewrite <-E. }
  exists j1. eexists. split; [done|]. unfold append. rewrite Hv. unfold transaction, append_body.
  assert (reservation j1 s (er_mediation_sequence r) = Some row) as Hrow.
  { apply (reservation_last j1 s (session_reservations j s) row); [|done].
    change (v_reservations (view j1 s) = session_reservations j s ++ [row]). by rewrite Hview. }
  unfold assert_reserved. fold s. rewrite Hrow. unfold reservation_matches.
  cbn [rv_state row reservation_of rs_first_sequence rs_last_sequence rs_nonce rs_semantic_root
       rs_before_execution_root rv_first rv_last rv_nonce rv_semantic_root rv_before_root].
  rewrite !Z.eqb_refl, Hn. cbn [mbind result_bind andb]. rewrite !bool_decide_eq_true_2 by done.
  cbn [mbind result_bind andb require]. unfold assert_extends, insert_receipt.
  change (load_head j1 s) with (v_head (view j1 s)). rewrite Hview. cbn [v_head].
  rewrite (shape_head_seq HS), (shape_head_root HS), Hn.
  rewrite (proj2 (Z.eqb_eq _ _)) by (rewrite Hseq, Hnext; lia).
  rewrite bool_decide_eq_true_2 by (rewrite Hroot; exact (shape_head_root HS)).
  cbn [mbind result_bind require]. by rewrite He.
Qed.
End sha.

(** ** A concrete session *)

Definition bytes32 (c : Ascii.ascii) : string := Nat.iter 32 (String c) "".
Definition ex_sha (packet : string) : string := bytes32 "h"%char.

Definition ex_receipt (n : Z) (before after outcome : string) : AuthorizedEffectEvidenceReceipt :=
  EvidenceReceipt "s" n (2 * n) (2 * n + 1) (0, n) (bytes32 "m"%char) before after outcome
    (bytes32 "o"%char) "ref" "sig" true false 7.
Definition ex_buffered (n : Z) : AuthorizedEffectEvidenceReceipt :=
  ex_receipt n ZERO_ROOT ZERO_ROOT "buffered".
Definition ex_committed : AuthorizedEffectEvidenceReceipt :=
  ex_receipt 1 ZERO_ROOT (bytes32 "a"%char) "committed".

(** Two effects staged, and one staged with another pending. *)
Definition ex_two_staged : list JournalOp :=
  [OpReserve (reservation_of (ex_buffered 1)); OpStage (ex_buffered 1) (bytes32 "i"%char);
   OpReserve (reservation_of (ex_buffered 2)); OpStage (ex_buffered 2) (bytes32 "i"%char)].
Definition ex_with_pending : list JournalOp := take 3 ex_two_staged.

Definition ex_reserved_journal : Journal :=
  Eval vm_compute in run_ops ex_sha [OpReserve (reservation_of ex_committed)] empty_journal.
Definition ex_appended_journal : Journal :=
  Eval vm_compute in (append ex_committed ex_reserved_journal).1.
Definition ex_staged_journal : Journal := Eval vm_compute in run_ops ex_sha ex_two_staged empty_journal.
Definition ex_pending_journal : Journal := Eval vm_compute in run_ops ex_sha ex_with_pending empty_journal.

Definition ex_flush (j : Journal) : Journal * result Exn BatchedEvidenceCommitReceipt :=
  flush_batched_evidence ex_sha "s" (lf_digest <$> staged_leaves j "s") "sig" 1 j.
Definition ex_commit (j : Journal) : BatchedEvidenceCommitReceipt :=
  match (ex_flush j).2 with Ok bc => bc | Raise _ => BatchCommit "" 0 0 0 "" "" "" "" "" 0 end.

Definition ex_staged_flushed : Journal := Eval vm_compute in (ex_flush ex_staged_journal).1.
Definition ex_staged_commit : BatchedEvidenceCommitReceipt := Eval vm_compute in ex_commit ex_staged_journal.
Definition ex_pending_flushed : Journal := Eval vm_compute in (ex_flush ex_pending_journal).1.
Definition ex_pending_commit : BatchedEvidenceCommitReceipt := Eval vm_compute in ex_commit ex_pending_journal.

Example ex_batch_range :
  (bc_first_mediation_sequence ex_staged_commit, bc_last_mediation_sequence ex_staged_commit) = (1, 2).
Proof. reflexivity. Qed.

Lemma append_extends_history_witness :
  journal_head ex_appended_journal "s" = Ok (Some ex_committed).
Proof.
  apply (append_extends_history ex_sha ex_reserved_journal ex_appended_journal ex_committed).
  - exists [OpReserve (reservation_of ex_committed)]. vm_compute. reflexivity.
  - vm_compute. reflexivity.
Defined.

Lemma flush_commits_staged_witness : staged_leaves ex_staged_flushed "s" = [].
Proof.
  refine (proj1 (proj2 (proj2 (proj2 (proj2 (proj2 (proj2 (proj2 (proj2
    (flush_commits_staged ex_sha ex_staged_journal ex_staged_flushed "s"
       (lf_digest <$> staged_leaves ex_staged_journal "s") "sig" 1 ex_staged_commit _ _)))))))))).
  - exists ex_two_staged. vm_compute. reflexivity.
  - vm_compute. reflexivity.
Defined.

(** The disk is full when the sixth statement of an append moves the head: the
    receipt is inserted and the reservation finalised, but not committed. *)
Definition ex_disk_full (n : nat) : Fault :=
  if (n =? 5)%nat then Fails (PyError "OperationalError" "disk is full") else Runs.

Lemma failed_operation_rolls_back_witness :
  (run_op_on ex_sha ex_disk_full (OpAppend ex_committed)
     (MkConnection ex_reserved_journal None 0)).2
    = Raised (AuthorizedEffectEvidenceError "durable evidence append failed") ∧
  cn_disk (run_op_on ex_sha ex_disk_full (OpAppend ex_committed)
     (MkConnection ex_reserved_journal None 0)).1 = ex_reserved_journal.
Proof.
  assert ((run_op_on ex_sha ex_disk_full (OpAppend ex_committed)
     (MkConnection ex_reserved_journal None 0)).2
    = Raised (AuthorizedEffectEvidenceError "durable evidence append failed")) as Hr
    by (vm_compute; reflexivity).
  split; [exact Hr|].
  destruct (failed_operation_rolls_back ex_sha ex_disk_full (OpAppend ex_committed)
    (MkConnection ex_reserved_journal None 0) eq_refl) as [H _].
  rewrite Hr in H. exact (proj1 (proj2 H)).
Defined.

Definition ex_pending_row : ReservationRow :=
  Eval vm_compute in
  default (MkReservationRow "" 0 0 0 "" "" "" "") (last (session_reservations ex_pending_journal "s")).

Lemma flush_with_pending_sticks_witness :
  view (run_ops ex_sha [OpStage (ex_buffered 2) (bytes32 "i"%char); OpAppend (ex_buffered 2)]
          ex_pending_flushed) "s" = view ex_pending_flushed "s".
Proof.
  refine (proj2 (flush_with_pending_sticks ex_sha ex_pending_journal ex_pending_flushed "s"
    (lf_digest <$> staged_leaves ex_pending_journal "s") "sig" 1 ex_pending_commit ex_pending_row
    [OpStage (ex_buffered 2) (bytes32 "i"%char); OpAppend (ex_buffered 2)] _ _ _ _ _)).
  - exists ex_with_pending. vm_compute. reflexivity.
  - vm_compute. reflexivity.
  - change (session_reservations ex_pending_journal "s") with
      [hd ex_pending_row (session_reservations ex_pending_journal "s"); ex_pending_row].
    right. left.
  - reflexivity.
  - vm_compute. discriminate.
Defined.

Lemma native_flush_commits_before_check_witness :
  native_flush ex_sha (Sink "s" "" "ref" "sig" true false)
    (NativeFlushInvocation 1 2 (lf_digest <$> staged_leaves ex_staged_journal "s") "other") ex_staged_journal
  = (ex_staged_flushed,
     Raise (AuthorizedEffectEvidenceError "native flush forks durable execution root")).
Proof.
  apply (native_flush_commits_before_check ex_sha _ _ _ _ ex_staged_commit).
  - vm_compute. reflexivity.
  - vm_compute. discriminate.
Defined.

Definition ex_last_row : ReservationRow :=
  Eval vm_compute in
  default (MkReservationRow "" 0 0 0 "" "" "" "") (last (session_reservations ex_staged_journal "s")).

Lemma reconciliation_reads_back_witness :
  ∃ nonces, reconciliation ex_staged_journal "s" =
    Ok (Some (Reconciliation (bytes32 "m"%char) (head_root ex_staged_journal "s") 2 5 nonces
      (lf_sequence <$> staged_leaves ex_staged_journal "s")
      (lf_digest <$> staged_leaves ex_staged_journal "s"))).
Proof.
  destruct (reconciliation_reads_back ex_sha ex_staged_journal "s" (bytes32 "m"%char) ex_last_row)
    as (nonces & H & _).
  - exists ex_two_staged. vm_compute. reflexivity.
  - vm_compute. reflexivity.
  - apply (bool_decide_unpack _). vm_compute. exact I.
  - exists nonces. exact H.
Defined.

Lemma effect_can_be_finalized_witness :
  ∃ j1 j2, reserve (reservation_of ex_committed) empty_journal = (j1, Ok ()) ∧
    append ex_committed j1 = (j2, Ok ()).
Proof.
  apply (effect_can_be_finalized ex_sha empty_journal ex_committed
           "00000000000000000000000000000001").
  - exists []. reflexivity.
  - vm_compute. reflexivity.
  - vm_compute. reflexivity.
  - vm_compute. intros H. inversion H.
  - reflexivity.
  - constructor.
  - reflexivity.
  - reflexivity.
Defined.
