(* ===== verification/DurablePolicy.v ===== *)
(** * Durable policies ([durable_policy.py], [durable_envelope.py], [durable_turso_backend.py],
    [durable_adapter.py])

    The manifests projected from the Scheme control plane: their coercion from
    mappings and from lines of text, their validation, and the receipt an
    adapter writes, which the coercion reads back.  Bytes hold UTF-8; [repr] is
    Python's [repr] of values that are not text, numbers, [None] or booleans. *)

From Stdlib Require Import Ascii.
From S2P Require Import Prelude PyDict GraphTypes Receipts Text Merkle EvidenceModel.

Definition RuntimeDurablePolicyError (msg : string) : Exn :=
  PyError "RuntimeDurablePolicyError" msg.

Section values.
Variable repr : Value → string.

#[local] Notation py_str := (py_str repr).
#[local] Notation py_repr := (py_repr repr).

(** [int(v)]. *)
Definition py_int (v : Value) : result Exn Z :=
  match v with
  | VInt z => Ok z
  | VBool b => Ok (Z.b2z b)
  | VStr s | VBytes s =>
      of_option (ValueError ("invalid literal for int() with base 10: " +:+ py_repr v)) (int10 s)
  | _ => Raise (TypeError "int() argument must be a string, a bytes-like object or a real number")
  end.

Definition truth_words : list string := ["1"; "true"; "yes"; "on"].

(** [_as_bool], the same in both modules, and [_require_true] of the backend. *)
Definition as_bool (v : Value) : bool :=
  match v with VBool b => b | _ => bool_decide (lower (py_str v) ∈ truth_words) end.
Definition require_true (v : Value) : bool :=
  match v with
  | VBool b => b
  | VStr s => bool_decide (lower (ustrip s) ∈ truth_words)
  | _ => truthy v
  end.

(** [_optional_int], [_as_bytes], [_as_str_tuple]. *)
Definition optional_int (v : Value) : result Exn (option Z) :=
  match v with
  | VNone | VStr "" => Ok None
  | _ => Some <$> py_int v
  end.
Definition as_bytes (v : Value) : string := match v with VBytes b => b | _ => py_str v end.
Definition as_str_tuple (v : Value) : result Exn (list string) :=
  match v with
  | VNone => Ok []
  | VStr s => Ok (ustrip <$> filter (λ part, ustrip part ≠ "") (split_on ","%char s))
  | VList l | VTuple l => Ok (py_str <$> l)
  | VDict d => Ok (dkeys d)
  | VBytes b => Ok ((λ c, str_of_nat (nat_of_ascii c)) <$> String.list_ascii_of_string b)
  | _ => Raise (TypeError "object is not iterable")
  end.

(** One line of [_parse_manifest_lines]: [None] when it is skipped. *)
Definition manifest_line (raw_line : string) : option (string * string) :=
  let line := ustrip raw_line in
  if bool_decide (line = "") || starts_with_char "#"%char line || negb (contains "="%char line)
  then None
  else let '(key, _, value) := partition_eq line in Some (ustrip key, ustrip value).

Definition parse_manifest_lines (value : string) : dict string string :=
  dict_of (omap manifest_line (splitlines value)).

(** [{**_parse_manifest_lines(value), "receipt": value}]. *)
Definition manifest_mapping (value : string) : dict string Value :=
  dset "receipt" (VBytes value) ((λ '(k, v), (k, VStr v)) <$> parse_manifest_lines value).

(** [value.get(k1, value.get(k2, default))]. *)
Definition getd (d : dict string Value) (keys : list string) (default_ : Value) : Value :=
  foldr (λ k rest, default rest (dget k d)) default_ keys.

(** ** Policies *)

Definition DEFAULT_ACTION_CLASSES : list string :=
  ["replayable"; "idempotent"; "compensatable"; "terminal"; "manual"].
Definition ALLOWED_ACTION_CLASSES : list string := DEFAULT_ACTION_CLASSES.
Definition ALLOWED_REPAIR_MODES : list string :=
  ["fail-closed"; "retry"; "rebuild"; "compensate"; "quarantine"; "manual"].
Definition BACKEND_FIELD_ALIASES : dict string string :=
  [("backend-driver", "driver"); ("backend-concurrent-writes", "concurrent-writes");
   ("backend-sync-model", "sync-model"); ("backend-ai-vector-search", "ai-vector-search");
   ("backend-vector-index", "vector-index"); ("backend-vector-query", "vector-query")].

Definition MANIFEST_SCHEMA : string := "poo-flow.durable.runtime-policy-manifest.v1".

Record RuntimeDurablePolicyManifest : Type := PolicyManifest {
  pm_manifest_schema : string;
  pm_policy_id : string;
  pm_owner : string;
  pm_checkpoint_id_strategy : string;
  pm_require_plan_digest_match : bool;
  pm_history_retention_limit : option Z;
  pm_checkpoint_store : string;
  pm_repair_mode : string;
  pm_action_classes : list string;
  pm_runtime_owner : string;
  pm_receipt_schema : string;
  pm_receipt_kind : string;
  pm_receipt_valid : bool;
  pm_receipt_diagnostic_count : Z;
  pm_receipt : string;
  pm_backend : dict string Value
}.

Definition default_policy : RuntimeDurablePolicyManifest :=
  PolicyManifest MANIFEST_SCHEMA "durable/default" "scheme" "runtime-generated" true None
    "runtime/checkpoint-store" "fail-closed" DEFAULT_ACTION_CLASSES "marlin-agent-core"
    "poo-flow.module-system.durable-policy.receipt.v1" "poo-flow.durable.policy" true 0 "" [].

(** [RuntimeDurablePolicyManifest.validate]. *)
Definition policy_validate (m : RuntimeDurablePolicyManifest) :
    result Exn RuntimeDurablePolicyManifest :=
  _ ← require (bool_decide (pm_owner m = "scheme"))
        (RuntimeDurablePolicyError "durable policy owner must be scheme");
  _ ← require (bool_decide (pm_manifest_schema m = MANIFEST_SCHEMA))
        (RuntimeDurablePolicyError ("durable policy manifest schema must be " +:+ MANIFEST_SCHEMA));
  _ ← require (bool_decide (pm_checkpoint_id_strategy m ∈ ["runtime-generated"; "provided"]))
        (RuntimeDurablePolicyError "checkpoint_id_strategy must be runtime-generated or provided");
  _ ← require (match pm_history_retention_limit m with Some l => 1 <=? l | None => true end)
        (RuntimeDurablePolicyError "history_retention_limit must be positive");
  _ ← require (nonempty (pm_checkpoint_store m))
        (RuntimeDurablePolicyError "checkpoint_store is required");
  _ ← require (bool_decide (pm_repair_mode m ∈ ALLOWED_REPAIR_MODES))
        (RuntimeDurablePolicyError "repair_mode is not supported by Scheme policy");
  let unsupported := filter (λ c, c ∉ ALLOWED_ACTION_CLASSES) (pm_action_classes m) in
  _ ← require (bool_decide (unsupported = []))
        (RuntimeDurablePolicyError ("action_classes include unsupported values: "
                                    +:+ repr_tuple (repr_str <$> unsupported)));
  _ ← require (pm_receipt_valid m)
        (RuntimeDurablePolicyError "Scheme durable policy receipt is invalid");
  _ ← require (0 <=? pm_receipt_diagnostic_count m)
        (RuntimeDurablePolicyError "receipt_diagnostic_count must be non-negative");
  Ok m.

(** [_coerce_backend]. *)
Definition coerce_backend (value : dict string Value) : dict string Value :=
  let backend := match getd value ["backend"] (VDict []) with VDict d => d | _ => [] end in
  fold_left (λ backend '(field, backend_field),
    match dget field value with
    | Some v => dset backend_field v backend
    | None => backend
    end) BACKEND_FIELD_ALIASES backend.

Definition coerce_policy_mapping (value : dict string Value) :
    result Exn RuntimeDurablePolicyManifest :=
  let text keys default_ := py_str (getd value keys (VStr default_)) in
  limit ← optional_int (getd value ["history_retention_limit"; "history-retention-limit"] VNone);
  classes ← as_str_tuple (getd value ["action_classes"; "action-classes"]
                            (VTuple (VStr <$> DEFAULT_ACTION_CLASSES)));
  count ← py_int (getd value ["receipt_diagnostic_count"; "receipt-diagnostic-count"] (VInt 0));
  policy_validate (PolicyManifest
    (text ["manifest_schema"; "manifest-schema"; "schema"] MANIFEST_SCHEMA)
    (text ["policy_id"; "policy-id"] "durable/default")
    (text ["owner"] "scheme")
    (text ["checkpoint_id_strategy"; "checkpoint-id-strategy"] "runtime-generated")
    (as_bool (getd value ["require_plan_digest_match"; "require-plan-digest-match"] (VBool true)))
    limit
    (text ["checkpoint_store"; "checkpoint-store"] "runtime/checkpoint-store")
    (text ["repair_mode"; "repair-mode"] "fail-closed")
    classes
    (text ["runtime_owner"; "runtime-owner"] "marlin-agent-core")
    (text ["receipt_schema"; "receipt-schema"] "poo-flow.module-system.durable-policy.receipt.v1")
    (text ["receipt_kind"; "receipt-kind"] "poo-flow.durable.policy")
    (as_bool (getd value ["receipt_valid"; "receipt-valid"] (VBool true)))
    count
    (as_bytes (getd value ["receipt"] (VBytes "")))
    (coerce_backend value)).

(** What the coercion accepts. *)
Inductive PolicyInput : Type :=
| PolicyNone
| PolicyValue (m : RuntimeDurablePolicyManifest)
| PolicyBytes (b : string)
| PolicyMapping (d : dict string Value).

Definition parse_policy_bytes (value : string) : result Exn RuntimeDurablePolicyManifest :=
  coerce_policy_mapping (manifest_mapping value).

Definition coerce_runtime_durable_policy_manifest (value : PolicyInput) :
    result Exn RuntimeDurablePolicyManifest :=
  match value with
  | PolicyNone => Ok default_policy
  | PolicyValue m => policy_validate m
  | PolicyBytes b => m ← parse_policy_bytes b; policy_validate m
  | PolicyMapping d => coerce_policy_mapping d
  end.

(** ** Envelopes *)

Definition DEFAULT_OPERATION_KINDS : list string :=
  ["append-fact"; "write-checkpoint"; "rebuild-index"; "claim-job-lease"; "append-repair-event";
   "retain-artifact"; "append-communication-event"; "attach-sandbox-handle"].
Definition ENVELOPE_SCHEMA : string := "poo-flow.durable.runtime-envelope.v1".
Definition NEGOTIATE_ARGV : list string := ["marlin-runtime-store"; "durable-runtime-store"; "negotiate"].
Definition OPERATIONS_ARGV : list string := ["marlin-runtime-store"; "durable-runtime-store"; "operations"].

Record RuntimeDurableEnvelopeManifest : Type := EnvelopeManifest {
  em_schema : string;
  em_owner : string;
  em_policy_id : string;
  em_store_id : string;
  em_backend_id : string;
  em_backend_executable : string;
  em_checkpoint_id_strategy : string;
  em_checkpoint_store : string;
  em_checkpoint_store_ref : string;
  em_repair_mode : string;
  em_action_classes : list string;
  em_operation_kinds : list string;
  em_operation_count : Z;
  em_negotiate_argv : list string;
  em_operations_argv : list string;
  em_runtime_owner : string;
  em_policy_valid : bool;
  em_store_valid : bool;
  em_backend_valid : bool;
  em_diagnostic_count : Z;
  em_receipt : string
}.

Definition default_envelope : RuntimeDurableEnvelopeManifest :=
  EnvelopeManifest ENVELOPE_SCHEMA "scheme" "durable/default" "runtime-store/default"
    "runtime-backend/marlin-store" "marlin-runtime-store" "runtime-generated"
    "runtime/checkpoint-store" "runtime/checkpoint-store" "fail-closed" DEFAULT_ACTION_CLASSES
    DEFAULT_OPERATION_KINDS 8 NEGOTIATE_ARGV OPERATIONS_ARGV "marlin-agent-core"
    true true true 0 "".

(** [RuntimeDurableEnvelopeManifest.validate]. *)
Definition envelope_validate (m : RuntimeDurableEnvelopeManifest) :
    result Exn RuntimeDurableEnvelopeManifest :=
  let error what := RuntimeDurablePolicyError ("durable runtime envelope " +:+ what) in
  _ ← require (bool_decide (em_schema m = ENVELOPE_SCHEMA))
        (error ("schema must be " +:+ ENVELOPE_SCHEMA));
  _ ← require (bool_decide (em_owner m = "scheme")) (error "owner must be scheme");
  _ ← require (nonempty (em_policy_id m)) (error "policy_id is required");
  _ ← require (nonempty (em_store_id m)) (error "store_id is required");
  _ ← require (nonempty (em_backend_id m)) (error "backend_id is required");
  _ ← require (nonempty (em_backend_executable m)) (error "backend_executable is required");
  _ ← require (bool_decide (em_checkpoint_store m = em_checkpoint_store_ref m))
        (error "checkpoint store refs must agree");
  _ ← require (em_operation_count m =? Z.of_nat (length (em_operation_kinds m)))
        (error "operation_count must match operation_kinds");
  _ ← require (bool_decide (take 1 (em_negotiate_argv m) = [em_backend_executable m]))
        (error "negotiate_argv must start with backend_executable");
  _ ← require (bool_decide (take 1 (em_operations_argv m) = [em_backend_executable m]))
        (error "operations_argv must start with backend_executable");
  _ ← require (em_policy_valid m && em_store_valid m && em_backend_valid m)
        (error "contains invalid receipts");
  _ ← require (0 <=? em_diagnostic_count m)
        (RuntimeDurablePolicyError "diagnostic_count must be non-negative");
  Ok m.

Definition to_policy_manifest (m : RuntimeDurableEnvelopeManifest) :
    result Exn RuntimeDurablePolicyManifest :=
  policy_validate (PolicyManifest MANIFEST_SCHEMA (em_policy_id m) "scheme"
    (em_checkpoint_id_strategy m) true None (em_checkpoint_store m) (em_repair_mode m)
    (em_action_classes m) (em_runtime_owner m)
    "poo-flow.module-system.durable-policy.receipt.v1" "poo-flow.durable.policy"
    (em_policy_valid m) 0 (em_receipt m) []).

Definition coerce_envelope_mapping (value : dict string Value) :
    result Exn RuntimeDurableEnvelopeManifest :=
  let text keys default_ := py_str (getd value keys (VStr default_)) in
  let texts keys default_ := as_str_tuple (getd value keys (VTuple (VStr <$> default_))) in
  let flag keys := as_bool (getd value keys (VBool true)) in
  classes ← texts ["action_classes"; "action-classes"] DEFAULT_ACTION_CLASSES;
  kinds ← texts ["operation_kinds"; "operation-kinds"] DEFAULT_OPERATION_KINDS;
  count ← py_int (getd value ["operation_count"; "operation-count"] (VInt 8));
  negotiate ← texts ["negotiate_argv"; "negotiate-argv"] NEGOTIATE_ARGV;
  operations ← texts ["operations_argv"; "operations-argv"] OPERATIONS_ARGV;
  diagnostics ← py_int (getd value ["diagnostic_count"; "diagnostic-count"] (VInt 0));
  envelope_validate (EnvelopeManifest
    (text ["schema"] ENVELOPE_SCHEMA)
    (text ["owner"] "scheme")
    (text ["policy_id"; "policy-id"] "durable/default")
    (text ["store_id"; "store-id"] "runtime-store/default")
    (text ["backend_id"; "backend-id"] "runtime-backend/marlin-store")
    (text ["backend_executable"; "backend-executable"] "marlin-runtime-store")
    (text ["checkpoint_id_strategy"; "checkpoint-id-strategy"] "runtime-generated")
    (text ["checkpoint_store"; "checkpoint-store"] "runtime/checkpoint-store")
    (text ["checkpoint_store_ref"; "checkpoint-store-ref"] "runtime/checkpoint-store")
    (text ["repair_mode"; "repair-mode"] "fail-closed")
    classes kinds count negotiate operations
    (text ["runtime_owner"; "runtime-owner"] "marlin-agent-core")
    (flag ["policy_valid"; "policy-valid"])
    (flag ["store_valid"; "store-valid"])
    (flag ["backend_valid"; "backend-valid"])
    diagnostics
    (as_bytes (getd value ["receipt"] (VBytes "")))).

Inductive EnvelopeInput : Type :=
| EnvelopeNone
| EnvelopeValue (m : RuntimeDurableEnvelopeManifest)
| EnvelopeBytes (b : string)
| EnvelopeMapping (d : dict string Value).

Definition parse_envelope_bytes (value : string) : result Exn RuntimeDurableEnvelopeManifest :=
  coerce_envelope_mapping (manifest_mapping value).

Definition coerce_runtime_durable_envelope_manifest (value : EnvelopeInput) :
    result Exn RuntimeDurableEnvelopeManifest :=
  match value with
  | EnvelopeNone => Ok default_envelope
  | EnvelopeValue m => envelope_validate m
  | EnvelopeBytes b => m ← parse_envelope_bytes b; envelope_validate m
  | EnvelopeMapping d => coerce_envelope_mapping d
  end.

(** ** The Turso backend *)

Record TursoRuntimeGraphBackend : Type := TursoBackend {
  tb_driver : string;
  tb_driver_package : string;
  tb_driver_version : string;
  tb_connection_module : string;
  tb_database : string;
  tb_concurrent_writes : bool;
  tb_sync_model : string;
  tb_ai_vector_search : bool;
  tb_vector_index : string;
  tb_vector_query : string
}.

Definition lower_bool (b : bool) : string := if b then "true" else "false".

Definition backend_receipt_fields (b : TursoRuntimeGraphBackend) : dict string string :=
  [("driver", tb_driver b); ("driver-package", tb_driver_package b);
   ("driver-version", tb_driver_version b); ("connection-module", tb_connection_module b);
   ("concurrent-writes", lower_bool (tb_concurrent_writes b)); ("sync-model", tb_sync_model b);
   ("ai-vector-search", lower_bool (tb_ai_vector_search b));
   ("vector-index", tb_vector_index b); ("vector-query", tb_vector_query b)].

(** [turso_runtime_graph_backend], given the installed version of the driver
    package and the name of its module; [None]: not installed. *)
Definition turso_runtime_graph_backend (driver_module : option string)
    (driver_version : option string) (database : string) : result Exn TursoRuntimeGraphBackend :=
  name ← of_option (RuntimeDurablePolicyError
    "Turso durable backend requires the optional 'pyturso' package") driver_module;
  Ok (TursoBackend "turso" "pyturso" (default "unknown" driver_version) name database
        true "local-first-push-pull" true "libsql_vector_idx" "vector_top_k").

(** One comparison of [validate_turso_backend_requirements]: a falsy
    requirement asks for nothing. *)
Definition check_requirement (requirements : dict string Value) (field actual : string) :
    result Exn unit :=
  let expected := default VNone (dget field requirements) in
  require (negb (truthy expected && negb (bool_decide (py_str expected = actual))))
    (RuntimeDurablePolicyError ("durable backend requires " +:+ field +:+ " " +:+ py_repr expected
                                +:+ ", got " +:+ repr_str actual)).

Definition validate_turso_backend_requirements (requirements : dict string Value)
    (b : TursoRuntimeGraphBackend) : result Exn unit :=
  if bool_decide (requirements = []) then Ok ()
  else
    _ ← check_requirement requirements "driver" (tb_driver b);
    _ ← check_requirement requirements "sync-model" (tb_sync_model b);
    _ ← check_requirement requirements "vector-index" (tb_vector_index b);
    _ ← check_requirement requirements "vector-query" (tb_vector_query b);
    foldM (λ _ '(field, actual),
      require (negb (require_true (default VNone (dget field requirements)) && negb actual))
        (RuntimeDurablePolicyError ("durable backend requires " +:+ field
                                    +:+ ", but Turso capability is false")))
      () [("concurrent-writes", tb_concurrent_writes b); ("ai-vector-search", tb_ai_vector_search b)].

(** ** The adapter *)

(** The policy, the name of the backend and the backend of the store; the
    operations on threads are those of the checkpointer and of the program. *)
Record RuntimeDurableAdapter : Type := DurableAdapter {
  da_policy : RuntimeDurablePolicyManifest;
  da_backend : string;
  da_store_backend : option TursoRuntimeGraphBackend
}.

Definition adapter_fields (a : RuntimeDurableAdapter) : dict string string :=
  let p := da_policy a in
  let fields : dict string string :=
    [("manifest-schema", pm_manifest_schema p); ("policy-id", pm_policy_id p);
     ("owner", pm_owner p); ("backend", da_backend a);
     ("checkpoint-id-strategy", pm_checkpoint_id_strategy p);
     ("require-plan-digest-match", lower_bool (pm_require_plan_digest_match p));
     ("checkpoint-store", pm_checkpoint_store p); ("repair-mode", pm_repair_mode p);
     ("action-classes", str_join "," (pm_action_classes p));
     ("runtime-owner", pm_runtime_owner p); ("receipt-schema", pm_receipt_schema p);
     ("receipt-kind", pm_receipt_kind p); ("receipt-valid", lower_bool (pm_receipt_valid p));
     ("receipt-diagnostic-count", str_of_Z (pm_receipt_diagnostic_count p))] in
  let fields := match pm_history_retention_limit p with
                | Some l => dset "history-retention-limit" (str_of_Z l) fields
                | None => fields
                end in
  match da_store_backend a with
  | Some b => dupdate fields (backend_receipt_fields b)
  | None => fields
  end.

Definition ADAPTER_VERSION : string := "poo-flow-durable-adapter.v1".

(** [RuntimeDurableAdapter.receipt]. *)
Definition adapter_receipt (a : RuntimeDurableAdapter) : string :=
  render_lines (ADAPTER_VERSION :: (field_line <$> adapter_fields a)).

(** [RuntimeDurableAdapter.turso]: the policy is coerced, its requirements are
    checked against the backend. *)
Definition adapter_turso (driver_module driver_version : option string) (database : string)
    (policy : PolicyInput) : result Exn RuntimeDurableAdapter :=
  manifest ← coerce_runtime_durable_policy_manifest policy;
  manifest ← coerce_runtime_durable_policy_manifest (PolicyValue manifest);
  b ← turso_runtime_graph_backend driver_module driver_version database;
  _ ← validate_turso_backend_requirements (pm_backend manifest) b;
  Ok (DurableAdapter manifest "turso" (Some b)).

Definition adapter_turso_from_envelope (driver_module driver_version : option string)
    (database : string) (envelope : EnvelopeInput) : result Exn RuntimeDurableAdapter :=
  manifest ← coerce_runtime_durable_envelope_manifest envelope;
  policy ← to_policy_manifest manifest;
  adapter_turso driver_module driver_version database (PolicyValue policy).

(** ** Validity *)

Record valid_policy (m : RuntimeDurablePolicyManifest) : Prop := ValidPolicy {
  vp_owner : pm_owner m = "scheme";
  vp_schema : pm_manifest_schema m = MANIFEST_SCHEMA;
  vp_strategy : pm_checkpoint_id_strategy m ∈ ["runtime-generated"; "provided"];
  vp_limit : ∀ l, pm_history_retention_limit m = Some l → 1 ≤ l;
  vp_store : pm_checkpoint_store m ≠ "";
  vp_repair : pm_repair_mode m ∈ ALLOWED_REPAIR_MODES;
  vp_classes : Forall (λ c, c ∈ ALLOWED_ACTION_CLASSES) (pm_action_classes m);
  vp_receipt : pm_receipt_valid m = true;
  vp_diagnostics : 0 ≤ pm_receipt_diagnostic_count m
}.

Lemma nonempty_true s : nonempty s = true ↔ s ≠ "".
Proof. unfold nonempty. rewrite negb_true_iff. apply bool_decide_eq_false. Qed.

Lemma filter_nil_Forall {A} (P : A → Prop) `{∀ x, Decision (P x)} (l : list A) :
  filter (λ x, ¬ P x) l = [] ↔ Forall P l.
Proof.
  split; [|intros H'; apply filter_none; by eapply Forall_impl; [exact H'|]; intros x ? [] ].
  intros Hf. apply Forall_forall. intros x Hx. destruct (decide (P x)) as [|Hn]; [done|].
  assert (x ∈ filter (λ x, ¬ P x) l) as Hin by by apply list_elem_of_filter.
  rewrite Hf in Hin. by apply elem_of_nil in Hin.
Qed.

Lemma policy_validate_Ok m m' : policy_validate m = Ok m' ↔ m' = m ∧ valid_policy m.
Proof.
  unfold policy_validate. split.
  - intros H. repeat (apply bind_Ok in H as (? & ?%require_Ok & H)). injection H as <-.
    split; [done|]. split; try (by eapply bool_decide_eq_true; eauto); try done.
    + intros l Hl. rewrite Hl in *. lia.
    + by apply nonempty_true.
    + apply (filter_nil_Forall (λ c, c ∈ ALLOWED_ACTION_CLASSES)). by eapply bool_decide_eq_true; eauto.
    + lia.
  - intros [-> [Ho Hs Hst Hl Hcs Hr Hc Hv Hd]].
    rewrite !bool_decide_eq_true_2 by (done || by apply (filter_nil_Forall (λ c, c ∈ ALLOWED_ACTION_CLASSES))).
    rewrite (proj2 (nonempty_true _) Hcs), Hv. cbn [mbind result_bind require].
    replace (match pm_history_retention_limit m with Some l => 1 <=? l | None => true end) with true
      by (destruct (pm_history_retention_limit m); [specialize (Hl _ eq_refl); lia|done]).
    cbn [mbind result_bind require]. by rewrite (proj2 (Z.leb_le _ _) Hd).
Qed.

Lemma default_policy_valid : valid_policy default_policy.
Proof. apply (proj1 (policy_validate_Ok _ default_policy)). reflexivity. Qed.

(** Whatever the coercion of a policy accepts is valid, and coercing what
    it answered answers the same manifest; a manifest that is not valid is
    never accepted. *)
Theorem coerced_policy_is_valid (input : PolicyInput) (m : RuntimeDurablePolicyManifest) :
  coerce_runtime_durable_policy_manifest input = Ok m →
  valid_policy m ∧ coerce_runtime_durable_policy_manifest (PolicyValue m) = Ok m.
Proof.
  intros H. enough (valid_policy m) as Hv by (split; [done|]; by apply policy_validate_Ok).
  destruct input as [|m0|b|d]; simpl in H.
  - injection H as <-. apply default_policy_valid.
  - by apply policy_validate_Ok in H as [-> ?].
  - apply bind_Ok in H as (m' & _ & H). by apply policy_validate_Ok in H as [-> ?].
  - unfold coerce_policy_mapping in H. apply bind_Ok in H as (? & _ & H).
    apply bind_Ok in H as (? & _ & H). apply bind_Ok in H as (? & _ & H).
    by apply policy_validate_Ok in H as [-> ?].
Qed.

(** ** Reading an adapter receipt back *)

(** Characters that are neither white space nor part of one. *)
Definition solid (c : ascii) : bool :=
  let n := nat_of_ascii c in ((33 <=? n) && (n <=? 126))%nat.

(** A text on one line that stripping leaves as it is. *)
Definition clean (s : string) : bool :=
  bool_decide (ulstrip 0 s = s) && bool_decide (urstrip s = s) && plain_text s.

Lemma solid_white c s : solid c = true → white_prefix (String c s) = 0%nat.
Proof. destruct c as [[] [] [] [] [] [] [] []]; intros H; solve [reflexivity|discriminate H]. Qed.

Lemma solid_lstrip c s : solid c = true → ulstrip 0 (String c s) = String c s.
Proof. intros H. cbn [ulstrip]. by rewrite solid_white. Qed.

Lemma solid_rstrip s v : sforall solid s = true → urstrip (s +:+ v) = s +:+ urstrip v.
Proof.
  induction s as [|c s IH]; [done|]. intros [Hc Hs]%sforall_cons. rewrite !sapp_cons. cbn [urstrip].
  rewrite solid_lstrip by done. rewrite bool_decide_eq_false_2 by done. by rewrite IH.
Qed.

Lemma clean_strip s : clean s = true → ustrip s = s.
Proof.
  unfold clean, ustrip. intros H. apply andb_true_iff in H as [[H1 H2]%andb_true_iff _].
  apply bool_decide_eq_true in H1, H2. by rewrite H1.
Qed.

Lemma clean_plain s : clean s = true → plain_text s = true.
Proof. unfold clean. by intros [_ ?]%andb_true_iff. Qed.

Lemma solid_plain s : sforall solid s = true → plain_text s = true.
Proof.
  induction s as [|c s IH]; [done|]. intros [Hc Hs]%sforall_cons. apply plain_text_cons.
  split; [|auto]. revert Hc. destruct c as [[] [] [] [] [] [] [] []]; vm_compute; done.
Qed.

Lemma solid_clean s : sforall solid s = true → clean s = true.
Proof.
  intros H. unfold clean. rewrite (solid_plain s H), andb_true_r.
  apply andb_true_iff; split; apply bool_decide_eq_true.
  - destruct s as [|c s]; [done|]. apply sforall_cons in H as [Hc _]. by apply solid_lstrip.
  - pose proof (solid_rstrip s "" H) as E. by rewrite !sapp_nil_r in E.
Qed.

Lemma str_of_Z_clean z : 0 ≤ z → clean (str_of_Z z) = true.
Proof.
  intros Hz. apply solid_clean, str_of_Z_forall; [|done]. intros n. unfold pretty_N_char. by repeat case_match.
Qed.

Lemma lower_bool_clean b : clean (lower_bool b) = true.
Proof. by destruct b. Qed.

(** The key of a field of a receipt. *)
Definition field_key (k : string) : bool :=
  nonempty k && sforall solid k && negb (contains "="%char k) && negb (starts_with_char "#"%char k).

Lemma contains_app c s1 s2 : contains c (s1 +:+ s2) = contains c s1 || contains c s2.
Proof.
  unfold contains. induction s1 as [|d s1 IH]; [done|]. rewrite sapp_cons.
  cbn [String.list_ascii_of_string existsb]. by rewrite IH, orb_assoc.
Qed.

Lemma manifest_field_line k v : field_key k = true → clean v = true →
  manifest_line (field_line (k, v)) = Some (k, v).
Proof.
  unfold field_key. intros Hk Hv. apply andb_true_iff in Hk as [[[Hne Hs]%andb_true_iff Heq]%andb_true_iff Hh].
  apply nonempty_true in Hne. apply negb_true_iff in Heq, Hh.
  pose proof (clean_strip v Hv) as Hvs.
  assert (ustrip (field_line (k, v)) = field_line (k, v)) as Hline.
  { unfold field_line, ustrip. cbn [fst snd]. destruct k as [|c k]; [done|].
    apply sforall_cons in Hs as [Hc Hs]. rewrite sapp_cons, solid_lstrip by done.
    rewrite <-!sapp_cons, <-sapp_assoc, solid_rstrip.
    - unfold clean in Hv. apply andb_true_iff in Hv as [[_ Hr%bool_decide_eq_true]%andb_true_iff _].
      by rewrite Hr, sapp_assoc.
    - apply sforall_app. split; [by apply sforall_cons|done]. }
  unfold manifest_line. rewrite Hline.
  assert (contains "="%char (field_line (k, v)) = true) as ->.
  { unfold field_line. cbn [fst snd]. rewrite !contains_app.
    change (contains "="%char "=") with true. by rewrite orb_true_l, orb_true_r. }
  rewrite partition_field by done. rewrite Hvs, (clean_strip k) by by apply solid_clean.
  rewrite bool_decide_eq_false_2 by by destruct k.
  destruct k as [|c k]; [done|]. unfold field_line. cbn [fst snd]. rewrite sapp_cons.
  cbn [starts_with_char] in *. by rewrite Hh.
Qed.

Lemma parse_manifest_fields version (fields : dict string string) :
  dict_wf fields → plain_text version = true → manifest_line version = None →
  Forall (λ '(k, v), field_key k = true ∧ clean v = true) fields →
  parse_manifest_lines (render_lines (version :: (field_line <$> fields))) = fields.
Proof.
  intros Hwf Hv Hskip Hf. unfold parse_manifest_lines. rewrite splitlines_render.
  - cbn [omap list_omap]. rewrite Hskip.
    replace (omap manifest_line (field_line <$> fields)) with fields; [by apply dict_of_id|].
    clear Hwf Hv Hskip. induction Hf as [|[k v] fields [Hk Hcv] _ IH]; [done|]. csimpl.
    rewrite manifest_field_line by done. by rewrite <-IH.
  - constructor; [done|]. apply Forall_fmap. eapply Forall_impl; [exact Hf|].
    intros [k v] [Hk Hcv]. unfold compose, field_line. cbn [fst snd]. rewrite !plain_text_app.
    split_and!; [|done|by apply clean_plain]. apply solid_plain.
    unfold field_key in Hk. by apply andb_true_iff in Hk as [[[_ ?]%andb_true_iff _]%andb_true_iff _].
Qed.

(** *** Splitting a joined list *)

Lemma split_on_word c w r : contains c w = false →
  split_on c (w +:+ String c r) = w :: split_on c r ∧ split_on c w = [w].
Proof.
  unfold contains. induction w as [|d w IH].
  - intros _. rewrite sapp_nil_l. cbn [split_on]. by rewrite Ascii.eqb_refl.
  - cbn [String.list_ascii_of_string existsb]. intros [Hd Hw]%orb_false_iff.
    destruct (IH Hw) as [E1 E2]. rewrite sapp_cons. cbn [split_on]. rewrite Ascii.eqb_sym, Hd.
    rewrite E1, E2. done.
Qed.

Lemma split_join c l : l ≠ [] → Forall (λ w, contains c w = false) l →
  split_on c (str_join (String c "") l) = l.
Proof.
  intros Hne Hl. induction Hl as [|w l Hw Hl IH]; [done|]. destruct l as [|w' l].
  - by destruct (split_on_word c w "" Hw).
  - change (str_join (String c "") (w :: w' :: l))
      with (w +:+ (String c "" +:+ str_join (String c "") (w' :: l))).
    rewrite sapp_cons, sapp_nil_l.
    destruct (split_on_word c w (str_join (String c "") (w' :: l)) Hw) as [-> _].
    by rewrite IH.
Qed.

Lemma action_classes_read l : Forall (λ c, c ∈ ALLOWED_ACTION_CLASSES) l →
  as_str_tuple (VStr (str_join "," l)) = Ok l.
Proof.
  intros Hl. assert (Forall (λ w, contains ","%char w = false ∧ ustrip w = w ∧ w ≠ "") l) as Hw.
  { eapply Forall_impl; [exact Hl|]. intros w Hw. simpl in Hw.
    repeat (apply elem_of_cons in Hw as [->|Hw]; [done|]). by apply elem_of_nil in Hw. }
  destruct l as [|w l]; [done|]. unfold as_str_tuple.
  rewrite split_join; [|done|by eapply Forall_impl; [exact Hw|]; intros ? (?&?&?)].
  f_equal. rewrite filter_all.
  - etrans; [|apply list_fmap_id]. apply Forall_fmap_ext_1. eapply Forall_impl; [exact Hw|].
    by intros ? (?&?&?).
  - eapply Forall_impl; [exact Hw|]. intros x (?&Hx&?). by rewrite Hx.
Qed.

Lemma join_clean l : Forall (λ c, c ∈ ALLOWED_ACTION_CLASSES) l → clean (str_join "," l) = true.
Proof.
  intros Hl. apply solid_clean. induction Hl as [|w l Hw Hl IH]; [done|].
  assert (sforall solid w = true) as Hsw.
  { repeat (apply elem_of_cons in Hw as [->|Hw]; [done|]). by apply elem_of_nil in Hw. }
  destruct l as [|w' l]; [done|]. cbn [str_join] in *. rewrite !sforall_app. done.
Qed.

(** *** Reading decimal text *)

Lemma py_int_str_of_Z z : 0 ≤ z → py_int (VStr (str_of_Z z)) = Ok z.
Proof. intros Hz. unfold py_int. by rewrite int10_str_of_Z. Qed.

Lemma optional_int_str_of_Z z : 0 ≤ z → optional_int (VStr (str_of_Z z)) = Ok (Some z).
Proof.
  intros Hz. unfold optional_int. pose proof (py_int_str_of_Z z Hz) as Hp.
  destruct (str_of_Z z) as [|c s]; [done|]. by rewrite Hp.
Qed.

Lemma as_bool_lower_bool b : as_bool (VStr (lower_bool b)) = b.
Proof. by destruct b. Qed.

(** *** The round trip *)

Definition clean_backend (b : TursoRuntimeGraphBackend) : Prop :=
  Forall (λ s, clean s = true)
    [tb_driver b; tb_driver_package b; tb_driver_version b; tb_connection_module b;
     tb_sync_model b; tb_vector_index b; tb_vector_query b].

(** Every text of the adapter stands on one line of its own. *)
Definition clean_adapter (a : RuntimeDurableAdapter) : Prop :=
  Forall (λ s, clean s = true)
    [pm_policy_id (da_policy a); pm_checkpoint_store (da_policy a);
     pm_runtime_owner (da_policy a); pm_receipt_schema (da_policy a);
     pm_receipt_kind (da_policy a); da_backend a] ∧
  ∀ b, da_store_backend a = Some b → clean_backend b.

Lemma one_of_clean (l : list string) s : forallb clean l = true → s ∈ l → clean s = true.
Proof. rewrite forallb_forall. intros H Hs. apply H. by apply list_elem_of_In. Qed.

Lemma adapter_fields_wf a : dict_wf (adapter_fields a).
Proof.
  unfold adapter_fields. destruct (pm_history_retention_limit _), (da_store_backend a);
    by apply (bool_decide_unpack _).
Qed.

Lemma adapter_fields_good a : valid_policy (da_policy a) → clean_adapter a →
  Forall (λ '(k, v), field_key k = true ∧ clean v = true) (adapter_fields a).
Proof.
  intros Hv [Hc Hb]. destruct Hv. rewrite !Forall_cons in Hc.
  destruct Hc as (? & ? & ? & ? & ? & ? & _).
  assert (clean (pm_checkpoint_id_strategy (da_policy a)) = true) by by eapply one_of_clean; [|done].
  assert (clean (pm_repair_mode (da_policy a)) = true) by by eapply one_of_clean; [|done].
  assert (clean (pm_owner (da_policy a)) = true) by by rewrite vp_owner0.
  assert (clean (pm_manifest_schema (da_policy a)) = true) by by rewrite vp_schema0.
  pose proof (join_clean _ vp_classes0). pose proof (str_of_Z_clean _ vp_diagnostics0).
  pose proof (lower_bool_clean (pm_require_plan_digest_match (da_policy a))).
  pose proof (lower_bool_clean (pm_receipt_valid (da_policy a))).
  assert (∀ l, pm_history_retention_limit (da_policy a) = Some l → clean (str_of_Z l) = true)
    by (intros l Hl; apply str_of_Z_clean; specialize (vp_limit0 l Hl); lia).
  unfold adapter_fields. destruct (pm_history_retention_limit (da_policy a)) as [l|], (da_store_backend a) as [b|];
    try (specialize (Hb b eq_refl); unfold clean_backend in Hb; rewrite !Forall_cons in Hb;
         destruct Hb as (? & ? & ? & ? & ? & ? & ? & _));
    repeat (apply Forall_cons; split; [split; [reflexivity|]; first [done|by auto|apply lower_bool_clean]|]); done.
Qed.

Lemma coerce_backend_none (value : dict string Value) s : dget "backend" value = Some (VStr s) →
  Forall (λ k, dget k value = None) (dkeys BACKEND_FIELD_ALIASES) → coerce_backend value = [].
Proof.
  intros Hb Ha. unfold coerce_backend, getd. cbn [foldr]. rewrite Hb. cbn [default].
  unfold dkeys, BACKEND_FIELD_ALIASES in *. cbn [fmap list_fmap] in Ha. rewrite !Forall_cons in Ha.
  destruct Ha as (H1 & H2 & H3 & H4 & H5 & H6 & _). cbn [fold_left fst] in *.
  by rewrite H1, H2, H3, H4, H5, H6.
Qed.

(** What the coercion reads in the fields of a receipt. *)
Lemma coerce_adapter_mapping a text :
  (∀ l, pm_history_retention_limit (da_policy a) = Some l → 1 ≤ l) →
  Forall (λ c, c ∈ ALLOWED_ACTION_CLASSES) (pm_action_classes (da_policy a)) →
  0 ≤ pm_receipt_diagnostic_count (da_policy a) →
  let p := da_policy a in
  coerce_policy_mapping (dset "receipt" (VBytes text) ((λ '(k, v), (k, VStr v)) <$> adapter_fields a)) =
    policy_validate (PolicyManifest (pm_manifest_schema p) (pm_policy_id p) (pm_owner p)
      (pm_checkpoint_id_strategy p) (pm_require_plan_digest_match p)
      (pm_history_retention_limit p) (pm_checkpoint_store p) (pm_repair_mode p)
      (pm_action_classes p) (pm_runtime_owner p) (pm_receipt_schema p) (pm_receipt_kind p)
      (pm_receipt_valid p) (pm_receipt_diagnostic_count p) text []).
Proof.
  intros Hl Hc Hd p. subst p. set (V := dset "receipt" _ _).
  assert (optional_int (getd V ["history_retention_limit"; "history-retention-limit"] VNone)
            = Ok (pm_history_retention_limit (da_policy a))) as H1.
  { unfold V, adapter_fields. destruct (pm_history_retention_limit (da_policy a)) as [l|].
    - specialize (Hl l eq_refl). rewrite <-(optional_int_str_of_Z l) by lia. by destruct (da_store_backend a).
    - by destruct (da_store_backend a). }
  assert (as_str_tuple (getd V ["action_classes"; "action-classes"] (VTuple (VStr <$> DEFAULT_ACTION_CLASSES)))
            = Ok (pm_action_classes (da_policy a))) as H2.
  { rewrite <-(action_classes_read _ Hc). unfold V, adapter_fields.
    by destruct (pm_history_retention_limit (da_policy a)), (da_store_backend a). }
  assert (py_int (getd V ["receipt_diagnostic_count"; "receipt-diagnostic-count"] (VInt 0))
            = Ok (pm_receipt_diagnostic_count (da_policy a))) as H3.
  { rewrite <-(py_int_str_of_Z _ Hd). unfold V, adapter_fields.
    by destruct (pm_history_retention_limit (da_policy a)), (da_store_backend a). }
  assert (as_bool (getd V ["require_plan_digest_match"; "require-plan-digest-match"] (VBool true))
            = pm_require_plan_digest_match (da_policy a)) as H4.
  { rewrite <-as_bool_lower_bool. unfold V, adapter_fields.
    by destruct (pm_history_retention_limit (da_policy a)), (da_store_backend a). }
  assert (as_bool (getd V ["receipt_valid"; "receipt-valid"] (VBool true))
            = pm_receipt_valid (da_policy a)) as H5.
  { rewrite <-as_bool_lower_bool. unfold V, adapter_fields.
    by destruct (pm_history_retention_limit (da_policy a)), (da_store_backend a). }
  assert (coerce_backend V = []) as H6.
  { apply (coerce_backend_none V (da_backend a)); unfold V, adapter_fields;
      destruct (pm_history_retention_limit (da_policy a)), (da_store_backend a);
      first [reflexivity|repeat (constructor; [reflexivity|]); constructor]. }
  unfold coerce_policy_mapping. rewrite H1, H2, H3, H4, H5, H6. cbn [mbind result_bind].
  unfold V, adapter_fields. by destruct (pm_history_retention_limit (da_policy a)), (da_store_backend a).
Qed.

(** The receipt of an adapter is read back by the coercion of policies:
    for a valid policy whose texts stand on lines of their own, coercing the
    bytes of the receipt answers the policy itself, but for the receipt bytes
    and for the backend requirements, which the receipt does not carry under
    the names the coercion looks for. *)
Theorem adapter_receipt_round_trip (a : RuntimeDurableAdapter) :
  valid_policy (da_policy a) → clean_adapter a →
  let p := da_policy a in
  coerce_runtime_durable_policy_manifest (PolicyBytes (adapter_receipt a)) =
    Ok (PolicyManifest (pm_manifest_schema p) (pm_policy_id p) (pm_owner p)
          (pm_checkpoint_id_strategy p) (pm_require_plan_digest_match p)
          (pm_history_retention_limit p) (pm_checkpoint_store p) (pm_repair_mode p)
          (pm_action_classes p) (pm_runtime_owner p) (pm_receipt_schema p) (pm_receipt_kind p)
          (pm_receipt_valid p) (pm_receipt_diagnostic_count p) (adapter_receipt a) []).
Proof.
  intros Hv Hc p. cbn [coerce_runtime_durable_policy_manifest]. unfold parse_policy_bytes, manifest_mapping.
  assert (parse_manifest_lines (adapter_receipt a) = adapter_fields a) as ->.
  { apply parse_manifest_fields; [apply adapter_fields_wf|done|done|by apply adapter_fields_good]. }
  set (m := PolicyManifest _ _ _ _ _ _ _ _ _ _ _ _ _ _ _ _).
  assert (valid_policy m) as Hm by by destruct Hv.
  enough (coerce_policy_mapping (dset "receipt" (VBytes (adapter_receipt a))
            ((λ '(k, v), (k, VStr v)) <$> adapter_fields a)) = policy_validate m) as ->.
  { rewrite (proj2 (policy_validate_Ok m m)) by done. by apply policy_validate_Ok. }
  apply coerce_adapter_mapping; [by destruct Hv|by destruct Hv|by destruct Hv].
Qed.

(** ** From envelopes to policies *)

Record valid_envelope (m : RuntimeDurableEnvelopeManifest) : Prop := ValidEnvelope {
  ve_schema : em_schema m = ENVELOPE_SCHEMA;
  ve_owner : em_owner m = "scheme";
  ve_ids : em_policy_id m ≠ "" ∧ em_store_id m ≠ "" ∧ em_backend_id m ≠ "" ∧ em_backend_executable m ≠ "";
  ve_store : em_checkpoint_store m = em_checkpoint_store_ref m;
  ve_count : em_operation_count m = Z.of_nat (length (em_operation_kinds m));
  ve_negotiate : head (em_negotiate_argv m) = Some (em_backend_executable m);
  ve_operations : head (em_operations_argv m) = Some (em_backend_executable m);
  ve_receipts : em_policy_valid m = true ∧ em_store_valid m = true ∧ em_backend_valid m = true;
  ve_diagnostics : 0 ≤ em_diagnostic_count m
}.

Lemma take1_head {A} (l : list A) x : take 1 l = [x] → head l = Some x.
Proof. destruct l; simpl; congruence. Qed.

Lemma envelope_validate_Ok m m' : envelope_validate m = Ok m' → m' = m ∧ valid_envelope m.
Proof.
  unfold envelope_validate. intros H. repeat (apply bind_Ok in H as (? & ?%require_Ok & H)).
  injection H as <-. repeat match goal with
  | H : bool_decide _ = true |- _ => apply bool_decide_eq_true in H
  | H : nonempty _ = true |- _ => apply nonempty_true in H
  | H : _ && _ = true |- _ => apply andb_true_iff in H as [? ?]
  end.
  split; [done|]. split; try done.
  - by apply Z.eqb_eq.
  - by apply take1_head.
  - by apply take1_head.
  - by apply Z.leb_le.
Qed.

(** An accepted envelope is well formed, and the policy it projects is
    valid and keeps its ids, store, repair mode and action classes; the
    policy never limits the history, whatever the envelope asked for. *)
Theorem envelope_projects_policy (input : EnvelopeInput) (m : RuntimeDurableEnvelopeManifest)
    (p : RuntimeDurablePolicyManifest) :
  coerce_runtime_durable_envelope_manifest input = Ok m → to_policy_manifest m = Ok p →
  valid_envelope m ∧ valid_policy p ∧
  pm_policy_id p = em_policy_id m ∧ pm_checkpoint_store p = em_checkpoint_store m ∧
  pm_repair_mode p = em_repair_mode m ∧ pm_action_classes p = em_action_classes m ∧
  pm_receipt p = em_receipt m ∧ pm_history_retention_limit p = None ∧ pm_backend p = [].
Proof.
  intros Hm Hp. apply policy_validate_Ok in Hp as [-> Hv].
  split_and!; try done. destruct input as [|m0|b|d]; simpl in Hm.
  - injection Hm as <-. apply (envelope_validate_Ok default_envelope default_envelope). reflexivity.
  - by apply envelope_validate_Ok in Hm as [-> ?].
  - apply bind_Ok in Hm as (m' & _ & Hm). by apply envelope_validate_Ok in Hm as [-> ?].
  - unfold coerce_envelope_mapping in Hm. do 6 (apply bind_Ok in Hm as (? & _ & Hm)).
    by apply envelope_validate_Ok in Hm as [-> ?].
Qed.
End values.

(** ** Concrete manifests *)

Definition ex_repr (v : Value) : string := "...".
Definition ex_policy_bytes : string :=
  render_lines ["# policy"; "policy-id = durable/ci "; "owner=scheme"; "history-retention-limit=5";
                "action-classes=terminal, manual"; "backend-driver=turso"].
Definition ex_policy : RuntimeDurablePolicyManifest :=
  Eval vm_compute in
  match coerce_runtime_durable_policy_manifest ex_repr (PolicyBytes ex_policy_bytes) with
  | Ok m => m
  | Raise _ => default_policy
  end.
Definition ex_backend : TursoRuntimeGraphBackend :=
  TursoBackend "turso" "pyturso" "0.1" "turso" ":memory:" true "local-first-push-pull" true
    "libsql_vector_idx" "vector_top_k".
Definition ex_adapter : RuntimeDurableAdapter := DurableAdapter ex_policy "turso" (Some ex_backend).

Example ex_policy_read :
  (pm_policy_id ex_policy, pm_history_retention_limit ex_policy, pm_action_classes ex_policy,
   pm_backend ex_policy) = ("durable/ci", Some 5, ["terminal"; "manual"], [("driver", VStr "turso")]).
Proof. reflexivity. Qed.

Lemma coerced_policy_is_valid_witness : valid_policy ex_policy.
Proof.
  refine (proj1 (coerced_policy_is_valid ex_repr (PolicyBytes ex_policy_bytes) ex_policy _)).
  vm_compute. reflexivity.
Defined.

Lemma adapter_receipt_round_trip_witness :
  (pm_history_retention_limit <$>
     coerce_runtime_durable_policy_manifest ex_repr (PolicyBytes (adapter_receipt ex_adapter)))
  = Ok (Some 5).
Proof.
  rewrite (adapter_receipt_round_trip ex_repr ex_adapter).
  - reflexivity.
  - refine (proj2 (proj1 (policy_validate_Ok ex_policy ex_policy) _)). vm_compute. reflexivity.
  - split; [apply (bool_decide_unpack _); vm_compute; exact I|].
    intros b H. injection H as <-. apply (bool_decide_unpack _). vm_compute. exact I.
Defined.

Definition ex_envelope_policy : RuntimeDurablePolicyManifest :=
  match to_policy_manifest default_envelope with Ok p => p | Raise _ => default_policy end.

Lemma envelope_projects_policy_witness :
  pm_history_retention_limit ex_envelope_policy = None ∧ valid_envelope default_envelope.
Proof.
  destruct (envelope_projects_policy ex_repr
              (EnvelopeMapping [("history_retention_limit", VInt 5); ("receipt", VBytes "")])
              default_envelope ex_envelope_policy) as (Hv & _ & _ & _ & _ & _ & _ & Hl & _).
  - vm_compute. reflexivity.
  - vm_compute. reflexivity.
  - exact (conj Hl Hv).
Defined.
