(* ===== verification/DurableStore.v ===== *)
(** * The Turso store and checkpointer ([durable.py])

    The tables as dictionaries from their primary keys to rows, the SQL
    statements as operations on them.  [fresh n] and [now n] are the n-th
    generated checkpoint id and the n-th reading of the clock, [pickle_dumps]
    and [pickle_loads] the serialisation, [json_dumps] the text of a namespace;
    an asynchronous method is the synchronous one on another thread.  Nothing
    is assumed of the clock and of the ids: a theorem says what retention keeps
    when they come in any order. *)

From Stdlib Require Import Ascii.
From S2P Require Import Prelude PyDict GraphTypes Checkpoint MemoryCheckpointer Stores Receipts Text Merkle EvidenceModel DurablePolicy.

(** ** The checkpointer *)

Record TursoCheckpoints (Bytes : Type) : Type := MkTurso {
  tc_rows : list ((string * string) * (Bytes * Z));
  tc_heads : dict string string;
  tc_clock : nat
}.
Arguments MkTurso {Bytes}.
Arguments tc_rows {Bytes}.
Arguments tc_heads {Bytes}.
Arguments tc_clock {Bytes}.

(** [order by created_at desc, checkpoint_id desc]. *)
Definition newest_first (a b : Z * string) : Prop :=
  b.1 < a.1 ∨ (a.1 = b.1 ∧ String.le b.2 a.2).
#[export] Instance newest_first_dec : RelDecision newest_first.
Proof. intros a b. unfold newest_first. apply _. Defined.

Section checkpointer.
Context {Bytes : Type} (pickle_dumps : RuntimeGraphCheckpoint → Bytes)
  (pickle_loads : Bytes → result Exn RuntimeGraphCheckpoint).
Variable fresh : nat → string.
Variable now : nat → Z.
Variable policy : RuntimeDurablePolicyManifest.

(** The rows of a thread: [where thread_id = ?]. *)
Definition thread_rows (t : string) (m : TursoCheckpoints Bytes) :
    list ((string * string) * (Bytes * Z)) :=
  filter (λ r, r.1.1 = t) (tc_rows m).

(** [_enforce_retention]. *)
Definition enforce_retention (t : string) (m : TursoCheckpoints Bytes) : TursoCheckpoints Bytes :=
  match pm_history_retention_limit policy with
  | None => m
  | Some limit =>
      let rows := merge_sort newest_first ((λ r, (r.2.2, r.1.2)) <$> thread_rows t m) in
      let expired := drop (Z.to_nat limit) rows in
      MkTurso (fold_left (λ rows row, dpop (t, row.2) rows) expired (tc_rows m))
        (tc_heads m) (tc_clock m)
  end.

Definition turso_save (checkpoint : RuntimeGraphCheckpoint) (m : TursoCheckpoints Bytes) :
    TursoCheckpoints Bytes * result Exn RuntimeGraphCheckpoint :=
  if bool_decide (cp_checkpoint_id checkpoint = "")
     && bool_decide (pm_checkpoint_id_strategy policy = "provided")
  then (m, Raise (RuntimeDurablePolicyError "checkpoint_id is required by durable policy"))
  else
    let current := if bool_decide (cp_checkpoint_id checkpoint = "")
                   then cp_with_id (fresh (tc_clock m)) checkpoint else checkpoint in
    let t := cp_thread_id current in
    let rows := dset (t, cp_checkpoint_id current) (pickle_dumps current, now (tc_clock m)) (tc_rows m) in
    let heads := dset t (cp_checkpoint_id current) (tc_heads m) in
    (enforce_retention t (MkTurso rows heads (S (tc_clock m))), Ok current).

Definition turso_has (t : string) (m : TursoCheckpoints Bytes) : bool := dmem t (tc_heads m).

Definition turso_load_at (t id : string) (m : TursoCheckpoints Bytes) :
    result Exn RuntimeGraphCheckpoint :=
  row ← of_option (RuntimeGraphCheckpointError ("missing checkpoint " +:+ id +:+ " for thread " +:+ t))
          (dget (t, id) (tc_rows m));
  pickle_loads row.1.

Definition turso_inspect (t : string) (m : TursoCheckpoints Bytes) :
    result Exn RuntimeGraphCheckpoint :=
  id ← of_option (RuntimeGraphCheckpointError ("missing checkpoint for thread " +:+ t))
         (dget t (tc_heads m));
  turso_load_at t id m.

(** [order by checkpoint_id]. *)
Definition turso_history (t : string) (m : TursoCheckpoints Bytes) :
    result Exn (list RuntimeGraphCheckpoint) :=
  mapM (λ id, turso_load_at t id m) (py_sorted ((λ r, r.1.2) <$> thread_rows t m)).

Definition turso_clear (t : string) (m : TursoCheckpoints Bytes) : TursoCheckpoints Bytes :=
  MkTurso (filter (λ r, r.1.1 ≠ t) (tc_rows m)) (dpop t (tc_heads m)) (tc_clock m).

(** The object as a checkpointer of programs, in a world that holds it. *)
Context {W : Type} (get : W → TursoCheckpoints Bytes) (put : TursoCheckpoints Bytes → W → W).

Definition turso_checkpointer : Checkpointer W :=
  MkCheckpointer
    (λ c w, let '(m, res) := turso_save c (get w) in (put m w, res))
    (λ t w, turso_inspect t (get w))
    (λ t id w, turso_load_at t id (get w))
    (λ t w, turso_history t (get w))
    (λ t w, turso_has t (get w))
    (λ t w, (put (turso_clear t (get w)) w, Ok ())).

(** ** The bounded history *)

(** The checkpoints of a thread by their ids, each with the time of its save. *)
#[local] Notation log := (dict string (Z * RuntimeGraphCheckpoint)).

Definition row_of (t : string) (e : string * (Z * RuntimeGraphCheckpoint)) :
    (string * string) * (Bytes * Z) := ((t, e.1), (pickle_dumps e.2.2, e.2.1)).

(** The rows of a thread are those of its log, and the head of the thread. *)
Record thread_is (m : TursoCheckpoints Bytes) (t : string) (l : log) (h : option string) : Prop := ThreadIs {
  ti_rows : thread_rows t m = row_of t <$> l;
  ti_head : dget t (tc_heads m) = h
}.

Definition turso_inv (m : TursoCheckpoints Bytes) : Prop :=
  dict_wf (tc_rows m) ∧ dict_wf (tc_heads m) ∧ ∀ t, ∃ l h, thread_is m t l h.
End checkpointer.
#[local] Notation log := (dict string (Z * RuntimeGraphCheckpoint)).

(** [created_at] and the id of an entry, by which retention orders them. *)
Definition stamp (e : string * (Z * RuntimeGraphCheckpoint)) : Z * string := (e.2.1, e.1).

(** The entries that are newer than [e], and whether [e] is among the newest
    that the policy retains. *)
Definition newer (l : log) (e : string * (Z * RuntimeGraphCheckpoint)) : nat :=
  length (filter (λ d, newest_first (stamp d) (stamp e) ∧ stamp d ≠ stamp e) l).

Definition survives (policy : RuntimeDurablePolicyManifest) (l : log)
    (e : string * (Z * RuntimeGraphCheckpoint)) : Prop :=
  match pm_history_retention_limit policy with
  | Some limit => Z.of_nat (newer l e) < limit
  | None => True
  end.
#[export] Instance survives_dec policy l e : Decision (survives policy l e).
Proof. unfold survives. destruct (pm_history_retention_limit policy); apply _. Defined.

Definition retained (policy : RuntimeDurablePolicyManifest) (l : log) : log :=
  filter (survives policy l) l.

(** The checkpoints of a log in the order of their ids. *)
Definition by_id (l : log) : list RuntimeGraphCheckpoint :=
  omap (λ id, snd <$> dget id l) (py_sorted (dkeys l)).

(** *** The order of the entries *)

#[local] Instance newest_first_antisym : AntiSymm (=) newest_first.
Proof.
  intros [c1 i1] [c2 i2] [?|[? H1]] [?|[? H2]]; simpl in *; try lia. f_equal; [done|]. by apply (anti_symm String.le).
Qed.
#[local] Instance newest_first_total : Total newest_first.
Proof.
  intros [c1 i1] [c2 i2]. unfold newest_first. simpl.
  destruct (Z.lt_trichotomy c1 c2) as [?|[->|?]]; [right; lia| |left; lia].
  destruct (total String.le i1 i2); [right|left]; right; done.
Qed.
#[local] Instance newest_first_trans : Transitive newest_first.
Proof.
  intros [c1 i1] [c2 i2] [c3 i3] [?|[? H1]] [?|[? H2]]; unfold newest_first; simpl in *; [left; lia..|].
  right. split; [lia|]. by trans i2.
Qed.

Lemma filter_of_fmap {A B} (f : A → B) (P : B → Prop) `{∀ x, Decision (P x)} (l : list A) :
  filter P (f <$> l) = f <$> filter (λ x, P (f x)) l.
Proof.
  induction l as [|x l IH]; csimpl; [done|]. rewrite !filter_cons, IH. by case_decide.
Qed.

(** In a sorted list without repetitions the first [k] are those with fewer
    than [k] in front of them. *)
Lemma sorted_take {A} (R : A → A → Prop) `{!AntiSymm (=) R} (before : A → A → Prop)
    `{∀ x y, Decision (before x y)} (l : list A) k :
  (∀ x y, before x y ↔ R x y ∧ x ≠ y) → StronglySorted R l → NoDup l → 
  ∀ x, x ∈ l → (x ∈ take k l ↔ (length (filter (λ y, before y x) l) < k)%nat).
Proof.
  intros Hb Hs Hn x Hx. rewrite <-(take_drop k l) in Hs, Hn, Hx.
  assert (∀ y z, y ∈ take k l → z ∈ drop k l → before y z) as Hlt.
  { intros y z Hy Hz. apply Hb. split; [by eapply StronglySorted_app_1_elem_of|].
    intros ->. apply NoDup_app in Hn as (_ & Hn & _). by apply (Hn z). }
  rewrite <-(take_drop k l) at 2. rewrite filter_app, length_app.
  apply elem_of_app in Hx as [Hx|Hx].
  - split; [intros _|done].
    rewrite (filter_none _ (drop k l)).
    + assert (length (filter (λ y, before y x) (take k l)) < length (take k l))%nat as Hlen.
      { apply (length_filter_lt _ _ x); [done|]. intros []%Hb; done. }
      pose proof (length_take_le l k). rewrite length_take in *. simpl. lia.
    + apply Forall_forall. intros z Hz [Hzx Hne]%Hb. apply Hne.
      apply (anti_symm R); [done|]. by apply Hb, Hlt.
  - rewrite (filter_all _ (take k l)) by (apply Forall_forall; intros y Hy; by apply Hlt).
    assert (length (take k l) = k) as Hk.
    { rewrite length_take. assert (length (drop k l) ≠ 0)%nat as Hd.
      { intros E%nil_length_inv. rewrite E in Hx. by apply elem_of_nil in Hx. }
      rewrite length_drop in Hd. lia. }
    rewrite Hk. split; [|lia]. intros Hx'. apply NoDup_app in Hn as (_ & Hn & _).
    by destruct (Hn x Hx').
Qed.

Section retention.
Context (policy : RuntimeDurablePolicyManifest) (policy_valid : valid_policy policy).
Implicit Types (l : log).

Lemma stamps_NoDup l : dict_wf l → NoDup (stamp <$> l).
Proof.
  intros Hl. apply (NoDup_fmap_1 snd). rewrite <-list_fmap_compose. exact Hl.
Qed.

(** The newest stamps are those of the entries that survive. *)
Lemma survives_take l e limit : dict_wf l → e ∈ l → pm_history_retention_limit policy = Some limit →
  survives policy l e ↔ stamp e ∈ take (Z.to_nat limit) (merge_sort newest_first (stamp <$> l)).
Proof.
  intros Hl He Hlim. unfold survives. rewrite Hlim.
  rewrite (sorted_take newest_first (λ a b, newest_first a b ∧ a ≠ b)); [|done|apply (StronglySorted_merge_sort _)|..].
  - assert (length (filter (λ a, newest_first a (stamp e) ∧ a ≠ stamp e)
              (merge_sort newest_first (stamp <$> l))) = newer l e) as ->.
    { unfold newer. by rewrite (merge_sort_Permutation newest_first), filter_of_fmap, length_fmap. }
    pose proof (vp_limit _ policy_valid _ Hlim). lia.
  - rewrite merge_sort_Permutation. by apply stamps_NoDup.
  - rewrite merge_sort_Permutation. by apply list_elem_of_fmap_2.
Qed.

(** As many survive as the policy retains, if there are as many. *)
Lemma retained_length l limit : dict_wf l → pm_history_retention_limit policy = Some limit →
  Z.of_nat (length (retained policy l)) = Z.min limit (Z.of_nat (length l)).
Proof.
  intros Hl Hlim. pose proof (vp_limit _ policy_valid _ Hlim) as Hpos.
  set (L := merge_sort newest_first (stamp <$> l)).
  assert (NoDup L) as HL by (unfold L; rewrite merge_sort_Permutation; by apply stamps_NoDup).
  assert (stamp <$> retained policy l ≡ₚ take (Z.to_nat limit) L) as Hp.
  { apply NoDup_Permutation.
    - unfold retained. eapply sublist_NoDup; [by apply stamps_NoDup|]. apply fmap_sublist, sublist_filter.
    - eapply sublist_NoDup; [exact HL|apply sublist_take].
    - intros x. rewrite list_elem_of_fmap. split.
      + intros (e & -> & [Hs He]%list_elem_of_filter). by apply survives_take.
      + intros Hx. assert (x ∈ stamp <$> l) as (e & -> & He)%list_elem_of_fmap.
        { rewrite <-(merge_sort_Permutation newest_first). by eapply elem_of_sublist, sublist_take. }
        exists e. split; [done|]. apply list_elem_of_filter. split; [by apply survives_take with limit|done]. }
  apply Permutation_length in Hp. rewrite length_fmap, length_take in Hp. unfold L in Hp.
  rewrite (Permutation_length (merge_sort_Permutation _ _)), length_fmap in Hp. lia.
Qed.

(** What survives is newer than what does not. *)
Lemma retained_newer l d e : dict_wf l → d ∈ l → e ∈ l →
  survives policy l d → ¬ survives policy l e → newest_first (stamp d) (stamp e).
Proof.
  intros Hl Hd He Hsd Hse. destruct (pm_history_retention_limit policy) as [limit|] eqn:Hlim;
    [|by unfold survives in Hse; rewrite Hlim in Hse].
  rewrite (survives_take l d limit) in Hsd by done. rewrite (survives_take l e limit) in Hse by done.
  set (L := merge_sort _ _) in *. pose proof (StronglySorted_merge_sort newest_first (stamp <$> l)) as Hs.
  fold L in Hs. rewrite <-(take_drop (Z.to_nat limit) L) in Hs.
  eapply StronglySorted_app_1_elem_of; [exact Hs|exact Hsd|].
  assert (stamp e ∈ L) as HeL by (unfold L; rewrite merge_sort_Permutation; by apply list_elem_of_fmap_2).
  rewrite <-(take_drop (Z.to_nat limit) L) in HeL. by apply elem_of_app in HeL as [].
Qed.

(** An entry that none is newer than survives. *)
Lemma newest_survives l e : newer l e = 0%nat → survives policy l e.
Proof.
  intros H. unfold survives. destruct (pm_history_retention_limit policy) eqn:Hl; [|done].
  rewrite H. pose proof (vp_limit _ policy_valid _ Hl). lia.
Qed.
End retention.

(** *** Deleting rows *)

Lemma dpop_filter {K V} `{EqDecision K} (d : list (K * V)) k : dict_wf d →
  dpop k d = filter (λ r, r.1 ≠ k) d.
Proof.
  unfold dict_wf, dkeys. induction d as [|[k1 v1] d IH]; csimpl; [done|].
  intros [Hk Hd]%NoDup_cons. case_decide as E.
  - subst k1. rewrite filter_cons_False by (simpl; tauto). symmetry. apply filter_all.
    apply Forall_forall. intros [k2 v2] Hin Heq. simpl in Heq. subst. apply Hk, list_elem_of_fmap. by exists (k, v2).
  - rewrite filter_cons_True by (simpl; congruence). by rewrite IH.
Qed.

Lemma filter_wf {K V} `{EqDecision K} (P : K * V → Prop) `{∀ x, Decision (P x)} (d : list (K * V)) :
  dict_wf d → dict_wf (filter P d).
Proof. unfold dict_wf, dkeys. intros H'. eapply sublist_NoDup; [exact H'|]. apply fmap_sublist, sublist_filter. Qed.

Lemma dpops_filter {K V A} `{EqDecision K} (key : A → K) (l : list A) (d : list (K * V)) : dict_wf d →
  fold_left (λ d x, dpop (key x) d) l d = filter (λ r, r.1 ∉ key <$> l) d.
Proof.
  revert d; induction l as [|x l IH]; intros d Hd; csimpl.
  - symmetry. apply filter_all. apply Forall_true. intros r. apply not_elem_of_nil.
  - rewrite IH by by apply dpop_wf. rewrite dpop_filter by done. rewrite list_filter_filter.
    apply list_filter_iff. intros r. rewrite not_elem_of_cons. tauto.
Qed.

Lemma filter_comm {A} (P Q : A → Prop) `{∀ x, Decision (P x), ∀ x, Decision (Q x)} (l : list A) :
  filter P (filter Q l) = filter Q (filter P l).
Proof. rewrite !list_filter_filter. apply list_filter_iff. tauto. Qed.

Section checkpoints.
Context {Bytes : Type} (pickle_dumps : RuntimeGraphCheckpoint → Bytes)
  (pickle_loads : Bytes → result Exn RuntimeGraphCheckpoint).
Context (fresh : nat → string) (now : nat → Z) (policy : RuntimeDurablePolicyManifest).
Context (pickle_round_trip : ∀ c, pickle_loads (pickle_dumps c) = Ok c).
Implicit Types (m : TursoCheckpoints Bytes) (l : log).

#[local] Notation thread_is := (thread_is pickle_dumps).
#[local] Notation turso_inv := (turso_inv pickle_dumps).
#[local] Notation row_of := (row_of pickle_dumps).

Lemma thread_row_key m t r : r ∈ thread_rows t m → r.1.1 = t.
Proof. unfold thread_rows. by intros [? _]%list_elem_of_filter. Qed.

Lemma log_wf m t l h : dict_wf (tc_rows m) → thread_is m t l h → dict_wf l.
Proof.
  intros Hw [Hr _]. assert (dict_wf (thread_rows t m)) as H by by apply filter_wf.
  rewrite Hr in H. unfold dict_wf, dkeys in *. rewrite <-list_fmap_compose in H.
  apply (NoDup_fmap_1 (λ id, (t, id))). by rewrite <-list_fmap_compose.
Qed.

(** *** Saving *)

(** A row inserted under the id of its checkpoint replaces the one with this id. *)
Lemma insert_rows t t' id c z (rows : list ((string * string) * (Bytes * Z))) l :
  filter (λ r, r.1.1 = t') rows = row_of t' <$> l →
  filter (λ r, r.1.1 = t') (dset (t, id) (pickle_dumps c, z) rows) =
    row_of t' <$> (if decide (t' = t) then dset id (z, c) l else l).
Proof.
  set (P := λ r : (string * string) * (Bytes * Z), r.1.1 = t').
  assert (∀ r rows, P r → filter P (r :: rows) = r :: filter P rows) as HT by apply filter_cons_True.
  assert (∀ r rows, ¬ P r → filter P (r :: rows) = filter P rows) as HF by apply filter_cons_False.
  subst P. simpl in HT, HF.
  revert l; induction rows as [|[[t1 id1] v] rows IH]; intros l; cbn [dset].
  - intros Hl. symmetry in Hl. apply fmap_nil_inv in Hl as ->. case_decide as Ht.
    + subst. etrans; [by apply (HT _ [])|done].
    + etrans; [apply (HF _ []); simpl; congruence|done].
  - destruct (decide (t1 = t')) as [->|Ht1].
    + rewrite HT by done. destruct l as [|[id2 [z2 c2]] l]; [done|].
      intros [= -> -> Hl]. cbn [dset]. destruct (decide ((t, id) = (t', id2))) as [Hk|Hk].
      * injection Hk as -> ->. rewrite !decide_True by done.
        etrans; [by apply HT|]. by rewrite Hl.
      * etrans; [by apply HT|]. specialize (IH l Hl). destruct (decide (t' = t)) as [->|].
        { rewrite decide_False by congruence. cbn [fmap list_fmap]. f_equal. exact IH. }
        cbn [fmap list_fmap]. f_equal. exact IH.
    + rewrite HF by done. intros Hl. cbn [dset]. destruct (decide ((t, id) = (t1, id1))) as [Hk|Hk].
      * injection Hk as -> ->. etrans; [apply HF; simpl; congruence|].
        by rewrite decide_False by congruence.
      * etrans; [by apply HF|]. by apply IH.
Qed.

Lemma retention_rows m t t' l h : valid_policy policy → dict_wf (tc_rows m) → thread_is m t l h →
  thread_rows t' (enforce_retention policy t m) =
    if decide (t' = t) then row_of t <$> retained policy l else thread_rows t' m.
Proof.
  intros Hv Hw HT. pose proof (log_wf _ _ _ _ Hw HT) as Hl. destruct HT as [Hr _].
  unfold enforce_retention.
  destruct (pm_history_retention_limit policy) as [limit|] eqn:Hlim.
  - unfold thread_rows at 1. cbn [tc_rows].
    rewrite (dpops_filter (λ row : Z * string, (t, row.2))) by done. rewrite filter_comm.
    fold (thread_rows t' m). rewrite Hr, <-list_fmap_compose.
    change ((λ r, _) ∘ row_of t <$> l) with (stamp <$> l).
    case_decide as Ht.
    + subst t'. rewrite Hr, filter_of_fmap. f_equal. unfold retained.
      apply filter_ext_elem. intros e He. rewrite (survives_take _ Hv l e limit Hl He Hlim).
      set (L := merge_sort _ _). assert (NoDup L) as HL
        by (unfold L; rewrite merge_sort_Permutation; by apply stamps_NoDup).
      assert (stamp e ∈ L) as HeL
        by (unfold L; rewrite merge_sort_Permutation; by apply list_elem_of_fmap_2).
      rewrite <-(take_drop (Z.to_nat limit) L) in HL, HeL.
      rewrite list_elem_of_fmap. split.
      * intros Hno. apply elem_of_app in HeL as [|Hd]; [done|]. destruct Hno. by exists (stamp e).
      * intros Htk ([z id] & [= Hid] & Hd). apply NoDup_app in HL as (_ & HL & _).
        apply (HL _ Htk). assert ((z, id) ∈ stamp <$> l) as (e' & [= -> ->] & He')%list_elem_of_fmap.
        { rewrite <-(merge_sort_Permutation newest_first). fold L.
          by eapply elem_of_sublist, sublist_drop. }
        replace e' with e in Hd; [done|]. destruct e as [i v], e' as [i' v']; simpl in *. subst i'.
        f_equal. pose proof (dget_elem_wf _ _ _ Hl He). pose proof (dget_elem_wf _ _ _ Hl He'). congruence.
    + apply filter_all, Forall_forall. intros r Hin (row & E & _)%list_elem_of_fmap.
      apply thread_row_key in Hin. rewrite E in Hin. by simpl in Hin.
  - case_decide as Ht; [subst|done]. rewrite Hr. f_equal. symmetry. apply (filter_all (survives policy l)).
    apply Forall_forall. intros e _. unfold survives. by rewrite Hlim.
Qed.

Lemma retention_heads t m : tc_heads (enforce_retention policy t m) = tc_heads m.
Proof. unfold enforce_retention. by case_match. Qed.

Lemma retention_wf t m : dict_wf (tc_rows m) → dict_wf (tc_rows (enforce_retention policy t m)).
Proof.
  intros Hw. unfold enforce_retention. case_match; [|done]. cbn [tc_rows].
  rewrite (dpops_filter (λ row : Z * string, (t, row.2))) by done. by apply filter_wf.
Qed.

(** The checkpoint that a save stores. *)
Definition current m (c : RuntimeGraphCheckpoint) : RuntimeGraphCheckpoint :=
  if bool_decide (cp_checkpoint_id c = "") then cp_with_id (fresh (tc_clock m)) c else c.

(** The log of the thread of [c] after a save and before retention. *)
Definition log_saved m (c : RuntimeGraphCheckpoint) l : log :=
  dset (cp_checkpoint_id (current m c)) (now (tc_clock m), current m c) l.

Lemma save_inv m c : valid_policy policy → turso_inv m →
  (cp_checkpoint_id c = "" → pm_checkpoint_id_strategy policy ≠ "provided") →
  ∃ m', turso_save pickle_dumps fresh now policy c m = (m', Ok (current m c)) ∧ turso_inv m' ∧
    ∀ t l h, thread_is m t l h →
      thread_is m' t
        (if decide (t = cp_thread_id (current m c)) then retained policy (log_saved m c l) else l)
        (if decide (t = cp_thread_id (current m c)) then Some (cp_checkpoint_id (current m c)) else h).
Proof.
  intros Hv (Hw1 & Hw2 & Hall) Hst. unfold turso_save.
  assert (bool_decide (cp_checkpoint_id c = "")
          && bool_decide (pm_checkpoint_id_strategy policy = "provided") = false) as ->.
  { apply not_true_is_false. intros [H1%bool_decide_eq_true H2%bool_decide_eq_true]%andb_prop.
    by apply Hst. }
  fold (current m c). set (c' := current m c). set (t0 := cp_thread_id c').
  set (m1 := MkTurso (dset (t0, cp_checkpoint_id c') (pickle_dumps c', now (tc_clock m)) (tc_rows m))
               (dset t0 (cp_checkpoint_id c') (tc_heads m)) (S (tc_clock m))).
  assert (∀ t l h, thread_is m t l h → thread_is m1 t
    (if decide (t = t0) then log_saved m c l else l)
    (if decide (t = t0) then Some (cp_checkpoint_id c') else h)) as H1.
  { intros t l h [Hr Hh]. split; [by apply insert_rows|].
    cbn [m1 tc_heads]. rewrite dget_dset. by case_decide. }
  assert (∀ t l h, thread_is m t l h → thread_is (enforce_retention policy t0 m1) t
    (if decide (t = t0) then retained policy (log_saved m c l) else l)
    (if decide (t = t0) then Some (cp_checkpoint_id c') else h)) as H2.
  { intros t l h HT. destruct (Hall t0) as (l0 & h0 & HT0). specialize (H1 _ _ _ HT0) as HT1.
    rewrite decide_True in HT1 by done. specialize (H1 _ _ _ HT) as [Hr Hh].
    split; [|by rewrite retention_heads].
    rewrite (retention_rows m1 t0 t _ _ Hv (dset_wf _ _ _ Hw1) HT1).
    destruct (decide (t = t0)) as [->|]; [|done]. f_equal. f_equal.
    pose proof (ti_rows _ _ _ _ _ HT0) as E. rewrite (ti_rows _ _ _ _ _ HT) in E.
    apply list_fmap_eq_inj in E as ->; [done|].
    intros [i [z d]] [i' [z' d']] [= -> Hd ->]. apply (f_equal pickle_loads) in Hd.
    rewrite !pickle_round_trip in Hd. by simplify_eq. }
  eexists. split; [done|]. split; [|exact H2]. split_and!.
  - by apply retention_wf, dset_wf.
  - rewrite retention_heads. by apply dset_wf.
  - intros t. destruct (Hall t) as (l & h & HT). do 2 eexists. by apply H2.
Qed.

(** *** Reading *)

Lemma load_at_log m t l h id : turso_inv m → thread_is m t l h →
  turso_load_at pickle_loads t id m =
    of_option (RuntimeGraphCheckpointError ("missing checkpoint " +:+ id +:+ " for thread " +:+ t))
      (snd <$> dget id l).
Proof.
  intros (Hw & _ & _) HT. pose proof (log_wf _ _ _ _ Hw HT) as Hl. destruct HT as [Hr _].
  unfold turso_load_at. destruct (dget (t, id) (tc_rows m)) as [row|] eqn:E.
  - apply dget_Some_elem in E. assert (((t, id), row) ∈ thread_rows t m) as Hin
      by by apply list_elem_of_filter.
    rewrite Hr in Hin. apply list_elem_of_fmap in Hin as ([i [z c]] & [= -> ->] & Hin).
    rewrite (dget_elem_wf _ _ _ Hl Hin). simpl. apply pickle_round_trip.
  - destruct (dget id l) as [[z c]|] eqn:El; [|done]. exfalso. apply dget_Some_elem in El.
    assert (row_of t (id, (z, c)) ∈ thread_rows t m) as Hin by (rewrite Hr; by apply list_elem_of_fmap_2).
    apply list_elem_of_filter in Hin as [_ Hin]. apply (dget_elem_wf _ _ _ Hw) in Hin. simpl in Hin. congruence.
Qed.

Lemma history_log m t l h : turso_inv m → thread_is m t l h →
  turso_history pickle_loads t m = Ok (by_id l).
Proof.
  intros Hi HT. unfold turso_history, by_id. rewrite (ti_rows _ _ _ _ _ HT), <-list_fmap_compose.
  change ((λ r, _) ∘ row_of t <$> l) with (dkeys l). 
  rewrite mapM_omap.
  - f_equal. apply omap_ext_elem. intros id _. rewrite (load_at_log _ _ _ _ _ Hi HT).
    by destruct (dget id l).
  - intros id Hid. rewrite elem_of_py_sorted in Hid. rewrite (load_at_log _ _ _ _ _ Hi HT).
    apply dget_is_Some in Hid as [v ->]. done.
Qed.

Lemma clear_log m t0 : turso_inv m → turso_inv (turso_clear t0 m) ∧
  ∀ t l h, thread_is m t l h →
    thread_is (turso_clear t0 m) t (if decide (t = t0) then [] else l) (if decide (t = t0) then None else h).
Proof.
  intros (Hw1 & Hw2 & Hall).
  assert (∀ t l h, thread_is m t l h →
    thread_is (turso_clear t0 m) t (if decide (t = t0) then [] else l)
      (if decide (t = t0) then None else h)) as H.
  { intros t l h [Hr Hh]. split.
    - unfold thread_rows, turso_clear. cbn [tc_rows]. rewrite list_filter_filter.
      destruct (decide (t = t0)) as [->|Ht].
      + apply filter_none, Forall_true. tauto.
      + rewrite <-Hr. apply list_filter_iff. intros r. naive_solver.
    - unfold turso_clear. cbn [tc_heads]. rewrite dget_dpop by done. by case_decide. }
  split; [|done]. split_and!; [by apply filter_wf|by apply dpop_wf|].
  intros t. destruct (Hall t) as (l & h & HT). do 2 eexists. by apply H.
Qed.

(** What the checkpointer of a thread answers. *)
Definition reads m (t : string) l (h : option string) : Prop :=
  turso_history pickle_loads t m = Ok (by_id l) ∧
  (∀ id, turso_load_at pickle_loads t id m =
     of_option (RuntimeGraphCheckpointError ("missing checkpoint " +:+ id +:+ " for thread " +:+ t))
       (snd <$> dget id l)) ∧
  turso_has t m = bool_decide (is_Some h) ∧
  turso_inspect pickle_loads t m =
    match h with
    | None => Raise (RuntimeGraphCheckpointError ("missing checkpoint for thread " +:+ t))
    | Some id => turso_load_at pickle_loads t id m
    end.

Lemma log_reads m t l h : turso_inv m → thread_is m t l h → reads m t l h.
Proof.
  intros Hi HT. split_and!; [by eapply history_log|intros id; by eapply load_at_log|..].
  - unfold turso_has, dmem. rewrite (ti_head _ _ _ _ _ HT). by destruct h.
  - unfold turso_inspect. rewrite (ti_head _ _ _ _ _ HT). by destruct h.
Qed.

(** What a save does to its thread: it loads when its checkpoint survives. *)
Lemma saved_loads m c l m' : dict_wf l → turso_inv m' →
  thread_is m' (cp_thread_id (current m c)) (retained policy (log_saved m c l))
    (Some (cp_checkpoint_id (current m c))) →
  turso_inspect pickle_loads (cp_thread_id (current m c)) m' =
    if decide (survives policy (log_saved m c l)
                 (cp_checkpoint_id (current m c), (now (tc_clock m), current m c)))
    then Ok (current m c)
    else Raise (RuntimeGraphCheckpointError
                  ("missing checkpoint " +:+ cp_checkpoint_id (current m c) +:+ " for thread "
                     +:+ cp_thread_id (current m c))).
Proof.
  intros Hl Hi HT. destruct (log_reads _ _ _ _ Hi HT) as (_ & Hat & _ & ->). rewrite Hat.
  assert (dict_wf (log_saved m c l)) as Hl' by by apply dset_wf.
  assert (dict_wf (retained policy (log_saved m c l))) as Hr by by apply filter_wf.
  set (e := (cp_checkpoint_id (current m c), (now (tc_clock m), current m c))).
  assert (e ∈ log_saved m c l) as He by (apply dget_Some_elem, dget_dset_eq).
  case_decide as Hs.
  - rewrite (dget_elem_wf (retained policy (log_saved m c l)) e.1 e.2); [done|done|].
    by apply list_elem_of_filter.
  - destruct (dget _ (retained policy (log_saved m c l))) as [v|] eqn:E; [|done]. exfalso.
    apply dget_Some_elem in E. apply list_elem_of_filter in E as [Hs' He'].
    pose proof (dget_elem_wf _ _ _ Hl' He'). pose proof (dget_elem_wf _ _ _ Hl' He).
    apply Hs. unfold e. by simplify_eq.
Qed.

(** Without a limit the checkpoint saved last loads, whatever the clock. *)
#[export] Instance turso_keeps_latest {W} (get : W → TursoCheckpoints Bytes)
    (put : TursoCheckpoints Bytes → W → W)
    (get_put : ∀ m w, get (put m w) = m) (fresh_nonempty : ∀ n, fresh n ≠ "")
    (valid : valid_policy policy) (generated : pm_checkpoint_id_strategy policy ≠ "provided")
    (unlimited : pm_history_retention_limit policy = None) :
  KeepsLatest (turso_checkpointer pickle_dumps pickle_loads fresh now policy get put)
    (λ w, turso_inv (get w)).
Proof.
  split. intros w c Hi Hc. destruct (save_inv (get w) c valid Hi (λ _, generated)) as (m' & Hs & Hi' & Hall).
  assert (current (get w) c = cp_with_id (fresh (tc_clock (get w))) c) as Hcur
    by (unfold current; by rewrite bool_decide_eq_true_2).
  exists (fresh (tc_clock (get w))), (put m' w). unfold turso_checkpointer. cbn [ckpt_save ckpt_load].
  rewrite Hs, get_put, <-Hcur. split_and!; [done|done|done| |].
  - pose proof Hi as (Hw & _ & Hl). destruct (Hl (cp_thread_id c)) as (l & h & HT).
    pose proof (log_wf _ _ _ _ Hw HT) as Hwl.
    replace (cp_thread_id c) with (cp_thread_id (current (get w) c)) in * by (rewrite Hcur; done).
    specialize (Hall _ _ _ HT). rewrite !decide_True in Hall by done.
    rewrite (saved_loads _ _ _ _ Hwl Hi' Hall), decide_True; [done|].
    unfold survives. by rewrite unlimited.
  - intros t Ht. pose proof Hi as (_ & _ & Hl). destruct (Hl t) as (l & h & HT).
    specialize (Hall _ _ _ HT). rewrite Hcur in Hall.
    rewrite !decide_False in Hall by done.
    destruct (log_reads _ _ _ _ Hi' Hall) as (_ & Hat' & _ & ->).
    destruct (log_reads _ _ _ _ Hi HT) as (_ & Hat & _ & ->).
    destruct h as [id|]; [|done]. by rewrite Hat, Hat'.
Qed.
End checkpoints.

Lemma empty_turso_inv {Bytes} (dumps : RuntimeGraphCheckpoint → Bytes) : turso_inv dumps (MkTurso [] [] 0).
Proof. split_and!; [constructor..|]. intros t. exists [], None. by split. Qed.

(** C19. What a save under a valid policy does, whatever the clock and the
    generated ids: with the checkpoints of each thread as a log by ids, the
    checkpoint is put into the log of its thread, in place of one with its id,
    becomes the head of the thread, and the log is cut to the entries that are
    among the newest by time of save and id: as many as the retention limit
    allows, each newer than every one that is dropped.  History, loads and
    [has] read the log back.  The saved checkpoint loads exactly when it is
    among the newest itself, as it is when no entry of its thread is newer;
    otherwise, with the clock set back, it is deleted at once, and the thread
    exists but raises a missing checkpoint.  Other threads are as before, and
    a clear empties its thread only. *)
Theorem turso_keeps_newest {Bytes} (dumps : RuntimeGraphCheckpoint → Bytes)
    (loads : Bytes → result Exn RuntimeGraphCheckpoint) (fresh : nat → string) (now : nat → Z)
    (policy : RuntimeDurablePolicyManifest) (m : TursoCheckpoints Bytes)
    (c : RuntimeGraphCheckpoint) :
  (∀ c, loads (dumps c) = Ok c) →
  valid_policy policy → turso_inv dumps m →
  (cp_checkpoint_id c = "" → pm_checkpoint_id_strategy policy ≠ "provided") →
  let c' := current fresh m c in
  let t0 := cp_thread_id c' in
  let entry := (cp_checkpoint_id c', (now (tc_clock m), c')) in
  ∃ m', turso_save dumps fresh now policy c m = (m', Ok c') ∧
    turso_inv dumps m' ∧ turso_inv dumps (turso_clear t0 m) ∧
    ∀ t l h, thread_is dumps m t l h → 
      let saved := dset entry.1 entry.2 l in
      let kept := retained policy saved in
      reads loads m t l h ∧
      (t ≠ t0 → reads loads m' t l h ∧ reads loads (turso_clear t0 m) t l h) ∧
      (t = t0 →
         reads loads m' t kept (Some entry.1) ∧ reads loads (turso_clear t0 m) t [] None ∧
         match pm_history_retention_limit policy with
         | Some limit => Z.of_nat (length kept) = Z.min limit (Z.of_nat (length saved))
         | None => kept = saved
         end ∧
         (∀ d e, d ∈ kept → e ∈ saved → e ∉ kept → newest_first (stamp d) (stamp e)) ∧
         (newer saved entry = 0%nat → survives policy saved entry) ∧
         turso_inspect loads t m' =
           if decide (survives policy saved entry) then Ok c'
           else Raise (RuntimeGraphCheckpointError
                         ("missing checkpoint " +:+ entry.1 +:+ " for thread " +:+ t))).
Proof.
  intros Hp Hv Hi Hst c' t0 entry.
  destruct (save_inv dumps loads fresh now policy Hp m c Hv Hi Hst) as (m' & Hs & Hi' & Hall).
  destruct (clear_log dumps m t0 Hi) as [Hci Hclear].
  exists m'. split_and!; [exact Hs|exact Hi'|exact Hci|]. intros t l h HT saved kept.
  specialize (Hall t l h HT). specialize (Hclear t l h HT). split_and!.
  - by apply (log_reads dumps).
  - intros Ht. rewrite !decide_False in Hall, Hclear by done. by split; apply (log_reads dumps).
  - intros ->. rewrite !decide_True in Hall by done. rewrite !decide_True in Hclear by done.
    assert (dict_wf l) as Hl by (destruct Hi as (Hw & _); by eapply log_wf).
    assert (dict_wf saved) as Hsw by by apply dset_wf.
    split_and!; [by apply (log_reads dumps)|by apply (log_reads dumps)|..].
    + destruct (pm_history_retention_limit policy) as [limit|] eqn:Hlim; [by apply retained_length|].
      apply (filter_all (survives policy saved)), Forall_forall. intros e _. unfold survives. by rewrite Hlim.
    + intros d e [Hd1 Hd2]%list_elem_of_filter He Hne. apply (retained_newer policy Hv saved); try done.
      intros Hse. apply Hne. by apply list_elem_of_filter.
    + by apply newest_survives.
    + exact (saved_loads dumps loads fresh now policy Hp m c l m' Hl Hi' Hall).
Qed.

Definition ex_limited_policy : RuntimeDurablePolicyManifest :=
  PolicyManifest MANIFEST_SCHEMA "p" "scheme" "runtime-generated" true (Some 1) "store" "retry" [] "" "" ""
    true 0 "" [].
Definition ex_checkpoint (step : Z) : RuntimeGraphCheckpoint :=
  Checkpoint "" "t" None "n" step [] [] [] [] "" None.
(** A clock that is set back after the first reading. *)
Definition ex_set_back (n : nat) : Z := match n with O => 5 | _ => 3 end.
Definition ex_turso : TursoCheckpoints RuntimeGraphCheckpoint :=
  Eval vm_compute in
  (turso_save (λ c, c) numbered ex_set_back ex_limited_policy (ex_checkpoint 1) (MkTurso [] [] 0)).1.
Definition ex_turso_log : log := [("a", (5, cp_with_id "a" (ex_checkpoint 1)))].

Lemma ex_turso_inv : turso_inv (λ c, c) ex_turso.
Proof.
  split_and!; [repeat constructor; set_solver..|]. intros t. destruct (decide (t = "t")) as [->|Ht].
  - exists ex_turso_log, (Some "a"). by split.
  - exists [], None. split; [|simpl; by rewrite decide_False].
    apply filter_none. repeat constructor. simpl. congruence.
Qed.

(** The second save of a thread of one checkpoint, with the clock set back:
    what is saved is gone, and the thread is there. *)
Lemma turso_keeps_newest_witness :
  ∃ m', turso_save (λ c, c) numbered ex_set_back ex_limited_policy (ex_checkpoint 2) ex_turso
          = (m', Ok (cp_with_id "ba" (ex_checkpoint 2))) ∧
    turso_history Ok "t" m' = Ok [cp_with_id "a" (ex_checkpoint 1)] ∧
    turso_has "t" m' = true ∧
    turso_inspect Ok "t" m' =
      Raise (RuntimeGraphCheckpointError "missing checkpoint ba for thread t").
Proof.
  destruct (turso_keeps_newest (λ c, c) Ok numbered ex_set_back ex_limited_policy ex_turso
              (ex_checkpoint 2)) as (m' & Hs & _ & _ & Hr).
  - reflexivity.
  - refine (proj2 (proj1 (policy_validate_Ok ex_limited_policy ex_limited_policy) _)). reflexivity.
  - exact ex_turso_inv.
  - discriminate.
  - exists m'. split; [exact Hs|].
    destruct (Hr "t" ex_turso_log (Some "a") ltac:(by split)) as (_ & _ & Ht).
    destruct (Ht eq_refl) as ((Hh & _ & Hhas & _) & _ & _ & _ & _ & Hl).
    split_and!; [rewrite Hh; vm_compute; reflexivity|rewrite Hhas; reflexivity|].
    rewrite Hl. vm_compute. reflexivity.
Defined.

(** ** The store *)

(** [namespace like pattern]: percent for any text, underscore for any
    character, letters of either case. *)
Definition same_letter (c d : ascii) : bool := Ascii.eqb (lower_char c) (lower_char d).
Fixpoint like (pattern : list ascii) : list ascii → bool :=
  match pattern with
  | [] => λ s, match s with [] => true | _ => false end
  | c :: pattern =>
      if Ascii.eqb c "%"%char
      then fix any (s : list ascii) : bool :=
             like pattern s || match s with [] => false | _ :: s => any s end
      else λ s, match s with
                | [] => false
                | d :: s => (Ascii.eqb c "_"%char || same_letter c d) && like pattern s
                end
  end.

Section store.
Context {Bytes : Type} (pickle_dumps : Value → Bytes) (pickle_loads : Bytes → result Exn Value).
Variable json_dumps : Namespace → string.
Variable json_loads : string → result Exn Namespace.

(** The rows: value, created_at, updated_at. *)
Definition TursoStore : Type := dict (string * string) (Bytes * Z * Z).

Definition turso_get (ns : Namespace) (key : string) (m : TursoStore) :
    result Exn (option RuntimeGraphStoreItem) :=
  match dget (json_dumps ns, key) m with
  | None => Ok None
  | Some (bytes, created_at, updated_at) =>
      value ← pickle_loads bytes;
      Ok (Some (StoreItem ns key value created_at updated_at))
  end.

Definition turso_put (ns : Namespace) (key : string) (value : Value) (now : Z) (m : TursoStore) :
    result Exn (TursoStore * RuntimeGraphStoreItem) :=
  existing ← turso_get ns key m;
  let created_at := match existing with Some item => item_created_at item | None => now end in
  Ok (dset (json_dumps ns, key) (pickle_dumps value, created_at, now) m,
      StoreItem ns key value created_at now).

Definition turso_delete (ns : Namespace) (key : string) (m : TursoStore) : TursoStore :=
  dpop (json_dumps ns, key) m.

Definition select_items (rows : list ((string * string) * (Bytes * Z * Z))) :
    result Exn (list RuntimeGraphStoreItem) :=
  mapM (λ '((text, key), (bytes, created_at, updated_at)),
    ns ← json_loads text; value ← pickle_loads bytes;
    Ok (StoreItem ns key value created_at updated_at)) rows.

(** [order by namespace, key]. *)
Definition row_le (a b : (string * string) * (Bytes * Z * Z)) : Prop :=
  (if decide (a.1.1 = b.1.1) then String.leb a.1.2 b.1.2 else String.leb a.1.1 b.1.1) = true.
#[export] Instance row_le_dec : RelDecision row_le.
Proof. intros a b. unfold row_le. apply _. Defined.

Definition turso_list (ns : Namespace) (m : TursoStore) : result Exn (list RuntimeGraphStoreItem) :=
  select_items (merge_sort row_le (filter (λ r, r.1.1 = json_dumps ns) m)).

(** [prefix[:-1] + ',%']. *)
Definition search_pattern (prefix : string) : string :=
  String.substring 0 (String.length prefix - 1) prefix +:+ ",%".

Definition turso_search (prefix_ns : Namespace) (m : TursoStore) :
    result Exn (list RuntimeGraphStoreItem) :=
  let prefix := json_dumps prefix_ns in
  select_items (merge_sort row_le
    (filter (λ r, r.1.1 = prefix ∨
               like (String.list_ascii_of_string (search_pattern prefix))
                 (String.list_ascii_of_string r.1.1) = true) m)).

(** The table that holds a memory store. *)
Definition holds (m : TursoStore) (s : MemoryStore) : Prop :=
  dict_wf m ∧ dict_wf s ∧
  ∀ ns key, dget (json_dumps ns, key) m =
    (λ item, (pickle_dumps (item_value item), item_created_at item, item_updated_at item))
      <$> dget (ns, key) s ∧
    ∀ item, dget (ns, key) s = Some item → item_namespace item = ns ∧ item_key item = key.
End store.

(** On namespaces and keys that the in-memory store accepts, the Turso
    store answers what the in-memory store answers: a put returns the same
    item, keeping the time of creation, a get reads the same item, and puts and deletes
    keep the table and the dictionary in step. *)
Theorem turso_store_simulates_memory {Bytes} (dumps : Value → Bytes) loads json
    (m : TursoStore) (s : MemoryStore) ns key value now :
  (∀ v, loads (dumps v) = Ok v) → (∀ ns ns', json ns = json ns' → ns = ns') →
  holds dumps json m s → normalize_namespace ns = Ok ns → key ≠ "" →
  Ok (turso_get (Bytes := Bytes) loads json ns key m) = Ok (E := Exn) (store_get ns key s) ∧
  (∃ m' s' item, turso_put dumps loads json ns key value now m = Ok (m', item) ∧
     store_put ns key value now s = Ok (s', item) ∧ holds dumps json m' s') ∧
  (∃ s', store_delete ns key s = Ok s' ∧ holds dumps json (turso_delete json ns key m) s').
Proof.
  intros Hp Hj (Hwm & Hws & Hh) Hns Hk.
  assert (turso_get loads json ns key m = Ok (dget (ns, key) s)) as Hget.
  { unfold turso_get. destruct (Hh ns key) as [-> Hi].
    destruct (dget (ns, key) s) as [[ns' key' v c u]|] eqn:E; [|done].
    destruct (Hi _ eq_refl) as [H1 H2]. simpl in *. subst. by rewrite Hp. }
  unfold store_get, store_put, store_delete, check_key, holds. rewrite Hns, Hget. split_and!; [done| |].
  - set (created := match dget (ns, key) s with Some item => item_created_at item | None => now end).
    exists (dset (json ns, key) (dumps value, created, now) m),
      (dset (ns, key) (next_item ns key value now (dget (ns, key) s)) s), (StoreItem ns key value created now).
    split_and!.
    + unfold turso_put. by rewrite Hget.
    + cbn [mbind result_bind]. rewrite bool_decide_eq_false_2 by done. done.
    + by apply dset_wf.
    + by apply dset_wf.
    + intros ns' key'. destruct (decide ((ns', key') = (ns, key))) as [[= -> ->]|Hne].
      * rewrite !dget_dset_eq. split; [done|]. by intros item [= <-].
      * rewrite !dget_dset_ne; [apply Hh|done|]. intros [= E1 E2]. apply Hne. apply Hj in E1. congruence.
  - exists (dpop (ns, key) s). split; [done|]. split_and!; [by apply dpop_wf..|].
    intros ns' key'. unfold turso_delete. rewrite !dget_dpop by done.
    destruct (decide ((ns', key') = (ns, key))) as [[= -> ->]|Hne].
    + by rewrite !decide_True.
    + rewrite decide_False; [apply Hh|]. intros [= E1 E2]. apply Hne. apply Hj in E1. congruence.
Qed.

(** The text [json.dumps] writes for parts of plain characters. *)
Definition quote : string := String (ascii_of_nat 34) "".
Definition plain_json (ns : Namespace) : string :=
  "[" +:+ str_join "," ((λ part, quote +:+ part +:+ quote) <$> ns) +:+ "]".
Definition unjson (text : string) : result Exn Namespace :=
  if decide (text = plain_json ["ab"; "c"]) then Ok ["ab"; "c"]
  else if decide (text = plain_json ["a_"; "c"]) then Ok ["a_"; "c"]
  else Raise (ValueError "json").

(** The prefix of a search is used as a pattern: a namespace part with an
    underscore (or a percent sign) also finds items of namespaces that do not
    start with the prefix, which the in-memory store does not answer. *)
Theorem turso_search_wildcards (value : Value) :
  let table : TursoStore := [((plain_json ["ab"; "c"], "k"), (value, 1, 1))] in
  turso_search Ok plain_json unjson ["a_"] table = Ok [StoreItem ["ab"; "c"] "k" value 1 1] ∧
  store_search ["a_"] [((["ab"; "c"], "k"), StoreItem ["ab"; "c"] "k" value 1 1)] = Ok [].
Proof. split; vm_compute; reflexivity. Qed.


(** An injective text for namespaces. *)
Definition framed (ns : Namespace) : string := foldr (λ part acc, frame_text part +:+ acc) "" ns.

Lemma framed_inj ns ns' : framed ns = framed ns' → ns = ns'.
Proof.
  revert ns'; induction ns as [|part ns IH]; intros [|part' ns'] H; cbn [framed foldr] in H; [done|..].
  - apply (f_equal String.length) in H. unfold frame_text in H. rewrite !slen_app in H. simpl in H. lia.
  - apply (f_equal String.length) in H. unfold frame_text in H. rewrite !slen_app in H. simpl in H. lia.
  - apply frame_text_inj in H as [-> H]. by rewrite (IH ns').
Qed.

Lemma turso_store_simulates_memory_witness :
  ∃ m' s' item, turso_put (λ v, v) Ok framed ["a"] "k" (VInt 1) 5 [] = Ok (m', item) ∧
    store_put ["a"] "k" (VInt 1) 5 [] = Ok (s', item) ∧ holds (λ v, v) framed m' s'.
Proof.
  refine (proj1 (proj2 (turso_store_simulates_memory (λ v, v) Ok framed [] [] ["a"] "k" (VInt 1) 5
    _ framed_inj _ _ _))).
  - reflexivity.
  - split; [constructor|split; [constructor|]]. intros ns key. split; [reflexivity|discriminate].
  - reflexivity.
  - discriminate.
Defined.
