(* ===== verification/DurableAdapter.v ===== *)
(** * The durable adapter ([durable_adapter.py])

    An adapter joins a durable policy with the Turso store and checkpointer
    built under it.  Its thread operations are those of the checkpointer and of
    a program; a program interrupted on an adapter resumes unless the retention
    of the policy has deleted the interrupt. *)

From S2P Require Import Prelude PyDict GraphTypes GraphState Checkpoint GraphRuntime GraphContext.
From S2P Require Import GraphExecutor GraphAsync GraphRun Receipts Program ProgramFacts MemoryCheckpointer.
From S2P Require Import FileCheckpointer DurablePolicy DurableStore.

Section adapter.
Context {Bytes : Type} (pickle_dumps : RuntimeGraphCheckpoint → Bytes)
  (pickle_loads : Bytes → result Exn RuntimeGraphCheckpoint)
  (fresh : nat → string) (now : nat → Z).
Context {W : Type} (get : W → TursoCheckpoints Bytes) (put : TursoCheckpoints Bytes → W → W).
Context (sha256_hex : string → string).
Implicit Types (a : RuntimeDurableAdapter) (P : RuntimeGraphProgram W).

(** The field [checkpointer], built by [RuntimeDurableAdapter.turso] under the
    policy of the adapter. *)
Definition adapter_checkpointer a : Checkpointer W :=
  turso_checkpointer pickle_dumps pickle_loads fresh now (da_policy a) get put.

(** The asynchronous methods of the Turso checkpointer run the synchronous ones
    in a worker thread. *)
Definition adapter_async_checkpointer a : AsyncCheckpointer W :=
  let C := adapter_checkpointer a in
  MkAsyncCheckpointer C (Some (ckpt_save C)) (Some (ckpt_save_interrupted C))
    (Some (ckpt_load_interrupted C)) (Some (ckpt_clear C)) (Some (ckpt_inspect C))
    (Some (ckpt_history C)) (Some (ckpt_load_at C)) (Some (ckpt_update_state C)).

Definition adapter_has a (thread_id : string) (w : W) : bool :=
  ckpt_has (adapter_checkpointer a) thread_id w.
Definition adapter_inspect a (thread_id : string) (w : W) : result Exn RuntimeGraphCheckpoint :=
  ckpt_inspect (adapter_checkpointer a) thread_id w.
Definition adapter_history a (thread_id : string) (w : W) :
    result Exn (list RuntimeGraphCheckpoint) :=
  ckpt_history (adapter_checkpointer a) thread_id w.
Definition adapter_load_at a (thread_id checkpoint_id : string) (w : W) :
    result Exn RuntimeGraphCheckpoint :=
  ckpt_load_at (adapter_checkpointer a) thread_id checkpoint_id w.
Definition adapter_update_state a (thread_id : string) (update : dict string Value)
    (replace : bool) (w : W) : W * result Exn RuntimeGraphCheckpoint :=
  ckpt_update_state (adapter_checkpointer a) thread_id update replace w.
Definition adapter_clear a (thread_id : string) (w : W) : W * result Exn unit :=
  ckpt_clear (adapter_checkpointer a) thread_id w.

Definition adapter_invoke_thread a P (fuel : nat) (thread_id : string) (s : RuntimeState)
    (trace_key : option string) (w : W) : Run W RuntimeGraphExecution :=
  invoke_thread sha256_hex P (adapter_checkpointer a) fuel thread_id s trace_key w.
Definition adapter_ainvoke_thread a P (fuel : nat) (thread_id : string) (s : RuntimeState)
    (trace_key : option string) (w : W) : Run W RuntimeGraphExecution :=
  ainvoke_thread sha256_hex P (adapter_async_checkpointer a) fuel thread_id s trace_key w.
Definition adapter_resume_thread a P (fuel : nat) (thread_id : string) (r : RuntimeActionResult)
    (trace_key : option string) (clear : bool) (w : W) : Run W RuntimeGraphExecution :=
  resume_thread sha256_hex P (adapter_checkpointer a) fuel thread_id r trace_key clear w.

Definition adapter_aresume_thread a P (fuel : nat) (thread_id : string) (r : MaybeAwaitable W RuntimeActionResult)
    (trace_key : option string) (clear : bool) (w : W) : Run W RuntimeGraphExecution :=
  aresume_thread sha256_hex P (adapter_async_checkpointer a) fuel thread_id r trace_key clear w.

(** ** Threads on a durable adapter *)

Section laws.
Context (Hpickle : ∀ c, pickle_loads (pickle_dumps c) = Ok c).
Context (Hget : ∀ m w, get (put m w) = m).

(** C39. A program interrupted on a Turso adapter stores the interrupt and raises
    it without the private key, under a valid policy with generated ids and
    whatever the clock; the thread then exists.  When the stored interrupt is
    among the newest checkpoints that the policy of the adapter retains, as it
    is when none of its thread is newer and when the policy has no limit,
    [resume_thread] of any adapter on the same database hands the executor the
    interrupt with the plan put back; otherwise retention has deleted it, and
    [resume_thread] raises a missing checkpoint. *)
Theorem durable_thread_resumes a a' P receipt digest ex fuel t s trace_key w w1 i l h :
  valid_policy (da_policy a) → pm_checkpoint_id_strategy (da_policy a) ≠ "provided" →
  validated_plan sha256_hex P = Ok (receipt, digest) → program_executor P = Ok ex →
  invoke_with_events ex fuel (internal_state (prog_plan P) s) trace_key w =
    Some (w1, Raise (RuntimeGraphInterrupted i)) →
  turso_inv pickle_dumps (get w1) → thread_is pickle_dumps (get w1) t l h →
  let public := public_interrupted receipt digest i in
  let id := fresh (tc_clock (get w1)) in
  let entry := (id, (now (tc_clock (get w1)), cp_with_id id (checkpoint_from_interrupted t public))) in
  let saved := dset id entry.2 l in
  ∃ w2, adapter_invoke_thread a P fuel t s trace_key w =
          Some (w2, Raise (RuntimeGraphInterrupted public)) ∧
    turso_inv pickle_dumps (get w2) ∧ adapter_has a' t w2 = true ∧
    (newer saved entry = 0%nat → survives (da_policy a) saved entry) ∧
    ∀ fuel' r trace_key' clear,
      adapter_resume_thread a' P fuel' t r trace_key' clear w2 =
        if decide (survives (da_policy a) saved entry)
        then clear_after (adapter_clear a') t clear <$> map_returned (to_execution receipt)
               (GraphExecutor.resume_interrupted ex fuel' (restored P receipt digest public) r
                  trace_key' w2)
        else Some (w2, Raise (RuntimeGraphCheckpointError
                                ("missing checkpoint " +:+ id +:+ " for thread " +:+ t))).
Proof.
  intros Hv Hst Hplan Hex Hrun Hi HT public id entry saved.
  set (c := checkpoint_from_interrupted t public).
  destruct (save_inv pickle_dumps pickle_loads fresh now (da_policy a) Hpickle (get w1) c Hv Hi (λ _, Hst))
    as (m' & Hs & Hi' & Hall).
  assert (current fresh (get w1) c = cp_with_id id c) as Hcur by done.
  specialize (Hall t l h HT). rewrite Hcur in Hs, Hall. rewrite !decide_True in Hall by done.
  assert (dict_wf l) as Hl by (destruct Hi as (Hw & _); by eapply log_wf).
  assert (turso_inspect pickle_loads t m' =
    if decide (survives (da_policy a) saved entry) then Ok (cp_with_id id c)
    else Raise (RuntimeGraphCheckpointError ("missing checkpoint " +:+ id +:+ " for thread " +:+ t))) as Hins
    by exact (saved_loads pickle_dumps pickle_loads fresh now (da_policy a) Hpickle (get w1) c l m' Hl Hi' Hall).
  assert (∀ a', ckpt_load_interrupted (adapter_checkpointer a') t (put m' w1) =
    if decide (survives (da_policy a) saved entry) then Ok public
    else Raise (RuntimeGraphCheckpointError ("missing checkpoint " +:+ id +:+ " for thread " +:+ t))) as Hload.
  { intros a0. unfold ckpt_load_interrupted, adapter_checkpointer, turso_checkpointer. cbn [ckpt_load].
    rewrite Hget, Hins. case_decide; [|done].
    unfold mbind, result_bind, c. by rewrite to_interrupted_with_id, to_interrupted_from_interrupted. }
  exists (put m' w1). split_and!.
  - unfold adapter_invoke_thread, invoke_thread, invoke_with_trace. rewrite Hplan. simpl.
    rewrite Hex, Hrun. simpl. unfold ckpt_save_interrupted. fold public c.
    unfold adapter_checkpointer, turso_checkpointer. cbn [ckpt_save]. by rewrite Hs.
  - by rewrite Hget.
  - unfold adapter_has, adapter_checkpointer, turso_checkpointer. cbn [ckpt_has]. rewrite Hget.
    by destruct (log_reads pickle_dumps pickle_loads Hpickle m' t _ _ Hi' Hall) as (_ & _ & -> & _).
  - by apply newest_survives.
  - intros fuel' r trace_key' clear. specialize (Hload a'). case_decide.
    + by apply loaded_interrupt_resumes.
    + unfold adapter_resume_thread, resume_thread. by rewrite Hload.
Qed.
End laws.

(** Under a policy that wants the ids of checkpoints provided no program can
    save a thread: the run is made, and whether it returns or is interrupted,
    [invoke_thread] raises the policy error, with the database unchanged. *)
Theorem provided_ids_reject_threads a P fuel t s trace_key w w1 o :
  (∀ w, put (get w) w = w) →
  pm_checkpoint_id_strategy (da_policy a) = "provided" →
  invoke_with_trace sha256_hex P fuel s trace_key w = Some (w1, o) →
  (∃ i, o = Raise (RuntimeGraphInterrupted i)) ∨ is_ok o = true →
  adapter_invoke_thread a P fuel t s trace_key w =
    Some (w1, Raise (RuntimeDurablePolicyError "checkpoint_id is required by durable policy")).
Proof.
  intros Hput Hst Hrun Ho.
  assert (∀ c, cp_checkpoint_id c = "" → ckpt_save (adapter_checkpointer a) c w1 =
    (w1, Raise (RuntimeDurablePolicyError "checkpoint_id is required by durable policy"))) as Hsave.
  { intros c Hc. unfold adapter_checkpointer, turso_checkpointer. cbn [ckpt_save].
    unfold turso_save. rewrite Hc, Hst, !bool_decide_eq_true_2 by done. cbn [andb]. by rewrite Hput. }
  unfold adapter_invoke_thread, invoke_thread. rewrite Hrun. cbn [fmap option_fmap option_map].
  destruct Ho as [[i ->]|Ho].
  - unfold save_outcome, ckpt_save_interrupted. by rewrite Hsave.
  - destruct o as [e|]; [|done].
    pose proof Hrun as (receipt & digest & ex & state & trace & events & Hv & _ & _ & He)%invoke_with_trace_Ok.
    apply validated_plan_parses in Hv as (r & Hr & Hd).
    unfold save_outcome, checkpoint_from_execution.
    assert (exec_plan_digest e = Ok digest) as ->.
    { subst. unfold exec_plan_digest, exec_validation; simpl. by rewrite Hr. }
    cbn [mbind result_bind]. by rewrite Hsave.
Qed.
End adapter.

(** ** Witnesses *)

Module AdapterDemo.
Definition W : Type := TursoCheckpoints RuntimeGraphCheckpoint.
Definition get (w : W) : W := w.
Definition put (m w : W) : W := m.
Definition ask : RuntimeAction W := pure_action (λ _, RInterrupt (Interrupt (VStr "ok?") true)).
Definition program : RuntimeGraphProgram W :=
  Program ProgramDemo.plan (Bindings [] []) (Registries [("n", simple_action ask)] [] [])
    runtime_reference.
Definition adapter (strategy : string) : RuntimeDurableAdapter :=
  DurableAdapter (PolicyManifest MANIFEST_SCHEMA "p" "scheme" strategy true (Some 1) "store"
    "retry" [] "" "" "" true 0 "" []) "turso" None.
Definition empty : W := MkTurso [] [] 0.
Definition validated : string * option string :=
  Eval vm_compute in default ("", None) (res_to_option (validated_plan ProgramDemo.sha program)).
Definition executor : RuntimeGraphExecutor W :=
  MkExecutor ProgramDemo.plan runtime_reference [("n", ask)] [] []
    (index_edges (plan_edges ProgramDemo.plan)) [].
(** A clock that stands still. *)
Definition tick (n : nat) : Z := 7.
End AdapterDemo.

Lemma durable_thread_resumes_witness :
  let P := AdapterDemo.program in
  let a := AdapterDemo.adapter "runtime-generated" in
  let '(receipt, digest) := AdapterDemo.validated in
  let public := public_interrupted receipt digest ProgramDemo.interrupt_of in
  ∃ w2, adapter_invoke_thread (λ c, c) Ok numbered AdapterDemo.tick AdapterDemo.get AdapterDemo.put
          ProgramDemo.sha a P 3 "thread" [] None AdapterDemo.empty =
          Some (w2, Raise (RuntimeGraphInterrupted public)) ∧
    adapter_has (λ c, c) Ok numbered AdapterDemo.tick AdapterDemo.get AdapterDemo.put a "thread" w2
      = true.
Proof.
  destruct (durable_thread_resumes (λ c, c) Ok numbered AdapterDemo.tick AdapterDemo.get
    AdapterDemo.put ProgramDemo.sha (λ c, eq_refl) (λ m w, eq_refl)
    (AdapterDemo.adapter "runtime-generated") (AdapterDemo.adapter "runtime-generated")
    AdapterDemo.program AdapterDemo.validated.1 AdapterDemo.validated.2
    AdapterDemo.executor 3 "thread" [] None AdapterDemo.empty AdapterDemo.empty
    ProgramDemo.interrupt_of [] None) as (w2 & Hinv & _ & Hhas & _).
  - refine (proj2 (proj1 (policy_validate_Ok _ (da_policy (AdapterDemo.adapter "runtime-generated"))) _)).
    reflexivity.
  - discriminate.
  - vm_compute. reflexivity.
  - vm_compute. reflexivity.
  - vm_compute. reflexivity.
  - apply empty_turso_inv.
  - by split.
  - exists w2. split; [exact Hinv|exact Hhas].
Defined.

Lemma provided_ids_reject_threads_witness :
  adapter_invoke_thread (λ c, c) Ok numbered AdapterDemo.tick AdapterDemo.get AdapterDemo.put
    ProgramDemo.sha (AdapterDemo.adapter "provided") AdapterDemo.program 3 "thread" [] None
    AdapterDemo.empty =
  Some (AdapterDemo.empty,
    Raise (RuntimeDurablePolicyError "checkpoint_id is required by durable policy")).
Proof.
  apply (provided_ids_reject_threads (λ c, c) Ok numbered AdapterDemo.tick AdapterDemo.get
    AdapterDemo.put ProgramDemo.sha (AdapterDemo.adapter "provided") AdapterDemo.program 3 "thread"
    [] None AdapterDemo.empty AdapterDemo.empty
    (Raise (RuntimeGraphInterrupted (public_interrupted AdapterDemo.validated.1
       AdapterDemo.validated.2 ProgramDemo.interrupt_of)))).
  - reflexivity.
  - reflexivity.
  - vm_compute. reflexivity.
  - left. by eexists.
Defined.
