(* ===== verification/Sort.v ===== *)
(** * [sorted] with a key

    Python's sort is stable; here it is insertion sort for a boolean order.
    A heap ([heapq]) is kept as a sorted list: what is popped is a least
    element, and nothing else of a heap is observed. *)

From S2P Require Import Prelude.

Section sort.
Context {A : Type} (leb : A → A → bool).

Fixpoint insert_by (x : A) (l : list A) : list A :=
  match l with
  | [] => [x]
  | y :: l' => if leb x y then x :: l else y :: insert_by x l'
  end.

Definition sort_by (l : list A) : list A := foldr insert_by [] l.

Definition ordered (x y : A) : Prop := leb x y = true.

Lemma insert_by_perm x l : insert_by x l ≡ₚ x :: l.
Proof.
  induction l as [|y l IH]; simpl; [done|]. destruct (leb x y); [done|].
  rewrite IH. apply Permutation_swap.
Qed.

Lemma sort_by_perm l : sort_by l ≡ₚ l.
Proof. induction l as [|x l IH]; simpl; [done|]. by rewrite insert_by_perm, IH. Qed.

Lemma elem_of_sort_by x l : x ∈ sort_by l ↔ x ∈ l.
Proof. by rewrite sort_by_perm. Qed.

Lemma elem_of_insert_by x y l : x ∈ insert_by y l ↔ x = y ∨ x ∈ l.
Proof. by rewrite insert_by_perm, elem_of_cons. Qed.

Context (Htotal : ∀ x y, leb x y = true ∨ leb y x = true).
Context (Htrans : ∀ x y z, leb x y = true → leb y z = true → leb x z = true).

Lemma insert_by_sorted x l : StronglySorted ordered l → StronglySorted ordered (insert_by x l).
Proof.
  induction 1 as [|y l Hl IH Hy]; simpl; [by repeat constructor|].
  destruct (leb x y) eqn:E.
  - constructor; [by constructor|]. constructor; [done|].
    eapply Forall_impl; [exact Hy|]. intros z Hz. by eapply Htrans.
  - constructor; [done|]. rewrite insert_by_perm. constructor; [|done].
    destruct (Htotal x y); [congruence|done].
Qed.

Lemma sort_by_sorted l : StronglySorted ordered (sort_by l).
Proof. induction l as [|x l IH]; simpl; [constructor|]. by apply insert_by_sorted. Qed.

(** Lists whose elements have distinct keys have one sorted order. *)
Lemma sort_by_unique l1 l2 :
  (∀ x y, x ∈ l1 → y ∈ l1 → leb x y = true → leb y x = true → x = y) →
  l1 ≡ₚ l2 → sort_by l1 = sort_by l2.
Proof.
  intros Hanti Hp.
  enough (∀ k1 k2, StronglySorted ordered k1 → StronglySorted ordered k2 → k1 ≡ₚ k2 →
    (∀ x y, x ∈ k1 → y ∈ k1 → leb x y = true → leb y x = true → x = y) → k1 = k2) as H.
  { apply H; [apply sort_by_sorted..|by rewrite !sort_by_perm|].
    intros x y. rewrite !elem_of_sort_by. apply Hanti. }
  clear. intros k1 k2 H1; revert k2; induction H1 as [|x k1 Hk1 IH Hx]; intros k2 H2 Hp Hanti.
  { symmetry in Hp. by apply Permutation_nil_r in Hp as ->. }
  destruct k2 as [|y k2]; [by apply Permutation_nil_r in Hp|].
  apply StronglySorted_inv in H2 as [Hk2 Hy].
  assert (x = y) as ->.
  { assert (y ∈ x :: k1) as Hyin by (rewrite Hp; by left).
    assert (x ∈ y :: k2) as Hxin by (rewrite <-Hp; by left).
    apply elem_of_cons in Hyin as [->|Hyin]; [done|].
    apply elem_of_cons in Hxin as [->|Hxin]; [done|].
    rewrite Forall_forall in Hx, Hy. apply Hanti; [by left|by right|by apply Hx|by apply Hy]. }
  f_equal. apply IH; [done|by apply Permutation_cons_inv in Hp|].
  intros a b Ha Hb. apply Hanti; by right.
Qed.

Lemma sort_by_idem l :
  StronglySorted ordered l → sort_by l = l.
Proof.
  induction 1 as [|x l Hl IH Hx]; [done|]. simpl. rewrite IH.
  destruct l as [|y l]; [done|]. apply Forall_cons in Hx as [Hx _]. simpl. by rewrite Hx.
Qed.
End sort.

Lemma filter_length_0 {A} (P : A → Prop) `{∀ x, Decision (P x)} (l : list A) :
  length (filter P l) = 0%nat ↔ ∀ x, x ∈ l → ¬ P x.
Proof.
  rewrite length_zero_iff_nil. split.
  - intros Hz x Hx HP. assert (x ∈ filter P l) as Hin by by apply list_elem_of_filter.
    rewrite Hz in Hin. by apply not_elem_of_nil in Hin.
  - intros Hz. apply filter_none, Forall_forall. done.
Qed.

Lemma sort_by_nil {A} (leb : A → A → bool) l : sort_by leb l = [] ↔ l = [].
Proof.
  split; [|by intros ->]. intros H. apply Permutation_nil_r. by rewrite <-(sort_by_perm leb), H.
Qed.

(** ** Orders on text *)

Definition str_leb (a b : string) : bool := bool_decide (String.le a b).

Lemma str_leb_total a b : str_leb a b = true ∨ str_leb b a = true.
Proof. unfold str_leb. rewrite !bool_decide_eq_true. apply (total String.le). Qed.
Lemma str_leb_trans a b c : str_leb a b = true → str_leb b c = true → str_leb a c = true.
Proof. unfold str_leb. rewrite !bool_decide_eq_true. apply transitivity. Qed.
Lemma str_leb_anti a b : str_leb a b = true → str_leb b a = true → a = b.
Proof. unfold str_leb. rewrite !bool_decide_eq_true. apply (anti_symm String.le). Qed.

Lemma sort_roots_idem l : sort_by str_leb (sort_by str_leb l) = sort_by str_leb l.
Proof. apply sort_by_idem, sort_by_sorted; [apply str_leb_total|apply str_leb_trans]. Qed.

(** A list that is its own sorted set. *)
Lemma sorted_set_id l :
  sort_by str_leb (remove_dups l) = l ↔ NoDup l ∧ StronglySorted (ordered str_leb) l.
Proof.
  split.
  - intros H. rewrite <-H. split; [|apply sort_by_sorted; [apply str_leb_total|apply str_leb_trans]].
    rewrite (sort_by_perm str_leb). apply NoDup_remove_dups.
  - intros [Hnd Hs]. rewrite <-(sort_by_idem str_leb l Hs) at 2.
    apply sort_by_unique; [apply str_leb_total|apply str_leb_trans|intros x y _ _; apply str_leb_anti|].
    apply NoDup_Permutation; [apply NoDup_remove_dups|done|intros x; apply elem_of_remove_dups].
Qed.

(** Comparison of tuples. *)
Definition pair_leb {A B} `{EqDecision A} (la : A → A → bool) (lb : B → B → bool)
    (x y : A * B) : bool :=
  if decide (x.1 = y.1) then lb x.2 y.2 else la x.1 y.1.

Section pairs.
Context {A B : Type} `{EqDecision A} (la : A → A → bool) (lb : B → B → bool).
Context (Ha_total : ∀ x y, la x y = true ∨ la y x = true).
Context (Hb_total : ∀ x y, lb x y = true ∨ lb y x = true).
Context (Ha_trans : ∀ x y z, la x y = true → la y z = true → la x z = true).
Context (Hb_trans : ∀ x y z, lb x y = true → lb y z = true → lb x z = true).
Context (Ha_anti : ∀ x y, la x y = true → la y x = true → x = y).
Context (Hb_anti : ∀ x y, lb x y = true → lb y x = true → x = y).

Lemma pair_leb_total x y : pair_leb la lb x y = true ∨ pair_leb la lb y x = true.
Proof.
  unfold pair_leb. destruct (decide (x.1 = y.1)) as [E|E].
  - rewrite decide_True by done. apply Hb_total.
  - rewrite decide_False by done. apply Ha_total.
Qed.

Lemma pair_leb_trans x y z :
  pair_leb la lb x y = true → pair_leb la lb y z = true → pair_leb la lb x z = true.
Proof.
  unfold pair_leb. destruct (decide (x.1 = y.1)) as [E1|E1]; intros H1;
    destruct (decide (y.1 = z.1)) as [E2|E2]; intros H2; destruct (decide (x.1 = z.1)) as [E3|E3];
    try congruence; eauto.
  exfalso. apply E1, Ha_anti; [done|congruence].
Qed.

Lemma pair_leb_anti x y : pair_leb la lb x y = true → pair_leb la lb y x = true → x = y.
Proof.
  unfold pair_leb. destruct x as [a b], y as [a' b']; simpl. intros H1 H2.
  destruct (decide (a = a')) as [->|Hne].
  - rewrite decide_True in H2 by done. f_equal. by apply Hb_anti.
  - rewrite decide_False in H2 by done. destruct Hne. by apply Ha_anti.
Qed.
End pairs.

#[export] Hint Resolve str_leb_total str_leb_trans str_leb_anti : py.
