(* ===== verification/ReceiptGraph.v ===== *)
(** * The graph of accepted proof-base receipts ([proof_base_receipt_graph.py])

    (In [src/packages/proofs/python/src/poo_flow_proof/].)  Nodes are accepted
    receipts that provide one interface and assume others, edges supply an
    assumption.  [verify] checks that every assumption is supplied once by the
    exact interface it names, that the graph is acyclic and that every node
    contributes to one terminal node; the digest of a graph frames all of it.
    [sha256_hex] is [hashlib.sha256(...).hexdigest()], a parameter; bytes and
    text are byte strings (text in UTF-8).  A payload is always [bytes] here, so
    the check of its type is not modelled, and lengths below the width of a
    frame's length field are assumed where it matters. *)

From Stdlib Require Import Ascii.
From S2P Require Import Prelude PyDict GraphTypes Text Merkle EvidenceModel Sort.

Definition PROOF_BASE_RECEIPT_GRAPH_SCHEMA_V1 : string := "poo-flow.proof-base-receipt-graph.v1".
Definition VERIFIED_COMPOSITION_RECEIPT_SCHEMA_V1 : string :=
  "poo-flow.verified-composition-receipt.v1".

(** [ProofBaseReceiptGraphError(code, detail)]. *)
Definition GraphError (code detail : string) : Exn :=
  PyError "ProofBaseReceiptGraphError" (code +:+ ": " +:+ detail).

(** [int.to_bytes(n, "big")]. *)
Fixpoint big_endian (n : nat) (z : Z) : string :=
  match n with
  | O => ""
  | S n => big_endian n (z / 256) +:+ String (ascii_of_nat (Z.to_nat (z mod 256))) ""
  end.
Definition to_bytes (n : nat) (z : Z) : result Exn string :=
  if z <? 256 ^ Z.of_nat n then Ok (big_endian n z)
  else Raise (PyError "OverflowError" "int too big to convert").

Definition slen (s : string) : Z := Z.of_nat (String.length s).

(** [_frame]. *)
Definition frame (label payload : string) : result Exn string :=
  label_length ← to_bytes 4 (slen label);
  payload_length ← to_bytes 8 (slen payload);
  Ok (label_length +:+ label +:+ payload_length +:+ payload).

(** [payload.extend(_frame(...))] for each of a list of fields. *)
Definition frames (fields : list (string * string)) : result Exn string :=
  parts ← mapM (λ '(label, payload), frame label payload) fields; Ok (str_concat parts).

(** ** Receipts *)

Definition require_nonempty (label value : string) : result Exn unit :=
  require (negb (bool_decide (value = "")))
    (GraphError ("empty-" +:+ replace_char "_" "-" label) (label +:+ " must be non-empty")).

(** [_SHA256_PATTERN.fullmatch]. *)
Definition digest_form (value : string) : bool :=
  String.prefix "sha256:" value &&
  let hex := String.substring 7 (String.length value) value in
  (String.length hex =? 64)%nat && sforall lower_hex hex.

Definition require_digest (label value : string) : result Exn unit :=
  require (digest_form value)
    (GraphError "invalid-digest" (label +:+ " must be a canonical sha256 digest")).

Section graph.
Context (sha256_hex : string → string).

Definition sha256_digest (payload : string) : string := "sha256:" +:+ sha256_hex payload.

Definition require_canonical_payload (label payload digest : string) : result Exn unit :=
  _ ← require_digest (label +:+ "_digest") digest;
  let computed := sha256_digest payload in
  require (bool_decide (computed = digest))
    (GraphError "canonical-payload-digest-mismatch"
       (label +:+ " computed " +:+ computed +:+ ", declared " +:+ digest)).

Record CanonicalInterfaceV1 : Type := CanonicalInterface {
  ci_canonical_bytes : string;
  ci_digest : string
}.
Definition mk_canonical_interface (canonical_bytes digest : string) :
    result Exn CanonicalInterfaceV1 :=
  _ ← require_canonical_payload "canonical_interface" canonical_bytes digest;
  Ok (CanonicalInterface canonical_bytes digest).

Record CanonicalSourceIdentityV1 : Type := CanonicalSourceIdentity {
  cs_canonical_bytes : string;
  cs_digest : string
}.
Definition mk_canonical_source_identity (canonical_bytes digest : string) :
    result Exn CanonicalSourceIdentityV1 :=
  _ ← require_canonical_payload "canonical_source_identity" canonical_bytes digest;
  Ok (CanonicalSourceIdentity canonical_bytes digest).

Record NamedInterfaceAssumptionV1 : Type := NamedInterfaceAssumption {
  na_assumption_id : string;
  na_interface : CanonicalInterfaceV1
}.
Definition mk_named_interface_assumption (assumption_id : string)
    (interface : CanonicalInterfaceV1) : result Exn NamedInterfaceAssumptionV1 :=
  _ ← require_nonempty "assumption_id" assumption_id;
  Ok (NamedInterfaceAssumption assumption_id interface).

Record AcceptedReceiptEvidenceV1 : Type := AcceptedReceiptEvidence {
  ar_engine_identity : string;
  ar_canonical_receipt_bytes : string;
  ar_receipt_digest : string;
  ar_bound_source_identity_digest : string;
  ar_bound_independent_bundle_digest : string;
  ar_bound_provided_interface_digest : string;
  ar_decision : string
}.
(** [AcceptedReceiptEvidenceV1.__post_init__]. *)
Definition check_evidence (a : AcceptedReceiptEvidenceV1) :
    result Exn AcceptedReceiptEvidenceV1 :=
  _ ← require_nonempty "engine_identity" (ar_engine_identity a);
  _ ← require_canonical_payload "acceptance_receipt" (ar_canonical_receipt_bytes a)
        (ar_receipt_digest a);
  _ ← require_digest "bound_source_identity_digest" (ar_bound_source_identity_digest a);
  _ ← require_digest "bound_independent_bundle_digest" (ar_bound_independent_bundle_digest a);
  _ ← require_digest "bound_provided_interface_digest" (ar_bound_provided_interface_digest a);
  _ ← require (bool_decide (ar_decision a = "accepted"))
        (GraphError "receipt-not-accepted" "receipt decision must be exactly accepted");
  Ok a.

Record AcceptedProofBaseReceiptNodeV1 : Type := ReceiptNode {
  node_id : string;
  node_source_identity : CanonicalSourceIdentityV1;
  node_independent_bundle_digest : string;
  node_root_declarations : list string;
  node_provided_interface : CanonicalInterfaceV1;
  node_assumed_interfaces : list NamedInterfaceAssumptionV1;
  node_acceptance : AcceptedReceiptEvidenceV1
}.

Definition assumption_leb (a b : NamedInterfaceAssumptionV1) : bool :=
  str_leb (na_assumption_id a) (na_assumption_id b).

(** [len(set(l)) != len(l)]. *)
Definition has_duplicates {A} `{EqDecision A} (l : list A) : bool :=
  negb (length (remove_dups l) =? length l)%nat.

(** [AcceptedProofBaseReceiptNodeV1.__post_init__]. *)
Definition mk_node (n : AcceptedProofBaseReceiptNodeV1) :
    result Exn AcceptedProofBaseReceiptNodeV1 :=
  let declarations := sort_by str_leb (node_root_declarations n) in
  let assumed := sort_by assumption_leb (node_assumed_interfaces n) in
  _ ← require_nonempty "node_id" (node_id n);
  _ ← require_digest "independent_bundle_digest" (node_independent_bundle_digest n);
  _ ← require (negb (bool_decide (declarations = [])))
        (GraphError "empty-root-declarations"
           "an accepted proof-base receipt must own at least one root declaration");
  _ ← require (forallb (λ d, negb (bool_decide (d = ""))) declarations)
        (GraphError "empty-root-declaration" "root declarations must be non-empty");
  _ ← require (negb (has_duplicates declarations))
        (GraphError "duplicate-root-declaration"
           ("node " +:+ node_id n +:+ " repeats a root declaration"));
  _ ← require (negb (has_duplicates (na_assumption_id <$> assumed)))
        (GraphError "duplicate-assumption-id"
           ("node " +:+ node_id n +:+ " repeats an assumption id"));
  _ ← require (bool_decide
          ((ar_bound_source_identity_digest (node_acceptance n),
            ar_bound_independent_bundle_digest (node_acceptance n),
            ar_bound_provided_interface_digest (node_acceptance n))
           = (cs_digest (node_source_identity n), node_independent_bundle_digest n,
              ci_digest (node_provided_interface n))))
        (GraphError "acceptance-binding-mismatch"
           ("accepted receipt for " +:+ node_id n +:+ " must bind its source, "
              +:+ "independent bundle, and provided interface"));
  Ok (ReceiptNode (node_id n) (node_source_identity n) (node_independent_bundle_digest n)
        declarations (node_provided_interface n) assumed (node_acceptance n)).

Record ReceiptInterfaceEdgeV1 : Type := ReceiptEdge {
  supplier_node_id : string;
  consumer_node_id : string;
  consumer_assumption_id : string
}.
Definition mk_edge (e : ReceiptInterfaceEdgeV1) : result Exn ReceiptInterfaceEdgeV1 :=
  _ ← require_nonempty "supplier_node_id" (supplier_node_id e);
  _ ← require_nonempty "consumer_node_id" (consumer_node_id e);
  _ ← require_nonempty "consumer_assumption_id" (consumer_assumption_id e);
  _ ← require (negb (bool_decide (supplier_node_id e = consumer_node_id e)))
        (GraphError "self-edge" ("node " +:+ supplier_node_id e +:+ " cannot supply itself"));
  Ok e.

Record VerifiedCompositionReceiptV1 : Type := CompositionReceipt {
  vc_schema_id : string;
  vc_graph_digest : string;
  vc_terminal_node_id : string;
  vc_topological_order : list string;
  vc_node_count : Z;
  vc_edge_count : Z;
  vc_root_declaration_count : Z
}.

Record ProofBaseReceiptGraphV1 : Type := ReceiptGraph {
  graph_schema_id : string;
  graph_nodes : list AcceptedProofBaseReceiptNodeV1;
  graph_edges : list ReceiptInterfaceEdgeV1;
  graph_terminal_node_id : string
}.

Definition node_leb (a b : AcceptedProofBaseReceiptNodeV1) : bool :=
  str_leb (node_id a) (node_id b).
Definition edge_key (e : ReceiptInterfaceEdgeV1) : string * (string * string) :=
  (supplier_node_id e, (consumer_node_id e, consumer_assumption_id e)).
Definition edge_leb (a b : ReceiptInterfaceEdgeV1) : bool :=
  pair_leb str_leb (pair_leb str_leb str_leb) (edge_key a) (edge_key b).

(** [ProofBaseReceiptGraphV1.__post_init__]. *)
Definition mk_graph (schema_id : string) (nodes : list AcceptedProofBaseReceiptNodeV1)
    (edges : list ReceiptInterfaceEdgeV1) (terminal_node_id : string) :
    ProofBaseReceiptGraphV1 :=
  ReceiptGraph schema_id (sort_by node_leb nodes) (sort_by edge_leb edges) terminal_node_id.

(** ** The digest of a graph *)

Definition assumption_fields (a : NamedInterfaceAssumptionV1) : list (string * string) :=
  [("assumption_id", na_assumption_id a);
   ("interface", ci_canonical_bytes (na_interface a));
   ("interface_digest", ci_digest (na_interface a))].

(** The fields of a node before its declarations and assumptions. *)
Definition node_fields (n : AcceptedProofBaseReceiptNodeV1) : list (string * string) :=
  let a := node_acceptance n in
  [("node_id", node_id n);
   ("source_identity", cs_canonical_bytes (node_source_identity n));
   ("source_identity_digest", cs_digest (node_source_identity n));
   ("independent_bundle_digest", node_independent_bundle_digest n);
   ("provided_interface", ci_canonical_bytes (node_provided_interface n));
   ("provided_interface_digest", ci_digest (node_provided_interface n));
   ("acceptance_engine", ar_engine_identity a);
   ("acceptance_receipt", ar_canonical_receipt_bytes a);
   ("acceptance_receipt_digest", ar_receipt_digest a);
   ("acceptance_bound_source_identity_digest", ar_bound_source_identity_digest a);
   ("acceptance_bound_independent_bundle_digest", ar_bound_independent_bundle_digest a);
   ("acceptance_bound_provided_interface_digest", ar_bound_provided_interface_digest a)].

Definition node_payload (n : AcceptedProofBaseReceiptNodeV1) : result Exn string :=
  assumptions ← mapM (λ a, frames (assumption_fields a))
    (sort_by assumption_leb (node_assumed_interfaces n));
  frames (node_fields n
          ++ ((λ d, ("root_declaration", d)) <$> sort_by str_leb (node_root_declarations n))
          ++ ((λ p, ("assumption", p)) <$> assumptions)).

Definition edge_payload (e : ReceiptInterfaceEdgeV1) : result Exn string :=
  frames [("supplier_node_id", supplier_node_id e); ("consumer_node_id", consumer_node_id e);
          ("consumer_assumption_id", consumer_assumption_id e)].

Definition graph_payload (g : ProofBaseReceiptGraphV1) : result Exn string :=
  nodes ← mapM node_payload (sort_by node_leb (graph_nodes g));
  edges ← mapM edge_payload (sort_by edge_leb (graph_edges g));
  frames ([("schema_id", graph_schema_id g); ("terminal_node_id", graph_terminal_node_id g)]
          ++ ((λ p, ("node", p)) <$> nodes) ++ ((λ p, ("edge", p)) <$> edges)).

(** [_graph_digest]. *)
Definition graph_digest (g : ProofBaseReceiptGraphV1) : result Exn string :=
  sha256_digest <$> graph_payload g.

(** ** Verification *)

#[local] Notation Node := AcceptedProofBaseReceiptNodeV1.

Definition node_ids (nodes : list Node) : list string := node_id <$> nodes.

(** [{node.node_id: node for node in self.nodes}]. *)
Definition nodes_by_id (nodes : list Node) : dict string Node :=
  dict_of ((λ n, (node_id n, n)) <$> nodes).

(** [declaration_owners], filled declaration by declaration. *)
Definition add_owner (node : Node) (owners : dict string string) (declaration : string) :
    result Exn (dict string string) :=
  match dget declaration owners with
  | Some previous_owner =>
      Raise (GraphError "root-declaration-owner-overlap"
               (declaration +:+ " is owned by both " +:+ previous_owner +:+ " and "
                  +:+ node_id node))
  | None => Ok (dset declaration (node_id node) owners)
  end.
Definition declaration_owners (nodes : list Node) : result Exn (dict string string) :=
  foldM (λ owners node, foldM (add_owner node) owners (node_root_declarations node)) [] nodes.

Definition AssumptionKey : Type := string * string.

Definition assumptions_of (nodes : list Node) : dict AssumptionKey NamedInterfaceAssumptionV1 :=
  dict_of (nodes ≫= λ node,
    (λ a, ((node_id node, na_assumption_id a), a)) <$> node_assumed_interfaces node).

(** The local variables of the loop over the edges. *)
Record EdgeState : Type := MkEdgeState {
  supplied_assumptions : list AssumptionKey;
  adjacency : dict string (list string);
  indegree : dict string Z
}.

#[global] Instance canonical_interface_eq_dec : EqDecision CanonicalInterfaceV1.
Proof. solve_decision. Defined.

(** The body of the loop.  A set is the list of its elements in the order in
    which they were added. *)
Definition add_edge (by_id : dict string Node)
    (assumptions : dict AssumptionKey NamedInterfaceAssumptionV1) (st : EdgeState)
    (e : ReceiptInterfaceEdgeV1) : result Exn EdgeState :=
  let supplier_id := supplier_node_id e in
  let consumer_id := consumer_node_id e in
  let key := (consumer_id, consumer_assumption_id e) in
  let slot := consumer_id +:+ "/" +:+ consumer_assumption_id e in
  match dget supplier_id by_id, dget consumer_id by_id with
  | Some supplier, Some _ =>
      assumption ← of_option (GraphError "unresolved-interface-assumption"
          (consumer_id +:+ " has no assumption " +:+ consumer_assumption_id e))
        (dget key assumptions);
      _ ← require (negb (bool_decide (key ∈ supplied_assumptions st)))
            (GraphError "multiply-supplied-interface-assumption" (slot +:+ " has multiple suppliers"));
      _ ← require (bool_decide (node_provided_interface supplier = na_interface assumption))
            (GraphError "canonical-interface-mismatch"
               (supplier_id +:+ " does not provide the exact canonical bytes assumed by " +:+ slot));
      let supplied := supplied_assumptions st ++ [key] in
      let consumers := dget_list supplier_id (adjacency st) in
      if bool_decide (consumer_id ∈ consumers)
      then Ok (MkEdgeState supplied (adjacency st) (indegree st))
      else Ok (MkEdgeState supplied (dappend supplier_id consumer_id (adjacency st))
                 (dset consumer_id (default 0 (dget consumer_id (indegree st)) + 1) (indegree st)))
  | _, _ =>
      Raise (GraphError "unresolved-edge-node"
               ("edge " +:+ supplier_id +:+ " -> " +:+ consumer_id +:+ " does not resolve"))
  end.

Definition initial_edge_state (nodes : list Node) : EdgeState :=
  MkEdgeState [] (dict_of ((λ id, (id, [])) <$> node_ids nodes))
    (dict_of ((λ id, (id, 0)) <$> node_ids nodes)).

(** The body of [for consumer_id in sorted(adjacency[node_id])]; [ready] is a heap. *)
Definition relax (st : dict string Z * list string) (consumer_id : string) :
    dict string Z * list string :=
  let '(degrees, ready) := st in
  let degree := default 0 (dget consumer_id degrees) - 1 in
  (dset consumer_id degree degrees,
   if degree =? 0 then insert_by str_leb consumer_id ready else ready).

(** [while ready: ...]. *)
Fixpoint kahn (fuel : nat) (adj : dict string (list string)) (degrees : dict string Z)
    (ready order : list string) : option (list string) :=
  match ready with
  | [] => Some order
  | id :: ready =>
      match fuel with
      | O => None
      | S fuel =>
          let '(degrees, ready) :=
            foldl relax (degrees, ready) (sort_by str_leb (dget_list id adj)) in
          kahn fuel adj degrees ready (order ++ [id])
      end
  end.

Definition initially_ready (degrees : dict string Z) : list string :=
  sort_by str_leb (dkeys (filter (λ '(_, degree), degree = 0) degrees)).

Definition reverse_adjacency (ids : list string) (adj : dict string (list string)) :
    dict string (list string) :=
  foldl (λ reverse '(supplier_id, consumer_ids),
    foldl (λ reverse consumer_id, dappend consumer_id supplier_id reverse) reverse consumer_ids)
    (dict_of ((λ id, (id, [])) <$> ids)) adj.

(** The body of the loop over the suppliers; [frontier] is a stack. *)
Definition visit (st : list string * list string) (supplier_id : string) :
    list string * list string :=
  let '(reaches, frontier) := st in
  if bool_decide (supplier_id ∈ reaches) then st
  else (reaches ++ [supplier_id], supplier_id :: frontier).

(** [while frontier: ...]. *)
Fixpoint closure (fuel : nat) (reverse : dict string (list string))
    (reaches frontier : list string) : option (list string) :=
  match frontier with
  | [] => Some reaches
  | consumer_id :: frontier =>
      match fuel with
      | O => None
      | S fuel =>
          let '(reaches, frontier) :=
            foldl visit (reaches, frontier) (dget_list consumer_id reverse) in
          closure fuel reverse reaches frontier
      end
  end.

(** The checks before the two [while] loops. *)
Definition verify_edges (g : ProofBaseReceiptGraphV1) : result Exn (dict string string * EdgeState) :=
  let nodes := graph_nodes g in
  let terminal := graph_terminal_node_id g in
  _ ← require (bool_decide (graph_schema_id g = PROOF_BASE_RECEIPT_GRAPH_SCHEMA_V1))
        (GraphError "invalid-schema" ("expected " +:+ PROOF_BASE_RECEIPT_GRAPH_SCHEMA_V1));
  _ ← require (negb (length nodes =? 0)%nat)
        (GraphError "empty-receipt-graph"
           "the receipt graph must contain at least one accepted node");
  let by_id := nodes_by_id nodes in
  _ ← require (length by_id =? length nodes)%nat
        (GraphError "duplicate-node-id" "receipt node identities must be unique");
  _ ← require (dmem terminal by_id)
        (GraphError "unresolved-terminal-node"
           ("terminal node " +:+ terminal +:+ " does not exist"));
  owners ← declaration_owners nodes;
  let assumptions := assumptions_of nodes in
  st ← foldM (add_edge by_id assumptions) (initial_edge_state nodes) (graph_edges g);
  _ ← (match sort_by (pair_leb str_leb str_leb)
               (filter (λ key, key ∉ supplied_assumptions st) (dkeys assumptions)) with
       | [] => Ok ()
       | (consumer, assumption_id) :: _ =>
           Raise (GraphError "unresolved-interface-assumption"
                    (consumer +:+ "/" +:+ assumption_id +:+ " has no supplier edge"))
       end);
  _ ← require (bool_decide (dget_list terminal (adjacency st) = []))
        (GraphError "terminal-node-has-consumer"
           ("terminal node " +:+ terminal +:+ " must be a sink"));
  Ok (owners, st).

(** [verify]; the number of nodes is enough fuel for both loops. *)
Definition verify (g : ProofBaseReceiptGraphV1) :
    option (result Exn VerifiedCompositionReceiptV1) :=
  match verify_edges g with
  | Raise e => Some (Raise e)
  | Ok (owners, st) =>
      let ids := node_ids (graph_nodes g) in
      let terminal := graph_terminal_node_id g in
      order ← kahn (length ids) (adjacency st) (indegree st) (initially_ready (indegree st)) [];
      if negb (length order =? length ids)%nat
      then Some (Raise (GraphError "cyclic-receipt-graph" "receipt dependencies must form a DAG"))
      else
        reaches ← closure (length ids) (reverse_adjacency ids (adjacency st)) [terminal] [terminal];
        Some (match sort_by str_leb (filter (λ id, id ∉ reaches) ids) with
              | id :: _ =>
                  Raise (GraphError "node-outside-terminal-closure"
                           ("node " +:+ id +:+ " does not contribute to terminal " +:+ terminal))
              | [] =>
                  digest ← graph_digest g;
                  Ok (CompositionReceipt VERIFIED_COMPOSITION_RECEIPT_SCHEMA_V1 digest terminal
                        order (Z.of_nat (length ids)) (Z.of_nat (length (graph_edges g)))
                        (Z.of_nat (length owners)))
              end)
  end.
End graph.
