(* ===== verification/ReceiptGraphFacts.v ===== *)
(** * The checks of [verify] decide what they mean to

    Kahn's algorithm orders the nodes exactly when the graph has no cycle, the
    closure finds exactly the nodes that reach the terminal, and a graph passes
    [verify] exactly when it satisfies the specification [GraphSpec]. *)

From Stdlib Require Import Ascii.
From S2P Require Import Prelude PyDict GraphTypes Merkle EvidenceModel Sort ReceiptGraph.

(** ** Counting *)

(** Two filters that differ in one element. *)
Lemma filter_one_more {A} `{EqDecision A} (P Q : A → Prop) `{∀ x, Decision (P x)}
    `{∀ x, Decision (Q x)} (x : A) (l : list A) :
  NoDup l → x ∈ l → ¬ P x → Q x → (∀ y, y ≠ x → P y ↔ Q y) →
  length (filter Q l) = S (length (filter P l)).
Proof.
  intros Hnd Hx HP HQ Hpq. induction Hnd as [|y l Hy Hl IH]; [by apply not_elem_of_nil in Hx|].
  rewrite !filter_cons. apply elem_of_cons in Hx as [<-|Hx].
  - rewrite decide_True, decide_False by done. simpl. f_equal. f_equal.
    apply filter_ext_elem. intros z Hz. symmetry. apply Hpq. intros ->. done.
  - assert (y ≠ x) as Hne by (intros ->; done).
    destruct (decide (Q y)) as [Hq|Hq]; destruct (decide (P y)) as [Hp|Hp];
      try (exfalso; apply Hpq in Hne; tauto); simpl; rewrite IH; done.
Qed.

(** A list without duplicates in a list that is not longer is a permutation of it. *)
Lemma NoDup_subset_perm {A} `{EqDecision A} (l k : list A) :
  NoDup l → (∀ x, x ∈ l → x ∈ k) → (length k ≤ length l)%nat → l ≡ₚ k.
Proof. intros Hl Hsub Hlen. apply submseteq_length_Permutation; [|done]. by apply NoDup_submseteq. Qed.

(** ** Kahn's algorithm *)

Section kahn.
Context (ids : list string) (adj : dict string (list string)).
Context (Hids : NoDup ids).
Context (Hsub : ∀ u v, v ∈ dget_list u adj → v ∈ ids) (Hnd : ∀ u, NoDup (dget_list u adj)).

(** [u] supplies [v]. *)
Definition supplies (u v : string) : Prop := u ∈ ids ∧ v ∈ dget_list u adj.

(** The suppliers of [v] that are not in [order] yet. *)
Definition waiting (order : list string) (v : string) : nat :=
  length (filter (λ u, u ∉ order ∧ v ∈ dget_list u adj) ids).

Definition topological (order : list string) : Prop :=
  ∀ i u v, order !! i = Some v → supplies u v → u ∈ take i order.

Record KahnInv (degrees : dict string Z) (ready order : list string) : Prop := {
  ki_nodup : NoDup (order ++ ready);
  ki_sub v : v ∈ order ++ ready → v ∈ ids;
  ki_degrees v : v ∈ ids → dget v degrees = Some (Z.of_nat (waiting order v));
  ki_ready v : v ∈ ids → v ∈ order ++ ready ↔ waiting order v = 0%nat;
  ki_topological : topological order
}.

Lemma waiting_0 order v : waiting order v = 0%nat ↔ ∀ u, supplies u v → u ∈ order.
Proof.
  unfold waiting. rewrite filter_length_0. unfold supplies. split.
  - intros H u [Hu Hv]. destruct (decide (u ∈ order)); [done|]. by destruct (H u Hu).
  - intros H u Hu [Hn Hv]. by apply Hn, H.
Qed.

Lemma waiting_snoc order id v : id ∈ ids → id ∉ order →
  waiting order v = (waiting (order ++ [id]) v + if decide (v ∈ dget_list id adj) then 1 else 0)%nat.
Proof.
  intros Hid Hno. unfold waiting. destruct (decide (v ∈ dget_list id adj)) as [Hv|Hv].
  - rewrite Nat.add_1_r. apply filter_one_more with (x := id); [done|done| |done|].
    + intros [Hn _]. apply Hn, elem_of_app. right. by left.
    + intros u Hu. rewrite elem_of_app, list_elem_of_singleton. tauto.
  - rewrite Nat.add_0_r. f_equal. apply filter_ext_elem. intros u _.
    rewrite elem_of_app, list_elem_of_singleton. split; [|tauto].
    intros [Hn Hu]. split; [|done]. intros [?| ->]; done.
Qed.

(** The inner loop. *)
Lemma relax_all L : NoDup L → ∀ degrees ready c,
  (∀ v, v ∈ L → v ∈ ids) → (∀ v, v ∈ ids → dget v degrees = Some (Z.of_nat (c v))) →
  (∀ v, v ∈ L → (1 ≤ c v)%nat) →
  ∃ degrees' ready', foldl relax (degrees, ready) L = (degrees', ready') ∧
    (∀ v, v ∈ ids →
       dget v degrees' = Some (Z.of_nat (c v - if decide (v ∈ L) then 1 else 0)%nat)) ∧
    ready' ≡ₚ ready ++ filter (λ v, c v = 1%nat) L.
Proof.
  induction 1 as [|x L Hx HL IH]; intros degrees ready c Hin Hd Hc.
  { exists degrees, ready. split_and!; [done| |by rewrite app_nil_r].
    intros v Hv. rewrite decide_False by apply not_elem_of_nil. by rewrite Nat.sub_0_r, Hd. }
  assert (x ∈ ids) as Hxi by (apply Hin; by left).
  assert (1 ≤ c x)%nat as Hcx by (apply Hc; by left).
  cbn [foldl]. unfold relax at 2. rewrite (Hd x Hxi). simpl default.
  destruct (IH (dset x (Z.of_nat (c x) - 1) degrees)
    (if Z.of_nat (c x) - 1 =? 0 then insert_by str_leb x ready else ready)
    (λ v, if decide (v = x) then (c x - 1)%nat else c v)) as (degrees' & ready' & -> & Hd' & Hr').
  - intros v Hv. apply Hin. by right.
  - intros v Hv. rewrite dget_dset. destruct (decide (v = x)) as [->|Hne]; [|by apply Hd].
    do 2 f_equal. lia.
  - intros v Hv. rewrite decide_False by (intros ->; done). apply Hc. by right.
  - exists degrees', ready'. split_and!; [done| |].
    + intros v Hv. rewrite Hd' by done. do 2 f_equal.
      destruct (decide (v = x)) as [->|Hne].
      * rewrite (decide_False (P:=x ∈ L)) by done. rewrite decide_True by by left. lia.
      * destruct (decide (v ∈ L)) as [Hv'|Hv'];
          [by rewrite decide_True by by right|rewrite (decide_False (P:=v ∈ x :: L)); [done|]].
        by intros [?|?]%elem_of_cons.
    + rewrite Hr'. rewrite filter_cons.
      replace (filter (λ v, (if decide (v = x) then (c x - 1)%nat else c v) = 1%nat) L)
        with (filter (λ v, c v = 1%nat) L).
      2:{ apply filter_ext_elem. intros v Hv. by rewrite decide_False by (intros ->; done). }
      destruct (decide (c x = 1%nat)) as [->|Hne].
      * simpl (Z.of_nat 1 - 1 =? 0). cbv iota. rewrite insert_by_perm. simpl.
        by rewrite <-Permutation_middle.
      * assert (Z.of_nat (c x) - 1 =? 0 = false) as -> by (apply Z.eqb_neq; lia). done.
Qed.

Lemma kahn_step degrees id ready order :
  KahnInv degrees (id :: ready) order →
  ∃ degrees' ready',
    foldl relax (degrees, ready) (sort_by str_leb (dget_list id adj)) = (degrees', ready') ∧
    KahnInv degrees' ready' (order ++ [id]).
Proof.
  intros [Hnodup Hin Hdeg Hready Htop].
  assert (id ∈ ids) as Hid by (apply Hin, elem_of_app; right; by left).
  assert (id ∉ order) as Hno.
  { intros H. apply NoDup_app in Hnodup as (_ & Hdis & _). apply (Hdis id H). by left. }
  set (L := sort_by str_leb (dget_list id adj)).
  assert (∀ v, v ∈ L ↔ v ∈ dget_list id adj) as HL by (intros v; apply elem_of_sort_by).
  assert (∀ v, waiting order v = (waiting (order ++ [id]) v + if decide (v ∈ L) then 1 else 0)%nat)
    as Hw.
  { intros v. rewrite (waiting_snoc order id v Hid Hno). f_equal.
    destruct (decide (v ∈ L)) as [H|H]; rewrite HL in H;
      [by rewrite decide_True|by rewrite decide_False]. }
  destruct (relax_all L) with (degrees := degrees) (ready := ready) (c := waiting order)
    as (degrees' & ready' & Hfold & Hd' & Hr').
  - unfold L. by rewrite sort_by_perm.
  - intros v Hv. apply (Hsub id). by apply HL.
  - done.
  - intros v Hv. rewrite Hw, decide_True by done. lia.
  - exists degrees', ready'. split; [done|].
    assert ((order ++ [id]) ++ ready' ≡ₚ (order ++ id :: ready) ++
              filter (λ v, waiting order v = 1%nat) L) as Hperm
      by (rewrite Hr', <-!app_assoc; done).
    split.
    + rewrite Hperm. apply NoDup_app. split_and!; [done| |].
      * intros v Hv Hf. apply list_elem_of_filter in Hf as [Hf _].
        apply Hready in Hv; [lia|by apply Hin].
      * apply NoDup_filter. unfold L. by rewrite sort_by_perm.
    + intros v. rewrite Hperm, elem_of_app, list_elem_of_filter.
      intros [?|[_ Hv]]; [by apply Hin|]. apply (Hsub id). by apply HL.
    + intros v Hv. rewrite Hd' by done. rewrite Hw. do 2 f_equal. lia.
    + intros v Hv. rewrite Hperm, elem_of_app, list_elem_of_filter, Hready by done.
      specialize (Hw v). destruct (decide (v ∈ L)); [|split; [intros [?|[_ ?]]; [lia|done]|lia]].
      split; [intros [?|[? _]]; lia|]. intros ?. right. split; [lia|done].
    + intros i u v Hi Hs. apply lookup_app_Some in Hi as [Hi|[Hi Hv]].
      * apply lookup_lt_Some in Hi as Hlt. rewrite take_app_le by lia. by eapply Htop.
      * apply list_lookup_singleton_Some in Hv as [Hz <-].
        rewrite take_app_le by lia. rewrite firstn_all2 by lia.
        assert (waiting order id = 0%nat) as H0.
        { apply Hready; [done|]. apply elem_of_app. right. by left. }
        by apply (proj1 (waiting_0 order id) H0).
Qed.

Lemma kahn_spec fuel degrees ready order :
  KahnInv degrees ready order → (length ids ≤ fuel + length order)%nat →
  ∃ degrees' order', kahn fuel adj degrees ready order = Some order' ∧ KahnInv degrees' [] order'.
Proof.
  revert degrees ready order; induction fuel as [|fuel IH]; intros degrees [|id ready] order Hk Hf;
    simpl; try by eauto.
  - exfalso. pose proof (NoDup_submseteq _ ids (ki_nodup _ _ _ Hk) (ki_sub _ _ _ Hk)) as H.
    apply submseteq_length in H. rewrite length_app in H. simpl in H. lia.
  - destruct (kahn_step _ _ _ _ Hk) as (degrees' & ready' & -> & Hk').
    apply (IH _ _ _ Hk'). rewrite length_app. simpl. lia.
Qed.

(** The order is complete exactly when the graph has no cycle. *)
Lemma kahn_acyclic degrees order :
  KahnInv degrees [] order → (length order = length ids ↔ well_founded supplies).
Proof.
  intros [Hnodup Hin _ Hready Htop]. rewrite app_nil_r in *. split.
  - intros Hlen.
    assert (order ≡ₚ ids) as Hperm by (apply NoDup_subset_perm; [done|done|lia]).
    assert (∀ i v, order !! i = Some v → Acc supplies v) as Hacc.
    { intros i; induction i as [i IH] using lt_wf_ind. intros v Hi. constructor. intros u Hs.
      pose proof (Htop i u v Hi Hs) as Hu. apply list_elem_of_lookup in Hu as [j Hj].
      apply lookup_take_Some in Hj as [Hj Hlt]. by apply (IH j). }
    intros v. constructor. intros u [Hu _]. rewrite <-Hperm in Hu.
    apply list_elem_of_lookup in Hu as [i Hi]. by eapply Hacc.
  - intros Hwf. apply Permutation_length, NoDup_subset_perm; [done|done|].
    enough (∀ v, v ∈ ids → v ∈ order) as Hall.
    { apply submseteq_length, NoDup_submseteq; [done|]. intros v Hv. by apply Hall. }
    intros v; induction v as [v IH] using (well_founded_ind Hwf). intros Hv.
    apply Hready; [done|]. apply waiting_0. intros u Hs.
    apply IH; [done|]. apply Hs.
Qed.
End kahn.

(** ** The closure *)

Section closure.
Context (ids : list string) (reverse : dict string (list string)).
Context (Hids : NoDup ids) (Hsub : ∀ u v, u ∈ dget_list v reverse → u ∈ ids).

(** One step backwards along an edge. *)
Definition back (v u : string) : Prop := u ∈ dget_list v reverse.

(** What can be reached from the starting points. *)
Definition reachable (start : string → Prop) (u : string) : Prop := ∃ s, start s ∧ rtc back s u.

Record ClosureInv (start : string → Prop) (reaches frontier : list string) : Prop := {
  co_nodup : NoDup reaches;
  co_frontier_nodup : NoDup frontier;
  co_frontier u : u ∈ frontier → u ∈ reaches;
  co_sub u : u ∈ reaches → u ∈ ids;
  co_start s : start s → s ∈ reaches;
  co_sound u : u ∈ reaches → reachable start u;
  co_closed u v : v ∈ reaches → v ∉ frontier → back v u → u ∈ reaches
}.

Lemma visit_all L : ∀ reaches frontier,
  NoDup reaches → NoDup frontier → (∀ u, u ∈ frontier → u ∈ reaches) →
  ∃ reaches' frontier', foldl visit (reaches, frontier) L = (reaches', frontier') ∧
    NoDup reaches' ∧ NoDup frontier' ∧
    (∀ u, u ∈ frontier' → u ∈ reaches') ∧
    (∀ u, u ∈ reaches' ↔ u ∈ reaches ∨ u ∈ L) ∧
    (∀ u, u ∈ frontier' ↔ u ∈ frontier ∨ (u ∈ L ∧ u ∉ reaches)) ∧
    (length reaches' + length frontier = length reaches + length frontier')%nat.
Proof.
  induction L as [|x L IH]; intros reaches frontier Hr Hf Hsubf; cbn [foldl].
  { exists reaches, frontier. split_and!; try done; intros u;
      pose proof (not_elem_of_nil u); tauto. }
  unfold visit at 2. case_bool_decide as Hx.
  - destruct (IH reaches frontier Hr Hf Hsubf) as (r' & f' & -> & H1 & H2 & H3 & H4 & H5 & H6).
    exists r', f'. split_and!; try done; intros u; rewrite ?H4, ?H5, elem_of_cons.
    + split; [tauto|]. intros [?|[->|?]]; tauto.
    + split; [tauto|]. intros [?|[[->|?] ?]]; tauto.
  - destruct (IH (reaches ++ [x]) (x :: frontier)) as (r' & f' & -> & H1 & H2 & H3 & H4 & H5 & H6).
    + apply NoDup_app. split_and!; [done| |apply NoDup_singleton].
      intros y Hy ->%list_elem_of_singleton. done.
    + constructor; [|done]. intros H. by apply Hx, Hsubf.
    + intros u [->|Hu]%elem_of_cons; apply elem_of_app; [right; by left|left; by apply Hsubf].
    + exists r', f'. rewrite length_app in H6. simpl in H6. split_and!; try done; [..|lia]; intros u.
      * rewrite H4, elem_of_app, list_elem_of_singleton, elem_of_cons. tauto.
      * rewrite H5, elem_of_app, list_elem_of_singleton, !elem_of_cons.
        destruct (decide (u = x)) as [->|]; tauto.
Qed.

(** An empty frontier: everything that can be reached was. *)
Lemma closure_end start reaches :
  ClosureInv start reaches [] → ∀ u, u ∈ reaches ↔ reachable start u.
Proof.
  intros Hc u. split; [by apply (co_sound _ _ _ Hc)|].
  assert (∀ w, rtc back w u → w ∈ reaches → u ∈ reaches) as H.
  { induction 1 as [|w x y Hwx _ IHr]; [done|]. intros Hw.
    apply IHr, (co_closed _ _ _ Hc x w); [done|apply not_elem_of_nil|done]. }
  intros (s & Hs & Hu). apply (H s); [done|by apply (co_start _ _ _ Hc)].
Qed.

Lemma closure_spec start fuel reaches frontier :
  ClosureInv start reaches frontier →
  (length ids + length frontier ≤ fuel + length reaches)%nat →
  ∃ reaches', closure fuel reverse reaches frontier = Some reaches' ∧
    NoDup reaches' ∧ (∀ u, u ∈ reaches' → u ∈ ids) ∧ ∀ u, u ∈ reaches' ↔ reachable start u.
Proof.
  revert reaches frontier; induction fuel as [|fuel IH]; intros reaches [|v frontier] Hc Hf; simpl.
  1, 3: exists reaches; (split_and!; [done|apply Hc..|by apply closure_end]).
  - exfalso. pose proof (NoDup_submseteq _ ids (co_nodup _ _ _ Hc) (co_sub _ _ _ Hc)) as H.
    apply submseteq_length in H. simpl in Hf. lia.
  - destruct Hc as [Hnd Hfnd Hfr Hin Ht Hsound Hclosed]. apply NoDup_cons in Hfnd as [Hv Hfnd].
    destruct (visit_all (dget_list v reverse) reaches frontier Hnd Hfnd)
      as (r' & f' & -> & H1 & H2 & H3 & H4 & H5 & H6); [intros u Hu; apply Hfr; by right|].
    assert (v ∈ reaches) as Hvr by (apply Hfr; by left).
    apply IH; [split|]; try done.
    + intros u [Hu|Hu]%H4; [by apply Hin|by eapply Hsub].
    + intros s Hs. apply H4. left. by apply Ht.
    + intros u [Hu|Hu]%H4; [by apply Hsound|]. destruct (Hsound v Hvr) as (s & Hs & Hsv).
      exists s. split; [done|]. by eapply rtc_r.
    + intros u w Hw Hnf Hb. apply H4.
      apply H4 in Hw as [Hw|Hw].
      * destruct (decide (w = v)) as [->|Hne]; [by right|]. left. apply (Hclosed u w Hw); [|done].
        rewrite elem_of_cons. intros [?|Hwf]; [done|]. apply Hnf, H5. by left.
      * destruct (decide (w ∈ reaches)) as [Hwr|Hwr].
        -- destruct (decide (w = v)) as [->|Hne]; [by right|]. left.
           apply (Hclosed u w Hwr); [|done]. rewrite elem_of_cons. intros [?|Hwf]; [done|].
           apply Hnf, H5. by left.
        -- destruct Hnf. apply H5. by right.
    + simpl in Hf. lia.
Qed.
End closure.

(** ** Dictionaries built from lists *)

Lemma elem_of_dkeys_dict_of {K V} `{EqDecision K} (l : list (K * V)) k :
  k ∈ dkeys (dict_of l) ↔ k ∈ l.*1.
Proof.
  unfold dict_of. rewrite elem_of_dkeys_dupdate. pose proof (not_elem_of_nil k). unfold dkeys. simpl.
  tauto.
Qed.

Lemma dict_of_length {V} (l : list (string * V)) :
  length (dict_of l) = length l ↔ NoDup l.*1.
Proof.
  split.
  - intros H. assert (dkeys (dict_of l) ≡ₚ l.*1) as <-; [|apply dict_of_wf].
    apply NoDup_subset_perm; [apply dict_of_wf|intros k; by apply elem_of_dkeys_dict_of|].
    unfold dkeys. rewrite !length_fmap. lia.
  - intros H. by rewrite dict_of_id.
Qed.

(** A dictionary that maps every id to one value. *)
Lemma dget_constant {V} (ids : list string) (x : V) k :
  dget k (dict_of ((λ id, (id, x)) <$> ids)) = if decide (k ∈ ids) then Some x else None.
Proof.
  assert (k ∈ dkeys (dict_of ((λ id, (id, x)) <$> ids)) ↔ k ∈ ids) as Hk.
  { rewrite elem_of_dkeys_dict_of, <-list_fmap_compose. unfold compose. simpl.
    by rewrite list_fmap_id. }
  destruct (dget k _) as [y|] eqn:E.
  - rewrite decide_True by (apply Hk, dget_is_Some; by eexists).
    apply dget_dict_of, list_elem_of_fmap in E as (id & [= _ ->] & _). done.
  - rewrite decide_False; [done|]. intros H. apply Hk, dget_is_Some in H as [y Hy]. congruence.
Qed.

Lemma dget_dict_of_wf {K V} `{EqDecision K} (l : list (K * V)) k v :
  NoDup l.*1 → dget k (dict_of l) = Some v ↔ (k, v) ∈ l.
Proof.
  intros Hl. rewrite dict_of_id by done. split; [apply dget_Some_elem|by apply dget_elem_wf].
Qed.

Lemma has_duplicates_false {A} `{EqDecision A} (l : list A) :
  negb (has_duplicates l) = true ↔ NoDup l.
Proof.
  unfold has_duplicates. rewrite negb_involutive, Nat.eqb_eq. split.
  - intros H. assert (remove_dups l ≡ₚ l) as <-; [|apply NoDup_remove_dups].
    apply NoDup_subset_perm; [apply NoDup_remove_dups|intros x; apply elem_of_remove_dups|lia].
  - intros H. apply Permutation_length, NoDup_Permutation; [apply NoDup_remove_dups|done|].
    intros x. apply elem_of_remove_dups.
Qed.

(** ** What a correct graph is *)

Section spec.
#[local] Notation Node := AcceptedProofBaseReceiptNodeV1.
#[local] Notation Edge := ReceiptInterfaceEdgeV1.

Definition slot (e : Edge) : string * string := (consumer_node_id e, consumer_assumption_id e).

(** The edge joins two nodes, and the supplier provides the exact interface
    that the named assumption of the consumer asks for. *)
Definition exact_supply (nodes : list Node) (e : Edge) : Prop :=
  ∃ s c a, s ∈ nodes ∧ c ∈ nodes ∧ a ∈ node_assumed_interfaces c ∧
    node_id s = supplier_node_id e ∧ node_id c = consumer_node_id e ∧
    na_assumption_id a = consumer_assumption_id e ∧
    node_provided_interface s = na_interface a.

Definition depends (edges : list Edge) (u v : string) : Prop :=
  ∃ e, e ∈ edges ∧ supplier_node_id e = u ∧ consumer_node_id e = v.

Record GraphSpec (g : ProofBaseReceiptGraphV1) : Prop := {
  gs_schema : graph_schema_id g = PROOF_BASE_RECEIPT_GRAPH_SCHEMA_V1;
  gs_node_ids : NoDup (node_ids (graph_nodes g));
  gs_terminal : graph_terminal_node_id g ∈ node_ids (graph_nodes g);
  gs_owners : NoDup (graph_nodes g ≫= node_root_declarations);
  gs_edges e : e ∈ graph_edges g → exact_supply (graph_nodes g) e;
  gs_once : NoDup (slot <$> graph_edges g);
  gs_supplied n a : n ∈ graph_nodes g → a ∈ node_assumed_interfaces n →
    (node_id n, na_assumption_id a) ∈ slot <$> graph_edges g;
  gs_sink e : e ∈ graph_edges g → supplier_node_id e ≠ graph_terminal_node_id g;
  gs_acyclic : well_founded (depends (graph_edges g));
  gs_closure id : id ∈ node_ids (graph_nodes g) →
    rtc (depends (graph_edges g)) id (graph_terminal_node_id g)
}.

(** What [AcceptedProofBaseReceiptNodeV1.__post_init__] leaves behind. *)
Definition constructed (n : Node) : Prop := ∃ m, mk_node m = Ok n.

Lemma constructed_assumptions n :
  constructed n → NoDup (na_assumption_id <$> node_assumed_interfaces n).
Proof.
  intros [m Hm]. unfold mk_node in Hm. inv_result. by apply has_duplicates_false.
Qed.

(** *** Owners of declarations *)

Lemma add_owners node l : ∀ owners,
  dict_wf owners →
  (is_ok (foldM (add_owner node) owners l) = true ↔ NoDup (dkeys owners ++ l)) ∧
  (∀ owners', foldM (add_owner node) owners l = Ok owners' →
     dict_wf owners' ∧ dkeys owners' = dkeys owners ++ l).
Proof.
  induction l as [|d l IH]; intros owners Hwf; cbn [foldM].
  { rewrite app_nil_r. split; [done|]. by intros ? [= <-]. }
  destruct (dget d owners) as [o|] eqn:Ed.
  - assert (∃ e, add_owner node owners d = Raise e) as [e ->]
      by (unfold add_owner; rewrite Ed; by eexists).
    split; [|done]. split; [done|]. intros H. exfalso.
    apply NoDup_app in H as (_ & H & _). apply (H d); [|by left]. apply dget_is_Some. by eexists.
  - assert (add_owner node owners d = Ok (dset d (node_id node) owners)) as ->
      by (unfold add_owner; by rewrite Ed).
    cbn [mbind result_bind].
    destruct (IH (dset d (node_id node) owners)) as [H1 H2]; [by apply dset_wf|].
    assert (dkeys (dset d (node_id node) owners) = dkeys owners ++ [d]) as Hk.
    { rewrite dkeys_dset. unfold dmem. by rewrite Ed. }
    rewrite Hk in H1, H2. rewrite <-app_assoc in H1. split; [done|].
    intros owners' Ho. apply H2 in Ho as [? Ho]. by rewrite <-app_assoc in Ho.
Qed.

Lemma declaration_owners_from nodes : ∀ owners,
  dict_wf owners →
  (is_ok (foldM (λ owners node, foldM (add_owner node) owners (node_root_declarations node))
     owners nodes) = true ↔ NoDup (dkeys owners ++ (nodes ≫= node_root_declarations))) ∧
  (∀ owners', foldM (λ owners node, foldM (add_owner node) owners (node_root_declarations node))
     owners nodes = Ok owners' → dkeys owners' = dkeys owners ++ (nodes ≫= node_root_declarations)).
Proof.
  induction nodes as [|node nodes IH]; intros owners Hwf; cbn [foldM].
  { cbn. rewrite app_nil_r. split; [done|]. by intros ? [= <-]. }
  change ((node :: nodes) ≫= node_root_declarations)
    with (node_root_declarations node ++ (nodes ≫= node_root_declarations)).
  destruct (add_owners node (node_root_declarations node) owners Hwf) as [H1 H2].
  destruct (foldM (add_owner node) owners _) as [owners1|e] eqn:E; cbn [mbind result_bind].
  - destruct (H2 owners1) as [Hwf1 Hk1]; [done|]. destruct (IH owners1 Hwf1) as [H3 H4].
    rewrite Hk1, <-app_assoc in H3. split; [done|]. intros owners' Ho.
    by rewrite (H4 _ Ho), Hk1, <-app_assoc.
  - split; [|done]. split; [done|]. intros H. rewrite app_assoc in H.
    apply NoDup_app in H as (H & _ & _). by apply H1 in H.
Qed.

Lemma declaration_owners_spec nodes :
  (is_ok (declaration_owners nodes) = true ↔ NoDup (nodes ≫= node_root_declarations)) ∧
  (∀ owners, declaration_owners nodes = Ok owners →
     dkeys owners = nodes ≫= node_root_declarations).
Proof. apply (declaration_owners_from nodes []). apply NoDup_nil_2. Qed.

(** *** The loop over the edges *)

Section edges.
Context (by_id : dict string Node) (asm : dict AssumptionKey NamedInterfaceAssumptionV1).

(** The edge passes the checks that do not depend on the edges before it. *)
Definition edge_resolves (e : Edge) : Prop :=
  ∃ s c a, dget (supplier_node_id e) by_id = Some s ∧ dget (consumer_node_id e) by_id = Some c ∧
    dget (slot e) asm = Some a ∧ node_provided_interface s = na_interface a.

Definition edge_next (st : EdgeState) (e : Edge) : EdgeState :=
  let supplied := supplied_assumptions st ++ [slot e] in
  let s := supplier_node_id e in
  let c := consumer_node_id e in
  if bool_decide (c ∈ dget_list s (adjacency st))
  then MkEdgeState supplied (adjacency st) (indegree st)
  else MkEdgeState supplied (dappend s c (adjacency st))
         (dset c (default 0 (dget c (indegree st)) + 1) (indegree st)).

Lemma add_edge_Ok st e st' :
  add_edge by_id asm st e = Ok st' ↔
  edge_resolves e ∧ slot e ∉ supplied_assumptions st ∧ st' = edge_next st e.
Proof.
  unfold add_edge, edge_resolves, edge_next. fold (slot e).
  destruct (dget (supplier_node_id e) by_id) as [s|];
    [|split; [done|intros ((?&?&?&?&?&?&?)&_); congruence]].
  destruct (dget (consumer_node_id e) by_id) as [c|];
    [|split; [done|intros ((?&?&?&?&?&?&?)&_); congruence]].
  destruct (dget (slot e) asm) as [a|];
    [|split; [done|intros ((?&?&?&?&?&?&?)&_); congruence]].
  cbn [of_option mbind result_bind].
  destruct (decide (slot e ∈ supplied_assumptions st)) as [Hin|Hin].
  { rewrite (bool_decide_eq_true_2 _ Hin). split; [done|]. by intros (_ & ? & _). }
  rewrite (bool_decide_eq_false_2 _ Hin). cbn [negb require mbind result_bind].
  destruct (decide (node_provided_interface s = na_interface a)) as [Hi|Hi].
  - rewrite (bool_decide_eq_true_2 _ Hi). cbn [require mbind result_bind].
    case_bool_decide; (split; [intros [= <-]; split_and!; [by exists s, c, a|done|done]|
                               by intros (_ & _ & ->)]).
  - rewrite (bool_decide_eq_false_2 _ Hi). split; [done|].
    intros ((s' & c' & a' & [= <-] & [= <-] & [= <-] & ?) & _); done.
Qed.

Lemma edge_next_supplied st e :
  supplied_assumptions (edge_next st e) = supplied_assumptions st ++ [slot e].
Proof. unfold edge_next. by case_bool_decide. Qed.

Lemma add_edges_Ok edges : ∀ st st',
  NoDup (supplied_assumptions st) →
  foldM (add_edge by_id asm) st edges = Ok st' ↔
  Forall edge_resolves edges ∧ NoDup (supplied_assumptions st ++ (slot <$> edges)) ∧
  st' = foldl edge_next st edges.
Proof.
  induction edges as [|e edges IH]; intros st st' Hnd; cbn [foldM].
  { rewrite app_nil_r. split; [intros [= <-]; split_and!; constructor || done|by intros (_ & _ & ->)]. }
  rewrite bind_Ok. setoid_rewrite add_edge_Ok. rewrite Forall_cons.
  assert (slot e ∉ supplied_assumptions st → NoDup (supplied_assumptions (edge_next st e))) as Hn.
  { intros H. rewrite edge_next_supplied. apply NoDup_app. split_and!; [done| |apply NoDup_singleton].
    by intros x Hx ->%list_elem_of_singleton. }
  split.
  - intros (? & (He & Hs & ->) & Hf). apply IH in Hf as (H1 & H2 & ->); [|by apply Hn].
    rewrite edge_next_supplied, <-app_assoc in H2. done.
  - intros ([He H1] & H2 & ->). assert (slot e ∉ supplied_assumptions st) as Hs.
    { intros Hin. apply NoDup_app in H2 as (_ & H2 & _). apply (H2 _ Hin). by left. }
    exists (edge_next st e). split; [done|]. apply IH; [by apply Hn|].
    rewrite edge_next_supplied, <-app_assoc. done.
Qed.
End edges.

Record EdgeInv (ids : list string) (edges : list Edge) (st : EdgeState) : Prop := {
  ei_supplied : supplied_assumptions st = slot <$> edges;
  ei_adjacency_keys : dkeys (adjacency st) = ids;
  ei_indegree_keys : dkeys (indegree st) = ids;
  ei_adjacency u v : v ∈ dget_list u (adjacency st) ↔ depends edges u v;
  ei_nodup u : NoDup (dget_list u (adjacency st));
  ei_indegree v : v ∈ ids →
    dget v (indegree st) = Some (Z.of_nat (waiting ids (adjacency st) [] v))
}.

Lemma depends_snoc edges e u v :
  depends (edges ++ [e]) u v ↔
  depends edges u v ∨ (u = supplier_node_id e ∧ v = consumer_node_id e).
Proof.
  unfold depends. setoid_rewrite elem_of_app. setoid_rewrite list_elem_of_singleton. naive_solver.
Qed.

Lemma dkeys_dset_present {V} (d : dict string V) k v : k ∈ dkeys d → dkeys (dset k v d) = dkeys d.
Proof. intros Hk. rewrite dkeys_dset. by apply dmem_spec in Hk as ->. Qed.

Lemma edge_inv_step ids edges st e :
  NoDup ids → supplier_node_id e ∈ ids → consumer_node_id e ∈ ids →
  EdgeInv ids edges st → EdgeInv ids (edges ++ [e]) (edge_next st e).
Proof.
  intros Hids Hs Hc [H1 H2 H3 H4 H5 H6].
  assert (slot <$> edges ++ [e] = (slot <$> edges) ++ [slot e]) as Hslots by by rewrite fmap_app.
  unfold edge_next. case_bool_decide as Hin; split; simpl.
  - by rewrite H1.
  - done.
  - done.
  - intros u v. rewrite H4, depends_snoc. apply H4 in Hin.
    split; [by left|]. intros [?|[-> ->]]; done.
  - done.
  - done.
  - by rewrite H1.
  - unfold dappend. by rewrite dkeys_dset_present by by rewrite H2.
  - by rewrite dkeys_dset_present by by rewrite H3.
  - intros u v. rewrite dget_list_dappend, depends_snoc, <-H4. case_decide as Hu.
    + rewrite Hu, elem_of_app, list_elem_of_singleton. naive_solver.
    + naive_solver.
  - intros u. rewrite dget_list_dappend. case_decide as Hu; [|done]. subst u.
    apply NoDup_app. split_and!; [done| |apply NoDup_singleton].
    by intros x Hx ->%list_elem_of_singleton.
  - intros v Hv. rewrite dget_dset. case_decide as Hvc.
    + subst v. rewrite (H6 _ Hv). cbn [default]. f_equal. unfold waiting.
      rewrite (filter_one_more (λ u, u ∉ [] ∧ consumer_node_id e ∈ dget_list u (adjacency st))
        (λ u, u ∉ [] ∧ consumer_node_id e ∈ dget_list u (dappend (supplier_node_id e)
           (consumer_node_id e) (adjacency st))) (supplier_node_id e)); try done.
      * simpl. lia.
      * tauto.
      * rewrite dget_list_dappend, decide_True by done. split; [apply not_elem_of_nil|].
        apply elem_of_app. right. by left.
      * intros u Hu. by rewrite dget_list_dappend, decide_False by done.
    + rewrite (H6 _ Hv). do 2 f_equal. unfold waiting. f_equal. apply filter_ext_elem.
      intros u _. rewrite dget_list_dappend. case_decide as Hu; [|done].
      rewrite elem_of_app, list_elem_of_singleton. tauto.
Qed.

Lemma edge_inv_all ids edges st :
  NoDup ids → (∀ e, e ∈ edges → supplier_node_id e ∈ ids ∧ consumer_node_id e ∈ ids) →
  EdgeInv ids [] st → EdgeInv ids edges (foldl edge_next st edges).
Proof.
  intros Hids. induction edges as [|e edges IH] using rev_ind; intros He H0; [done|].
  rewrite foldl_app. simpl. destruct (He e) as [Hs Hc]; [apply elem_of_app; right; by left|].
  apply edge_inv_step; [done..|]. apply IH; [|done]. intros e' He'. apply He, elem_of_app. by left.
Qed.

Lemma edge_inv_initial nodes :
  NoDup (node_ids nodes) → EdgeInv (node_ids nodes) [] (initial_edge_state nodes).
Proof.
  intros Hids. unfold initial_edge_state. set (ids := node_ids nodes) in *.
  assert (∀ V (x : V), dkeys (dict_of ((λ id, (id, x)) <$> ids)) = ids) as Hk.
  { intros V x. assert (((λ id, (id, x)) <$> ids).*1 = ids) as E
      by (rewrite <-list_fmap_compose; unfold compose; simpl; by rewrite list_fmap_id).
    rewrite dict_of_id by (unfold dict_wf, dkeys; by rewrite E). exact E. }
  assert (∀ u, dget_list u (dict_of ((λ id, (id, [] : list string)) <$> ids)) = []) as He.
  { intros u. unfold dget_list. rewrite dget_constant. by case_decide. }
  split; simpl; [done|apply Hk|apply Hk| | |].
  - intros u v. rewrite He. unfold depends. pose proof (not_elem_of_nil v).
    setoid_rewrite elem_of_nil. naive_solver.
  - intros u. rewrite He. apply NoDup_nil_2.
  - intros v Hv. rewrite dget_constant, decide_True by done. f_equal. symmetry.
    apply (f_equal Z.of_nat (y:=0%nat)). apply filter_length_0. intros u _ [_ H].
    rewrite He in H. by apply not_elem_of_nil in H.
Qed.

(** *** The tables of nodes and assumptions *)

Lemma nodes_by_id_keys (nodes : list Node) :
  ((λ n, (node_id n, n)) <$> nodes).*1 = node_ids nodes.
Proof. unfold node_ids. by rewrite <-list_fmap_compose. Qed.

Lemma dget_nodes_by_id nodes k n :
  NoDup (node_ids nodes) → dget k (nodes_by_id nodes) = Some n ↔ n ∈ nodes ∧ node_id n = k.
Proof.
  intros Hnd. unfold nodes_by_id. rewrite dget_dict_of_wf by by rewrite nodes_by_id_keys.
  rewrite list_elem_of_fmap. naive_solver.
Qed.

#[local] Notation assumption_pairs nodes :=
  (nodes ≫= λ node, (λ a, ((node_id node, na_assumption_id a), a)) <$> node_assumed_interfaces node).

Lemma elem_of_assumption_pairs (nodes : list Node) i k a :
  ((i, k), a) ∈ assumption_pairs nodes ↔
  ∃ n, n ∈ nodes ∧ node_id n = i ∧ a ∈ node_assumed_interfaces n ∧ na_assumption_id a = k.
Proof.
  rewrite list_elem_of_bind. setoid_rewrite list_elem_of_fmap. naive_solver.
Qed.

Lemma assumption_pairs_nodup (nodes : list Node) :
  NoDup (node_ids nodes) → Forall constructed nodes → NoDup (assumption_pairs nodes).*1.
Proof.
  intros Hids Hc. induction Hc as [|n nodes Hn Hc IH]; [apply NoDup_nil_2|].
  apply NoDup_cons in Hids as [Hni Hids].
  change (assumption_pairs (n :: nodes)) with
    (((λ a, ((node_id n, na_assumption_id a), a)) <$> node_assumed_interfaces n)
     ++ assumption_pairs nodes).
  rewrite fmap_app. apply NoDup_app. split_and!; [| |by apply IH].
  - rewrite <-list_fmap_compose. unfold compose. simpl.
    rewrite (list_fmap_compose na_assumption_id (λ k, (node_id n, k))).
    apply NoDup_fmap_2; [by intros ?? [= ->]|]. by apply constructed_assumptions.
  - intros [i k] Hl Hr. rewrite <-list_fmap_compose in Hl.
    apply list_elem_of_fmap in Hl as (a & [= -> _] & _).
    apply list_elem_of_fmap in Hr as ([[i' k'] a'] & [= <- <-] & Hr).
    apply elem_of_assumption_pairs in Hr as (n' & Hn' & Hid & _).
    apply Hni, list_elem_of_fmap. by exists n'.
Qed.

Lemma dget_assumptions_of nodes i k a :
  NoDup (node_ids nodes) → Forall constructed nodes →
  dget (i, k) (assumptions_of nodes) = Some a ↔
  ∃ n, n ∈ nodes ∧ node_id n = i ∧ a ∈ node_assumed_interfaces n ∧ na_assumption_id a = k.
Proof.
  intros Hids Hc. unfold assumptions_of.
  rewrite dget_dict_of_wf by by apply assumption_pairs_nodup.
  apply elem_of_assumption_pairs.
Qed.

Lemma edge_resolves_exact nodes e :
  NoDup (node_ids nodes) → Forall constructed nodes →
  edge_resolves (nodes_by_id nodes) (assumptions_of nodes) e ↔ exact_supply nodes e.
Proof.
  intros Hids Hc. unfold edge_resolves, exact_supply, slot. split.
  - intros (s & c & a & Hs & _ & Ha & Hi). apply dget_nodes_by_id in Hs as [Hs Hsi]; [|done].
    apply dget_assumptions_of in Ha as (n & Hn & Hni & Ha & Hai); [|done..].
    by exists s, n, a.
  - intros (s & c & a & Hs & Hn & Ha & Hsi & Hci & Hai & Hi).
    exists s, c, a. split_and!; [by apply dget_nodes_by_id..| |done].
    apply dget_assumptions_of; [done..|]. by exists c.
Qed.

(** *** The edges turned around *)

Lemma elem_of_reverse_row u v w (vs : list string) : ∀ reverse : dict string (list string),
  u ∈ dget_list v (foldl (λ reverse c, dappend c w reverse) reverse vs) ↔
  u ∈ dget_list v reverse ∨ (u = w ∧ v ∈ vs).
Proof.
  induction vs as [|x vs IH]; intros reverse; cbn [foldl].
  - pose proof (not_elem_of_nil v). tauto.
  - rewrite IH, dget_list_dappend, elem_of_cons. case_decide as Hx.
    + rewrite elem_of_app, list_elem_of_singleton. tauto.
    + tauto.
Qed.

Lemma elem_of_reverse_rows u v (adj : dict string (list string)) :
  ∀ reverse : dict string (list string),
  u ∈ dget_list v (foldl (λ reverse '(s, cs), foldl (λ reverse c, dappend c s reverse) reverse cs)
                     reverse adj) ↔
  u ∈ dget_list v reverse ∨ ∃ vs, (u, vs) ∈ adj ∧ v ∈ vs.
Proof.
  induction adj as [|[w vs] adj IH]; intros reverse; cbn [foldl].
  - setoid_rewrite elem_of_nil. naive_solver.
  - rewrite IH, elem_of_reverse_row. setoid_rewrite elem_of_cons. naive_solver.
Qed.

Lemma elem_of_reverse_adjacency ids adj u v :
  dict_wf adj → u ∈ dget_list v (reverse_adjacency ids adj) ↔ v ∈ dget_list u adj.
Proof.
  intros Hwf. unfold reverse_adjacency. rewrite elem_of_reverse_rows.
  assert (u ∉ dget_list v (dict_of ((λ id, (id, [] : list string)) <$> ids))) as Hno.
  { unfold dget_list. rewrite dget_constant. case_decide; apply not_elem_of_nil. }
  unfold dget_list at 2. split.
  - intros [?|(vs & Hin & Hv)]; [done|]. by rewrite (dget_elem_wf _ _ _ Hwf Hin).
  - intros Hv. right. destruct (dget u adj) as [vs|] eqn:E; [|by apply not_elem_of_nil in Hv].
    exists vs. split; [by apply dget_Some_elem|done].
Qed.
End spec.
