(* ===== verification/ReceiptGraphTheorems.v ===== *)
(** * A graph passes [verify] exactly when it is correct

    [GraphSpec] (in [ReceiptGraphFacts]) says what a correct graph is without
    tables, worklists or order; here [verify] is shown to decide it, and the
    digest to bind everything the graph contains. *)

From Stdlib Require Import Ascii.
From S2P Require Import Prelude PyDict GraphTypes Merkle EvidenceModel Sort ReceiptGraph ReceiptGraphFacts.

(** ** The checks before the loops *)

Lemma require_bind {E A} b (e : E) (m : result E A) x :
  (_ ← require b e; m) = Ok x ↔ b = true ∧ m = Ok x.
Proof. destruct b; naive_solver. Qed.

(** The part of the specification that is checked edge by edge. *)
Record LocalSpec (g : ProofBaseReceiptGraphV1) : Prop := {
  ls_schema : graph_schema_id g = PROOF_BASE_RECEIPT_GRAPH_SCHEMA_V1;
  ls_node_ids : NoDup (node_ids (graph_nodes g));
  ls_terminal : graph_terminal_node_id g ∈ node_ids (graph_nodes g);
  ls_owners : NoDup (graph_nodes g ≫= node_root_declarations);
  ls_edges e : e ∈ graph_edges g → exact_supply (graph_nodes g) e;
  ls_once : NoDup (slot <$> graph_edges g);
  ls_supplied n a : n ∈ graph_nodes g → a ∈ node_assumed_interfaces n →
    (node_id n, na_assumption_id a) ∈ slot <$> graph_edges g;
  ls_sink e : e ∈ graph_edges g → supplier_node_id e ≠ graph_terminal_node_id g
}.

Lemma graph_spec_local g :
  GraphSpec g ↔ LocalSpec g ∧ well_founded (depends (graph_edges g)) ∧
    ∀ id, id ∈ node_ids (graph_nodes g) →
      rtc (depends (graph_edges g)) id (graph_terminal_node_id g).
Proof.
  split.
  - intros []. split_and!; [by split|done|done].
  - intros ([] & ? & ?). by split.
Qed.

Lemma exact_supply_ids nodes e :
  exact_supply nodes e → supplier_node_id e ∈ node_ids nodes ∧ consumer_node_id e ∈ node_ids nodes.
Proof.
  intros (s & c & a & Hs & Hc & _ & <- & <- & _).
  split; apply list_elem_of_fmap; by eexists.
Qed.

Section verify_edges.
Context (g : ProofBaseReceiptGraphV1).
#[local] Notation nodes := (graph_nodes g).
#[local] Notation edges := (graph_edges g).
#[local] Notation terminal := (graph_terminal_node_id g).
Context (Hcons : Forall constructed nodes).

Definition final_state : EdgeState := foldl edge_next (initial_edge_state nodes) edges.

Lemma terminal_in_table : dmem terminal (nodes_by_id nodes) = true ↔ terminal ∈ node_ids nodes.
Proof.
  rewrite dmem_spec. unfold nodes_by_id.
  by rewrite elem_of_dkeys_dict_of, nodes_by_id_keys.
Qed.

Lemma final_inv :
  NoDup (node_ids nodes) → (∀ e, e ∈ edges → exact_supply nodes e) →
  EdgeInv (node_ids nodes) edges final_state.
Proof.
  intros Hids He. apply edge_inv_all; [done| |by apply edge_inv_initial].
  intros e Hin. by apply exact_supply_ids, He.
Qed.

(** Every assumption is supplied exactly when none is left over. *)
Lemma nothing_left_over (supplied : list AssumptionKey) :
  NoDup (node_ids nodes) →
  sort_by (pair_leb str_leb str_leb)
    (filter (λ key, key ∉ supplied) (dkeys (assumptions_of nodes))) = [] ↔
  ∀ n a, n ∈ nodes → a ∈ node_assumed_interfaces n → (node_id n, na_assumption_id a) ∈ supplied.
Proof.
  intros Hids. set (l := filter _ _).
  rewrite sort_by_nil.
  unfold l. rewrite <-length_zero_iff_nil, filter_length_0. split.
  - intros H n a Hn Ha. apply dec_stable. apply (H (node_id n, na_assumption_id a)).
    apply dget_is_Some. exists a. apply dget_assumptions_of; [done..|]. by exists n.
  - intros H [i k] Hk Hno. apply dget_is_Some in Hk as [a Hk].
    apply dget_assumptions_of in Hk as (n & Hn & <- & Ha & <-); [|done..]. by apply Hno, H.
Qed.

Lemma terminal_is_sink st :
  EdgeInv (node_ids nodes) edges st →
  dget_list terminal (adjacency st) = [] ↔ ∀ e, e ∈ edges → supplier_node_id e ≠ terminal.
Proof.
  intros Hst. split.
  - intros Hnil e He Hs. eapply (not_elem_of_nil (consumer_node_id e)). rewrite <-Hnil.
    apply (ei_adjacency _ _ _ Hst). by exists e.
  - intros Hs. destruct (dget_list terminal (adjacency st)) as [|v vs] eqn:E; [done|].
    exfalso. assert (v ∈ dget_list terminal (adjacency st)) as Hv by (rewrite E; by left).
    apply (ei_adjacency _ _ _ Hst) in Hv as (e & He & Heq & _). by apply (Hs e).
Qed.

Lemma verify_edges_Ok owners st :
  verify_edges g = Ok (owners, st) ↔
  LocalSpec g ∧ declaration_owners nodes = Ok owners ∧ st = final_state.
Proof.
  unfold verify_edges. rewrite !require_bind, !bool_decide_eq_true, Nat.eqb_eq.
  assert (length (nodes_by_id nodes) = length nodes ↔ NoDup (node_ids nodes)) as ->.
  { unfold nodes_by_id. rewrite <-nodes_by_id_keys, <-dict_of_length. by rewrite length_fmap. }
  rewrite terminal_in_table. rewrite bind_Ok. setoid_rewrite bind_Ok. split.
  - intros (Hschema & _ & Hids & Hterm & os & Hown & st' & Hfold & Hrest).
    apply add_edges_Ok in Hfold as (Hres & Hnd & ->); [|apply NoDup_nil_2].
    assert (∀ e, e ∈ edges → exact_supply nodes e) as Hex.
    { intros e He. rewrite Forall_forall in Hres. by apply edge_resolves_exact, Hres. }
    pose proof (final_inv Hids Hex) as Hinv. fold final_state in Hrest.
    apply bind_Ok in Hrest as (u & Hleft & Hrest).
    apply require_bind in Hrest as [Hsink [= -> <-]].
    apply bool_decide_eq_true in Hsink. pose proof (proj1 (terminal_is_sink _ Hinv) Hsink) as Hno.
    assert (∀ n a, n ∈ nodes → a ∈ node_assumed_interfaces n →
              (node_id n, na_assumption_id a) ∈ slot <$> edges) as Hall.
    { rewrite <-(ei_supplied _ _ _ Hinv). apply nothing_left_over; [done|].
      by destruct (sort_by _ _) as [|[] ?]. }
    split; [|done]. split; try done.
    apply declaration_owners_spec. by rewrite Hown.
  - intros ([Hschema Hids Hterm Hown Hex Honce Hall Hsink] & Ho & ->).
    pose proof (final_inv Hids Hex) as Hinv.
    split_and!; [done| |done|done|].
    { destruct nodes; [by apply not_elem_of_nil in Hterm|done]. }
    exists owners. split; [done|]. exists final_state. split.
    { apply add_edges_Ok; [apply NoDup_nil_2|]. split_and!; [|done|done].
      apply Forall_forall. intros e He. by apply edge_resolves_exact, Hex. }
    replace (sort_by _ _) with (@nil AssumptionKey).
    2:{ symmetry. apply nothing_left_over; [done|]. by rewrite (ei_supplied _ _ _ Hinv). }
    cbn [mbind result_bind]. apply require_bind. split; [|done].
    apply bool_decide_eq_true. by apply (proj2 (terminal_is_sink _ Hinv)).
Qed.

Lemma verify_edges_Raise e : verify_edges g = Raise e → ¬ LocalSpec g.
Proof.
  intros He Hl. destruct (proj1 (declaration_owners_spec nodes)) as [_ Ho].
  destruct (declaration_owners nodes) as [owners|] eqn:Eo; [|by specialize (Ho (ls_owners _ Hl))].
  pose proof (proj2 (verify_edges_Ok owners _) (conj Hl (conj Eo eq_refl))). congruence.
Qed.
End verify_edges.

(** ** The two loops *)

Section loops.
Context (ids : list string) (edges : list ReceiptInterfaceEdgeV1) (st : EdgeState).
Context (Hids : NoDup ids) (Hst : EdgeInv ids edges st).
Context (Hedges : ∀ u v, depends edges u v → u ∈ ids ∧ v ∈ ids).

Lemma supplies_depends u v : supplies ids (adjacency st) u v ↔ depends edges u v.
Proof.
  unfold supplies. rewrite (ei_adjacency _ _ _ Hst). split; [by intros [_ ?]|].
  intros H. split; [by apply (Hedges u v)|done].
Qed.

Lemma adjacency_wf : dict_wf (adjacency st).
Proof. unfold dict_wf. by rewrite (ei_adjacency_keys _ _ _ Hst). Qed.

Lemma indegree_wf : dict_wf (indegree st).
Proof. unfold dict_wf. by rewrite (ei_indegree_keys _ _ _ Hst). Qed.

Lemma elem_of_initially_ready v :
  v ∈ initially_ready (indegree st) ↔ dget v (indegree st) = Some 0.
Proof.
  unfold initially_ready. rewrite elem_of_sort_by. unfold dkeys. rewrite list_elem_of_fmap. split.
  - intros ([k z] & -> & Hf). apply list_elem_of_filter in Hf as [-> Hin].
    by apply dget_elem_wf; [apply indegree_wf|].
  - intros Hv. exists (v, 0). split; [done|]. apply list_elem_of_filter.
    split; [done|]. by apply dget_Some_elem.
Qed.

Lemma kahn_initial : KahnInv ids (adjacency st) (indegree st) (initially_ready (indegree st)) [].
Proof.
  split; simpl.
  - unfold initially_ready. rewrite sort_by_perm. unfold dkeys.
    eapply sublist_NoDup; [apply indegree_wf|apply fmap_sublist, sublist_filter].
  - intros v Hv. rewrite <-(ei_indegree_keys _ _ _ Hst). apply dget_is_Some.
    apply elem_of_initially_ready in Hv as ->. by eexists.
  - apply (ei_indegree _ _ _ Hst).
  - intros v Hv. rewrite elem_of_initially_ready, (ei_indegree _ _ _ Hst v Hv). split.
    + intros [= H]. lia.
    + by intros ->.
  - intros i u v Hi. by rewrite lookup_nil in Hi.
Qed.

(** The first loop answers, with all the nodes exactly when there is no cycle. *)
Lemma kahn_answers : ∃ order,
  kahn (length ids) (adjacency st) (indegree st) (initially_ready (indegree st)) [] = Some order ∧
  NoDup order ∧ (∀ v, v ∈ order → v ∈ ids) ∧
  (length order = length ids ↔ well_founded (depends edges)) ∧
  ∀ i u v, order !! i = Some v → depends edges u v → u ∈ take i order.
Proof.
  assert (∀ u v, v ∈ dget_list u (adjacency st) → v ∈ ids) as Hsub.
  { intros u v Hv. apply (ei_adjacency _ _ _ Hst) in Hv. by apply (Hedges u v). }
  destruct (kahn_spec ids (adjacency st) Hids Hsub (ei_nodup _ _ _ Hst) (length ids)
    _ _ [] kahn_initial) as (degrees & order & Hk & Hinv); [simpl; lia|].
  exists order. split; [done|]. pose proof (ki_nodup _ _ _ _ _ Hinv) as Hnd.
  pose proof (ki_sub _ _ _ _ _ Hinv) as Hin. rewrite app_nil_r in Hnd, Hin.
  split_and!; [done|done| |].
  - rewrite <-(well_founded_iff _ _ supplies_depends). by eapply kahn_acyclic.
  - intros i u v Hi Hd. apply (ki_topological _ _ _ _ _ Hinv i u v Hi). by apply supplies_depends.
Qed.

(** The second loop answers with the nodes that reach the terminal. *)
Lemma closure_answers terminal :
  terminal ∈ ids →
  ∃ reaches, closure (length ids) (reverse_adjacency ids (adjacency st)) [terminal] [terminal]
             = Some reaches ∧
    ∀ u, u ∈ reaches ↔ rtc (depends edges) u terminal.
Proof.
  intros Ht. set (rev := reverse_adjacency ids (adjacency st)).
  assert (∀ u v, back rev v u ↔ depends edges u v) as Hback.
  { intros u v. unfold back, rev. rewrite elem_of_reverse_adjacency by apply adjacency_wf.
    apply (ei_adjacency _ _ _ Hst). }
  assert (∀ u v, u ∈ dget_list v rev → u ∈ ids) as Hsub.
  { intros u v Hu. apply Hback in Hu. by apply (Hedges u v). }
  destruct (closure_spec ids rev Hsub (eq terminal) (length ids) [terminal] [terminal])
    as (reaches & Hc & _ & _ & Hr).
  - split; try done.
    + apply NoDup_singleton.
    + apply NoDup_singleton.
    + by intros u ->%list_elem_of_singleton.
    + intros s <-. by left.
    + intros u ->%list_elem_of_singleton. by exists terminal.
  - simpl. lia.
  - exists reaches. split; [done|]. intros u. rewrite Hr. clear Ht Hc Hr. split.
    + intros (s & <- & H). induction H as [|x y z Hxy _ IH]; [done|].
      eapply rtc_r; [apply IH|]. by apply Hback.
    + intros H. exists terminal. split; [done|].
      induction H as [|x y z Hxy _ IH]; [done|]. eapply rtc_r; [by apply IH|]. by apply Hback.
Qed.
End loops.

(** ** The theorem *)

(** What an accepted graph's receipt certifies. *)
Record Certifies (sha256_hex : string → string) (g : ProofBaseReceiptGraphV1)
    (r : VerifiedCompositionReceiptV1) : Prop := {
  ct_digest : graph_digest sha256_hex g = Ok (vc_graph_digest r);
  ct_terminal : vc_terminal_node_id r = graph_terminal_node_id g;
  ct_order : vc_topological_order r ≡ₚ node_ids (graph_nodes g);
  ct_topological e i : e ∈ graph_edges g →
    vc_topological_order r !! i = Some (consumer_node_id e) →
    supplier_node_id e ∈ take i (vc_topological_order r);
  ct_nodes : vc_node_count r = Z.of_nat (length (graph_nodes g));
  ct_edges : vc_edge_count r = Z.of_nat (length (graph_edges g));
  ct_declarations : vc_root_declaration_count r =
    Z.of_nat (length (graph_nodes g ≫= node_root_declarations))
}.

Lemma nothing_outside (ids reaches : list string) :
  sort_by str_leb (filter (λ id, id ∉ reaches) ids) = [] ↔ ∀ id, id ∈ ids → id ∈ reaches.
Proof.
  rewrite sort_by_nil, <-length_zero_iff_nil, filter_length_0.
  split; intros H id Hid; [by apply dec_stable, H|]. intros Hno. by apply Hno, H.
Qed.

Lemma depends_ids g u v :
  LocalSpec g → depends (graph_edges g) u v →
  u ∈ node_ids (graph_nodes g) ∧ v ∈ node_ids (graph_nodes g).
Proof. intros Hl (e & He & <- & <-). by apply exact_supply_ids, (ls_edges _ Hl). Qed.

Lemma declarations_counted nodes owners :
  declaration_owners nodes = Ok owners →
  length owners = length (nodes ≫= node_root_declarations).
Proof.
  intros Ho. rewrite <-(proj2 (declaration_owners_spec nodes) owners Ho).
  unfold dkeys. by rewrite length_fmap.
Qed.

Lemma verify_answer (sha256_hex : string → string) (g : ProofBaseReceiptGraphV1) :
  Forall constructed (graph_nodes g) →
  ∃ answer, verify sha256_hex g = Some answer ∧
    (is_ok answer = true ↔ GraphSpec g ∧ is_ok (graph_digest sha256_hex g) = true) ∧
    ∀ r, answer = Ok r → Certifies sha256_hex g r.
Proof.
  intros Hcons. unfold verify. destruct (verify_edges g) as [[owners st]|e] eqn:Ev.
  2:{ exists (Raise e). split_and!; [done| |done]. split; [done|].
      intros [[Hl _]%graph_spec_local _]. by destruct (verify_edges_Raise g Hcons e). }
  apply verify_edges_Ok in Ev as (Hl & Ho & ->); [|done].
  pose proof (final_inv g (ls_node_ids _ Hl) (ls_edges _ Hl)) as Hst.
  pose proof (λ u v, depends_ids g u v Hl) as Hdep.
  destruct (kahn_answers _ _ _ (ls_node_ids _ Hl) Hst Hdep)
    as (order & -> & Hnd & Hsub & Hacyclic & Htop).
  cbn [mbind option_bind]. destruct (Nat.eqb_spec (length order) (length (node_ids (graph_nodes g))))
    as [Hlen|Hlen]; simpl negb; cbv iota.
  2:{ eexists. split_and!; [done| |done]. split; [done|].
      intros [(_ & Hwf & _)%graph_spec_local _]. by destruct Hlen; apply Hacyclic. }
  destruct (closure_answers _ _ _ (ls_node_ids _ Hl) Hst Hdep _ (ls_terminal _ Hl))
    as (reaches & -> & Hreach). cbn [mbind option_bind]. eexists. split; [done|].
  destruct (sort_by str_leb (filter _ _)) as [|id outside] eqn:Eout.
  2:{ split; [|done]. split; [done|]. intros [(_ & _ & Hclosed)%graph_spec_local _].
      enough (sort_by str_leb (filter (λ id, id ∉ reaches) (node_ids (graph_nodes g))) = [])
        by congruence.
      apply nothing_outside. intros id' Hid. by apply Hreach, Hclosed. }
  pose proof (proj1 (nothing_outside _ _) Eout) as Hall.
  assert (GraphSpec g) as Hspec.
  { apply graph_spec_local. split_and!; [done|by apply Hacyclic|].
    intros id Hid. by apply Hreach, Hall. }
  destruct (graph_digest sha256_hex g) as [digest|e] eqn:Ed; [|by split; [split; [|intros []]|]].
  split; [done|]. intros r [= <-]. split; simpl.
  - done.
  - done.
  - apply NoDup_subset_perm; [done|done|lia].
  - intros e i He Hi. eapply Htop; [done|]. by exists e.
  - unfold node_ids. by rewrite length_fmap.
  - done.
  - by rewrite (declarations_counted _ _ Ho).
Qed.

Lemma verify_Ok sha256_hex g r :
  Forall constructed (graph_nodes g) → verify sha256_hex g = Some (Ok r) →
  GraphSpec g ∧ Certifies sha256_hex g r.
Proof.
  intros Hc Hv. destruct (verify_answer sha256_hex g Hc) as (answer & Ha & Hiff & Hr).
  assert (answer = Ok r) as -> by congruence. split; [by apply Hiff|by apply Hr].
Qed.

(** C6. [ProofBaseReceiptGraphV1.verify] always answers (the number of nodes is
    enough for both of its loops), and it accepts a graph of constructed nodes
    exactly when the graph is correct: distinct ids and declarations, every
    edge supplying the exact interface its consumer assumes, every assumption
    supplied once, no cycle, and every node contributing to the terminal sink.
    The receipt of an accepted graph lists all nodes in an order in which
    suppliers come before their consumers, and carries the digest and counts. *)
Theorem verify_decides_spec (sha256_hex : string → string) (g : ProofBaseReceiptGraphV1) :
  Forall constructed (graph_nodes g) →
  ∃ answer, verify sha256_hex g = Some answer ∧
    (is_ok answer = true ↔ GraphSpec g ∧ is_ok (graph_digest sha256_hex g) = true) ∧
    ∀ r, answer = Ok r → Certifies sha256_hex g r.
Proof. apply verify_answer. Qed.

(** A chain of three receipts: a base theory feeds a lemma, both feed the claim. *)
Definition demo_hex (_ : string) : string := String.concat "" (replicate 64 "0").
Definition demo_digest : string := sha256_digest demo_hex "".
Definition demo_interface (name : string) : CanonicalInterfaceV1 := CanonicalInterface name demo_digest.
Definition demo_node (id declaration : string) (assumed : list string) :
    AcceptedProofBaseReceiptNodeV1 :=
  ReceiptNode id (CanonicalSourceIdentity id demo_digest) demo_digest [declaration]
    (demo_interface id)
    ((λ name, NamedInterfaceAssumption ("needs-" +:+ name) (demo_interface name)) <$> assumed)
    (AcceptedReceiptEvidence "axle" id demo_digest demo_digest demo_digest demo_digest "accepted").
Definition demo_nodes : list AcceptedProofBaseReceiptNodeV1 :=
  [demo_node "claim" "Claim" ["base"; "lemma"]; demo_node "lemma" "Lemma" ["base"];
   demo_node "base" "Base" []].
Definition demo_edges : list ReceiptInterfaceEdgeV1 :=
  [ReceiptEdge "lemma" "claim" "needs-lemma"; ReceiptEdge "base" "claim" "needs-base";
   ReceiptEdge "base" "lemma" "needs-base"].
Definition demo_graph : ProofBaseReceiptGraphV1 :=
  mk_graph PROOF_BASE_RECEIPT_GRAPH_SCHEMA_V1 demo_nodes demo_edges "claim".

Example demo_order :
  (λ answer, match answer with Ok r => vc_topological_order r | Raise _ => [] end)
    <$> verify demo_hex demo_graph = Some ["base"; "lemma"; "claim"].
Proof. vm_compute. reflexivity. Qed.

Lemma demo_constructed : Forall constructed (graph_nodes demo_graph).
Proof.
  change (graph_nodes demo_graph) with (sort_by node_leb demo_nodes).
  apply Forall_forall. intros n Hn%elem_of_sort_by. exists n.
  repeat (apply elem_of_cons in Hn as [->|Hn]; [vm_compute; reflexivity|]).
  by apply not_elem_of_nil in Hn.
Qed.

Lemma verify_decides_spec_witness :
  GraphSpec demo_graph ∧ ∃ r, verify demo_hex demo_graph = Some (Ok r) ∧
    Certifies demo_hex demo_graph r.
Proof.
  destruct (verify_decides_spec demo_hex demo_graph demo_constructed) as (answer & Hv & Hiff & Hr).
  assert (is_ok answer = true) as Hok.
  { assert (from_option is_ok false (verify demo_hex demo_graph) = true) as Hd
      by (vm_compute; reflexivity).
    by rewrite Hv in Hd. }
  split; [by apply Hiff|]. destruct answer as [r|e]; [|done].
  exists r. split; [done|by apply Hr].
Defined.

(** * The digest of a receipt graph binds all of it

    A payload is a sequence of frames, each with the lengths of its label and
    of its content; the sequence can be read back in one way, so equal payloads
    come from equal graphs, whatever order their parts were listed in. *)

(** ** Frames *)

Lemma sapp_inj_length (a b c d : string) :
  String.length a = String.length b → a +:+ c = b +:+ d → a = b ∧ c = d.
Proof.
  revert b; induction a as [|x a IH]; intros [|y b] Hl H; try done.
  rewrite !sapp_cons in H. injection H as -> H. destruct (IH b ltac:(simpl in Hl; lia) H) as [-> ->].
  done.
Qed.

Lemma big_endian_length n z : String.length (big_endian n z) = n.
Proof.
  revert z; induction n as [|n IH]; intros z; [done|]. cbn [big_endian].
  rewrite slen_app, IH. simpl. lia.
Qed.

Lemma ascii_of_byte_inj x y : 0 ≤ x < 256 → 0 ≤ y < 256 →
  ascii_of_nat (Z.to_nat x) = ascii_of_nat (Z.to_nat y) → x = y.
Proof.
  intros Hx Hy H. apply (f_equal nat_of_ascii) in H. rewrite !nat_ascii_embedding in H by lia. lia.
Qed.

Lemma big_endian_inj n x y : 0 ≤ x < 256 ^ Z.of_nat n → 0 ≤ y < 256 ^ Z.of_nat n →
  big_endian n x = big_endian n y → x = y.
Proof.
  revert x y; induction n as [|n IH]; intros x y Hx Hy H; [simpl in *; lia|].
  cbn [big_endian] in H. apply sapp_inj_length in H as [H1 H2]; [|by rewrite !big_endian_length].
  injection H2 as H2. rewrite Nat2Z.inj_succ, Z.pow_succ_r in Hx, Hy by lia.
  apply ascii_of_byte_inj in H2; [|apply Z.mod_pos_bound; lia..].
  apply IH in H1; [|split; [apply Z.div_pos; lia|apply Z.div_lt_upper_bound; lia]..].
  rewrite (Z.div_mod x 256), (Z.div_mod y 256) by lia. congruence.
Qed.

Lemma to_bytes_Ok n (l s : string) :
  to_bytes n (slen l) = Ok s →
  String.length s = n ∧ s = big_endian n (slen l) ∧ 0 ≤ slen l < 256 ^ Z.of_nat n.
Proof.
  unfold to_bytes. destruct (Z.ltb_spec (slen l) (256 ^ Z.of_nat n)); [|done].
  intros [= <-]. split_and!; [apply big_endian_length|done|unfold slen; lia|done].
Qed.

(** A field with its length in front of it is read back in one way. *)
Lemma counted_inj n (l1 l2 s1 s2 r1 r2 : string) :
  to_bytes n (slen l1) = Ok s1 → to_bytes n (slen l2) = Ok s2 →
  s1 +:+ l1 +:+ r1 = s2 +:+ l2 +:+ r2 → l1 = l2 ∧ r1 = r2.
Proof.
  intros (H1 & -> & Hb1)%to_bytes_Ok (H2 & -> & Hb2)%to_bytes_Ok H.
  apply sapp_inj_length in H as [Hs H]; [|by rewrite H1, H2].
  apply big_endian_inj in Hs; [|done..]. apply sapp_inj_length in H as [-> ->]; [done|].
  unfold slen in Hs. lia.
Qed.

Lemma frame_inj label1 label2 p1 p2 s1 s2 r1 r2 :
  frame label1 p1 = Ok s1 → frame label2 p2 = Ok s2 → s1 +:+ r1 = s2 +:+ r2 →
  label1 = label2 ∧ p1 = p2 ∧ r1 = r2.
Proof.
  unfold frame. intros H1 H2 H. apply bind_Ok in H1 as (a1 & Ha1 & H1).
  apply bind_Ok in H1 as (b1 & Hb1 & [= <-]). apply bind_Ok in H2 as (a2 & Ha2 & H2).
  apply bind_Ok in H2 as (b2 & Hb2 & [= <-]). rewrite !sapp_assoc in H.
  apply (counted_inj 4 _ _ _ _ _ _ Ha1 Ha2) in H as [-> H].
  by apply (counted_inj 8 _ _ _ _ _ _ Hb1 Hb2) in H as [-> ->].
Qed.

Lemma frame_nonempty label p s : frame label p = Ok s → (0 < String.length s)%nat.
Proof.
  unfold frame. intros H. apply bind_Ok in H as (a & Ha & H).
  apply bind_Ok in H as (b & Hb & [= <-]). apply to_bytes_Ok in Ha as [Ha _].
  rewrite slen_app. lia.
Qed.

Lemma frames_cons label p fields s :
  frames ((label, p) :: fields) = Ok s ↔
  ∃ f r, frame label p = Ok f ∧ frames fields = Ok r ∧ s = f +:+ r.
Proof.
  unfold frames. cbn [mapM]. split.
  - intros H. apply bind_Ok in H as (ps & H & [= <-]). apply bind_Ok in H as (f & Hf & H).
    apply bind_Ok in H as (fs & Hfs & [= <-]). exists f, (str_concat fs). by rewrite Hfs.
  - intros (f & r & -> & H & ->). cbn [mbind result_bind].
    destruct (mapM _ fields); [|done]. cbn in *. by injection H as <-.
Qed.

Lemma field_frames_inj fields1 : ∀ fields2 s,
  frames fields1 = Ok s → frames fields2 = Ok s → fields1 = fields2.
Proof.
  induction fields1 as [|[l1 p1] fields1 IH]; intros [|[l2 p2] fields2] s H1 H2; [done|..].
  - injection H1 as <-. apply frames_cons in H2 as (f & r & Hf & _ & H).
    apply frame_nonempty in Hf. apply (f_equal String.length) in H. rewrite slen_app in H.
    simpl in H. lia.
  - injection H2 as <-. apply frames_cons in H1 as (f & r & Hf & _ & H).
    apply frame_nonempty in Hf. apply (f_equal String.length) in H. rewrite slen_app in H.
    simpl in H. lia.
  - apply frames_cons in H1 as (f1 & r1 & Hf1 & Hr1 & ->).
    apply frames_cons in H2 as (f2 & r2 & Hf2 & Hr2 & H).
    destruct (frame_inj _ _ _ _ _ _ _ _ Hf1 Hf2 H) as (-> & -> & <-).
    f_equal. by eapply IH.
Qed.

(** ** Lists of payloads *)

Definition injective_on {A E B} (f : A → result E B) (P : A → Prop) : Prop :=
  ∀ x y b, P x → P y → f x = Ok b → f y = Ok b → x = y.

Lemma mapM_inj {A E B} (f : A → result E B) (P : A → Prop) l1 : ∀ l2 k,
  injective_on f P → Forall P l1 → Forall P l2 →
  mapM f l1 = Ok k → mapM f l2 = Ok k → l1 = l2.
Proof.
  induction l1 as [|x l1 IH]; intros l2 k Hf HP1 HP2 H1 H2;
    apply mapM_Ok in H1, H2; inversion H1; subst; inversion H2; subst; [done|].
  apply Forall_cons in HP1 as [Hx HP1]. apply Forall_cons in HP2 as [Hy HP2].
  f_equal; [by eapply Hf|]. eapply IH; [done..|by apply mapM_Ok|by apply mapM_Ok].
Qed.

(** Two runs of fields with different labels come apart in one way. *)
Lemma tagged_app_inj (a b : string) l1 l2 k1 k2 : a ≠ b →
  (pair a <$> l1) ++ (pair b <$> k1) = ((pair a <$> l2) ++ (pair b <$> k2) : list (string * string)) →
  l1 = l2 ∧ k1 = k2.
Proof.
  intros Hab. revert l2; induction l1 as [|x l1 IH]; intros [|y l2] H; csimpl in *.
  - split; [done|]. revert k2 H. induction k1; intros []; naive_solver.
  - by destruct k1; simplify_eq/=.
  - by destruct k2; simplify_eq/=.
  - injection H as -> H. by destruct (IH _ H) as [-> ->].
Qed.

Lemma NoDup_fmap_elem {A B} (f : A → B) l x y :
  NoDup (f <$> l) → x ∈ l → y ∈ l → f x = f y → x = y.
Proof.
  intros Hnd Hx Hy Hf. apply list_elem_of_lookup in Hx as [i Hi], Hy as [j Hj].
  enough (i = j) as -> by congruence.
  eapply (NoDup_lookup _ _ _ (f x) Hnd); rewrite list_lookup_fmap;
    [by rewrite Hi|by rewrite Hj, Hf].
Qed.

(** ** Nodes, edges and graphs *)

Lemma node_leb_total a b : node_leb a b = true ∨ node_leb b a = true.
Proof. apply str_leb_total. Qed.
Lemma node_leb_trans a b c : node_leb a b = true → node_leb b c = true → node_leb a c = true.
Proof. apply str_leb_trans. Qed.
Lemma assumption_leb_total a b : assumption_leb a b = true ∨ assumption_leb b a = true.
Proof. apply str_leb_total. Qed.
Lemma assumption_leb_trans a b c :
  assumption_leb a b = true → assumption_leb b c = true → assumption_leb a c = true.
Proof. apply str_leb_trans. Qed.
Lemma edge_leb_total a b : edge_leb a b = true ∨ edge_leb b a = true.
Proof. apply pair_leb_total; [auto with py|]. apply pair_leb_total; auto with py. Qed.
Lemma edge_leb_trans a b c : edge_leb a b = true → edge_leb b c = true → edge_leb a c = true.
Proof.
  apply pair_leb_trans; [eauto with py| |eauto with py]. apply pair_leb_trans; eauto with py.
Qed.
Lemma edge_leb_anti a b : edge_leb a b = true → edge_leb b a = true → a = b.
Proof.
  intros H1 H2. assert (edge_key a = edge_key b) as H.
  { revert H1 H2. apply pair_leb_anti; [eauto with py|]. apply pair_leb_anti; eauto with py. }
  destruct a, b. unfold edge_key in H. simpl in H. congruence.
Qed.

Lemma sort_by_twice {A} (leb : A → A → bool) l :
  (∀ x y, leb x y = true ∨ leb y x = true) →
  (∀ x y z, leb x y = true → leb y z = true → leb x z = true) →
  sort_by leb (sort_by leb l) = sort_by leb l.
Proof. intros. by apply sort_by_idem, sort_by_sorted. Qed.

(** A node that its class and that of its evidence have checked. *)
Definition accepted (n : AcceptedProofBaseReceiptNodeV1) : Prop :=
  constructed n ∧ ar_decision (node_acceptance n) = "accepted".

Lemma constructed_sorted n : constructed n →
  sort_by str_leb (node_root_declarations n) = node_root_declarations n ∧
  sort_by assumption_leb (node_assumed_interfaces n) = node_assumed_interfaces n.
Proof.
  intros [m Hm]. unfold mk_node in Hm. inv_result.
  split; apply sort_by_twice; eauto using str_leb_total, str_leb_trans, assumption_leb_total,
    assumption_leb_trans.
Qed.

Lemma assumption_frames_inj : injective_on (λ a, frames (assumption_fields a)) (λ _, True).
Proof.
  intros [i1 [b1 d1]] [i2 [b2 d2]] p _ _ H1 H2. pose proof (field_frames_inj _ _ _ H1 H2) as H.
  unfold assumption_fields in H. simpl in H. congruence.
Qed.

Lemma Forall_always {A} (l : list A) : Forall (λ _, True) l.
Proof. by apply Forall_true. Qed.

Lemma node_payload_inj : injective_on node_payload accepted.
Proof.
  intros n1 n2 p [Hc1 Hd1] [Hc2 Hd2] H1 H2. unfold node_payload in H1, H2.
  destruct (constructed_sorted n1 Hc1) as [Hs1 Ha1]. destruct (constructed_sorted n2 Hc2) as [Hs2 Ha2].
  rewrite Hs1, Ha1 in H1. rewrite Hs2, Ha2 in H2.
  apply bind_Ok in H1 as (as1 & Has1 & H1). apply bind_Ok in H2 as (as2 & Has2 & H2).
  pose proof (field_frames_inj _ _ _ H1 H2) as H. apply app_inj_1 in H as [Hf H]; [|done].
  apply tagged_app_inj in H as [Hdecl <-]; [|done].
  assert (node_assumed_interfaces n1 = node_assumed_interfaces n2) as Has
    by (by apply (mapM_inj _ _ _ _ _ assumption_frames_inj (Forall_always _) (Forall_always _) Has1)).
  clear - Hf Hdecl Has Hd1 Hd2.
  destruct n1 as [? [? ?] ? ? [? ?] ? []], n2 as [? [? ?] ? ? [? ?] ? []].
  unfold node_fields in Hf. simpl in *. congruence.
Qed.

Lemma edge_payload_inj : injective_on edge_payload (λ _, True).
Proof.
  intros [] [] p _ _ H1 H2. pose proof (field_frames_inj _ _ _ H1 H2) as H. simpl in H. congruence.
Qed.

Lemma graph_payload_inj g1 g2 p :
  Forall accepted (graph_nodes g1) → Forall accepted (graph_nodes g2) →
  graph_payload g1 = Ok p → graph_payload g2 = Ok p →
  graph_schema_id g1 = graph_schema_id g2 ∧
  graph_terminal_node_id g1 = graph_terminal_node_id g2 ∧
  graph_nodes g1 ≡ₚ graph_nodes g2 ∧ graph_edges g1 ≡ₚ graph_edges g2.
Proof.
  intros Hg1 Hg2 H1 H2. unfold graph_payload in H1, H2.
  apply bind_Ok in H1 as (ns1 & Hns1 & H1). apply bind_Ok in H1 as (es1 & Hes1 & H1).
  apply bind_Ok in H2 as (ns2 & Hns2 & H2). apply bind_Ok in H2 as (es2 & Hes2 & H2).
  pose proof (field_frames_inj _ _ _ H1 H2) as H. apply app_inj_1 in H as [[= -> ->] H]; [|done].
  apply tagged_app_inj in H as [<- <-]; [|done]. split_and!; [done|done| |].
  - rewrite <-(sort_by_perm node_leb (graph_nodes g1)), <-(sort_by_perm node_leb (graph_nodes g2)).
    rewrite <-(sort_by_perm node_leb) in Hg1, Hg2.
    by rewrite (mapM_inj _ _ _ _ _ node_payload_inj Hg1 Hg2 Hns1 Hns2).
  - rewrite <-(sort_by_perm edge_leb (graph_edges g1)), <-(sort_by_perm edge_leb (graph_edges g2)).
    by rewrite (mapM_inj _ _ _ _ _ edge_payload_inj (Forall_always _) (Forall_always _) Hes1 Hes2).
Qed.

(** The constructor forgets the order in which the parts were listed. *)
Lemma mk_graph_perm schema nodes1 nodes2 edges1 edges2 terminal :
  NoDup (node_ids nodes1) → nodes1 ≡ₚ nodes2 → edges1 ≡ₚ edges2 →
  mk_graph schema nodes1 edges1 terminal = mk_graph schema nodes2 edges2 terminal.
Proof.
  intros Hids Hn He. unfold mk_graph. f_equal.
  - apply sort_by_unique; [apply node_leb_total|apply node_leb_trans| |done].
    intros x y Hx Hy H1 H2. assert (node_id x = node_id y) as Hxy by by apply str_leb_anti.
    apply (NoDup_fmap_elem node_id nodes1); done.
  - apply sort_by_unique; [apply edge_leb_total|apply edge_leb_trans| |done].
    intros x y _ _. apply edge_leb_anti.
Qed.

(** The hash does not map the payloads of these two graphs to one digest. *)
Definition no_collision (sha256_hex : string → string) (g1 g2 : ProofBaseReceiptGraphV1) : Prop :=
  ∀ p1 p2, graph_payload g1 = Ok p1 → graph_payload g2 = Ok p2 →
    sha256_hex p1 = sha256_hex p2 → p1 = p2.

(** C20. Two receipt graphs have one digest exactly when they have one schema,
    one terminal and the same accepted nodes and edges: the digest binds every
    field of every node, assumption and edge, and does not depend on the order
    in which they were listed. *)
Theorem digest_identifies_contents sha256_hex schema1 schema2 nodes1 nodes2 edges1 edges2
    terminal1 terminal2 digest1 digest2 :
  let g1 := mk_graph schema1 nodes1 edges1 terminal1 in
  let g2 := mk_graph schema2 nodes2 edges2 terminal2 in
  Forall accepted nodes1 → Forall accepted nodes2 → NoDup (node_ids nodes1) →
  no_collision sha256_hex g1 g2 →
  graph_digest sha256_hex g1 = Ok digest1 → graph_digest sha256_hex g2 = Ok digest2 →
  digest1 = digest2 ↔
  schema1 = schema2 ∧ terminal1 = terminal2 ∧ nodes1 ≡ₚ nodes2 ∧ edges1 ≡ₚ edges2.
Proof.
  intros g1 g2 Ha1 Ha2 Hids Hsha H1 H2. unfold graph_digest in H1, H2.
  apply fmap_Ok in H1 as (p1 & H1 & ->). apply fmap_Ok in H2 as (p2 & H2 & ->). split.
  - intros Hd. apply (sapp_inj_length "sha256:" "sha256:") in Hd as [_ Hd]; [|done].
    apply Hsha in Hd as <-; [|done..].
    destruct (graph_payload_inj g1 g2 p1) as (Hs & Ht & Hn & He); simpl;
      [by rewrite sort_by_perm|by rewrite sort_by_perm|done|done|].
    unfold g1, g2, mk_graph in Hs, Ht, Hn, He.
    cbn [graph_schema_id graph_terminal_node_id graph_nodes graph_edges] in Hs, Ht, Hn, He.
    rewrite !sort_by_perm in Hn. by rewrite !(sort_by_perm edge_leb) in He.
  - intros (<- & <- & Hn & He). unfold g1, g2 in H1, H2.
    rewrite (mk_graph_perm schema1 nodes1 nodes2 edges1 edges2 terminal1 Hids Hn He) in H1.
    congruence.
Qed.

(** The chain of receipts listed in another order; a hash without collisions. *)
Lemma digest_identifies_contents_witness :
  graph_digest id (mk_graph PROOF_BASE_RECEIPT_GRAPH_SCHEMA_V1 (reverse demo_nodes)
                     (reverse demo_edges) "claim")
  = graph_digest id demo_graph.
Proof.
  assert (Forall accepted demo_nodes) as Ha.
  { pose proof demo_constructed as Hc. change (graph_nodes demo_graph) with
      (sort_by node_leb demo_nodes) in Hc. rewrite sort_by_perm in Hc.
    apply Forall_forall. intros n Hn. split; [by eapply Forall_forall in Hc|].
    repeat (apply elem_of_cons in Hn as [->|Hn]; [reflexivity|]). by apply not_elem_of_nil in Hn. }
  assert (∀ g, is_ok (graph_digest id g) = true → ∃ d, graph_digest id g = Ok d) as Hok
    by (intros g; destruct (graph_digest id g) as [d|]; [by exists d|done]).
  destruct (Hok demo_graph) as [d1 H1]; [vm_compute; reflexivity|].
  destruct (Hok (mk_graph PROOF_BASE_RECEIPT_GRAPH_SCHEMA_V1 (reverse demo_nodes)
    (reverse demo_edges) "claim")) as [d2 H2]; [vm_compute; reflexivity|].
  rewrite H1, H2. f_equal. symmetry.
  apply (digest_identifies_contents id PROOF_BASE_RECEIPT_GRAPH_SCHEMA_V1
    PROOF_BASE_RECEIPT_GRAPH_SCHEMA_V1 demo_nodes (reverse demo_nodes) demo_edges
    (reverse demo_edges) "claim" "claim" d1 d2).
  - exact Ha.
  - by rewrite reverse_Permutation.
  - apply (bool_decide_unpack _). vm_compute. reflexivity.
  - intros p1 p2 _ _ Hp. exact Hp.
  - exact H1.
  - exact H2.
  - by rewrite !reverse_Permutation.
Defined.
