(* ===== verification/Json.v ===== *)
(** * JSON ([json.dumps] and [json.loads])

    The writer with [sort_keys=True] and [separators=(",", ":")], and the
    reader, on UTF-8 byte strings.  An object is a [dict].  A number with a
    fraction or an exponent is kept as the text it is written with,
    [float_repr text] standing for [float.__repr__(float(text))], because no
    source computes with it.  An escape of a lone surrogate becomes its three
    bytes, which are not UTF-8; the text of a [JSONDecodeError], the limit of nesting and the
    limit of the digits of an integer are not modelled. *)

From Stdlib Require Import Ascii.
From S2P Require Import Prelude PyDict GraphTypes Receipts Text Merkle EvidenceModel SchemeDatum Sort.

Inductive Json : Type :=
| JNull
| JBool (b : bool)
| JInt (z : Z)
| JFloat (repr : string)
| JStr (s : string)
| JList (l : list Json)
| JObj (members : list (string * Json)).

#[global] Instance json_eq_dec : EqDecision Json.
Proof.
  refine (fix go (v w : Json) : Decision (v = w) :=
    let _ : EqDecision Json := @go in
    match v, w with
    | JNull, JNull => left eq_refl
    | JBool a, JBool b => cast_if (decide (a = b))
    | JInt a, JInt b => cast_if (decide (a = b))
    | JFloat a, JFloat b => cast_if (decide (a = b))
    | JStr a, JStr b => cast_if (decide (a = b))
    | JList a, JList b => cast_if (decide (a = b))
    | JObj a, JObj b => cast_if (decide (a = b))
    | _, _ => right _
    end); congruence.
Defined.

Definition JSONDecodeError : Exn := PyError "JSONDecodeError" "".

(** ** The writer *)

(** [py_encode_basestring]. *)
Definition json_escape_char (c : ascii) : string :=
  let n := nat_of_ascii c in
  if Ascii.eqb c dq then String bs (String dq "")
  else if Ascii.eqb c bs then String bs (String bs "")
  else if Ascii.eqb c nl then String bs "n"
  else if (n =? 13)%nat then String bs "r"
  else if (n =? 9)%nat then String bs "t"
  else if (n =? 12)%nat then String bs "f"
  else if (n =? 8)%nat then String bs "b"
  else if (n <? 32)%nat then String bs ("u" +:+ hex_fixed 4 (Z.of_nat n))
  else String c "".
Fixpoint json_escape (s : string) : string :=
  match s with EmptyString => "" | String c s => json_escape_char c +:+ json_escape s end.
Definition json_quote (s : string) : string := String dq (json_escape s +:+ String dq "").

Definition key_leb {A} (x y : string * A) : bool := str_leb x.1 y.1.

(** One member of an object. *)
Definition json_member (m : string * string) : string := json_quote m.1 +:+ ":" +:+ m.2.

Fixpoint write_json (v : Json) : string :=
  match v with
  | JNull => "null"
  | JBool b => if b then "true" else "false"
  | JInt z => str_of_Z z
  | JFloat repr => repr
  | JStr s => json_quote s
  | JList l => "[" +:+ str_join "," (map write_json l) +:+ "]"
  | JObj d =>
      "{" +:+ str_join "," (json_member <$>
                 sort_by key_leb (map (λ '(k, v), (k, write_json v)) d)) +:+ "}"
  end.

(** What [json.dumps] makes of a Python value. *)
Fixpoint json_of (v : Value) : result Exn Json :=
  match v with
  | VNone => Ok JNull
  | VBool b => Ok (JBool b)
  | VInt z => Ok (JInt z)
  | VStr s => Ok (JStr s)
  | VList l | VTuple l => JList <$> mapM json_of l
  | VDict d => JObj <$> mapM (λ '(k, v), pair k <$> json_of v) d
  | VBytes _ | VObj _ _ => Raise (TypeError "Object is not JSON serializable")
  end.

(** ** UTF-8 *)

(** The ranges of the continuation bytes that the first byte of a character
    announces: no overlong form, no surrogate, nothing above U+10FFFF. *)
Definition utf8_awaits (n : nat) : option (list (nat * nat)) :=
  let cont := (128, 191)%nat in
  if (n <? 128)%nat then Some []
  else if (n <? 194)%nat then None
  else if (n <? 224)%nat then Some [cont]
  else if (n =? 224)%nat then Some [(160, 191)%nat; cont]
  else if (n =? 237)%nat then Some [(128, 159)%nat; cont]
  else if (n <? 240)%nat then Some [cont; cont]
  else if (n =? 240)%nat then Some [(144, 191)%nat; cont; cont]
  else if (n <? 244)%nat then Some [cont; cont; cont]
  else if (n =? 244)%nat then Some [(128, 143)%nat; cont; cont]
  else None.
Definition utf8_step (awaited : list (nat * nat)) (c : ascii) : option (list (nat * nat)) :=
  let n := nat_of_ascii c in
  match awaited with
  | [] => utf8_awaits n
  | (low, high) :: awaited => if ((low <=? n) && (n <=? high))%nat then Some awaited else None
  end.
Fixpoint utf8_run (awaited : list (nat * nat)) (s : string) : option (list (nat * nat)) :=
  match s with
  | EmptyString => Some awaited
  | String c s => awaited ← utf8_step awaited c; utf8_run awaited s
  end.
Definition utf8_valid (s : string) : bool := bool_decide (utf8_run [] s = Some []).

(** [bytes.decode("utf-8")] and [str.encode("utf-8")]: text is its UTF-8 bytes. *)
Definition decode_utf8 (bytes : string) : result Exn string :=
  _ ← require (utf8_valid bytes) (PyError "UnicodeDecodeError" ""); Ok bytes.
Definition encode_utf8 (text : string) : result Exn string :=
  _ ← require (utf8_valid text) (PyError "UnicodeEncodeError" ""); Ok text.

(** [_canonical_json] of the modules that hash or compare JSON texts. *)
Definition canonical_json (v : Json) : result Exn string := encode_utf8 (write_json v).

Definition byte (z : Z) : ascii := ascii_of_nat (Z.to_nat z).

(** The code points of a text, the bits of the current one gathered in [acc]
    while [n] of its bytes are to come. *)
Fixpoint code_points (acc : Z) (n : nat) (s : string) : list Z :=
  match s with
  | EmptyString => []
  | String c s =>
      let b := Z.of_nat (nat_of_ascii c) in
      match n with
      | O =>
          if b <? 128 then b :: code_points 0 0 s
          else if b <? 224 then code_points (b - 192) 1 s
          else if b <? 240 then code_points (b - 224) 2 s
          else code_points (b - 240) 3 s
      | S O => acc * 64 + (b - 128) :: code_points 0 0 s
      | S n => code_points (acc * 64 + (b - 128)) n s
      end
  end.

(** [json.dumps] with [ensure_ascii=True], its default: everything but printable
    ASCII is escaped, above U+FFFF as a surrogate pair. *)
Definition unicode_text (z : Z) : string := String bs ("u" +:+ hex_fixed 4 z).
Definition ascii_escape (z : Z) : string :=
  if z <? 127 then json_escape_char (byte z)
  else if z <? 65536 then unicode_text z
  else unicode_text (55296 + (z - 65536) / 1024) +:+ unicode_text (56320 + (z - 65536) mod 1024).
Definition ascii_quote (s : string) : string :=
  String dq (str_concat (ascii_escape <$> code_points 0 0 s) +:+ String dq "").
Fixpoint write_json_ascii (v : Json) : string :=
  match v with
  | JStr s => ascii_quote s
  | JList l => "[" +:+ str_join "," (map write_json_ascii l) +:+ "]"
  | JObj d =>
      "{" +:+ str_join "," ((λ m, ascii_quote m.1 +:+ ":" +:+ m.2) <$>
                 sort_by key_leb (map (λ '(k, v), (k, write_json_ascii v)) d)) +:+ "}"
  | _ => write_json v
  end.

Example ascii_text : write_json_ascii (JStr "é😀") = String dq (unicode_text 233 +:+
  unicode_text 55357 +:+ unicode_text 56832 +:+ String dq "").
Proof. vm_compute. reflexivity. Qed.

(** ** The reader *)

Definition is_ws (c : ascii) : bool :=
  existsb (Ascii.eqb c) [" "%char; chr 9; chr 10; chr 13].
Fixpoint skip_ws (s : string) : string :=
  match s with String c s' => if is_ws c then skip_ws s' else s | EmptyString => "" end.

(** The UTF-8 bytes of a code point. *)
Definition utf8_encode (z : Z) : string :=
  if z <? 128 then String (byte z) ""
  else if z <? 2048 then String (byte (192 + z / 64)) (String (byte (128 + z mod 64)) "")
  else if z <? 65536 then
    String (byte (224 + z / 4096))
      (String (byte (128 + z / 64 mod 64)) (String (byte (128 + z mod 64)) ""))
  else
    String (byte (240 + z / 262144))
      (String (byte (128 + z / 4096 mod 64))
        (String (byte (128 + z / 64 mod 64)) (String (byte (128 + z mod 64)) ""))).

(** The four hexadecimal digits of an escape. *)
Definition hex4 (s : string) : option Z :=
  match s with
  | String a (String b (String c (String d _))) =>
      match hex_val a, hex_val b, hex_val c, hex_val d with
      | Some a, Some b, Some c, Some d => Some (Z.of_nat (4096 * a + 256 * b + 16 * c + d))
      | _, _, _, _ => None
      end
  | _ => None
  end.

Definition simple_escape (e : ascii) : option ascii :=
  if Ascii.eqb e dq then Some dq
  else if Ascii.eqb e bs then Some bs
  else if Ascii.eqb e "/"%char then Some "/"%char
  else if Ascii.eqb e "b"%char then Some (chr 8)
  else if Ascii.eqb e "f"%char then Some (chr 12)
  else if Ascii.eqb e "n"%char then Some nl
  else if Ascii.eqb e "r"%char then Some (chr 13)
  else if Ascii.eqb e "t"%char then Some (chr 9)
  else None.

(** The code point after [\u] and how many characters it takes: four, or ten
    with the second half of a surrogate pair. *)
Definition unicode_escape (s : string) : option (Z * nat) :=
  hi ← hex4 s;
  let alone := Some (hi, 4%nat) in
  if (55296 <=? hi) && (hi <=? 56319) then
    match sdrop 4 s with
    | String b (String u rest) =>
        if Ascii.eqb b bs && Ascii.eqb u "u"%char then
          match hex4 rest with
          | Some lo =>
              if (56320 <=? lo) && (lo <=? 57343)
              then Some (65536 + (hi - 55296) * 1024 + (lo - 56320), 10%nat) else alone
          | None => alone
          end
        else alone
    | _ => alone
    end
  else alone.

(** [py_scanstring] after the opening quote; [skip] characters have been read. *)
Fixpoint json_chars (skip : nat) (s : string) : result Exn (string * string) :=
  match s with
  | EmptyString => Raise JSONDecodeError
  | String c s' =>
      match skip with
      | S n => json_chars n s'
      | O =>
          if Ascii.eqb c dq then Ok ("", s')
          else if Ascii.eqb c bs then
            match s' with
            | EmptyString => Raise JSONDecodeError
            | String e rest =>
                if Ascii.eqb e "u"%char then
                  '(z, n) ← of_option JSONDecodeError (unicode_escape rest);
                  '(chars, rest) ← json_chars (S n) s'; Ok (utf8_encode z +:+ chars, rest)
                else
                  d ← of_option JSONDecodeError (simple_escape e);
                  '(chars, rest) ← json_chars 1 s'; Ok (String d chars, rest)
            end
          else if (nat_of_ascii c <? 32)%nat then Raise JSONDecodeError
          else '(chars, rest) ← json_chars 0 s'; Ok (String c chars, rest)
      end
  end.

(** The digits a text starts with. *)
Fixpoint span_digits (s : string) : string * string :=
  match s with
  | String c s' =>
      if is_digit c then let '(digits, rest) := span_digits s' in (String c digits, rest) else ("", s)
  | EmptyString => ("", "")
  end.

(** The optional fraction and exponent of a number. *)
Definition fraction (s : string) : string * string :=
  match s with
  | String "." s' =>
      let '(digits, rest) := span_digits s' in
      if bool_decide (digits = "") then ("", s) else (String "." digits, rest)
  | _ => ("", s)
  end.
Definition exponent (s : string) : string * string :=
  match s with
  | String ("e" | "E")%char s' =>
      let '(sign, s1) := match s' with
                         | String ("+" | "-")%char s1 => (String.substring 0 1 s', s1)
                         | _ => ("", s')
                         end in
      let '(digits, rest) := span_digits s1 in
      if bool_decide (digits = "") then ("", s)
      else (String.substring 0 1 s +:+ sign +:+ digits, rest)
  | _ => ("", s)
  end.

(** A minus sign or none, then zero alone or digits that do not start with it. *)
Definition integer_part (s : string) : option (string * string) :=
  match s with
  | String c s' =>
      if Ascii.eqb c "0"%char then Some ("0", s')
      else if is_digit c then Some (span_digits s) else None
  | EmptyString => None
  end.
Definition signed_integer (s : string) : option (string * string) :=
  if starts_with_char "-"%char s
  then '(digits, rest) ← integer_part (sdrop 1 s); Some (String "-" digits, rest)
  else integer_part s.

Section reader.
Context (float_repr : string → string).
Context (hook : list (string * Json) → result Exn Json).

Definition read_number (s : string) : result Exn (Json * string) :=
  '(integer, rest) ← of_option JSONDecodeError (signed_integer s);
  let '(frac, rest) := fraction rest in
  let '(expo, rest) := exponent rest in
  if bool_decide (frac = "") && bool_decide (expo = "")
  then z ← of_option JSONDecodeError (int10 integer); Ok (JInt z, rest)
  else Ok (JFloat (float_repr (integer +:+ frac +:+ expo)), rest).

(** The constants, else a number. *)
Definition constants : list (string * Json) :=
  [("null", JNull); ("true", JBool true); ("false", JBool false); ("NaN", JFloat "NaN");
   ("Infinity", JFloat "Infinity"); ("-Infinity", JFloat "-Infinity")].
Definition read_atom (s : string) : result Exn (Json * string) :=
  match list_find (λ '(text, _), String.prefix text s = true) constants with
  | Some (_, (text, v)) => Ok (v, sdrop (String.length text) s)
  | None => read_number s
  end.

Definition peek_char (s : string) : result Exn (ascii * string) :=
  match s with EmptyString => Raise JSONDecodeError | String c s => Ok (c, s) end.
Definition expect_char (c : ascii) (s : string) : result Exn string :=
  '(d, s) ← peek_char s; if Ascii.eqb d c then Ok s else Raise JSONDecodeError.

(** [scan_once]; [JSONArray] and [JSONObject] from their first element on. *)
Fixpoint json_value (fuel : nat) (s : string) : option (result Exn (Json * string)) :=
  match fuel with
  | O => None
  | S fuel =>
      match s with
      | EmptyString => Some (Raise JSONDecodeError)
      | String c s' =>
          if Ascii.eqb c dq then Some ('(chars, rest) ← json_chars 0 s'; Ok (JStr chars, rest))
          else if Ascii.eqb c "{"%char then
            let s' := skip_ws s' in
            if starts_with_char "}"%char s' then Some (v ← hook []; Ok (v, sdrop 1 s'))
            else json_members fuel [] s'
          else if Ascii.eqb c "["%char then
            let s' := skip_ws s' in
            if starts_with_char "]"%char s' then Some (Ok (JList [], sdrop 1 s'))
            else json_elements fuel [] s'
          else Some (read_atom s)
      end
  end
with json_elements (fuel : nat) (items : list Json) (s : string) :
    option (result Exn (Json * string)) :=
  match fuel with
  | O => None
  | S fuel =>
      match json_value fuel s with
      | None => None
      | Some (Raise e) => Some (Raise e)
      | Some (Ok (v, rest)) =>
          match peek_char (skip_ws rest) with
          | Raise e => Some (Raise e)
          | Ok (c, rest) =>
              if Ascii.eqb c "]"%char then Some (Ok (JList (items ++ [v]), rest))
              else if Ascii.eqb c ","%char then json_elements fuel (items ++ [v]) (skip_ws rest)
              else Some (Raise JSONDecodeError)
          end
      end
  end
with json_members (fuel : nat) (pairs : list (string * Json)) (s : string) :
    option (result Exn (Json * string)) :=
  match fuel with
  | O => None
  | S fuel =>
      match (s ← expect_char dq s; '(key, rest) ← json_chars 0 s;
             rest ← expect_char ":"%char (skip_ws rest); Ok (key, skip_ws rest)) with
      | Raise e => Some (Raise e)
      | Ok (key, rest) =>
          match json_value fuel rest with
          | None => None
          | Some (Raise e) => Some (Raise e)
          | Some (Ok (v, rest)) =>
              match peek_char (skip_ws rest) with
              | Raise e => Some (Raise e)
              | Ok (c, rest) =>
                  if Ascii.eqb c "}"%char then Some (v ← hook (pairs ++ [(key, v)]); Ok (v, rest))
                  else if Ascii.eqb c ","%char
                  then json_members fuel (pairs ++ [(key, v)]) (skip_ws rest)
                  else Some (Raise JSONDecodeError)
              end
          end
      end
  end.

Lemma json_value_S fuel c s' : json_value (S fuel) (String c s') =
  if Ascii.eqb c dq then Some ('(chars, rest) ← json_chars 0 s'; Ok (JStr chars, rest))
  else if Ascii.eqb c "{"%char then
    if starts_with_char "}"%char (skip_ws s') then Some (v ← hook []; Ok (v, sdrop 1 (skip_ws s')))
    else json_members fuel [] (skip_ws s')
  else if Ascii.eqb c "["%char then
    if starts_with_char "]"%char (skip_ws s') then Some (Ok (JList [], sdrop 1 (skip_ws s')))
    else json_elements fuel [] (skip_ws s')
  else Some (read_atom (String c s')).
Proof. reflexivity. Qed.

Lemma json_elements_S fuel items s : json_elements (S fuel) items s =
  match json_value fuel s with
  | None => None
  | Some (Raise e) => Some (Raise e)
  | Some (Ok (v, rest)) =>
      match peek_char (skip_ws rest) with
      | Raise e => Some (Raise e)
      | Ok (c, rest) =>
          if Ascii.eqb c "]"%char then Some (Ok (JList (items ++ [v]), rest))
          else if Ascii.eqb c ","%char then json_elements fuel (items ++ [v]) (skip_ws rest)
          else Some (Raise JSONDecodeError)
      end
  end.
Proof. reflexivity. Qed.

(** The key of a member, up to the first character of its value. *)
Definition read_key (s : string) : result Exn (string * string) :=
  s ← expect_char dq s; '(key, rest) ← json_chars 0 s;
  rest ← expect_char ":"%char (skip_ws rest); Ok (key, skip_ws rest).

Lemma json_members_S fuel pairs s : json_members (S fuel) pairs s =
  match read_key s with
  | Raise e => Some (Raise e)
  | Ok (key, rest) =>
      match json_value fuel rest with
      | None => None
      | Some (Raise e) => Some (Raise e)
      | Some (Ok (v, rest)) =>
          match peek_char (skip_ws rest) with
          | Raise e => Some (Raise e)
          | Ok (c, rest) =>
              if Ascii.eqb c "}"%char then Some (v ← hook (pairs ++ [(key, v)]); Ok (v, rest))
              else if Ascii.eqb c ","%char
              then json_members fuel (pairs ++ [(key, v)]) (skip_ws rest)
              else Some (Raise JSONDecodeError)
          end
      end
  end.
Proof. reflexivity. Qed.

(** [json.loads(s, object_pairs_hook=hook)]. *)
Definition json_loads (s : string) : option (result Exn Json) :=
  match json_value (2 * String.length s + 1) (skip_ws s) with
  | None => None
  | Some r =>
      Some ('(v, rest) ← r;
            if bool_decide (skip_ws rest = "") then Ok v else Raise JSONDecodeError)
  end.
End reader.

(** A hook that refuses a repeated key, and the body of its loop. *)
Definition add_member (duplicate : string → Exn) (d : dict string Json) (member : string * Json) :
    result Exn (dict string Json) :=
  let '(key, value) := member in
  if dmem key d then Raise (duplicate key) else Ok (dset key value d).
Definition reject_duplicates (duplicate : string → Exn) (pairs : list (string * Json)) :
    result Exn Json :=
  JObj <$> foldM (add_member duplicate) [] pairs.

(** [sorted(keys - actual)] and [sorted(actual - keys)] for the keys of an object. *)
Definition shape_difference (d : dict string Json) (keys : list string) :
    list string * list string :=
  (sort_by str_leb (filter (λ k, k ∉ dkeys d) keys),
   sort_by str_leb (filter (λ k, k ∉ keys) (dkeys d))).

(** [str(list)] of a list of strings. *)
Definition repr_list (l : list string) : string :=
  "[" +:+ str_join ", " (repr_str <$> l) +:+ "]".

(** [object[key]]. *)
Definition field (d : dict string Json) (key : string) : result Exn Json :=
  of_option (KeyError key) (dget key d).

(** An object with the last value of each key: [json.loads] without a hook. *)
Definition default_hook (pairs : list (string * Json)) : result Exn Json := Ok (JObj (dict_of pairs)).

Example json_reads :
  json_loads id default_hook (" { " +:+ json_quote "a" +:+ " : [1, -0.5e3, null] , "
    +:+ json_quote "b" +:+ ":{}}")
  = Some (Ok (JObj [("a", JList [JInt 1; JFloat "-0.5e3"; JNull]); ("b", JObj [])])).
Proof. vm_compute. reflexivity. Qed.
