(* ===== verification/JsonFacts.v ===== *)
(** * Facts about [json.dumps] and [json.loads]

    The reader makes progress, so twice the length of a text is enough fuel;
    what it reads is well formed; and it reads back what the writer writes,
    with the members of every object in the order of their keys ([tidy]). *)

From Stdlib Require Import Ascii.
From S2P Require Import Prelude PyDict GraphTypes Receipts Text Merkle EvidenceModel SchemeDatum Sort Json.

(** ** Strings *)

Lemma json_chars_escape_char c t :
  json_chars 0 (json_escape_char c +:+ t)
    = ('(chars, rest) ← json_chars 0 t; Ok (String c chars, rest)).
Proof. destruct c as [[] [] [] [] [] [] [] []]; reflexivity. Qed.

Lemma json_chars_escape s rest : json_chars 0 (json_escape s +:+ String dq rest) = Ok (s, rest).
Proof.
  induction s as [|c s IH]; [done|]. cbn [json_escape].
  by rewrite sapp_assoc, json_chars_escape_char, IH.
Qed.

Lemma json_chars_length s : ∀ skip chars rest,
  json_chars skip s = Ok (chars, rest) → (String.length rest < String.length s)%nat.
Proof.
  induction s as [|c s IH]; intros skip chars rest H; [done|]. cbn [json_chars] in H.
  assert (∀ n f, ('(chars, rest) ← json_chars n s; Ok (f chars, rest)) = Ok (chars, rest) →
            (String.length rest < S (String.length s))%nat) as Hrec.
  { intros n f Hb. apply bind_Ok in Hb as ([cs r] & Hb & [= _ <-]). apply IH in Hb. lia. }
  simpl. destruct skip as [|n]; [|apply IH in H; lia].
  destruct (Ascii.eqb c dq); [injection H as _ <-; lia|].
  destruct (Ascii.eqb c bs).
  - destruct s as [|e s']; [done|]. destruct (Ascii.eqb e "u"%char).
    + apply bind_Ok in H as ([z n] & _ & H). by eapply Hrec.
    + apply bind_Ok in H as (d & _ & H). by eapply Hrec.
  - destruct (_ <? _)%nat; [done|]. by eapply Hrec.
Qed.

(** ** Numbers and constants *)

Lemma span_digits_length s :
  (String.length (span_digits s).1 + String.length (span_digits s).2 = String.length s)%nat.
Proof.
  induction s as [|c s IH]; [done|]. cbn [span_digits]. destruct (is_digit c); [|done].
  destruct (span_digits s). simpl in *. lia.
Qed.

Lemma fraction_length s : (String.length (fraction s).2 ≤ String.length s)%nat.
Proof.
  destruct s as [|c s]; [done|]. unfold fraction.
  assert ((String.length (let '(digits, rest) := span_digits s in
    if bool_decide (digits = "") then ("", String "." s) else (String "." digits, rest)).2
    ≤ S (String.length s))%nat) as H.
  { pose proof (span_digits_length s). destruct (span_digits s) as [d r]. simpl in *.
    case_bool_decide; simpl; lia. }
  destruct c as [[] [] [] [] [] [] [] []]; solve [exact H|done].
Qed.

Lemma exponent_length s : (String.length (exponent s).2 ≤ String.length s)%nat.
Proof.
  assert (∀ c s', (String.length (let '(sign, s1) := match s' with
      | String ("+" | "-")%char s1 => (String.substring 0 1 s', s1) | _ => ("", s') end in
    let '(digits, rest) := span_digits s1 in
    if bool_decide (digits = "") then ("", String c s')
    else (String.substring 0 1 (String c s') +:+ sign +:+ digits, rest)).2
    ≤ S (String.length s'))%nat) as H.
  { intros c s'. set (m := match s' with String ("+" | "-")%char _ => _ | _ => _ end).
    assert (String.length m.2 ≤ String.length s')%nat as Hm.
    { unfold m. destruct s' as [|d s']; [done|].
      destruct d as [[] [] [] [] [] [] [] []]; simpl; lia. }
    destruct m as [sign s1]. pose proof (span_digits_length s1).
    destruct (span_digits s1) as [d r]. simpl in *. case_bool_decide; simpl; lia. }
  destruct s as [|c s]; [done|]. unfold exponent.
  destruct c as [[] [] [] [] [] [] [] []]; solve [apply H|done].
Qed.

Lemma integer_part_length s d rest :
  integer_part s = Some (d, rest) → (String.length rest < String.length s)%nat.
Proof.
  destruct s as [|c s]; [done|]. unfold integer_part. destruct (Ascii.eqb c _).
  - intros [= _ <-]. simpl. lia.
  - cbn [span_digits]. destruct (is_digit c); [|done]. pose proof (span_digits_length s).
    destruct (span_digits s) as [ds r]. intros [= _ <-]. simpl in *. lia.
Qed.

Lemma read_atom_length float_repr s v rest :
  read_atom float_repr s = Ok (v, rest) → (String.length rest < String.length s)%nat.
Proof.
  unfold read_atom. destruct (list_find _ constants) as [[i [text v']]|] eqn:E.
  - apply list_find_Some in E as (Hi & Hp & _). intros [= _ <-]. rewrite sdrop_length.
    assert (0 < String.length text ∧ String.length text ≤ String.length s)%nat; [|lia].
    split.
    + unfold constants in Hi. do 6 (destruct i as [|i]; [by injection Hi as <- _; simpl; lia|]).
      done.
    + clear -Hp. revert s Hp. induction text as [|c t IH]; intros [|d s] Hp; simpl in *; [lia..|done|].
      destruct (ascii_dec c d); [|done]. apply IH in Hp. lia.
  - unfold read_number. intros H. apply bind_Ok in H as ([int r] & H & Hr).
    apply of_option_Ok in H. assert (String.length r < String.length s)%nat as Hl.
    { unfold signed_integer in H. destruct (starts_with_char _ s) eqn:Es.
      - apply bind_Some in H as ([d r'] & Ei & [= _ <-]).
        apply integer_part_length in Ei. rewrite sdrop_length in Ei. lia.
      - by eapply integer_part_length. }
    pose proof (fraction_length r). destruct (fraction r) as [f r1]. simpl in *.
    pose proof (exponent_length r1). destruct (exponent r1) as [x r2]. simpl in *.
    destruct (_ && _); [apply bind_Ok in Hr as (z & _ & [= _ <-])|injection Hr as _ <-]; lia.
Qed.

(** ** Progress *)

Lemma skip_ws_length s : (String.length (skip_ws s) ≤ String.length s)%nat.
Proof. induction s as [|c s IH]; [done|]. cbn [skip_ws]. destruct (is_ws c); simpl in *; lia. Qed.

Lemma peek_char_Ok s c rest : peek_char s = Ok (c, rest) ↔ s = String c rest.
Proof. destruct s; naive_solver. Qed.

Lemma expect_char_Ok c s rest : expect_char c s = Ok rest ↔ s = String c rest.
Proof.
  unfold expect_char. destruct s as [|d s]; [done|]. simpl.
  destruct (Ascii.eqb_spec d c); naive_solver.
Qed.

Lemma read_key_length s key rest :
  read_key s = Ok (key, rest) → (String.length rest < String.length s)%nat.
Proof.
  unfold read_key. intros H. apply bind_Ok in H as (s1 & ->%expect_char_Ok & H).
  apply bind_Ok in H as ([k r] & Hk & H). apply bind_Ok in H as (r1 & Hr & [= -> <-]).
  apply expect_char_Ok in Hr. apply json_chars_length in Hk. pose proof (skip_ws_length r).
  pose proof (skip_ws_length r1). rewrite Hr in *. simpl in *. lia.
Qed.

Section progress.
Context (float_repr : string → string) (hook : list (string * Json) → result Exn Json).

Lemma json_consumes fuel :
  (∀ s v rest, json_value float_repr hook fuel s = Some (Ok (v, rest)) →
     (String.length rest < String.length s)%nat) ∧
  (∀ items s v rest, json_elements float_repr hook fuel items s = Some (Ok (v, rest)) →
     (String.length rest < String.length s)%nat) ∧
  (∀ pairs s v rest, json_members float_repr hook fuel pairs s = Some (Ok (v, rest)) →
     (String.length rest < String.length s)%nat).
Proof.
  induction fuel as [|fuel (IHv & IHe & IHm)]; [done|]. split_and!.
  - intros [|c s] v rest H; [done|]. rewrite json_value_S in H. pose proof (skip_ws_length s) as Hs.
    destruct (Ascii.eqb c dq); [|destruct (Ascii.eqb c _); [|destruct (Ascii.eqb c _)]].
    + injection H as H. apply bind_Ok in H as ([cs r] & H & [= _ <-]).
      apply json_chars_length in H. simpl. lia.
    + destruct (starts_with_char _ _).
      * apply (inj Some) in H. apply bind_Ok in H as (o & _ & H).
        assert (rest = sdrop 1 (skip_ws s)) as -> by congruence. rewrite sdrop_length. simpl. lia.
      * apply IHm in H. simpl. lia.
    + destruct (starts_with_char _ _).
      * assert (rest = sdrop 1 (skip_ws s)) as -> by congruence. rewrite sdrop_length. simpl. lia.
      * apply IHe in H. simpl. lia.
    + injection H as H. by apply read_atom_length in H.
  - intros items s v rest H. rewrite json_elements_S in H.
    destruct (json_value _ _ fuel s) as [[[v1 r1]|e]|] eqn:E; [|done|done]. apply IHv in E.
    pose proof (skip_ws_length r1). destruct (peek_char _) as [[c r2]|e] eqn:Ep; [|done].
    apply peek_char_Ok in Ep. rewrite Ep in *. simpl in *. pose proof (skip_ws_length r2).
    destruct (Ascii.eqb c _); [injection H as _ <-; lia|].
    destruct (Ascii.eqb c _); [apply IHe in H; lia|done].
  - intros pairs s v rest H. rewrite json_members_S in H.
    destruct (read_key s) as [[key r0]|e] eqn:Ek; [|done]. apply read_key_length in Ek.
    destruct (json_value _ _ fuel r0) as [[[v1 r1]|e]|] eqn:E; [|done|done]. apply IHv in E.
    pose proof (skip_ws_length r1). destruct (peek_char _) as [[c r2]|e] eqn:Ep; [|done].
    apply peek_char_Ok in Ep. rewrite Ep in *. simpl in *. pose proof (skip_ws_length r2).
    destruct (Ascii.eqb c _).
    + injection H as H. apply bind_Ok in H as (o & _ & [= _ <-]). lia.
    + destruct (Ascii.eqb c _); [apply IHm in H; lia|done].
Qed.

(** Twice the length of the text is enough fuel. *)
Lemma json_total fuel :
  (∀ s, (2 * String.length s + 1 ≤ fuel)%nat → json_value float_repr hook fuel s ≠ None) ∧
  (∀ items s, (2 * String.length s + 2 ≤ fuel)%nat → json_elements float_repr hook fuel items s ≠ None) ∧
  (∀ pairs s, (2 * String.length s + 2 ≤ fuel)%nat → json_members float_repr hook fuel pairs s ≠ None).
Proof.
  induction fuel as [|fuel (IHv & IHe & IHm)]; [split_and!; intros; lia|]. split_and!.
  - intros [|c s] Hf; [done|]. rewrite json_value_S. pose proof (skip_ws_length s). simpl in Hf.
    destruct (Ascii.eqb c dq); [done|]. destruct (Ascii.eqb c _);
      [|destruct (Ascii.eqb c _); [|done]]; (destruct (starts_with_char _ _); [done|]);
      [apply IHm|apply IHe]; lia.
  - intros items s Hf. rewrite json_elements_S.
    destruct (json_value _ _ fuel s) as [[[v1 r1]|e]|] eqn:E; [|done|by apply IHv in E; [|lia]].
    apply (proj1 (json_consumes fuel)) in E.
    pose proof (skip_ws_length r1). destruct (peek_char _) as [[c r2]|e] eqn:Ep; [|done].
    apply peek_char_Ok in Ep. rewrite Ep in *. simpl in *. pose proof (skip_ws_length r2).
    destruct (Ascii.eqb c _); [done|]. destruct (Ascii.eqb c _); [apply IHe; lia|done].
  - intros pairs s Hf. rewrite json_members_S.
    destruct (read_key s) as [[key r0]|e] eqn:Ek; [|done]. apply read_key_length in Ek.
    destruct (json_value _ _ fuel r0) as [[[v1 r1]|e]|] eqn:E; [|done|by apply IHv in E; [|lia]].
    apply (proj1 (json_consumes fuel)) in E.
    pose proof (skip_ws_length r1). destruct (peek_char _) as [[c r2]|e] eqn:Ep; [|done].
    apply peek_char_Ok in Ep. rewrite Ep in *. simpl in *. pose proof (skip_ws_length r2).
    destruct (Ascii.eqb c _); [done|]. destruct (Ascii.eqb c _); [apply IHm; lia|done].
Qed.

Lemma json_loads_total s : json_loads float_repr hook s ≠ None.
Proof.
  unfold json_loads.
  destruct (json_value float_repr hook (2 * String.length s + 1) (skip_ws s)) eqn:E; [done|].
  exfalso. revert E. apply (proj1 (json_total _)). pose proof (skip_ws_length s). lia.
Qed.
End progress.

(** ** Round trip *)

Section json_induction.
Variable P : Json → Prop.
Hypothesis (HN : P JNull) (HB : ∀ b, P (JBool b)) (HI : ∀ z, P (JInt z)) (HF : ∀ s, P (JFloat s)).
Hypothesis (HS : ∀ s, P (JStr s)).
Hypothesis (HL : ∀ l, Forall P l → P (JList l)).
Hypothesis (HO : ∀ d, Forall (λ m, P m.2) d → P (JObj d)).

Fixpoint json_ind (v : Json) : P v :=
  let items := fix items (l : list Json) : Forall P l :=
    match l with [] => Forall_nil_2 P | x :: l => Forall_cons_2 P x l (json_ind x) (items l) end in
  let members := fix members (d : list (string * Json)) : Forall (λ m, P m.2) d :=
    match d with
    | [] => Forall_nil_2 _
    | (k, x) :: d => Forall_cons_2 (λ m, P m.2) (k, x) d (json_ind x) (members d)
    end in
  match v with
  | JNull => HN | JBool b => HB b | JInt z => HI z | JFloat s => HF s | JStr s => HS s
  | JList l => HL l (items l) | JObj d => HO d (members d)
  end.
End json_induction.

Section round_trip.
Context (float_repr : string → string).

(** What may follow a value inside a text, and the first character of one. *)
Definition delimiter (s : string) : bool :=
  match s with EmptyString => true | String c _ => existsb (Ascii.eqb c) [","%char; "]"%char; "}"%char; chr 0] end.
(** White space may come between the value and that. *)
Definition value_end (s : string) : bool :=
  match s with EmptyString => true | String c _ => Ascii.eqb c nl || delimiter s end.
Definition value_start (c : ascii) : bool :=
  is_digit c || existsb (Ascii.eqb c)
    [dq; "-"%char; "n"%char; "t"%char; "f"%char; "N"%char; "I"%char; "["%char; "{"%char].

(** The text of a float: it is not taken for anything else, and reads back. *)
Definition starts_as_number (s : string) : Prop :=
  ∃ c t, s = String c t ∧ value_start c = true ∧
    Ascii.eqb c dq = false ∧ Ascii.eqb c "{"%char = false ∧ Ascii.eqb c "["%char = false.
Definition float_text (s : string) : Prop :=
  starts_as_number s ∧
  ∀ rest, value_end rest = true → read_atom float_repr (s +:+ rest) = Ok (JFloat s, rest).

(** The members of an object are in the order of their keys, and the texts of
    floats are such texts. *)
Inductive canonical : Json → Prop :=
| canonical_null : canonical JNull
| canonical_bool b : canonical (JBool b)
| canonical_int z : canonical (JInt z)
| canonical_float s : float_text s → canonical (JFloat s)
| canonical_str s : canonical (JStr s)
| canonical_list l : Forall canonical l → canonical (JList l)
| canonical_obj d : NoDup d.*1 → StronglySorted (ordered key_leb) d →
    Forall (λ m, canonical m.2) d → canonical (JObj d).

(** A check of both conditions on the keys, for objects with known keys. *)
Fixpoint increasing (keys : list string) : bool :=
  match keys with
  | k :: (k' :: _) as rest => str_leb k k' && negb (bool_decide (k = k')) && increasing rest
  | _ => true
  end.

Lemma increasing_spec keys :
  increasing keys = true → NoDup keys ∧ StronglySorted (ordered str_leb) keys.
Proof.
  induction keys as [|k keys IH]; intros H; [by split; constructor|].
  assert (increasing keys = true) as Hk.
  { destruct keys; [done|]. cbn [increasing] in H. by apply andb_true_iff in H as [_ ?]. }
  destruct (IH Hk) as [Hnd Hs].
  assert (Forall (λ x, str_leb k x = true ∧ k ≠ x) keys) as Hall.
  { destruct keys as [|k' keys]; [constructor|]. cbn [increasing] in H.
    apply andb_true_iff in H as [[Hle Hne%negb_true_iff%bool_decide_eq_false]%andb_true_iff _].
    apply Forall_cons. split; [done|]. apply StronglySorted_inv in Hs as [_ Hs].
    rewrite Forall_forall in Hs |- *. intros x Hx. pose proof (Hs x Hx) as Hk'x.
    split; [by eapply str_leb_trans|]. intros ->. apply Hne, str_leb_anti; done. }
  rewrite Forall_forall in Hall. split.
  - constructor; [|done]. intros Hin. by apply Hall in Hin as [_ ?].
  - constructor; [done|]. apply Forall_forall. intros x Hx. by apply Hall.
Qed.

Lemma canonical_members d : increasing d.*1 = true → Forall (λ m, canonical m.2) d → canonical (JObj d).
Proof.
  intros [Hnd Hs]%increasing_spec Hd. constructor; [done| |done]. clear Hnd Hd.
  induction d as [|[k v] d IH]; [constructor|]. csimpl in Hs. apply StronglySorted_inv in Hs as [Hs Hk].
  constructor; [by apply IH|]. rewrite Forall_fmap in Hk. exact Hk.
Qed.

Lemma pretty_pos_head x s : (0 < x)%N →
  ∃ c t, pretty_N_go x s = String c t ∧ is_digit c = true ∧ c ≠ "0"%char.
Proof.
  revert s. induction (N.lt_wf_0 x) as [x _ IH]; intros s Hx. rewrite pretty_N_go_step by done.
  destruct (decide (x / 10 = 0)%N) as [E|E].
  - rewrite E, pretty_N_go_0. do 2 eexists. split; [done|].
    assert (x < 10)%N as Hlt by (apply N.div_small_iff in E; lia).
    rewrite N.mod_small by done.
    destruct x as [|p]; [lia|]. do 4 (destruct p as [p|p|]; try lia; try by split).
  - apply N.neq_0_lt_0 in E. by apply (IH (x / 10)%N); [apply N.div_lt; lia|].
Qed.

Lemma str_of_pos_head p : ∃ c t, str_of_Z (Zpos p) = String c t ∧ is_digit c = true ∧ c ≠ "0"%char.
Proof. exact (pretty_pos_head (Npos p) "" ltac:(lia)). Qed.

Lemma delimiter_value_end s : delimiter s = true → value_end s = true.
Proof. destruct s; [done|]. intros H. by apply orb_true_intro; right. Qed.

Lemma value_end_not_number c s : value_end (String c s) = true →
  is_digit c = false ∧ fraction (String c s) = ("", String c s) ∧ exponent (String c s) = ("", String c s).
Proof. destruct c as [[] [] [] [] [] [] [] []]; intros H; solve [discriminate H|done]. Qed.

Lemma span_digits_app d rest :
  sforall is_digit d = true → value_end rest = true → span_digits (d +:+ rest) = (d, rest).
Proof.
  intros Hd Hr. induction d as [|c d IH].
  - rewrite sapp_nil_l. destruct rest as [|c rest]; [done|]. cbn [span_digits].
    by destruct (value_end_not_number c rest Hr) as (-> & _).
  - apply sforall_cons in Hd as [Hc Hd]. rewrite sapp_cons. cbn [span_digits].
    by rewrite Hc, (IH Hd).
Qed.

Lemma integer_part_app p rest : value_end rest = true →
  integer_part (str_of_Z (Zpos p) +:+ rest) = Some (str_of_Z (Zpos p), rest).
Proof.
  intros Hr. pose proof (span_digits_app (str_of_Z (Zpos p)) rest (str_of_pos_digits p) Hr) as Hs.
  destruct (str_of_pos_head p) as (c & t & E & Hc & H0). rewrite E in *. rewrite sapp_cons in *.
  unfold integer_part. apply Ascii.eqb_neq in H0. by rewrite H0, Hc, Hs.
Qed.

Lemma read_number_int z rest : value_end rest = true →
  read_number float_repr (str_of_Z z +:+ rest) = Ok (JInt z, rest).
Proof.
  intros Hr. unfold read_number.
  assert (signed_integer (str_of_Z z +:+ rest) = Some (str_of_Z z, rest)) as ->.
  { destruct z as [|p|p]; [done| |].
    - unfold signed_integer. destruct (str_of_pos_head p) as (c & t & E & Hc & _).
      assert (starts_with_char "-" (str_of_Z (Zpos p) +:+ rest) = false) as ->.
      { rewrite E, sapp_cons. revert Hc. clear.
        destruct c as [[] [] [] [] [] [] [] []]; intros H; solve [discriminate H|done]. }
      by apply integer_part_app.
    - change (str_of_Z (Zneg p)) with (String "-" (str_of_Z (Zpos p))). rewrite sapp_cons.
      unfold signed_integer. cbn [starts_with_char]. change (Ascii.eqb "-" "-") with true. cbv iota.
      replace (sdrop 1 (String "-" (str_of_Z (Zpos p) +:+ rest))) with (str_of_Z (Zpos p) +:+ rest)
        by by destruct (str_of_Z (Zpos p) +:+ rest).
      by rewrite integer_part_app. }
  cbn [of_option mbind result_bind].
  assert (fraction rest = ("", rest) ∧ exponent rest = ("", rest)) as [-> ->].
  { destruct rest as [|c rest]; [done|]. by apply value_end_not_number. }
  by rewrite int10_str_of_Z.
Qed.

Lemma read_atom_digit c s : is_digit c = true →
  read_atom float_repr (String c s) = read_number float_repr (String c s) ∧
  read_atom float_repr (String "-" (String c s)) = read_number float_repr (String "-" (String c s)).
Proof. destruct c as [[] [] [] [] [] [] [] []]; intros H; solve [discriminate H|done]. Qed.

Lemma read_atom_int z rest : value_end rest = true →
  read_atom float_repr (str_of_Z z +:+ rest) = Ok (JInt z, rest).
Proof.
  intros Hr. rewrite <-(read_number_int z rest Hr). destruct z as [|p|p].
  - apply (read_atom_digit "0"%char). done.
  - destruct (str_of_pos_head p) as (c & t & -> & Hc & _). rewrite sapp_cons.
    by apply read_atom_digit.
  - change (str_of_Z (Zneg p)) with (String "-" (str_of_Z (Zpos p))).
    destruct (str_of_pos_head p) as (c & t & -> & Hc & _). rewrite !sapp_cons.
    by apply read_atom_digit.
Qed.

Lemma value_start_facts c :
  value_start c = true → is_ws c = false ∧ Ascii.eqb c "]"%char = false.
Proof. destruct c as [[] [] [] [] [] [] [] []]; intros H; solve [discriminate H|done]. Qed.

Lemma str_of_Z_head z : starts_as_number (str_of_Z z).
Proof.
  destruct z as [|p|p].
  - by exists "0"%char, "".
  - destruct (str_of_pos_head p) as (c & t & E & Hc & _). exists c, t. split; [done|].
    clear E. revert Hc. destruct c as [[] [] [] [] [] [] [] []]; intros H; solve [discriminate H|done].
  - exists "-"%char, (str_of_Z (Zpos p)). done.
Qed.

Lemma write_json_start v : canonical v → ∃ c t, write_json v = String c t ∧ value_start c = true.
Proof.
  intros Hv. destruct Hv as [|[]|z|s (Hs & _)|s|l|d]; try by eexists _, _.
  2:{ destruct Hs as (c & t & -> & Hc & _). eauto. }
  cbn [write_json]. destruct (str_of_Z_head z) as (c & t & -> & Hc & _). eauto.
Qed.

Lemma skip_ws_value v rest : canonical v → skip_ws (write_json v +:+ rest) = write_json v +:+ rest.
Proof.
  intros Hv. destruct (write_json_start v Hv) as (c & t & -> & Hc). rewrite sapp_cons.
  cbn [skip_ws]. by destruct (value_start_facts c Hc) as [-> _].
Qed.

Context (hook : list (string * Json) → result Exn Json).
(** The hook answers a dictionary when no key is repeated. *)
Context (Hhook : ∀ d, NoDup d.*1 → hook d = Ok (JObj d)).

Definition json_reads_back (v : Json) : Prop := canonical v → ∀ rest fuel,
  delimiter rest = true → (2 * String.length (write_json v +:+ rest) + 1 ≤ fuel)%nat →
  json_value float_repr hook fuel (write_json v +:+ rest) = Some (Ok (v, rest)).

Lemma json_elements_cons fuel items v sep rest :
  json_reads_back v → canonical v → delimiter (String sep rest) = true →
  (2 * String.length (write_json v +:+ String sep rest) + 2 ≤ S fuel)%nat →
  json_elements float_repr hook (S fuel) items (write_json v +:+ String sep rest) =
    if Ascii.eqb sep "]"%char then Some (Ok (JList (items ++ [v]), rest))
    else if Ascii.eqb sep ","%char then json_elements float_repr hook fuel (items ++ [v]) (skip_ws rest)
    else Some (Raise JSONDecodeError).
Proof.
  intros Hv Hc Hd Hf. rewrite json_elements_S. rewrite Hv by (done || lia).
  assert (skip_ws (String sep rest) = String sep rest) as ->; [|done].
  revert Hd. clear. destruct sep as [[] [] [] [] [] [] [] []]; intros H; solve [discriminate H|done].
Qed.

Lemma json_elements_join l rest : Forall json_reads_back l → Forall canonical l → l ≠ [] →
  ∀ fuel items,
    (2 * String.length (str_join "," (map write_json l) +:+ String "]" rest) + 2 ≤ fuel)%nat →
    json_elements float_repr hook fuel items (str_join "," (map write_json l) +:+ String "]" rest)
      = Some (Ok (JList (items ++ l), rest)).
Proof.
  intros Hl Hc. revert Hc. induction Hl as [|v l Hv Hl IH]; intros Hc Hne fuel items Hf; [done|].
  apply Forall_cons in Hc as [Hcv Hc]. destruct fuel as [|fuel]; [lia|]. destruct l as [|v2 l].
  - cbn [map str_join] in *. by rewrite json_elements_cons.
  - change (str_join "," (map write_json (v :: v2 :: l)))
      with (write_json v +:+ String "," (str_join "," (map write_json (v2 :: l)))) in *.
    rewrite sapp_assoc, sapp_cons in *. rewrite json_elements_cons by done.
    change (Ascii.eqb "," "]") with false. change (Ascii.eqb "," ",") with true. cbv iota.
    assert (skip_ws (str_join "," (map write_json (v2 :: l)) +:+ String "]" rest)
            = str_join "," (map write_json (v2 :: l)) +:+ String "]" rest) as ->.
    { assert (∃ t, str_join "," (map write_json (v2 :: l)) = write_json v2 +:+ t) as [t ->].
      { destruct l as [|v3 l]; [exists ""; by rewrite sapp_nil_r|by eexists]. }
      rewrite sapp_assoc. apply skip_ws_value. by apply Forall_cons in Hc as [? _]. }
    rewrite IH; [by rewrite <-app_assoc|done|done|].
    rewrite slen_app in Hf. simpl in *. lia.
Qed.

(** The written members of a sorted object. *)
Definition member_text (m : string * Json) : string := json_quote m.1 +:+ ":" +:+ write_json m.2.

Lemma sorted_members d : StronglySorted (ordered key_leb) d →
  sort_by key_leb (map (λ '(k, v), (k, write_json v)) d) = map (λ '(k, v), (k, write_json v)) d.
Proof.
  intros Hd. apply sort_by_idem.
  induction Hd as [|[k v] d Hd IH Hm]; simpl; constructor; [done|].
  apply Forall_map. eapply Forall_impl; [exact Hm|]. by intros [k' v'].
Qed.

Lemma write_json_obj d : StronglySorted (ordered key_leb) d →
  write_json (JObj d) = "{" +:+ str_join "," (map member_text d) +:+ "}".
Proof.
  intros Hd. cbn [write_json]. rewrite sorted_members by done. do 2 f_equal.
  f_equal. clear. induction d as [|[k v] d IH]; [done|]. csimpl. by rewrite IH.
Qed.

Lemma json_members_cons fuel pairs k v sep rest :
  json_reads_back v → canonical v → delimiter (String sep rest) = true →
  (2 * String.length (member_text (k, v) +:+ String sep rest) + 2 ≤ S fuel)%nat →
  json_members float_repr hook (S fuel) pairs (member_text (k, v) +:+ String sep rest) =
    if Ascii.eqb sep "}"%char then Some (o ← hook (pairs ++ [(k, v)]); Ok (o, rest))
    else if Ascii.eqb sep ","%char then json_members float_repr hook fuel (pairs ++ [(k, v)]) (skip_ws rest)
    else Some (Raise JSONDecodeError).
Proof.
  intros Hv Hc Hd Hf. rewrite json_members_S.
  set (text := member_text (k, v) +:+ String sep rest) in *.
  assert (text = String dq (json_escape k +:+ String dq (String ":" (write_json v +:+ String sep rest))))
    as E.
  { unfold text, member_text, json_quote. cbn [fst snd].
    by rewrite !sapp_assoc, !sapp_cons, !sapp_assoc, !sapp_cons, !sapp_nil_l. }
  assert (read_key text = Ok (k, write_json v +:+ String sep rest)) as ->.
  { rewrite E. unfold read_key. rewrite (proj2 (expect_char_Ok dq _ _) eq_refl).
    cbn [mbind result_bind]. rewrite json_chars_escape. cbn [mbind result_bind skip_ws].
    change (is_ws ":"%char) with false. cbv iota.
    rewrite (proj2 (expect_char_Ok ":" _ _) eq_refl). cbn [mbind result_bind].
    by rewrite skip_ws_value. }
  rewrite Hv; [|done|done|].
  2:{ rewrite E in Hf. cbn [String.length] in Hf. rewrite slen_app in Hf. cbn [String.length] in Hf.
      lia. }
  assert (skip_ws (String sep rest) = String sep rest) as ->; [|done].
  revert Hd. clear. destruct sep as [[] [] [] [] [] [] [] []]; intros H; solve [discriminate H|done].
Qed.

Lemma json_members_join d rest : Forall (λ m, json_reads_back m.2) d →
  Forall (λ m, canonical m.2) d → d ≠ [] →
  ∀ fuel pairs, NoDup (pairs ++ d).*1 →
    (2 * String.length (str_join "," (map member_text d) +:+ String "}" rest) + 2 ≤ fuel)%nat →
    json_members float_repr hook fuel pairs (str_join "," (map member_text d) +:+ String "}" rest)
      = Some (Ok (JObj (pairs ++ d), rest)).
Proof.
  intros Hl Hc. revert Hc. induction Hl as [|[k v] d Hv Hl IH]; intros Hc Hne fuel pairs Hnd Hf;
    [done|].
  apply Forall_cons in Hc as [Hcv Hc]. destruct fuel as [|fuel]; [lia|]. destruct d as [|[k2 v2] d].
  - cbn [map str_join] in *. rewrite json_members_cons by done.
    change (Ascii.eqb "}" "}") with true. cbv iota. by rewrite Hhook.
  - change (str_join "," (map member_text ((k, v) :: (k2, v2) :: d)))
      with (member_text (k, v) +:+ String "," (str_join "," (map member_text ((k2, v2) :: d)))) in *.
    rewrite sapp_assoc, sapp_cons in *. rewrite json_members_cons by done.
    change (Ascii.eqb "," "}") with false. change (Ascii.eqb "," ",") with true. cbv iota.
    assert (skip_ws (str_join "," (map member_text ((k2, v2) :: d)) +:+ String "}" rest)
            = str_join "," (map member_text ((k2, v2) :: d)) +:+ String "}" rest) as ->.
    { by destruct d. }
    rewrite IH; [by rewrite <-app_assoc|done|done|by rewrite <-app_assoc|].
    rewrite slen_app in Hf. simpl in *. lia.
Qed.

Lemma json_value_write v : json_reads_back v.
Proof.
  induction v as [|b|z|s|s|l IH|d IH] using json_ind; intros Hc rest fuel Hd Hf;
    (destruct fuel as [|fuel]; [lia|]).
  - by destruct rest.
  - by destruct b, rest.
  - cbn [write_json] in *. pose proof (read_atom_int z rest (delimiter_value_end _ Hd)) as Hz.
    destruct (str_of_Z_head z) as (c & t & E & _ & H1 & H2 & H3). rewrite E, sapp_cons in *.
    rewrite json_value_S. by rewrite H1, H2, H3, Hz.
  - assert (float_text s) as [(c & t & E & _ & H1 & H2 & H3) Hs] by by inversion Hc.
    cbn [write_json] in *. specialize (Hs rest (delimiter_value_end _ Hd)). rewrite E, sapp_cons in *.
    rewrite json_value_S. by rewrite H1, H2, H3, Hs.
  - cbn [write_json]. unfold json_quote. rewrite sapp_cons, sapp_assoc, sapp_cons, sapp_nil_l.
    rewrite json_value_S. change (Ascii.eqb dq dq) with true. cbv iota.
    by rewrite json_chars_escape.
  - assert (Forall canonical l) as Hl by by inversion Hc.
    cbn [write_json] in *. rewrite !sapp_assoc, !sapp_cons, !sapp_nil_l in *.
    destruct l as [|v l]; [done|]. rewrite json_value_S.
    change (Ascii.eqb "[" dq) with false. change (Ascii.eqb "[" "{") with false.
    change (Ascii.eqb "[" "[") with true. cbv iota zeta.
    set (text := str_join "," (map write_json (v :: l)) +:+ String "]" rest) in *.
    assert (∃ t, text = write_json v +:+ t) as [t Ht].
    { unfold text. destruct l; [by eexists|]. by eexists (String "," _ +:+ _); rewrite <-sapp_assoc. }
    apply Forall_cons in Hl as Hv. destruct Hv as [Hv _].
    assert (skip_ws text = text) as -> by (rewrite Ht; by apply skip_ws_value).
    assert (starts_with_char "]" text = false) as ->.
    { rewrite Ht. destruct (write_json_start v Hv) as (c & t' & -> & Hs). rewrite sapp_cons.
      cbn [starts_with_char]. by apply value_start_facts. }
    unfold text in *. rewrite json_elements_join; [done|done|done|done|]. cbn [String.length] in Hf. lia.
  - inversion Hc as [| | | | | |? Hnd Hs Hl]; subst. rewrite write_json_obj in * by done.
    rewrite !sapp_assoc, !sapp_cons, !sapp_nil_l in *.
    destruct d as [|[k v] d].
    + rewrite json_value_S; cbn [map str_join]. by rewrite sapp_nil_l; cbn; rewrite (Hhook []).
    + rewrite json_value_S.
      change (Ascii.eqb "{" dq) with false. change (Ascii.eqb "{" "{") with true. cbv iota zeta.
      set (text := str_join "," (map member_text ((k, v) :: d)) +:+ String "}" rest) in *.
      assert (∃ t, text = String dq t) as [t Ht] by (unfold text; destruct d; by eexists).
      assert (skip_ws text = text) as -> by by rewrite Ht.
      assert (starts_with_char "}" text = false) as -> by by rewrite Ht.
      unfold text in *. rewrite json_members_join; [done|done|done|done|done|].
      cbn [String.length] in Hf. lia.
Qed.

(** [json.loads] reads what [json.dumps] wrote. *)
Lemma json_loads_write v : canonical v → json_loads float_repr hook (write_json v) = Some (Ok v).
Proof.
  intros Hc. unfold json_loads.
  pose proof (json_value_write v Hc "" (2 * String.length (write_json v) + 1)%nat eq_refl) as H.
  pose proof (skip_ws_value v "" Hc) as Hw. rewrite sapp_nil_r in H, Hw. rewrite Hw, H by lia.
  done.
Qed.

(** Texts of values can be told from what follows them. *)
Lemma write_json_followed v w a b : canonical v → canonical w →
  write_json v +:+ String (chr 0) a = write_json w +:+ String (chr 0) b → v = w ∧ a = b.
Proof.
  intros Hv Hw E.
  pose proof (json_value_write v Hv (String (chr 0) a) _ eq_refl (Nat.le_refl _)) as H1.
  pose proof (json_value_write w Hw (String (chr 0) b) _ eq_refl (Nat.le_refl _)) as H2.
  rewrite E, H2 in H1. by injection H1 as -> ->.
Qed.

(** ** Objects in any order of their members *)

Inductive well_formed : Json → Prop :=
| wf_null : well_formed JNull
| wf_bool b : well_formed (JBool b)
| wf_int z : well_formed (JInt z)
| wf_float s : float_text s → well_formed (JFloat s)
| wf_str s : well_formed (JStr s)
| wf_list l : Forall well_formed l → well_formed (JList l)
| wf_obj d : NoDup d.*1 → Forall (λ m, well_formed m.2) d → well_formed (JObj d).

(** A value with the members of its objects in the order of their keys. *)
Fixpoint tidy (v : Json) : Json :=
  match v with
  | JList l => JList (map tidy l)
  | JObj d => JObj (sort_by key_leb (map (λ '(k, v), (k, tidy v)) d))
  | _ => v
  end.

Lemma sort_by_map {A B} (leb : A → A → bool) (leb' : B → B → bool) (f : A → B) l :
  (∀ x y, leb' (f x) (f y) = leb x y) → sort_by leb' (map f l) = map f (sort_by leb l).
Proof.
  intros Hf. induction l as [|x l IH]; [done|]. simpl. rewrite IH. clear IH.
  induction (sort_by leb l) as [|y k IH]; [done|]. simpl. rewrite Hf.
  destruct (leb x y); [done|]. simpl. by rewrite IH.
Qed.

Lemma key_sorted {A} (l : list (string * A)) : StronglySorted (ordered key_leb) (sort_by key_leb l).
Proof.
  apply sort_by_sorted; [intros; apply str_leb_total|].
  intros x y z. apply str_leb_trans.
Qed.

Lemma write_json_tidy v : write_json (tidy v) = write_json v.
Proof.
  induction v as [|b|z|s|s|l IH|d IH] using json_ind; try done; cbn [tidy write_json].
  - do 3 f_equal. rewrite map_map. induction IH as [|v l Hv _ IHl]; [done|]. simpl. by rewrite Hv, IHl.
  - do 4 f_equal.
    rewrite (sort_by_map key_leb key_leb (λ '(k, v), (k, write_json v))) by (by intros [] []).
    rewrite (sort_by_map key_leb key_leb (λ '(k, v), (k, write_json v))) by (by intros [] []).
    rewrite sort_by_idem by apply key_sorted.
    rewrite (sort_by_map key_leb key_leb (λ '(k, v), (k, tidy v))) by (by intros [] []).
    rewrite map_map.
    assert (∀ m, m ∈ sort_by key_leb d → write_json (tidy m.2) = write_json m.2) as H.
    { intros m Hm%elem_of_sort_by. rewrite Forall_forall in IH. by apply IH. }
    induction (sort_by key_leb d) as [|[k v] l IHl]; [done|]. simpl.
    rewrite IHl by (intros m Hm; apply H; by right). f_equal. f_equal.
    apply (H (k, v)). by left.
Qed.

Lemma tidy_keys (d : list (string * Json)) :
  fst <$> map (λ '(k, v), (k, tidy v)) d = fst <$> d.
Proof. induction d as [|[k v] d IH]; [done|]. csimpl. by rewrite IH. Qed.

Lemma tidy_canonical v : well_formed v → canonical (tidy v).
Proof.
  induction v as [|b|z|s|s|l IH|d IH] using json_ind; intros Hv; inversion Hv as [| | | | |? Hl|? Hnd Hm];
    subst; cbn [tidy]; constructor; try done.
  - apply Forall_map. rewrite Forall_forall in *. auto.
  - rewrite (sort_by_perm key_leb). by rewrite tidy_keys.
  - apply key_sorted.
  - rewrite (sort_by_perm key_leb). apply Forall_map. rewrite Forall_forall in *.
    intros [k v] Hin. by apply (IH (k, v)), (Hm (k, v)).
Qed.

Lemma json_loads_tidy v : well_formed v → json_loads float_repr hook (write_json v) = Some (Ok (tidy v)).
Proof. intros Hv. rewrite <-write_json_tidy. by apply json_loads_write, tidy_canonical. Qed.

(** ** What is read is well formed *)

Lemma float_constants : float_text "NaN" ∧ float_text "Infinity" ∧ float_text "-Infinity".
Proof.
  split_and!; (split; [by eexists _, _|]); intros rest _; by destruct rest.
Qed.

(** A float is written in a way that reads back as that float. *)
Context (Hrepr : ∀ literal, float_text (float_repr literal)).
Context (Hread : ∀ d o, Forall (λ m, well_formed m.2) d → hook d = Ok o → well_formed o).

Lemma read_atom_well_formed s v rest : read_atom float_repr s = Ok (v, rest) → well_formed v.
Proof.
  unfold read_atom. destruct (list_find _ constants) as [[i [text v']]|] eqn:E.
  - apply list_find_Some in E as (Hi & _ & _). intros [= -> _]. unfold constants in Hi.
    destruct float_constants as (? & ? & ?).
    do 6 (destruct i as [|i]; [by injection Hi as _ <-; constructor|]). done.
  - unfold read_number. intros H. apply bind_Ok in H as ([int r] & _ & H).
    destruct (fraction r) as [f r1], (exponent r1) as [x r2].
    destruct (_ && _); [apply bind_Ok in H as (z & _ & [= <- _])|injection H as <- _]; constructor; apply Hrepr.
Qed.

Lemma json_reads_well_formed fuel :
  (∀ s v rest, json_value float_repr hook fuel s = Some (Ok (v, rest)) → well_formed v) ∧
  (∀ items s v rest, Forall well_formed items →
     json_elements float_repr hook fuel items s = Some (Ok (v, rest)) → well_formed v) ∧
  (∀ pairs s v rest, Forall (λ m, well_formed m.2) pairs →
     json_members float_repr hook fuel pairs s = Some (Ok (v, rest)) → well_formed v).
Proof.
  induction fuel as [|fuel (IHv & IHe & IHm)]; [done|]. split_and!.
  - intros [|c s] v rest H; [done|]. rewrite json_value_S in H.
    destruct (Ascii.eqb c dq); [|destruct (Ascii.eqb c _); [|destruct (Ascii.eqb c _)]].
    + apply (inj Some) in H. apply bind_Ok in H as ([cs r] & _ & [= <- _]). constructor.
    + destruct (starts_with_char _ _); [|by eapply IHm].
      apply (inj Some) in H. apply bind_Ok in H as (o & Ho & H).
      assert (v = o) as -> by congruence. by eapply Hread.
    + destruct (starts_with_char _ _); [|by eapply IHe].
      assert (v = JList []) as -> by congruence. by constructor.
    + apply (inj Some) in H. by eapply read_atom_well_formed.
  - intros items s v rest Hi H. rewrite json_elements_S in H.
    destruct (json_value _ _ fuel s) as [[[v1 r1]|e]|] eqn:E; [|done|done]. apply IHv in E.
    assert (Forall well_formed (items ++ [v1])) as Hi' by (apply Forall_app; auto).
    destruct (peek_char _) as [[c r2]|e]; [|done].
    destruct (Ascii.eqb c _); [injection H as <- _; by constructor|].
    destruct (Ascii.eqb c _); [by eapply IHe|done].
  - intros pairs s v rest Hi H. rewrite json_members_S in H.
    destruct (read_key s) as [[key r0]|e]; [|done].
    destruct (json_value _ _ fuel r0) as [[[v1 r1]|e]|] eqn:E; [|done|done]. apply IHv in E.
    assert (Forall (λ m, well_formed m.2) (pairs ++ [(key, v1)])) as Hi' by (apply Forall_app; auto).
    destruct (peek_char _) as [[c r2]|e]; [|done]. destruct (Ascii.eqb c _).
    + apply (inj Some) in H. apply bind_Ok in H as (o & Ho & [= <- _]). by eapply Hread.
    + destruct (Ascii.eqb c _); [by eapply IHm|done].
Qed.

Lemma json_loads_well_formed s v : json_loads float_repr hook s = Some (Ok v) → well_formed v.
Proof.
  unfold json_loads. destruct (json_value _ _ _ _) as [[[v1 r1]|e]|] eqn:E; [|done|done].
  intros H. apply (inj Some) in H. cbn [mbind result_bind] in H.
  destruct (bool_decide _); [|done]. injection H as <-. by eapply (proj1 (json_reads_well_formed _)).
Qed.
End round_trip.

(** ** Values with known keys *)

Create HintDb json.

Lemma canonical_strings float_repr l : Forall (canonical float_repr) (JStr <$> l).
Proof. apply Forall_fmap, Forall_true. intros s. constructor. Qed.

Lemma canonical_fmap {A} float_repr (f : A → Json) l :
  (∀ x, canonical float_repr (f x)) → Forall (canonical float_repr) (f <$> l).
Proof. intros Hf. apply Forall_fmap, Forall_true. exact Hf. Qed.

#[export] Hint Resolve canonical_strings canonical_fmap : json.
#[export] Hint Constructors canonical : json.

Ltac canonical_object :=
  apply canonical_members; [reflexivity|repeat apply Forall_cons_2; try apply Forall_nil_2; cbn [snd]].

(** ** Members in the order of their keys *)

Definition tidy_members (d : dict string Json) : dict string Json :=
  sort_by key_leb (map (λ '(k, v), (k, tidy v)) d).

Lemma tidy_obj d : tidy (JObj d) = JObj (tidy_members d).
Proof. done. Qed.

Lemma tidy_members_keys d : dkeys (tidy_members d) ≡ₚ dkeys d.
Proof. unfold tidy_members, dkeys. by rewrite (sort_by_perm key_leb), tidy_keys. Qed.

Lemma tidy_members_wf d : dict_wf d → dict_wf (tidy_members d).
Proof. unfold dict_wf. by rewrite tidy_members_keys. Qed.

Lemma dget_tidy k d : dict_wf d → dget k (tidy_members d) = tidy <$> dget k d.
Proof.
  intros Hd. destruct (dget k d) as [v|] eqn:E; simpl.
  - apply dget_elem_wf; [by apply tidy_members_wf|]. unfold tidy_members.
    rewrite elem_of_sort_by, list_elem_of_In, in_map_iff. exists (k, v).
    split; [done|]. by apply list_elem_of_In, dget_Some_elem.
  - apply dget_None. rewrite tidy_members_keys. by apply dget_None.
Qed.

Lemma field_tidy d k : dict_wf d → field (tidy_members d) k = tidy <$> field d k.
Proof. intros Hd. unfold field. rewrite dget_tidy by done. by destruct (dget k d). Qed.

Lemma shape_difference_tidy d keys : shape_difference (tidy_members d) keys = shape_difference d keys.
Proof.
  unfold shape_difference. f_equal.
  - f_equal. apply list_filter_iff. intros k. by rewrite tidy_members_keys.
  - apply sort_by_unique; [apply str_leb_total|apply str_leb_trans|intros x y _ _; apply str_leb_anti|].
    by rewrite tidy_members_keys.
Qed.

(** An object has exactly some keys. *)
Lemma shape_difference_nil d keys :
  (let '(missing, unknown) := shape_difference d keys in
   bool_decide (missing = []) && bool_decide (unknown = [])) = true ↔
  ∀ k, k ∈ dkeys d ↔ k ∈ keys.
Proof.
  unfold shape_difference. rewrite andb_true_iff, !bool_decide_eq_true.
  rewrite !sort_by_nil, <-!length_zero_iff_nil, !filter_length_0. split.
  - intros [Hm Hu] k. split; intros Hk; apply dec_stable; naive_solver.
  - intros H. split; intros k Hk; rewrite H in *; naive_solver.
Qed.

(** ** The hook that refuses a repeated key *)

Section duplicates.
Context (duplicate : string → Exn).

Lemma reject_duplicates_from d : ∀ acc, NoDup (acc ++ d).*1 →
  foldM (add_member duplicate) acc d = Ok (acc ++ d).
Proof.
  induction d as [|[k v] d IH]; intros acc Hnd; [by rewrite app_nil_r|]. cbn [foldM].
  assert (dmem k acc = false) as Hk.
  { apply not_true_iff_false. rewrite dmem_spec. intros Hin. rewrite fmap_app in Hnd.
    apply NoDup_app in Hnd as (_ & Hnd & _). by apply (Hnd k); [|left]. }
  cbn [add_member]. rewrite Hk. cbn [mbind result_bind].
  assert (dset k v acc = acc ++ [(k, v)]) as ->.
  { clear -Hk. unfold dmem in Hk. induction acc as [|[k' v'] acc IH]; [done|]. simpl in *.
    destruct (decide (k = k')); [done|]. by rewrite IH. }
  rewrite IH, <-app_assoc; [done|]. by rewrite <-app_assoc.
Qed.

Lemma reject_duplicates_Ok d : NoDup d.*1 → reject_duplicates duplicate d = Ok (JObj d).
Proof. intros Hd. unfold reject_duplicates. by rewrite (reject_duplicates_from d []). Qed.

Lemma reject_duplicates_well_formed float_repr d o :
  Forall (λ m, well_formed float_repr m.2) d → reject_duplicates duplicate d = Ok o →
  well_formed float_repr o.
Proof.
  unfold reject_duplicates. intros Hd (d' & Hf & ->)%fmap_Ok.
  cut (NoDup d'.*1 ∧ Forall (λ m, well_formed float_repr m.2) d'); [by intros []; constructor|].
  revert Hf.
  cut (NoDup (@nil (string * Json)).*1 ∧
       Forall (λ m, well_formed float_repr m.2) (@nil (string * Json)));
    [|by split; constructor].
  generalize (@nil (string * Json)). induction Hd as [|[k v] d Hv Hd IH]; intros acc Hacc Hf.
  - by injection Hf as <-.
  - cbn [foldM] in Hf. apply bind_Ok in Hf as (acc' & Ha & Hf). apply (IH acc'); [|done].
    cbn [add_member] in Ha. destruct (dmem k acc) eqn:Ek; [done|]. injection Ha as <-.
    destruct Hacc as [Hnd Hacc]. split; [by apply dset_wf|].
    clear -Hacc Hv. induction Hacc as [|[k' v'] acc H Hacc IH]; simpl; [by repeat constructor|].
    destruct (decide (k = k')); by constructor.
Qed.
End duplicates.
