(* ===== verification/ReceiptAudit.v ===== *)
(** * Receipt-graph audits and their authority
    ([proof_base_receipt_graph_audit.py], [receipt_acceptance_authority.py])

    (In [src/packages/proofs/python/src/poo_flow_proof/].)  An audit is the
    canonical JSON text of a graph and of its verified receipt.  The decoder
    trusts nothing it reads: every acceptance is asked of an authority, the
    graph is built by its constructors and verified again, and the bytes must be
    the encoding of what was built.  [validate] is the method of the authority,
    a parameter that answers or raises.  [type(x) is ...] of a value whose type
    is fixed here is not modelled; a lone surrogate in a name, which would raise
    [UnicodeEncodeError] inside [verify], is refused by [encode_utf8] here. *)

From Stdlib Require Import Ascii.
From S2P Require Import Prelude PyDict GraphTypes Receipts Text Merkle EvidenceModel SchemeDatum Sort ReceiptGraph Json.

(** ** [receipt_acceptance_authority.py] *)

Definition AuthorityError (code detail : string) : Exn :=
  PyError "ReceiptAcceptanceAuthorityError" (code +:+ ": " +:+ detail).

Record DeclaredReceiptEvidenceV1 : Type := DeclaredReceiptEvidence {
  dr_engine_identity : string;
  dr_canonical_receipt_bytes : string;
  dr_receipt_digest : string
}.

(** [DeclaredReceiptEvidenceV1.__post_init__]. *)
Definition check_declared (sha256_hex : string → string) (d : DeclaredReceiptEvidenceV1) :
    result Exn DeclaredReceiptEvidenceV1 :=
  _ ← require (negb (bool_decide (dr_engine_identity d = "")))
        (AuthorityError "invalid-declared-engine-identity"
           "engine identity must be a non-empty string");
  let computed := sha256_digest sha256_hex (dr_canonical_receipt_bytes d) in
  _ ← require (bool_decide (dr_receipt_digest d = computed))
        (AuthorityError "declared-receipt-digest-mismatch"
           ("computed " +:+ computed +:+ ", declared " +:+ dr_receipt_digest d));
  Ok d.

Record AuthorityVerifiedReceiptEvidenceV1 : Type := AuthorityVerifiedReceiptEvidence {
  av_acceptance : AcceptedReceiptEvidenceV1;
  av_source_identity : CanonicalSourceIdentityV1;
  av_independent_bundle_digest : string;
  av_provided_interface : CanonicalInterfaceV1;
  av_root_declarations : list string
}.

(** [AuthorityVerifiedReceiptEvidenceV1.__post_init__]. *)
Definition check_verified (e : AuthorityVerifiedReceiptEvidenceV1) :
    result Exn AuthorityVerifiedReceiptEvidenceV1 :=
  _ ← require (bool_decide
          ((ar_bound_source_identity_digest (av_acceptance e),
            ar_bound_independent_bundle_digest (av_acceptance e),
            ar_bound_provided_interface_digest (av_acceptance e))
           = (cs_digest (av_source_identity e), av_independent_bundle_digest e,
              ci_digest (av_provided_interface e))))
        (AuthorityError "authority-acceptance-binding-mismatch"
           "authority acceptance must bind its derived identities");
  _ ← require (negb (bool_decide (av_root_declarations e = [])))
        (AuthorityError "empty-authority-root-declarations"
           "authority evidence must bind at least one root declaration");
  _ ← require (forallb (λ d, negb (bool_decide (d = ""))) (av_root_declarations e))
        (AuthorityError "invalid-authority-root-declaration"
           "authority root declarations must be non-empty strings");
  Ok (AuthorityVerifiedReceiptEvidence (av_acceptance e) (av_source_identity e)
        (av_independent_bundle_digest e) (av_provided_interface e)
        (sort_by str_leb (av_root_declarations e))).

(** ** Exact shapes *)

Definition PROOF_BASE_RECEIPT_GRAPH_AUDIT_SCHEMA_V1 : string :=
  "poo-flow.proof-base-receipt-graph-audit.v1".

Definition AuditError (code detail : string) : Exn :=
  PyError "ProofBaseReceiptGraphAuditError" (code +:+ ": " +:+ detail).

(** [except ProofBaseReceiptGraphError as error: raise ...] and the like; the
    message of these errors is [f"{error.code}: {error.detail}"]. *)
Definition rewrap {A} (cls code : string) (r : result Exn A) : result Exn A :=
  match r with
  | Raise (PyError cls' detail) =>
      if bool_decide (cls' = cls) then Raise (AuditError code detail) else r
  | _ => r
  end.

Definition exact_object (v : Json) (label : string) (keys : list string) :
    result Exn (dict string Json) :=
  match v with
  | JObj d =>
      let '(missing, unknown) := shape_difference d keys in
      _ ← require (bool_decide (missing = []) && bool_decide (unknown = []))
            (AuditError "audit-shape-mismatch"
               (label +:+ " missing=" +:+ repr_list missing +:+ " unknown=" +:+ repr_list unknown));
      Ok d
  | _ => Raise (AuditError "audit-type-mismatch" (label +:+ " must be an object"))
  end.
Definition exact_array (v : Json) (label : string) : result Exn (list Json) :=
  match v with
  | JList l => Ok l
  | _ => Raise (AuditError "audit-type-mismatch" (label +:+ " must be an array"))
  end.
Definition exact_string (v : Json) (label : string) : result Exn string :=
  match v with
  | JStr s => Ok s
  | _ => Raise (AuditError "audit-type-mismatch" (label +:+ " must be a string"))
  end.
Definition exact_integer (v : Json) (label : string) : result Exn Z :=
  match v with
  | JInt z => Ok z
  | _ => Raise (AuditError "audit-type-mismatch" (label +:+ " must be an integer"))
  end.

(** [_LOWER_HEX_PATTERN.fullmatch], then [bytes.fromhex]. *)
Definition decode_hex (v : Json) (label : string) : result Exn string :=
  encoded ← exact_string v label;
  _ ← require (Nat.even (String.length encoded) && sforall lower_hex encoded)
        (AuditError "noncanonical-audit-hex"
           (label +:+ " must use even-length lowercase hexadecimal"));
  fromhex encoded.

(** [object_pairs_hook]. *)
Definition reject_duplicate_object_keys : list (string * Json) → result Exn Json :=
  reject_duplicates (λ key, AuditError "duplicate-audit-key" ("duplicate object key " +:+ key)).

(** ** The objects of an audit *)

Definition interface_object (i : CanonicalInterfaceV1) : Json :=
  JObj [("canonical_bytes_hex", JStr (hex (ci_canonical_bytes i))); ("digest", JStr (ci_digest i))].
Definition source_identity_object (s : CanonicalSourceIdentityV1) : Json :=
  JObj [("canonical_bytes_hex", JStr (hex (cs_canonical_bytes s))); ("digest", JStr (cs_digest s))].
Definition acceptance_object (a : AcceptedReceiptEvidenceV1) : Json :=
  JObj [("canonical_receipt_bytes_hex", JStr (hex (ar_canonical_receipt_bytes a)));
        ("engine_identity", JStr (ar_engine_identity a));
        ("receipt_digest", JStr (ar_receipt_digest a))].

(** An element of ["assumed_interfaces"]. *)
Definition assumption_object (a : NamedInterfaceAssumptionV1) : Json :=
  JObj [("assumption_id", JStr (na_assumption_id a));
        ("interface", interface_object (na_interface a))].

Definition node_object (n : AcceptedProofBaseReceiptNodeV1) : Json :=
  JObj [("acceptance", acceptance_object (node_acceptance n));
        ("assumed_interfaces",
          JList (assumption_object <$> sort_by assumption_leb (node_assumed_interfaces n)));
        ("independent_bundle_digest", JStr (node_independent_bundle_digest n));
        ("node_id", JStr (node_id n));
        ("provided_interface", interface_object (node_provided_interface n));
        ("root_declarations", JList (JStr <$> sort_by str_leb (node_root_declarations n)));
        ("source_identity", source_identity_object (node_source_identity n))].

Definition edge_object (e : ReceiptInterfaceEdgeV1) : Json :=
  JObj [("consumer_assumption_id", JStr (consumer_assumption_id e));
        ("consumer_node_id", JStr (consumer_node_id e));
        ("supplier_node_id", JStr (supplier_node_id e))].

Definition verified_receipt_object (r : VerifiedCompositionReceiptV1) : Json :=
  JObj [("edge_count", JInt (vc_edge_count r));
        ("graph_digest", JStr (vc_graph_digest r));
        ("node_count", JInt (vc_node_count r));
        ("root_declaration_count", JInt (vc_root_declaration_count r));
        ("schema_id", JStr (vc_schema_id r));
        ("terminal_node_id", JStr (vc_terminal_node_id r));
        ("topological_order", JList (JStr <$> vc_topological_order r))].

(** The value of ["graph"]. *)
Definition graph_object (g : ProofBaseReceiptGraphV1) : Json :=
  JObj [("edges", JList (edge_object <$> sort_by edge_leb (graph_edges g)));
        ("nodes", JList (node_object <$> sort_by node_leb (graph_nodes g)));
        ("schema_id", JStr (graph_schema_id g));
        ("terminal_node_id", JStr (graph_terminal_node_id g))].

Definition audit_object (g : ProofBaseReceiptGraphV1) (r : VerifiedCompositionReceiptV1) : Json :=
  JObj [("graph", graph_object g);
        ("schema_id", JStr PROOF_BASE_RECEIPT_GRAPH_AUDIT_SCHEMA_V1);
        ("verified_composition_receipt", verified_receipt_object r)].

(** ** Parsing *)

#[global] Instance canonical_source_identity_eq_dec : EqDecision CanonicalSourceIdentityV1.
Proof. solve_decision. Defined.

Section audit.
Context (sha256_hex : string → string).

(** [encode_proof_base_receipt_graph_audit_v1]. *)
Definition encode_audit (g : ProofBaseReceiptGraphV1) : option (result Exn string) :=
  answer ← verify sha256_hex g;
  Some (receipt ← answer; encode_utf8 (write_json (audit_object g receipt))).

Definition parse_interface (v : Json) (label : string) : result Exn CanonicalInterfaceV1 :=
  d ← exact_object v label ["canonical_bytes_hex"; "digest"];
  v ← field d "canonical_bytes_hex"; bytes ← decode_hex v (label +:+ ".canonical_bytes_hex");
  v ← field d "digest"; digest ← exact_string v (label +:+ ".digest");
  mk_canonical_interface sha256_hex bytes digest.

Definition parse_source_identity (v : Json) : result Exn CanonicalSourceIdentityV1 :=
  d ← exact_object v "node.source_identity" ["canonical_bytes_hex"; "digest"];
  v ← field d "canonical_bytes_hex";
  bytes ← decode_hex v "node.source_identity.canonical_bytes_hex";
  v ← field d "digest"; digest ← exact_string v "node.source_identity.digest";
  mk_canonical_source_identity sha256_hex bytes digest.

(** The declared receipt of an acceptance object. *)
Definition parse_declared (d : dict string Json) : result Exn DeclaredReceiptEvidenceV1 :=
  v ← field d "engine_identity"; engine ← exact_string v "node.acceptance.engine_identity";
  v ← field d "canonical_receipt_bytes_hex";
  bytes ← decode_hex v "node.acceptance.canonical_receipt_bytes_hex";
  v ← field d "receipt_digest"; digest ← exact_string v "node.acceptance.receipt_digest";
  check_declared sha256_hex (DeclaredReceiptEvidence engine bytes digest).

(** [authority.validate]. *)
Context (validate : DeclaredReceiptEvidenceV1 → result Exn AuthorityVerifiedReceiptEvidenceV1).

Definition parse_acceptance (v : Json) : result Exn AuthorityVerifiedReceiptEvidenceV1 :=
  d ← exact_object v "node.acceptance"
        ["canonical_receipt_bytes_hex"; "engine_identity"; "receipt_digest"];
  rewrap "ReceiptAcceptanceAuthorityError" "authority-receipt-rejected"
    (declared ← parse_declared d; validate declared).

(** The body of the loop over the assumptions of a node. *)
Definition parse_assumption (v : Json) : result Exn NamedInterfaceAssumptionV1 :=
  d ← exact_object v "node.assumed_interface" ["assumption_id"; "interface"];
  v ← field d "assumption_id"; id ← exact_string v "node.assumed_interface.assumption_id";
  v ← field d "interface"; interface ← parse_interface v "node.assumed_interface.interface";
  mk_named_interface_assumption id interface.

Definition parse_node (v : Json) : result Exn AcceptedProofBaseReceiptNodeV1 :=
  d ← exact_object v "graph.node"
        ["acceptance"; "assumed_interfaces"; "independent_bundle_digest"; "node_id";
         "provided_interface"; "root_declarations"; "source_identity"];
  v ← field d "assumed_interfaces"; values ← exact_array v "node.assumed_interfaces";
  assumptions ← mapM parse_assumption values;
  v ← field d "root_declarations"; values ← exact_array v "node.root_declarations";
  root_declarations ← mapM (λ v, exact_string v "node.root_declaration") values;
  v ← field d "acceptance"; authority_evidence ← parse_acceptance v;
  v ← field d "source_identity"; source_identity ← parse_source_identity v;
  v ← field d "independent_bundle_digest";
  bundle_digest ← exact_string v "node.independent_bundle_digest";
  v ← field d "provided_interface";
  provided_interface ← parse_interface v "node.provided_interface";
  _ ← require (bool_decide (av_root_declarations authority_evidence
                            = sort_by str_leb root_declarations))
        (AuditError "authority-root-declaration-mismatch"
           "authority roots must equal the graph node roots");
  _ ← require (bool_decide (av_source_identity authority_evidence = source_identity)
               && bool_decide (av_independent_bundle_digest authority_evidence = bundle_digest)
               && bool_decide (av_provided_interface authority_evidence = provided_interface))
        (AuditError "authority-node-binding-mismatch"
           "authority-derived identities must equal the graph node identities");
  v ← field d "node_id"; id ← exact_string v "node.node_id";
  mk_node (ReceiptNode id source_identity bundle_digest root_declarations provided_interface
             assumptions (av_acceptance authority_evidence)).

Definition parse_edge (v : Json) : result Exn ReceiptInterfaceEdgeV1 :=
  d ← exact_object v "graph.edge"
        ["consumer_assumption_id"; "consumer_node_id"; "supplier_node_id"];
  v ← field d "supplier_node_id"; supplier ← exact_string v "edge.supplier_node_id";
  v ← field d "consumer_node_id"; consumer ← exact_string v "edge.consumer_node_id";
  v ← field d "consumer_assumption_id";
  assumption ← exact_string v "edge.consumer_assumption_id";
  mk_edge (ReceiptEdge supplier consumer assumption).

Definition parse_declared_receipt (v : Json) : result Exn Json :=
  let label := "verified_composition_receipt" in
  d ← exact_object v label
        ["edge_count"; "graph_digest"; "node_count"; "root_declaration_count"; "schema_id";
         "terminal_node_id"; "topological_order"];
  v ← field d "edge_count"; edges ← exact_integer v (label +:+ ".edge_count");
  v ← field d "graph_digest"; digest ← exact_string v (label +:+ ".graph_digest");
  v ← field d "node_count"; nodes ← exact_integer v (label +:+ ".node_count");
  v ← field d "root_declaration_count";
  declarations ← exact_integer v (label +:+ ".root_declaration_count");
  v ← field d "schema_id"; schema ← exact_string v (label +:+ ".schema_id");
  v ← field d "terminal_node_id"; terminal ← exact_string v (label +:+ ".terminal_node_id");
  v ← field d "topological_order"; values ← exact_array v (label +:+ ".topological_order");
  order ← mapM (λ v, exact_string v (label +:+ ".topological_order")) values;
  Ok (JObj [("edge_count", JInt edges); ("graph_digest", JStr digest); ("node_count", JInt nodes);
            ("root_declaration_count", JInt declarations); ("schema_id", JStr schema);
            ("terminal_node_id", JStr terminal); ("topological_order", JList (JStr <$> order))]).

(** ["graph"], with the constructor of the graph. *)
Definition parse_graph (v : Json) : result Exn ProofBaseReceiptGraphV1 :=
  d ← exact_object v "graph" ["edges"; "nodes"; "schema_id"; "terminal_node_id"];
  v ← field d "schema_id"; schema_id ← exact_string v "graph.schema_id";
  v ← field d "nodes"; values ← exact_array v "graph.nodes"; nodes ← mapM parse_node values;
  v ← field d "edges"; values ← exact_array v "graph.edges"; edges ← mapM parse_edge values;
  v ← field d "terminal_node_id"; terminal ← exact_string v "graph.terminal_node_id";
  Ok (mk_graph schema_id nodes edges terminal).

(** The checks from the shape of the artifact to its graph, and the declared receipt. *)
Definition parse_artifact (decoded : Json) : result Exn (ProofBaseReceiptGraphV1 * Json) :=
  d ← exact_object decoded "audit" ["graph"; "schema_id"; "verified_composition_receipt"];
  v ← field d "schema_id"; schema_id ← exact_string v "audit.schema_id";
  _ ← require (bool_decide (schema_id = PROOF_BASE_RECEIPT_GRAPH_AUDIT_SCHEMA_V1))
        (AuditError "invalid-audit-schema"
           ("expected " +:+ PROOF_BASE_RECEIPT_GRAPH_AUDIT_SCHEMA_V1));
  v ← field d "graph"; graph ← parse_graph v;
  v ← field d "verified_composition_receipt";
  Ok (graph, v).

Context (float_repr : string → string).

(** Reading the bytes; the texts of the two errors are not modelled. *)
Definition load_audit (audit_bytes : string) : option (result Exn Json) :=
  match rewrap "UnicodeDecodeError" "invalid-audit-json" (decode_utf8 audit_bytes) with
  | Raise e => Some (Raise e)
  | Ok text =>
      rewrap "JSONDecodeError" "invalid-audit-json"
        <$> json_loads float_repr reject_duplicate_object_keys text
  end.

Record DecodedProofBaseReceiptGraphAuditV1 : Type := DecodedAudit {
  da_graph : ProofBaseReceiptGraphV1;
  da_verified_receipt : VerifiedCompositionReceiptV1;
  da_canonical_audit_bytes : string
}.

(** From the verified receipt on. *)
Definition accept_audit (audit_bytes : string) (graph : ProofBaseReceiptGraphV1) (declared : Json)
    (receipt : VerifiedCompositionReceiptV1) :
    option (result Exn DecodedProofBaseReceiptGraphAuditV1) :=
  match (declared ← parse_declared_receipt declared;
         require (bool_decide (declared = verified_receipt_object receipt))
           (AuditError "verified-receipt-mismatch"
              "declared verified composition receipt does not match the graph")) with
  | Raise e => Some (Raise e)
  | Ok _ =>
      answer ← encode_audit graph;
      Some (canonical ← answer;
            _ ← require (bool_decide (audit_bytes = canonical))
                  (AuditError "noncanonical-audit-bytes"
                     "accepted audit bytes must equal the unique v1 encoding");
            Ok (DecodedAudit graph receipt canonical))
  end.

(** [decode_proof_base_receipt_graph_audit_v1]. *)
Definition decode_audit (audit_bytes : string) :
    option (result Exn DecodedProofBaseReceiptGraphAuditV1) :=
  loaded ← load_audit audit_bytes;
  match decoded ← loaded; parse_artifact decoded with
  | Raise e => Some (Raise e)
  | Ok (graph, declared) =>
      answer ← verify sha256_hex graph;
      match rewrap "ProofBaseReceiptGraphError" "invalid-audit-graph" answer with
      | Raise e => Some (Raise e)
      | Ok receipt => accept_audit audit_bytes graph declared receipt
      end
  end.
End audit.
