(* ===== verification/ReceiptAuditTheorems.v ===== *)
(** * An accepted audit says what it certifies, and every graph has one

    The decoder is sound: what it accepts is a correct graph whose every
    acceptance the authority answered for exactly the receipt the graph
    carries.  It is complete: the encoding of a graph is accepted, by every
    authority that answers for its receipts. *)

From Stdlib Require Import Ascii.
From S2P Require Import Prelude PyDict GraphTypes Receipts Text Merkle EvidenceModel SchemeDatum Sort ReceiptGraph ReceiptGraphFacts ReceiptGraphTheorems Json JsonFacts ReceiptAudit.

(** ** Reading back what was written *)

Lemma hex_lower s : Nat.even (String.length (hex s)) && sforall lower_hex (hex s) = true.
Proof.
  induction s as [|c s IH]; [done|]. apply andb_true_iff in IH as [He Hl].
  cbn [hex String.length Nat.even]. rewrite He. cbn [andb].
  apply sforall_cons. split; [|apply sforall_cons; split; [|done]]; apply hex_digit_facts.
  - pose proof (nat_ascii_bounded c). apply Nat.Div0.div_lt_upper_bound. lia.
  - apply Nat.mod_upper_bound. lia.
Qed.

Lemma decode_hex_hex s label : decode_hex (JStr (hex s)) label = Ok s.
Proof. unfold decode_hex. cbn [exact_string mbind result_bind]. by rewrite hex_lower, fromhex_hex. Qed.

Section canonical.
Context (float_repr : string → string).
#[local] Notation canonical := (canonical float_repr).

Lemma canonical_interface i : canonical (interface_object i).
Proof. canonical_object; constructor. Qed.
Lemma canonical_source_identity s : canonical (source_identity_object s).
Proof. canonical_object; constructor. Qed.
Lemma canonical_acceptance a : canonical (acceptance_object a).
Proof. canonical_object; constructor. Qed.
Lemma canonical_assumption a : canonical (assumption_object a).
Proof. canonical_object; [constructor|apply canonical_interface]. Qed.

#[local] Hint Resolve canonical_interface canonical_source_identity canonical_acceptance canonical_assumption : json.

Lemma canonical_node n : canonical (node_object n).
Proof. canonical_object; auto with json. Qed.
Lemma canonical_edge e : canonical (edge_object e).
Proof. canonical_object; auto with json. Qed.
Lemma canonical_receipt r : canonical (verified_receipt_object r).
Proof. canonical_object; auto with json. Qed.
#[local] Hint Resolve canonical_node canonical_edge canonical_receipt : json.

Lemma canonical_graph g : canonical (graph_object g).
Proof. canonical_object; auto with json. Qed.
Lemma canonical_audit g r : canonical (audit_object g r).
Proof. canonical_object; auto using canonical_graph with json. Qed.

Lemma load_audit_write v :
  utf8_valid (write_json v) = true → canonical v → load_audit float_repr (write_json v) = Some (Ok v).
Proof.
  intros Hu Hv. unfold load_audit, decode_utf8. rewrite Hu. cbn [require mbind result_bind rewrap].
  unfold reject_duplicate_object_keys. by rewrite (json_loads_write _ _ (reject_duplicates_Ok _)).
Qed.
End canonical.

(** ** Parsing an object of an audit *)

Section objects.
Context (sha256_hex : string → string).
Context (validate : DeclaredReceiptEvidenceV1 → result Exn AuthorityVerifiedReceiptEvidenceV1).

Lemma parse_strings label l : mapM (λ v, exact_string v label) (JStr <$> l) = Ok l.
Proof. apply mapM_Ok. induction l; constructor; done. Qed.

Lemma parse_interface_object i label :
  parse_interface sha256_hex (interface_object i) label
  = mk_canonical_interface sha256_hex (ci_canonical_bytes i) (ci_digest i).
Proof.
  transitivity (bytes ← decode_hex (JStr (hex (ci_canonical_bytes i))) (label +:+ ".canonical_bytes_hex");
                mk_canonical_interface sha256_hex bytes (ci_digest i)); [reflexivity|].
  by rewrite decode_hex_hex.
Qed.

Lemma parse_source_object s :
  parse_source_identity sha256_hex (source_identity_object s)
  = mk_canonical_source_identity sha256_hex (cs_canonical_bytes s) (cs_digest s).
Proof.
  transitivity (bytes ← decode_hex (JStr (hex (cs_canonical_bytes s)))
                  "node.source_identity.canonical_bytes_hex";
                mk_canonical_source_identity sha256_hex bytes (cs_digest s)); [reflexivity|].
  by rewrite decode_hex_hex.
Qed.

(** The receipt an accepted receipt declares to the authority. *)
Definition declared_of (a : AcceptedReceiptEvidenceV1) : DeclaredReceiptEvidenceV1 :=
  DeclaredReceiptEvidence (ar_engine_identity a) (ar_canonical_receipt_bytes a)
    (ar_receipt_digest a).

Lemma parse_acceptance_object a :
  parse_acceptance sha256_hex validate (acceptance_object a)
  = rewrap "ReceiptAcceptanceAuthorityError" "authority-receipt-rejected"
      (declared ← check_declared sha256_hex (declared_of a); validate declared).
Proof.
  transitivity (rewrap "ReceiptAcceptanceAuthorityError" "authority-receipt-rejected"
    (declared ← (bytes ← decode_hex (JStr (hex (ar_canonical_receipt_bytes a)))
                    "node.acceptance.canonical_receipt_bytes_hex";
                 check_declared sha256_hex
                   (DeclaredReceiptEvidence (ar_engine_identity a) bytes (ar_receipt_digest a)));
     validate declared)); [reflexivity|].
  by rewrite decode_hex_hex.
Qed.

Lemma parse_assumption_object a :
  parse_assumption sha256_hex (assumption_object a)
  = (interface ← mk_canonical_interface sha256_hex (ci_canonical_bytes (na_interface a))
                   (ci_digest (na_interface a));
     mk_named_interface_assumption (na_assumption_id a) interface).
Proof. by rewrite <-(parse_interface_object _ "node.assumed_interface.interface"). Qed.

Lemma parse_node_object n :
  parse_node sha256_hex validate (node_object n)
  = (assumptions ← mapM (parse_assumption sha256_hex)
       (assumption_object <$> sort_by assumption_leb (node_assumed_interfaces n));
     evidence ← parse_acceptance sha256_hex validate (acceptance_object (node_acceptance n));
     source ← mk_canonical_source_identity sha256_hex
                (cs_canonical_bytes (node_source_identity n)) (cs_digest (node_source_identity n));
     provided ← mk_canonical_interface sha256_hex
                  (ci_canonical_bytes (node_provided_interface n))
                  (ci_digest (node_provided_interface n));
     let roots := sort_by str_leb (node_root_declarations n) in
     _ ← require (bool_decide (av_root_declarations evidence = sort_by str_leb roots))
           (AuditError "authority-root-declaration-mismatch"
              "authority roots must equal the graph node roots");
     _ ← require (bool_decide (av_source_identity evidence = source)
                  && bool_decide (av_independent_bundle_digest evidence
                                  = node_independent_bundle_digest n)
                  && bool_decide (av_provided_interface evidence = provided))
           (AuditError "authority-node-binding-mismatch"
              "authority-derived identities must equal the graph node identities");
     mk_node (ReceiptNode (node_id n) source (node_independent_bundle_digest n) roots provided
                assumptions (av_acceptance evidence))).
Proof.
  rewrite <-parse_source_object, <-(parse_interface_object _ "node.provided_interface").
  transitivity (assumptions ← mapM (parse_assumption sha256_hex)
       (assumption_object <$> sort_by assumption_leb (node_assumed_interfaces n));
     roots ← mapM (λ v, exact_string v "node.root_declaration")
               (JStr <$> sort_by str_leb (node_root_declarations n));
     evidence ← parse_acceptance sha256_hex validate (acceptance_object (node_acceptance n));
     source ← parse_source_identity sha256_hex (source_identity_object (node_source_identity n));
     provided ← parse_interface sha256_hex (interface_object (node_provided_interface n))
                  "node.provided_interface";
     _ ← require (bool_decide (av_root_declarations evidence = sort_by str_leb roots))
           (AuditError "authority-root-declaration-mismatch"
              "authority roots must equal the graph node roots");
     _ ← require (bool_decide (av_source_identity evidence = source)
                  && bool_decide (av_independent_bundle_digest evidence
                                  = node_independent_bundle_digest n)
                  && bool_decide (av_provided_interface evidence = provided))
           (AuditError "authority-node-binding-mismatch"
              "authority-derived identities must equal the graph node identities");
     mk_node (ReceiptNode (node_id n) source (node_independent_bundle_digest n) roots provided
                assumptions (av_acceptance evidence))); [reflexivity|].
  by rewrite parse_strings.
Qed.

Lemma parse_edge_object e : parse_edge (edge_object e) = mk_edge e.
Proof. by destruct e. Qed.

Lemma parse_receipt_object r :
  parse_declared_receipt (verified_receipt_object r) = Ok (verified_receipt_object r).
Proof.
  transitivity (order ← mapM (λ v, exact_string v "verified_composition_receipt.topological_order")
      (JStr <$> vc_topological_order r);
    Ok (verified_receipt_object
      (CompositionReceipt (vc_schema_id r) (vc_graph_digest r) (vc_terminal_node_id r) order
         (vc_node_count r) (vc_edge_count r) (vc_root_declaration_count r)))); [reflexivity|].
  by rewrite parse_strings.
Qed.

Lemma parse_graph_object g :
  parse_graph sha256_hex validate (graph_object g)
  = (nodes ← mapM (parse_node sha256_hex validate) (node_object <$> sort_by node_leb (graph_nodes g));
     edges ← mapM parse_edge (edge_object <$> sort_by edge_leb (graph_edges g));
     Ok (mk_graph (graph_schema_id g) nodes edges (graph_terminal_node_id g))).
Proof. reflexivity. Qed.

Lemma parse_audit_object g r :
  parse_artifact sha256_hex validate (audit_object g r)
  = (graph ← parse_graph sha256_hex validate (graph_object g); Ok (graph, verified_receipt_object r)).
Proof. reflexivity. Qed.
End objects.

(** ** What the constructors and the authority say of a node *)

(** Nothing but what the constructors let through. *)
Definition built_interface (sha256_hex : string → string) (i : CanonicalInterfaceV1) : Prop :=
  mk_canonical_interface sha256_hex (ci_canonical_bytes i) (ci_digest i) = Ok i.
Record built_node (sha256_hex : string → string) (n : AcceptedProofBaseReceiptNodeV1) : Prop := {
  bn_node : mk_node n = Ok n;
  bn_source : mk_canonical_source_identity sha256_hex (cs_canonical_bytes (node_source_identity n))
                (cs_digest (node_source_identity n)) = Ok (node_source_identity n);
  bn_provided : built_interface sha256_hex (node_provided_interface n);
  bn_assumed a : a ∈ node_assumed_interfaces n →
    built_interface sha256_hex (na_interface a) ∧
    mk_named_interface_assumption (na_assumption_id a) (na_interface a) = Ok a
}.
Record built_graph (sha256_hex : string → string) (g : ProofBaseReceiptGraphV1) : Prop := {
  bg_graph : mk_graph (graph_schema_id g) (graph_nodes g) (graph_edges g)
               (graph_terminal_node_id g) = g;
  bg_nodes n : n ∈ graph_nodes g → built_node sha256_hex n;
  bg_edges e : e ∈ graph_edges g → mk_edge e = Ok e
}.

(** The authority answers for the receipt of a node with what the node says. *)
Definition vouched (sha256_hex : string → string)
    (validate : DeclaredReceiptEvidenceV1 → result Exn AuthorityVerifiedReceiptEvidenceV1)
    (n : AcceptedProofBaseReceiptNodeV1) : Prop :=
  let declared := declared_of (node_acceptance n) in
  check_declared sha256_hex declared = Ok declared ∧
  validate declared = Ok (AuthorityVerifiedReceiptEvidence (node_acceptance n)
    (node_source_identity n) (node_independent_bundle_digest n) (node_provided_interface n)
    (node_root_declarations n)).

Lemma rewrap_Ok {A} cls code (r : result Exn A) x : rewrap cls code r = Ok x ↔ r = Ok x.
Proof. destruct r as [a|[]]; simpl; repeat case_bool_decide; naive_solver. Qed.

Lemma mk_node_Ok m n : mk_node m = Ok n →
  n = ReceiptNode (node_id m) (node_source_identity m) (node_independent_bundle_digest m)
        (sort_by str_leb (node_root_declarations m)) (node_provided_interface m)
        (sort_by assumption_leb (node_assumed_interfaces m)) (node_acceptance m).
Proof. unfold mk_node, require_nonempty, require_digest. cbv zeta. rewrite !require_bind. naive_solver. Qed.

Lemma mk_interface_Ok sha256_hex b d i :
  mk_canonical_interface sha256_hex b d = Ok i → i = CanonicalInterface b d.
Proof. unfold mk_canonical_interface. intros H. by inv_result. Qed.
Lemma mk_source_Ok sha256_hex b d i :
  mk_canonical_source_identity sha256_hex b d = Ok i → i = CanonicalSourceIdentity b d.
Proof. unfold mk_canonical_source_identity. intros H. by inv_result. Qed.

Lemma sort_assumed_idem l : sort_by assumption_leb (sort_by assumption_leb l) = sort_by assumption_leb l.
Proof. apply sort_by_idem, sort_by_sorted; [apply assumption_leb_total|apply assumption_leb_trans]. Qed.
Lemma sort_nodes_idem l : sort_by node_leb (sort_by node_leb l) = sort_by node_leb l.
Proof. apply sort_by_idem, sort_by_sorted; [apply node_leb_total|apply node_leb_trans]. Qed.
Lemma sort_edges_idem l : sort_by edge_leb (sort_by edge_leb l) = sort_by edge_leb l.
Proof. apply sort_by_idem, sort_by_sorted; [apply edge_leb_total|apply edge_leb_trans]. Qed.

Section nodes.
Context (sha256_hex : string → string).
Context (validate : DeclaredReceiptEvidenceV1 → result Exn AuthorityVerifiedReceiptEvidenceV1).

Lemma parse_assumption_Ok a a' : parse_assumption sha256_hex (assumption_object a) = Ok a' ↔
  a' = a ∧ built_interface sha256_hex (na_interface a) ∧
  mk_named_interface_assumption (na_assumption_id a) (na_interface a) = Ok a.
Proof.
  rewrite parse_assumption_object, bind_Ok. unfold built_interface. destruct a as [id i]. simpl. split.
  - intros (i' & Hi & Hm). pose proof (mk_interface_Ok _ _ _ _ Hi) as ->.
    replace (CanonicalInterface _ _) with i in * by by destruct i.
    unfold mk_named_interface_assumption in *. apply require_bind in Hm as [Hr [= <-]].
    split_and!; [done..|]. by apply require_bind.
  - intros (-> & Hi & Hm). by exists i.
Qed.

Lemma parse_assumptions_Ok l l' :
  mapM (parse_assumption sha256_hex) (assumption_object <$> l) = Ok l' ↔
  l' = l ∧ ∀ a, a ∈ l → built_interface sha256_hex (na_interface a) ∧
    mk_named_interface_assumption (na_assumption_id a) (na_interface a) = Ok a.
Proof.
  rewrite mapM_Ok, Forall2_fmap_l. split.
  - induction 1 as [|a a' l l' Ha Hl [-> IH]]; [split; [done|]; by intros ? ?%not_elem_of_nil|].
    apply parse_assumption_Ok in Ha as (-> & Hb). split; [done|].
    intros b [->|Hin]%elem_of_cons; [done|by apply IH].
  - intros [-> H]. induction l as [|a l IH]; constructor.
    + apply parse_assumption_Ok. split; [done|]. apply H. by left.
    + apply IH. intros b Hb. apply H. by right.
Qed.

Lemma parse_acceptance_Ok a e :
  parse_acceptance sha256_hex validate (acceptance_object a) = Ok e ↔
  check_declared sha256_hex (declared_of a) = Ok (declared_of a) ∧ validate (declared_of a) = Ok e.
Proof.
  rewrite parse_acceptance_object, rewrap_Ok, bind_Ok. split.
  - intros (d & Hd & Hv). unfold check_declared in *. cbv zeta in *. rewrite !require_bind in *. naive_solver.
  - intros [Hd Hv]. by exists (declared_of a).
Qed.

Lemma parse_node_keeps m n :
  parse_node sha256_hex validate (node_object m) = Ok n → node_id n = node_id m ∧ constructed n.
Proof.
  rewrite parse_node_object. intros H. inv_result. rewrite !require_bind in *.
  match goal with H : _ ∧ _ ∧ mk_node _ = _ |- _ => destruct H as (_ & _ & Hm) end.
  split; [|by eexists]. by apply mk_node_Ok in Hm as ->.
Qed.

Lemma parse_node_Ok n : parse_node sha256_hex validate (node_object n) = Ok n ↔
  built_node sha256_hex n ∧ vouched sha256_hex validate n.
Proof.
  rewrite parse_node_object. split.
  - intros (l & [-> Ha]%parse_assumptions_Ok & H)%bind_Ok.
    apply bind_Ok in H as (e & [Hd Hv]%parse_acceptance_Ok & H).
    apply bind_Ok in H as (s & Hs & H). apply bind_Ok in H as (p & Hp & H). cbv zeta in H.
    apply require_bind in H as [Hr%bool_decide_eq_true H]. rewrite require_bind in H.
    destruct H as [((Hes%bool_decide_eq_true & Heb%bool_decide_eq_true)%andb_true_iff
      & Hep%bool_decide_eq_true)%andb_true_iff H].
    pose proof (mk_source_Ok _ _ _ _ Hs) as ->. pose proof (mk_interface_Ok _ _ _ _ Hp) as ->.
    pose proof (mk_node_Ok _ _ H) as Hn. simpl in Hn.
    rewrite sort_roots_idem in Hn, Hr. rewrite sort_assumed_idem in Hn.
    destruct e as [acc src bundle prov roots], n as [id [sb sd] bd decls [pb pd] assumed accn].
    simpl in *. injection Hn as Hdecls Hassumed ->. rewrite <-Hdecls, <-Hassumed in *. subst.
    by split.
  - intros [[Hn Hs Hp Ha] [Hd Hv]].
    pose proof (mk_node_Ok _ _ Hn) as En.
    assert (sort_by str_leb (node_root_declarations n) = node_root_declarations n ∧
            sort_by assumption_leb (node_assumed_interfaces n) = node_assumed_interfaces n)
      as [Er Ea] by (split; [by rewrite En at 2|by rewrite En at 2]).
    rewrite Ea, Er, (proj2 (parse_assumptions_Ok _ _) (conj eq_refl Ha)). cbn [mbind result_bind].
    rewrite (proj2 (parse_acceptance_Ok _ _) (conj Hd Hv)), Hs. cbn [mbind result_bind].
    unfold built_interface in Hp. rewrite Hp. cbn [mbind result_bind].
    rewrite Er. cbn [av_root_declarations av_source_identity av_independent_bundle_digest
      av_provided_interface av_acceptance]. rewrite !bool_decide_eq_true_2 by done.
    cbn [andb require mbind result_bind]. by destruct n.
Qed.
End nodes.

(** ** The decoder *)

Section decoder.
Context (sha256_hex : string → string).
Context (validate : DeclaredReceiptEvidenceV1 → result Exn AuthorityVerifiedReceiptEvidenceV1).
Context (float_repr : string → string).

Lemma parse_nodes_Ok l :
  (∀ n, n ∈ l → built_node sha256_hex n ∧ vouched sha256_hex validate n) →
  mapM (parse_node sha256_hex validate) (node_object <$> l) = Ok l.
Proof.
  intros Hl. apply mapM_Ok, Forall2_fmap_l. induction l as [|n l IH]; constructor.
  - apply parse_node_Ok, Hl. by left.
  - apply IH. intros m Hm. apply Hl. by right.
Qed.

Lemma parse_edges_Ok l l' : mapM parse_edge (edge_object <$> l) = Ok l' ↔
  l' = l ∧ ∀ e, e ∈ l → mk_edge e = Ok e.
Proof.
  rewrite mapM_Ok, Forall2_fmap_l. split.
  - induction 1 as [|e e' l l' He Hl [-> IH]]; [split; [done|]; by intros ? ?%not_elem_of_nil|].
    change (parse_edge (edge_object e) = Ok e') in He. rewrite parse_edge_object in He.
    assert (e' = e) as ->.
    { revert He. unfold mk_edge, require_nonempty. rewrite !require_bind. naive_solver. }
    split; [done|]. intros f [->|Hf]%elem_of_cons; [done|by apply IH].
  - intros [-> H]. induction l as [|e l IH]; constructor.
    + transitivity (mk_edge e); [apply parse_edge_object|]. apply H. by left.
    + apply IH. intros f Hf. apply H. by right.
Qed.

(** A graph of distinct nodes is parsed back exactly when it was built by the
    constructors and the authority answers for its nodes. *)
Lemma parse_graph_Ok g : NoDup (node_ids (graph_nodes g)) →
  parse_graph sha256_hex validate (graph_object g) = Ok g ↔
  built_graph sha256_hex g ∧ ∀ n, n ∈ graph_nodes g → vouched sha256_hex validate n.
Proof.
  intros Hids. rewrite parse_graph_object. split.
  - intros (nodes & Hn & H)%bind_Ok. apply bind_Ok in H as (edges & He & [= Hg]).
    apply parse_edges_Ok in He as [-> He].
    assert (sort_by node_leb (graph_nodes g) = graph_nodes g) as Es.
    { rewrite <-Hg. apply sort_nodes_idem. }
    assert (∀ n, n ∈ graph_nodes g → parse_node sha256_hex validate (node_object n) = Ok n) as Hp.
    { intros n Hin. rewrite Es in Hn. apply mapM_Ok, Forall2_fmap_l in Hn.
      assert (n ∈ nodes) as Hin'.
      { rewrite <-Hg in Hin. cbn [mk_graph graph_nodes] in Hin. by apply elem_of_sort_by in Hin. }
      apply list_elem_of_lookup in Hin' as [i Hi].
      destruct (Forall2_lookup_r _ _ _ _ _ Hn Hi) as (m & Hm & Hmn).
      apply list_elem_of_lookup_2 in Hm. destruct (parse_node_keeps _ _ _ _ Hmn) as [Hid _].
      by rewrite (NoDup_fmap_elem node_id _ n m Hids Hin Hm Hid) in Hmn |- *. }
    split; [|intros n Hin; by apply parse_node_Ok, Hp]. split.
    + destruct g as [schema ns es terminal]. unfold mk_graph in *. simpl in *.
      injection Hg as _ Hedges. rewrite sort_edges_idem in Hedges. by rewrite Es, Hedges.
    + intros n Hin. by apply (parse_node_Ok sha256_hex validate), Hp.
    + intros e Hin. apply He. by apply elem_of_sort_by.
  - intros [[Hg Hn He] Hv].
    assert (sort_by node_leb (graph_nodes g) = graph_nodes g ∧
            sort_by edge_leb (graph_edges g) = graph_edges g) as [-> ->].
    { split; [by rewrite <-Hg at 2|by rewrite <-Hg at 2]. }
    rewrite parse_nodes_Ok by (intros n Hin; split; [by apply Hn|by apply Hv]).
    cbn [mbind result_bind]. rewrite (proj2 (parse_edges_Ok _ (graph_edges g)) (conj eq_refl He)).
    cbn [mbind result_bind]. by rewrite Hg.
Qed.

Lemma parsed_graph_constructed v g :
  parse_graph sha256_hex validate v = Ok g → Forall constructed (graph_nodes g).
Proof.
  unfold parse_graph. intros H. inv_result. cbn [mk_graph graph_nodes].
  match goal with Hn : mapM _ _ = Ok ?l |- context [sort_by node_leb ?l] =>
    apply mapM_Ok in Hn; rename Hn into Hl end.
  apply Forall_forall. intros n Hin%elem_of_sort_by.
  apply list_elem_of_lookup in Hin as [i Hi].
  destruct (Forall2_lookup_r _ _ _ _ _ Hl Hi) as (m & _ & Hm). unfold parse_node in Hm.
  repeat match type of Hm with _ ≫= _ = _ => apply bind_Ok in Hm as (? & _ & Hm) end. by eexists.
Qed.

Lemma parsed_artifact_constructed v g declared :
  parse_artifact sha256_hex validate v = Ok (g, declared) → Forall constructed (graph_nodes g).
Proof.
  unfold parse_artifact. intros H.
  repeat match type of H with _ ≫= _ = _ => apply bind_Ok in H as (? & ? & H) end.
  injection H as <- <-. by eapply parsed_graph_constructed.
Qed.

(** What an accepted audit went through. *)
Lemma decode_audit_Ok bytes d : decode_audit sha256_hex validate float_repr bytes = Some (Ok d) ↔
  ∃ v declared, load_audit float_repr bytes = Some (Ok v) ∧
    parse_artifact sha256_hex validate v = Ok (da_graph d, declared) ∧
    verify sha256_hex (da_graph d) = Some (Ok (da_verified_receipt d)) ∧
    parse_declared_receipt declared = Ok (verified_receipt_object (da_verified_receipt d)) ∧
    encode_audit sha256_hex (da_graph d) = Some (Ok bytes) ∧ da_canonical_audit_bytes d = bytes.
Proof.
  unfold decode_audit. split.
  - intros H. apply bind_Some in H as (loaded & Hload & H).
    destruct loaded as [v|e]; [|done]. cbn [mbind result_bind] in H.
    destruct (parse_artifact _ _ v) as [[g declared]|e] eqn:Ep; [|done].
    apply bind_Some in H as (answer & Hv & H).
    destruct (rewrap _ _ answer) as [r|e] eqn:Er; [|done]. apply rewrap_Ok in Er as ->.
    unfold accept_audit in H.
    destruct (parse_declared_receipt declared) as [o|e] eqn:Ed; [|done]. cbn [mbind result_bind] in H.
    destruct (require _ _) as [u|e] eqn:Eo; [|done]. apply require_Ok, bool_decide_eq_true in Eo as ->.
    apply bind_Some in H as (canonical & Hc & [= H]). apply bind_Ok in H as (text & -> & H).
    apply require_bind in H as [->%bool_decide_eq_true [= <-]].
    exists v, declared. by rewrite Ep.
  - intros (v & declared & -> & Hp & Hv & Hd & He & Hb). cbn [mbind option_bind result_bind].
    rewrite Hp, Hv. cbn [mbind option_bind rewrap]. unfold accept_audit. rewrite Hd.
    cbn [mbind result_bind]. rewrite bool_decide_eq_true_2 by done. cbn [require].
    rewrite He. cbn [mbind option_bind result_bind]. rewrite bool_decide_eq_true_2 by done.
    cbn [require mbind result_bind]. destruct d. simpl in *. by subst.
Qed.

Lemma encode_audit_answers g : Forall constructed (graph_nodes g) →
  encode_audit sha256_hex g ≠ None.
Proof.
  intros Hg. destruct (verify_answer sha256_hex g Hg) as (answer & Hv & _).
  unfold encode_audit. by rewrite Hv.
Qed.

Lemma decode_audit_answers bytes : ∃ answer, decode_audit sha256_hex validate float_repr bytes = Some answer.
Proof.
  apply not_eq_None_Some. unfold decode_audit.
  destruct (load_audit float_repr bytes) as [loaded|] eqn:El.
  2:{ exfalso. revert El. unfold load_audit. destruct (rewrap _ _ _); [|done].
      intros H%fmap_None. by apply json_loads_total in H. }
  cbn [mbind option_bind]. destruct loaded as [v|e]; [|done]. cbn [mbind result_bind].
  destruct (parse_artifact _ _ v) as [[g declared]|e] eqn:Ep; [|done].
  apply parsed_artifact_constructed in Ep as Hg.
  destruct (verify_answer sha256_hex g Hg) as (answer & -> & _). cbn [mbind option_bind].
  destruct (rewrap _ _ _); [|done]. unfold accept_audit.
  destruct (_ ≫= _); [|done]. pose proof (encode_audit_answers g Hg).
  by destruct (encode_audit _ g).
Qed.

Lemma encode_audit_Ok g bytes : encode_audit sha256_hex g = Some (Ok bytes) ↔
  ∃ r, verify sha256_hex g = Some (Ok r) ∧ bytes = write_json (audit_object g r) ∧
    utf8_valid bytes = true.
Proof.
  unfold encode_audit. rewrite bind_Some. split.
  - intros ([r|e] & Hv & H); [|done]. apply (inj Some) in H. cbn [mbind result_bind] in H. unfold encode_utf8 in H.
    apply require_bind in H as [Hu [= <-]]. by exists r.
  - intros (r & Hv & -> & Hu). exists (Ok r). split; [done|]. cbn [mbind result_bind].
    unfold encode_utf8. by rewrite Hu.
Qed.
End decoder.

(** C7. [decode_proof_base_receipt_graph_audit_v1] answers on all bytes, and what
    it accepts is exactly the encodings of graphs that the constructors built
    and that pass [verify], with the authority answering, for the receipt of
    each node, precisely the evidence the node carries.  So every accepted
    audit reads back as the graph it encodes, every encoded graph is accepted
    by an authority that answers for its receipts, and an accepted graph is
    correct and its receipt certifies it. *)
Theorem audits_decode_exactly (sha256_hex : string → string)
    (validate : DeclaredReceiptEvidenceV1 → result Exn AuthorityVerifiedReceiptEvidenceV1)
    (float_repr : string → string) (bytes : string) :
  (∃ answer, decode_audit sha256_hex validate float_repr bytes = Some answer) ∧
  ∀ d, decode_audit sha256_hex validate float_repr bytes = Some (Ok d) ↔
    built_graph sha256_hex (da_graph d) ∧
    (∀ n, n ∈ graph_nodes (da_graph d) → vouched sha256_hex validate n) ∧
    (GraphSpec (da_graph d) ∧ Certifies sha256_hex (da_graph d) (da_verified_receipt d)) ∧
    verify sha256_hex (da_graph d) = Some (Ok (da_verified_receipt d)) ∧
    encode_audit sha256_hex (da_graph d) = Some (Ok bytes) ∧
    da_canonical_audit_bytes d = bytes.
Proof.
  split; [apply decode_audit_answers|]. intros d. rewrite decode_audit_Ok. split.
  - intros (v & declared & Hl & Hp & Hv & Hd & He & Hb).
    destruct (verify_Ok _ _ _ (parsed_artifact_constructed _ _ _ _ _ Hp) Hv) as [Hs Hc].
    pose proof He as He'. apply encode_audit_Ok in He' as (r & Hr & E & Hu).
    assert (r = da_verified_receipt d) as -> by congruence.
    rewrite E, load_audit_write in Hl; [|by rewrite <-E|apply canonical_audit].
    injection Hl as <-. rewrite parse_audit_object in Hp.
    apply bind_Ok in Hp as (g & Hg & [= -> _]).
    apply parse_graph_Ok in Hg as [Hbuilt Hvouched]; [|apply Hs]. done.
  - intros (Hbuilt & Hvouched & [Hs Hc] & Hv & He & Hb).
    pose proof He as He'. apply encode_audit_Ok in He' as (r & Hr & E & Hu).
    assert (r = da_verified_receipt d) as -> by congruence.
    exists (audit_object (da_graph d) (da_verified_receipt d)).
    exists (verified_receipt_object (da_verified_receipt d)).
    rewrite E at 1. rewrite load_audit_write by (by rewrite <-?E || apply canonical_audit).
    rewrite parse_audit_object, (proj2 (parse_graph_Ok _ _ _ (gs_node_ids _ Hs))) by done.
    split_and!; [done..| |done|done]. apply parse_receipt_object.
Qed.

(** An authority that knows the receipts of the three nodes of [demo_graph]. *)
Definition demo_authority (declared : DeclaredReceiptEvidenceV1) :
    result Exn AuthorityVerifiedReceiptEvidenceV1 :=
  match list_find (λ n, ar_canonical_receipt_bytes (node_acceptance n)
                        = dr_canonical_receipt_bytes declared) (graph_nodes demo_graph) with
  | Some (_, n) =>
      check_verified (AuthorityVerifiedReceiptEvidence (node_acceptance n) (node_source_identity n)
        (node_independent_bundle_digest n) (node_provided_interface n) (node_root_declarations n))
  | None => Raise (AuthorityError "unknown-receipt" (dr_canonical_receipt_bytes declared))
  end.

(** The order certified by the audit of [demo_graph], read back from its bytes. *)
Definition demo_audit_order : option (list string) :=
  match encode_audit demo_hex demo_graph with
  | Some (Ok bytes) =>
      match decode_audit demo_hex demo_authority id bytes with
      | Some (Ok d) => Some (vc_topological_order (da_verified_receipt d))
      | _ => None
      end
  | _ => None
  end.
Example demo_audit_decodes : demo_audit_order = Some ["base"; "lemma"; "claim"].
Proof. vm_compute. reflexivity. Qed.
