(* ===== verification/AxleAuthority.v ===== *)
(** * The authority for receipts of AXLE runs ([axle_receipt_authority.py])

    (In [src/packages/proofs/python/src/poo_flow_proof/].)  A receipt is the
    JSON artifact of a verification run.  The authority reads it, runs the
    verification it describes again ([reverify], a parameter) and accepts when
    both artifacts agree on everything that identifies the result.
    [LiveAxleClosureReceiptAuthorityV1], whose [reverify] starts the run in a
    temporary directory, is in [ClosureVerify]. *)

From Stdlib Require Import Ascii.
From S2P Require Import Prelude PyDict GraphTypes Receipts Text Merkle EvidenceModel SchemeDatum Sort ReceiptGraph Json ReceiptAudit.

Definition AXLE_RECEIPT_ENGINE_IDENTITY_V1 : string := "poo-flow-axle-verify".
Definition AXLE_PROVIDED_INTERFACE_SCHEMA_V1 : string := "poo-flow.axle-provided-interface.v1".
Definition AXLE_SOURCE_IDENTITY_SCHEMA_V1 : string := "poo-flow.axle-source-identity.v1".

Definition TOP_LEVEL_KEYS : list string :=
  ["closure"; "exact_bundle"; "exact_bundle_digest"; "independent_declaration_bundle";
   "independent_declaration_bundle_digest"; "preflight"].
Definition CLOSURE_KEYS : list string :=
  ["base_imports"; "declarations"; "lean_version"; "owner_modules"; "proof_base_imports";
   "proof_base_interface"; "root_declarations"; "root_module"; "schema_id"].
Definition PREFLIGHT_KEYS : list string :=
  ["axle_base_timeout_seconds"; "axle_environment"; "axle_operation_timeout_seconds";
   "closure_digest"; "declaration_count"; "lean_export_timeout_seconds"; "owner_sources";
   "proof_base_imports"; "proof_base_interface_count"; "root_declarations"; "root_module";
   "schema_id"].
Definition EXACT_BUNDLE_KEYS : list string :=
  ["bundle_digest"; "canonical_source"; "canonical_source_digest"; "declarations"; "environment";
   "lean_closure_digest"; "root_declarations"; "schema_id"; "source_declarations";
   "theorem2sorry"; "verification"].
Definition INDEPENDENT_BUNDLE_KEYS : list string :=
  ["axle_environment"; "canonical_source_digest"; "declarations"; "lean_toolchain";
   "proof_base_declarations"; "proof_base_imports"; "proof_base_interface_digest";
   "resolved_sources"; "root_declarations"; "root_module"; "schema_id"].
Definition VERIFICATION_KEYS : list string :=
  ["failed_declarations"; "lean_messages"; "okay"; "request"; "roundtrip"; "schema_id"; "status";
   "theorem_proof"; "timings"; "tool_messages"].
Definition THEOREM2SORRY_KEYS : list string :=
  ["messages"; "request"; "root_declaration_kinds"; "root_declarations"; "schema_id"; "status"].

(** ** Reading JSON values *)

Definition duplicate_key_rejecting_object : list (string * Json) → result Exn Json :=
  reject_duplicates (λ key,
    AuthorityError "duplicate-axle-receipt-key" ("duplicate object key " +:+ key)).

Definition axle_object (v : Json) (label : string) (keys : list string) :
    result Exn (dict string Json) :=
  match v with
  | JObj d =>
      let '(missing, unknown) := shape_difference d keys in
      _ ← require (bool_decide (missing = []) && bool_decide (unknown = []))
            (AuthorityError "axle-receipt-shape-mismatch"
               (label +:+ " missing=" +:+ repr_list missing +:+ " unknown=" +:+ repr_list unknown));
      Ok d
  | _ => Raise (AuthorityError "axle-receipt-type-mismatch" (label +:+ " must be an object"))
  end.

Definition axle_string (v : Json) (label : string) : result Exn string :=
  let wrong := AuthorityError "axle-receipt-type-mismatch"
                 (label +:+ " must be a non-empty string") in
  match v with
  | JStr s => _ ← require (negb (bool_decide (s = ""))) wrong; Ok s
  | _ => Raise wrong
  end.

Definition axle_string_tuple (v : Json) (label : string) : result Exn (list string) :=
  match v with
  | JList l =>
      values ← mapM (λ item, axle_string item label) l;
      _ ← require (negb (has_duplicates values))
            (AuthorityError "duplicate-axle-receipt-value" (label +:+ " must not repeat values"));
      Ok values
  | _ => Raise (AuthorityError "axle-receipt-type-mismatch" (label +:+ " must be an array"))
  end.

Definition axle_digest (v : Json) (label : string) : result Exn string :=
  digest ← axle_string v label;
  _ ← require (digest_form digest)
        (AuthorityError "invalid-axle-receipt-digest"
           (label +:+ " must be a canonical sha256 digest"));
  Ok digest.

(** ** The artifact of a run *)

Record AxleClosureVerificationRequestV1 : Type := AxleRequest {
  rq_environment : string;
  rq_root_module : string;
  rq_root_declarations : list string;
  rq_base_imports : list string;
  rq_proof_base_imports : list string
}.

Record ParsedAxleClosureArtifactV1 : Type := ParsedAxle {
  ax_manifest : dict string Json;
  ax_canonical_bytes : string;
  ax_request : AxleClosureVerificationRequestV1;
  ax_exact_bundle_digest : string;
  ax_independent_bundle_digest : string;
  ax_canonical_source_digest : string;
  ax_source_identity : CanonicalSourceIdentityV1;
  ax_provided_interface : CanonicalInterfaceV1
}.

#[global] Instance axle_request_eq_dec : EqDecision AxleClosureVerificationRequestV1.
Proof. solve_decision. Defined.

(** The objects of an artifact that the parser looks into. *)
Record AxleSections : Type := MkAxleSections {
  se_closure : dict string Json;
  se_preflight : dict string Json;
  se_exact : dict string Json;
  se_independent : dict string Json;
  se_verification : dict string Json
}.

(** The checks of the keys. *)
Definition axle_sections (artifact : dict string Json) : result Exn AxleSections :=
  v ← field artifact "closure"; closure ← axle_object v "closure" CLOSURE_KEYS;
  v ← field artifact "preflight"; preflight ← axle_object v "preflight" PREFLIGHT_KEYS;
  v ← field artifact "exact_bundle"; exact ← axle_object v "exact_bundle" EXACT_BUNDLE_KEYS;
  v ← field artifact "independent_declaration_bundle";
  independent ← axle_object v "independent_declaration_bundle" INDEPENDENT_BUNDLE_KEYS;
  v ← field exact "verification";
  verification ← axle_object v "exact_bundle.verification" VERIFICATION_KEYS;
  v ← field exact "theorem2sorry";
  _ ← axle_object v "exact_bundle.theorem2sorry" THEOREM2SORRY_KEYS;
  Ok (MkAxleSections closure preflight exact independent verification).

(** [value[key] != expected]. *)
Definition axle_check (d : dict string Json) (key : string) (expected : Json) (code detail : string) :
    result Exn unit :=
  v ← field d key; require (bool_decide (v = expected)) (AuthorityError code detail).

(** The schemas, and the verdict of the run. *)
Definition axle_schemas (s : AxleSections) : list (dict string Json * (string * string)) :=
  [(se_closure s, ("poo-flow.lean-declaration-closure.v1", "closure"));
   (se_preflight s, ("poo-flow.axle-closure-preflight.v1", "preflight"));
   (se_exact s, ("poo-flow.axle-exact-declaration-closure.v1", "exact_bundle"));
   (se_independent s,
     ("poo-flow.independent-declaration-bundle.v1", "independent_declaration_bundle"));
   (se_verification s,
     ("poo-flow.axle-root-declaration-validation.v1", "exact_bundle.verification"))].
Definition axle_verdict (s : AxleSections) : result Exn unit :=
  _ ← foldM (λ _ '(value, (expected, label)),
        axle_check value "schema_id" (JStr expected) "invalid-axle-receipt-schema"
          (label +:+ " expected " +:+ expected)) () (axle_schemas s);
  _ ← axle_check (se_verification s) "status" (JStr "accepted") "axle-receipt-not-accepted"
        "AXLE verification status must be accepted";
  _ ← axle_check (se_verification s) "okay" (JBool true) "axle-receipt-not-okay"
        "AXLE verification okay must be true";
  axle_check (se_verification s) "failed_declarations" (JList []) "axle-receipt-has-failures"
    "AXLE verification must have zero failed declarations".

Definition names_of (d : dict string Json) (key label : string) : result Exn (list string) :=
  v ← field d key; axle_string_tuple v label.

(** [root_sets[0]], when the four sets are one. *)
Definition axle_roots (s : AxleSections) : result Exn (list string) :=
  closure ← names_of (se_closure s) "root_declarations" "closure.root_declarations";
  preflight ← names_of (se_preflight s) "root_declarations" "preflight.root_declarations";
  exact ← names_of (se_exact s) "root_declarations" "exact_bundle.root_declarations";
  independent ← names_of (se_independent s) "root_declarations" "independent.root_declarations";
  let canonical_roots := sort_by str_leb closure in
  _ ← require (forallb (λ roots, bool_decide (sort_by str_leb roots = canonical_roots))
                 [preflight; exact; independent])
        (AuthorityError "axle-root-declaration-mismatch"
           "all AXLE owner artifacts must bind the same roots");
  Ok closure.

Definition axle_root_module (s : AxleSections) : result Exn string :=
  v ← field (se_closure s) "root_module"; root_module ← axle_string v "closure.root_module";
  let mismatch := "closure, preflight, and independent bundle roots must agree" in
  _ ← axle_check (se_preflight s) "root_module" (JStr root_module) "axle-root-module-mismatch"
        mismatch;
  _ ← axle_check (se_independent s) "root_module" (JStr root_module) "axle-root-module-mismatch"
        mismatch;
  Ok root_module.

Definition axle_proof_base_imports (s : AxleSections) : result Exn (list string) :=
  let mismatch := AuthorityError "axle-proof-base-import-mismatch"
                    "all AXLE owner artifacts must bind the same proof-base imports" in
  imports ← names_of (se_closure s) "proof_base_imports" "closure.proof_base_imports";
  preflight ← names_of (se_preflight s) "proof_base_imports" "preflight.proof_base_imports";
  _ ← require (bool_decide (preflight = imports)) mismatch;
  independent ← names_of (se_independent s) "proof_base_imports" "independent.proof_base_imports";
  _ ← require (bool_decide (independent = imports)) mismatch;
  Ok imports.

(** The digests of the source, of the exact bundle and of the independent one. *)
Definition axle_digests (artifact : dict string Json) (s : AxleSections) :
    result Exn (string * (string * string)) :=
  v ← field (se_exact s) "canonical_source_digest";
  source ← axle_digest v "exact_bundle.canonical_source_digest";
  _ ← axle_check (se_independent s) "canonical_source_digest" (JStr source)
        "axle-canonical-source-digest-mismatch"
        "exact and independent bundles must bind the same source";
  v ← field artifact "exact_bundle_digest"; exact ← axle_digest v "exact_bundle_digest";
  _ ← axle_check (se_exact s) "bundle_digest" (JStr exact) "axle-exact-bundle-digest-mismatch"
        "top-level and exact bundle digests must agree";
  v ← field artifact "independent_declaration_bundle_digest";
  independent ← axle_digest v "independent_declaration_bundle_digest";
  Ok (source, (exact, independent)).

(** The two JSON values whose bytes are the identities. *)
Definition axle_source_identity (s : AxleSections) (source_digest root_module : string) :
    result Exn Json :=
  source ← field (se_exact s) "canonical_source";
  resolved ← field (se_independent s) "resolved_sources";
  Ok (JObj [("canonical_source", source); ("canonical_source_digest", JStr source_digest);
            ("resolved_sources", resolved); ("root_module", JStr root_module);
            ("schema_id", JStr AXLE_SOURCE_IDENTITY_SCHEMA_V1)]).
Definition axle_provided_interface (s : AxleSections) (source_digest exact_digest : string)
    (canonical_roots : list string) : result Exn Json :=
  source ← field (se_exact s) "canonical_source";
  declarations ← field (se_exact s) "declarations";
  source_declarations ← field (se_exact s) "source_declarations";
  Ok (JObj [("canonical_source", source); ("canonical_source_digest", JStr source_digest);
            ("declarations", declarations); ("exact_bundle_digest", JStr exact_digest);
            ("root_declarations", JList (JStr <$> canonical_roots));
            ("schema_id", JStr AXLE_PROVIDED_INTERFACE_SCHEMA_V1);
            ("source_declarations", source_declarations)]).

Section axle.
Context (sha256_hex : string → string) (float_repr : string → string).

(** [parse_axle_closure_artifact_v1] after [json.loads]. *)
Definition parse_axle_manifest (artifact_bytes : string) (require_canonical_bytes : bool)
    (manifest : Json) : result Exn ParsedAxleClosureArtifactV1 :=
  artifact ← axle_object manifest "artifact" TOP_LEVEL_KEYS;
  s ← axle_sections artifact;
  _ ← axle_verdict s;
  roots ← axle_roots s;
  let canonical_roots := sort_by str_leb roots in
  root_module ← axle_root_module s;
  proof_base_imports ← axle_proof_base_imports s;
  '(source_digest, (exact_digest, independent_digest)) ← axle_digests artifact s;
  canonical_bytes ← canonical_json (JObj artifact);
  _ ← require (negb (require_canonical_bytes && negb (bool_decide (artifact_bytes = canonical_bytes))))
        (AuthorityError "noncanonical-axle-receipt-bytes"
           "AXLE authority receipt must use the unique v1 JSON encoding");
  source_value ← axle_source_identity s source_digest root_module;
  source_bytes ← canonical_json source_value;
  interface_value ← axle_provided_interface s source_digest exact_digest canonical_roots;
  interface_bytes ← canonical_json interface_value;
  v ← field (se_exact s) "environment"; environment ← axle_string v "exact_bundle.environment";
  base_imports ← names_of (se_closure s) "base_imports" "closure.base_imports";
  source_identity ← mk_canonical_source_identity sha256_hex source_bytes
                      (sha256_digest sha256_hex source_bytes);
  provided_interface ← mk_canonical_interface sha256_hex interface_bytes
                         (sha256_digest sha256_hex interface_bytes);
  Ok (ParsedAxle artifact canonical_bytes
        (AxleRequest environment root_module roots base_imports proof_base_imports)
        exact_digest independent_digest source_digest source_identity provided_interface).

(** [except (UnicodeDecodeError, json.JSONDecodeError)]; the texts of the two
    errors are not modelled. *)
Definition invalid_json {A} (r : result Exn A) : result Exn A :=
  match r with
  | Raise (PyError cls detail) =>
      if bool_decide (cls ∈ ["UnicodeDecodeError"; "JSONDecodeError"])
      then Raise (AuthorityError "invalid-axle-receipt-json" detail) else r
  | _ => r
  end.
Definition load_axle (artifact_bytes : string) : option (result Exn Json) :=
  match invalid_json (decode_utf8 artifact_bytes) with
  | Raise e => Some (Raise e)
  | Ok text => invalid_json <$> json_loads float_repr duplicate_key_rejecting_object text
  end.

Definition parse_axle (artifact_bytes : string) (require_canonical_bytes : bool) :
    option (result Exn ParsedAxleClosureArtifactV1) :=
  loaded ← load_axle artifact_bytes;
  Some (manifest ← loaded; parse_axle_manifest artifact_bytes require_canonical_bytes manifest).

(** [declare_axle_closure_receipt_v1]. *)
Definition declare_axle (artifact_bytes : string) :
    option (result Exn DeclaredReceiptEvidenceV1) :=
  parsed ← parse_axle artifact_bytes false;
  Some (parsed ← parsed;
        check_declared sha256_hex
          (DeclaredReceiptEvidence AXLE_RECEIPT_ENGINE_IDENTITY_V1 (ax_canonical_bytes parsed)
             (sha256_digest sha256_hex (ax_canonical_bytes parsed)))).

(** The keys of [authority_identity_components] on which two artifacts differ. *)
Definition mismatched_components (a b : ParsedAxleClosureArtifactV1) : list string :=
  sort_by str_leb (fst <$> filter (λ '(_, same), same = false)
    [("request", bool_decide (ax_request a = ax_request b));
     ("exact_bundle_digest", bool_decide (ax_exact_bundle_digest a = ax_exact_bundle_digest b));
     ("independent_bundle_digest",
       bool_decide (ax_independent_bundle_digest a = ax_independent_bundle_digest b));
     ("canonical_source_digest",
       bool_decide (ax_canonical_source_digest a = ax_canonical_source_digest b));
     ("source_identity", bool_decide (ax_source_identity a = ax_source_identity b));
     ("provided_interface", bool_decide (ax_provided_interface a = ax_provided_interface b))]).

(** The end of [validate], with both artifacts. *)
Definition axle_accept (declared : DeclaredReceiptEvidenceV1)
    (claimed fresh : ParsedAxleClosureArtifactV1) : result Exn AuthorityVerifiedReceiptEvidenceV1 :=
  let mismatched := mismatched_components claimed fresh in
  _ ← require (bool_decide (mismatched = []))
        (AuthorityError "axle-owner-reverification-mismatch"
           ("fresh AXLE owner result differs in " +:+ repr_list mismatched));
  acceptance ← check_evidence sha256_hex
    (AcceptedReceiptEvidence AXLE_RECEIPT_ENGINE_IDENTITY_V1 (dr_canonical_receipt_bytes declared)
       (dr_receipt_digest declared) (cs_digest (ax_source_identity fresh))
       (ax_independent_bundle_digest fresh) (ci_digest (ax_provided_interface fresh)) "accepted");
  check_verified (AuthorityVerifiedReceiptEvidence acceptance (ax_source_identity fresh)
    (ax_independent_bundle_digest fresh) (ax_provided_interface fresh)
    (rq_root_declarations (ax_request fresh))).

(** [AxleClosureReceiptAuthorityV1.validate]; [reverify] answers bytes or raises. *)
Definition axle_validate (reverify : AxleClosureVerificationRequestV1 → result Exn string)
    (declared : DeclaredReceiptEvidenceV1) :
    option (result Exn AuthorityVerifiedReceiptEvidenceV1) :=
  if bool_decide (dr_engine_identity declared = AXLE_RECEIPT_ENGINE_IDENTITY_V1) then
    claimed ← parse_axle (dr_canonical_receipt_bytes declared) true;
    match claimed with
    | Raise e => Some (Raise e)
    | Ok claimed =>
        match reverify (ax_request claimed) with
        | Raise e => Some (Raise e)
        | Ok fresh_bytes =>
            fresh ← parse_axle fresh_bytes false;
            Some (fresh ← fresh; axle_accept declared claimed fresh)
        end
    end
  else Some (Raise (AuthorityError "wrong-receipt-authority"
                      ("expected " +:+ AXLE_RECEIPT_ENGINE_IDENTITY_V1))).
End axle.
