(* ===== verification/AxleAuthorityFacts.v ===== *)
(** * What the AXLE authority accepts

    [AxleArtifact] says by paths into the JSON value what an artifact must be;
    [axle_parts] is the same by the steps of the parser, and a value parses
    exactly when its parts do. *)

From Stdlib Require Import Ascii.
From S2P Require Import Prelude PyDict GraphTypes Receipts Text Merkle EvidenceModel SchemeDatum Sort ReceiptGraph ReceiptGraphFacts ReceiptGraphTheorems Json JsonFacts ReceiptAudit ReceiptAuditTheorems AxleAuthority.

(** ** Paths into a JSON value *)

Fixpoint at_path (path : list string) (v : Json) : option Json :=
  match path with
  | [] => Some v
  | k :: path => match v with JObj d => v ← dget k d; at_path path v | _ => None end
  end.

Definition shape_at (v : Json) (path keys : list string) : Prop :=
  ∃ d, at_path path v = Some (JObj d) ∧ ∀ k, k ∈ dkeys d ↔ k ∈ keys.
Definition text_at (v : Json) (path : list string) (s : string) : Prop :=
  at_path path v = Some (JStr s) ∧ s ≠ "".
Definition names_at (v : Json) (path : list string) (l : list string) : Prop :=
  at_path path v = Some (JList (JStr <$> l)) ∧ Forall (λ s, s ≠ "") l ∧ NoDup l.
Definition digest_at (v : Json) (path : list string) (s : string) : Prop :=
  at_path path v = Some (JStr s) ∧ digest_form s = true.

(** [bytes] and its digest are the canonical text of [v]. *)
Definition identity_text (sha256_hex : string → string) (v : Json) (bytes digest : string) : Prop :=
  bytes = write_json v ∧ digest = sha256_digest sha256_hex bytes ∧ digest_form digest = true.

(** An artifact of a run that succeeded, and what the parser takes from it. *)
Record AxleArtifact (sha256_hex : string → string) (v : Json) (p : ParsedAxleClosureArtifactV1) :
    Prop := {
  aa_shapes : Forall (λ '(path, keys), shape_at v path keys)
    [([], TOP_LEVEL_KEYS); (["closure"], CLOSURE_KEYS); (["preflight"], PREFLIGHT_KEYS);
     (["exact_bundle"], EXACT_BUNDLE_KEYS);
     (["independent_declaration_bundle"], INDEPENDENT_BUNDLE_KEYS);
     (["exact_bundle"; "verification"], VERIFICATION_KEYS);
     (["exact_bundle"; "theorem2sorry"], THEOREM2SORRY_KEYS)];
  aa_schemas : Forall (λ '(path, schema), at_path (path ++ ["schema_id"]) v = Some (JStr schema))
    [(["closure"], "poo-flow.lean-declaration-closure.v1");
     (["preflight"], "poo-flow.axle-closure-preflight.v1");
     (["exact_bundle"], "poo-flow.axle-exact-declaration-closure.v1");
     (["independent_declaration_bundle"], "poo-flow.independent-declaration-bundle.v1");
     (["exact_bundle"; "verification"], "poo-flow.axle-root-declaration-validation.v1")];
  aa_verdict : Forall (λ '(key, value), at_path ["exact_bundle"; "verification"; key] v = Some value)
    [("status", JStr "accepted"); ("okay", JBool true); ("failed_declarations", JList [])];
  aa_roots : names_at v ["closure"; "root_declarations"] (rq_root_declarations (ax_request p));
  aa_same_roots : Forall (λ section, ∃ l, names_at v [section; "root_declarations"] l ∧
                            l ≡ₚ rq_root_declarations (ax_request p))
    ["preflight"; "exact_bundle"; "independent_declaration_bundle"];
  aa_module : text_at v ["closure"; "root_module"] (rq_root_module (ax_request p));
  aa_same_module : Forall (λ section, at_path [section; "root_module"] v
                             = Some (JStr (rq_root_module (ax_request p))))
    ["preflight"; "independent_declaration_bundle"];
  aa_imports : Forall (λ section, names_at v [section; "proof_base_imports"]
                         (rq_proof_base_imports (ax_request p)))
    ["closure"; "preflight"; "independent_declaration_bundle"];
  aa_base_imports : names_at v ["closure"; "base_imports"] (rq_base_imports (ax_request p));
  aa_environment : text_at v ["exact_bundle"; "environment"] (rq_environment (ax_request p));
  aa_source_digest : Forall (λ section, digest_at v [section; "canonical_source_digest"]
                               (ax_canonical_source_digest p))
    ["exact_bundle"; "independent_declaration_bundle"];
  aa_exact_digest : Forall (λ path, digest_at v path (ax_exact_bundle_digest p))
    [["exact_bundle_digest"]; ["exact_bundle"; "bundle_digest"]];
  aa_independent_digest :
    digest_at v ["independent_declaration_bundle_digest"] (ax_independent_bundle_digest p);
  aa_manifest : v = JObj (ax_manifest p);
  aa_bytes : ax_canonical_bytes p = write_json v;
  aa_source_identity : ∃ source resolved,
    at_path ["exact_bundle"; "canonical_source"] v = Some source ∧
    at_path ["independent_declaration_bundle"; "resolved_sources"] v = Some resolved ∧
    identity_text sha256_hex
      (JObj [("canonical_source", source);
             ("canonical_source_digest", JStr (ax_canonical_source_digest p));
             ("resolved_sources", resolved); ("root_module", JStr (rq_root_module (ax_request p)));
             ("schema_id", JStr AXLE_SOURCE_IDENTITY_SCHEMA_V1)])
      (cs_canonical_bytes (ax_source_identity p)) (cs_digest (ax_source_identity p));
  aa_provided_interface : ∃ source declarations source_declarations,
    at_path ["exact_bundle"; "canonical_source"] v = Some source ∧
    at_path ["exact_bundle"; "declarations"] v = Some declarations ∧
    at_path ["exact_bundle"; "source_declarations"] v = Some source_declarations ∧
    identity_text sha256_hex
      (JObj [("canonical_source", source);
             ("canonical_source_digest", JStr (ax_canonical_source_digest p));
             ("declarations", declarations);
             ("exact_bundle_digest", JStr (ax_exact_bundle_digest p));
             ("root_declarations",
               JList (JStr <$> sort_by str_leb (rq_root_declarations (ax_request p))));
             ("schema_id", JStr AXLE_PROVIDED_INTERFACE_SCHEMA_V1);
             ("source_declarations", source_declarations)])
      (ci_canonical_bytes (ax_provided_interface p)) (ci_digest (ax_provided_interface p))
}.

(** ** The readers and paths *)

Lemma axle_object_Ok v label keys d :
  axle_object v label keys = Ok d ↔ v = JObj d ∧ ∀ k, k ∈ dkeys d ↔ k ∈ keys.
Proof.
  destruct v; try (split; [done|by intros [? _]]). cbn [axle_object].
  pose proof (shape_difference_nil members keys) as Hs.
  destruct (shape_difference members keys) as [missing unknown]. rewrite require_bind, Hs.
  naive_solver.
Qed.

Lemma field_Ok d k v : field d k = Ok v ↔ dget k d = Some v.
Proof. apply of_option_Ok. Qed.

Lemma axle_string_Ok v label s : axle_string v label = Ok s ↔ v = JStr s ∧ s ≠ "".
Proof.
  destruct v; try (split; [done|by intros [? _]]). cbn [axle_string].
  rewrite require_bind, negb_true_iff, bool_decide_eq_false. naive_solver.
Qed.

Lemma axle_strings_Ok l label values :
  mapM (λ item, axle_string item label) l = Ok values ↔
  l = JStr <$> values ∧ Forall (λ s, s ≠ "") values.
Proof.
  rewrite mapM_Ok. split.
  - induction 1 as [|v s l values Hv _ [-> IH]]; [done|].
    apply axle_string_Ok in Hv as [-> Hs]. split; [done|by constructor].
  - intros [-> Hv]. induction Hv; constructor; [|done]. by apply axle_string_Ok.
Qed.

Lemma axle_string_tuple_Ok v label l :
  axle_string_tuple v label = Ok l ↔
  v = JList (JStr <$> l) ∧ Forall (λ s, s ≠ "") l ∧ NoDup l.
Proof.
  destruct v; try (split; [done|by intros [? _]]). cbn [axle_string_tuple].
  rewrite bind_Ok. setoid_rewrite axle_strings_Ok. setoid_rewrite require_bind.
  setoid_rewrite has_duplicates_false. naive_solver.
Qed.

Lemma axle_digest_Ok v label s : axle_digest v label = Ok s ↔ v = JStr s ∧ digest_form s = true.
Proof.
  unfold axle_digest. rewrite bind_Ok. setoid_rewrite axle_string_Ok. setoid_rewrite require_bind.
  split; [naive_solver|]. intros [-> Hs]. exists s. split_and!; try done. by intros ->.
Qed.

Lemma axle_check_Ok d key expected code detail u :
  axle_check d key expected code detail = Ok u ↔ dget key d = Some expected.
Proof.
  unfold axle_check. rewrite bind_Ok. setoid_rewrite field_Ok. setoid_rewrite require_Ok.
  setoid_rewrite bool_decide_eq_true. naive_solver.
Qed.

Lemma names_of_Ok d key label l : names_of d key label = Ok l ↔
  dget key d = Some (JList (JStr <$> l)) ∧ Forall (λ s, s ≠ "") l ∧ NoDup l.
Proof.
  unfold names_of. rewrite bind_Ok. setoid_rewrite field_Ok. setoid_rewrite axle_string_tuple_Ok.
  naive_solver.
Qed.

Lemma canonical_json_Ok v bytes : canonical_json v = Ok bytes ↔ bytes = write_json v ∧ utf8_valid bytes = true.
Proof. unfold canonical_json, encode_utf8. rewrite require_bind. naive_solver. Qed.

(** Follows a path through the objects that the hypotheses name. *)
Ltac follow_path :=
  cbn [at_path app];
  repeat match goal with
  | H : dget ?k ?d = Some _ |- context [dget ?k ?d] => rewrite H; cbn [mbind option_bind at_path]
  end.

(** ** What a parsed artifact satisfies *)

Lemma axle_sections_Ok a s : axle_sections a = Ok s ↔
  dget "closure" a = Some (JObj (se_closure s)) ∧ (∀ k, k ∈ dkeys (se_closure s) ↔ k ∈ CLOSURE_KEYS) ∧
  dget "preflight" a = Some (JObj (se_preflight s)) ∧
  (∀ k, k ∈ dkeys (se_preflight s) ↔ k ∈ PREFLIGHT_KEYS) ∧
  dget "exact_bundle" a = Some (JObj (se_exact s)) ∧
  (∀ k, k ∈ dkeys (se_exact s) ↔ k ∈ EXACT_BUNDLE_KEYS) ∧
  dget "independent_declaration_bundle" a = Some (JObj (se_independent s)) ∧
  (∀ k, k ∈ dkeys (se_independent s) ↔ k ∈ INDEPENDENT_BUNDLE_KEYS) ∧
  dget "verification" (se_exact s) = Some (JObj (se_verification s)) ∧
  (∀ k, k ∈ dkeys (se_verification s) ↔ k ∈ VERIFICATION_KEYS) ∧
  ∃ t, dget "theorem2sorry" (se_exact s) = Some (JObj t) ∧
    ∀ k, k ∈ dkeys t ↔ k ∈ THEOREM2SORRY_KEYS.
Proof.
  unfold axle_sections. split.
  - intros Hrun. repeat match type of Hrun with
    | field _ _ ≫= _ = _ => apply bind_Ok in Hrun as (? & ?%field_Ok & Hrun)
    | axle_object _ _ _ ≫= _ = _ => apply bind_Ok in Hrun as (? & [-> ?]%axle_object_Ok & Hrun)
    end.
    injection Hrun as <-. simpl. split_and!; eauto.
  - intros (Hc & Kc & Hp & Kp & Hx & Kx & Hi & Ki & Hv & Kv & t & Ht & Kt). unfold field.
    repeat match goal with
    | H : dget ?k ?d = Some _ |- context [dget ?k ?d] => rewrite H; cbn [of_option mbind result_bind]
    | |- context [axle_object (JObj ?d) ?l ?keys] =>
        rewrite (proj2 (axle_object_Ok (JObj d) l keys d)) by done; cbn [mbind result_bind]
    end.
    by destruct s.
Qed.

Lemma axle_verdict_Ok s : axle_verdict s = Ok () →
  Forall (λ '(value, (schema, _)), dget "schema_id" value = Some (JStr schema)) (axle_schemas s) ∧
  Forall (λ '(key, value), dget key (se_verification s) = Some value)
    [("status", JStr "accepted"); ("okay", JBool true); ("failed_declarations", JList [])].
Proof.
  unfold axle_verdict. intros Hrun. apply bind_Ok in Hrun as ([] & Hs & Hrun).
  apply bind_Ok in Hrun as (? & H1%axle_check_Ok & Hrun). apply bind_Ok in Hrun as (? & H2%axle_check_Ok & Hrun).
  apply axle_check_Ok in Hrun. split; [|by repeat constructor].
  generalize dependent (axle_schemas s). clear. intros l Hl.
  induction l as [|[d [schema label]] l IH]; constructor; cbn [foldM] in Hl;
    apply bind_Ok in Hl as ([] & Hd%axle_check_Ok & Hl); [done|by apply IH].
Qed.

Lemma axle_roots_Ok s roots : axle_roots s = Ok roots →
  names_of (se_closure s) "root_declarations" "closure.root_declarations" = Ok roots ∧
  ∀ d, d ∈ [se_preflight s; se_exact s; se_independent s] →
    ∃ label l, names_of d "root_declarations" label = Ok l ∧ l ≡ₚ roots.
Proof.
  unfold axle_roots. intros H.
  apply bind_Ok in H as (c & Hc & H). apply bind_Ok in H as (p & Hp & H).
  apply bind_Ok in H as (x & Hx & H). apply bind_Ok in H as (i & Hi & H).
  apply require_bind in H as [Hsame [= <-]]. split; [done|].
  assert (∀ l, bool_decide (sort_by str_leb l = sort_by str_leb c) = true → l ≡ₚ c) as Hperm.
  { intros l Hl%bool_decide_eq_true.
    by rewrite <-(sort_by_perm str_leb l), Hl, sort_by_perm. }
  cbn [forallb] in Hsame. apply andb_true_iff in Hsame as [H1 H]. apply andb_true_iff in H as [H2 H].
  apply andb_true_iff in H as [H3 _].
  intros d [->|[->|[->|[]%not_elem_of_nil]%elem_of_cons]%elem_of_cons]%elem_of_cons; eauto 6.
Qed.

Lemma axle_root_module_Ok s m : axle_root_module s = Ok m →
  dget "root_module" (se_closure s) = Some (JStr m) ∧ m ≠ "" ∧
  dget "root_module" (se_preflight s) = Some (JStr m) ∧
  dget "root_module" (se_independent s) = Some (JStr m).
Proof.
  unfold axle_root_module. intros Hrun.
  apply bind_Ok in Hrun as (v & Hv%field_Ok & Hrun). apply bind_Ok in Hrun as (m' & [-> Hm]%axle_string_Ok & Hrun).
  apply bind_Ok in Hrun as (? & H1%axle_check_Ok & Hrun). apply bind_Ok in Hrun as (? & H2%axle_check_Ok & Hrun).
  by injection Hrun as <-.
Qed.

Lemma axle_imports_Ok s l : axle_proof_base_imports s = Ok l →
  ∀ d, d ∈ [se_closure s; se_preflight s; se_independent s] →
    ∃ label, names_of d "proof_base_imports" label = Ok l.
Proof.
  unfold axle_proof_base_imports. intros H.
  apply bind_Ok in H as (c & Hc & H). apply bind_Ok in H as (p & Hp & H).
  apply require_bind in H as [->%bool_decide_eq_true H]. apply bind_Ok in H as (i & Hi & H).
  apply require_bind in H as [->%bool_decide_eq_true [= <-]].
  intros d [->|[->|[->|[]%not_elem_of_nil]%elem_of_cons]%elem_of_cons]%elem_of_cons; eauto.
Qed.

Lemma axle_digests_Ok a s source exact independent :
  axle_digests a s = Ok (source, (exact, independent)) →
  dget "canonical_source_digest" (se_exact s) = Some (JStr source) ∧
  dget "canonical_source_digest" (se_independent s) = Some (JStr source) ∧
  dget "exact_bundle_digest" a = Some (JStr exact) ∧
  dget "bundle_digest" (se_exact s) = Some (JStr exact) ∧
  dget "independent_declaration_bundle_digest" a = Some (JStr independent) ∧
  Forall (λ s, digest_form s = true) [source; exact; independent].
Proof.
  unfold axle_digests. intros Hrun.
  apply bind_Ok in Hrun as (v & Hv%field_Ok & Hrun). apply bind_Ok in Hrun as (? & [-> ?]%axle_digest_Ok & Hrun).
  apply bind_Ok in Hrun as (? & ?%axle_check_Ok & Hrun).
  apply bind_Ok in Hrun as (? & ?%field_Ok & Hrun). apply bind_Ok in Hrun as (? & [-> ?]%axle_digest_Ok & Hrun).
  apply bind_Ok in Hrun as (? & ?%axle_check_Ok & Hrun).
  apply bind_Ok in Hrun as (? & ?%field_Ok & Hrun). apply bind_Ok in Hrun as (? & [-> ?]%axle_digest_Ok & Hrun).
  injection Hrun as <- <- <-. split_and!; try done. by repeat constructor.
Qed.

Lemma axle_source_identity_Ok s digest m v : axle_source_identity s digest m = Ok v →
  ∃ source resolved, dget "canonical_source" (se_exact s) = Some source ∧
    dget "resolved_sources" (se_independent s) = Some resolved ∧
    v = JObj [("canonical_source", source); ("canonical_source_digest", JStr digest);
              ("resolved_sources", resolved); ("root_module", JStr m);
              ("schema_id", JStr AXLE_SOURCE_IDENTITY_SCHEMA_V1)].
Proof.
  unfold axle_source_identity. intros H. apply bind_Ok in H as (src & Hsrc%field_Ok & H).
  apply bind_Ok in H as (res & Hres%field_Ok & [= <-]). by exists src, res.
Qed.

Lemma axle_provided_interface_Ok s source_digest exact_digest roots v :
  axle_provided_interface s source_digest exact_digest roots = Ok v →
  ∃ source declarations source_declarations,
    dget "canonical_source" (se_exact s) = Some source ∧
    dget "declarations" (se_exact s) = Some declarations ∧
    dget "source_declarations" (se_exact s) = Some source_declarations ∧
    v = JObj [("canonical_source", source); ("canonical_source_digest", JStr source_digest);
              ("declarations", declarations); ("exact_bundle_digest", JStr exact_digest);
              ("root_declarations", JList (JStr <$> roots));
              ("schema_id", JStr AXLE_PROVIDED_INTERFACE_SCHEMA_V1);
              ("source_declarations", source_declarations)].
Proof.
  unfold axle_provided_interface. intros H. apply bind_Ok in H as (src & Hsrc%field_Ok & H).
  apply bind_Ok in H as (decls & Hdecls%field_Ok & H).
  apply bind_Ok in H as (sdecls & Hsdecls%field_Ok & [= <-]). by exists src, decls, sdecls.
Qed.

Section parsed.
Context (sha256_hex : string → string).

Lemma canonical_payload_Ok label bytes digest :
  require_canonical_payload sha256_hex label bytes digest = Ok () ↔
  digest = sha256_digest sha256_hex bytes ∧ digest_form digest = true.
Proof.
  unfold require_canonical_payload, require_digest. rewrite require_bind. cbv zeta.
  rewrite require_Ok, bool_decide_eq_true. naive_solver.
Qed.

(** The steps of the parser on an artifact [a] with sections [s]. *)
Record axle_parts (a : dict string Json) (s : AxleSections) (p : ParsedAxleClosureArtifactV1) : Prop := {
  ap_sections : axle_sections a = Ok s;
  ap_verdict : axle_verdict s = Ok ();
  ap_roots : axle_roots s = Ok (rq_root_declarations (ax_request p));
  ap_module : axle_root_module s = Ok (rq_root_module (ax_request p));
  ap_imports : axle_proof_base_imports s = Ok (rq_proof_base_imports (ax_request p));
  ap_digests : axle_digests a s = Ok (ax_canonical_source_digest p,
                 (ax_exact_bundle_digest p, ax_independent_bundle_digest p));
  ap_bytes : canonical_json (JObj a) = Ok (ax_canonical_bytes p);
  ap_source : ∃ v, axle_source_identity s (ax_canonical_source_digest p)
                     (rq_root_module (ax_request p)) = Ok v ∧
    canonical_json v = Ok (cs_canonical_bytes (ax_source_identity p)) ∧
    identity_text sha256_hex v (cs_canonical_bytes (ax_source_identity p))
      (cs_digest (ax_source_identity p));
  ap_interface : ∃ v, axle_provided_interface s (ax_canonical_source_digest p)
                        (ax_exact_bundle_digest p)
                        (sort_by str_leb (rq_root_declarations (ax_request p))) = Ok v ∧
    canonical_json v = Ok (ci_canonical_bytes (ax_provided_interface p)) ∧
    identity_text sha256_hex v (ci_canonical_bytes (ax_provided_interface p))
      (ci_digest (ax_provided_interface p));
  ap_environment : dget "environment" (se_exact s) = Some (JStr (rq_environment (ax_request p))) ∧
    rq_environment (ax_request p) ≠ "";
  ap_base_imports : names_of (se_closure s) "base_imports" "closure.base_imports"
                    = Ok (rq_base_imports (ax_request p));
  ap_manifest : ax_manifest p = a
}.

Lemma parse_axle_manifest_inv bytes canonical v p :
  parse_axle_manifest sha256_hex bytes canonical v = Ok p →
  ∃ s, v = JObj (ax_manifest p) ∧ (∀ k, k ∈ dkeys (ax_manifest p) ↔ k ∈ TOP_LEVEL_KEYS) ∧
    axle_parts (ax_manifest p) s p ∧ (canonical = true → bytes = ax_canonical_bytes p).
Proof.
  unfold parse_axle_manifest. intros H.
  apply bind_Ok in H as (a & [-> Ha]%axle_object_Ok & H).
  apply bind_Ok in H as (s & Hs & H). apply bind_Ok in H as ([] & Hverdict & H).
  apply bind_Ok in H as (roots & Hroots & H). cbv zeta in H.
  apply bind_Ok in H as (m & Hm & H). apply bind_Ok in H as (imports & Himports & H).
  apply bind_Ok in H as ([source [exact independent]] & Hd & H).
  apply bind_Ok in H as (text & Htext & H). apply require_bind in H as [Hcan H].
  apply bind_Ok in H as (sv & Hsv & H). apply bind_Ok in H as (sb & Hsb & H).
  apply bind_Ok in H as (iv & Hiv & H). apply bind_Ok in H as (ib & Hib & H).
  apply bind_Ok in H as (ev & Hev%field_Ok & H). apply bind_Ok in H as (e & [-> He]%axle_string_Ok & H).
  apply bind_Ok in H as (bi & Hbi & H).
  apply bind_Ok in H as (si & Hsi & H). apply bind_Ok in H as (pi & Hpi & [= <-]).
  unfold mk_canonical_source_identity in Hsi. apply bind_Ok in Hsi as ([] & Hsi%canonical_payload_Ok & [= <-]).
  unfold mk_canonical_interface in Hpi. apply bind_Ok in Hpi as ([] & Hpi%canonical_payload_Ok & [= <-]).
  exists s. split_and!; [done|done| |].
  - pose proof (proj1 (canonical_json_Ok _ _) Hsb) as [Esb _].
    pose proof (proj1 (canonical_json_Ok _ _) Hib) as [Eib _].
    destruct Hsi as [_ Hsi], Hpi as [_ Hpi]. split; simpl; try done.
    + by exists sv.
    + by exists iv.
  - intros ->. simpl in *. by rewrite negb_involutive, bool_decide_eq_true in Hcan.
Qed.

Lemma parse_axle_manifest_of_parts bytes canonical a s p :
  (∀ k, k ∈ dkeys a ↔ k ∈ TOP_LEVEL_KEYS) → axle_parts a s p →
  (canonical = true → bytes = ax_canonical_bytes p) →
  parse_axle_manifest sha256_hex bytes canonical (JObj a) = Ok p.
Proof.
  intros Ha [Hs Hv Hr Hm Hi Hd Hb (sv & Hsv & Hsb & _ & Hsi) (iv & Hiv & Hib & _ & Hpi) [He Hne] Hbi Hmf] Hcan.
  unfold parse_axle_manifest. cbn [axle_object].
  pose proof (proj2 (shape_difference_nil a TOP_LEVEL_KEYS) Ha) as Hshape.
  destruct (shape_difference _ _). rewrite Hshape. cbn [require mbind result_bind].
  rewrite Hs; cbn [mbind result_bind]. rewrite Hv; cbn [mbind result_bind].
  rewrite Hr; cbn [mbind result_bind]. rewrite Hm; cbn [mbind result_bind].
  rewrite Hi; cbn [mbind result_bind]. rewrite Hd; cbn [mbind result_bind].
  rewrite Hb; cbn [mbind result_bind].
  assert (negb (canonical && negb (bool_decide (bytes = ax_canonical_bytes p))) = true) as ->.
  { destruct canonical; [|done]. by rewrite (bool_decide_eq_true_2 _ (Hcan eq_refl)). }
  cbn [require mbind result_bind].
  rewrite Hsv; cbn [mbind result_bind]. rewrite Hsb; cbn [mbind result_bind].
  rewrite Hiv; cbn [mbind result_bind]. rewrite Hib; cbn [mbind result_bind].
  unfold field. rewrite He; cbn [of_option mbind result_bind].
  rewrite (proj2 (axle_string_Ok _ _ _) (conj eq_refl Hne)); cbn [mbind result_bind].
  rewrite Hbi; cbn [mbind result_bind].
  unfold mk_canonical_source_identity, mk_canonical_interface.
  destruct Hsi as [Hsi1 Hsi2], Hpi as [Hpi1 Hpi2]. rewrite Hsi1 in Hsi2. rewrite Hpi1 in Hpi2.
  rewrite (proj2 (canonical_payload_Ok _ _ _) (conj eq_refl Hsi2)).
  rewrite (proj2 (canonical_payload_Ok _ _ _) (conj eq_refl Hpi2)).
  cbn [mbind result_bind]. rewrite <-Hsi1, <-Hpi1. f_equal. rewrite <-Hmf.
  destruct p as [? ? [] ? ? ? [] []]; done.
Qed.

Lemma axle_parts_artifact a s p : (∀ k, k ∈ dkeys a ↔ k ∈ TOP_LEVEL_KEYS) →
  axle_parts a s p → AxleArtifact sha256_hex (JObj a) p.
Proof.
  intros Ha [Hs%axle_sections_Ok [Hschemas Hverdict]%axle_verdict_Ok [Hroots Hsame]%axle_roots_Ok
    Hm%axle_root_module_Ok Hi Hd%axle_digests_Ok [Hb _]%canonical_json_Ok
    (sv & Hsv & _ & Hsi) (iv & Hiv & _ & Hpi) [He Hne] Hbi%names_of_Ok Hmf].
  pose proof (axle_imports_Ok _ _ Hi) as Himports.
  destruct Hs as (Hcl & Kc & Hpf & Kp & Hex & Kx & Hin & Ki & Hve & Kv & t & Ht & Kt).
  destruct Hm as (Hm1 & Hm & Hm2 & Hm3). destruct Hd as (Hd1 & Hd2 & Hd3 & Hd4 & Hd5 & Hd).
  rewrite !Forall_cons in Hd. destruct Hd as (Hf1 & Hf2 & Hf3 & _).
  split; unfold shape_at, text_at, names_at, digest_at; rewrite ?Forall_cons, ?Forall_nil.
  - split_and!; try done; eexists; (split; [by follow_path|done]).
  - unfold axle_schemas in Hschemas. rewrite !Forall_cons in Hschemas.
    destruct Hschemas as (? & ? & ? & ? & ? & _). split_and!; try done; by follow_path.
  - rewrite !Forall_cons in Hverdict. destruct Hverdict as (? & ? & ? & _).
    split_and!; try done; by follow_path.
  - apply names_of_Ok in Hroots as [? ?]. by follow_path.
  - assert (∀ d section, d ∈ [se_preflight s; se_exact s; se_independent s] →
      dget section a = Some (JObj d) → ∃ l, names_at (JObj a) [section; "root_declarations"] l ∧
        l ≡ₚ rq_root_declarations (ax_request p)) as Hl.
    { intros d section Hin' Hd'. destruct (Hsame d Hin') as (label & l & [? ?]%names_of_Ok & Hp).
      exists l. unfold names_at. by follow_path. }
    split_and!; [eapply Hl; [|done]; rewrite !elem_of_cons; tauto..|done].
  - by follow_path.
  - split_and!; try done; by follow_path.
  - assert (∀ d section, d ∈ [se_closure s; se_preflight s; se_independent s] →
      dget section a = Some (JObj d) →
      names_at (JObj a) [section; "proof_base_imports"] (rq_proof_base_imports (ax_request p))) as Hl.
    { intros d section Hin' Hd'. destruct (Himports d Hin') as (label & [? ?]%names_of_Ok).
      unfold names_at. by follow_path. }
    split_and!; [eapply Hl; [|done]; rewrite !elem_of_cons; tauto..|done].
  - destruct Hbi. by follow_path.
  - by follow_path.
  - split_and!; try done; by follow_path.
  - split_and!; try done; by follow_path.
  - by follow_path.
  - by rewrite Hmf.
  - done.
  - apply axle_source_identity_Ok in Hsv as (src & res & Hsrc & Hres & ->).
    exists src, res. split_and!; [by follow_path..|done].
  - apply axle_provided_interface_Ok in Hiv as (src & decls & sdecls & Hsrc & Hdecls & Hsdecls & ->).
    exists src, decls, sdecls. split_and!; [by follow_path..|done].
Qed.
End parsed.
