(* ===== verification/AxleAuthorityTheorems.v ===== *)
(** * The AXLE authority accepts what can be reproduced, and only that

    An artifact and its canonical text parse alike, since the parser never
    looks at the order of members.  From this, and from the specification of an
    artifact in [AxleAuthorityFacts], come the two theorems: what the authority
    accepts was reproduced, and what a run declares is accepted when the run
    can be repeated. *)

From Stdlib Require Import Ascii.
From S2P Require Import Prelude PyDict GraphTypes Receipts Text Merkle EvidenceModel SchemeDatum Sort ReceiptGraph ReceiptGraphFacts ReceiptGraphTheorems Json JsonFacts ReceiptAudit ReceiptAuditTheorems AxleAuthority AxleAuthorityFacts.

(** ** An artifact and its canonical text read alike *)

Section tidy.
Context (float_repr : string → string).

Definition wf_dict (d : dict string Json) : Prop := well_formed float_repr (JObj d).

Lemma wf_dict_keys d : wf_dict d → dict_wf d.
Proof. by inversion 1. Qed.

Lemma wf_dict_get d k v : wf_dict d → dget k d = Some v → well_formed float_repr v.
Proof.
  inversion 1 as [| | | | | |? _ Hd]; subst. intros Hv%dget_Some_elem.
  rewrite Forall_forall in Hd. by apply (Hd (k, v)).
Qed.

Lemma axle_object_tidy v label keys :
  axle_object (tidy v) label keys = tidy_members <$> axle_object v label keys.
Proof.
  destruct v; try done. rewrite tidy_obj. cbn [axle_object]. rewrite shape_difference_tidy.
  destruct (shape_difference _ _). by destruct (_ && _).
Qed.

Lemma axle_string_tidy v label : axle_string (tidy v) label = axle_string v label.
Proof. by destruct v. Qed.

Lemma axle_string_tuple_tidy v label : axle_string_tuple (tidy v) label = axle_string_tuple v label.
Proof.
  destruct v; try done. cbn [tidy axle_string_tuple].
  assert (mapM (λ item, axle_string item label) (map tidy l)
          = mapM (λ item, axle_string item label) l) as ->; [|done].
  induction l as [|v l IH]; [done|]. cbn [map mapM]. by rewrite axle_string_tidy, IH.
Qed.

Lemma names_of_tidy d key label : dict_wf d →
  names_of (tidy_members d) key label = names_of d key label.
Proof.
  intros Hd. unfold names_of. rewrite field_tidy by done.
  destruct (field d key); [|done]. apply axle_string_tuple_tidy.
Qed.

(** A value that is equal to nothing but itself, whatever the order of members. *)
Definition flat (v : Json) : bool :=
  match v with JObj _ => false | JList (_ :: _) => false | _ => true end.

Lemma tidy_flat v w : flat w = true → tidy v = w ↔ v = w.
Proof. destruct v as [| | | | |[]|], w as [| | | | |[]|]; try done; by split; intros [=]. Qed.

Lemma axle_check_tidy d key expected code detail : dict_wf d → flat expected = true →
  axle_check (tidy_members d) key expected code detail = axle_check d key expected code detail.
Proof.
  intros Hd Hf. unfold axle_check. rewrite field_tidy by done.
  destruct (field d key) as [v|]; [|done]. cbn [fmap result_fmap mbind result_bind].
  by rewrite (bool_decide_ext (tidy v = expected) (v = expected) (tidy_flat v expected Hf)).
Qed.

Lemma axle_digest_tidy v label : axle_digest (tidy v) label = axle_digest v label.
Proof. unfold axle_digest. by rewrite axle_string_tidy. Qed.

Definition tidy_sections (s : AxleSections) : AxleSections :=
  MkAxleSections (tidy_members (se_closure s)) (tidy_members (se_preflight s))
    (tidy_members (se_exact s)) (tidy_members (se_independent s)) (tidy_members (se_verification s)).

Record wf_sections (s : AxleSections) : Prop := {
  ws_closure : wf_dict (se_closure s);
  ws_preflight : wf_dict (se_preflight s);
  ws_exact : wf_dict (se_exact s);
  ws_independent : wf_dict (se_independent s);
  ws_verification : wf_dict (se_verification s)
}.

Lemma axle_sections_wf a s : wf_dict a → axle_sections a = Ok s → wf_sections s.
Proof.
  intros Ha (Hc & _ & Hp & _ & Hx & _ & Hi & _ & Hv & _ & _)%axle_sections_Ok.
  assert (wf_dict (se_exact s)) as Hxw by exact (wf_dict_get _ _ _ Ha Hx).
  split; [..|exact (wf_dict_get _ _ _ Hxw Hv)]; by eapply (wf_dict_get a).
Qed.

Lemma dget_tidy_obj d k m : wf_dict d → dget k d = Some (JObj m) →
  dget k (tidy_members d) = Some (JObj (tidy_members m)).
Proof. intros Hd%wf_dict_keys Hm. by rewrite dget_tidy, Hm. Qed.

Lemma axle_sections_tidy a s : wf_dict a → axle_sections a = Ok s →
  axle_sections (tidy_members a) = Ok (tidy_sections s).
Proof.
  intros Ha Hs. pose proof (axle_sections_wf a s Ha Hs) as [_ _ Hx _ _].
  apply axle_sections_Ok in Hs as (Hc & Kc & Hp & Kp & Hxd & Kx & Hi & Ki & Hv & Kv & t & Ht & Kt).
  apply axle_sections_Ok. cbn [tidy_sections se_closure se_preflight se_exact se_independent
    se_verification]. setoid_rewrite tidy_members_keys.
  split_and!; try done; try by apply dget_tidy_obj.
  exists (tidy_members t). split; [by apply dget_tidy_obj|]. by setoid_rewrite tidy_members_keys.
Qed.

Section sections.
Context (s : AxleSections) (Hs : wf_sections s).

Lemma axle_schemas_tidy l : Forall (λ m, wf_dict m.1) l →
  foldM (λ _ '(value, (expected, label)),
      axle_check value "schema_id" (JStr expected) "invalid-axle-receipt-schema"
        (label +:+ " expected " +:+ expected)) () (prod_map tidy_members id <$> l)
  = foldM (λ _ '(value, (expected, label)),
      axle_check value "schema_id" (JStr expected) "invalid-axle-receipt-schema"
        (label +:+ " expected " +:+ expected)) () l.
Proof.
  induction 1 as [|[d [e label]] l Hd _ IH]; [done|]. cbn [fmap list_fmap prod_map foldM fst snd].
  cbn [id]. rewrite axle_check_tidy by (done || by apply wf_dict_keys).
  destruct (axle_check _ _ _ _ _) as [[]|]; [exact IH|done].
Qed.

Lemma axle_verdict_tidy : axle_verdict (tidy_sections s) = axle_verdict s.
Proof.
  unfold axle_verdict.
  change (axle_schemas (tidy_sections s)) with (prod_map tidy_members id <$> axle_schemas s).
  rewrite axle_schemas_tidy.
  2:{ unfold axle_schemas. rewrite !Forall_cons. split_and!; try apply Hs. done. }
  cbn [tidy_sections se_verification].
  by rewrite !axle_check_tidy by (done || apply wf_dict_keys, Hs).
Qed.

Lemma axle_roots_tidy : axle_roots (tidy_sections s) = axle_roots s.
Proof.
  unfold axle_roots, tidy_sections; cbn [se_closure se_preflight se_exact se_independent].
  by rewrite !names_of_tidy by apply wf_dict_keys, Hs.
Qed.

Lemma axle_root_module_tidy : axle_root_module (tidy_sections s) = axle_root_module s.
Proof.
  unfold axle_root_module, tidy_sections; cbn [se_closure se_preflight se_independent].
  rewrite field_tidy by apply wf_dict_keys, Hs.
  destruct (field (se_closure s) _) as [v|]; [|done]. cbn [fmap result_fmap mbind result_bind].
  rewrite axle_string_tidy. destruct (axle_string v _) as [m|]; [|done]. cbn [mbind result_bind].
  by rewrite !axle_check_tidy by (done || apply wf_dict_keys, Hs).
Qed.

Lemma axle_imports_tidy : axle_proof_base_imports (tidy_sections s) = axle_proof_base_imports s.
Proof.
  unfold axle_proof_base_imports, tidy_sections; cbn [se_closure se_preflight se_independent].
  by rewrite !names_of_tidy by apply wf_dict_keys, Hs.
Qed.

Lemma axle_digests_tidy a : wf_dict a →
  axle_digests (tidy_members a) (tidy_sections s) = axle_digests a s.
Proof.
  intros Ha. unfold axle_digests, tidy_sections; cbn [se_exact se_independent].
  rewrite !field_tidy by (apply wf_dict_keys; done || apply Hs).
  destruct (field (se_exact s) _) as [v|]; [|done]. cbn [fmap result_fmap mbind result_bind].
  rewrite axle_digest_tidy. destruct (axle_digest v _) as [d|]; [|done]. cbn [mbind result_bind].
  rewrite axle_check_tidy by (done || apply wf_dict_keys, Hs).
  destruct (axle_check _ _ _ _ _); [|done]. cbn [mbind result_bind].
  destruct (field a "exact_bundle_digest") as [v2|]; [|done]. cbn [fmap result_fmap mbind result_bind].
  rewrite axle_digest_tidy. destruct (axle_digest v2 _) as [d2|]; [|done]. cbn [mbind result_bind].
  rewrite axle_check_tidy by (done || apply wf_dict_keys, Hs).
  destruct (axle_check _ _ _ _ _); [|done]. cbn [mbind result_bind].
  destruct (field a _) as [v3|]; [|done]. cbn [fmap result_fmap mbind result_bind].
  by rewrite axle_digest_tidy.
Qed.

Lemma axle_source_identity_tidy digest m v : axle_source_identity s digest m = Ok v →
  ∃ w, axle_source_identity (tidy_sections s) digest m = Ok w ∧ write_json w = write_json v.
Proof.
  intros (src & res & H1 & H2 & ->)%axle_source_identity_Ok.
  unfold axle_source_identity, tidy_sections, field; cbn [se_exact se_independent].
  rewrite !dget_tidy, H1, H2 by apply wf_dict_keys, Hs. eexists. split; [reflexivity|].
  cbn [write_json map]. by rewrite !write_json_tidy.
Qed.

Lemma axle_provided_interface_tidy source_digest exact_digest roots v :
  axle_provided_interface s source_digest exact_digest roots = Ok v →
  ∃ w, axle_provided_interface (tidy_sections s) source_digest exact_digest roots = Ok w ∧
    write_json w = write_json v.
Proof.
  intros (src & decls & sdecls & H1 & H2 & H3 & ->)%axle_provided_interface_Ok.
  unfold axle_provided_interface, tidy_sections, field; cbn [se_exact].
  rewrite !dget_tidy, H1, H2, H3 by apply wf_dict_keys, Hs. eexists. split; [reflexivity|].
  cbn [write_json map]. by rewrite !write_json_tidy.
Qed.
End sections.

Definition with_manifest (a : dict string Json) (p : ParsedAxleClosureArtifactV1) :
    ParsedAxleClosureArtifactV1 :=
  ParsedAxle a (ax_canonical_bytes p) (ax_request p) (ax_exact_bundle_digest p)
    (ax_independent_bundle_digest p) (ax_canonical_source_digest p) (ax_source_identity p)
    (ax_provided_interface p).

Lemma canonical_json_same v w : write_json w = write_json v → canonical_json w = canonical_json v.
Proof. unfold canonical_json. by intros ->. Qed.

Lemma identity_text_same sha256_hex v w bytes digest : write_json w = write_json v →
  identity_text sha256_hex v bytes digest → identity_text sha256_hex w bytes digest.
Proof. unfold identity_text. by intros ->. Qed.

Lemma axle_parts_tidy sha256_hex a s p : wf_dict a → axle_parts sha256_hex a s p →
  axle_parts sha256_hex (tidy_members a) (tidy_sections s) (with_manifest (tidy_members a) p).
Proof.
  intros Ha [Hs Hv Hr Hm Hi Hd Hb (sv & Hsv & Hsb & Hsi) (iv & Hiv & Hib & Hpi) [He Hne] Hbi Hmf].
  pose proof (axle_sections_wf a s Ha Hs) as Hws.
  split; cbn [with_manifest ax_manifest ax_canonical_bytes ax_request ax_exact_bundle_digest
    ax_independent_bundle_digest ax_canonical_source_digest ax_source_identity
    ax_provided_interface].
  - by apply axle_sections_tidy.
  - by rewrite axle_verdict_tidy.
  - by rewrite axle_roots_tidy.
  - by rewrite axle_root_module_tidy.
  - by rewrite axle_imports_tidy.
  - by rewrite axle_digests_tidy.
  - rewrite <-Hb. apply canonical_json_same. by rewrite <-tidy_obj, write_json_tidy.
  - apply (axle_source_identity_tidy s Hws) in Hsv as (w & Hw & E). exists w.
    rewrite (canonical_json_same _ _ E). by eauto using identity_text_same.
  - apply (axle_provided_interface_tidy s Hws) in Hiv as (w & Hw & E). exists w.
    rewrite (canonical_json_same _ _ E). by eauto using identity_text_same.
  - cbn [tidy_sections se_exact]. by rewrite dget_tidy, He by apply wf_dict_keys, Hws.
  - cbn [tidy_sections se_closure]. by rewrite names_of_tidy by apply wf_dict_keys, Hws.
  - done.
Qed.
End tidy.

(** ** Reading and accepting *)

Section load.
Context (float_repr : string → string).

Lemma invalid_json_Ok {A} (r : result Exn A) x : invalid_json r = Ok x ↔ r = Ok x.
Proof. destruct r as [|[]]; simpl; try case_bool_decide; naive_solver. Qed.

Lemma load_axle_Ok bytes v : load_axle float_repr bytes = Some (Ok v) ↔
  utf8_valid bytes = true ∧
  json_loads float_repr duplicate_key_rejecting_object bytes = Some (Ok v).
Proof.
  unfold load_axle, decode_utf8. destruct (utf8_valid bytes); cbn [require mbind result_bind invalid_json].
  - rewrite fmap_Some. split.
    + intros (r & -> & H). symmetry in H. by apply invalid_json_Ok in H as ->.
    + intros [_ ->]. by exists (Ok v).
  - rewrite bool_decide_eq_true_2 by set_solver. split; [done|by intros [? _]].
Qed.

Lemma load_axle_answers bytes : load_axle float_repr bytes ≠ None.
Proof.
  unfold load_axle. destruct (invalid_json _); [|done]. intros H%fmap_None.
  by apply json_loads_total in H.
Qed.

End load.

Section authority.
Context (sha256_hex : string → string) (float_repr : string → string).

Lemma parse_axle_Ok bytes canonical p :
  parse_axle sha256_hex float_repr bytes canonical = Some (Ok p) ↔
  ∃ v, load_axle float_repr bytes = Some (Ok v) ∧
    parse_axle_manifest sha256_hex bytes canonical v = Ok p.
Proof.
  unfold parse_axle. rewrite bind_Some. split.
  - intros ([v|e] & Hl & H); apply (inj Some) in H; [by exists v|done].
  - intros (v & Hl & H). exists (Ok v). split; [done|]. cbn [mbind result_bind]. by rewrite H.
Qed.

Lemma parse_axle_answers bytes canonical : parse_axle sha256_hex float_repr bytes canonical ≠ None.
Proof.
  unfold parse_axle. pose proof (load_axle_answers float_repr bytes). by destruct (load_axle _ _).
Qed.

Lemma parse_axle_artifact bytes canonical p :
  parse_axle sha256_hex float_repr bytes canonical = Some (Ok p) →
  ∃ v, load_axle float_repr bytes = Some (Ok v) ∧ AxleArtifact sha256_hex v p ∧
    (canonical = true → bytes = ax_canonical_bytes p).
Proof.
  intros (v & Hl & Hp)%parse_axle_Ok. exists v. split; [done|].
  apply parse_axle_manifest_inv in Hp as (s & -> & Hk & Hparts & Hc).
  split; [exact (axle_parts_artifact _ _ _ _ Hk Hparts)|done].
Qed.

End authority.

(** Both artifacts agree on all that identifies a result. *)
Definition same_result (p q : ParsedAxleClosureArtifactV1) : Prop :=
  ax_request p = ax_request q ∧ ax_exact_bundle_digest p = ax_exact_bundle_digest q ∧
  ax_independent_bundle_digest p = ax_independent_bundle_digest q ∧
  ax_canonical_source_digest p = ax_canonical_source_digest q ∧
  ax_source_identity p = ax_source_identity q ∧
  ax_provided_interface p = ax_provided_interface q.

Lemma all_same (l : list (string * bool)) :
  fst <$> filter (λ '(_, same), same = false) l = [] ↔ Forall (λ m, m.2 = true) l.
Proof.
  induction l as [|[k []] l IH]; [done|..]; rewrite Forall_cons, <-IH.
  - rewrite filter_cons_False by done. naive_solver.
  - rewrite filter_cons_True by done. csimpl. naive_solver.
Qed.

Lemma mismatched_nil p q : mismatched_components p q = [] ↔ same_result p q.
Proof.
  unfold mismatched_components, same_result.
  rewrite sort_by_nil, all_same, !Forall_cons, Forall_nil. cbn [snd].
  rewrite !bool_decide_eq_true. tauto.
Qed.

(** ** What an accepted receipt went through *)

Lemma check_evidence_Ok sha256_hex a e : check_evidence sha256_hex a = Ok e → e = a.
Proof.
  unfold check_evidence. intros H.
  repeat match type of H with _ ≫= _ = _ => apply bind_Ok in H as (? & _ & H) end. by injection H.
Qed.

Lemma nonempty_names (l : list string) :
  forallb (λ d, negb (bool_decide (d = ""))) l = true ↔ Forall (λ d, d ≠ "") l.
Proof.
  induction l as [|d l IH]; [done|]. cbn [forallb].
  by rewrite andb_true_iff, negb_true_iff, bool_decide_eq_false, Forall_cons, IH.
Qed.

Lemma check_verified_Ok e e' : check_verified e = Ok e' ↔
  (ar_bound_source_identity_digest (av_acceptance e) = cs_digest (av_source_identity e) ∧
   ar_bound_independent_bundle_digest (av_acceptance e) = av_independent_bundle_digest e ∧
   ar_bound_provided_interface_digest (av_acceptance e) = ci_digest (av_provided_interface e)) ∧
  av_root_declarations e ≠ [] ∧ Forall (λ d, d ≠ "") (av_root_declarations e) ∧
  e' = AuthorityVerifiedReceiptEvidence (av_acceptance e) (av_source_identity e)
         (av_independent_bundle_digest e) (av_provided_interface e)
         (sort_by str_leb (av_root_declarations e)).
Proof.
  unfold check_verified. rewrite !require_bind, negb_true_iff, bool_decide_eq_true, bool_decide_eq_false.
  rewrite nonempty_names. split.
  - intros ([= H1 H2 H3] & Hne & Hall & [= <-]). done.
  - intros ((-> & -> & ->) & Hne & Hall & ->). done.
Qed.

Lemma axle_accept_Ok sha256_hex d p q e : dr_engine_identity d = AXLE_RECEIPT_ENGINE_IDENTITY_V1 →
  axle_accept sha256_hex d p q = Ok e →
  same_result p q ∧ declared_of (av_acceptance e) = d ∧
  ar_decision (av_acceptance e) = "accepted" ∧ check_verified e = Ok e ∧
  av_source_identity e = ax_source_identity q ∧
  av_independent_bundle_digest e = ax_independent_bundle_digest q ∧
  av_provided_interface e = ax_provided_interface q ∧
  av_root_declarations e = sort_by str_leb (rq_root_declarations (ax_request q)).
Proof.
  intros He H. unfold axle_accept in H. cbv zeta in H.
  apply require_bind in H as [Hm%bool_decide_eq_true H]. apply mismatched_nil in Hm.
  apply bind_Ok in H as (a & ->%check_evidence_Ok & H).
  apply check_verified_Ok in H as (Hb & Hne & Hall & ->). simpl in *.
  split; [done|]. split; [destruct d; simpl in *; by subst|]. split_and!; try done.
  apply check_verified_Ok. simpl. split_and!; try done.
  - intros Hnil. by apply sort_by_nil in Hnil.
  - by rewrite (sort_by_perm str_leb).
  - by rewrite sort_roots_idem.
Qed.

Section validate.
Context (sha256_hex : string → string) (float_repr : string → string).
Context (reverify : AxleClosureVerificationRequestV1 → result Exn string).

Lemma axle_validate_Ok d e : axle_validate sha256_hex float_repr reverify d = Some (Ok e) ↔
  dr_engine_identity d = AXLE_RECEIPT_ENGINE_IDENTITY_V1 ∧
  ∃ p bytes q, parse_axle sha256_hex float_repr (dr_canonical_receipt_bytes d) true = Some (Ok p) ∧
    reverify (ax_request p) = Ok bytes ∧
    parse_axle sha256_hex float_repr bytes false = Some (Ok q) ∧
    axle_accept sha256_hex d p q = Ok e.
Proof.
  unfold axle_validate. case_bool_decide as He; [|naive_solver]. rewrite bind_Some. split.
  - intros ([p|] & Hp & H); [|done]. destruct (reverify (ax_request p)) as [bytes|] eqn:Hr; [|done].
    apply bind_Some in H as ([q|] & Hq & H); apply (inj Some) in H; [|done].
    split; [done|]. by exists p, bytes, q.
  - intros (_ & p & bytes & q & Hp & Hr & Hq & Ha). exists (Ok p). split; [done|].
    rewrite Hr, Hq. cbn [mbind option_bind result_bind]. by rewrite Ha.
Qed.

Lemma axle_validate_answers d : axle_validate sha256_hex float_repr reverify d ≠ None.
Proof.
  unfold axle_validate. case_bool_decide; [|done].
  pose proof (parse_axle_answers sha256_hex float_repr (dr_canonical_receipt_bytes d) true).
  destruct (parse_axle _ _ _ true) as [[p|]|]; [|done..]. cbn [mbind option_bind].
  destruct (reverify _) as [bytes|]; [|done]. pose proof (parse_axle_answers sha256_hex float_repr bytes false).
  by destruct (parse_axle _ _ _ false).
Qed.

End validate.

(** C22. [AxleClosureReceiptAuthorityV1.validate] always answers.  What it
    accepts is the canonical text of a well-formed artifact whose run was
    accepted without failures, and the repeated run of the request in it
    produced a well-formed artifact with the same request, digests, source and
    interface.  The evidence it answers carries exactly the declared receipt
    and binds the identities of the repeated run. *)
Theorem axle_accepts_only_reproduced (sha256_hex float_repr : string → string)
    (reverify : AxleClosureVerificationRequestV1 → result Exn string)
    (declared : DeclaredReceiptEvidenceV1) :
  (∃ answer, axle_validate sha256_hex float_repr reverify declared = Some answer) ∧
  ∀ e, axle_validate sha256_hex float_repr reverify declared = Some (Ok e) →
    (dr_engine_identity declared = AXLE_RECEIPT_ENGINE_IDENTITY_V1 ∧
     declared_of (av_acceptance e) = declared ∧
     ar_decision (av_acceptance e) = "accepted" ∧ check_verified e = Ok e) ∧
    ∃ v p bytes w q,
      dr_canonical_receipt_bytes declared = write_json v ∧
      load_axle float_repr (write_json v) = Some (Ok v) ∧ AxleArtifact sha256_hex v p ∧
      reverify (ax_request p) = Ok bytes ∧
      load_axle float_repr bytes = Some (Ok w) ∧ AxleArtifact sha256_hex w q ∧
      same_result p q ∧
      av_source_identity e = ax_source_identity q ∧
      av_independent_bundle_digest e = ax_independent_bundle_digest q ∧
      av_provided_interface e = ax_provided_interface q ∧
      av_root_declarations e = sort_by str_leb (rq_root_declarations (ax_request q)).
Proof.
  split; [by apply not_eq_None_Some, axle_validate_answers|].
  intros e (He & p & bytes & q & Hp & Hr & Hq & Ha)%axle_validate_Ok.
  apply axle_accept_Ok in Ha as (Hsame & Hd & Hdec & Hc & Hids); [|done].
  apply parse_axle_artifact in Hp as (v & Hv & Hvp & Hcan).
  apply parse_axle_artifact in Hq as (w & Hw & Hwq & _).
  specialize (Hcan eq_refl). rewrite (aa_bytes _ _ _ Hvp) in Hcan.
  split; [done|]. exists v, p, bytes, w, q. by rewrite <-Hcan at 2.
Qed.

(** ** A declared receipt is accepted when its run can be repeated *)

Section declared.
Context (sha256_hex float_repr : string → string).
(** A float is written so that it reads back, and a SHA-256 digest is 64
    hexadecimal digits. *)
Context (Hrepr : ∀ literal, float_text float_repr (float_repr literal)).
Context (Hsha : ∀ payload, digest_form (sha256_digest sha256_hex payload) = true).

Lemma load_axle_well_formed bytes v :
  load_axle float_repr bytes = Some (Ok v) → well_formed float_repr v.
Proof.
  intros [_ Hv]%load_axle_Ok. revert Hv. apply json_loads_well_formed; [done|].
  intros d o. apply reject_duplicates_well_formed.
Qed.

Lemma load_axle_tidy v : well_formed float_repr v → utf8_valid (write_json v) = true →
  load_axle float_repr (write_json v) = Some (Ok (tidy v)).
Proof.
  intros Hv Hu. apply load_axle_Ok. split; [done|]. apply json_loads_tidy; [|done].
  apply reject_duplicates_Ok.
Qed.

(** The canonical text of an artifact is read as the same artifact. *)
Lemma parse_axle_canonical bytes p :
  parse_axle sha256_hex float_repr bytes false = Some (Ok p) →
  ∃ a, parse_axle sha256_hex float_repr (ax_canonical_bytes p) true
       = Some (Ok (with_manifest a p)).
Proof.
  intros (v & Hl & Hp)%parse_axle_Ok. pose proof (load_axle_well_formed _ _ Hl) as Hwf.
  apply parse_axle_manifest_inv in Hp as (s & -> & Hk & Hparts & _).
  exists (tidy_members (ax_manifest p)). apply parse_axle_Ok.
  pose proof (ap_bytes _ _ _ _ Hparts) as [Hb Hu]%canonical_json_Ok.
  exists (tidy (JObj (ax_manifest p))). split.
  { rewrite Hb. apply load_axle_tidy; [done|]. by rewrite <-Hb. }
  rewrite tidy_obj. eapply parse_axle_manifest_of_parts; [|by eapply axle_parts_tidy|done].
  by setoid_rewrite tidy_members_keys.
Qed.
End declared.

Lemma check_evidence_accepts sha256_hex a : check_declared sha256_hex (declared_of a) = Ok (declared_of a) →
  digest_form (ar_receipt_digest a) = true →
  digest_form (ar_bound_source_identity_digest a) = true →
  digest_form (ar_bound_independent_bundle_digest a) = true →
  digest_form (ar_bound_provided_interface_digest a) = true →
  ar_decision a = "accepted" → check_evidence sha256_hex a = Ok a.
Proof.
  unfold check_declared. cbv zeta. rewrite !require_bind. simpl.
  intros (Hne & Hd%bool_decide_eq_true & _) H0 H1 H2 H3 H4. unfold check_evidence.
  unfold require_nonempty, require_digest. rewrite Hne, H1, H2, H3, H4. cbn [require mbind result_bind].
  rewrite (proj2 (canonical_payload_Ok sha256_hex "acceptance_receipt" _ _)); [done|].
  done.
Qed.

Lemma declare_axle_Ok sha256_hex float_repr bytes d :
  declare_axle sha256_hex float_repr bytes = Some (Ok d) ↔
  ∃ p, parse_axle sha256_hex float_repr bytes false = Some (Ok p) ∧
    check_declared sha256_hex d = Ok d ∧
    d = DeclaredReceiptEvidence AXLE_RECEIPT_ENGINE_IDENTITY_V1 (ax_canonical_bytes p)
          (sha256_digest sha256_hex (ax_canonical_bytes p)).
Proof.
  unfold declare_axle. rewrite bind_Some. split.
  - intros ([p|] & Hp & H); apply (inj Some) in H; [|done]. cbn [mbind result_bind] in H.
    exists p. split; [done|]. revert H. unfold check_declared. cbv zeta. rewrite !require_bind.
    intros (H1 & H2 & [= <-]). by split.
  - intros (p & Hp & Hc & ->). exists (Ok p). split; [done|]. cbn [mbind result_bind]. by rewrite Hc.
Qed.

Lemma axle_accept_accepts sha256_hex p q e :
  same_result p q → AxleArtifact sha256_hex (JObj (ax_manifest q)) q →
  rq_root_declarations (ax_request q) ≠ [] →
  let d := DeclaredReceiptEvidence AXLE_RECEIPT_ENGINE_IDENTITY_V1 (ax_canonical_bytes p)
             (sha256_digest sha256_hex (ax_canonical_bytes p)) in
  check_declared sha256_hex d = Ok d → digest_form (dr_receipt_digest d) = true →
  e = AuthorityVerifiedReceiptEvidence
        (AcceptedReceiptEvidence AXLE_RECEIPT_ENGINE_IDENTITY_V1 (dr_canonical_receipt_bytes d)
           (dr_receipt_digest d) (cs_digest (ax_source_identity q)) (ax_independent_bundle_digest q)
           (ci_digest (ax_provided_interface q)) "accepted")
        (ax_source_identity q) (ax_independent_bundle_digest q) (ax_provided_interface q)
        (sort_by str_leb (rq_root_declarations (ax_request q))) →
  axle_accept sha256_hex d p q = Ok e.
Proof.
  intros Hsame Hq Hne d Hd Hf ->. unfold axle_accept. cbv zeta.
  rewrite bool_decide_eq_true_2 by by apply mismatched_nil. cbn [require mbind result_bind].
  destruct (aa_source_identity _ _ _ Hq) as (? & ? & _ & _ & _ & _ & Hs).
  destruct (aa_provided_interface _ _ _ Hq) as (? & ? & ? & _ & _ & _ & _ & _ & Hp).
  destruct (aa_independent_digest _ _ _ Hq) as [_ Hi].
  rewrite check_evidence_accepts by done. cbn [mbind result_bind].
  apply check_verified_Ok. simpl. split_and!; try done. apply (aa_roots _ _ _ Hq).
Qed.

(** The receipt that [declare_axle_closure_receipt_v1] makes of an artifact
    with a root declaration is accepted by the authority whenever the repeated
    run yields an artifact with the same result, whatever else in it differs
    (timings, messages, the layout of the JSON text); the evidence carries that
    receipt and the roots in order.  Assumed of [float.__repr__]: its text
    reads back; of SHA-256: its digests are 64 hexadecimal digits. *)
Theorem declared_receipt_revalidates (sha256_hex float_repr : string → string)
    (reverify : AxleClosureVerificationRequestV1 → result Exn string)
    (bytes fresh : string) (p q : ParsedAxleClosureArtifactV1) (d : DeclaredReceiptEvidenceV1)
    (Hrepr : ∀ literal, float_text float_repr (float_repr literal))
    (Hsha : ∀ payload, digest_form (sha256_digest sha256_hex payload) = true) :
  declare_axle sha256_hex float_repr bytes = Some (Ok d) →
  parse_axle sha256_hex float_repr bytes false = Some (Ok p) →
  rq_root_declarations (ax_request p) ≠ [] →
  reverify (ax_request p) = Ok fresh →
  parse_axle sha256_hex float_repr fresh false = Some (Ok q) → same_result p q →
  ∃ e, axle_validate sha256_hex float_repr reverify d = Some (Ok e) ∧
    declared_of (av_acceptance e) = d ∧ av_source_identity e = ax_source_identity p ∧
    av_independent_bundle_digest e = ax_independent_bundle_digest p ∧
    av_provided_interface e = ax_provided_interface p ∧
    av_root_declarations e = sort_by str_leb (rq_root_declarations (ax_request p)).
Proof.
  intros (p' & Hp' & Hd & ->)%declare_axle_Ok Hp Hne Hr Hq Hsame.
  assert (p' = p) as -> by congruence. clear Hp'.
  destruct (parse_axle_canonical _ _ Hrepr _ _ Hp) as [a Ha].
  destruct (parse_axle_artifact _ _ _ _ _ Hq) as (w & _ & Hwq & _).
  rewrite (aa_manifest _ _ _ Hwq) in Hwq.
  destruct Hsame as (Hreq & Hsame). rewrite Hreq in Hne.
  eexists. split.
  - apply axle_validate_Ok. split; [done|]. exists (with_manifest a p), fresh, q.
    split_and!; [done..|].
    apply (axle_accept_accepts sha256_hex (with_manifest a p) q); [by split|done..|apply Hsha|done].
  - destruct Hsame as (_ & Hi & _ & Hs & Hpi). simpl. rewrite Hreq. by split_and!.
Qed.

(** Two runs of one request that differ only in their timings. *)
Definition demo_float (_ : string) : string := "0.5".
Definition demo_artifact (seconds : Json) : Json :=
  let names := JList [JStr "Claim"] in
  let fill keys known := JObj ((λ k, (k, default JNull (dget k known))) <$> keys) in
  fill TOP_LEVEL_KEYS
    [("closure", fill CLOSURE_KEYS
       [("schema_id", JStr "poo-flow.lean-declaration-closure.v1"); ("root_declarations", names);
        ("root_module", JStr "Main"); ("base_imports", JList [JStr "Init"]);
        ("proof_base_imports", JList [])]);
     ("preflight", fill PREFLIGHT_KEYS
       [("schema_id", JStr "poo-flow.axle-closure-preflight.v1"); ("root_declarations", names);
        ("root_module", JStr "Main"); ("proof_base_imports", JList []);
        ("axle_base_timeout_seconds", seconds)]);
     ("exact_bundle", fill EXACT_BUNDLE_KEYS
       [("schema_id", JStr "poo-flow.axle-exact-declaration-closure.v1");
        ("root_declarations", names); ("canonical_source", JStr "theorem Claim : True := trivial");
        ("canonical_source_digest", JStr demo_digest); ("bundle_digest", JStr demo_digest);
        ("environment", JStr "lean-4"); ("theorem2sorry", fill THEOREM2SORRY_KEYS []);
        ("verification", fill VERIFICATION_KEYS
          [("schema_id", JStr "poo-flow.axle-root-declaration-validation.v1");
           ("status", JStr "accepted"); ("okay", JBool true); ("failed_declarations", JList []);
           ("timings", JObj [("total", seconds)])])]);
     ("exact_bundle_digest", JStr demo_digest);
     ("independent_declaration_bundle", fill INDEPENDENT_BUNDLE_KEYS
       [("schema_id", JStr "poo-flow.independent-declaration-bundle.v1");
        ("root_declarations", names); ("root_module", JStr "Main");
        ("proof_base_imports", JList []); ("canonical_source_digest", JStr demo_digest)]);
     ("independent_declaration_bundle_digest", JStr demo_digest)].
Definition demo_axle_bytes : string := write_json (demo_artifact (JFloat "1.25e0")).
Definition demo_fresh_bytes : string := " " +:+ write_json (demo_artifact (JInt 2)).
Definition demo_reverify (request : AxleClosureVerificationRequestV1) : result Exn string :=
  if bool_decide (rq_root_module request = "Main") then Ok demo_fresh_bytes
  else Raise (AuthorityError "axle-owner-reverification-failed" "").

Lemma demo_float_text literal : float_text demo_float (demo_float literal).
Proof.
  split; [by eexists _, _|]. intros rest Hr. destruct rest as [|c rest]; [done|].
  revert Hr. destruct c as [[] [] [] [] [] [] [] []]; intros H; solve [discriminate H|done].
Qed.

Lemma declared_receipt_revalidates_witness :
  ∃ d e, declare_axle demo_hex demo_float demo_axle_bytes = Some (Ok d) ∧
    axle_validate demo_hex demo_float demo_reverify d = Some (Ok e) ∧
    declared_of (av_acceptance e) = d ∧ av_root_declarations e = ["Claim"].
Proof.
  destruct (declare_axle demo_hex demo_float demo_axle_bytes) as [[d|]|] eqn:Hd;
    [|vm_compute in Hd; discriminate..].
  destruct (parse_axle demo_hex demo_float demo_axle_bytes false) as [[p|]|] eqn:Hp;
    [|vm_compute in Hp; discriminate..].
  destruct (parse_axle demo_hex demo_float demo_fresh_bytes false) as [[q|]|] eqn:Hq;
    [|vm_compute in Hq; discriminate..].
  pose proof Hp as Hp'. pose proof Hq as Hq'. vm_compute in Hp', Hq'.
  assert (rq_root_declarations (ax_request p) = ["Claim"]) as Hroots by by injection Hp' as <-.
  destruct (declared_receipt_revalidates demo_hex demo_float demo_reverify demo_axle_bytes
    demo_fresh_bytes p q d demo_float_text ltac:(by vm_compute) Hd Hp) as (e & He & Hde & _ & _ & _ & Hr).
  - by rewrite Hroots.
  - by injection Hp' as <-.
  - done.
  - clear -Hp' Hq'. injection Hp' as <-. injection Hq' as <-. by repeat split.
  - exists d, e. rewrite Hr, Hroots. split; [reflexivity|]. split; [exact He|]. split; [exact Hde|reflexivity].
Defined.
