(* ===== verification/IndependentBundle.v ===== *)
(** * Bundles of declarations ([independent_bundle.py])

    (In [src/packages/proofs/python/src/poo_flow_proof/].)  A bundle names the
    declarations of a proof in an order in which each comes after those it
    depends on, with the sources, the environment and the interface it rests on.
    The constructors validate; the digest of a bundle is that of its canonical
    JSON manifest and its source.  [sha256_hex] is [hashlib.sha256(...).hexdigest()],
    a parameter. *)

From Stdlib Require Import Ascii.
From S2P Require Import Prelude PyDict GraphTypes Receipts Text Merkle EvidenceModel SchemeDatum Sort ReceiptGraph Json.

Definition SCHEMA_ID : string := "poo-flow.independent-declaration-bundle.v1".

Definition BundleError (code detail : string) : Exn :=
  PyError "BundleValidationError" (code +:+ ": " +:+ detail).

Definition require_text (value field : string) : result Exn unit :=
  require (negb (bool_decide (value = "")) && negb (bool_decide (ustrip value = "")))
    (BundleError "missing-field" field).

Definition require_sha256 (value field : string) : result Exn unit :=
  require (digest_form value) (BundleError "invalid-digest" field).

(** [PurePosixPath(value).is_absolute()] and [PurePosixPath(value).parts]. *)
Definition is_absolute (value : string) : bool := starts_with_char "/" value.
Definition path_parts (value : string) : list string :=
  (if is_absolute value then ["/"] else [])
  ++ filter (λ part, part ≠ "" ∧ part ≠ ".") (split_on "/" value).

Definition require_owner_path (value field : string) : result Exn unit :=
  _ ← require_text value field;
  require (negb (is_absolute value || bool_decide (".." ∈ path_parts value)))
    (BundleError "invalid-owner-path" field).

(** [for value in values: _require_text(value, field)]. *)
Definition require_texts (values : list string) (field : string) : result Exn unit :=
  foldM (λ _ value, require_text value field) () values.

(** ** The parts of a bundle *)

Record AxleEnvironmentIdentity : Type := AxleEnvironment {
  ae_name : string;
  ae_lean_toolchain : string;
  ae_imports : list string;
  ae_repo_url : option string;
  ae_revision : option string;
  ae_subdir : option string
}.
Definition check_environment (e : AxleEnvironmentIdentity) : result Exn AxleEnvironmentIdentity :=
  _ ← require_text (ae_name e) "environment.name";
  _ ← require_text (ae_lean_toolchain e) "environment.lean_toolchain";
  _ ← require (negb (bool_decide (ae_imports e = [])))
        (BundleError "missing-environment-imports" "environment.imports");
  _ ← foldM (λ _ '(index, import_line),
        require_text import_line ("environment.imports[" +:+ str_of_nat index +:+ "]"))
        () (imap pair (ae_imports e));
  match ae_repo_url e with
  | None =>
      _ ← require (negb (bool_decide (is_Some (ae_revision e)) || bool_decide (is_Some (ae_subdir e))))
            (BundleError "incomplete-environment-source"
               "repo_url is required when revision or subdir is present");
      Ok e
  | Some repo_url =>
      _ ← require_text repo_url "environment.repo_url";
      revision ← of_option (BundleError "incomplete-environment-source"
                              "revision is required for a project-aware environment") (ae_revision e);
      _ ← require_text revision "environment.revision";
      Ok e
  end.

Definition json_option (o : option string) : Json := from_option JStr JNull o.

Definition environment_record (e : AxleEnvironmentIdentity) : Json :=
  JObj [("imports", JList (JStr <$> ae_imports e)); ("lean_toolchain", JStr (ae_lean_toolchain e));
        ("name", JStr (ae_name e)); ("repo_url", json_option (ae_repo_url e));
        ("revision", json_option (ae_revision e)); ("subdir", json_option (ae_subdir e))].

Record ResolvedSourceIdentity : Type := ResolvedSource {
  rs_package_id : string;
  rs_revision : string;
  rs_source_tree_digest : string;
  rs_lake_manifest_digest : string
}.
Definition check_source (s : ResolvedSourceIdentity) : result Exn ResolvedSourceIdentity :=
  _ ← require_text (rs_package_id s) "resolved_source.package_id";
  _ ← require_text (rs_revision s) "resolved_source.revision";
  _ ← require_sha256 (rs_source_tree_digest s) "resolved_source.source_tree_digest";
  _ ← require_sha256 (rs_lake_manifest_digest s) "resolved_source.lake_manifest_digest";
  Ok s.
Definition source_record (s : ResolvedSourceIdentity) : Json :=
  JObj [("lake_manifest_digest", JStr (rs_lake_manifest_digest s));
        ("package_id", JStr (rs_package_id s)); ("revision", JStr (rs_revision s));
        ("source_tree_digest", JStr (rs_source_tree_digest s))].

Record DeclarationIdentity : Type := Declaration {
  de_name : string;
  de_kind : string;
  de_owner_path : string;
  de_owner_source_digest : string;
  de_local_dependencies : list string
}.
Definition check_declaration (d : DeclarationIdentity) : result Exn DeclarationIdentity :=
  let label field := "declaration[" +:+ de_name d +:+ "]." +:+ field in
  _ ← require_text (de_name d) "declaration.name";
  _ ← require_text (de_kind d) (label "kind");
  _ ← require_owner_path (de_owner_path d) (label "owner_path");
  _ ← require_sha256 (de_owner_source_digest d) (label "owner_source_digest");
  _ ← require (negb (bool_decide (de_name d ∈ de_local_dependencies d)))
        (BundleError "self-dependency" (de_name d));
  _ ← require (negb (has_duplicates (de_local_dependencies d)))
        (BundleError "duplicate-dependency" (de_name d));
  _ ← require_texts (de_local_dependencies d) (label "local_dependencies");
  Ok d.
Definition declaration_record (d : DeclarationIdentity) : Json :=
  JObj [("kind", JStr (de_kind d));
        ("local_dependencies", JList (JStr <$> sort_by str_leb (de_local_dependencies d)));
        ("name", JStr (de_name d)); ("owner_path", JStr (de_owner_path d));
        ("owner_source_digest", JStr (de_owner_source_digest d))].

Record ProofBaseInterfaceDeclarationIdentity : Type := ProofBaseDeclaration {
  pb_name : string;
  pb_kind : string;
  pb_level_params : list string;
  pb_type_source : string;
  pb_value_source : option string;
  pb_local_dependencies : list string
}.
Definition check_proof_base (d : ProofBaseInterfaceDeclarationIdentity) :
    result Exn ProofBaseInterfaceDeclarationIdentity :=
  let label field := "proof_base_declaration[" +:+ pb_name d +:+ "]." +:+ field in
  _ ← require_text (pb_name d) "proof_base_declaration.name";
  _ ← require_text (pb_kind d) (label "kind");
  _ ← require_text (pb_type_source d) (label "type_source");
  _ ← (match pb_value_source d with
       | Some value => require_text value (label "value_source")
       | None => Ok ()
       end);
  _ ← require (negb (has_duplicates (pb_level_params d)))
        (BundleError "proof-base-duplicate-level-parameter" (pb_name d));
  _ ← require_texts (pb_level_params d) (label "level_params");
  _ ← require (negb (bool_decide (pb_name d ∈ pb_local_dependencies d)))
        (BundleError "proof-base-self-dependency" (pb_name d));
  _ ← require (negb (has_duplicates (pb_local_dependencies d)))
        (BundleError "proof-base-duplicate-dependency" (pb_name d));
  _ ← require_texts (pb_local_dependencies d) (label "local_dependencies");
  Ok d.
Definition proof_base_record (d : ProofBaseInterfaceDeclarationIdentity) : Json :=
  JObj [("kind", JStr (pb_kind d)); ("level_params", JList (JStr <$> pb_level_params d));
        ("local_dependencies", JList (JStr <$> sort_by str_leb (pb_local_dependencies d)));
        ("name", JStr (pb_name d)); ("type_source", JStr (pb_type_source d));
        ("value_source", json_option (pb_value_source d))].
Definition canonical_interface_record (d : ProofBaseInterfaceDeclarationIdentity) : Json :=
  JObj [("level_params", JList (JStr <$> pb_level_params d)); ("name", JStr (pb_name d));
        ("type_source", JStr (pb_type_source d)); ("value_source", json_option (pb_value_source d))].

(** ** Bundles *)

Record IndependentDeclarationBundle : Type := Bundle {
  bu_root_module : string;
  bu_root_declarations : list string;
  bu_lean_toolchain : string;
  bu_axle_environment : AxleEnvironmentIdentity;
  bu_resolved_sources : list ResolvedSourceIdentity;
  bu_proof_base_imports : list string;
  bu_proof_base_interface_digest : string;
  bu_proof_base_declarations : list ProofBaseInterfaceDeclarationIdentity;
  bu_declarations : list DeclarationIdentity;
  bu_canonical_source : string;
  bu_schema_id : string
}.

(** [(declaration.name, declaration.local_dependencies)] of all declarations,
    those of the proof base first. *)
Definition ordered_declarations (b : IndependentDeclarationBundle) : list (string * list string) :=
  ((λ d, (pb_name d, pb_local_dependencies d)) <$> bu_proof_base_declarations b)
  ++ ((λ d, (de_name d, de_local_dependencies d)) <$> bu_declarations b).

(** The body of the loop over them; [complete] are their names. *)
Definition emit (complete already_emitted : list string) (declaration : string * list string) :
    result Exn (list string) :=
  let '(name, dependencies) := declaration in
  _ ← foldM (λ _ dependency,
        _ ← require (bool_decide (dependency ∈ complete))
              (BundleError "missing-local-dependency" (name +:+ " -> " +:+ dependency));
        require (bool_decide (dependency ∈ already_emitted))
          (BundleError "non-topological-order" (name +:+ " -> " +:+ dependency))) () dependencies;
  Ok (already_emitted ++ [name]).

Definition source_leb (a b : ResolvedSourceIdentity) : bool :=
  str_leb (rs_package_id a) (rs_package_id b).

Section bundle.
Context (sha256_hex : string → string).

Definition canonical_proof_base_interface_digest (imports : list string)
    (declarations : list ProofBaseInterfaceDeclarationIdentity) : string :=
  sha256_digest sha256_hex (write_json_ascii
    (JObj [("declarations", JList (canonical_interface_record <$> declarations));
           ("imports", JList (JStr <$> imports))])).

(** [IndependentDeclarationBundle.__post_init__]. *)
Definition check_bundle (b : IndependentDeclarationBundle) :
    result Exn IndependentDeclarationBundle :=
  let root := bu_root_module b in
  let fail code := BundleError code root in
  _ ← require (bool_decide (bu_schema_id b = SCHEMA_ID))
        (BundleError "unsupported-schema" (bu_schema_id b));
  _ ← require_text root "root_module";
  _ ← require_text (bu_lean_toolchain b) "lean_toolchain";
  _ ← require (bool_decide (bu_lean_toolchain b = ae_lean_toolchain (bu_axle_environment b)))
        (BundleError "toolchain-mismatch" "local and AXLE Lean toolchains differ");
  _ ← require (negb (bool_decide (bu_root_declarations b = []))) (fail "missing-root-declaration");
  _ ← require (negb (has_duplicates (bu_root_declarations b))) (fail "duplicate-root-declaration");
  _ ← require (negb (length (bu_resolved_sources b) =? 0)%nat) (fail "missing-resolved-source");
  _ ← require (negb (has_duplicates (rs_package_id <$> bu_resolved_sources b)))
        (fail "ambiguous-resolved-source");
  _ ← require (negb (has_duplicates (bu_proof_base_imports b)))
        (fail "duplicate-proof-base-import");
  _ ← require_texts (bu_proof_base_imports b) "proof_base_imports";
  _ ← require_sha256 (bu_proof_base_interface_digest b) "proof_base_interface_digest";
  _ ← require (Bool.eqb (length (bu_proof_base_imports b) =? 0)%nat
                 (length (bu_proof_base_declarations b) =? 0)%nat)
        (fail "proof-base-interface-mismatch");
  let computed := canonical_proof_base_interface_digest (bu_proof_base_imports b)
                    (bu_proof_base_declarations b) in
  _ ← require (bool_decide (bu_proof_base_interface_digest b = computed))
        (fail "proof-base-interface-digest-mismatch");
  _ ← require (negb (length (bu_declarations b) =? 0)%nat) (fail "missing-declaration-closure");
  let proof_base_names := pb_name <$> bu_proof_base_declarations b in
  let names := de_name <$> bu_declarations b in
  _ ← require (negb (has_duplicates proof_base_names)) (fail "duplicate-proof-base-declaration");
  _ ← require (negb (has_duplicates names)) (fail "duplicate-declaration");
  _ ← require (forallb (λ name, negb (bool_decide (name ∈ names))) proof_base_names)
        (fail "proof-base-source-declaration-overlap");
  _ ← foldM (λ _ declaration, require (bool_decide (declaration ∈ names))
        (BundleError "root-outside-closure" declaration)) () (bu_root_declarations b);
  _ ← foldM (emit (proof_base_names ++ names)) [] (ordered_declarations b);
  _ ← require_text (bu_canonical_source b) "canonical_source";
  Ok b.

(** ** The digest *)

Definition canonical_source_digest (b : IndependentDeclarationBundle) : result Exn string :=
  sha256_digest sha256_hex <$> encode_utf8 (bu_canonical_source b).

Definition canonical_manifest (b : IndependentDeclarationBundle) : result Exn Json :=
  source_digest ← canonical_source_digest b;
  Ok (JObj [("axle_environment", environment_record (bu_axle_environment b));
            ("canonical_source_digest", JStr source_digest);
            ("declarations", JList (declaration_record <$> bu_declarations b));
            ("lean_toolchain", JStr (bu_lean_toolchain b));
            ("proof_base_declarations", JList (proof_base_record <$> bu_proof_base_declarations b));
            ("proof_base_imports", JList (JStr <$> sort_by str_leb (bu_proof_base_imports b)));
            ("proof_base_interface_digest", JStr (bu_proof_base_interface_digest b));
            ("resolved_sources",
              JList (source_record <$> sort_by source_leb (bu_resolved_sources b)));
            ("root_declarations", JList (JStr <$> sort_by str_leb (bu_root_declarations b)));
            ("root_module", JStr (bu_root_module b)); ("schema_id", JStr (bu_schema_id b))]).

(** The bytes that are hashed. *)
Definition bundle_payload (b : IndependentDeclarationBundle) : result Exn string :=
  value ← canonical_manifest b; manifest ← canonical_json value;
  source ← encode_utf8 (bu_canonical_source b);
  Ok (manifest +:+ String (chr 0) source).
Definition bundle_digest (b : IndependentDeclarationBundle) : result Exn string :=
  sha256_digest sha256_hex <$> bundle_payload b.
End bundle.
