(* ===== verification/IndependentBundleFacts.v ===== *)
(** * What a valid bundle is, and what its digest binds *)

From Stdlib Require Import Ascii.
From S2P Require Import Prelude PyDict GraphTypes Receipts Text Merkle EvidenceModel SchemeDatum Sort ReceiptGraph ReceiptGraphFacts ReceiptGraphTheorems Json JsonFacts IndependentBundle.

(** ** The specification *)

Definition has_text (s : string) : Prop := ustrip s ≠ "".

Definition bundle_names (b : IndependentDeclarationBundle) : list string := (ordered_declarations b).*1.

(** Declaration [y] depends on [x]. *)
Definition bundle_depends (b : IndependentDeclarationBundle) (x y : string) : Prop :=
  ∃ dependencies, (y, dependencies) ∈ ordered_declarations b ∧ x ∈ dependencies.

(** Every declaration comes after those it depends on. *)
Definition in_dependency_order (l : list (string * list string)) : Prop :=
  ∀ i name dependencies x, l !! i = Some (name, dependencies) → x ∈ dependencies → x ∈ take i l.*1.

Record BundleSpec (sha256_hex : string → string) (b : IndependentDeclarationBundle) : Prop := {
  bs_schema : bu_schema_id b = SCHEMA_ID;
  bs_texts : Forall has_text
    ([bu_root_module b; bu_lean_toolchain b; bu_canonical_source b] ++ bu_proof_base_imports b);
  bs_toolchain : bu_lean_toolchain b = ae_lean_toolchain (bu_axle_environment b);
  bs_roots : bu_root_declarations b ≠ [] ∧ NoDup (bu_root_declarations b) ∧
    ∀ root, root ∈ bu_root_declarations b → root ∈ de_name <$> bu_declarations b;
  bs_sources : bu_resolved_sources b ≠ [] ∧ NoDup (rs_package_id <$> bu_resolved_sources b);
  bs_imports : NoDup (bu_proof_base_imports b) ∧
    (bu_proof_base_imports b = [] ↔ bu_proof_base_declarations b = []);
  bs_interface : digest_form (bu_proof_base_interface_digest b) = true ∧
    bu_proof_base_interface_digest b = canonical_proof_base_interface_digest sha256_hex
      (bu_proof_base_imports b) (bu_proof_base_declarations b);
  bs_names : NoDup (bundle_names b);
  bs_order : in_dependency_order (ordered_declarations b)
}.

(** ** The loops *)

Lemma require_text_Ok value label u : require_text value label = Ok u ↔ has_text value.
Proof.
  unfold require_text, has_text. rewrite require_Ok, andb_true_iff, !negb_true_iff, !bool_decide_eq_false.
  split; [by intros []|]. intros H. split; [|done]. by intros ->.
Qed.

Lemma require_texts_Ok values label : require_texts values label = Ok () ↔ Forall has_text values.
Proof.
  unfold require_texts. rewrite foldM_check, !Forall_forall. by setoid_rewrite require_text_Ok.
Qed.

Lemma emit_Ok complete emitted name deps l : emit complete emitted (name, deps) = Ok l ↔
  l = emitted ++ [name] ∧ ∀ x, x ∈ deps → x ∈ complete ∧ x ∈ emitted.
Proof.
  unfold emit. rewrite bind_Ok.
  assert (∀ u : unit, foldM (λ _ dependency,
      _ ← require (bool_decide (dependency ∈ complete))
            (BundleError "missing-local-dependency" (name +:+ " -> " +:+ dependency));
      require (bool_decide (dependency ∈ emitted))
        (BundleError "non-topological-order" (name +:+ " -> " +:+ dependency))) () deps = Ok u
    ↔ ∀ x, x ∈ deps → x ∈ complete ∧ x ∈ emitted) as Hd.
  { intros []. rewrite foldM_check, Forall_forall. setoid_rewrite require_bind.
    setoid_rewrite require_Ok. by setoid_rewrite bool_decide_eq_true. }
  setoid_rewrite Hd. split; [by intros (u & Hx & [= <-])|]. intros [-> Hx]. by exists ().
Qed.

Lemma emit_all complete l : ∀ emitted l',
  (∀ x, x ∈ emitted ++ l.*1 → x ∈ complete) →
  foldM (emit complete) emitted l = Ok l' ↔
  l' = emitted ++ l.*1 ∧
  ∀ i name deps x, l !! i = Some (name, deps) → x ∈ deps → x ∈ emitted ++ take i l.*1.
Proof.
  induction l as [|[name deps] l IH]; intros emitted l' Hc; cbn [foldM].
  { csimpl. rewrite app_nil_r. split; [by intros [= <-]|by intros [-> _]]. }
  rewrite bind_Ok. setoid_rewrite emit_Ok. split.
  - intros (e & [-> Hd] & H). apply IH in H as [-> H].
    2:{ intros x Hx. apply Hc. csimpl. by rewrite <-app_assoc in Hx. }
    split; [by rewrite <-app_assoc|]. intros [|i] n ds x Hi Hx.
    + injection Hi as -> ->. rewrite app_nil_r. by apply Hd.
    + apply (H i n ds x) in Hi; [|done]. by rewrite <-app_assoc in Hi.
  - intros [-> H]. exists (emitted ++ [name]). split.
    + split; [done|]. intros x Hx. specialize (H 0%nat name deps x eq_refl Hx).
      rewrite app_nil_r in H. split; [|done]. apply Hc, elem_of_app. by left.
    + apply IH.
      { intros x Hx. apply Hc. csimpl. by rewrite <-app_assoc in Hx. }
      split; [by rewrite <-app_assoc|]. intros i n ds x Hi Hx. rewrite <-app_assoc.
      by apply (H (S i) n ds x).
Qed.

Lemma in_order_well_founded b : NoDup (bundle_names b) → in_dependency_order (ordered_declarations b) →
  well_founded (bundle_depends b).
Proof.
  intros Hnd Ho.
  assert (∀ i y, bundle_names b !! i = Some y → Acc (bundle_depends b) y) as Hacc.
  { induction i as [i IH] using lt_wf_ind. intros y Hy. constructor. intros x (deps & Hin & Hx).
    apply list_elem_of_lookup in Hin as [j Hj].
    assert (i = j) as <-.
    { eapply (NoDup_lookup (bundle_names b)); [done..|]. unfold bundle_names.
      by rewrite list_lookup_fmap, Hj. }
    pose proof (Ho i y deps x Hj Hx) as Hxi. apply elem_of_take in Hxi as (k & Hk & Hki).
    by apply (IH k). }
  intros y. constructor. intros x (deps & Hin & Hx).
  apply list_elem_of_lookup in Hin as [j Hj]. pose proof (Ho j y deps x Hj Hx) as Hxi.
  apply elem_of_take in Hxi as (k & Hk & _). by apply (Hacc k).
Qed.

Lemma no_overlap (l k : list string) :
  forallb (λ name, negb (bool_decide (name ∈ k))) l = true ↔ ∀ x, x ∈ l → x ∉ k.
Proof.
  rewrite forallb_forall. setoid_rewrite <-list_elem_of_In.
  by setoid_rewrite negb_true_iff; setoid_rewrite bool_decide_eq_false.
Qed.

Lemma length_eqb_nil {A} (l : list A) : negb (length l =? 0)%nat = true ↔ l ≠ [].
Proof. by destruct l. Qed.

Lemma text_bind {A} value label (m : result Exn A) x :
  (_ ← require_text value label; m) = Ok x ↔ has_text value ∧ m = Ok x.
Proof. rewrite bind_Ok. setoid_rewrite require_text_Ok. naive_solver. Qed.

Lemma check_bind {A} (f : result Exn unit) (m : result Exn A) x :
  (_ ← f; m) = Ok x ↔ f = Ok () ∧ m = Ok x.
Proof. destruct f as [[]|]; naive_solver. Qed.

Lemma same_emptiness {A B} (l : list A) (k : list B) :
  Bool.eqb (length l =? 0)%nat (length k =? 0)%nat = true ↔ (l = [] ↔ k = []).
Proof. destruct l, k; simpl; naive_solver. Qed.

Lemma roots_inside (roots names : list string) :
  foldM (λ _ declaration, require (bool_decide (declaration ∈ names))
    (BundleError "root-outside-closure" declaration)) () roots = Ok () ↔
  ∀ root, root ∈ roots → root ∈ names.
Proof.
  rewrite foldM_check, Forall_forall. setoid_rewrite require_Ok. by setoid_rewrite bool_decide_eq_true.
Qed.

Lemma emission_Ok b l :
  foldM (emit ((pb_name <$> bu_proof_base_declarations b) ++ (de_name <$> bu_declarations b))) []
    (ordered_declarations b) = Ok l ↔ l = bundle_names b ∧ in_dependency_order (ordered_declarations b).
Proof.
  apply (emit_all _ _ []). intros x Hx. unfold ordered_declarations in Hx.
  by rewrite app_nil_l, fmap_app, <-!list_fmap_compose in Hx.
Qed.

Lemma check_bundle_Ok (sha256_hex : string → string) b b' :
  check_bundle sha256_hex b = Ok b' ↔ b' = b ∧ BundleSpec sha256_hex b.
Proof.
  unfold check_bundle, require_sha256. cbv zeta.
  repeat rewrite ?require_bind, ?text_bind. rewrite check_bind.
  repeat rewrite ?require_bind, ?text_bind. rewrite check_bind, bind_Ok.
  setoid_rewrite emission_Ok. setoid_rewrite text_bind.
  rewrite require_texts_Ok, roots_inside, no_overlap, same_emptiness.
  rewrite !length_eqb_nil, !has_duplicates_false, !negb_true_iff, !bool_decide_eq_false,
    !bool_decide_eq_true.
  assert (bundle_names b = (pb_name <$> bu_proof_base_declarations b)
                           ++ (de_name <$> bu_declarations b)) as En.
  { unfold bundle_names, ordered_declarations. by rewrite fmap_app, <-!list_fmap_compose. }
  split.
  - intros (H1 & H2 & H3 & H4 & H5 & H6 & H7 & H8 & H9 & H10 & H11 & H12 & H13 & _ & H15 & H16 &
      H17 & H18 & l & [_ H19] & H20 & [= <-]).
    split; [done|]. split; try done.
    + repeat (constructor; [done|]). done.
    + rewrite En. by apply NoDup_app.
  - intros [-> [H1 H2 H3 (H4 & H5 & H6) [H7 H8] [H9 H10] [H11 H12] H13 H14]].
    rewrite En in H13. apply NoDup_app in H13 as (H15 & H16 & H17).
    rewrite !Forall_app, !Forall_cons in H2. destruct H2 as [(? & ? & ? & _) ?].
    split_and!; try done; [|by exists (bundle_names b)].
    intros Hnil. destruct (bu_root_declarations b) as [|r rs] eqn:E; [done|].
    specialize (H6 r ltac:(by left)). rewrite Hnil in H6. by apply not_elem_of_nil in H6.
Qed.

(** C24. [IndependentDeclarationBundle] lets a bundle through unchanged exactly
    when it is correct, and then its dependencies are well founded: nothing
    depends on itself through any chain. *)
Theorem valid_bundles_are_acyclic (sha256_hex : string → string)
    (b : IndependentDeclarationBundle) :
  (∀ b', check_bundle sha256_hex b = Ok b' ↔ b' = b ∧ BundleSpec sha256_hex b) ∧
  (BundleSpec sha256_hex b → well_founded (bundle_depends b)).
Proof.
  split; [by intros b'; apply check_bundle_Ok|]. intros H; apply in_order_well_founded; apply H.
Qed.

(** ** The digest *)

(** The parts of a bundle that are listed in any order, in the order of names. *)
Definition normal_declaration (d : DeclarationIdentity) : DeclarationIdentity :=
  Declaration (de_name d) (de_kind d) (de_owner_path d) (de_owner_source_digest d)
    (sort_by str_leb (de_local_dependencies d)).
Definition normal_proof_base (d : ProofBaseInterfaceDeclarationIdentity) :
    ProofBaseInterfaceDeclarationIdentity :=
  ProofBaseDeclaration (pb_name d) (pb_kind d) (pb_level_params d) (pb_type_source d)
    (pb_value_source d) (sort_by str_leb (pb_local_dependencies d)).
Definition normal_bundle (b : IndependentDeclarationBundle) : IndependentDeclarationBundle :=
  Bundle (bu_root_module b) (sort_by str_leb (bu_root_declarations b)) (bu_lean_toolchain b)
    (bu_axle_environment b) (sort_by source_leb (bu_resolved_sources b))
    (sort_by str_leb (bu_proof_base_imports b)) (bu_proof_base_interface_digest b)
    (normal_proof_base <$> bu_proof_base_declarations b)
    (normal_declaration <$> bu_declarations b) (bu_canonical_source b) (bu_schema_id b).

Lemma fmap_same {A B C} (f : A → B) (g : A → C) (l : list A) : ∀ k : list A,
  (∀ x y, f x = f y → g x = g y) → f <$> l = f <$> k → g <$> l = g <$> k.
Proof.
  induction l as [|x l IH]; intros [|y k] Hfg H; try done. csimpl in *.
  injection H as Hx Hl. f_equal; [by apply Hfg|by apply IH].
Qed.

Lemma json_strings_inj (l k : list string) : JStr <$> l = JStr <$> k → l = k.
Proof. apply list_fmap_eq_inj. by intros ?? [=]. Qed.

Lemma json_option_inj o p : json_option o = json_option p → o = p.
Proof. destruct o, p; naive_solver. Qed.

Lemma environment_record_inj e f : environment_record e = environment_record f → e = f.
Proof.
  destruct e, f. unfold environment_record. intros H.
  injection H as H1%json_strings_inj -> -> H2%json_option_inj H3%json_option_inj H4%json_option_inj.
  by subst.
Qed.

Lemma source_record_inj s t : source_record s = source_record t → s = t.
Proof. destruct s, t. unfold source_record. simpl. congruence. Qed.

Lemma declaration_record_normal d e :
  declaration_record d = declaration_record e → normal_declaration d = normal_declaration e.
Proof.
  unfold declaration_record, normal_declaration. intros H.
  injection H as H1 H2%json_strings_inj H3 H4 H5. congruence.
Qed.

Lemma proof_base_record_normal d e :
  proof_base_record d = proof_base_record e → normal_proof_base d = normal_proof_base e.
Proof.
  unfold proof_base_record, normal_proof_base. intros H.
  injection H as H1 H2%json_strings_inj H3%json_strings_inj H4 H5 H6%json_option_inj. congruence.
Qed.

Lemma sort_sources_idem l : sort_by source_leb (sort_by source_leb l) = sort_by source_leb l.
Proof.
  apply sort_by_idem, sort_by_sorted; intros; [apply str_leb_total|].
  unfold source_leb in *. by eapply str_leb_trans.
Qed.

Section digest.
Context (sha256_hex : string → string).

Lemma manifest_normal b :
  canonical_manifest sha256_hex (normal_bundle b) = canonical_manifest sha256_hex b.
Proof.
  unfold canonical_manifest, canonical_source_digest, normal_bundle. simpl.
  rewrite !sort_roots_idem, sort_sources_idem, <-!list_fmap_compose.
  destruct (encode_utf8 _); [|done]. simpl. do 3 f_equal.
  assert (∀ l : list DeclarationIdentity, (declaration_record ∘ normal_declaration <$> l) = (declaration_record <$> l)) as ->.
  { intros l. apply list_fmap_ext. intros i d _. unfold compose, declaration_record. simpl.
    by rewrite sort_roots_idem. }
  assert (∀ l : list ProofBaseInterfaceDeclarationIdentity,
    (proof_base_record ∘ normal_proof_base <$> l) = (proof_base_record <$> l)) as ->; [|done].
  intros l. apply list_fmap_ext. intros i d _. unfold compose, proof_base_record. simpl.
  by rewrite sort_roots_idem.
Qed.

Lemma payload_normal b : bundle_payload sha256_hex (normal_bundle b) = bundle_payload sha256_hex b.
Proof. unfold bundle_payload. by rewrite manifest_normal. Qed.

Lemma canonical_option float_repr o : canonical float_repr (json_option o).
Proof. destruct o; constructor. Qed.
#[local] Hint Resolve canonical_option : json.

Lemma canonical_environment float_repr e : canonical float_repr (environment_record e).
Proof. canonical_object; auto with json. Qed.
Lemma canonical_source_record float_repr r : canonical float_repr (source_record r).
Proof. canonical_object; auto with json. Qed.
Lemma canonical_declaration float_repr d : canonical float_repr (declaration_record d).
Proof. canonical_object; auto with json. Qed.
Lemma canonical_proof_base float_repr d : canonical float_repr (proof_base_record d).
Proof. canonical_object; auto with json. Qed.
#[local] Hint Resolve canonical_environment canonical_source_record canonical_declaration
  canonical_proof_base : json.

Lemma canonical_manifest_json float_repr b v :
  canonical_manifest sha256_hex b = Ok v → canonical float_repr v.
Proof.
  unfold canonical_manifest. intros H. apply bind_Ok in H as (source_digest & _ & [= <-]).
  canonical_object; auto with json.
Qed.

(** Equal manifests and sources come from bundles that differ in listing only. *)
Lemma manifest_identifies b1 b2 v :
  canonical_manifest sha256_hex b1 = Ok v → canonical_manifest sha256_hex b2 = Ok v →
  bu_canonical_source b1 = bu_canonical_source b2 → normal_bundle b1 = normal_bundle b2.
Proof.
  unfold canonical_manifest. intros H1 H2 Hs.
  apply bind_Ok in H1 as (s1 & _ & H1). apply bind_Ok in H2 as (s2 & _ & [= <-]).
  remember (environment_record (bu_axle_environment b1)) as e1 eqn:E1.
  remember (environment_record (bu_axle_environment b2)) as e2 eqn:E2.
  injection H1 as He _ Hd Ht Hp Hi%json_strings_inj Hif Hr Hroots%json_strings_inj Hm Hschema.
  unfold normal_bundle. f_equal; try done.
  - apply environment_record_inj. by rewrite <-E1, <-E2.
  - by apply (list_fmap_eq_inj source_record source_record_inj).
  - apply (fmap_same proof_base_record); [apply proof_base_record_normal|done].
  - apply (fmap_same declaration_record); [apply declaration_record_normal|done].
Qed.

Lemma bundle_payload_Ok b payload : bundle_payload sha256_hex b = Ok payload ↔
  ∃ v, canonical_manifest sha256_hex b = Ok v ∧ utf8_valid (write_json v) = true ∧
    utf8_valid (bu_canonical_source b) = true ∧
    payload = write_json v +:+ String (chr 0) (bu_canonical_source b).
Proof.
  unfold bundle_payload, canonical_json, encode_utf8. rewrite bind_Ok. split.
  - intros (v & Hv & H). apply bind_Ok in H as (m & [Hm [= <-]]%require_bind & H).
    apply bind_Ok in H as (s & [Hs [= <-]]%require_bind & [= <-]). by exists v.
  - intros (v & Hv & Hm & Hs & ->). exists v. by rewrite Hm, Hs.
Qed.
End digest.

(** C23. The digest of a bundle binds all of it: when SHA-256 does not map the
    payloads of two bundles to one digest, their digests are equal exactly when
    the bundles are, up to the order in which roots, imports, sources and
    dependencies are listed. *)
Theorem bundle_digest_binds (sha256_hex : string → string)
    (b1 b2 : IndependentDeclarationBundle) (payload1 payload2 digest1 digest2 : string) :
  bundle_payload sha256_hex b1 = Ok payload1 → bundle_payload sha256_hex b2 = Ok payload2 →
  (sha256_hex payload1 = sha256_hex payload2 → payload1 = payload2) →
  bundle_digest sha256_hex b1 = Ok digest1 → bundle_digest sha256_hex b2 = Ok digest2 →
  digest1 = digest2 ↔ normal_bundle b1 = normal_bundle b2.
Proof.
  intros Hp1 Hp2 Hsha H1 H2. unfold bundle_digest in H1, H2. rewrite Hp1 in H1. rewrite Hp2 in H2.
  injection H1 as <-. injection H2 as <-. split.
  - intros E. apply (sapp_inj_length "sha256:" "sha256:") in E as [_ E%Hsha]; [|done].
    subst payload2.
    apply bundle_payload_Ok in Hp1 as (v & Hv & _ & _ & ->).
    apply bundle_payload_Ok in Hp2 as (w & Hw & _ & _ & E).
    apply (write_json_followed id _ (reject_duplicates_Ok KeyError)) in E as [-> Hs].
    + by eapply manifest_identifies.
    + by eapply canonical_manifest_json.
    + by eapply canonical_manifest_json.
  - intros E. assert (payload1 = payload2) as ->; [|done].
    rewrite <-payload_normal, E, payload_normal in Hp1. congruence.
Qed.

(** A lemma and a theorem that rests on it, with the roots in two orders. *)
Definition demo_bundle (roots dependencies : list string) : IndependentDeclarationBundle :=
  Bundle "Main" roots "lean4:v4.19" (AxleEnvironment "lean-4" "lean4:v4.19" ["import Mathlib"] None None None)
    [ResolvedSource "mathlib" "abc" demo_digest demo_digest] [] demo_digest []
    [Declaration "helper" "theorem" "src/Main.lean" demo_digest [];
     Declaration "base" "theorem" "src/Main.lean" demo_digest [];
     Declaration "claim" "theorem" "src/Main.lean" demo_digest dependencies]
    "theorem helper : True := trivial" SCHEMA_ID.

Example demo_bundle_valid :
  is_ok (check_bundle demo_hex (demo_bundle ["claim"; "helper"] ["helper"; "base"])) = true ∧
  is_ok (check_bundle demo_hex (demo_bundle ["claim"] ["missing"])) = false ∧
  is_ok (check_bundle demo_hex (demo_bundle ["missing"] [])) = false.
Proof. by vm_compute. Qed.

Example demo_parts_valid :
  forallb is_ok (check_declaration <$> bu_declarations (demo_bundle ["claim"] ["base"])) = true ∧
  is_ok (check_environment (bu_axle_environment (demo_bundle ["claim"] []))) = true ∧
  is_ok (check_source (ResolvedSource "mathlib" "abc" demo_digest "sha256:0")) = false ∧
  is_ok (check_declaration (Declaration "d" "theorem" "../Main.lean" demo_digest [])) = false ∧
  is_ok (check_proof_base (ProofBaseDeclaration "p" "axiom" ["u"; "u"] "Prop" None [])) = false.
Proof. by vm_compute. Qed.

Lemma bundle_digest_binds_witness :
  bundle_digest demo_hex (demo_bundle ["claim"; "helper"] ["helper"; "base"])
  = bundle_digest demo_hex (demo_bundle ["helper"; "claim"] ["base"; "helper"]).
Proof.
  destruct (bundle_payload demo_hex (demo_bundle ["claim"; "helper"] ["helper"; "base"]))
    as [p1|] eqn:H1; [|vm_compute in H1; discriminate].
  destruct (bundle_payload demo_hex (demo_bundle ["helper"; "claim"] ["base"; "helper"]))
    as [p2|] eqn:H2; [|vm_compute in H2; discriminate].
  assert (p1 = p2) as Hp.
  { clear -H1 H2. vm_compute in H1, H2. congruence. }
  destruct (bundle_digest demo_hex (demo_bundle ["claim"; "helper"] ["helper"; "base"]))
    as [d1|] eqn:D1; [|unfold bundle_digest in D1; rewrite H1 in D1; discriminate].
  destruct (bundle_digest demo_hex (demo_bundle ["helper"; "claim"] ["base"; "helper"]))
    as [d2|] eqn:D2; [|unfold bundle_digest in D2; rewrite H2 in D2; discriminate].
  f_equal. apply (proj2 (bundle_digest_binds demo_hex _ _ p1 p2 d1 d2 H1 H2 (λ _, Hp) D1 D2)).
  vm_compute. reflexivity.
Defined.
