(* ===== verification/ChangeImpact.v ===== *)
(** * Impact of a change on a security architecture
    ([embodied_ai_security_relation_graph.py])

    (In [src/packages/proofs/python/src/poo_flow_proof/].)  A typed graph relates
    components, assets, threats, risks, requirements, controls, evidence and
    acceptances.  [validate_typed_relation_graph] lists what is wrong with it;
    [project_change_impact] finds what a change of some nodes affects and which
    evidence and acceptances it invalidates.  [sha256_hex] is
    [hashlib.sha256(...).hexdigest()], a parameter.  A set is the list of its
    elements in the order in which they were added. *)

From Stdlib Require Import Ascii.
From S2P Require Import Prelude PyDict GraphTypes Receipts Text Merkle EvidenceModel SchemeDatum Sort ReceiptGraph Json.

Inductive NodeKind : Type :=
| SYSTEM_COMPONENT | ASSET | THREAT | RISK | SECURITY_REQUIREMENT | CONTROL
| VERIFICATION_EVIDENCE | RESIDUAL_RISK | AUTHORITY_ACCEPTANCE | RUN_FEEDBACK.
Inductive RelationKind : Type :=
| OWNS | EXPOSED_TO | REALIZES | DERIVES | IMPLEMENTED_BY | VERIFIED_BY | LEAVES | ACCEPTED_BY
| OBSERVED_BY.

#[global] Instance node_kind_eq_dec : EqDecision NodeKind.
Proof. solve_decision. Defined.

Definition node_kind_value (k : NodeKind) : string :=
  match k with
  | SYSTEM_COMPONENT => "system-component"
  | ASSET => "asset"
  | THREAT => "threat"
  | RISK => "risk"
  | SECURITY_REQUIREMENT => "security-requirement"
  | CONTROL => "control"
  | VERIFICATION_EVIDENCE => "verification-evidence"
  | RESIDUAL_RISK => "residual-risk"
  | AUTHORITY_ACCEPTANCE => "authority-acceptance"
  | RUN_FEEDBACK => "run-feedback"
  end.
Definition relation_kind_value (k : RelationKind) : string :=
  match k with
  | OWNS => "owns"
  | EXPOSED_TO => "exposed-to"
  | REALIZES => "realizes"
  | DERIVES => "derives"
  | IMPLEMENTED_BY => "implemented-by"
  | VERIFIED_BY => "verified-by"
  | LEAVES => "leaves"
  | ACCEPTED_BY => "accepted-by"
  | OBSERVED_BY => "observed-by"
  end.

Definition ALLOWED_RELATION_KINDS (k : RelationKind) : NodeKind * NodeKind :=
  match k with
  | OWNS => (SYSTEM_COMPONENT, ASSET)
  | EXPOSED_TO => (ASSET, THREAT)
  | REALIZES => (THREAT, RISK)
  | DERIVES => (RISK, SECURITY_REQUIREMENT)
  | IMPLEMENTED_BY => (SECURITY_REQUIREMENT, CONTROL)
  | VERIFIED_BY => (CONTROL, VERIFICATION_EVIDENCE)
  | LEAVES => (RISK, RESIDUAL_RISK)
  | ACCEPTED_BY => (RESIDUAL_RISK, AUTHORITY_ACCEPTANCE)
  | OBSERVED_BY => (SYSTEM_COMPONENT, RUN_FEEDBACK)
  end.

Record ArchitectureNode : Type := MkArchitectureNode {
  an_node_id : string;
  an_kind : NodeKind
}.
Record ArchitectureRelation : Type := MkArchitectureRelation {
  rel_relation_id : string;
  rel_kind : RelationKind;
  rel_source_id : string;
  rel_target_id : string;
  rel_forward : bool;
  rel_evidence_requirements : list string
}.
Record TypedRelationGraph : Type := MkTypedRelationGraph {
  tg_graph_id : string;
  tg_nodes : list ArchitectureNode;
  tg_relations : list ArchitectureRelation
}.
Record ChangeImpactReceipt : Type := MkChangeImpactReceipt {
  ci_schema_id : string;
  ci_graph_id : string;
  ci_graph_digest : string;
  ci_changed_node_ids : list string;
  ci_affected_node_ids : list string;
  ci_invalidated_evidence_ids : list string;
  ci_invalidated_acceptance_ids : list string;
  ci_reopened_verification_obligations : list string;
  ci_trace_root : string
}.

Definition json_strings (l : list string) : Json := JList (JStr <$> l).

(** [ChangeImpactReceipt.to_dict]. *)
Definition receipt_dict (r : ChangeImpactReceipt) : Json :=
  JObj [("affectedNodeIds", json_strings (ci_affected_node_ids r));
        ("changedNodeIds", json_strings (ci_changed_node_ids r));
        ("graphDigest", JStr (ci_graph_digest r)); ("graphId", JStr (ci_graph_id r));
        ("invalidatedAcceptanceIds", json_strings (ci_invalidated_acceptance_ids r));
        ("invalidatedEvidenceIds", json_strings (ci_invalidated_evidence_ids r));
        ("reopenedVerificationObligations",
          json_strings (ci_reopened_verification_obligations r));
        ("schemaId", JStr (ci_schema_id r)); ("traceRoot", JStr (ci_trace_root r))].

(** ** Validation *)

(** The body of the loop over the nodes. *)
Definition add_node (st : list string * dict string ArchitectureNode) (node : ArchitectureNode) :
    list string * dict string ArchitectureNode :=
  let '(issues, by_id) := st in
  let id := an_node_id node in
  if bool_decide (id = "") then (issues ++ ["empty-node-id"], by_id)
  else if dmem id by_id then (issues ++ ["duplicate-node:" +:+ id], by_id)
  else (issues, dset id node by_id).

(** What the body of the loop over the relations appends to the issues. *)
Definition relation_issues (by_id : dict string ArchitectureNode) (relation_ids : list string)
    (r : ArchitectureRelation) : list string :=
  let id := rel_relation_id r in
  let source := dget (rel_source_id r) by_id in
  let target := dget (rel_target_id r) by_id in
  (if bool_decide (id = "") then ["empty-relation-id"]
   else if bool_decide (id ∈ relation_ids) then ["duplicate-relation:" +:+ id] else [])
  ++ (if bool_decide (source = None) then ["missing-source:" +:+ id] else [])
  ++ (if bool_decide (target = None) then ["missing-target:" +:+ id] else [])
  ++ (if rel_forward r then [] else ["non-forward-relation:" +:+ id])
  ++ (if bool_decide (rel_evidence_requirements r = [])
      then ["missing-evidence-requirement:" +:+ id] else [])
  ++ (match source, target with
      | Some source, Some target =>
          if bool_decide ((an_kind source, an_kind target) = ALLOWED_RELATION_KINDS (rel_kind r))
          then [] else ["relation-kind-mismatch:" +:+ id]
      | _, _ => []
      end).
Definition add_relation (by_id : dict string ArchitectureNode) (st : list string * list string)
    (r : ArchitectureRelation) : list string * list string :=
  let '(issues, relation_ids) := st in
  (issues ++ relation_issues by_id relation_ids r, relation_ids ++ [rel_relation_id r]).

(** [validate_typed_relation_graph]: the issues; a graph is admitted without any. *)
Definition validate_typed_relation_graph (g : TypedRelationGraph) : list string :=
  let issues := if bool_decide (tg_graph_id g = "") then ["empty-graph-id"] else [] in
  let '(issues, by_id) := foldl add_node (issues, []) (tg_nodes g) in
  let '(issues, _) := foldl (add_relation by_id) (issues, []) (tg_relations g) in
  sort_by str_leb (remove_dups issues).

(** ** Impact *)

Definition outgoing_of (relations : list ArchitectureRelation) : dict string (list string) :=
  foldl (λ outgoing r, dappend (rel_source_id r) (rel_target_id r) outgoing) [] relations.

(** [while frontier: ...]; [frontier] is a stack. *)
Fixpoint spread (fuel : nat) (outgoing : dict string (list string))
    (affected frontier : list string) : option (list string) :=
  match frontier with
  | [] => Some affected
  | source_id :: frontier =>
      match fuel with
      | O => None
      | S fuel =>
          let '(affected, frontier) :=
            foldl visit (affected, frontier) (sort_by str_leb (dget_list source_id outgoing)) in
          spread fuel outgoing affected frontier
      end
  end.

(** [node_id for node_id in ids if node_by_id[node_id].kind is kind]. *)
Definition of_kind (by_id : dict string ArchitectureNode) (kind : NodeKind) (ids : list string) :
    result Exn (list string) :=
  kinds ← mapM (λ id, node ← of_option (KeyError id) (dget id by_id); Ok (id, an_kind node)) ids;
  Ok (fst <$> filter (λ m, m.2 = kind) kinds).

Section impact.
Context (sha256_hex : string → string).

Definition ascii_digest (v : Json) : string := sha256_digest sha256_hex (write_json_ascii v).

Definition node_leb (a b : ArchitectureNode) : bool := str_leb (an_node_id a) (an_node_id b).
Definition relation_leb (a b : ArchitectureRelation) : bool :=
  str_leb (rel_relation_id a) (rel_relation_id b).

Definition graph_digest (g : TypedRelationGraph) : string :=
  ascii_digest
    (JObj [("graphId", JStr (tg_graph_id g));
           ("nodes", JList ((λ n, JObj [("kind", JStr (node_kind_value (an_kind n)));
                                        ("nodeId", JStr (an_node_id n))])
                            <$> sort_by node_leb (tg_nodes g)));
           ("relations", JList ((λ r,
              JObj [("evidenceRequirements",
                      json_strings (sort_by str_leb (rel_evidence_requirements r)));
                    ("forward", JBool (rel_forward r));
                    ("kind", JStr (relation_kind_value (rel_kind r)));
                    ("relationId", JStr (rel_relation_id r));
                    ("sourceId", JStr (rel_source_id r)); ("targetId", JStr (rel_target_id r))])
              <$> sort_by relation_leb (tg_relations g)))]).

(** The end of [project_change_impact], from the affected nodes on. *)
Definition impact_receipt (g : TypedRelationGraph) (by_id : dict string ArchitectureNode)
    (changed affected : list string) : result Exn ChangeImpactReceipt :=
  let affected_ids := sort_by str_leb affected in
  evidence ← of_kind by_id VERIFICATION_EVIDENCE affected_ids;
  acceptance ← of_kind by_id AUTHORITY_ACCEPTANCE affected_ids;
  controls ← of_kind by_id CONTROL affected_ids;
  let reopened := (λ id, "verify:" +:+ id) <$> controls in
  let schema_id := "poo-flow.ai-security.change-impact-receipt.v1" in
  let trace_root := ascii_digest
    (JObj [("affectedNodeIds", json_strings affected_ids); ("changedNodeIds", json_strings changed);
           ("graphDigest", JStr (graph_digest g)); ("graphId", JStr (tg_graph_id g));
           ("invalidatedAcceptanceIds", json_strings acceptance);
           ("invalidatedEvidenceIds", json_strings evidence);
           ("reopenedVerificationObligations", json_strings reopened);
           ("schemaId", JStr schema_id)]) in
  Ok (MkChangeImpactReceipt schema_id (tg_graph_id g) (graph_digest g) changed affected_ids evidence
        acceptance reopened trace_root).

(** [project_change_impact]; the number of nodes is enough fuel. *)
Definition project_change_impact (g : TypedRelationGraph) (changed_node_ids : list string) :
    option (result Exn ChangeImpactReceipt) :=
  let issues := validate_typed_relation_graph g in
  let by_id := dict_of ((λ n, (an_node_id n, n)) <$> tg_nodes g) in
  let changed := sort_by str_leb (remove_dups changed_node_ids) in
  let missing := filter (λ id, dget id by_id = None) changed in
  match (_ ← require (bool_decide (issues = []))
               (ValueError ("invalid-typed-relation-graph:" +:+ str_join "," issues));
         _ ← require (negb (bool_decide (changed = []))) (ValueError "empty-change-set");
         require (bool_decide (missing = []))
           (ValueError ("unknown-changed-node:" +:+ str_join "," missing))) with
  | Raise e => Some (Raise e)
  | Ok _ =>
      affected ← spread (length (tg_nodes g)) (outgoing_of (tg_relations g)) changed (rev changed);
      Some (impact_receipt g by_id changed affected)
  end.
End impact.

Example demo_impact :
  let node id kind := MkArchitectureNode id kind in
  let relation id kind source target := MkArchitectureRelation id kind source target true ["e"] in
  let g := MkTypedRelationGraph "g"
    [node "req" SECURITY_REQUIREMENT; node "ctl" CONTROL; node "ev" VERIFICATION_EVIDENCE]
    [relation "r1" IMPLEMENTED_BY "req" "ctl"; relation "r2" VERIFIED_BY "ctl" "ev"] in
  match project_change_impact (λ _, "") g ["ctl"; "ctl"] with
  | Some (Ok r) => ci_affected_node_ids r = ["ctl"; "ev"] ∧
      ci_invalidated_evidence_ids r = ["ev"] ∧
      ci_reopened_verification_obligations r = ["verify:ctl"]
  | _ => False
  end.
Proof. by vm_compute. Qed.
