(* ===== verification/ChangeImpactFacts.v ===== *)
(** * A change affects exactly what can be reached from it *)

From Stdlib Require Import Ascii.
From S2P Require Import Prelude PyDict GraphTypes Receipts Text Merkle EvidenceModel SchemeDatum Sort ReceiptGraph ReceiptGraphFacts ReceiptGraphTheorems Json ChangeImpact.

(** ** The specification *)

Definition architecture_ids (g : TypedRelationGraph) : list string := an_node_id <$> tg_nodes g.

(** A relation leads from [x] to [y]. *)
Definition affects (g : TypedRelationGraph) (x y : string) : Prop :=
  ∃ r, r ∈ tg_relations g ∧ rel_source_id r = x ∧ rel_target_id r = y.

(** The ends of a relation are nodes of the kinds it relates. *)
Definition joins_allowed (nodes : list ArchitectureNode) (r : ArchitectureRelation) : Prop :=
  ∃ s t, s ∈ nodes ∧ t ∈ nodes ∧ an_node_id s = rel_source_id r ∧ an_node_id t = rel_target_id r ∧
    (an_kind s, an_kind t) = ALLOWED_RELATION_KINDS (rel_kind r).

Record WellTyped (g : TypedRelationGraph) : Prop := {
  wt_graph_id : tg_graph_id g ≠ "";
  wt_node_ids : "" ∉ architecture_ids g ∧ NoDup (architecture_ids g);
  wt_relation_ids : "" ∉ rel_relation_id <$> tg_relations g ∧
    NoDup (rel_relation_id <$> tg_relations g);
  wt_forward r : r ∈ tg_relations g → rel_forward r = true ∧ rel_evidence_requirements r ≠ [];
  wt_kinds r : r ∈ tg_relations g → joins_allowed (tg_nodes g) r
}.

Definition has_kind (g : TypedRelationGraph) (kind : NodeKind) (id : string) : Prop :=
  ∃ n, n ∈ tg_nodes g ∧ an_node_id n = id ∧ an_kind n = kind.

Record ImpactSpec (g : TypedRelationGraph) (changed : list string) (r : ChangeImpactReceipt) : Prop := {
  is_changed : NoDup (ci_changed_node_ids r) ∧ ∀ c, c ∈ ci_changed_node_ids r ↔ c ∈ changed;
  is_affected : NoDup (ci_affected_node_ids r) ∧
    ∀ u, u ∈ ci_affected_node_ids r ↔ ∃ c, c ∈ changed ∧ rtc (affects g) c u;
  is_sorted : Forall (StronglySorted (ordered str_leb))
    [ci_changed_node_ids r; ci_affected_node_ids r];
  is_evidence u : u ∈ ci_invalidated_evidence_ids r ↔
    u ∈ ci_affected_node_ids r ∧ has_kind g VERIFICATION_EVIDENCE u;
  is_acceptance u : u ∈ ci_invalidated_acceptance_ids r ↔
    u ∈ ci_affected_node_ids r ∧ has_kind g AUTHORITY_ACCEPTANCE u;
  is_reopened v : v ∈ ci_reopened_verification_obligations r ↔
    ∃ u, v = "verify:" +:+ u ∧ u ∈ ci_affected_node_ids r ∧ has_kind g CONTROL u
}.

(** ** Validation *)

Definition node_table (nodes : list ArchitectureNode) : dict string ArchitectureNode :=
  (λ n, (an_node_id n, n)) <$> nodes.

Lemma add_nodes_extend nodes : ∀ issues by_id,
  ∃ more, (foldl add_node (issues, by_id) nodes).1 = issues ++ more.
Proof.
  induction nodes as [|n nodes IH]; intros issues by_id; [exists []; by rewrite app_nil_r|].
  cbn [foldl add_node]. case_bool_decide; [|destruct (dmem _ by_id)];
    (edestruct IH as [more ->]); rewrite <-?app_assoc; eauto.
Qed.

(** Issues once appended stay. *)
Lemma add_nodes_issue issue nodes issues by_id :
  (foldl add_node (issues ++ [issue], by_id) nodes).1 ≠ issues.
Proof.
  destruct (add_nodes_extend nodes (issues ++ [issue]) by_id) as [more ->].
  intros H. apply (f_equal length) in H. rewrite !length_app in H. simpl in H. lia.
Qed.

Lemma dmem_node_table id nodes : dmem id (node_table nodes) = true ↔ id ∈ an_node_id <$> nodes.
Proof. rewrite dmem_spec. unfold dkeys, node_table. by rewrite <-list_fmap_compose. Qed.

Lemma add_nodes nodes : ∀ issues seen,
  let st := foldl add_node (issues, node_table seen) nodes in
  (st.1 = issues ↔ NoDup (an_node_id <$> nodes) ∧
     ∀ n, n ∈ nodes → an_node_id n ≠ "" ∧ an_node_id n ∉ an_node_id <$> seen) ∧
  (st.1 = issues → st.2 = node_table (seen ++ nodes)).
Proof.
  induction nodes as [|n nodes IH]; intros issues seen; cbn [foldl add_node].
  { rewrite app_nil_r. split; [|done]. split; [|done]. intros _. split; [constructor|].
    by intros n ?%not_elem_of_nil. }
  case_bool_decide as Hn.
  { pose proof (add_nodes_issue "empty-node-id" nodes issues (node_table seen)) as Hi.
    split; [|done]. split; [done|]. intros [_ H]. by destruct (H n ltac:(by left)). }
  destruct (dmem (an_node_id n) (node_table seen)) eqn:Em.
  { pose proof (add_nodes_issue ("duplicate-node:" +:+ an_node_id n) nodes issues (node_table seen)) as Hi.
    split; [|done]. split; [done|]. intros [_ H]. destruct (H n ltac:(by left)) as [_ []].
    by apply dmem_node_table. }
  rewrite dset_fresh by by apply dmem_false.
  change (node_table seen ++ [(an_node_id n, n)]) with (node_table seen ++ node_table [n]).
  unfold node_table. rewrite <-fmap_app. fold (node_table (seen ++ [n])).
  destruct (IH issues (seen ++ [n])) as [H1 H2]. rewrite <-app_assoc in H2. split; [|exact H2].
  rewrite H1. csimpl. rewrite NoDup_cons. setoid_rewrite elem_of_cons.
  assert (an_node_id n ∉ an_node_id <$> seen) as Hseen.
  { intros H. apply dmem_node_table in H. congruence. }
  setoid_rewrite fmap_app. csimpl. setoid_rewrite elem_of_app. setoid_rewrite list_elem_of_singleton.
  split.
  - intros [Hnd H]. split_and!; [|done|].
    + intros (m & Hm & Hin)%list_elem_of_fmap. destruct (H m Hin) as [_ []]. by right.
    + intros m [->|Hin]; [done|]. destruct (H m Hin). tauto.
  - intros [[Hnin Hnd] H]. split; [done|]. intros m Hin. destruct (H m (or_intror Hin)). split; [done|].
    intros [?|Heq]; [done|]. apply Hnin. rewrite <-Heq. by apply list_elem_of_fmap_2.
Qed.

Section relations.
Context (by_id : dict string ArchitectureNode).

Definition relation_ok (r : ArchitectureRelation) : Prop :=
  rel_relation_id r ≠ "" ∧ rel_forward r = true ∧ rel_evidence_requirements r ≠ [] ∧
  ∃ s t, dget (rel_source_id r) by_id = Some s ∧ dget (rel_target_id r) by_id = Some t ∧
    (an_kind s, an_kind t) = ALLOWED_RELATION_KINDS (rel_kind r).

Lemma relation_issues_nil seen r :
  relation_issues by_id seen r = [] ↔ relation_ok r ∧ rel_relation_id r ∉ seen.
Proof.
  unfold relation_issues, relation_ok. rewrite !app_nil.
  destruct (dget (rel_source_id r) by_id) as [s|], (dget (rel_target_id r) by_id) as [t|],
    (rel_forward r); repeat case_bool_decide; naive_solver.
Qed.

Lemma add_relations rs : ∀ issues seen,
  (foldl (add_relation by_id) (issues, seen) rs).1 = [] ↔
  issues = [] ∧ (∀ r, r ∈ rs → relation_ok r) ∧ NoDup (rel_relation_id <$> rs) ∧
  ∀ r, r ∈ rs → rel_relation_id r ∉ seen.
Proof.
  induction rs as [|r rs IH]; intros issues seen; cbn [foldl add_relation].
  { cbn [fst]. split; [|by intros [-> _]]. intros ->. split_and!; [done| |constructor|];
      by intros r ?%not_elem_of_nil. }
  rewrite IH, app_nil, relation_issues_nil. csimpl. rewrite NoDup_cons.
  setoid_rewrite elem_of_cons. setoid_rewrite elem_of_app. setoid_rewrite list_elem_of_singleton.
  split.
  - intros ([-> [Hok Hr]] & Hrs & Hnd & Hseen). split_and!; [done| | |done|].
    + intros r' [->|Hin]; [done|by apply Hrs].
    + intros (r' & Heq & Hin)%list_elem_of_fmap. apply (Hseen r' Hin). by right.
    + intros r' [->|Hin]; [done|]. intros H. apply (Hseen r' Hin). by left.
  - intros (-> & Hrs & [Hnin Hnd] & Hseen). split_and!; try done.
    + apply Hrs. by left.
    + apply Hseen. by left.
    + intros r' Hin. apply Hrs. by right.
    + intros r' Hin [H|H]; [by apply (Hseen r'); [right|]|]. apply Hnin. rewrite <-H.
      by apply list_elem_of_fmap_2.
Qed.
End relations.

Lemma node_table_wf nodes : NoDup (an_node_id <$> nodes) → dict_wf (node_table nodes).
Proof. unfold dict_wf, dkeys, node_table. by rewrite <-list_fmap_compose. Qed.

Lemma dget_node_table nodes id n : NoDup (an_node_id <$> nodes) →
  dget id (node_table nodes) = Some n ↔ n ∈ nodes ∧ an_node_id n = id.
Proof.
  intros Hnd. pose proof (node_table_wf nodes Hnd) as Hwf. split.
  - intros (m & [= -> ->] & Hin)%dget_Some_elem%list_elem_of_fmap. done.
  - intros [Hin <-]. apply dget_elem_wf; [done|]. apply list_elem_of_fmap. by exists n.
Qed.

Lemma validate_admits g : validate_typed_relation_graph g = [] ↔ WellTyped g.
Proof.
  unfold validate_typed_relation_graph.
  set (issues0 := if bool_decide (tg_graph_id g = "") then ["empty-graph-id"] else []).
  destruct (add_nodes (tg_nodes g) issues0 []) as [Hn Hby].
  destruct (add_nodes_extend (tg_nodes g) issues0 (node_table [])) as [more Hmore].
  match goal with |- context [foldl add_node ?st ?l] =>
    change (foldl add_node st l) with (foldl add_node (issues0, node_table []) l) end.
  destruct (foldl add_node (issues0, node_table []) (tg_nodes g)) as [issues1 by_id].
  cbn [fst snd] in Hn, Hby, Hmore. rewrite app_nil_l in Hby.
  pose proof (add_relations by_id (tg_relations g) issues1 []) as Hr.
  destruct (foldl (add_relation by_id) (issues1, []) (tg_relations g)) as [issues2 ids].
  cbn [fst] in Hr. cbv beta iota zeta. rewrite sort_by_nil.
  assert (remove_dups issues2 = [] ↔ issues2 = []) as ->.
  { split; [|by intros ->]. intros H. destruct issues2 as [|x l]; [done|].
    assert (x ∈ remove_dups (x :: l)) as Hx by (apply elem_of_remove_dups; by left).
    rewrite H in Hx. by apply not_elem_of_nil in Hx. }
  assert (issues0 = [] ↔ tg_graph_id g ≠ "") as H0.
  { unfold issues0. case_bool_decide; naive_solver. }
  rewrite Hr. split.
  - intros (-> & Hok & Hnd & _). symmetry in Hmore. apply app_nil in Hmore as [E0 _].
    destruct (proj1 Hn (eq_sym E0)) as [Hids Hne]. specialize (Hby (eq_sym E0)). subst by_id.
    split; [by apply H0| | | |].
    + split; [|done]. intros (n & Heq & Hin)%list_elem_of_fmap. by destruct (Hne n Hin).
    + split; [|done]. intros (r & Heq & Hin)%list_elem_of_fmap. by destruct (Hok r Hin).
    + intros r Hin. by destruct (Hok r Hin) as (_ & ? & ? & _).
    + intros r Hin. destruct (Hok r Hin) as (_ & _ & _ & s & t & Hs & Ht & Hk).
      apply dget_node_table in Hs as [Hs Es]; [|done]. apply dget_node_table in Ht as [Ht Et]; [|done].
      by exists s, t.
  - intros [Hg [Hempty Hids] [Hrempty Hrids] Hf Hk]. apply H0 in Hg.
    assert (issues1 = issues0) as E1.
    { apply Hn. split; [done|]. intros n Hin. split; [|apply not_elem_of_nil].
      intros Heq. apply Hempty. rewrite <-Heq. by apply list_elem_of_fmap_2. }
    specialize (Hby E1). subst by_id. split_and!; [congruence| |done|].
    + intros r Hin. destruct (Hf r Hin), (Hk r Hin) as (s & t & Hs & Ht & Es & Et & Ekind).
      split_and!; [|done|done|].
      * intros Heq. apply Hrempty. rewrite <-Heq. by apply list_elem_of_fmap_2.
      * exists s, t. by rewrite !dget_node_table.
    + intros r Hin. apply not_elem_of_nil.
Qed.

(** ** A well-typed graph has no cycle *)

(** How far a kind is from the components, along the allowed relations. *)
Definition rank (k : NodeKind) : nat :=
  match k with
  | SYSTEM_COMPONENT => 0
  | ASSET | RUN_FEEDBACK => 1
  | THREAT => 2
  | RISK => 3
  | SECURITY_REQUIREMENT | RESIDUAL_RISK => 4
  | CONTROL | AUTHORITY_ACCEPTANCE => 5
  | VERIFICATION_EVIDENCE => 6
  end.

Lemma allowed_climbs k : (rank (ALLOWED_RELATION_KINDS k).1 < rank (ALLOWED_RELATION_KINDS k).2)%nat.
Proof. destruct k; simpl; lia. Qed.

Lemma joined g x y : WellTyped g → affects g x y →
  ∃ s t, s ∈ tg_nodes g ∧ t ∈ tg_nodes g ∧ an_node_id s = x ∧ an_node_id t = y ∧
    (rank (an_kind s) < rank (an_kind t))%nat.
Proof.
  intros Hg (r & Hr & <- & <-). destruct (wt_kinds _ Hg r Hr) as (s & t & Hs & Ht & Es & Et & Hk).
  exists s, t. split_and!; try done. pose proof (allowed_climbs (rel_kind r)) as Hc.
  by rewrite <-Hk in Hc.
Qed.

Lemma well_typed_acyclic g : WellTyped g → well_founded (affects g).
Proof.
  intros Hg. destruct (wt_node_ids _ Hg) as [_ Hids].
  assert (∀ k n, n ∈ tg_nodes g → rank (an_kind n) = k → Acc (affects g) (an_node_id n)) as Hacc.
  { induction k as [k IH] using lt_wf_ind. intros n Hn Hk. constructor. intros x Hx.
    destruct (joined g _ _ Hg Hx) as (s & t & Hs & Ht & <- & Et & Hlt).
    assert (t = n) as -> by by eapply (NoDup_fmap_elem an_node_id).
    by apply (IH (rank (an_kind s))); [lia|..]. }
  intros y. constructor. intros x Hx. destruct (joined g _ _ Hg Hx) as (s & t & Hs & _ & <- & _).
  by eapply Hacc.
Qed.

(** ** What is reached *)

Definition sorted_lists (outgoing : dict string (list string)) : dict string (list string) :=
  (λ '(k, l), (k, sort_by str_leb l)) <$> outgoing.

Lemma dget_sorted_lists k d : dget_list k (sorted_lists d) = sort_by str_leb (dget_list k d).
Proof.
  unfold dget_list. induction d as [|[k' l] d IH]; [done|]. csimpl.
  by destruct (decide (k = k')).
Qed.

(** The loop is the closure of the receipt graphs, with the targets in order. *)
Lemma spread_closure fuel outgoing : ∀ affected frontier,
  spread fuel outgoing affected frontier = closure fuel (sorted_lists outgoing) affected frontier.
Proof.
  induction fuel as [|fuel IH]; intros affected [|id frontier]; try done.
  cbn [spread closure]. rewrite dget_sorted_lists. destruct (foldl visit _ _). apply IH.
Qed.

Lemma elem_of_outgoing rs u v : ∀ outgoing,
  u ∈ dget_list v (foldl (λ outgoing r, dappend (rel_source_id r) (rel_target_id r) outgoing) outgoing rs)
  ↔ u ∈ dget_list v outgoing ∨ ∃ r, r ∈ rs ∧ rel_source_id r = v ∧ rel_target_id r = u.
Proof.
  induction rs as [|r rs IH]; intros outgoing; cbn [foldl].
  { split; [by left|]. intros [?|(r & Hr & _)]; [done|]. by apply not_elem_of_nil in Hr. }
  rewrite IH, dget_list_dappend. setoid_rewrite elem_of_cons. case_decide as Hv.
  - rewrite elem_of_app, list_elem_of_singleton. split.
    + intros [[?|?]|(r' & ? & ?)]; [by left|right; by exists r; auto|right; exists r'; auto].
    + intros [?|(r' & [->|Hin] & ? & ?)]; [auto|auto|right; by exists r'].
  - split.
    + intros [?|(r' & ? & ?)]; [by left|right; exists r'; auto].
    + intros [?|(r' & [->|Hin] & ? & ?)]; [auto|by destruct Hv|right; by exists r'].
Qed.

Lemma of_kind_Ok g kind ids : NoDup (architecture_ids g) → (∀ u, u ∈ ids → u ∈ architecture_ids g) →
  ∃ l, of_kind (node_table (tg_nodes g)) kind ids = Ok l ∧
    ∀ u, u ∈ l ↔ u ∈ ids ∧ has_kind g kind u.
Proof.
  intros Hnd Hids. unfold of_kind.
  assert (∃ kinds, mapM (λ id, node ← of_option (KeyError id) (dget id (node_table (tg_nodes g)));
      Ok (id, an_kind node)) ids = Ok kinds ∧
    ∀ u k, (u, k) ∈ kinds ↔ u ∈ ids ∧ has_kind g k u) as (kinds & -> & Hk).
  { clear kind. induction ids as [|id ids IH].
    - exists []. split; [done|]. intros u k. rewrite !elem_of_nil. tauto.
    - destruct IH as (kinds & IH & Hk); [intros u Hu; apply Hids; by right|].
      destruct (proj1 (list_elem_of_fmap an_node_id (tg_nodes g) id) (Hids id ltac:(by left)))
        as (n & -> & Hn).
      cbn [mapM]. rewrite (proj2 (dget_node_table _ _ n Hnd) (conj Hn eq_refl)).
      cbn [of_option mbind result_bind]. rewrite IH. cbn [mbind result_bind].
      exists ((an_node_id n, an_kind n) :: kinds). split; [done|]. intros u k.
      rewrite !elem_of_cons, Hk. split.
      + intros [[= -> ->]|[? ?]]; [|tauto]. split; [by left|]. by exists n.
      + intros [[->|Hin] Hhas]; [|tauto]. left. destruct Hhas as (m & Hm & Em & <-).
        by rewrite (NoDup_fmap_elem an_node_id _ m n Hnd Hm Hn Em). }
  cbn [mbind result_bind]. eexists. split; [done|]. intros u. rewrite list_elem_of_fmap. split.
  - intros ([v k] & -> & [Hkk Hin]%list_elem_of_filter). simpl in Hkk. subst k. by apply Hk.
  - intros H. exists (u, kind). split; [done|]. apply list_elem_of_filter. split; [done|]. by apply Hk.
Qed.

Lemma sort_strings_sorted l : StronglySorted (ordered str_leb) (sort_by str_leb l).
Proof. apply sort_by_sorted; [apply str_leb_total|apply str_leb_trans]. Qed.

Section impact.
Context (sha256_hex : string → string) (g : TypedRelationGraph) (changed : list string).
Context (Hg : WellTyped g).
#[local] Notation ids := (architecture_ids g).
#[local] Notation changed_ids := (sort_by str_leb (remove_dups changed)).

Lemma elem_of_changed c : c ∈ changed_ids ↔ c ∈ changed.
Proof. rewrite elem_of_sort_by. apply elem_of_remove_dups. Qed.

Lemma spread_answers : (∀ c, c ∈ changed → c ∈ ids) →
  ∃ affected, spread (length (tg_nodes g)) (outgoing_of (tg_relations g)) changed_ids
                (rev changed_ids) = Some affected ∧
    NoDup affected ∧ (∀ u, u ∈ affected → u ∈ ids) ∧
    ∀ u, u ∈ affected ↔ ∃ c, c ∈ changed ∧ rtc (affects g) c u.
Proof.
  intros Hch. rewrite spread_closure. set (out := sorted_lists _).
  assert (∀ v u, back out v u ↔ affects g v u) as Hback.
  { intros v u. unfold back, out. rewrite dget_sorted_lists, elem_of_sort_by.
    unfold outgoing_of. rewrite elem_of_outgoing. unfold affects.
    split; [intros [H|?]; [by apply not_elem_of_nil in H|done]|by right]. }
  assert (NoDup changed_ids) as Hnd by (rewrite (sort_by_perm str_leb); apply NoDup_remove_dups).
  assert (∀ u, u ∈ rev changed_ids ↔ u ∈ changed_ids) as Hrev.
  { intros u. by rewrite !list_elem_of_In, <-in_rev. }
  destruct (closure_spec ids out) with (start := λ c, c ∈ changed)
    (fuel := length (tg_nodes g)) (reaches := changed_ids) (frontier := rev changed_ids)
    as (affected & Ha & Hand & Hain & Haff).
  - intros u v Hu. apply Hback in Hu. destruct (joined g _ _ Hg Hu) as (_ & t & _ & Ht & _ & <- & _).
    by apply list_elem_of_fmap_2.
  - split.
    + done.
    + by apply NoDup_ListNoDup, NoDup_rev, NoDup_ListNoDup.
    + intros u. apply Hrev.
    + intros u Hu. by apply Hch, elem_of_changed.
    + intros s Hs. by apply elem_of_changed.
    + intros u Hu. exists u. split; [by apply elem_of_changed|done].
    + intros u v Hv Hnf. by destruct Hnf; apply Hrev.
  - unfold architecture_ids. rewrite length_fmap, length_rev. lia.
  - exists affected. split_and!; [done..|]. intros u. rewrite Haff. unfold reachable.
    split; intros (c & Hc & H); exists c; (split; [done|]); revert H; apply rtc_subrel;
      intros v w; apply Hback.
Qed.

Lemma impact_receipt_Ok affected : NoDup affected → (∀ u, u ∈ affected → u ∈ ids) →
  (∀ u, u ∈ affected ↔ ∃ c, c ∈ changed ∧ rtc (affects g) c u) →
  ∃ r, impact_receipt sha256_hex g (node_table (tg_nodes g)) changed_ids affected = Ok r ∧
    ImpactSpec g changed r.
Proof.
  intros Hnd Hin Haff. unfold impact_receipt. destruct (wt_node_ids _ Hg) as [_ Hids].
  assert (∀ u, u ∈ sort_by str_leb affected → u ∈ ids) as Hsub.
  { intros u Hu%elem_of_sort_by. by apply Hin. }
  destruct (of_kind_Ok g VERIFICATION_EVIDENCE _ Hids Hsub) as (ev & -> & Hev).
  destruct (of_kind_Ok g AUTHORITY_ACCEPTANCE _ Hids Hsub) as (ac & -> & Hac).
  destruct (of_kind_Ok g CONTROL _ Hids Hsub) as (ct & -> & Hct).
  cbn [mbind result_bind]. eexists. split; [done|]. split; cbn [ci_changed_node_ids
    ci_affected_node_ids ci_invalidated_evidence_ids ci_invalidated_acceptance_ids
    ci_reopened_verification_obligations]; try done.
  - split; [|apply elem_of_changed]. rewrite (sort_by_perm str_leb). apply NoDup_remove_dups.
  - split; [by rewrite (sort_by_perm str_leb)|]. intros u. by rewrite elem_of_sort_by.
  - repeat apply Forall_cons_2; try apply Forall_nil_2; apply sort_strings_sorted.
  - intros v. rewrite list_elem_of_fmap. by setoid_rewrite Hct.
Qed.
End impact.

Lemma missing_nil g ids : NoDup (architecture_ids g) →
  filter (λ id, dget id (node_table (tg_nodes g)) = None) ids = [] ↔
  ∀ c, c ∈ ids → c ∈ architecture_ids g.
Proof.
  intros Hnd. split.
  - intros Hf c Hc. destruct (dget c (node_table (tg_nodes g))) as [n|] eqn:E.
    + apply dget_node_table in E as [Hn <-]; [|done]. by apply list_elem_of_fmap_2.
    + assert (c ∈ filter (λ id, dget id (node_table (tg_nodes g)) = None) ids) as Hin
        by by apply list_elem_of_filter.
      rewrite Hf in Hin. by apply not_elem_of_nil in Hin.
  - intros Hall. apply filter_none, Forall_forall. intros c Hc E.
    apply Hall, list_elem_of_fmap in Hc as (n & -> & Hn).
    by rewrite (proj2 (dget_node_table _ _ n Hnd) (conj Hn eq_refl)) in E.
Qed.

(** C8. [project_change_impact] always answers, and with a receipt exactly for a
    well-typed graph and a non-empty list of its nodes; such a graph has no
    cycle.  The receipt names, in order and without repetition, exactly the
    nodes that can be reached from a changed node, and among them the evidence
    and the acceptances to invalidate and the controls to verify again. *)
Theorem change_impact_is_reachability (sha256_hex : string → string) (g : TypedRelationGraph)
    (changed : list string) :
  ∃ answer, project_change_impact sha256_hex g changed = Some answer ∧
    (is_ok answer = true ↔
       WellTyped g ∧ changed ≠ [] ∧ ∀ c, c ∈ changed → c ∈ architecture_ids g) ∧
    ∀ r, answer = Ok r → ImpactSpec g changed r ∧ well_founded (affects g).
Proof.
  unfold project_change_impact. cbv zeta.
  destruct (decide (validate_typed_relation_graph g = [])) as [Hv|Hv].
  2:{ rewrite (bool_decide_eq_false_2 _ Hv). cbn [require mbind result_bind]. eexists.
      split; [done|]. split; [|done]. split; [done|]. intros [H _]. by apply validate_admits in H. }
  pose proof (proj1 (validate_admits g) Hv) as Hg. destruct (wt_node_ids _ Hg) as [_ Hids].
  rewrite (bool_decide_eq_true_2 _ Hv), dict_of_id by by apply node_table_wf.
  cbn [require mbind result_bind]. set (ids := sort_by str_leb (remove_dups changed)).
  assert (∀ c, c ∈ ids ↔ c ∈ changed) as Hc by apply elem_of_changed.
  destruct (decide (ids = [])) as [E|E].
  { rewrite (bool_decide_eq_true_2 _ E). eexists. split; [done|]. split; [|done]. split; [done|].
    intros (_ & Hne & _). destruct changed as [|c l]; [done|].
    assert (c ∈ ids) as Hin by (apply Hc; by left). rewrite E in Hin.
    by apply not_elem_of_nil in Hin. }
  rewrite (bool_decide_eq_false_2 _ E). cbn [negb require mbind result_bind].
  match goal with |- context [bool_decide (?l = [])] => destruct (decide (l = [])) as [M|M] end.
  2:{ rewrite (bool_decide_eq_false_2 _ M). eexists. split; [done|]. split; [|done].
      split; [done|]. intros (_ & _ & Hall). destruct M. apply missing_nil; [done|].
      intros c Hin. by apply Hall, Hc. }
  rewrite (bool_decide_eq_true_2 _ M). cbn [require].
  pose proof (proj1 (missing_nil g ids Hids) M) as Hall.
  destruct (spread_answers g changed Hg) as (affected & Ha & Hnd & Hin & Haff).
  { intros c H. by apply Hall, Hc. }
  fold ids in Ha. rewrite Ha. cbn [mbind option_bind].
  destruct (impact_receipt_Ok sha256_hex g changed Hg affected Hnd Hin Haff) as (r & Hr & Hspec).
  fold ids in Hr. change ((λ n, (an_node_id n, n)) <$> tg_nodes g) with (node_table (tg_nodes g)).
  rewrite Hr. eexists. split; [done|]. split.
  - split; [|done]. intros _. split_and!; [done| |].
    + intros ->. by destruct E.
    + intros c H. by apply Hall, Hc.
  - intros r' [= <-]. split; [done|]. by apply well_typed_acyclic.
Qed.
