(* ===== verification/Admission.v ===== *)
(** * Admission decisions of the embodied-AI security model
    ([embodied_ai_constrained_effect.py], [embodied_ai_authority_declaration.py],
    [embodied_ai_provider_non_authority.py])

    (In [src/packages/proofs/python/src/poo_flow_proof/].)  Three pure decision
    procedures: may a constrained effect take place, does a declaration carry
    authority, may a provider's candidate be admitted.  Each runs down a list of
    guards and answers the reason of the first one that fails; the guards are a
    [result] whose error is that reason.  A Python set is a list; where the code
    counts its elements, [remove_dups] is applied. *)

From S2P Require Import Prelude PyDict Text.

(** What a chain of guards decides: admitted or not, and the reason. *)
Definition decided (admitted_reason : string) (r : result string unit) : bool * string :=
  match r with Ok _ => (true, admitted_reason) | Raise reason => (false, reason) end.

Definition is_empty (s : string) : bool := bool_decide (s = "").

(** ** [embodied_ai_constrained_effect.py] *)

Module Effect.

Inductive EffectOutcome : Type := APPLIED | DUPLICATE | ROLLED_BACK | RECOVERED.
Inductive EffectReversibility : Type := REVERSIBLE | COMPENSABLE | IRREVERSIBLE.
Inductive RecoveryPhase : Type := PHASE_COMMITTED | PHASE_ROLLED_BACK | PHASE_COMPENSATED
| PHASE_APPLYING.

#[global] Instance outcome_eq_dec : EqDecision EffectOutcome.
Proof. solve_decision. Defined.
#[global] Instance reversibility_eq_dec : EqDecision EffectReversibility.
Proof. solve_decision. Defined.
#[global] Instance phase_eq_dec : EqDecision RecoveryPhase.
Proof. solve_decision. Defined.

Definition TERMINAL_RECOVERY_PHASES : list RecoveryPhase :=
  [PHASE_COMMITTED; PHASE_ROLLED_BACK; PHASE_COMPENSATED].

Record EffectAuthorizationReceipt : Type := MkAuthorization {
  ea_authority_id : string;
  ea_subject_id : string;
  ea_effect_id : string;
  ea_receipt_valid : bool
}.
Record EffectObligation : Type := MkObligation {
  eo_effect_id : string;
  eo_reversibility : EffectReversibility
}.
Record PriorCommitReceipt : Type := MkPriorCommit {
  pc_transaction_id : string;
  pc_effect_id : string;
  pc_receipt_valid : bool
}.
Record CompensationReceipt : Type := MkCompensation {
  cr_transaction_id : string;
  cr_effect_id : string;
  cr_receipt_valid : bool
}.
Record RecoveryReceipt : Type := MkRecovery {
  re_transaction_id : string;
  re_claimant_id : string;
  re_fence_owner_id : string;
  re_phase : RecoveryPhase;
  re_receipt_valid : bool
}.
Record ConstrainedEffectRequest : Type := MkEffectRequest {
  er_request_id : string;
  er_transaction_id : string;
  er_subject_id : string;
  er_effect_id : string;
  er_outcome : EffectOutcome;
  er_authorization : EffectAuthorizationReceipt;
  er_declared_obligations : list EffectObligation;
  er_observed_effect_ids : list string;
  er_prior_commits : list PriorCommitReceipt;
  er_compensation_receipts : list CompensationReceipt;
  er_recovery : RecoveryReceipt
}.
Record ConstrainedEffectDecision : Type := MkEffectDecision {
  ed_admitted : bool;
  ed_reason_kind : string;
  ed_request_id : string;
  ed_transaction_id : string;
  ed_effect_id : string
}.

Definition has_valid_prior_commit (r : ConstrainedEffectRequest) : bool :=
  existsb (λ c, pc_receipt_valid c && bool_decide (pc_transaction_id c = er_transaction_id r)
                && bool_decide (pc_effect_id c = er_effect_id r)) (er_prior_commits r).
Definition has_valid_compensation (r : ConstrainedEffectRequest) (o : EffectObligation) : bool :=
  existsb (λ c, cr_receipt_valid c && bool_decide (cr_transaction_id c = er_transaction_id r)
                && bool_decide (cr_effect_id c = eo_effect_id o)) (er_compensation_receipts r).

(** The body of the loop over the declared obligations. *)
Definition declare_obligation (by_effect : dict string EffectObligation) (o : EffectObligation) :
    result string (dict string EffectObligation) :=
  _ ← require (negb (is_empty (eo_effect_id o) || dmem (eo_effect_id o) by_effect))
        "effect-domain-invalid";
  Ok (dset (eo_effect_id o) o by_effect).

Definition same_set (a b : list string) : bool :=
  forallb (λ x, bool_decide (x ∈ b)) a && forallb (λ x, bool_decide (x ∈ a)) b.

(** The guards of [evaluate_constrained_effect], by what they look at. *)
Definition check_identity (r : ConstrainedEffectRequest) : result string unit :=
  let a := er_authorization r in
  _ ← require (negb (is_empty (er_request_id r) || is_empty (er_transaction_id r)
                     || is_empty (er_effect_id r))) "missing-effect-identity";
  _ ← require (ea_receipt_valid a) "authorization-receipt-invalid";
  _ ← require (bool_decide (ea_subject_id a = er_subject_id r)) "authorization-subject-mismatch";
  _ ← require (bool_decide (ea_effect_id a = er_effect_id r)) "authorization-effect-mismatch";
  require (negb (is_empty (ea_authority_id a))) "authorization-authority-missing".
Definition check_domain (r : ConstrainedEffectRequest) :
    result string (dict string EffectObligation) :=
  by_effect ← foldM declare_obligation [] (er_declared_obligations r);
  let observed := remove_dups (er_observed_effect_ids r) in
  _ ← require (length observed =? length (er_observed_effect_ids r))%nat "effect-domain-invalid";
  _ ← require (same_set (dkeys by_effect) observed) "effect-domain-coverage-incomplete";
  _ ← require (dmem (er_effect_id r) by_effect) "requested-effect-outside-domain";
  Ok by_effect.
Definition check_outcome (r : ConstrainedEffectRequest) (by_effect : dict string EffectObligation) :
    result string unit :=
  _ ← require (negb (bool_decide (er_outcome r = DUPLICATE) && negb (has_valid_prior_commit r)))
        "duplicate-without-prior-commit";
  if bool_decide (er_outcome r ∈ [ROLLED_BACK; RECOVERED]) then
    _ ← require (negb (existsb (λ o, bool_decide (eo_reversibility o = IRREVERSIBLE))
                         (snd <$> by_effect))) "irreversible-effect-not-recoverable";
    require (negb (existsb (λ o, bool_decide (eo_reversibility o = COMPENSABLE)
                                 && negb (has_valid_compensation r o)) (snd <$> by_effect)))
      "compensation-evidence-missing"
  else Ok ().
Definition check_recovery (r : ConstrainedEffectRequest) : result string unit :=
  let v := er_recovery r in
  _ ← require (re_receipt_valid v) "recovery-receipt-invalid";
  _ ← require (bool_decide (re_transaction_id v = er_transaction_id r)) "recovery-transaction-mismatch";
  _ ← require (negb (is_empty (re_claimant_id v)
                     || negb (bool_decide (re_claimant_id v = re_fence_owner_id v))))
        "recovery-fence-not-exclusive";
  require (bool_decide (re_phase v ∈ TERMINAL_RECOVERY_PHASES)) "recovery-not-terminal".

Definition effect_guards (r : ConstrainedEffectRequest) : result string unit :=
  _ ← check_identity r;
  by_effect ← check_domain r;
  _ ← check_outcome r by_effect;
  check_recovery r.

Definition evaluate_constrained_effect (r : ConstrainedEffectRequest) : ConstrainedEffectDecision :=
  let '(admitted, reason) := decided "constrained-system-effect-admitted" (effect_guards r) in
  MkEffectDecision admitted reason (er_request_id r) (er_transaction_id r) (er_effect_id r).

(** [_authorization_only_countermodel], the unsafe policy kept for comparison. *)
Definition authorization_only_countermodel (r : ConstrainedEffectRequest) : bool :=
  ea_receipt_valid (er_authorization r).

End Effect.

(** ** [embodied_ai_authority_declaration.py] *)

Module Authority.

Inductive AuthorityAct : Type := DECLARATION | EXECUTION | EVIDENCE | VERIFICATION | RESIDUAL_RISK
| RECOVERY.
Inductive AuthorityIssuerKind : Type := HUMAN_AUTHORITY | CEDAR_ENGINE | LEAN_ENGINE | AI_PROVIDER.

#[global] Instance act_eq_dec : EqDecision AuthorityAct.
Proof. solve_decision. Defined.
#[global] Instance issuer_kind_eq_dec : EqDecision AuthorityIssuerKind.
Proof. solve_decision. Defined.

Record AuthorizationSubject : Type := MkSubject {
  as_architecture_id : string;
  as_bundle_digest : string;
  as_policy_id : string;
  as_resource_id : string;
  as_action_id : string;
  as_context_epoch : Z
}.
#[global] Instance subject_eq_dec : EqDecision AuthorizationSubject.
Proof. solve_decision. Defined.

Record AuthorityReceipt : Type := MkAuthorityReceipt {
  au_receipt_id : string;
  au_issuer_id : string;
  au_issuer_kind : AuthorityIssuerKind;
  au_authority_act : AuthorityAct;
  au_subject : AuthorizationSubject;
  au_valid_from_epoch : Z;
  au_valid_until_epoch : Z;
  au_revoked_at_epoch : option Z;
  au_receipt_valid : bool;
  au_delegation_root : string;
  au_responsibility_acceptance_digest : string
}.
Record AuthorityActors : Type := MkActors {
  aa_proposer_id : string;
  aa_approver_id : string;
  aa_executor_id : string
}.
Record AuthorityDeclarationRequest : Type := MkDeclarationRequest {
  ad_request_id : string;
  ad_candidate_id : string;
  ad_provider_id : string;
  ad_requested_act : AuthorityAct;
  ad_current_subject : AuthorizationSubject;
  ad_current_epoch : Z;
  ad_declared_role : string;
  ad_receipt : AuthorityReceipt;
  ad_actors : AuthorityActors
}.
Record AuthorityAdmissionDecision : Type := MkAuthorityDecision {
  aad_admitted : bool;
  aad_reason_kind : string;
  aad_request_id : string;
  aad_requested_act : AuthorityAct;
  aad_authority_id : string
}.

Definition actor_ids (a : AuthorityActors) : list string :=
  [aa_proposer_id a; aa_approver_id a; aa_executor_id a].

(** The guards on the receipt, then those on the time and the actors. *)
Definition check_receipt (r : AuthorityDeclarationRequest) : result string unit :=
  let c := ad_receipt r in
  _ ← require (negb (is_empty (ad_request_id r) || is_empty (ad_declared_role r)))
        "authority-declaration-incomplete";
  _ ← require (negb (bool_decide (au_issuer_kind c = AI_PROVIDER))) "ai-provider-non-authority";
  _ ← require (bool_decide (au_issuer_kind c = HUMAN_AUTHORITY)) "analysis-engine-non-authority";
  _ ← require (au_receipt_valid c) "authority-receipt-invalid";
  _ ← require (negb (is_empty (au_receipt_id c) || is_empty (au_issuer_id c)))
        "authority-receipt-identity-missing";
  _ ← require (negb (bool_decide (au_issuer_id c ∈ [ad_candidate_id r; ad_provider_id r])))
        "authority-not-independent";
  _ ← require (bool_decide (au_authority_act c = ad_requested_act r)) "authority-act-mismatch";
  require (bool_decide (au_subject c = ad_current_subject r)) "authority-subject-mismatch".
Definition check_actors (r : AuthorityDeclarationRequest) : result string unit :=
  let c := ad_receipt r in
  let ids := remove_dups (actor_ids (ad_actors r)) in
  _ ← require ((au_valid_from_epoch c <=? ad_current_epoch r)
               && (ad_current_epoch r <=? au_valid_until_epoch c)) "authority-context-stale";
  _ ← require (negb (match au_revoked_at_epoch c with
                     | Some e => e <=? ad_current_epoch r
                     | None => false
                     end)) "authority-revoked";
  _ ← require (negb (is_empty (au_delegation_root c))) "delegation-root-missing";
  _ ← require (negb (is_empty (au_responsibility_acceptance_digest c)))
        "responsibility-acceptance-missing";
  _ ← require (negb (bool_decide ("" ∈ ids) || negb (length ids =? 3)%nat))
        "separation-of-duties-violated";
  _ ← require (bool_decide (aa_approver_id (ad_actors r) = au_issuer_id c))
        "approver-authority-mismatch";
  require (negb (bool_decide (ad_candidate_id r ∈ ids)))
    "candidate-participates-in-authority-chain".

Definition evaluate_authority_declaration_admission (r : AuthorityDeclarationRequest) :
    AuthorityAdmissionDecision :=
  let '(admitted, reason) := decided "authority-bearing-declaration-admitted"
    (_ ← check_receipt r; check_actors r) in
  MkAuthorityDecision admitted reason (ad_request_id r) (ad_requested_act r)
    (au_issuer_id (ad_receipt r)).

(** The unsafe policies kept for comparison. *)
Definition roles_populated_countermodel (r : AuthorityDeclarationRequest) : bool :=
  negb (is_empty (ad_declared_role r)) && negb (is_empty (aa_proposer_id (ad_actors r)))
  && negb (is_empty (aa_approver_id (ad_actors r))) && negb (is_empty (aa_executor_id (ad_actors r))).
Definition provider_fields_match_countermodel (r : AuthorityDeclarationRequest) : bool :=
  bool_decide (ad_candidate_id r = ad_provider_id r).

End Authority.

(** ** [embodied_ai_provider_non_authority.py] *)

Module Provider.

Inductive IssuerKind : Type := AI_PROVIDER | HUMAN_AUTHORITY | ORGANIZATIONAL_AUTHORITY.
Inductive AuthorityRole : Type := EFFECT_AUTHORIZATION | VERIFICATION_DISCHARGE
| RESIDUAL_RISK_ACCEPTANCE.

#[global] Instance provider_issuer_eq_dec : EqDecision IssuerKind.
Proof. solve_decision. Defined.
#[global] Instance role_eq_dec : EqDecision AuthorityRole.
Proof. solve_decision. Defined.

Record ProviderIdentityV1 : Type := MkProvider {
  pi_provider_id : string;
  pi_model_id : string;
  pi_input_context_id : string;
  pi_generation_version : string
}.
Record AnalysisCandidateV1 : Type := MkCandidate {
  ac_candidate_id : string;
  ac_provider : ProviderIdentityV1
}.
Record AuthorityEnvelopeV1 : Type := MkEnvelope {
  ae_issuer_kind : IssuerKind;
  ae_issuer_id : string;
  ae_grants : list AuthorityRole
}.
Record AdmissionDecisionV1 : Type := MkDecision {
  de_admitted : bool;
  de_reason_kind : string;
  de_role : AuthorityRole;
  de_candidate_id : string;
  de_provider_id : string;
  de_authority_id : string
}.
Record ProviderAdmissionTraceV1 : Type := MkTrace {
  tr_schema_id : string;
  tr_candidate : AnalysisCandidateV1;
  tr_authority : AuthorityEnvelopeV1;
  tr_role : AuthorityRole;
  tr_role_only_would_admit : bool;
  tr_decision : AdmissionDecisionV1
}.

(** [not value.strip()]. *)
Definition is_blank (s : string) : bool := is_empty (ustrip s).

Definition validation_errors (p : ProviderIdentityV1) : list string :=
  fst <$> filter (λ m, is_blank m.2 = true)
    [("provider_id", pi_provider_id p); ("model_id", pi_model_id p);
     ("input_context_id", pi_input_context_id p); ("generation_version", pi_generation_version p)].

Definition role_only_admission (authority : AuthorityEnvelopeV1) (role : AuthorityRole) : bool :=
  bool_decide (role ∈ ae_grants authority).

Definition provider_guards (candidate : AnalysisCandidateV1) (authority : AuthorityEnvelopeV1)
    (role : AuthorityRole) : result string unit :=
  _ ← require (negb (is_blank (ac_candidate_id candidate)
                     || negb (bool_decide (validation_errors (ac_provider candidate) = []))))
        "provider-provenance-invalid";
  _ ← require (negb (bool_decide (ae_issuer_kind authority = AI_PROVIDER))) "ai-provider-non-authority";
  _ ← require (negb (is_blank (ae_issuer_id authority))) "authority-id-missing";
  require (bool_decide (role ∈ ae_grants authority)) "authority-role-not-granted".

Definition evaluate_provider_admission (candidate : AnalysisCandidateV1)
    (authority : AuthorityEnvelopeV1) (role : AuthorityRole) : ProviderAdmissionTraceV1 :=
  let '(admitted, reason) := decided "independent-authority-admitted"
    (provider_guards candidate authority role) in
  MkTrace "poo-flow.ai-security.provider-admission-trace.v1" candidate authority role
    (role_only_admission authority role)
    (MkDecision admitted reason role (ac_candidate_id candidate)
       (pi_provider_id (ac_provider candidate)) (ae_issuer_id authority)).

End Provider.
