(* ===== verification/AdmissionFacts.v ===== *)
(** * What the admission decisions decide

    For each procedure a record says when a request is to be admitted, and a
    relation says what each reason of a rejection means.  The procedure admits
    exactly the requests of the record, and the reason it answers holds. *)

From S2P Require Import Prelude PyDict GraphTypes Receipts Text Merkle EvidenceModel Sort ReceiptGraph Json ChangeImpact Admission.

Lemma is_empty_false s : is_empty s = false ↔ s ≠ "".
Proof. apply bool_decide_eq_false. Qed.
Lemma is_empty_true s : is_empty s = true ↔ s = "".
Proof. apply bool_decide_eq_true. Qed.

(** A guard either holds or ends the chain with its reason. *)
Lemma guard_cases {B} (c : bool) (reason : string) (k : unit → result string B) :
  (c = true ∧ (require c reason ≫= k) = k ()) ∨ (c = false ∧ (require c reason ≫= k) = Raise reason).
Proof. destruct c; [by left|by right]. Qed.

Lemma existsb_none {A} (f : A → bool) l : existsb f l = false → ∀ x, In x l → f x = false.
Proof.
  intros H x Hx. destruct (f x) eqn:E; [|done]. by rewrite (proj2 (existsb_exists f l)) in H by eauto.
Qed.

Lemma length_remove_dups_NoDup (l : list string) : length (remove_dups l) = length l ↔ NoDup l.
Proof.
  induction l as [|x l IH]; [split; [constructor|done]|]. cbn [remove_dups].
  assert (length (remove_dups l) ≤ length l)%nat as Hle.
  { clear. induction l as [|y l IH]; [done|]. cbn [remove_dups]. case_decide; simpl; lia. }
  rewrite NoDup_cons. case_decide as Hx; cbn [length].
  - split; [lia|by intros []].
  - rewrite <-IH. split; [intros [=]; done|intros [_ ->]; done].
Qed.

(** Step through the guards: an [Ok] result gives every condition. *)
Ltac guards := repeat match goal with
  | H : (_ ≫= _) = Ok _ |- _ => apply bind_Ok in H as (? & ? & H)
  | H : require _ _ = Ok _ |- _ => apply require_Ok in H
  end.
(** A rejection: case on the first guard; the failing one gives the reason. *)
Ltac first_guard := match goal with
  | H : (require ?c ?reason ≫= _) = Raise _ |- _ =>
      let E := fresh "E" in
      destruct c eqn:E; cbn [require mbind result_bind] in H; [|injection H as <-]
  | H : require ?c ?reason = Raise _ |- _ =>
      let E := fresh "E" in destruct c eqn:E; cbn [require] in H; [discriminate H|injection H as <-]
  end.
Ltac to_props := repeat match goal with
  | H : negb _ = true |- _ => apply negb_true_iff in H
  | H : negb _ = false |- _ => apply negb_false_iff in H
  | H : (_ || _) = false |- _ => apply orb_false_iff in H as [? ?]
  | H : (_ || _) = true |- _ => apply orb_true_iff in H as [?|?]
  | H : (_ && _) = true |- _ => apply andb_true_iff in H as [? ?]
  | H : (_ && _) = false |- _ => apply andb_false_iff in H as [?|?]
  | H : is_empty _ = false |- _ => apply is_empty_false in H
  | H : is_empty _ = true |- _ => apply is_empty_true in H
  | H : bool_decide _ = true |- _ => apply bool_decide_eq_true in H
  | H : bool_decide _ = false |- _ => apply bool_decide_eq_false in H
  end.

(** ** Constrained effects *)

Module EffectFacts.
Import Admission.Effect.

Definition obligation_ids (r : ConstrainedEffectRequest) : list string :=
  eo_effect_id <$> er_declared_obligations r.
Definition is_recovery (r : ConstrainedEffectRequest) : Prop :=
  er_outcome r = ROLLED_BACK ∨ er_outcome r = RECOVERED.
Definition committed_before (r : ConstrainedEffectRequest) : Prop :=
  ∃ c, c ∈ er_prior_commits r ∧ pc_receipt_valid c = true ∧
    pc_transaction_id c = er_transaction_id r ∧ pc_effect_id c = er_effect_id r.
Definition compensated (r : ConstrainedEffectRequest) (o : EffectObligation) : Prop :=
  ∃ c, c ∈ er_compensation_receipts r ∧ cr_receipt_valid c = true ∧
    cr_transaction_id c = er_transaction_id r ∧ cr_effect_id c = eo_effect_id o.

(** When an effect may take place. *)
Record EffectAllowed (r : ConstrainedEffectRequest) : Prop := {
  al_identity : er_request_id r ≠ "" ∧ er_transaction_id r ≠ "" ∧ er_effect_id r ≠ "";
  al_authorized : let a := er_authorization r in ea_receipt_valid a = true ∧
    ea_subject_id a = er_subject_id r ∧ ea_effect_id a = er_effect_id r ∧ ea_authority_id a ≠ "";
  al_domain : NoDup (obligation_ids r) ∧ "" ∉ obligation_ids r ∧ NoDup (er_observed_effect_ids r);
  al_coverage : ∀ e, e ∈ obligation_ids r ↔ e ∈ er_observed_effect_ids r;
  al_inside : er_effect_id r ∈ obligation_ids r;
  al_duplicate : er_outcome r = DUPLICATE → committed_before r;
  al_recoverable : is_recovery r → ∀ o, o ∈ er_declared_obligations r →
    eo_reversibility o = REVERSIBLE ∨ (eo_reversibility o = COMPENSABLE ∧ compensated r o);
  al_recovery : let v := er_recovery r in re_receipt_valid v = true ∧
    re_transaction_id v = er_transaction_id r ∧ re_claimant_id v ≠ "" ∧
    re_claimant_id v = re_fence_owner_id v ∧ re_phase v ≠ PHASE_APPLYING
}.

(** What each reason means. *)
Inductive EffectDefect (r : ConstrainedEffectRequest) : string → Prop :=
| de_identity : er_request_id r = "" ∨ er_transaction_id r = "" ∨ er_effect_id r = "" →
    EffectDefect r "missing-effect-identity"
| de_authorization : ea_receipt_valid (er_authorization r) = false →
    EffectDefect r "authorization-receipt-invalid"
| de_subject : ea_subject_id (er_authorization r) ≠ er_subject_id r →
    EffectDefect r "authorization-subject-mismatch"
| de_effect : ea_effect_id (er_authorization r) ≠ er_effect_id r →
    EffectDefect r "authorization-effect-mismatch"
| de_authority : ea_authority_id (er_authorization r) = "" →
    EffectDefect r "authorization-authority-missing"
| de_domain : "" ∈ obligation_ids r ∨ ¬ NoDup (obligation_ids r) ∨
    ¬ NoDup (er_observed_effect_ids r) → EffectDefect r "effect-domain-invalid"
| de_coverage e : ¬ (e ∈ obligation_ids r ↔ e ∈ er_observed_effect_ids r) →
    EffectDefect r "effect-domain-coverage-incomplete"
| de_outside : er_effect_id r ∉ obligation_ids r →
    EffectDefect r "requested-effect-outside-domain"
| de_duplicate : er_outcome r = DUPLICATE → ¬ committed_before r →
    EffectDefect r "duplicate-without-prior-commit"
| de_irreversible o : is_recovery r → o ∈ er_declared_obligations r →
    eo_reversibility o = IRREVERSIBLE → EffectDefect r "irreversible-effect-not-recoverable"
| de_compensation o : is_recovery r → o ∈ er_declared_obligations r →
    eo_reversibility o = COMPENSABLE → ¬ compensated r o →
    EffectDefect r "compensation-evidence-missing"
| de_recovery : re_receipt_valid (er_recovery r) = false →
    EffectDefect r "recovery-receipt-invalid"
| de_transaction : re_transaction_id (er_recovery r) ≠ er_transaction_id r →
    EffectDefect r "recovery-transaction-mismatch"
| de_fence : re_claimant_id (er_recovery r) = "" ∨
    re_claimant_id (er_recovery r) ≠ re_fence_owner_id (er_recovery r) →
    EffectDefect r "recovery-fence-not-exclusive"
| de_phase : re_phase (er_recovery r) = PHASE_APPLYING → EffectDefect r "recovery-not-terminal".

Lemma defect_excludes r reason : EffectDefect r reason → ¬ EffectAllowed r.
Proof.
  intros Hd [[? [? ?]] [? [? [? ?]]] [? [? ?]] ? ? ? Hr [? [? [? [? ?]]]]].
  destruct Hd; try tauto; try naive_solver congruence.
Qed.

Lemma has_valid_prior_commit_spec r : has_valid_prior_commit r = true ↔ committed_before r.
Proof.
  unfold has_valid_prior_commit, committed_before. rewrite existsb_exists.
  setoid_rewrite list_elem_of_In. setoid_rewrite andb_true_iff. setoid_rewrite andb_true_iff.
  setoid_rewrite bool_decide_eq_true. naive_solver.
Qed.
Lemma has_valid_compensation_spec r o : has_valid_compensation r o = true ↔ compensated r o.
Proof.
  unfold has_valid_compensation, compensated. rewrite existsb_exists.
  setoid_rewrite list_elem_of_In. setoid_rewrite andb_true_iff. setoid_rewrite andb_true_iff.
  setoid_rewrite bool_decide_eq_true. naive_solver.
Qed.
Lemma same_set_spec a b : same_set a b = true ↔ ∀ x, x ∈ a ↔ x ∈ b.
Proof.
  unfold same_set. rewrite andb_true_iff, !forallb_forall. setoid_rewrite bool_decide_eq_true.
  setoid_rewrite <-list_elem_of_In. naive_solver.
Qed.

Definition table (os : list EffectObligation) : dict string EffectObligation :=
  (λ o, (eo_effect_id o, o)) <$> os.

Lemma dkeys_table os : dkeys (table os) = eo_effect_id <$> os.
Proof. unfold dkeys, table. by rewrite <-list_fmap_compose. Qed.
Lemma snd_table os : snd <$> table os = os.
Proof. unfold table. rewrite <-list_fmap_compose. apply list_fmap_id. Qed.

(** The loop over the obligations accepts exactly distinct, non-empty names. *)
Lemma declare_obligations os : ∀ seen,
  (foldM declare_obligation (table seen) os = Ok (table (seen ++ os)) ∧
     "" ∉ eo_effect_id <$> os ∧ NoDup (eo_effect_id <$> os) ∧
     ∀ o, o ∈ os → eo_effect_id o ∉ eo_effect_id <$> seen) ∨
  (foldM declare_obligation (table seen) os = Raise "effect-domain-invalid" ∧
     ("" ∈ eo_effect_id <$> os ∨ ¬ NoDup (eo_effect_id <$> (seen ++ os)))).
Proof.
  induction os as [|o os IH]; intros seen.
  { left. rewrite app_nil_r. split_and!; [done|apply not_elem_of_nil|constructor|].
    by intros o ?%not_elem_of_nil. }
  cbn [foldM]. unfold declare_obligation at 2 4.
  destruct (decide (eo_effect_id o = "")) as [E|E].
  { right. rewrite (proj2 (is_empty_true _) E). split; [done|]. left. apply elem_of_cons. by left. }
  rewrite (proj2 (is_empty_false _) E). cbn [orb].
  destruct (dmem (eo_effect_id o) (table seen)) eqn:Hm; cbn [negb require mbind result_bind].
  { right. split; [done|]. right. apply dmem_spec in Hm. rewrite dkeys_table in Hm.
    rewrite fmap_app. intros (_ & Hd & _)%NoDup_app. apply (Hd _ Hm). apply elem_of_cons. by left. }
  assert (eo_effect_id o ∉ eo_effect_id <$> seen) as Hfresh.
  { rewrite <-dkeys_table. apply dget_None. by apply dmem_false. }
  rewrite (dset_fresh (table seen)); [|by apply dmem_false].
  replace (table seen ++ [(eo_effect_id o, o)]) with (table (seen ++ [o]))
    by (unfold table; by rewrite fmap_app).
  destruct (IH (seen ++ [o])) as [(-> & Hne & Hnd & Hall)|(-> & Hbad)].
  - left. rewrite <-app_assoc. csimpl. split_and!; [done| | |].
    + by rewrite not_elem_of_cons.
    + apply NoDup_cons_2; [|done]. intros (o' & Heq & Hin)%list_elem_of_fmap.
      apply (Hall o' Hin). rewrite <-Heq, fmap_app. apply elem_of_app. right. by left.
    + intros o' [->|Hin]%elem_of_cons; [done|]. intros Hbad. apply (Hall o' Hin).
      rewrite fmap_app. apply elem_of_app. by left.
  - right. split; [done|]. rewrite <-app_assoc in Hbad. csimpl.
    destruct Hbad as [?|?]; [left; by right|by right].
Qed.

(** The four groups of guards. *)
Ltac defect :=
  to_props; econstructor; first [eassumption | tauto].

Lemma check_identity_cases r :
  (check_identity r = Ok () ∧
     (er_request_id r ≠ "" ∧ er_transaction_id r ≠ "" ∧ er_effect_id r ≠ "") ∧
     let a := er_authorization r in ea_receipt_valid a = true ∧
       ea_subject_id a = er_subject_id r ∧ ea_effect_id a = er_effect_id r ∧ ea_authority_id a ≠ "")
  ∨ ∃ reason, check_identity r = Raise reason ∧ EffectDefect r reason.
Proof.
  destruct (check_identity r) as [[]|reason] eqn:Hc; unfold check_identity in Hc; cbv zeta in Hc.
  - left. guards. to_props. by split_and!.
  - right. exists reason. split; [done|]. repeat (first_guard; [|solve [defect]]). first_guard. defect.
Qed.

Lemma check_domain_cases r :
  (check_domain r = Ok (table (er_declared_obligations r)) ∧
     (NoDup (obligation_ids r) ∧ "" ∉ obligation_ids r ∧ NoDup (er_observed_effect_ids r)) ∧
     (∀ e, e ∈ obligation_ids r ↔ e ∈ er_observed_effect_ids r) ∧
     er_effect_id r ∈ obligation_ids r)
  ∨ ∃ reason, check_domain r = Raise reason ∧ EffectDefect r reason.
Proof.
  unfold check_domain. destruct (declare_obligations (er_declared_obligations r) [])
    as [(E & Hne & Hnd & _)|(E & Hbad)]; cbn [table fmap list_fmap app] in E; rewrite E.
  2:{ right. eexists. split; [done|]. apply de_domain. destruct Hbad; [by left|by right; left]. }
  cbn [mbind result_bind]. rewrite dkeys_table. fold (obligation_ids r) in *.
  match goal with |- context [require ?c "effect-domain-invalid"] => destruct c eqn:Hlen end.
  2:{ right. eexists. split; [done|]. apply de_domain. right; right. intros Hobs.
      apply Nat.eqb_neq in Hlen. by apply Hlen, length_remove_dups_NoDup. }
  apply Nat.eqb_eq, length_remove_dups_NoDup in Hlen. cbn [require mbind result_bind].
  match goal with |- context [require ?c "effect-domain-coverage-incomplete"] =>
    destruct c eqn:Hcov end; cbn [require mbind result_bind].
  2:{ right. eexists. split; [done|]. apply not_true_iff_false in Hcov. rewrite same_set_spec in Hcov.
      setoid_rewrite elem_of_remove_dups in Hcov.
      destruct (decide (Forall (λ e, e ∈ er_observed_effect_ids r) (obligation_ids r))) as [H1|H1].
      - destruct (decide (Forall (λ e, e ∈ obligation_ids r) (er_observed_effect_ids r))) as [H2|H2].
        + destruct Hcov. rewrite Forall_forall in H1, H2. naive_solver.
        + apply not_Forall_Exists, Exists_exists in H2 as (e & He & Hn); [|apply _].
          apply (de_coverage r e). naive_solver.
      - apply not_Forall_Exists, Exists_exists in H1 as (e & He & Hn); [|apply _].
        apply (de_coverage r e). naive_solver. }
  rewrite same_set_spec in Hcov. setoid_rewrite elem_of_remove_dups in Hcov.
  match goal with |- context [require ?c "requested-effect-outside-domain"] =>
    destruct c eqn:Hin end; cbn [require mbind result_bind].
  - left. split_and!; try done. apply dmem_spec in Hin. by rewrite dkeys_table in Hin.
  - right. eexists. split; [done|]. apply de_outside. apply dmem_false, dget_None in Hin.
    by rewrite dkeys_table in Hin.
Qed.

Lemma check_recovery_cases r :
  (check_recovery r = Ok () ∧ let v := er_recovery r in re_receipt_valid v = true ∧
     re_transaction_id v = er_transaction_id r ∧ re_claimant_id v ≠ "" ∧
     re_claimant_id v = re_fence_owner_id v ∧ re_phase v ≠ PHASE_APPLYING)
  ∨ ∃ reason, check_recovery r = Raise reason ∧ EffectDefect r reason.
Proof.
  destruct (check_recovery r) as [[]|reason] eqn:Hc; unfold check_recovery in Hc; cbv zeta in Hc.
  - left. guards. to_props. cbv zeta. split_and!; try done. intros Hp.
    rewrite Hp in Hc. unfold TERMINAL_RECOVERY_PHASES in Hc.
    rewrite !elem_of_cons, elem_of_nil in Hc. naive_solver.
  - right. exists reason. split; [done|]. repeat (first_guard; [|solve [defect]]).
    first_guard. to_props. apply de_phase. destruct (re_phase (er_recovery r)); [..|done];
      match goal with H : _ ∉ _ |- _ => destruct H end; by repeat constructor.
Qed.

Lemma check_outcome_cases r :
  (check_outcome r (table (er_declared_obligations r)) = Ok () ∧
     (er_outcome r = DUPLICATE → committed_before r) ∧
     (is_recovery r → ∀ o, o ∈ er_declared_obligations r →
        eo_reversibility o = REVERSIBLE ∨ (eo_reversibility o = COMPENSABLE ∧ compensated r o)))
  ∨ ∃ reason, check_outcome r (table (er_declared_obligations r)) = Raise reason ∧
      EffectDefect r reason.
Proof.
  unfold check_outcome. rewrite snd_table.
  match goal with |- context [require ?c "duplicate-without-prior-commit"] =>
    destruct c eqn:Hdup end; cbn [require mbind result_bind].
  2:{ right. eexists. split; [done|]. to_props. apply de_duplicate; [done|].
      rewrite <-has_valid_prior_commit_spec. congruence. }
  assert (er_outcome r = DUPLICATE → committed_before r) as Hd.
  { intros Ho. apply has_valid_prior_commit_spec. rewrite Ho in Hdup. simpl in Hdup.
    by destruct (has_valid_prior_commit r). }
  clear Hdup.
  destruct (decide (er_outcome r ∈ [ROLLED_BACK; RECOVERED])) as [Hrec|Hrec].
  2:{ rewrite (bool_decide_eq_false_2 _ Hrec). left. split_and!; [done..|]. intros H.
      destruct Hrec. rewrite !elem_of_cons. destruct H; auto. }
  rewrite (bool_decide_eq_true_2 _ Hrec).
  assert (is_recovery r) as Hr.
  { unfold is_recovery. rewrite !elem_of_cons, elem_of_nil in Hrec. tauto. }
  match goal with |- context [require (negb ?c) "irreversible-effect-not-recoverable"] =>
    destruct c eqn:Hirr end; cbn [negb require mbind result_bind].
  { right. eexists. split; [done|]. apply existsb_exists in Hirr as (o & Ho & Hk). to_props.
    by apply (de_irreversible r o); [|apply list_elem_of_In|]. }
  match goal with |- context [require (negb ?c) "compensation-evidence-missing"] =>
    destruct c eqn:Hcomp end; cbn [negb require].
  { right. eexists. split; [done|]. apply existsb_exists in Hcomp as (o & Ho & Hk). to_props.
    apply (de_compensation r o); [done|by apply list_elem_of_In|done|].
    rewrite <-has_valid_compensation_spec. congruence. }
  left. split_and!; [done..|]. intros _ o Ho%list_elem_of_In.
  pose proof (existsb_none _ _ Hirr o Ho) as H1. pose proof (existsb_none _ _ Hcomp o Ho) as H2.
  cbv beta in H1, H2. to_props; (destruct (eo_reversibility o); [by left| |done]); try done.
  right. split; [done|]. by apply has_valid_compensation_spec.
Qed.

Lemma effect_guards_cases r :
  (effect_guards r = Ok () ∧ EffectAllowed r) ∨
  ∃ reason, effect_guards r = Raise reason ∧ EffectDefect r reason.
Proof.
  unfold effect_guards.
  destruct (check_identity_cases r) as [(-> & Hi & Ha)|(reason & -> & Hd)]; [|by right; eexists].
  destruct (check_domain_cases r) as [(E & Hd & Hc & Hin)|(reason & E & Hd)];
    cbn [mbind result_bind]; rewrite E; [|by right; eexists].
  destruct (check_outcome_cases r) as [(E' & Hdup & Hrec)|(reason & E' & Hd')];
    cbn [mbind result_bind]; rewrite E'; [|by right; eexists].
  destruct (check_recovery_cases r) as [(-> & Hv)|(reason & -> & Hd')]; cbn [mbind result_bind];
    [left|by right; eexists].
  split; [done|]. by split.
Qed.

(** C35. [evaluate_constrained_effect] admits exactly the effects that are
    allowed: authorised for this subject and effect, in a domain of distinct
    obligations that is exactly what was observed, a duplicate only of a
    committed transaction, a rollback or recovery only when every effect of the
    domain can be reversed or was compensated, with an exclusive and ended
    recovery.  The reason of a rejection is a true statement about the request,
    and no allowed request has a defect. *)
Theorem effect_admitted_iff_allowed (r : ConstrainedEffectRequest) :
  let d := evaluate_constrained_effect r in
  (ed_admitted d = true ↔ EffectAllowed r) ∧
  (ed_admitted d = false → EffectDefect r (ed_reason_kind d)) ∧
  (∀ reason, EffectDefect r reason → ¬ EffectAllowed r) ∧
  (ed_request_id d, ed_transaction_id d, ed_effect_id d)
    = (er_request_id r, er_transaction_id r, er_effect_id r).
Proof.
  unfold evaluate_constrained_effect. pose proof (defect_excludes r) as Hex.
  destruct (effect_guards_cases r) as [[-> Hal]|(reason & -> & Hd)]; cbn; naive_solver.
Qed.
End EffectFacts.

(** ** Authority declarations *)

Module AuthorityFacts.
Import Admission.Authority.

(** When a declaration carries authority. *)
Record Authorized (r : AuthorityDeclarationRequest) : Prop := {
  at_declared : ad_request_id r ≠ "" ∧ ad_declared_role r ≠ "";
  at_human : au_issuer_kind (ad_receipt r) = HUMAN_AUTHORITY;
  at_receipt : let c := ad_receipt r in au_receipt_valid c = true ∧ au_receipt_id c ≠ "" ∧
    au_delegation_root c ≠ "" ∧ au_responsibility_acceptance_digest c ≠ "";
  at_scope : au_authority_act (ad_receipt r) = ad_requested_act r ∧
    au_subject (ad_receipt r) = ad_current_subject r;
  at_now : au_valid_from_epoch (ad_receipt r) <= ad_current_epoch r
    <= au_valid_until_epoch (ad_receipt r);
  at_standing e : au_revoked_at_epoch (ad_receipt r) = Some e → ad_current_epoch r < e;
  at_duties : NoDup (actor_ids (ad_actors r)) ∧ "" ∉ actor_ids (ad_actors r);
  at_approver : aa_approver_id (ad_actors r) = au_issuer_id (ad_receipt r);
  at_independent : ad_candidate_id r ∉ actor_ids (ad_actors r) ∧
    au_issuer_id (ad_receipt r) ≠ ad_provider_id r
}.

Inductive AuthorityDefect (r : AuthorityDeclarationRequest) : string → Prop :=
| df_incomplete : ad_request_id r = "" ∨ ad_declared_role r = "" →
    AuthorityDefect r "authority-declaration-incomplete"
| df_provider : au_issuer_kind (ad_receipt r) = AI_PROVIDER →
    AuthorityDefect r "ai-provider-non-authority"
| df_engine : au_issuer_kind (ad_receipt r) ≠ HUMAN_AUTHORITY →
    AuthorityDefect r "analysis-engine-non-authority"
| df_invalid : au_receipt_valid (ad_receipt r) = false → AuthorityDefect r "authority-receipt-invalid"
| df_identity : au_receipt_id (ad_receipt r) = "" ∨ au_issuer_id (ad_receipt r) = "" →
    AuthorityDefect r "authority-receipt-identity-missing"
| df_dependent : au_issuer_id (ad_receipt r) ∈ [ad_candidate_id r; ad_provider_id r] →
    AuthorityDefect r "authority-not-independent"
| df_act : au_authority_act (ad_receipt r) ≠ ad_requested_act r →
    AuthorityDefect r "authority-act-mismatch"
| df_subject : au_subject (ad_receipt r) ≠ ad_current_subject r →
    AuthorityDefect r "authority-subject-mismatch"
| df_stale : ¬ (au_valid_from_epoch (ad_receipt r) <= ad_current_epoch r
    <= au_valid_until_epoch (ad_receipt r)) → AuthorityDefect r "authority-context-stale"
| df_revoked e : au_revoked_at_epoch (ad_receipt r) = Some e → e <= ad_current_epoch r →
    AuthorityDefect r "authority-revoked"
| df_delegation : au_delegation_root (ad_receipt r) = "" →
    AuthorityDefect r "delegation-root-missing"
| df_responsibility : au_responsibility_acceptance_digest (ad_receipt r) = "" →
    AuthorityDefect r "responsibility-acceptance-missing"
| df_duties : "" ∈ actor_ids (ad_actors r) ∨ ¬ NoDup (actor_ids (ad_actors r)) →
    AuthorityDefect r "separation-of-duties-violated"
| df_approver : aa_approver_id (ad_actors r) ≠ au_issuer_id (ad_receipt r) →
    AuthorityDefect r "approver-authority-mismatch"
| df_candidate : ad_candidate_id r ∈ actor_ids (ad_actors r) →
    AuthorityDefect r "candidate-participates-in-authority-chain".

Lemma approver_is_actor a : aa_approver_id a ∈ actor_ids a.
Proof. right. by left. Qed.

Lemma authority_defect_excludes r reason : AuthorityDefect r reason → ¬ Authorized r.
Proof.
  intros Hd [[? ?] Hh [? [? [? ?]]] [? ?] ? Hs [? ?] Ha [Hc Hp]].
  pose proof (approver_is_actor (ad_actors r)) as Hin. rewrite Ha in Hin.
  destruct Hd as [| | | | [?|Hi] |Hi| | | |e He Hle| | |[]| |]; try congruence; try tauto.
  - rewrite !elem_of_cons, elem_of_nil in Hi. destruct Hi as [Hi|[Hi|[]]]; [|done].
    by rewrite Hi in Hin.
  - specialize (Hs e He). lia.
Qed.

Lemma distinct_actors a :
  (length (remove_dups (actor_ids a)) =? 3)%nat = true ↔ NoDup (actor_ids a).
Proof. rewrite Nat.eqb_eq. apply (length_remove_dups_NoDup (actor_ids a)). Qed.

Ltac authority_defect := to_props; econstructor; first [eassumption | tauto | lia].

Lemma authority_guards_cases r :
  ((_ ← check_receipt r; check_actors r) = Ok () ∧ Authorized r) ∨
  ∃ reason, (_ ← check_receipt r; check_actors r) = Raise reason ∧ AuthorityDefect r reason.
Proof.
  destruct (check_receipt r) as [[]|reason] eqn:Hr; unfold check_receipt in Hr; cbv zeta in Hr.
  2:{ right. exists reason. split; [done|]. repeat (first_guard; [|solve [authority_defect]]).
      first_guard. authority_defect. }
  cbn [mbind result_bind].
  destruct (check_actors r) as [[]|reason] eqn:Ha; unfold check_actors in Ha; cbv zeta in Ha.
  - left. split; [done|]. guards. to_props.
    repeat match goal with H : context [remove_dups] |- _ =>
      first [rewrite elem_of_remove_dups in H | apply distinct_actors in H] end.
    match goal with H : _ ∉ [_; _] |- _ => rewrite !not_elem_of_cons in H end.
    split; cbv zeta; try tauto; try lia. intros e He.
    match goal with H : match _ with _ => _ end = false |- _ => rewrite He in H end. lia.
  - right. exists reason. split; [done|]. first_guard; [|apply df_stale; apply andb_false_iff in E; lia].
    first_guard.
    2:{ destruct (au_revoked_at_epoch (ad_receipt r)) as [e|] eqn:He; [|done].
        apply (df_revoked r e He). to_props. lia. }
    first_guard; [|authority_defect]. first_guard; [|authority_defect]. first_guard.
    2:{ apply df_duties. apply negb_false_iff, orb_true_iff in E3 as [E3|E3].
        - left. apply bool_decide_eq_true in E3. by rewrite elem_of_remove_dups in E3.
        - right. rewrite <-distinct_actors. by destruct (length _ =? 3)%nat. }
    first_guard; [|authority_defect]. first_guard. to_props. apply df_candidate.
    by rewrite elem_of_remove_dups in *.
Qed.

(** [evaluate_authority_declaration_admission] admits exactly the
    declarations that carry authority: a valid human receipt for this act and
    subject, in its time and not revoked, with three different actors of whom
    the approver issued it and none is the candidate.  The reason of a
    rejection is a true statement about the request, no request that carries
    authority has a defect, and once the receipt has ended or was revoked no
    later request on it is admitted. *)
Theorem authority_admitted_iff_authorized (r : AuthorityDeclarationRequest) :
  let d := evaluate_authority_declaration_admission r in
  (aad_admitted d = true ↔ Authorized r) ∧
  (aad_admitted d = false → AuthorityDefect r (aad_reason_kind d)) ∧
  (∀ reason, AuthorityDefect r reason → ¬ Authorized r) ∧
  (∀ later, ad_receipt later = ad_receipt r → ad_current_epoch r <= ad_current_epoch later →
     aad_reason_kind d = "authority-revoked" ∨
     au_valid_until_epoch (ad_receipt r) < ad_current_epoch r →
     aad_admitted (evaluate_authority_declaration_admission later) = false).
Proof.
  assert (∀ r, aad_admitted (evaluate_authority_declaration_admission r) = true ↔ Authorized r) as Hiff.
  { intros q. unfold evaluate_authority_declaration_admission.
    destruct (authority_guards_cases q) as [[-> Ha]|(reason & -> & Hd%authority_defect_excludes)];
      cbn; naive_solver. }
  assert (∀ r, aad_admitted (evaluate_authority_declaration_admission r) = false →
    AuthorityDefect r (aad_reason_kind (evaluate_authority_declaration_admission r))) as Hrej.
  { intros q. unfold evaluate_authority_declaration_admission.
    destruct (authority_guards_cases q) as [[-> Ha]|(reason & -> & Hd)]; by cbn. }
  cbv zeta. split_and!; [apply Hiff|apply Hrej|apply authority_defect_excludes|].
  intros later Heq Hle Hend. apply not_true_iff_false. rewrite Hiff. intros [_ _ _ _ Hnow Hs _ _ _].
  rewrite Heq in Hnow, Hs. destruct Hend as [Hr|?]; [|lia].
  destruct (aad_admitted (evaluate_authority_declaration_admission r)) eqn:Hadm.
  - revert Hadm Hr. unfold evaluate_authority_declaration_admission.
    destruct (authority_guards_cases r) as [[-> _]|(reason & -> & _)]; by cbn.
  - apply Hrej in Hadm. rewrite Hr in Hadm. inversion Hadm as [| | | | | | | | |e He Hepoch| | | | |].
    specialize (Hs e He). lia.
Qed.
End AuthorityFacts.

(** ** Providers *)

Module ProviderFacts.
Import Admission.Provider.

Definition provenance (c : AnalysisCandidateV1) : list string :=
  [ac_candidate_id c; pi_provider_id (ac_provider c); pi_model_id (ac_provider c);
   pi_input_context_id (ac_provider c); pi_generation_version (ac_provider c)].

Lemma validation_errors_nil p : validation_errors p = [] ↔
  Forall (λ s, is_blank s = false)
    [pi_provider_id p; pi_model_id p; pi_input_context_id p; pi_generation_version p].
Proof.
  unfold validation_errors. rewrite !Forall_cons, Forall_nil. cbn [filter list_filter snd].
  destruct (is_blank (pi_provider_id p)), (is_blank (pi_model_id p)),
    (is_blank (pi_input_context_id p)), (is_blank (pi_generation_version p));
    cbn; split; intros H; try done; by destruct H as (? & ? & ? & ? & ?).
Qed.

(** [evaluate_provider_admission] admits a candidate exactly when every
    identifier of its provenance has a visible character and an authority that
    is named, granted the role and is not an AI provider stands behind it.  A
    policy that looks at the role alone would also admit every candidate an AI
    provider grants itself; the trace records that answer and the decision
    never follows it. *)
Theorem provider_admission_is_independent (c : AnalysisCandidateV1) (a : AuthorityEnvelopeV1)
    (role : AuthorityRole) :
  let t := evaluate_provider_admission c a role in
  (de_admitted (tr_decision t) = true ↔
     Forall (λ s, ustrip s ≠ "") (ae_issuer_id a :: provenance c) ∧
     ae_issuer_kind a ≠ AI_PROVIDER ∧ role ∈ ae_grants a) ∧
  (tr_role_only_would_admit t = true ↔ role ∈ ae_grants a) ∧
  (de_admitted (tr_decision t) = true → tr_role_only_would_admit t = true) ∧
  (ae_issuer_kind a = AI_PROVIDER → Forall (λ s, ustrip s ≠ "") (provenance c) →
     de_reason_kind (tr_decision t) = "ai-provider-non-authority").
Proof.
  assert (∀ s, is_blank s = false ↔ ustrip s ≠ "") as Hb by (intros; apply is_empty_false).
  unfold evaluate_provider_admission, provider_guards, provenance, role_only_admission. cbv zeta.
  pose proof (validation_errors_nil (ac_provider c)) as Hv.
  rewrite !Forall_cons, Forall_nil in Hv. rewrite !Forall_cons, Forall_nil, <-!Hb.
  destruct (bool_decide_reflect (role ∈ ae_grants a)) as [Hr|Hr];
  (destruct (is_blank (ac_candidate_id c)); [cbn; intuition congruence|];
   destruct (bool_decide_reflect (validation_errors (ac_provider c) = [])) as [Hve|Hve];
   [|rewrite Hv in Hve; cbn; intuition congruence];
   apply Hv in Hve as (? & ? & ? & ? & _);
   destruct (bool_decide_reflect (ae_issuer_kind a = AI_PROVIDER)) as [Hk|Hk]; [cbn; intuition congruence|];
   destruct (is_blank (ae_issuer_id a)); cbn; intuition congruence).
Qed.
End ProviderFacts.

(** * The recorded replays of the security decisions
    ([embodied_ai_constrained_effect_replay.py],
    [embodied_ai_authority_declaration_replay.py],
    [embodied_ai_provider_non_authority_replay.py],
    [embodied_ai_security_change_impact_replay.py])

    Each module builds fixed requests, evaluates them and prints a receipt.  The
    receipt binds the bytes of the implementation file, [implementation] here;
    [main] prints it. *)

(** What the three receipts have in common. *)
Definition replay_payload (digest : string) (claim module function schema : string)
    (cases : list Json) : list (string * Json) :=
  let artifact := "src/poo_flow_proof/" +:+ module in
  [("cases", JList cases); ("claimId", JStr claim);
   ("implementationArtifactDigest", JStr digest); ("implementationArtifactId", JStr artifact);
   ("referenceTransitionId", JStr ("python://" +:+ artifact +:+ "#item/function/" +:+ function));
   ("schemaId", JStr schema)].

(** ** Constrained effects *)

Module EffectReplay.
Import Admission.Effect.

Definition canonical_effect_request : ConstrainedEffectRequest :=
  MkEffectRequest "ease001-request-1" "ease001-transaction-1" "robot-motion-stack:v1" "motor-command"
    RECOVERED
    (MkAuthorization "motion-safety-authority" "robot-motion-stack:v1" "motor-command" true)
    [MkObligation "motor-command" COMPENSABLE; MkObligation "audit-event" REVERSIBLE]
    ["audit-event"; "motor-command"]
    [MkPriorCommit "ease001-transaction-1" "motor-command" true]
    [MkCompensation "ease001-transaction-1" "motor-command" true]
    (MkRecovery "ease001-transaction-1" "recovery-owner-1" "recovery-owner-1" PHASE_COMPENSATED true).

(** [dataclasses.replace] for the fields the cases replace. *)
Definition with_observed ids (r : ConstrainedEffectRequest) : ConstrainedEffectRequest :=
  MkEffectRequest (er_request_id r) (er_transaction_id r) (er_subject_id r) (er_effect_id r)
    (er_outcome r) (er_authorization r) (er_declared_obligations r) ids (er_prior_commits r)
    (er_compensation_receipts r) (er_recovery r).
Definition with_outcome outcome commits (r : ConstrainedEffectRequest) : ConstrainedEffectRequest :=
  MkEffectRequest (er_request_id r) (er_transaction_id r) (er_subject_id r) (er_effect_id r)
    outcome (er_authorization r) (er_declared_obligations r) (er_observed_effect_ids r) commits
    (er_compensation_receipts r) (er_recovery r).
Definition with_compensation receipts (r : ConstrainedEffectRequest) : ConstrainedEffectRequest :=
  MkEffectRequest (er_request_id r) (er_transaction_id r) (er_subject_id r) (er_effect_id r)
    (er_outcome r) (er_authorization r) (er_declared_obligations r) (er_observed_effect_ids r)
    (er_prior_commits r) receipts (er_recovery r).
Definition with_obligations obligations (r : ConstrainedEffectRequest) : ConstrainedEffectRequest :=
  MkEffectRequest (er_request_id r) (er_transaction_id r) (er_subject_id r) (er_effect_id r)
    (er_outcome r) (er_authorization r) obligations (er_observed_effect_ids r) (er_prior_commits r)
    (er_compensation_receipts r) (er_recovery r).
Definition with_recovery recovery (r : ConstrainedEffectRequest) : ConstrainedEffectRequest :=
  MkEffectRequest (er_request_id r) (er_transaction_id r) (er_subject_id r) (er_effect_id r)
    (er_outcome r) (er_authorization r) (er_declared_obligations r) (er_observed_effect_ids r)
    (er_prior_commits r) (er_compensation_receipts r) recovery.

Definition effect_replay_cases : list (string * ConstrainedEffectRequest) :=
  let valid := canonical_effect_request in
  let recovery := er_recovery valid in
  [("authorized-only-domain-gap", with_observed [] valid);
   ("duplicate-without-prior-commit", with_outcome DUPLICATE [] valid);
   ("compensation-evidence-missing", with_compensation [] valid);
   ("irreversible-effect-not-recoverable",
     with_obligations (MkObligation "motor-command" IRREVERSIBLE
                       :: tail (er_declared_obligations valid)) valid);
   ("recovery-fence-not-exclusive",
     with_recovery (MkRecovery (re_transaction_id recovery) (re_claimant_id recovery) "other-owner"
                      (re_phase recovery) (re_receipt_valid recovery)) valid);
   ("recovery-not-terminal",
     with_recovery (MkRecovery (re_transaction_id recovery) (re_claimant_id recovery)
                      (re_fence_owner_id recovery) PHASE_APPLYING (re_receipt_valid recovery)) valid);
   ("constrained-effect-admitted", valid)].

Definition effect_case_record (m : string * ConstrainedEffectRequest) : Json :=
  let decision := evaluate_constrained_effect m.2 in
  JObj [("admitted", JBool (ed_admitted decision));
        ("authorizationOnlyWouldAdmit", JBool (authorization_only_countermodel m.2));
        ("caseId", JStr m.1); ("effectId", JStr (ed_effect_id decision));
        ("reasonKind", JStr (ed_reason_kind decision));
        ("requestId", JStr (ed_request_id decision));
        ("transactionId", JStr (ed_transaction_id decision))].

Definition canonical_effect_receipt (sha256_hex : string → string) (implementation : string) : Json :=
  let payload := replay_payload (sha256_digest sha256_hex implementation) "EASE-001"
    "embodied_ai_constrained_effect.py" "evaluate_constrained_effect"
    "poo-flow.ai-security.ease001-replay-receipt.v1" (effect_case_record <$> effect_replay_cases) in
  JObj (payload ++ [("traceRoot", JStr (sha256_digest sha256_hex (write_json_ascii (JObj payload))))]).

End EffectReplay.

(** ** Authority declarations *)

Module AuthorityReplay.
Import Admission.Authority.

Definition act_value (a : AuthorityAct) : string :=
  match a with
  | DECLARATION => "declaration-authority"
  | EXECUTION => "execution-authority"
  | EVIDENCE => "evidence-authority"
  | VERIFICATION => "verification-authority"
  | RESIDUAL_RISK => "residual-risk-acceptance-authority"
  | RECOVERY => "recovery-authority"
  end.

Definition canonical_authority_request (requested_act : AuthorityAct) : AuthorityDeclarationRequest :=
  let subject := MkSubject "humanoid-architecture-v1" "sha256:bundle-v1" "motion-safety-policy-v1"
    "robot-motion-stack" (act_value requested_act) 17 in
  let receipt := MkAuthorityReceipt ("receipt-" +:+ act_value requested_act)
    "human-safety-authority-1" HUMAN_AUTHORITY requested_act subject 10 20 None true
    "delegation-root-v1" "sha256:responsibility-v1" in
  MkDeclarationRequest ("request-" +:+ act_value requested_act) "ai-provider-candidate-1"
    "ai-provider-candidate-1" requested_act subject 17 (act_value requested_act) receipt
    (MkActors "human-proposer-1" "human-safety-authority-1" "human-executor-1").

Definition with_receipt receipt (r : AuthorityDeclarationRequest) : AuthorityDeclarationRequest :=
  MkDeclarationRequest (ad_request_id r) (ad_candidate_id r) (ad_provider_id r) (ad_requested_act r)
    (ad_current_subject r) (ad_current_epoch r) (ad_declared_role r) receipt (ad_actors r).
(** [replace(receipt, issuer_id=..., issuer_kind=..., authority_act=..., receipt_valid=...)]. *)
Definition receipt_like (c : AuthorityReceipt) issuer kind act valid : AuthorityReceipt :=
  MkAuthorityReceipt (au_receipt_id c) issuer kind act (au_subject c) (au_valid_from_epoch c)
    (au_valid_until_epoch c) (au_revoked_at_epoch c) valid (au_delegation_root c)
    (au_responsibility_acceptance_digest c).

Definition authority_replay_cases : list (string * AuthorityDeclarationRequest) :=
  let valid := canonical_authority_request EXECUTION in
  let c := ad_receipt valid in
  [("provider-role-only-rejected",
     with_receipt (receipt_like c (ad_provider_id valid) AI_PROVIDER (au_authority_act c)
                     (au_receipt_valid c)) valid);
   ("matching-fields-wrong-authority-act",
     with_receipt (receipt_like c (au_issuer_id c) (au_issuer_kind c) VERIFICATION
                     (au_receipt_valid c)) valid);
   ("stale-subject-context-rejected",
     MkDeclarationRequest (ad_request_id valid) (ad_candidate_id valid) (ad_provider_id valid)
       (ad_requested_act valid) (ad_current_subject valid) 21 (ad_declared_role valid)
       (ad_receipt valid) (ad_actors valid));
   ("self-approval-rejected",
     MkDeclarationRequest (ad_request_id valid) (ad_candidate_id valid) (ad_provider_id valid)
       (ad_requested_act valid) (ad_current_subject valid) (ad_current_epoch valid)
       (ad_declared_role valid) (ad_receipt valid)
       (MkActors (aa_approver_id (ad_actors valid)) (aa_approver_id (ad_actors valid))
          (aa_executor_id (ad_actors valid))));
   ("invalid-receipt-rejected",
     with_receipt (receipt_like c (au_issuer_id c) (au_issuer_kind c) (au_authority_act c) false)
       valid);
   ("authority-bearing-declaration-admitted", valid)].

Definition authority_case_record (m : string * AuthorityDeclarationRequest) : Json :=
  let decision := evaluate_authority_declaration_admission m.2 in
  JObj [("admitted", JBool (aad_admitted decision));
        ("authorityId", JStr (aad_authority_id decision)); ("caseId", JStr m.1);
        ("providerFieldsMatch", JBool (provider_fields_match_countermodel m.2));
        ("reasonKind", JStr (aad_reason_kind decision));
        ("requestedAct", JStr (act_value (aad_requested_act decision)));
        ("rolesPopulated", JBool (roles_populated_countermodel m.2))].

Definition canonical_authority_receipt (sha256_hex : string → string) (implementation : string) : Json :=
  let payload := replay_payload (sha256_digest sha256_hex implementation) "EASE-002"
    "embodied_ai_authority_declaration.py" "evaluate_authority_declaration_admission"
    "poo-flow.ai-security.ease002-replay-receipt.v1" (authority_case_record <$> authority_replay_cases) in
  JObj (payload ++ [("traceRoot", JStr (sha256_digest sha256_hex (write_json_ascii (JObj payload))))]).

End AuthorityReplay.

(** ** Providers *)

Module ProviderReplay.
Import Admission.Provider.

Definition issuer_value (k : IssuerKind) : string :=
  match k with
  | AI_PROVIDER => "ai-provider"
  | HUMAN_AUTHORITY => "human-authority"
  | ORGANIZATIONAL_AUTHORITY => "organizational-authority"
  end.
Definition role_value (r : AuthorityRole) : string :=
  match r with
  | EFFECT_AUTHORIZATION => "effect-authorization"
  | VERIFICATION_DISCHARGE => "verification-discharge"
  | RESIDUAL_RISK_ACCEPTANCE => "residual-risk-acceptance"
  end.
(** [AuthorityRole], as the sequence of its members. *)
Definition all_roles : list AuthorityRole :=
  [EFFECT_AUTHORIZATION; VERIFICATION_DISCHARGE; RESIDUAL_RISK_ACCEPTANCE].

Definition provider_candidate : AnalysisCandidateV1 :=
  MkCandidate "ease005-candidate-1"
    (MkProvider "ease005-provider-1" "ease005-model-1" "ease005-context-1" "ease005-generation-1").

(** [case_id], the authority and the role of the cases. *)
Definition provider_replay_cases : list (string * (AuthorityEnvelopeV1 * AuthorityRole)) :=
  let provider_authority := MkEnvelope AI_PROVIDER "ease005-provider-1" all_roles in
  ((λ role, ("provider-rejected-" +:+ role_value role, (provider_authority, role))) <$> all_roles)
  ++ [("independent-human-verification-admitted",
        (MkEnvelope HUMAN_AUTHORITY "ease005-reviewer-1" [VERIFICATION_DISCHARGE],
         VERIFICATION_DISCHARGE))].

Definition provider_case_record (m : string * (AuthorityEnvelopeV1 * AuthorityRole)) : Json :=
  let '(case_id, (authority, role)) := m in
  let trace := evaluate_provider_admission provider_candidate authority role in
  JObj [("caseId", JStr case_id); ("issuerKind", JStr (issuer_value (ae_issuer_kind authority)));
        ("authorityId", JStr (ae_issuer_id authority)); ("role", JStr (role_value role));
        ("roleOnlyWouldAdmit", JBool (tr_role_only_would_admit trace));
        ("admitted", JBool (de_admitted (tr_decision trace)));
        ("reasonKind", JStr (de_reason_kind (tr_decision trace)));
        ("providerId", JStr (de_provider_id (tr_decision trace)))].

Definition build_ease005_replay_receipt (sha256_hex : string → string) (implementation : string) :
    Json :=
  let payload := replay_payload (sha256_digest sha256_hex implementation) "EASE-005"
    "embodied_ai_provider_non_authority.py" "evaluate_provider_admission"
    "poo-flow.ai-security.ease005-replay-receipt.v1" (provider_case_record <$> provider_replay_cases) in
  JObj (payload ++ [("traceRoot", JStr (sha256_digest sha256_hex (write_json_ascii (JObj payload))))]).

End ProviderReplay.

(** ** The impact of a change *)

Module ImpactReplay.

Definition canonical_graph : TypedRelationGraph :=
  let relation spec :=
    let '(relation_id, (kind, (source_id, target_id))) := spec in
    MkArchitectureRelation relation_id kind source_id target_id true
      ["typed-owner"; "receipt-root"] in
  MkTypedRelationGraph "embodied-ai-security-graph-v1"
    [MkArchitectureNode "robot-motion-stack" SYSTEM_COMPONENT;
     MkArchitectureNode "motion-authority" ASSET;
     MkArchitectureNode "command-injection" THREAT;
     MkArchitectureNode "uncommanded-motion" RISK;
     MkArchitectureNode "require-signed-command" SECURITY_REQUIREMENT;
     MkArchitectureNode "command-admission-control" CONTROL;
     MkArchitectureNode "command-admission-test" VERIFICATION_EVIDENCE;
     MkArchitectureNode "residual-motion-risk" RESIDUAL_RISK;
     MkArchitectureNode "safety-owner-acceptance" AUTHORITY_ACCEPTANCE;
     MkArchitectureNode "motion-runtime-feedback" RUN_FEEDBACK]
    (relation <$>
     [("r01", (OWNS, ("robot-motion-stack", "motion-authority")));
      ("r02", (EXPOSED_TO, ("motion-authority", "command-injection")));
      ("r03", (REALIZES, ("command-injection", "uncommanded-motion")));
      ("r04", (DERIVES, ("uncommanded-motion", "require-signed-command")));
      ("r05", (IMPLEMENTED_BY, ("require-signed-command", "command-admission-control")));
      ("r06", (VERIFIED_BY, ("command-admission-control", "command-admission-test")));
      ("r07", (LEAVES, ("uncommanded-motion", "residual-motion-risk")));
      ("r08", (ACCEPTED_BY, ("residual-motion-risk", "safety-owner-acceptance")));
      ("r09", (OBSERVED_BY, ("robot-motion-stack", "motion-runtime-feedback")))]).

(** What [main] prints. *)
Definition impact_text (sha256_hex : string → string) : option (result Exn string) :=
  answer ← project_change_impact sha256_hex canonical_graph ["robot-motion-stack"];
  Some (receipt ← answer; Ok (write_json_ascii (receipt_dict receipt))).

End ImpactReplay.

(** ** What the replays show *)

(** The replays decide their fixed cases as their names say, whatever SHA-256
    and the bytes of the implementation are: every case but the last is
    rejected, for the reason listed, and the last is admitted, while the unsafe
    policies the code keeps for comparison admit all of them.  A change of the root component of the canonical graph affects
    all ten nodes. *)
Theorem replays_refute_unsafe_policies :
  ((λ m, (Effect.ed_reason_kind (Effect.evaluate_constrained_effect m.2),
          Effect.authorization_only_countermodel m.2)) <$> EffectReplay.effect_replay_cases)
   = [("effect-domain-coverage-incomplete", true); ("duplicate-without-prior-commit", true);
      ("compensation-evidence-missing", true); ("irreversible-effect-not-recoverable", true);
      ("recovery-fence-not-exclusive", true); ("recovery-not-terminal", true);
      ("constrained-system-effect-admitted", true)] ∧
  ((λ m, let d := Authority.evaluate_authority_declaration_admission m.2 in
         (Authority.aad_reason_kind d,
          Authority.roles_populated_countermodel m.2 && Authority.provider_fields_match_countermodel m.2))
     <$> AuthorityReplay.authority_replay_cases)
   = [("ai-provider-non-authority", true); ("authority-act-mismatch", true);
      ("authority-context-stale", true); ("separation-of-duties-violated", true);
      ("authority-receipt-invalid", true); ("authority-bearing-declaration-admitted", true)] ∧
  ((λ m, let t := Provider.evaluate_provider_admission ProviderReplay.provider_candidate m.2.1 m.2.2 in
         (Provider.de_reason_kind (Provider.tr_decision t), Provider.tr_role_only_would_admit t))
     <$> ProviderReplay.provider_replay_cases)
   = [("ai-provider-non-authority", true); ("ai-provider-non-authority", true);
      ("ai-provider-non-authority", true); ("independent-authority-admitted", true)] ∧
  ∀ sha256_hex, ∃ r,
    project_change_impact sha256_hex ImpactReplay.canonical_graph ["robot-motion-stack"] = Some (Ok r) ∧
    length (ci_affected_node_ids r) = 10%nat ∧
    ci_invalidated_evidence_ids r = ["command-admission-test"] ∧
    ci_invalidated_acceptance_ids r = ["safety-owner-acceptance"] ∧
    ci_reopened_verification_obligations r = ["verify:command-admission-control"].
Proof.
  split_and!; [by vm_compute..|]. intros sha256_hex.
  unfold project_change_impact, impact_receipt.
  generalize (graph_digest sha256_hex ImpactReplay.canonical_graph), (ascii_digest sha256_hex).
  intros digest root. eexists. split; [vm_compute; reflexivity|]. by vm_compute.
Qed.
