(* ===== verification/Refinement.v ===== *)
(** * Reference transitions and evidence verification
    ([ai_security_executable_refinement.py])

    (In [src/packages/proofs/python/src/poo_flow_proof/].)  A typed envelope of an
    agent's action is checked against a policy by a deterministic transition,
    whose receipt binds the envelope and the outcome; evidence is verified in
    four stages by callables of the caller.  Parameters: SHA-256, [repr] of
    containers, and the callables, which read and change a world [W] and may
    raise.  [isinstance] of values whose type is fixed here is not modelled. *)

From Stdlib Require Import Ascii.
From S2P Require Import Prelude PyDict GraphTypes Receipts Text Merkle EvidenceModel SchemeDatum Sort ReceiptGraph Json.

Definition ACTION_EVIDENCE_ENVELOPE_SCHEMA_ID : string :=
  "poo-flow.ai-security.action-evidence-envelope.v1".
Definition EXECUTABLE_TRANSITION_RECEIPT_SCHEMA_ID : string :=
  "poo-flow.ai-security.executable-transition-receipt.v1".
Definition EVIDENCE_CONTENT_VERIFICATION_SCHEMA_ID : string :=
  "poo-flow.ai-security.evidence-content-verification.v1".
Definition SCHEMA_VERSION : string := "1".

Definition RefinementError (msg : string) : Exn := PyError "RefinementValidationError" msg.

(** ** Validation *)

Definition refinement_require_nonempty (name value : string) : result Exn unit :=
  require (negb (bool_decide (ustrip value = "")))
    (RefinementError (name +:+ " must be a non-empty string")).

(** [value.partition(":")]. *)
Fixpoint partition_colon (s : string) : string * bool * string :=
  match s with
  | EmptyString => ("", false, "")
  | String c s =>
      if Ascii.eqb c ":" then ("", true, s)
      else let '(prefix, found, rest) := partition_colon s in (String c prefix, found, rest)
  end.

(** The number of characters of a text: its bytes but those that continue one. *)
Fixpoint text_length (s : string) : nat :=
  match s with
  | EmptyString => 0
  | String c s =>
      let n := nat_of_ascii c in
      if ((128 <=? n) && (n <=? 191))%nat then text_length s else S (text_length s)
  end.

Definition refinement_require_digest (name value : string) : result Exn unit :=
  let wrong := RefinementError (name +:+ " must be a sha256 digest") in
  _ ← refinement_require_nonempty name value;
  let '(prefix, separator, digest) := partition_colon value in
  _ ← require (separator && bool_decide (prefix = "sha256") && (text_length digest =? 64)%nat) wrong;
  require (is_ok (fromhex digest)) wrong.

Definition canonical_strings (name : string) (values : list string) : result Exn (list string) :=
  _ ← foldM (λ _ value, refinement_require_nonempty name value) () values;
  let canonical := sort_by str_leb (remove_dups values) in
  _ ← require (bool_decide (canonical = values))
        (RefinementError (name +:+ " must be unique and canonically sorted"));
  Ok canonical.

(** ** Envelopes *)

Record AgentActionEvidenceEnvelope : Type := MkEnvelope {
  en_action_id : string;
  en_observation_event_id : string;
  en_recovery_decision_id : string;
  en_actor_identity : string;
  en_tool_identity : string;
  en_capability_id : string;
  en_effect_domain : string;
  en_evidence_root : string;
  en_requested_effects : list string;
  en_allowed_effects : list string;
  en_parent_action_id : option string;
  en_trace_parent_root : option string;
  en_schema_id : string;
  en_schema_version : string
}.

(** The checks of a parent action and its trace root, in both classes. *)
Definition check_parent (message action_name root_name : string) (action root : option string) :
    result Exn unit :=
  _ ← require (Bool.eqb (bool_decide (action = None)) (bool_decide (root = None)))
        (RefinementError message);
  match action, root with
  | Some action, Some root =>
      _ ← refinement_require_nonempty action_name action; refinement_require_digest root_name root
  | _, _ => Ok ()
  end.

Definition envelope_texts (e : AgentActionEvidenceEnvelope) : list (string * string) :=
  [("action_id", en_action_id e); ("observation_event_id", en_observation_event_id e);
   ("recovery_decision_id", en_recovery_decision_id e); ("actor_identity", en_actor_identity e);
   ("tool_identity", en_tool_identity e); ("capability_id", en_capability_id e);
   ("effect_domain", en_effect_domain e)].

Definition envelope_valid (e : AgentActionEvidenceEnvelope) : result Exn unit :=
  _ ← require (bool_decide (en_schema_id e = ACTION_EVIDENCE_ENVELOPE_SCHEMA_ID))
        (RefinementError "unsupported action envelope schema");
  _ ← require (bool_decide (en_schema_version e = SCHEMA_VERSION))
        (RefinementError "unsupported action envelope version");
  _ ← foldM (λ _ m, refinement_require_nonempty m.1 m.2) () (envelope_texts e);
  _ ← refinement_require_digest "evidence_root" (en_evidence_root e);
  _ ← canonical_strings "requested_effects" (en_requested_effects e);
  _ ← canonical_strings "allowed_effects" (en_allowed_effects e);
  check_parent "parent_action_id and trace_parent_root must be present together"
    "parent_action_id" "trace_parent_root" (en_parent_action_id e) (en_trace_parent_root e).

Definition envelope_fields (e : AgentActionEvidenceEnvelope) : dict string Value :=
  [("schemaId", VStr (en_schema_id e)); ("schemaVersion", VStr (en_schema_version e));
   ("actionId", VStr (en_action_id e)); ("parentActionId", v_opt_str (en_parent_action_id e));
   ("observationEventId", VStr (en_observation_event_id e));
   ("recoveryDecisionId", VStr (en_recovery_decision_id e));
   ("actorIdentity", VStr (en_actor_identity e)); ("toolIdentity", VStr (en_tool_identity e));
   ("capabilityId", VStr (en_capability_id e)); ("effectDomain", VStr (en_effect_domain e));
   ("evidenceRoot", VStr (en_evidence_root e));
   ("traceParentRoot", v_opt_str (en_trace_parent_root e));
   ("requestedEffects", v_str_list (en_requested_effects e));
   ("allowedEffects", v_str_list (en_allowed_effects e))].

(** [AgentActionEvidenceEnvelope.canonical_record]. *)
Definition envelope_record (e : AgentActionEvidenceEnvelope) : result Exn (dict string Value) :=
  _ ← envelope_valid e; Ok (envelope_fields e).

(** ** The Scheme projection *)

(** [for item in v]. *)
Fixpoint characters (s : string) : list string :=
  match s with
  | EmptyString => []
  | String c s =>
      match characters s, s with
      | first :: rest, String d _ =>
          if ((128 <=? nat_of_ascii d) && (nat_of_ascii d <=? 191))%nat
          then String c first :: rest else String c "" :: first :: rest
      | rest, _ => String c "" :: rest
      end
  end.
Definition py_iter (v : Value) : result Exn (list Value) :=
  match v with
  | VList l | VTuple l => Ok l
  | VDict d => Ok (VStr <$> dkeys d)
  | VStr s => Ok (VStr <$> characters s)
  | VBytes b => Ok ((λ c, VInt (Z.of_nat (nat_of_ascii c))) <$> String.list_ascii_of_string b)
  | _ => Raise (TypeError "object is not iterable")
  end.

Definition PROJECTION_KEYS : list string :=
  ["schemaId"; "schemaVersion"; "actionId"; "parentActionId"; "observationEventId";
   "recoveryDecisionId"; "actorIdentity"; "toolIdentity"; "capabilityId"; "effectDomain";
   "evidenceRoot"; "traceParentRoot"; "requestedEffects"; "allowedEffects"].

Section projection.
Context (repr : Value → string).

Definition item (d : dict string Value) (key : string) : result Exn Value :=
  of_option (KeyError key) (dget key d).
Definition projected_text (d : dict string Value) (key : string) : result Exn string :=
  py_str repr <$> item d key.
Definition projected_option (d : dict string Value) (key : string) : result Exn (option string) :=
  (λ v, if is_none v then None else Some (py_str repr v)) <$> item d key.
Definition projected_texts (d : dict string Value) (key : string) : result Exn (list string) :=
  v ← item d key; items ← py_iter v; Ok (map (py_str repr) items).

Definition envelope_from_scheme_projection (projection : dict string Value) :
    result Exn AgentActionEvidenceEnvelope :=
  let keys := dkeys projection in
  let missing := sort_by str_leb (filter (λ k, k ∉ keys) PROJECTION_KEYS) in
  let unexpected := sort_by str_leb (filter (λ k, k ∉ PROJECTION_KEYS) keys) in
  _ ← require (bool_decide (missing = []) && bool_decide (unexpected = []))
        (RefinementError ("Scheme envelope projection mismatch: missing=" +:+ repr_list missing
           +:+ ", unexpected=" +:+ repr_list unexpected));
  schema_id ← projected_text projection "schemaId";
  schema_version ← projected_text projection "schemaVersion";
  action_id ← projected_text projection "actionId";
  parent_action_id ← projected_option projection "parentActionId";
  observation_event_id ← projected_text projection "observationEventId";
  recovery_decision_id ← projected_text projection "recoveryDecisionId";
  actor_identity ← projected_text projection "actorIdentity";
  tool_identity ← projected_text projection "toolIdentity";
  capability_id ← projected_text projection "capabilityId";
  effect_domain ← projected_text projection "effectDomain";
  evidence_root ← projected_text projection "evidenceRoot";
  trace_parent_root ← projected_option projection "traceParentRoot";
  requested_effects ← projected_texts projection "requestedEffects";
  allowed_effects ← projected_texts projection "allowedEffects";
  let envelope := MkEnvelope action_id observation_event_id recovery_decision_id actor_identity
    tool_identity capability_id effect_domain evidence_root requested_effects allowed_effects
    parent_action_id trace_parent_root schema_id schema_version in
  _ ← envelope_valid envelope; Ok envelope.
End projection.

(** ** The reference transition *)

Record TransitionPolicy : Type := MkPolicy {
  tp_granted_capabilities : list string;
  tp_expected_tool_identity : string;
  tp_allowed_effect_domains : list string;
  tp_expected_parent_action_id : option string;
  tp_expected_trace_parent_root : option string
}.
Definition policy_valid (p : TransitionPolicy) : result Exn unit :=
  _ ← canonical_strings "granted_capabilities" (tp_granted_capabilities p);
  _ ← refinement_require_nonempty "expected_tool_identity" (tp_expected_tool_identity p);
  _ ← canonical_strings "allowed_effect_domains" (tp_allowed_effect_domains p);
  check_parent "policy parent action and trace root must be present together"
    "expected_parent_action_id" "expected_trace_parent_root"
    (tp_expected_parent_action_id p) (tp_expected_trace_parent_root p).

Record InvariantEvidence : Type := MkInvariant {
  iv_invariant : string;
  iv_satisfied : bool;
  iv_reason : string
}.
#[global] Instance invariant_eq_dec : EqDecision InvariantEvidence.
Proof. solve_decision. Defined.
Definition invariant_record (i : InvariantEvidence) : Value :=
  VDict [("invariant", VStr (iv_invariant i)); ("satisfied", VBool (iv_satisfied i));
         ("reason", VStr (iv_reason i))].

Record ExecutableTransitionReceipt : Type := MkTransitionReceipt {
  xr_envelope_digest : string;
  xr_decision : string;
  xr_invariants : list InvariantEvidence;
  xr_escalation_reasons : list string;
  xr_output_digest : string;
  xr_trace_root : string;
  xr_schema_id : string;
  xr_schema_version : string
}.
#[global] Instance transition_receipt_eq_dec : EqDecision ExecutableTransitionReceipt.
Proof. solve_decision. Defined.
Definition transition_record (r : ExecutableTransitionReceipt) : dict string Value :=
  [("schemaId", VStr (xr_schema_id r)); ("schemaVersion", VStr (xr_schema_version r));
   ("envelopeDigest", VStr (xr_envelope_digest r)); ("decision", VStr (xr_decision r));
   ("invariants", VList (invariant_record <$> xr_invariants r));
   ("escalationReasons", v_str_list (xr_escalation_reasons r));
   ("outputDigest", VStr (xr_output_digest r)); ("traceRoot", VStr (xr_trace_root r))].

(** An [InvariantEvidence] whose reason depends on its condition. *)
Definition evidence_of (invariant : string) (satisfied : bool) (yes no : string) : InvariantEvidence :=
  MkInvariant invariant satisfied (if satisfied then yes else no).

Definition transition_checks (e : AgentActionEvidenceEnvelope) (p : TransitionPolicy) :
    list InvariantEvidence :=
  [evidence_of "capability-confinement" (bool_decide (en_capability_id e ∈ tp_granted_capabilities p))
     "capability is explicitly granted" "capability is outside the granted set";
   evidence_of "tool-identity" (bool_decide (en_tool_identity e = tp_expected_tool_identity p))
     "tool identity matches policy" "tool identity does not match policy";
   evidence_of "effect-containment"
     (bool_decide (en_effect_domain e ∈ tp_allowed_effect_domains p)
      && forallb (λ r, bool_decide (r ∈ en_allowed_effects e)) (en_requested_effects e))
     "effect domain and requested effects are contained"
     "effect domain or requested effects escape containment";
   evidence_of "causal-continuity"
     (bool_decide (en_parent_action_id e = tp_expected_parent_action_id p)
      && bool_decide (en_trace_parent_root e = tp_expected_trace_parent_root p))
     "parent action and trace root are continuous"
     "parent action or trace root breaks causal continuity"].

Section transition.
Context (sha256_hex : string → string).

(** [_sha256_bytes(_canonical_json(value))]. *)
Definition refinement_canonical_json (value : dict string Value) : result Exn string :=
  v ← json_of (VDict value); canonical_json v.
Definition record_digest (value : dict string Value) : result Exn string :=
  sha256_digest sha256_hex <$> refinement_canonical_json value.

Definition envelope_digest (e : AgentActionEvidenceEnvelope) : result Exn string :=
  fields ← envelope_record e; record_digest fields.

Definition execute_reference_transition (e : AgentActionEvidenceEnvelope) (p : TransitionPolicy) :
    result Exn ExecutableTransitionReceipt :=
  _ ← envelope_valid e;
  _ ← policy_valid p;
  let checks := transition_checks e p in
  let failures := iv_invariant <$> filter (λ i, iv_satisfied i = false) checks in
  let decision := if bool_decide (failures = []) then "accepted" else "fail-closed" in
  envelope_digest ← envelope_digest e;
  output_digest ← record_digest
    [("decision", VStr decision); ("invariants", VList (invariant_record <$> checks));
     ("escalationReasons", v_str_list failures)];
  trace_root ← record_digest
    [("envelopeDigest", VStr envelope_digest); ("outputDigest", VStr output_digest);
     ("evidenceRoot", VStr (en_evidence_root e));
     ("traceParentRoot", v_opt_str (en_trace_parent_root e))];
  Ok (MkTransitionReceipt envelope_digest decision checks failures output_digest trace_root
        EXECUTABLE_TRANSITION_RECEIPT_SCHEMA_ID SCHEMA_VERSION).

Definition replay_reference_transition (e : AgentActionEvidenceEnvelope) (p : TransitionPolicy)
    (receipt : ExecutableTransitionReceipt) : result Exn ExecutableTransitionReceipt :=
  replayed ← execute_reference_transition e p;
  _ ← require (bool_decide (replayed = receipt))
        (RefinementError "transition receipt does not match independent replay");
  Ok replayed.
End transition.

(** ** The verification of evidence *)

Record IssuerAssertion : Type := MkAssertion {
  is_issuer_identity : string;
  is_key_identity : string;
  is_signature : string
}.
Record TransparencyProof : Type := MkProof {
  tr_log_identity : string;
  tr_leaf_digest : string;
  tr_inclusion_path : list string
}.
Record EvidenceVerificationRequest : Type := MkVerificationRequest {
  ev_artifact : string;
  ev_expected_digest : string;
  ev_expected_schema_id : string;
  ev_decoded_payload : dict string Value;
  ev_issuer_assertion : option IssuerAssertion;
  ev_transparency_proof : option TransparencyProof
}.
Record VerificationStageReceipt : Type := MkStage {
  st_stage : string;
  st_state : string;
  st_reason : string
}.
#[global] Instance stage_eq_dec : EqDecision VerificationStageReceipt.
Proof. solve_decision. Defined.
Definition stage_record (s : VerificationStageReceipt) : Value :=
  VDict [("stage", VStr (st_stage s)); ("state", VStr (st_state s)); ("reason", VStr (st_reason s))].

Record EvidenceContentVerificationReceipt : Type := MkVerificationReceipt {
  vr_artifact_digest : string;
  vr_expected_schema_id : string;
  vr_digest_integrity : VerificationStageReceipt;
  vr_schema_semantic_replay : VerificationStageReceipt;
  vr_issuer_authentication : VerificationStageReceipt;
  vr_transparency_inclusion : VerificationStageReceipt;
  vr_decision : string;
  vr_receipt_digest : string;
  vr_schema_id : string;
  vr_schema_version : string
}.
#[global] Instance verification_receipt_eq_dec : EqDecision EvidenceContentVerificationReceipt.
Proof. solve_decision. Defined.
Definition stage_records (r : EvidenceContentVerificationReceipt) : list VerificationStageReceipt :=
  [vr_digest_integrity r; vr_schema_semantic_replay r; vr_issuer_authentication r;
   vr_transparency_inclusion r].
Definition verification_record (r : EvidenceContentVerificationReceipt) : dict string Value :=
  [("schemaId", VStr (vr_schema_id r)); ("schemaVersion", VStr (vr_schema_version r));
   ("artifactDigest", VStr (vr_artifact_digest r));
   ("expectedSchemaId", VStr (vr_expected_schema_id r));
   ("digestIntegrity", stage_record (vr_digest_integrity r));
   ("schemaSemanticReplay", stage_record (vr_schema_semantic_replay r));
   ("issuerAuthentication", stage_record (vr_issuer_authentication r));
   ("transparencyInclusion", stage_record (vr_transparency_inclusion r));
   ("decision", VStr (vr_decision r)); ("receiptDigest", VStr (vr_receipt_digest r))].

(** A stage that was run. *)
Definition stage_of (stage : string) (ok : bool) (yes no : string) : VerificationStageReceipt :=
  MkStage stage (if ok then "verified" else "failed") (if ok then yes else no).

Section verify.
Context {W : Type} (sha256_hex : string → string).

(** [EvidenceContentVerifier]. *)
Record EvidenceContentVerifier : Type := MkVerifier {
  semantic_replayers : dict string (dict string Value → W → W * result Exn bool);
  issuer_authenticator : string → IssuerAssertion → W → W * result Exn bool;
  transparency_verifier : string → TransparencyProof → W → W * result Exn bool
}.

(** [try: ok = call() except Exception: ok = False]. *)
Definition attempt (answer : W * result Exn bool) : W * bool :=
  (answer.1, match answer.2 with Ok b => b | Raise _ => false end).

Definition digest_stage (q : EvidenceVerificationRequest) : VerificationStageReceipt :=
  stage_of "digest-integrity"
    (bool_decide (sha256_digest sha256_hex (ev_artifact q) = ev_expected_digest q))
    "artifact digest matches expected digest" "artifact digest mismatch".
Definition schema_stage (v : EvidenceContentVerifier) (q : EvidenceVerificationRequest) (w : W) :
    W * VerificationStageReceipt :=
  let schema_matches :=
    match dget "schemaId" (ev_decoded_payload q) with
    | Some (VStr s) => bool_decide (s = ev_expected_schema_id q)
    | _ => false
    end in
  let '(w, replay_ok) :=
    match dget (ev_expected_schema_id q) (semantic_replayers v) with
    | Some replayer => if schema_matches then attempt (replayer (ev_decoded_payload q) w) else (w, false)
    | None => (w, false)
    end in
  (w, stage_of "schema-semantic-replay" replay_ok "schema-specific semantic replay succeeded"
        "schema identity or semantic replay failed").
Definition issuer_stage (v : EvidenceContentVerifier) (q : EvidenceVerificationRequest) (w : W) :
    W * VerificationStageReceipt :=
  match ev_issuer_assertion q with
  | None => (w, MkStage "issuer-authentication" "not-provided" "issuer assertion is absent")
  | Some assertion =>
      let '(w, issuer_ok) := attempt (issuer_authenticator v (ev_artifact q) assertion w) in
      (w, stage_of "issuer-authentication" issuer_ok "issuer authentication succeeded"
            "issuer authentication failed")
  end.
Definition transparency_stage (v : EvidenceContentVerifier) (q : EvidenceVerificationRequest) (w : W) :
    W * VerificationStageReceipt :=
  match ev_transparency_proof q with
  | None => (w, MkStage "transparency-inclusion" "not-provided" "transparency proof is absent")
  | Some proof =>
      let '(w, inclusion_ok) :=
        attempt (transparency_verifier v (sha256_digest sha256_hex (ev_artifact q)) proof w) in
      (w, stage_of "transparency-inclusion" inclusion_ok "transparency inclusion succeeded"
            "transparency inclusion failed")
  end.

(** The end of [verify], with the four stages. *)
Definition verification_receipt (q : EvidenceVerificationRequest)
    (s1 s2 s3 s4 : VerificationStageReceipt) : result Exn EvidenceContentVerificationReceipt :=
  let stages := [s1; s2; s3; s4] in
  let artifact_digest := sha256_digest sha256_hex (ev_artifact q) in
  let decision := if forallb (λ s, bool_decide (st_state s = "verified")) stages
                  then "verified" else "fail-closed" in
  receipt_digest ← record_digest sha256_hex
    [("schemaId", VStr EVIDENCE_CONTENT_VERIFICATION_SCHEMA_ID);
     ("schemaVersion", VStr SCHEMA_VERSION); ("artifactDigest", VStr artifact_digest);
     ("expectedSchemaId", VStr (ev_expected_schema_id q));
     ("stages", VList (stage_record <$> stages)); ("decision", VStr decision)];
  Ok (MkVerificationReceipt artifact_digest (ev_expected_schema_id q) s1 s2 s3 s4 decision
        receipt_digest EVIDENCE_CONTENT_VERIFICATION_SCHEMA_ID SCHEMA_VERSION).

(** [EvidenceContentVerifier.verify]. *)
Definition verify_evidence (v : EvidenceContentVerifier) (q : EvidenceVerificationRequest) (w : W) :
    W * result Exn EvidenceContentVerificationReceipt :=
  match (_ ← refinement_require_digest "expected_digest" (ev_expected_digest q);
         refinement_require_nonempty "expected_schema_id" (ev_expected_schema_id q)) with
  | Raise e => (w, Raise e)
  | Ok _ =>
      let '(w, s2) := schema_stage v q w in
      let '(w, s3) := issuer_stage v q w in
      let '(w, s4) := transparency_stage v q w in
      (w, verification_receipt q (digest_stage q) s2 s3 s4)
  end.

Definition replay_evidence_content_verification (v : EvidenceContentVerifier)
    (q : EvidenceVerificationRequest) (receipt : EvidenceContentVerificationReceipt) (w : W) :
    W * result Exn EvidenceContentVerificationReceipt :=
  let '(w, answer) := verify_evidence v q w in
  (w, replayed ← answer;
      _ ← require (bool_decide (replayed = receipt))
            (RefinementError "evidence-content receipt does not match exact artifact replay");
      Ok replayed).
End verify.
Arguments EvidenceContentVerifier W : clear implicits.
