(* ===== verification/RefinementFacts.v ===== *)
(** * What a transition decides and what its receipt binds *)

From Stdlib Require Import Ascii.
From S2P Require Import Prelude PyDict GraphTypes Receipts Text Merkle EvidenceModel SchemeDatum Sort ReceiptGraph ReceiptGraphFacts ReceiptGraphTheorems Json JsonFacts Refinement.

(** ** The specification *)

Definition nonblank (s : string) : Prop := ustrip s ≠ "".
Definition digest_text (s : string) : Prop :=
  ∃ d, s = "sha256:" +:+ d ∧ text_length d = 64%nat ∧ is_Some (unhex d).
(** A tuple that lists a set: each element once, in order, none blank. *)
Definition listed_set (l : list string) : Prop :=
  NoDup l ∧ StronglySorted (ordered str_leb) l ∧ Forall nonblank l.
Definition parent_ok (action root : option string) : Prop :=
  match action, root with
  | None, None => True
  | Some action, Some root => nonblank action ∧ digest_text root
  | _, _ => False
  end.

Record EnvelopeOk (e : AgentActionEvidenceEnvelope) : Prop := {
  eo_schema : en_schema_id e = ACTION_EVIDENCE_ENVELOPE_SCHEMA_ID ∧ en_schema_version e = SCHEMA_VERSION;
  eo_texts : Forall (λ m, nonblank m.2) (envelope_texts e);
  eo_root : digest_text (en_evidence_root e);
  eo_effects : listed_set (en_requested_effects e) ∧ listed_set (en_allowed_effects e);
  eo_parent : parent_ok (en_parent_action_id e) (en_trace_parent_root e)
}.
Record PolicyOk (p : TransitionPolicy) : Prop := {
  po_capabilities : listed_set (tp_granted_capabilities p);
  po_tool : nonblank (tp_expected_tool_identity p);
  po_domains : listed_set (tp_allowed_effect_domains p);
  po_parent : parent_ok (tp_expected_parent_action_id p) (tp_expected_trace_parent_root p)
}.

(** What the four invariants promise. *)
Definition holds (e : AgentActionEvidenceEnvelope) (p : TransitionPolicy) (invariant : string) : Prop :=
  (invariant = "capability-confinement" ∧ en_capability_id e ∈ tp_granted_capabilities p) ∨
  (invariant = "tool-identity" ∧ en_tool_identity e = tp_expected_tool_identity p) ∨
  (invariant = "effect-containment" ∧ en_effect_domain e ∈ tp_allowed_effect_domains p ∧
     ∀ r, r ∈ en_requested_effects e → r ∈ en_allowed_effects e) ∨
  (invariant = "causal-continuity" ∧ en_parent_action_id e = tp_expected_parent_action_id p ∧
     en_trace_parent_root e = tp_expected_trace_parent_root p).
Definition INVARIANTS : list string :=
  ["capability-confinement"; "tool-identity"; "effect-containment"; "causal-continuity"].

(** The exceptions of this module, and that of encoding a text. *)
Definition module_error (e : Exn) : Prop :=
  (∃ msg, e = RefinementError msg) ∨ e = PyError "UnicodeEncodeError" "".
Definition fails_safely {A} (r : result Exn A) : Prop := ∀ e, r = Raise e → module_error e.

(** ** Validation decides the specification *)

Lemma require_nonempty_Ok name s : refinement_require_nonempty name s = Ok () ↔ nonblank s.
Proof.
  unfold refinement_require_nonempty, nonblank. rewrite require_Ok, negb_true_iff.
  apply bool_decide_eq_false.
Qed.

Lemma partition_colon_spec s prefix rest :
  partition_colon s = (prefix, true, rest) → s = prefix +:+ String ":" rest.
Proof.
  revert prefix rest. induction s as [|c s IH]; intros prefix rest; [done|]. cbn [partition_colon].
  destruct (Ascii.eqb c ":") eqn:Hc.
  - apply Ascii.eqb_eq in Hc as ->. by intros [= <- <-].
  - destruct (partition_colon s) as [[p f] r]. intros [= <- -> ->].
    by rewrite (IH p rest), sapp_cons.
Qed.

Lemma require_digest_Ok name s : refinement_require_digest name s = Ok () ↔ digest_text s.
Proof.
  unfold refinement_require_digest, digest_text. split.
  - intros H. apply bind_Ok in H as (? & _ & H).
    destruct (partition_colon s) as [[prefix found] d] eqn:E.
    apply bind_Ok in H as (? & H1%require_Ok & H2%require_Ok).
    apply andb_true_iff in H1 as [[-> Hp]%andb_true_iff Hl]. apply bool_decide_eq_true in Hp as ->.
    apply partition_colon_spec in E as ->. apply Nat.eqb_eq in Hl. exists d. split_and!; [done..|].
    unfold fromhex in H2. by destruct (unhex d); [eexists|].
  - intros (d & -> & Hl & [b Hb]). cbn [mbind result_bind].
    rewrite (proj2 (require_nonempty_Ok _ _)).
    2:{ unfold nonblank, ustrip. change ("sha256:" +:+ d) with (String "s" ("ha256:" +:+ d)).
        change (ulstrip 0 (String "s" ("ha256:" +:+ d))) with (String "s" ("ha256:" +:+ d)).
        cbn [urstrip]. by rewrite bool_decide_eq_false_2. }
    change (partition_colon ("sha256:" +:+ d)) with ("sha256", true, d).
    cbn [mbind result_bind]. rewrite Hl. unfold fromhex. rewrite Hb. done.
Qed.

Lemma canonical_strings_Ok name l k :
  canonical_strings name l = Ok k ↔ listed_set l ∧ k = l.
Proof.
  unfold canonical_strings, listed_set. rewrite bind_Ok. split.
  - intros ([] & Hl%foldM_check & H). apply bind_Ok in H as (? & H%require_Ok & [= <-]).
    apply bool_decide_eq_true in H. split; [|done]. apply sorted_set_id in H as [? ?].
    split_and!; [done..|]. eapply Forall_impl; [exact Hl|]. intros ?. apply require_nonempty_Ok.
  - intros [(Hnd & Hs & Hl) ->]. exists (). split.
    { apply foldM_check. eapply Forall_impl; [exact Hl|]. intros ?. apply require_nonempty_Ok. }
    cbn [mbind result_bind]. rewrite (proj2 (sorted_set_id l)) by done. by rewrite bool_decide_eq_true_2.
Qed.

Lemma check_parent_Ok message n1 n2 action root :
  check_parent message n1 n2 action root = Ok () ↔ parent_ok action root.
Proof.
  unfold check_parent, parent_ok. destruct action as [a|], root as [r|]; cbn [mbind result_bind];
    try (cbn; split; [discriminate|done]); [|cbn; tauto].
  rewrite !bool_decide_eq_false_2 by done. cbn [Bool.eqb require mbind result_bind].
  rewrite bind_Ok, <-(require_digest_Ok n2), <-(require_nonempty_Ok n1). split.
  - by intros ([] & -> & ->).
  - intros [-> ->]. by exists ().
Qed.

Lemma envelope_valid_Ok e : envelope_valid e = Ok () ↔ EnvelopeOk e.
Proof.
  unfold envelope_valid. split.
  - intros H. repeat match type of H with _ ≫= _ = _ =>
      let H' := fresh "H'" in apply bind_Ok in H as (? & H' & H) end.
    apply require_Ok, bool_decide_eq_true in H', H'0. apply canonical_strings_Ok in H'3 as [? _], H'4 as [? _].
    apply check_parent_Ok in H.
    destruct x1, x2. apply foldM_check in H'1. apply require_digest_Ok in H'2.
    split; try done. eapply Forall_impl; [exact H'1|]. intros [? ?].
    apply require_nonempty_Ok.
  - intros [[Hs Hv] Ht Hd [Hr Ha] Hp].
    rewrite Hs, Hv, !bool_decide_eq_true_2 by done. cbn [require mbind result_bind].
    rewrite (proj2 (foldM_check _ _)).
    2:{ eapply Forall_impl; [exact Ht|]. intros [? ?].
        apply require_nonempty_Ok. }
    cbn [mbind result_bind]. rewrite (proj2 (require_digest_Ok _ _) Hd). cbn [mbind result_bind].
    rewrite (proj2 (canonical_strings_Ok _ _ _) (conj Hr eq_refl)). cbn [mbind result_bind].
    rewrite (proj2 (canonical_strings_Ok _ _ _) (conj Ha eq_refl)). cbn [mbind result_bind].
    by apply check_parent_Ok.
Qed.

Lemma policy_valid_Ok p : policy_valid p = Ok () ↔ PolicyOk p.
Proof.
  unfold policy_valid. split.
  - intros H. repeat match type of H with _ ≫= _ = _ =>
      let H' := fresh "H'" in apply bind_Ok in H as (? & H' & H) end.
    apply canonical_strings_Ok in H' as [? _], H'1 as [? _]. destruct x0.
    apply require_nonempty_Ok in H'0. apply check_parent_Ok in H. by split.
  - intros [Hc Ht Hd Hp].
    rewrite (proj2 (canonical_strings_Ok _ _ _) (conj Hc eq_refl)). cbn [mbind result_bind].
    rewrite (proj2 (require_nonempty_Ok _ _) Ht). cbn [mbind result_bind].
    rewrite (proj2 (canonical_strings_Ok _ _ _) (conj Hd eq_refl)). cbn [mbind result_bind].
    by apply check_parent_Ok.
Qed.

(** ** What may be raised *)

Lemma fails_Ok {A} (a : A) : fails_safely (Ok a).
Proof. by intros e. Qed.
Lemma fails_bind {A B} (m : result Exn A) (f : A → result Exn B) :
  fails_safely m → (∀ a, fails_safely (f a)) → fails_safely (m ≫= f).
Proof. intros Hm Hf e. destruct m as [a|e']; [apply Hf|]. intros [= <-]. by apply Hm. Qed.
Lemma fails_require b msg : fails_safely (require b (RefinementError msg)).
Proof. intros e. destruct b; [done|]. intros [= <-]. left. by exists msg. Qed.
Lemma fails_check {A} (f : A → result Exn unit) l :
  (∀ x, fails_safely (f x)) → fails_safely (foldM (λ _ x, f x) () l).
Proof. intros Hf. induction l as [|x l IH]; [by apply fails_Ok|]. by apply fails_bind; [|intros []]. Qed.

Create HintDb safely.
#[local] Hint Resolve fails_Ok fails_bind fails_require fails_check : safely.

Lemma fails_nonempty name s : fails_safely (refinement_require_nonempty name s).
Proof. apply fails_require. Qed.
Lemma fails_digest name s : fails_safely (refinement_require_digest name s).
Proof.
  apply fails_bind; [apply fails_nonempty|]. intros _.
  destruct (partition_colon s) as [[prefix found] d]. auto with safely.
Qed.
#[local] Hint Resolve fails_nonempty fails_digest : safely.
Lemma fails_strings name l : fails_safely (canonical_strings name l).
Proof. unfold canonical_strings. auto 6 with safely. Qed.
Lemma fails_parent message n1 n2 action root : fails_safely (check_parent message n1 n2 action root).
Proof. apply fails_bind; [auto with safely|]. intros _. destruct action, root; auto with safely. Qed.
#[local] Hint Resolve fails_strings fails_parent : safely.
Lemma fails_envelope e : fails_safely (envelope_valid e).
Proof. unfold envelope_valid. auto 12 with safely. Qed.
Lemma fails_policy p : fails_safely (policy_valid p).
Proof. unfold policy_valid. auto 8 with safely. Qed.
Lemma fails_canonical v : fails_safely (canonical_json v).
Proof.
  unfold canonical_json, encode_utf8. apply fails_bind; [|auto with safely].
  intros e. destruct (utf8_valid _); [done|]. intros [= <-]. by right.
Qed.
#[local] Hint Resolve fails_envelope fails_policy fails_canonical : safely.

(** ** The records as JSON *)

Lemma json_of_strings (l : list string) : mapM json_of (VStr <$> l) = Ok (JStr <$> l).
Proof. induction l as [|s l IH]; [done|]. rewrite !fmap_cons. cbn [mapM]. by rewrite IH. Qed.
Lemma json_of_option o : json_of (v_opt_str o) = Ok (from_option JStr JNull o).
Proof. by destruct o. Qed.

Definition envelope_json (e : AgentActionEvidenceEnvelope) : dict string Json :=
  [("schemaId", JStr (en_schema_id e)); ("schemaVersion", JStr (en_schema_version e));
   ("actionId", JStr (en_action_id e));
   ("parentActionId", from_option JStr JNull (en_parent_action_id e));
   ("observationEventId", JStr (en_observation_event_id e));
   ("recoveryDecisionId", JStr (en_recovery_decision_id e));
   ("actorIdentity", JStr (en_actor_identity e)); ("toolIdentity", JStr (en_tool_identity e));
   ("capabilityId", JStr (en_capability_id e)); ("effectDomain", JStr (en_effect_domain e));
   ("evidenceRoot", JStr (en_evidence_root e));
   ("traceParentRoot", from_option JStr JNull (en_trace_parent_root e));
   ("requestedEffects", JList (JStr <$> en_requested_effects e));
   ("allowedEffects", JList (JStr <$> en_allowed_effects e))].

Lemma json_of_envelope e : json_of (VDict (envelope_fields e)) = Ok (JObj (envelope_json e)).
Proof.
  unfold envelope_fields, v_str_list. cbn [json_of mapM]. rewrite !json_of_option, !json_of_strings.
  done.
Qed.

Definition invariant_json (i : InvariantEvidence) : Json :=
  JObj [("invariant", JStr (iv_invariant i)); ("satisfied", JBool (iv_satisfied i));
        ("reason", JStr (iv_reason i))].
Definition output_json (decision : string) (checks : list InvariantEvidence) (failures : list string) :
    dict string Json :=
  [("decision", JStr decision); ("invariants", JList (invariant_json <$> checks));
   ("escalationReasons", JList (JStr <$> failures))].
Definition trace_json (envelope_digest output_digest root : string) (parent : option string) :
    dict string Json :=
  [("envelopeDigest", JStr envelope_digest); ("outputDigest", JStr output_digest);
   ("evidenceRoot", JStr root); ("traceParentRoot", from_option JStr JNull parent)].

Lemma json_of_invariants l : mapM json_of (invariant_record <$> l) = Ok (invariant_json <$> l).
Proof. induction l as [|i l IH]; [done|]. rewrite !fmap_cons. cbn [mapM]. by rewrite IH. Qed.
Lemma json_of_output decision checks failures :
  json_of (VDict [("decision", VStr decision); ("invariants", VList (invariant_record <$> checks));
     ("escalationReasons", v_str_list failures)]) = Ok (JObj (output_json decision checks failures)).
Proof. unfold v_str_list. cbn [json_of mapM]. by rewrite json_of_invariants, json_of_strings. Qed.
Lemma json_of_trace d1 d2 root parent :
  json_of (VDict [("envelopeDigest", VStr d1); ("outputDigest", VStr d2);
     ("evidenceRoot", VStr root); ("traceParentRoot", v_opt_str parent)])
  = Ok (JObj (trace_json d1 d2 root parent)).
Proof. cbn [json_of mapM]. by rewrite json_of_option. Qed.

(** ** A digest of a record binds its members *)

Ltac distinct_keys := refine (bool_decide_unpack (NoDup _) _); vm_compute; exact I.

Lemma well_formed_strings l : Forall (well_formed id) (JStr <$> l).
Proof. apply Forall_fmap, Forall_true. constructor. Qed.
Lemma well_formed_option (o : option string) : well_formed id (from_option JStr JNull o).
Proof. destruct o; constructor. Qed.
Lemma well_formed_invariants l : Forall (well_formed id) (invariant_json <$> l).
Proof.
  apply Forall_fmap, Forall_true. intros i. unfold compose. constructor; [distinct_keys|].
  repeat constructor.
Qed.
Ltac well_formed_object :=
  constructor; [distinct_keys|];
  repeat apply Forall_cons_2; try apply Forall_nil_2; cbn [snd];
  repeat first [apply well_formed_option | apply wf_list, well_formed_strings
               | apply wf_list, well_formed_invariants | apply wf_str].

Lemma envelope_json_wf e : well_formed id (JObj (envelope_json e)).
Proof. well_formed_object. Qed.
Lemma output_json_wf decision checks failures : well_formed id (JObj (output_json decision checks failures)).
Proof. well_formed_object. Qed.
Lemma trace_json_wf d1 d2 root parent : well_formed id (JObj (trace_json d1 d2 root parent)).
Proof. well_formed_object. Qed.

Lemma same_text v w : well_formed id v → well_formed id w → write_json v = write_json w → tidy v = tidy w.
Proof.
  intros Hv Hw E.
  pose proof (json_loads_tidy id (reject_duplicates KeyError) (reject_duplicates_Ok KeyError) v Hv) as H.
  rewrite E, (json_loads_tidy id _ (reject_duplicates_Ok KeyError) w Hw) in H. by injection H.
Qed.
Lemma same_member d1 d2 : well_formed id (JObj d1) → well_formed id (JObj d2) →
  write_json (JObj d1) = write_json (JObj d2) →
  ∀ k v w, dget k d1 = Some v → dget k d2 = Some w → tidy v = tidy w.
Proof.
  intros H1 H2 E k v w Hv Hw. pose proof (same_text _ _ H1 H2 E) as Ht. rewrite !tidy_obj in Ht.
  injection Ht as Ht. inversion H1; inversion H2; subst.
  pose proof (dget_tidy k d1 ltac:(done)) as Hk. rewrite Ht, dget_tidy, Hv, Hw in Hk by done.
  by injection Hk.
Qed.

(** ** Transitions *)

Definition failing (e : AgentActionEvidenceEnvelope) (p : TransitionPolicy) : list string :=
  iv_invariant <$> filter (λ i, iv_satisfied i = false) (transition_checks e p).

Lemma checks_decide e p i : i ∈ transition_checks e p →
  i ∈ transition_checks e p ∧ (iv_satisfied i = true ↔ holds e p (iv_invariant i)).
Proof.
  intros Hi. split; [done|]. unfold transition_checks in Hi.
  rewrite !elem_of_cons, elem_of_nil in Hi. unfold holds.
  destruct Hi as [-> | [-> | [-> | [-> | []]]]]; cbn [evidence_of iv_invariant iv_satisfied];
    rewrite ?andb_true_iff, ?forallb_forall, ?bool_decide_eq_true; try naive_solver.
  split.
  - intros [Hd Hr]. right; right; left. split_and!; [done..|]. intros r Hin%list_elem_of_In.
    by apply Hr, bool_decide_eq_true in Hin.
  - intros [[? _]|[[? _]|[(_ & Hd & Hr)|[? _]]]]; try done. split; [done|].
    intros r Hin%list_elem_of_In. apply bool_decide_eq_true. auto.
Qed.

Lemma check_named e p name : name ∈ INVARIANTS →
  ∃ i, i ∈ transition_checks e p ∧ iv_invariant i = name.
Proof.
  unfold INVARIANTS. rewrite !elem_of_cons, elem_of_nil. unfold transition_checks.
  intros [-> | [-> | [-> | [-> | []]]]]; eexists; split;
    [by left|done|by right; left|done|by do 2 right; left|done|by do 3 right; left|done].
Qed.

Lemma elem_of_failing e p name : name ∈ failing e p ↔ name ∈ INVARIANTS ∧ ¬ holds e p name.
Proof.
  unfold failing. rewrite list_elem_of_fmap. split.
  - intros (i & -> & [Hs Hi]%list_elem_of_filter). destruct (checks_decide e p i Hi) as [_ Hd].
    split; [|rewrite <-Hd; congruence].
    unfold transition_checks in Hi. rewrite !elem_of_cons, elem_of_nil in Hi.
    unfold INVARIANTS. rewrite !elem_of_cons.
    destruct Hi as [-> | [-> | [-> | [-> | []]]]]; cbn; tauto.
  - intros [Hn Hh].
    destruct (check_named e p name Hn) as (i & Hi & <-).
    exists i. split; [done|]. apply list_elem_of_filter. split; [|done].
    destruct (checks_decide e p i Hi) as [_ Hd]. destruct (iv_satisfied i); [|done].
    by destruct Hh; apply Hd.
Qed.

(** Every invariant is decided. *)
Lemma transition_decided e p name : name ∈ INVARIANTS → holds e p name ∨ ¬ holds e p name.
Proof.
  intros Hn. destruct (decide (name ∈ failing e p)) as [H|H]; rewrite elem_of_failing in H; [tauto|].
  left.
  assert (∃ i, i ∈ transition_checks e p ∧ iv_invariant i = name) as (i & Hi & <-)
    by by apply check_named.
  destruct (checks_decide e p i Hi) as [_ Hd]. apply Hd. destruct (iv_satisfied i) eqn:E; [done|].
  destruct H. split; [done|]. rewrite <-Hd. congruence.
Qed.

Section transition.
Context (sha256_hex : string → string).

(** The texts a transition hashes. *)
Definition envelope_text (e : AgentActionEvidenceEnvelope) : string :=
  write_json (JObj (envelope_json e)).
Definition output_text (e : AgentActionEvidenceEnvelope) (p : TransitionPolicy)
    (r : ExecutableTransitionReceipt) : string :=
  write_json (JObj (output_json (xr_decision r) (transition_checks e p) (failing e p))).
Definition trace_text (e : AgentActionEvidenceEnvelope) (r : ExecutableTransitionReceipt) : string :=
  write_json (JObj (trace_json (xr_envelope_digest r) (xr_output_digest r) (en_evidence_root e)
                      (en_trace_parent_root e))).
Definition transition_texts (e : AgentActionEvidenceEnvelope) (p : TransitionPolicy)
    (r : ExecutableTransitionReceipt) : list string :=
  [envelope_text e; output_text e p r; trace_text e r].

Lemma record_digest_Ok value d digest : json_of (VDict value) = Ok (JObj d) →
  record_digest sha256_hex value = Ok digest →
  digest = sha256_digest sha256_hex (write_json (JObj d)).
Proof.
  unfold record_digest, refinement_canonical_json, canonical_json, encode_utf8. intros ->.
  cbn [mbind result_bind]. destruct (utf8_valid _); by intros [= <-].
Qed.

Definition decision_of (e : AgentActionEvidenceEnvelope) (p : TransitionPolicy) : string :=
  if bool_decide (failing e p = []) then "accepted" else "fail-closed".

Lemma execute_Ok e p r : execute_reference_transition sha256_hex e p = Ok r →
  EnvelopeOk e ∧ PolicyOk p ∧ xr_decision r = decision_of e p ∧
  xr_invariants r = transition_checks e p ∧ xr_escalation_reasons r = failing e p ∧
  xr_schema_id r = EXECUTABLE_TRANSITION_RECEIPT_SCHEMA_ID ∧ xr_schema_version r = SCHEMA_VERSION ∧
  xr_envelope_digest r = sha256_digest sha256_hex (envelope_text e) ∧
  xr_output_digest r = sha256_digest sha256_hex (output_text e p r) ∧
  xr_trace_root r = sha256_digest sha256_hex (trace_text e r).
Proof.
  unfold execute_reference_transition. cbv zeta. fold (failing e p). fold (decision_of e p). intros H.
  apply bind_Ok in H as ([] & He%envelope_valid_Ok & H).
  apply bind_Ok in H as ([] & Hp%policy_valid_Ok & H).
  apply bind_Ok in H as (d1 & H1 & H). apply bind_Ok in H as (d2 & H2 & H).
  apply bind_Ok in H as (d3 & H3 & H).
  unfold envelope_digest, envelope_record in H1.
  rewrite (proj2 (envelope_valid_Ok e) He) in H1. cbn [mbind result_bind] in H1.
  apply (record_digest_Ok _ _ _ (json_of_envelope e)) in H1.
  apply (record_digest_Ok _ _ _ (json_of_output _ _ _)) in H2.
  apply (record_digest_Ok _ _ _ (json_of_trace _ _ _ _)) in H3.
  injection H as <-. unfold envelope_text, output_text, trace_text.
  cbn [xr_decision xr_invariants xr_escalation_reasons xr_schema_id xr_schema_version
       xr_envelope_digest xr_output_digest xr_trace_root].
  split_and!; done.
Qed.

Lemma fails_record value : is_ok (json_of (VDict value)) = true →
  fails_safely (record_digest sha256_hex value).
Proof.
  intros H. unfold record_digest, refinement_canonical_json. destruct (json_of _) as [v|]; [|done].
  cbn [mbind result_bind]. intros e. pose proof (fails_canonical v) as Hf.
  destruct (canonical_json v) as [t|e'] eqn:E; [done|]. intros [= <-]. by apply Hf.
Qed.

Lemma fails_execute e p : fails_safely (execute_reference_transition sha256_hex e p).
Proof.
  unfold execute_reference_transition, envelope_digest, envelope_record. cbv zeta.
  destruct (envelope_valid e) as [[]|x] eqn:Hv; cbn [mbind result_bind].
  2:{ intros y [= <-]. by apply (fails_envelope e). }
  apply fails_bind; [apply fails_policy|]. intros _. apply fails_bind.
  { apply fails_record. by rewrite json_of_envelope. }
  intros d1. apply fails_bind.
  { apply fails_record. by rewrite json_of_output. }
  intros d2. apply fails_bind; [|intros; apply fails_Ok]. apply fails_record. by rewrite json_of_trace.
Qed.
End transition.

(** C33. [execute_reference_transition] fails closed.  Whatever the envelope and
    the policy are, it answers a receipt or raises an error of the module (or
    that of encoding a text); it answers one only for well-formed arguments;
    the receipt lists exactly the invariants that do not hold, and its decision
    is [accepted] exactly when all four hold and [fail-closed] otherwise.
    Replaying a receipt succeeds exactly for the receipt of the same execution. *)
Theorem transition_fails_closed (sha256_hex : string → string) (e : AgentActionEvidenceEnvelope)
    (p : TransitionPolicy) :
  let answer := execute_reference_transition sha256_hex e p in
  (∀ r, answer = Ok r →
     EnvelopeOk e ∧ PolicyOk p ∧
     (∀ name, name ∈ xr_escalation_reasons r ↔ name ∈ INVARIANTS ∧ ¬ holds e p name) ∧
     (xr_decision r = "accepted" ↔ ∀ name, name ∈ INVARIANTS → holds e p name) ∧
     (xr_decision r = "accepted" ∨ xr_decision r = "fail-closed")) ∧
  (∀ x, answer = Raise x → module_error x) ∧
  (∀ r r', replay_reference_transition sha256_hex e p r = Ok r' ↔ answer = Ok r ∧ r' = r).
Proof.
  cbv zeta. split_and!.
  - intros r Hr. destruct (execute_Ok _ _ _ _ Hr) as (He & Hp & Hd & _ & Hf & _).
    split_and!; [done..| | |].
    + intros name. rewrite Hf. apply elem_of_failing.
    + rewrite Hd. unfold decision_of. case_bool_decide as Hnil; (split; [intros Hacc|intros Hall]).
      * intros name Hn. destruct (transition_decided e p name Hn) as [?|Hh]; [done|].
        assert (name ∈ failing e p) as Hin by (by apply elem_of_failing).
        rewrite Hnil in Hin. by apply not_elem_of_nil in Hin.
      * done.
      * done.
      * destruct Hnil. destruct (failing e p) as [|name l] eqn:E; [done|].
        assert (name ∈ failing e p) as Hin by (rewrite E; by left).
        apply elem_of_failing in Hin as [Hn Hh]. by destruct Hh; apply Hall.
    + rewrite Hd. unfold decision_of. case_bool_decide; [by left|by right].
  - apply fails_execute.
  - intros r r'. unfold replay_reference_transition. rewrite bind_Ok. split.
    + intros (r1 & Hr1 & H). apply bind_Ok in H as (? & H%require_Ok%bool_decide_eq_true & [= <-]).
      by subst r1.
    + intros [Hr ->]. exists r. by rewrite bool_decide_eq_true_2.
Qed.

(** ** Receipts bind actions *)

Lemma tidy_option_inj o1 o2 : tidy (from_option JStr JNull o1) = tidy (from_option JStr JNull o2) → o1 = o2.
Proof. destruct o1, o2; naive_solver. Qed.
Lemma tidy_strings_inj l1 l2 : tidy (JList (JStr <$> l1)) = tidy (JList (JStr <$> l2)) → l1 = l2.
Proof.
  cbn [tidy]. intros [= H]. revert l2 H. induction l1 as [|s l1 IH]; intros [|t l2] H; try done.
  cbn in H. injection H as -> H. f_equal. by apply IH.
Qed.
Lemma tidy_invariant i : tidy (invariant_json i)
  = JObj [("invariant", JStr (iv_invariant i)); ("reason", JStr (iv_reason i));
          ("satisfied", JBool (iv_satisfied i))].
Proof. done. Qed.
Lemma tidy_invariants_inj l1 l2 :
  tidy (JList (invariant_json <$> l1)) = tidy (JList (invariant_json <$> l2)) → l1 = l2.
Proof.
  cbn [tidy]. intros [= H]. revert l2 H. induction l1 as [|i l1 IH]; intros [|j l2] H; try done.
  rewrite !fmap_cons in H. cbn [map] in H. rewrite !tidy_invariant in H.
  injection H as H1 H2 H3 H. f_equal; [|by apply IH]. destruct i, j. cbn in *. by subst.
Qed.

Lemma envelope_json_inj e1 e2 :
  write_json (JObj (envelope_json e1)) = write_json (JObj (envelope_json e2)) → e1 = e2.
Proof.
  intros E. pose proof (same_member _ _ (envelope_json_wf e1) (envelope_json_wf e2) E) as Hk.
  pose proof (Hk "schemaId" _ _ eq_refl eq_refl) as H1.
  pose proof (Hk "schemaVersion" _ _ eq_refl eq_refl) as H2.
  pose proof (Hk "actionId" _ _ eq_refl eq_refl) as H3.
  pose proof (Hk "parentActionId" _ _ eq_refl eq_refl) as H4%tidy_option_inj.
  pose proof (Hk "observationEventId" _ _ eq_refl eq_refl) as H5.
  pose proof (Hk "recoveryDecisionId" _ _ eq_refl eq_refl) as H6.
  pose proof (Hk "actorIdentity" _ _ eq_refl eq_refl) as H7.
  pose proof (Hk "toolIdentity" _ _ eq_refl eq_refl) as H8.
  pose proof (Hk "capabilityId" _ _ eq_refl eq_refl) as H9.
  pose proof (Hk "effectDomain" _ _ eq_refl eq_refl) as H10.
  pose proof (Hk "evidenceRoot" _ _ eq_refl eq_refl) as H11.
  pose proof (Hk "traceParentRoot" _ _ eq_refl eq_refl) as H12%tidy_option_inj.
  pose proof (Hk "requestedEffects" _ _ eq_refl eq_refl) as H13%tidy_strings_inj.
  pose proof (Hk "allowedEffects" _ _ eq_refl eq_refl) as H14%tidy_strings_inj.
  clear Hk E. destruct e1, e2; cbn in *.
  repeat match goal with H : JStr ?a = JStr ?b |- _ => injection H as H end. by subst.
Qed.

Lemma sha256_digest_inj sha256_hex a b :
  sha256_digest sha256_hex a = sha256_digest sha256_hex b → sha256_hex a = sha256_hex b.
Proof. intros E. by apply (sapp_inj_length "sha256:" "sha256:") in E as [_ E]. Qed.

(** C34. A trace root binds the action and the outcome: when SHA-256 does not map
    two of the texts hashed by two executions to one digest, executions with
    one trace root had the same envelope and left the same receipt, under
    whatever policies. *)
Theorem trace_root_binds_action (sha256_hex : string → string) (e1 e2 : AgentActionEvidenceEnvelope)
    (p1 p2 : TransitionPolicy) (r1 r2 : ExecutableTransitionReceipt) :
  execute_reference_transition sha256_hex e1 p1 = Ok r1 →
  execute_reference_transition sha256_hex e2 p2 = Ok r2 →
  (∀ a b, a ∈ transition_texts e1 p1 r1 → b ∈ transition_texts e2 p2 r2 →
     sha256_hex a = sha256_hex b → a = b) →
  xr_trace_root r1 = xr_trace_root r2 → e1 = e2 ∧ r1 = r2.
Proof.
  intros H1 H2 Hsha Hroot.
  destruct (execute_Ok _ _ _ _ H1) as (_ & _ & Hd1 & Hi1 & Hf1 & Hs1 & Hv1 & Hen1 & Hou1 & Htr1).
  destruct (execute_Ok _ _ _ _ H2) as (_ & _ & Hd2 & Hi2 & Hf2 & Hs2 & Hv2 & Hen2 & Hou2 & Htr2).
  rewrite Htr1, Htr2 in Hroot. apply sha256_digest_inj, Hsha in Hroot;
    [|by do 2 right; left|by do 2 right; left].
  pose proof (same_member _ _ (trace_json_wf _ _ _ _) (trace_json_wf _ _ _ _) Hroot) as Hm.
  assert (xr_envelope_digest r1 = xr_envelope_digest r2) as Een.
  { pose proof (Hm "envelopeDigest" _ _ eq_refl eq_refl) as E. by injection E. }
  assert (xr_output_digest r1 = xr_output_digest r2) as Eou.
  { pose proof (Hm "outputDigest" _ _ eq_refl eq_refl) as E. by injection E. }
  pose proof Een as Ee. rewrite Hen1, Hen2 in Ee.
  apply sha256_digest_inj, Hsha, envelope_json_inj in Ee; [|by left|by left].
  split; [done|]. pose proof Eou as Eo. rewrite Hou1, Hou2 in Eo.
  apply sha256_digest_inj, Hsha in Eo; [|by right; left|by right; left].
  pose proof (same_member _ _ (output_json_wf _ _ _) (output_json_wf _ _ _) Eo) as Ho.
  assert (xr_decision r1 = xr_decision r2) as Ed.
  { pose proof (Ho "decision" _ _ eq_refl eq_refl) as E. by injection E. }
  assert (xr_invariants r1 = xr_invariants r2) as Ei.
  { rewrite Hi1, Hi2. apply tidy_invariants_inj. exact (Ho "invariants" _ _ eq_refl eq_refl). }
  assert (xr_escalation_reasons r1 = xr_escalation_reasons r2) as Ef.
  { rewrite Hf1, Hf2. apply tidy_strings_inj. exact (Ho "escalationReasons" _ _ eq_refl eq_refl). }
  assert (xr_trace_root r1 = xr_trace_root r2) as Et by congruence.
  destruct r1, r2; cbn in *. congruence.
Qed.

Definition demo_digest : string := "sha256:" +:+ hex_fixed 64 7.
Definition demo_envelope (tool : string) : AgentActionEvidenceEnvelope :=
  MkEnvelope "action-2" "observation-7" "decision-7" "agent" tool "repo-write" "workspace" demo_digest
    ["file:update"] ["file:create"; "file:update"] (Some "action-1") (Some demo_digest)
    ACTION_EVIDENCE_ENVELOPE_SCHEMA_ID SCHEMA_VERSION.
Definition demo_policy (capabilities : list string) : TransitionPolicy :=
  MkPolicy capabilities "patch" ["workspace"] (Some "action-1") (Some demo_digest).

Example demo_transitions :
  (xr_escalation_reasons <$> execute_reference_transition id (demo_envelope "shell")
     (demo_policy ["repo-read"])) = Ok ["capability-confinement"; "tool-identity"] ∧
  (xr_decision <$> execute_reference_transition id (demo_envelope "patch")
     (demo_policy ["repo-write"])) = Ok "accepted" ∧
  is_ok (execute_reference_transition id (demo_envelope "patch") (demo_policy ["b"; "a"])) = false.
Proof. by vm_compute. Qed.

(** A digest may hold white space and upper case: [bytes.fromhex] skips and
    accepts them. *)
Example digests_with_spaces :
  refinement_require_digest "evidence_root" ("sha256:" +:+ "  " +:+ hex_fixed 62 7) = Ok () ∧
  refinement_require_digest "evidence_root" ("sha256:" +:+ "AB" +:+ hex_fixed 62 7) = Ok () ∧
  digest_form ("sha256:" +:+ "  " +:+ hex_fixed 62 7) = false.
Proof. by vm_compute. Qed.

(** Two policies that allow the action. *)
Lemma trace_root_binds_action_witness :
  match execute_reference_transition id (demo_envelope "patch") (demo_policy ["repo-write"]),
        execute_reference_transition id (demo_envelope "patch") (demo_policy ["repo-read"; "repo-write"])
  with
  | Ok r1, Ok r2 => demo_envelope "patch" = demo_envelope "patch" ∧ r1 = r2
  | _, _ => False
  end.
Proof.
  destruct (execute_reference_transition id (demo_envelope "patch") (demo_policy ["repo-write"]))
    as [r1|] eqn:H1; [|vm_compute in H1; discriminate].
  destruct (execute_reference_transition id (demo_envelope "patch") (demo_policy ["repo-read"; "repo-write"]))
    as [r2|] eqn:H2; [|vm_compute in H2; discriminate].
  apply (trace_root_binds_action id _ _ _ _ r1 r2 H1 H2); [by intros a b _ _|].
  assert (xr_trace_root <$> execute_reference_transition id (demo_envelope "patch") (demo_policy ["repo-write"])
    = (xr_trace_root <$> execute_reference_transition id (demo_envelope "patch")
         (demo_policy ["repo-read"; "repo-write"]))) as E by (vm_compute; reflexivity).
  rewrite H1, H2 in E. by injection E.
Defined.

(** ** The Scheme projection *)

Lemma projection_keys (d : dict string Value) :
  bool_decide (sort_by str_leb (filter (λ k, k ∉ dkeys d) PROJECTION_KEYS) = [])
  && bool_decide (sort_by str_leb (filter (λ k, k ∉ PROJECTION_KEYS) (dkeys d)) = []) = true
  ↔ ∀ k, k ∈ dkeys d ↔ k ∈ PROJECTION_KEYS.
Proof.
  rewrite andb_true_iff, !bool_decide_eq_true, !sort_by_nil, <-!length_zero_iff_nil, !filter_length_0.
  split.
  - intros [Hm Hu] k. split; intros Hk; apply dec_stable; naive_solver.
  - intros H. split; intros k Hk; rewrite H in *; naive_solver.
Qed.

Lemma py_str_strings repr (l : list string) : map (py_str repr) (VStr <$> l) = l.
Proof. induction l as [|s l IH]; [done|]. rewrite fmap_cons. cbn. by rewrite IH. Qed.

(** [envelope_from_scheme_projection] inverts [canonical_record], whatever
    the order of the members; and whatever it accepts is a well-formed envelope
    read from a mapping with exactly the fourteen keys. *)
Theorem scheme_projection_round_trip (repr : Value → string) (e : AgentActionEvidenceEnvelope) :
  (∀ record d, envelope_record e = Ok record → (∀ k, dget k d = dget k record) →
     envelope_from_scheme_projection repr d = Ok e) ∧
  (∀ d, envelope_from_scheme_projection repr d = Ok e →
     EnvelopeOk e ∧ ∀ k, k ∈ dkeys d ↔ k ∈ PROJECTION_KEYS).
Proof.
  split.
  - intros record d Hr Hd. unfold envelope_record in Hr. apply bind_Ok in Hr as ([] & He & [= <-]).
    assert (∀ k v, dget k (envelope_fields e) = Some v → item d k = Ok v) as Hitem.
    { intros k v Hk. unfold item. by rewrite Hd, Hk. }
    unfold envelope_from_scheme_projection. rewrite (proj2 (projection_keys d)).
    2:{ intros k. rewrite <-!dget_is_Some, Hd, dget_is_Some. done. }
    cbn [require mbind result_bind]. unfold projected_text, projected_option, projected_texts.
    repeat (erewrite Hitem by reflexivity; cbn [fmap result_fmap mbind result_bind]).
    cbn [py_str py_iter mbind result_bind v_str_list]. rewrite !py_str_strings.
    cbn [mbind result_bind].
    assert (∀ o, (if is_none (v_opt_str o) then None else Some (py_str repr (v_opt_str o))) = o) as Ho
      by by intros [].
    rewrite !Ho. destruct e. cbn in *. by rewrite He.
  - intros d H. unfold envelope_from_scheme_projection in H.
    apply bind_Ok in H as (? & Hk%require_Ok & H). split; [|exact (proj1 (projection_keys d) Hk)].
    repeat match type of H with _ ≫= _ = _ => apply bind_Ok in H as (? & ? & H) end.
    injection H as <-. apply envelope_valid_Ok.
    by match goal with H : envelope_valid _ = Ok ?u |- _ => destruct u end.
Qed.

(** ** Evidence *)

(** All four authorities confirm, one after the other, in the world the one
    before left. *)
Definition EvidenceProved {W} (sha256_hex : string → string) (v : EvidenceContentVerifier W)
    (q : EvidenceVerificationRequest) (w : W) : Prop :=
  sha256_digest sha256_hex (ev_artifact q) = ev_expected_digest q ∧
  dget "schemaId" (ev_decoded_payload q) = Some (VStr (ev_expected_schema_id q)) ∧
  ∃ replayer w1 assertion w2 proof w3,
    dget (ev_expected_schema_id q) (semantic_replayers v) = Some replayer ∧
    replayer (ev_decoded_payload q) w = (w1, Ok true) ∧
    ev_issuer_assertion q = Some assertion ∧
    issuer_authenticator v (ev_artifact q) assertion w1 = (w2, Ok true) ∧
    ev_transparency_proof q = Some proof ∧
    transparency_verifier v (sha256_digest sha256_hex (ev_artifact q)) proof w2 = (w3, Ok true).

Definition stage_verified (s : VerificationStageReceipt) : bool := bool_decide (st_state s = "verified").

Section evidence.
Context {W : Type} (v : EvidenceContentVerifier W) (q : EvidenceVerificationRequest).

Lemma stage_of_verified stage ok yes no : stage_verified (stage_of stage ok yes no) = ok.
Proof. by destruct ok. Qed.

Lemma attempt_true (answer : W * result Exn bool) w :
  attempt answer = (w, true) ↔ answer = (w, Ok true).
Proof. unfold attempt. destruct answer as [w1 [b|e]]; cbn; naive_solver. Qed.

Lemma schema_stage_verified w w1 s : schema_stage v q w = (w1, s) →
  stage_verified s = true ↔
  dget "schemaId" (ev_decoded_payload q) = Some (VStr (ev_expected_schema_id q)) ∧
  ∃ replayer, dget (ev_expected_schema_id q) (semantic_replayers v) = Some replayer ∧
    replayer (ev_decoded_payload q) w = (w1, Ok true).
Proof.
  unfold schema_stage.
  set (schema_matches := match dget "schemaId" (ev_decoded_payload q) with
    | Some (VStr s) => bool_decide (s = ev_expected_schema_id q) | _ => false end).
  assert (schema_matches = true ↔
    dget "schemaId" (ev_decoded_payload q) = Some (VStr (ev_expected_schema_id q))) as Hm.
  { unfold schema_matches. repeat case_match; rewrite ?bool_decide_eq_true; naive_solver. }
  rewrite <-Hm. destruct (dget _ (semantic_replayers v)) as [replayer|].
  2:{ intros [= <- <-]. rewrite stage_of_verified. naive_solver. }
  destruct schema_matches.
  - destruct (attempt _) as [w2 ok] eqn:E. intros [= <- <-]. rewrite stage_of_verified. split.
    + intros ->. apply attempt_true in E. eauto.
    + intros [_ (r & [= <-] & Hr)]. apply attempt_true in Hr. congruence.
  - intros [= <- <-]. rewrite stage_of_verified. naive_solver.
Qed.

Lemma issuer_stage_verified w w1 s : issuer_stage v q w = (w1, s) →
  stage_verified s = true ↔ ∃ assertion, ev_issuer_assertion q = Some assertion ∧
    issuer_authenticator v (ev_artifact q) assertion w = (w1, Ok true).
Proof.
  unfold issuer_stage. destruct (ev_issuer_assertion q) as [a|].
  2:{ intros [= <- <-]. cbn. naive_solver. }
  destruct (attempt _) as [w2 ok] eqn:E. intros [= <- <-]. rewrite stage_of_verified. split.
  - intros ->. apply attempt_true in E. eauto.
  - intros (b & [= <-] & Hr). apply attempt_true in Hr. congruence.
Qed.

Context (sha256_hex : string → string).

Lemma transparency_stage_verified w w1 s : transparency_stage sha256_hex v q w = (w1, s) →
  stage_verified s = true ↔ ∃ proof, ev_transparency_proof q = Some proof ∧
    transparency_verifier v (sha256_digest sha256_hex (ev_artifact q)) proof w = (w1, Ok true).
Proof.
  unfold transparency_stage. destruct (ev_transparency_proof q) as [a|].
  2:{ intros [= <- <-]. cbn. naive_solver. }
  destruct (attempt _) as [w2 ok] eqn:E. intros [= <- <-]. rewrite stage_of_verified. split.
  - intros ->. apply attempt_true in E. eauto.
  - intros (b & [= <-] & Hr). apply attempt_true in Hr. congruence.
Qed.

Lemma verification_receipt_Ok s1 s2 s3 s4 r :
  verification_receipt sha256_hex q s1 s2 s3 s4 = Ok r →
  stage_records r = [s1; s2; s3; s4] ∧
  (vr_decision r = "verified" ↔ Forall (λ s, stage_verified s = true) [s1; s2; s3; s4]) ∧
  (vr_decision r = "verified" ∨ vr_decision r = "fail-closed").
Proof.
  unfold verification_receipt. cbv zeta. intros H. apply bind_Ok in H as (d & _ & [= <-]).
  cbn [stage_records vr_digest_integrity vr_schema_semantic_replay vr_issuer_authentication
       vr_transparency_inclusion vr_decision].
  split_and!; [done| |].
  - rewrite !Forall_cons, Forall_nil. unfold stage_verified. cbn [forallb].
    destruct (bool_decide (st_state s1 = _)), (bool_decide (st_state s2 = _)),
      (bool_decide (st_state s3 = _)), (bool_decide (st_state s4 = _)); cbn; intuition congruence.
  - match goal with |- context [if ?b then _ else _] => destruct b end; [by left|by right].
Qed.

Lemma fails_verification_receipt s1 s2 s3 s4 :
  fails_safely (verification_receipt sha256_hex q s1 s2 s3 s4).
Proof.
  unfold verification_receipt. cbv zeta. apply fails_bind; [|intros; apply fails_Ok].
  apply fails_record. done.
Qed.
End evidence.

(** [EvidenceContentVerifier.verify] fails closed.  Whatever the callables
    do, also when they raise, it answers a receipt or raises an error of the
    module (or that of encoding a text), never theirs; a receipt for ill-formed
    expectations is never answered; its decision is [verified] exactly when the
    digest matches, the payload has the expected schema and the replayer of that
    schema, the issuer's authenticator and the transparency verifier all answer
    [True] on what was provided, and [fail-closed] otherwise; and replaying
    accepts exactly the receipt that verification answers. *)
Theorem evidence_verification_fails_closed {W : Type} (sha256_hex : string → string)
    (v : EvidenceContentVerifier W) (q : EvidenceVerificationRequest) (w : W) :
  let '(w', answer) := verify_evidence sha256_hex v q w in
  (∀ r, answer = Ok r →
     digest_text (ev_expected_digest q) ∧ nonblank (ev_expected_schema_id q) ∧
     (vr_decision r = "verified" ↔ EvidenceProved sha256_hex v q w) ∧
     (vr_decision r = "verified" ∨ vr_decision r = "fail-closed")) ∧
  (∀ x, answer = Raise x → module_error x) ∧
  (∀ r r', replay_evidence_content_verification sha256_hex v q r w = (w', Ok r')
     ↔ answer = Ok r ∧ r' = r).
Proof.
  destruct (verify_evidence sha256_hex v q w) as [w' answer] eqn:E. split_and!.
  - intros r ->. unfold verify_evidence in E.
    destruct (_ ≫= _) as [u|x] eqn:Hc in E; [|done].
    apply bind_Ok in Hc as ([] & Hd%require_digest_Ok & Hs). destruct u.
    apply require_nonempty_Ok in Hs. split_and!; [done..| |].
    + destruct (schema_stage v q w) as [w1 s2] eqn:E2.
      destruct (issuer_stage v q w1) as [w2 s3] eqn:E3.
      destruct (transparency_stage sha256_hex v q w2) as [w3 s4] eqn:E4.
      injection E as <- E. apply verification_receipt_Ok in E as (_ & -> & _).
      rewrite !Forall_cons, Forall_nil, (schema_stage_verified v q _ _ _ E2),
        (issuer_stage_verified v q _ _ _ E3), (transparency_stage_verified v q sha256_hex _ _ _ E4).
      unfold digest_stage. rewrite stage_of_verified, bool_decide_eq_true.
      unfold EvidenceProved. split.
      * intros (? & (? & replayer & ? & ?) & (assertion & ? & ?) & (proof & ? & ?) & _).
        split_and!; [done..|]. by exists replayer, w1, assertion, w2, proof, w3.
      * intros (? & ? & replayer & u1 & assertion & u2 & proof & u3 & Hr & Hr1 & Ha & Ha1 & Hp & Hp1).
        assert (u1 = w1) as ->.
        { revert E2. unfold schema_stage. rewrite Hr, H0, bool_decide_eq_true_2 by done.
          rewrite Hr1. cbn. by intros [= ->]. }
        assert (u2 = w2) as ->.
        { revert E3. unfold issuer_stage. rewrite Ha, Ha1. cbn. by intros [= ->]. }
        assert (u3 = w3) as ->.
        { revert E4. unfold transparency_stage. rewrite Hp, Hp1. cbn. by intros [= ->]. }
        split_and!; eauto.
    + destruct (schema_stage v q w) as [w1 s2], (issuer_stage v q w1) as [w2 s3],
        (transparency_stage sha256_hex v q w2) as [w3 s4].
      injection E as <- E. by apply verification_receipt_Ok in E as (_ & _ & ?).
  - intros x ->. unfold verify_evidence in E. destruct (_ ≫= _) as [u|y] eqn:Hc in E.
    + destruct (schema_stage v q w) as [w1 s2], (issuer_stage v q w1) as [w2 s3],
        (transparency_stage sha256_hex v q w2) as [w3 s4].
      injection E as <- E. by eapply fails_verification_receipt.
    + injection E as <- <-. revert Hc. apply fails_bind; [apply fails_digest|intros _; apply fails_nonempty].
  - intros r r'. unfold replay_evidence_content_verification. rewrite E. split.
    + intros [= H]. apply bind_Ok in H as (r1 & -> & H).
      apply bind_Ok in H as (? & H%require_Ok%bool_decide_eq_true & [= <-]). by subst r1.
    + intros [-> ->]. cbn. by rewrite bool_decide_eq_true_2.
Qed.
