(* ===== verification/ProofCase.v ===== *)
(** * Proof-case vectors ([proof_case_manifest.py], [proof_case_emit.py],
    [proof_case_runtime.py], [generated/proof_case_vector.py])

    (In [src/packages/proofs/python/src/poo_flow_proof/].)  A manifest lays out a
    binary record; the loader validates the layout, [positive_vector_bytes]
    fills a record, and the runtime checks records against the generated
    constants.  [raw] is what [tomllib.loads] reads, a dict of tables, arrays,
    strings, integers and booleans (floats and dates are not values of the
    model); [sha256] is [hashlib.sha256(...).digest()].  The emitters of C, Lean
    and Python text and the adapter to the native library are not modelled. *)

From Stdlib Require Import Ascii.
From S2P Require Import Prelude PyDict GraphTypes Receipts Text Merkle EvidenceModel DurablePolicy SchemeDatum Sort ReceiptGraph Json Refinement.

(** ** The manifest *)

Record Field : Type := MkField {
  pf_name : string;
  pf_offset : Z;
  pf_width : Z;
  pf_kind : string
}.
#[global] Instance field_eq_dec : EqDecision Field.
Proof. solve_decision. Defined.
Record Tag : Type := MkTag {
  tg_name : string;
  tg_tag : Z
}.
Record ObligationBit : Type := MkObligationBit {
  ob_name : string;
  ob_bit : Z
}.
Record ProofIdentity : Type := MkProofIdentity {
  id_digest_algorithm : string;
  id_vector_domain : string;
  id_theorem_set_domain : string;
  id_theorems : list string
}.
Record ProofCaseSchema : Type := MkProofCaseSchema {
  ps_schema : string;
  ps_version : Z;
  ps_endianness : string;
  ps_alignment : Z;
  ps_total_size : Z;
  ps_fields : list Field;
  ps_case_kinds : list Tag;
  ps_mediation_outcomes : list Tag;
  ps_durability_profiles : list Tag;
  ps_obligations : list ObligationBit;
  ps_proof_identity : ProofIdentity;
  ps_canonical_payload : string
}.

Definition required_obligation_mask (obligations : list ObligationBit) : Z :=
  foldr Z.add 0 ((λ o, Z.shiftl 1 (ob_bit o)) <$> obligations).

Definition unique {A} `{EqDecision A} (values : list A) (label : string) : result Exn unit :=
  require (negb (has_duplicates values)) (ValueError ("duplicate " +:+ label)).

(** Consecutive elements of a list. *)
Definition neighbours {A} (l : list A) : list (A * A) := zip l (tail l).

Definition field_offset_leb (a b : Field) : bool := pf_offset a <=? pf_offset b.

(** The checks of the fields. *)
Definition check_fields (fields : list Field) : result Exn unit :=
  _ ← unique (pf_name <$> fields) "field name";
  _ ← require (forallb (λ f, bool_decide (pf_kind f ∈ ["u32"; "u64"; "bytes"])) fields)
        (ValueError "unsupported field kind");
  _ ← require (negb (existsb (λ f, (bool_decide (pf_kind f = "u32") && negb (pf_width f =? 4))
                               || (bool_decide (pf_kind f = "u64") && negb (pf_width f =? 8))) fields))
        (ValueError "integer field width does not match its kind");
  _ ← require (negb (existsb (λ f, (pf_width f <=? 0) || (pf_offset f <? 0)) fields))
        (ValueError "field width and offset must be positive");
  _ ← require (bool_decide (fields = sort_by field_offset_leb fields))
        (ValueError "fields must be ordered by offset");
  foldM (λ _ '(previous, current),
    require (negb (pf_offset current <? pf_offset previous + pf_width previous))
      (ValueError ("field overlap: " +:+ pf_name previous +:+ " and " +:+ pf_name current)))
    () (neighbours fields).

(** [fields[-1].offset + fields[-1].width], if there is one. *)
Definition check_total (fields : list Field) (total_size : Z) : result Exn unit :=
  require (match last fields with
           | Some f => pf_offset f + pf_width f =? total_size
           | None => false
           end) (ValueError "total_size does not match the field layout").
Definition check_alignment (alignment total_size : Z) : result Exn unit :=
  require (negb ((alignment <=? 0) || negb (total_size mod alignment =? 0)))
    (ValueError "total_size must honor alignment").
Definition check_obligations (obligations : list ObligationBit) : result Exn unit :=
  _ ← unique (ob_name <$> obligations) "obligation name";
  _ ← unique (ob_bit <$> obligations) "obligation bit";
  require (negb (existsb (λ o, (ob_bit o <? 0) || (64 <=? ob_bit o)) obligations))
    (ValueError "obligation bits must fit uint64").
Definition check_identity (identity : ProofIdentity) (obligations : list ObligationBit) :
    result Exn unit :=
  _ ← require (bool_decide (id_digest_algorithm identity = "sha256"))
        (ValueError "proof identity v1 requires sha256");
  _ ← require (negb (bool_decide (id_vector_domain identity = "")
                     || bool_decide (id_theorem_set_domain identity = "")))
        (ValueError "proof identity domains must not be empty");
  _ ← require (negb (bool_decide (id_vector_domain identity = id_theorem_set_domain identity)))
        (ValueError "proof identity domains must be distinct");
  _ ← unique (id_theorems identity) "proof theorem";
  require (bool_decide (id_theorems identity = ob_name <$> obligations))
    (ValueError "proof theorem set must match canonical obligations").

Section load.
Context (repr : Value → string).

(** [item["name"]] of an item of an array. *)
Definition member (v : Value) (key : string) : result Exn Value :=
  match v with
  | VDict d => item d key
  | _ => Raise (TypeError "string indices must be integers")
  end.
Definition text_member (v : Value) (key : string) : result Exn string := py_str repr <$> member v key.
Definition int_member (v : Value) (key : string) : result Exn Z := x ← member v key; py_int repr x.

Definition read_field (v : Value) : result Exn Field :=
  name ← text_member v "name"; offset ← int_member v "offset"; width ← int_member v "width";
  kind ← text_member v "kind"; Ok (MkField name offset width kind).
Definition read_tag (v : Value) : result Exn Tag :=
  name ← text_member v "name"; tag ← int_member v "tag"; Ok (MkTag name tag).
Definition read_obligation (v : Value) : result Exn ObligationBit :=
  name ← text_member v "name"; bit ← int_member v "bit"; Ok (MkObligationBit name bit).

(** A tuple of what is read from the items of [raw[key]]. *)
Definition read_all {A} (read : Value → result Exn A) (raw : dict string Value) (key : string) :
    result Exn (list A) :=
  v ← item raw key; items ← py_iter v; mapM read items.

Definition tags (raw : dict string Value) (key : string) : result Exn (list Tag) :=
  values ← read_all read_tag raw key;
  _ ← unique (tg_name <$> values) (key +:+ " name");
  _ ← unique (tg_tag <$> values) (key +:+ " tag");
  _ ← require (negb (existsb (λ t, tg_tag t <=? 0) values))
        (ValueError (key +:+ " tags must be positive"));
  Ok values.

Definition read_identity (raw : dict string Value) : result Exn ProofIdentity :=
  v ← item raw "proof_identity";
  digest_algorithm ← text_member v "digest_algorithm";
  vector_domain ← text_member v "vector_domain";
  theorem_set_domain ← text_member v "theorem_set_domain";
  t ← member v "theorems"; items ← py_iter t;
  Ok (MkProofIdentity digest_algorithm vector_domain theorem_set_domain (map (py_str repr) items)).

(** [load_proof_case_schema] after [tomllib.loads]. *)
Definition load_proof_case_schema (raw : dict string Value) : result Exn ProofCaseSchema :=
  identity_json ← json_of (VDict (filter (λ m, m.1 ≠ "proof_identity") raw));
  let canonical_payload := write_json_ascii identity_json in
  fields ← read_all read_field raw "fields";
  _ ← check_fields fields;
  v ← item raw "total_size"; total_size ← py_int repr v;
  _ ← check_total fields total_size;
  v ← item raw "alignment"; alignment ← py_int repr v;
  _ ← check_alignment alignment total_size;
  v ← item raw "endianness";
  _ ← require (match v with VStr s => bool_decide (s = "little") | _ => false end)
        (ValueError "proof-case vector v1 requires little endian");
  obligations ← read_all read_obligation raw "obligations";
  _ ← check_obligations obligations;
  identity ← read_identity raw;
  _ ← check_identity identity obligations;
  v ← item raw "schema"; let schema := py_str repr v in
  v ← item raw "version"; version ← py_int repr v;
  endianness ← item raw "endianness";
  case_kinds ← tags raw "case_kinds";
  mediation_outcomes ← tags raw "mediation_outcomes";
  durability_profiles ← tags raw "durability_profiles";
  Ok (MkProofCaseSchema schema version (py_str repr endianness) alignment total_size fields
        case_kinds mediation_outcomes durability_profiles obligations identity canonical_payload).
End load.

(** ** Bytes *)

(** Little-endian integers of [n] bytes. *)
Fixpoint le_bytes (n : nat) (z : Z) : string :=
  match n with
  | O => ""
  | S n => String (byte (z mod 256)) (le_bytes n (z / 256))
  end.
Fixpoint le_value (s : string) : Z :=
  match s with
  | EmptyString => 0
  | String c s => Z.of_nat (nat_of_ascii c) + 256 * le_value s
  end.

(** [b[start:stop]], for bounds that are not negative. *)
Definition slice (start stop : Z) (s : string) : string :=
  stake (Z.to_nat (stop - start)) (sdrop (Z.to_nat start) s).
(** [buffer[start:stop] = new]; [start <= stop]. *)
Definition assign_slice (start stop : Z) (new s : string) : string :=
  stake (Z.to_nat start) s +:+ new +:+ sdrop (Z.to_nat stop) s.

Definition StructError (msg : string) : Exn := PyError "struct.error" msg.

(** [struct.pack_into] with ["<I"] (4 bytes) or ["<Q"] (8 bytes); [offset] is not
    negative. *)
Definition pack_into (n : nat) (offset value : Z) (s : string) : result Exn string :=
  _ ← require ((0 <=? value) && (value <? 256 ^ Z.of_nat n)) (StructError "argument out of range");
  _ ← require (offset + Z.of_nat n <=? Z.of_nat (String.length s))
        (StructError "pack_into requires a larger buffer");
  Ok (assign_slice offset (offset + Z.of_nat n) (le_bytes n value) s).

(** [struct.unpack_from], in bounds. *)
Definition unpack_from (n : nat) (offset : Z) (s : string) : Z :=
  le_value (slice offset (offset + Z.of_nat n) s).

Fixpoint repeat_byte (n : nat) (c : ascii) : string :=
  match n with O => "" | S n => String c (repeat_byte n c) end.

(** ** [positive_vector_bytes] *)

Section emit.
Context (sha256 : string → string) (schema : ProofCaseSchema).

Definition offset_of (name : string) : result Exn Z :=
  of_option (KeyError name)
    (dget name (dict_of ((λ f, (pf_name f, pf_offset f)) <$> ps_fields schema))).
Definition pack_field (n : nat) (name : string) (value : Z) (vector : string) : result Exn string :=
  offset ← offset_of name; pack_into n offset value vector.
Definition first_tag (l : list Tag) : result Exn Z :=
  match l with t :: _ => Ok (tg_tag t) | [] => Raise (PyError "IndexError" "tuple index out of range") end.

Definition positive_digests : list (string * Z) :=
  [("token_digest", 17); ("policy_revision", 34); ("effect_digest", 51); ("semantic_root", 68);
   ("execution_root", 85); ("batch_root", 0); ("subject_binding", 102); ("resource_binding", 119);
   ("action_binding", 136); ("previous_evidence_root", 153)].
Definition positive_words : list (string * Z) :=
  let mask := required_obligation_mask (ps_obligations schema) in
  [("nonce", 11); ("epoch", 4); ("sequence", 19); ("required_obligation_mask", mask);
   ("present_obligation_mask", mask)].

Definition assign_digest (vector : string) (m : string * Z) : result Exn string :=
  offset ← offset_of m.1;
  Ok (assign_slice offset (offset + 32) (repeat_byte 32 (byte m.2)) vector).

Definition positive_vector_bytes : result Exn string :=
  let vector := repeat_byte (Z.to_nat (ps_total_size schema)) (byte 0) in
  vector ← pack_field 4 "abi_version" (ps_version schema) vector;
  offset ← offset_of "case_kind"; kind ← first_tag (ps_case_kinds schema);
  vector ← pack_into 4 offset kind vector;
  offset ← offset_of "schema_fingerprint";
  let vector := assign_slice offset (offset + 32) (sha256 (ps_canonical_payload schema)) vector in
  vector ← foldM assign_digest vector positive_digests;
  vector ← foldM (λ vector m, pack_field 8 m.1 m.2 vector) vector positive_words;
  vector ← pack_field 4 "obligation_count" (Z.of_nat (length (ps_obligations schema))) vector;
  offset ← offset_of "mediation_outcome"; outcome ← first_tag (ps_mediation_outcomes schema);
  vector ← pack_into 4 offset outcome vector;
  offset ← offset_of "durability_profile"; profile ← first_tag (ps_durability_profiles schema);
  pack_into 4 offset profile vector.
End emit.

(** ** The generated constants *)

Definition ABI_VERSION : Z := 1.
Definition VECTOR_SIZE : Z := 424.
Definition SCHEMA_FINGERPRINT_HEX : string :=
  "bad9c5d0781d0a99e2f8d58cb94abae9dfc2eda4c71a01009897f7fc5419e0e7".
Definition REQUIRED_OBLIGATION_MASK : Z := 255.
Definition VECTOR_DIGEST_DOMAIN : string := "poo-flow.proof-case-vector.v1".
Definition FIELD_OFFSETS : dict string Z :=
  [("abi_version", 0); ("case_kind", 4); ("schema_fingerprint", 8); ("token_digest", 40);
   ("policy_revision", 72); ("effect_digest", 104); ("semantic_root", 136); ("execution_root", 168);
   ("batch_root", 200); ("subject_binding", 232); ("resource_binding", 264); ("action_binding", 296);
   ("previous_evidence_root", 328); ("nonce", 360); ("epoch", 368); ("sequence", 376);
   ("required_obligation_mask", 384); ("present_obligation_mask", 392); ("obligation_count", 400);
   ("mediation_outcome", 404); ("durability_profile", 408); ("reserved", 412)].
Definition CASE_KINDS : dict string Z := [("authorized_effect_token", 1)].
Definition MEDIATION_OUTCOMES : dict string Z := [("allow", 1); ("deny", 2); ("invalid_token", 3)].
Definition DURABILITY_PROFILES : dict string Z := [("strict", 1); ("batched", 2); ("diagnostic", 3)].

(** ** Validation *)

Inductive ProofStatus : Type := OK | INVALID_ARGUMENT | BUFFER_TOO_SMALL | STALE_HANDLE
| SCHEMA_MISMATCH | MALFORMED_EVIDENCE | UNSUPPORTED_OBLIGATION.

(** [FIELD_OFFSETS[field]], for the names the module uses. *)
Definition at_field (field : string) : Z := default 0 (dget field FIELD_OFFSETS).
Definition u32 (vector field : string) : Z := unpack_from 4 (at_field field) vector.
Definition u64 (vector field : string) : Z := unpack_from 8 (at_field field) vector.

Definition is_value (z : Z) (d : dict string Z) : bool := bool_decide (z ∈ snd <$> d).

Definition validate_proof_case_vector (vector : string) : ProofStatus :=
  let fingerprint := slice (at_field "schema_fingerprint") (at_field "schema_fingerprint" + 32) vector in
  let required := u64 vector "required_obligation_mask" in
  let present := u64 vector "present_obligation_mask" in
  if negb (Z.of_nat (String.length vector) =? VECTOR_SIZE) then MALFORMED_EVIDENCE
  else if negb (u32 vector "abi_version" =? ABI_VERSION) then SCHEMA_MISMATCH
  else if negb (bool_decide (Some fingerprint = unhex SCHEMA_FINGERPRINT_HEX)) then SCHEMA_MISMATCH
  else if negb (Z.land (Z.lor required present) (Z.lnot REQUIRED_OBLIGATION_MASK) =? 0)
       then UNSUPPORTED_OBLIGATION
  else if negb (Z.land present (Z.lnot required) =? 0) then MALFORMED_EVIDENCE
  else if negb (is_value (u32 vector "case_kind") CASE_KINDS) then MALFORMED_EVIDENCE
  else if 8 <? u32 vector "obligation_count" then MALFORMED_EVIDENCE
  else if negb (is_value (u32 vector "mediation_outcome") MEDIATION_OUTCOMES) then MALFORMED_EVIDENCE
  else if negb (is_value (u32 vector "durability_profile") DURABILITY_PROFILES) then MALFORMED_EVIDENCE
  else if negb (sforall (λ c, Ascii.eqb c (byte 0)) (sdrop (Z.to_nat (at_field "reserved")) vector))
       then MALFORMED_EVIDENCE
  else OK.

Definition proof_case_vector_digest (sha256 : string → string) (vector : string) :
    result Exn string :=
  _ ← require (Z.of_nat (String.length vector) =? VECTOR_SIZE)
        (ValueError "proof vector digest requires canonical vector size");
  Ok (sha256 (VECTOR_DIGEST_DOMAIN +:+ String (byte 0) vector)).

(** ** Divergence *)

Record VectorDivergence : Type := MkDivergence {
  vd_expected_owner : string;
  vd_actual_owner : string;
  vd_field : string;
  vd_offset : Z
}.

Definition offset_leb (a b : string * Z) : bool := a.2 <=? b.2.

(** The loop over the fields in the order of their offsets; [end] is the next
    offset, or the size of a vector. *)
Fixpoint diverging_field (ordered : list (string * Z)) (expected actual : string) :
    option (string * Z) :=
  match ordered with
  | [] => None
  | (field, offset) :: rest =>
      let stop := match rest with (_, next) :: _ => next | [] => VECTOR_SIZE end in
      if bool_decide (slice offset stop expected = slice offset stop actual)
      then diverging_field rest expected actual
      else Some (field, offset)
  end.
Definition first_vector_divergence (expected actual expected_owner actual_owner : string) :
    option VectorDivergence :=
  if negb (String.length expected =? String.length actual)%nat
  then Some (MkDivergence expected_owner actual_owner "vector_size" 0)
  else '(field, offset) ← diverging_field (sort_by offset_leb FIELD_OFFSETS) expected actual;
       Some (MkDivergence expected_owner actual_owner field offset).
