(* ===== verification/ProofCaseFacts.v ===== *)
(** * Proof-case layouts and vectors are sound *)

From Stdlib Require Import Ascii.
From S2P Require Import Prelude PyDict GraphTypes Receipts Text Merkle EvidenceModel DurablePolicy SchemeDatum Sort ReceiptGraph ReceiptGraphFacts Json Refinement ProofCase.

(** ** Layouts *)

Record LayoutOk (s : ProofCaseSchema) : Prop := {
  lo_names : NoDup (pf_name <$> ps_fields s);
  lo_field f : f ∈ ps_fields s → 0 <= pf_offset f ∧ 0 < pf_width f ∧
    pf_offset f + pf_width f <= ps_total_size s ∧
    (pf_kind f = "u32" ∧ pf_width f = 4 ∨ pf_kind f = "u64" ∧ pf_width f = 8 ∨ pf_kind f = "bytes");
  lo_disjoint i j f g : (i < j)%nat → ps_fields s !! i = Some f → ps_fields s !! j = Some g →
    pf_offset f + pf_width f <= pf_offset g;
  lo_alignment : 0 < ps_alignment s ∧ (ps_alignment s | ps_total_size s);
  lo_bits : NoDup (ob_bit <$> ps_obligations s) ∧
    ∀ o, o ∈ ps_obligations s → 0 <= ob_bit o < 64;
  lo_mask : 0 <= required_obligation_mask (ps_obligations s) < 2 ^ 64 ∧
    ∀ n, Z.testbit (required_obligation_mask (ps_obligations s)) n = true
      ↔ n ∈ ob_bit <$> ps_obligations s;
  lo_tags t : t ∈ ps_case_kinds s ++ ps_mediation_outcomes s ++ ps_durability_profiles s →
    0 < tg_tag t
}.

Lemma unique_Ok {A} `{EqDecision A} (l : list A) label u : unique l label = Ok u ↔ NoDup l.
Proof. unfold unique. rewrite require_Ok. apply has_duplicates_false. Qed.

(** Distinct bits sum up to their mask. *)
Lemma mask_bits bits : NoDup bits → Forall (λ b, 0 <= b) bits → ∀ n,
  Z.testbit (foldr Z.add 0 (Z.shiftl 1 <$> bits)) n = true ↔ n ∈ bits.
Proof.
  induction 1 as [|b bits Hb Hnd IH]; intros Hpos n.
  { cbn. rewrite Z.testbit_0_l. split; [done|]. by intros ?%not_elem_of_nil. }
  apply Forall_cons in Hpos as [Hb0 Hpos]. specialize (IH Hpos). rewrite fmap_cons. cbn [foldr].
  set (m := foldr Z.add 0 (Z.shiftl 1 <$> bits)) in *.
  assert (∀ k, Z.testbit (Z.shiftl 1 b) k = bool_decide (k = b)) as Hbit.
  { intros k. rewrite Z.shiftl_1_l. case_bool_decide as Hk.
    - subst k. by apply Z.pow2_bits_true.
    - by apply Z.pow2_bits_false. }
  assert (Z.land (Z.shiftl 1 b) m = 0) as Hland.
  { apply Z.bits_inj'. intros k _. rewrite Z.land_spec, Z.testbit_0_l, Hbit. case_bool_decide; [|done].
    subst k. cbn [andb]. apply not_true_iff_false. by rewrite IH. }
  rewrite (Z.add_nocarry_lxor _ _ Hland), (Z.lxor_lor _ _ Hland), Z.lor_spec, Hbit.
  rewrite orb_true_iff, bool_decide_eq_true, IH. by rewrite elem_of_cons.
Qed.

Lemma mask_bound bits : NoDup bits → Forall (λ b, 0 <= b < 64) bits →
  0 <= foldr Z.add 0 (Z.shiftl 1 <$> bits) < 2 ^ 64.
Proof.
  intros Hnd Hb. assert (0 <= foldr Z.add 0 (Z.shiftl 1 <$> bits)) as H0.
  { clear Hnd. induction Hb as [|b bits Hb _ IH]; [done|]. rewrite fmap_cons. cbn [foldr].
    pose proof (proj2 (Z.shiftl_nonneg 1 b) ltac:(lia)). lia. }
  split; [done|]. set (m := foldr Z.add 0 _) in *.
  destruct (Z.eq_dec m 0) as [E|E]; [rewrite E; done|].
  apply Z.log2_lt_pow2; [lia|].
  assert (Z.testbit m (Z.log2 m) = true) as Hl by (apply Z.bit_log2; lia).
  unfold m in Hl. rewrite mask_bits in Hl; [|done|eapply Forall_impl; [exact Hb|]; cbn; lia].
  rewrite Forall_forall in Hb. by apply Hb.
Qed.

(** Neighbours apart, all apart. *)
Lemma neighbours_apart fields :
  (∀ f, f ∈ fields → 0 < pf_width f) →
  Forall (λ m, pf_offset m.1 + pf_width m.1 <= pf_offset m.2) (neighbours fields) →
  StronglySorted (λ f g, pf_offset f + pf_width f <= pf_offset g) fields ∧
  ∀ f l, last fields = Some l → f ∈ fields → pf_offset f + pf_width f <= pf_offset l + pf_width l.
Proof.
  induction fields as [|f [|g fields] IH]; intros Hw Hn.
  - split; [constructor|]. by intros f l _ ?%not_elem_of_nil.
  - split; [repeat constructor|]. intros f' l [= <-] ->%list_elem_of_singleton. lia.
  - cbn [neighbours tail zip zip_with] in Hn. apply Forall_cons in Hn as [Hfg Hn].
    destruct IH as [IHs IHl]; [intros h Hh; apply Hw; by right|done|]. cbn [fst snd] in Hfg.
    pose proof (Hw g ltac:(right; by left)) as Hg. split.
    + constructor; [done|]. apply StronglySorted_inv in IHs as [_ Hall]. constructor; [done|].
      eapply Forall_impl; [exact Hall|]. cbn. lia.
    + intros h l Hl Hh. change (last (g :: fields) = Some l) in Hl.
      apply elem_of_cons in Hh as [->|Hh]; [|by apply IHl].
      pose proof (IHl g l Hl ltac:(by left)). lia.
Qed.

Lemma strongly_sorted_lookup {A} (R : A → A → Prop) l i j x y : StronglySorted R l → (i < j)%nat →
  l !! i = Some x → l !! j = Some y → R x y.
Proof.
  intros Hs. revert i j. induction Hs as [|a l Hs IH Ha]; intros i j Hij Hx Hy; [done|].
  destruct j as [|j]; [lia|]. destruct i as [|i].
  - injection Hx as ->. rewrite Forall_forall in Ha. apply Ha. by eapply list_elem_of_lookup_2.
  - by apply (IH i j); [lia|..].
Qed.

Lemma check_fields_Ok fields u : check_fields fields = Ok u →
  NoDup (pf_name <$> fields) ∧
  (∀ f, f ∈ fields → 0 <= pf_offset f ∧ 0 < pf_width f ∧
    (pf_kind f = "u32" ∧ pf_width f = 4 ∨ pf_kind f = "u64" ∧ pf_width f = 8 ∨ pf_kind f = "bytes")) ∧
  Forall (λ m, pf_offset m.1 + pf_width m.1 <= pf_offset m.2) (neighbours fields).
Proof.
  unfold check_fields. intros H.
  apply bind_Ok in H as (? & H1%unique_Ok & H). apply bind_Ok in H as (? & H2%require_Ok & H).
  apply bind_Ok in H as (? & H3%require_Ok & H). apply bind_Ok in H as (? & H4%require_Ok & H).
  apply bind_Ok in H as (? & _ & H). split; [done|]. split.
  - intros f Hf%list_elem_of_In. rewrite forallb_forall in H2. specialize (H2 f Hf).
    apply bool_decide_eq_true in H2. apply negb_true_iff in H3, H4.
    assert (∀ (p : Field → bool), existsb p fields = false → p f = false) as Hex.
    { intros p Hp. destruct (p f) eqn:E; [|done]. rewrite <-Hp. symmetry. apply existsb_exists. eauto. }
    apply Hex in H3, H4. apply orb_false_iff in H3 as [H3 H3'], H4 as [H4 H4'].
    split_and!; [lia|lia|]. rewrite !elem_of_cons, elem_of_nil in H2.
    destruct H2 as [E|[E|[E|[]]]]; rewrite E in *.
    + left. rewrite bool_decide_eq_true_2 in H3 by done. cbn [andb] in H3.
      apply negb_false_iff in H3. split; [done|lia].
    + right; left. rewrite bool_decide_eq_true_2 in H3' by done. cbn [andb] in H3'.
      apply negb_false_iff in H3'. split; [done|lia].
    + by right; right.
  - destruct u. clear -H. revert H. induction (neighbours fields) as [|[a b] l IH]; [constructor|].
    cbn [foldM]. intros H. apply bind_Ok in H as ([] & Hr%require_Ok & H).
    constructor; [cbn; lia|by apply IH].
Qed.

Lemma tags_Ok repr raw key l : tags repr raw key = Ok l → ∀ t, t ∈ l → 0 < tg_tag t.
Proof.
  unfold tags. intros H t Ht%list_elem_of_In. apply bind_Ok in H as (values & _ & H).
  apply bind_Ok in H as (? & _ & H). apply bind_Ok in H as (? & _ & H).
  apply bind_Ok in H as (? & H%require_Ok%negb_true_iff & [= ->]).
  destruct (tg_tag t <=? 0) eqn:E; [|lia]. exfalso. apply not_true_iff_false in H. apply H.
  apply existsb_exists. eauto.
Qed.

(** C36. [load_proof_case_schema] answers only sound layouts: distinct fields at
    non-negative offsets, of the width of their kind, that do not overlap and
    lie within the total size, which the alignment divides; obligation bits are
    distinct and fit 64 bits, so that the required mask is the 64-bit number
    with exactly those bits; and tags are positive. *)
Theorem loaded_layouts_are_sound (repr : Value → string) (raw : dict string Value) :
  match load_proof_case_schema repr raw with
  | Ok s => LayoutOk s
  | Raise _ => True
  end.
Proof.
  destruct (load_proof_case_schema repr raw) as [s|] eqn:H; [|done].
  unfold load_proof_case_schema in H. cbv zeta in H.
  apply bind_Ok in H as (? & _ & H). apply bind_Ok in H as (fields & _ & H).
  apply bind_Ok in H as (? & Hf%check_fields_Ok & H). apply bind_Ok in H as (? & _ & H).
  apply bind_Ok in H as (total & _ & H). apply bind_Ok in H as (? & Ht & H).
  apply bind_Ok in H as (? & _ & H). apply bind_Ok in H as (alignment & _ & H).
  apply bind_Ok in H as (? & Ha%require_Ok%negb_true_iff%orb_false_iff & H).
  apply bind_Ok in H as (? & _ & H). apply bind_Ok in H as (? & _ & H).
  apply bind_Ok in H as (obligations & _ & H). apply bind_Ok in H as (? & Ho & H).
  do 5 (apply bind_Ok in H as (? & _ & H)). apply bind_Ok in H as (? & _ & H).
  apply bind_Ok in H as (kinds & Hk1 & H). apply bind_Ok in H as (outcomes & Hk2 & H).
  apply bind_Ok in H as (profiles & Hk3 & [= <-]).
  destruct Hf as (Hnames & Hfields & Hn). destruct Ha as [Ha Hdiv].
  destruct (neighbours_apart fields) as [Hsorted Hlast]; [intros f Hin; by apply Hfields|done|].
  unfold check_total in Ht. apply require_Ok in Ht.
  destruct (last fields) as [l|] eqn:El; [|done].
  unfold check_obligations in Ho. apply bind_Ok in Ho as (? & _ & Ho).
  apply bind_Ok in Ho as (? & Hbits%unique_Ok & Ho%require_Ok%negb_true_iff).
  assert (∀ o, o ∈ obligations → 0 <= ob_bit o < 64) as Hrange.
  { intros o Hin%list_elem_of_In. destruct ((ob_bit o <? 0) || (64 <=? ob_bit o)) eqn:E; [|lia].
    exfalso. apply not_true_iff_false in Ho. apply Ho. apply existsb_exists. eauto. }
  assert (Forall (λ b, 0 <= b < 64) (ob_bit <$> obligations)) as Hall.
  { apply Forall_fmap, Forall_forall. intros o Hin. by apply Hrange. }
  split; cbn [ps_fields ps_total_size ps_alignment ps_obligations ps_case_kinds ps_mediation_outcomes
    ps_durability_profiles].
  - done.
  - intros f Hin. destruct (Hfields f Hin) as (? & ? & ?). split_and!; [done..| |done].
    specialize (Hlast f l eq_refl Hin). lia.
  - intros i j f g Hij Hi Hj. by apply (strongly_sorted_lookup _ _ i j f g Hsorted).
  - split; [lia|]. apply Z.mod_divide; [lia|]. apply negb_false_iff in Hdiv. lia.
  - done.
  - unfold required_obligation_mask. rewrite (list_fmap_compose ob_bit (Z.shiftl 1)).
    split; [by apply mask_bound|]. apply mask_bits; [done|].
    eapply Forall_impl; [exact Hall|]. cbn. lia.
  - intros t Hin. rewrite !elem_of_app in Hin.
    destruct Hin as [?|[?|?]]; [by eapply (tags_Ok _ _ _ _ Hk1)|by eapply (tags_Ok _ _ _ _ Hk2)
                               |by eapply (tags_Ok _ _ _ _ Hk3)].
Qed.

(** ** Validation *)

Record VectorOk (v : string) : Prop := {
  vo_length : String.length v = 424%nat;
  vo_version : u32 v "abi_version" = 1;
  vo_fingerprint : Some (slice 8 40 v) = unhex SCHEMA_FINGERPRINT_HEX;
  vo_required n : Z.testbit (u64 v "required_obligation_mask") n = true → n < 8;
  vo_present n : Z.testbit (u64 v "present_obligation_mask") n = true →
    Z.testbit (u64 v "required_obligation_mask") n = true;
  vo_kind : u32 v "case_kind" = 1;
  vo_count : u32 v "obligation_count" <= 8;
  vo_outcome : 1 <= u32 v "mediation_outcome" <= 3;
  vo_profile : 1 <= u32 v "durability_profile" <= 3;
  vo_reserved i : (412 <= i < 424)%nat → String.get i v = Some (byte 0)
}.

(** [a & ~b] is zero when the bits of [a] are among those of [b]. *)
Lemma land_lnot_zero a b :
  Z.land a (Z.lnot b) = 0 ↔ ∀ n, Z.testbit a n = true → Z.testbit b n = true.
Proof.
  split.
  - intros H n Ha. destruct (decide (0 <= n)) as [Hn|Hn]; [|by rewrite Z.testbit_neg_r in Ha by lia].
    destruct (Z.testbit b n) eqn:E; [done|]. exfalso.
    assert (Z.testbit (Z.land a (Z.lnot b)) n = false) as Hb by (rewrite H; apply Z.testbit_0_l).
    rewrite Z.land_spec, Z.lnot_spec, Ha, E in Hb by done. done.
  - intros H. apply Z.bits_inj'. intros n Hn. rewrite Z.land_spec, Z.lnot_spec, Z.testbit_0_l by done.
    specialize (H n). destruct (Z.testbit a n); [|done]. by rewrite H.
Qed.

Lemma testbit_255 n : Z.testbit 255 n = true ↔ 0 <= n < 8.
Proof.
  change 255 with (Z.ones 8). rewrite Z.testbit_ones by lia. lia.
Qed.

(** All bytes from [k] on are [c]. *)
Lemma sforall_sdrop_get c k s : sforall (λ d, Ascii.eqb d c) (sdrop k s) = true ↔
  ∀ i, (k <= i < String.length s)%nat → String.get i s = Some c.
Proof.
  revert k. induction s as [|d s IH]; intros k; [destruct k; split; cbn; (done||lia)|].
  destruct k as [|k].
  - cbn [sdrop]. rewrite sforall_cons, Ascii.eqb_eq. specialize (IH 0%nat).
    replace (sdrop 0 s) with s in IH by by destruct s. rewrite IH. split.
    + intros [-> Hs] [|i] Hi; [done|]. cbn in *. apply Hs. lia.
    + intros Hs. split; [specialize (Hs 0%nat ltac:(cbn; lia)); by injection Hs|].
      intros i Hi. apply (Hs (S i)). cbn. lia.
  - cbn [sdrop]. rewrite IH. split.
    + intros Hs [|i] Hi; [lia|]. apply (Hs i). cbn in Hi. lia.
    + intros Hs i Hi. apply (Hs (S i)). cbn. lia.
Qed.

Lemma is_value_range z d l h : (∀ x, x ∈ d.*2 ↔ l <= x <= h) → is_value z d = true ↔ l <= z <= h.
Proof. intros H. unfold is_value. by rewrite bool_decide_eq_true, H. Qed.

Lemma le_value_nonneg s : 0 <= le_value s.
Proof. induction s; cbn [le_value]; lia. Qed.

(** A guard of the validator. *)
Lemma guard_OK (b : bool) (s r : ProofStatus) : s ≠ OK →
  (if b then s else r) = OK ↔ b = false ∧ r = OK.
Proof. destruct b; naive_solver. Qed.

(** C37. [validate_proof_case_vector] answers [OK] exactly for well-formed
    vectors: 424 bytes, the version and fingerprint of the schema, no obligation
    bit beyond the eight, no obligation present that is not required, kinds,
    outcomes and profiles from the tables, a count of at most eight and a zero
    reserve. *)
Theorem validated_vectors_are_well_formed (v : string) :
  validate_proof_case_vector v = OK ↔ VectorOk v.
Proof.
  unfold validate_proof_case_vector. cbv zeta.
  rewrite !guard_OK by done. rewrite !negb_false_iff, !Z.eqb_eq, !bool_decide_eq_true, !land_lnot_zero.
  rewrite sforall_sdrop_get, Z.ltb_ge.
  rewrite (is_value_range _ CASE_KINDS 1 1), (is_value_range _ MEDIATION_OUTCOMES 1 3),
    (is_value_range _ DURABILITY_PROFILES 1 3).
  2-4: intros x; cbn; rewrite !elem_of_cons, elem_of_nil; lia.
  change (at_field "schema_fingerprint") with 8. change (Z.to_nat (at_field "reserved")) with 412%nat.
  change (8 + 32) with 40. unfold VECTOR_SIZE, ABI_VERSION, REQUIRED_OBLIGATION_MASK. split.
  - intros (Hlen & ? & ? & Hr & Hp & ? & ? & ? & ? & Hz & _).
    assert (String.length v = 424%nat) as Hl by lia. rewrite Hl in Hz. split; try done; [|lia].
    intros n Hn. apply testbit_255, Hr. by rewrite Z.lor_spec, Hn.
  - intros [Hlen ? ? Hr Hp ? ? ? ? Hz]. rewrite Hlen. split_and!; try done; try lia.
    intros n. rewrite Z.lor_spec, orb_true_iff, testbit_255. intros Hn.
    assert (Z.testbit (u64 v "required_obligation_mask") n = true) as Hb by naive_solver.
    split; [|by apply Hr]. destruct (decide (0 <= n)); [done|]. by rewrite Z.testbit_neg_r in Hb by lia.
Qed.

(** ** Divergence *)

Lemma stake_length n s : (n <= String.length s)%nat → String.length (stake n s) = n.
Proof. revert n. induction s as [|c s IH]; intros [|n] H; cbn in *; [done|lia|done|]. by rewrite IH by lia. Qed.

Lemma stake_add n m s : stake (n + m) s = stake n s +:+ stake m (sdrop n s).
Proof.
  revert n. induction s as [|c s IH]; intros [|n]; cbn [Nat.add stake sdrop].
  - by destruct m.
  - by destruct m.
  - done.
  - by rewrite IH, sapp_cons.
Qed.

(** The first [stop] bytes are the first [start] and the slice up to [stop]. *)
Lemma stake_slice start stop s : 0 <= start <= stop →
  stake (Z.to_nat stop) s = stake (Z.to_nat start) s +:+ slice start stop s.
Proof.
  intros H. unfold slice. rewrite <-stake_add. f_equal. lia.
Qed.

(** Where the scan of [ordered] stands: the offset of the field it looks at. *)
Definition scan_start (ordered : list (string * Z)) : Z :=
  match ordered with (_, offset) :: _ => offset | [] => VECTOR_SIZE end.

Lemma diverging_field_first ordered expected actual :
  StronglySorted Z.le (ordered.*2 ++ [VECTOR_SIZE]) → Forall (λ m, 0 <= m.2) ordered →
  String.length expected = String.length actual →
  stake (Z.to_nat (scan_start ordered)) expected = stake (Z.to_nat (scan_start ordered)) actual →
  match diverging_field ordered expected actual with
  | None => stake 424 expected = stake 424 actual
  | Some (field, offset) => (field, offset) ∈ ordered ∧
      stake (Z.to_nat offset) expected = stake (Z.to_nat offset) actual ∧
      ∃ stop, stop ∈ ordered.*2 ++ [VECTOR_SIZE] ∧ offset <= stop ∧
        slice offset stop expected ≠ slice offset stop actual ∧
        ∀ other, other ∈ ordered.*2 → other <= offset ∨ stop <= other
  end.
Proof.
  intros Hs Hpos Hlen. induction ordered as [|[field offset] rest IH]; intros Hag; [exact Hag|].
  apply Forall_cons in Hpos as [Hoff Hpos]. rewrite fmap_cons in Hs. cbn [fst snd app] in Hs, Hoff.
  apply StronglySorted_inv in Hs as [Hs Hall]. cbn [diverging_field].
  change (match rest with [] => VECTOR_SIZE | (_, next) :: _ => next end) with (scan_start rest).
  assert (scan_start rest ∈ rest.*2 ++ [VECTOR_SIZE]) as Hin
    by (destruct rest as [|[]]; by left).
  assert (∀ other, other ∈ rest.*2 → scan_start rest <= other) as Hnext.
  { intros other Ho. destruct rest as [|[f o] rest]; [by apply not_elem_of_nil in Ho|].
    apply elem_of_cons in Ho as [->|Ho]; [done|]. apply StronglySorted_inv in Hs as [_ Hs].
    rewrite Forall_forall in Hs. apply Hs, elem_of_app. by left. }
  pose proof Hall as Hle. rewrite Forall_forall in Hle. specialize (Hle _ Hin).
  cbn [scan_start] in Hag. case_bool_decide as Hd.
  - assert (stake (Z.to_nat (scan_start rest)) expected = stake (Z.to_nat (scan_start rest)) actual) as Hrest
      by by rewrite !(stake_slice offset (scan_start rest)), Hag, Hd by lia.
    specialize (IH Hs Hpos Hrest).
    destruct (diverging_field rest expected actual) as [[f o]|]; [|done].
    destruct IH as (Hf & Ho & stop & Hstop & Hos & Hne & Hother). split; [by right|]. split; [done|].
    exists stop. split; [by right|]. split; [done|]. split; [done|].
    intros other [->|Hother']%elem_of_cons; [|by apply Hother]. left.
    rewrite Forall_forall in Hall. apply Hall, elem_of_app. left. by apply (list_elem_of_fmap_2 snd) in Hf.
  - split; [by left|]. split; [done|]. exists (scan_start rest). split; [by right|]. split; [done|].
    split; [done|]. intros other [->|Hother]%elem_of_cons; [by left|]. right. by apply Hnext.
Qed.

(** [first_vector_divergence] finds nothing exactly when the vectors have one
    length and agree on the 424 bytes of a vector; what it reports is
    [vector_size] for vectors of different lengths, and otherwise a field of the
    layout, at its offset, such that all bytes before it agree and the bytes up
    to the next field do not. *)
Theorem divergence_is_the_first_field (expected actual expected_owner actual_owner : string) :
  match first_vector_divergence expected actual expected_owner actual_owner with
  | None => String.length expected = String.length actual ∧ stake 424 expected = stake 424 actual
  | Some d => vd_expected_owner d = expected_owner ∧ vd_actual_owner d = actual_owner ∧
      (String.length expected ≠ String.length actual ∧ vd_field d = "vector_size" ∧ vd_offset d = 0 ∨
       String.length expected = String.length actual ∧
       dget (vd_field d) FIELD_OFFSETS = Some (vd_offset d) ∧
       stake (Z.to_nat (vd_offset d)) expected = stake (Z.to_nat (vd_offset d)) actual ∧
       ∃ stop, vd_offset d <= stop ∧
         slice (vd_offset d) stop expected ≠ slice (vd_offset d) stop actual ∧
         ∀ other, other ∈ FIELD_OFFSETS.*2 → other <= vd_offset d ∨ stop <= other)
  end.
Proof.
  unfold first_vector_divergence.
  destruct (Nat.eqb_spec (String.length expected) (String.length actual)) as [Hl|Hl]; cbn [negb];
    [|split; [done|]; split; [done|]; by left].
  assert (sort_by offset_leb FIELD_OFFSETS = FIELD_OFFSETS) as -> by (vm_compute; reflexivity).
  assert (StronglySorted Z.le (FIELD_OFFSETS.*2 ++ [VECTOR_SIZE])) as Hs
    by (refine (bool_decide_unpack (StronglySorted Z.le _) _); vm_compute; exact I).
  pose proof (diverging_field_first FIELD_OFFSETS expected actual Hs) as H.
  specialize (H (bool_decide_unpack (Forall (λ m, 0 <= m.2) FIELD_OFFSETS) I) Hl eq_refl).
  destruct (diverging_field FIELD_OFFSETS expected actual) as [[field offset]|]; [|done].
  destruct H as (Hin & Hag & stop & _ & Hle & Hne & Hother). cbn. split; [done|]. split; [done|].
  right. split; [done|]. split; [|by eauto 6].
  assert (Forall (λ m, dget m.1 FIELD_OFFSETS = Some m.2) FIELD_OFFSETS) as Hd
    by (repeat constructor).
  rewrite Forall_forall in Hd. by apply (Hd (field, offset)).
Qed.

(** ** The shipped manifest *)

(** [src/packages/proofs/proof-case-vector-v1.toml], as [tomllib] reads it. *)
Definition field_table (name : string) (offset width : Z) (kind : string) : Value :=
  VDict [("name", VStr name); ("offset", VInt offset); ("width", VInt width); ("kind", VStr kind)].
Definition tag_table (key : string) (m : string * Z) : Value :=
  VDict [("name", VStr m.1); (key, VInt m.2)].
Definition shipped_fields : list (string * Z * Z * string) :=
  [("abi_version", 0, 4, "u32"); ("case_kind", 4, 4, "u32"); ("schema_fingerprint", 8, 32, "bytes");
   ("token_digest", 40, 32, "bytes"); ("policy_revision", 72, 32, "bytes"); ("effect_digest", 104,
   32, "bytes"); ("semantic_root", 136, 32, "bytes"); ("execution_root", 168, 32, "bytes");
   ("batch_root", 200, 32, "bytes"); ("subject_binding", 232, 32, "bytes"); ("resource_binding",
   264, 32, "bytes"); ("action_binding", 296, 32, "bytes"); ("previous_evidence_root", 328, 32,
   "bytes"); ("nonce", 360, 8, "u64"); ("epoch", 368, 8, "u64"); ("sequence", 376, 8, "u64");
   ("required_obligation_mask", 384, 8, "u64"); ("present_obligation_mask", 392, 8, "u64");
   ("obligation_count", 400, 4, "u32"); ("mediation_outcome", 404, 4, "u32"); ("durability_profile",
   408, 4, "u32"); ("reserved", 412, 12, "bytes")].
Definition shipped_obligations : list (string * Z) :=
  [("policy_revision_bound", 0); ("effect_digest_bound", 1); ("semantic_root_bound", 2);
   ("execution_root_bound", 3); ("obligation_set_complete", 4); ("nonce_epoch_fresh", 5);
   ("diagnostic_non_executable", 6); ("l3_chain_complete", 7)].
Definition shipped_manifest : dict string Value :=
  [("schema", VStr "poo-flow-proof-case-vector"); ("version", VInt 1); ("endianness", VStr "little");
   ("alignment", VInt 8); ("total_size", VInt 424);
   ("proof_identity", VDict
     [("digest_algorithm", VStr "sha256");
      ("vector_domain", VStr "poo-flow.proof-case-vector.v1");
      ("theorem_set_domain", VStr "poo-flow.authorized-effect-theorem-set.v1");
      ("theorems", VList (VStr ∘ fst <$> shipped_obligations))]);
   ("fields", VList ((λ '(name, offset, width, kind), field_table name offset width kind)
                     <$> shipped_fields));
   ("case_kinds", VList (tag_table "tag" <$> CASE_KINDS));
   ("mediation_outcomes", VList (tag_table "tag" <$> MEDIATION_OUTCOMES));
   ("durability_profiles", VList (tag_table "tag" <$> DURABILITY_PROFILES));
   ("obligations", VList (tag_table "bit" <$> shipped_obligations))].

(** Only the digest of the payload matters to the vector. *)
Lemma positive_vector_digest sha256 sha256' s :
  sha256 (ps_canonical_payload s) = sha256' (ps_canonical_payload s) →
  positive_vector_bytes sha256 s = positive_vector_bytes sha256' s.
Proof. intros H. unfold positive_vector_bytes. by rewrite H. Qed.

Definition fingerprint : string := default "" (unhex SCHEMA_FINGERPRINT_HEX).

(** The manifest of the repository loads, and what it says is what the
    generated Python constants say: size, offsets, tags and obligation mask.  If
    the fingerprint constant is the SHA-256 of the canonical payload of the
    manifest, the vector that [positive_vector_bytes] builds is one that
    [validate_proof_case_vector] accepts. *)
Theorem shipped_manifest_agrees (repr : Value → string) (sha256 : string → string) :
  ∃ s, load_proof_case_schema repr shipped_manifest = Ok s ∧
    ps_version s = ABI_VERSION ∧ ps_total_size s = VECTOR_SIZE ∧
    (λ f, (pf_name f, pf_offset f)) <$> ps_fields s = FIELD_OFFSETS ∧
    (λ t, (tg_name t, tg_tag t)) <$> ps_case_kinds s = CASE_KINDS ∧
    (λ t, (tg_name t, tg_tag t)) <$> ps_mediation_outcomes s = MEDIATION_OUTCOMES ∧
    (λ t, (tg_name t, tg_tag t)) <$> ps_durability_profiles s = DURABILITY_PROFILES ∧
    required_obligation_mask (ps_obligations s) = REQUIRED_OBLIGATION_MASK ∧
    id_vector_domain (ps_proof_identity s) = VECTOR_DIGEST_DOMAIN ∧
    (Some (sha256 (ps_canonical_payload s)) = unhex SCHEMA_FINGERPRINT_HEX →
     ∃ v, positive_vector_bytes sha256 s = Ok v ∧ validate_proof_case_vector v = OK).
Proof.
  eexists. split; [vm_compute; reflexivity|]. do 8 (split; [vm_compute; reflexivity|]).
  intros H. assert (unhex SCHEMA_FINGERPRINT_HEX = Some fingerprint) as E by (vm_compute; reflexivity).
  rewrite E in H. apply (inj Some) in H. eexists. split.
  - rewrite (positive_vector_digest _ (λ _, fingerprint)) by exact H. vm_compute. reflexivity.
  - vm_compute. reflexivity.
Qed.

(** A constant function serves as the digest. *)
Lemma shipped_manifest_agrees_witness : ∃ s v,
  load_proof_case_schema (λ _, "") shipped_manifest = Ok s ∧
  Some fingerprint = unhex SCHEMA_FINGERPRINT_HEX ∧
  positive_vector_bytes (λ _, fingerprint) s = Ok v ∧ validate_proof_case_vector v = OK.
Proof.
  destruct (shipped_manifest_agrees (λ _, "") (λ _, fingerprint))
    as (s & Hs & _ & _ & _ & _ & _ & _ & _ & _ & Hv).
  assert (Some fingerprint = unhex SCHEMA_FINGERPRINT_HEX) as E by (vm_compute; reflexivity).
  destruct (Hv E) as (v & Hv1 & Hv2). exists s, v. done.
Defined.
