(* ===== verification/LeanClosure.v ===== *)
(** * Closures of Lean declarations ([lean_declaration_closure.py], the data)

    (In [src/packages/proofs/python/src/poo_flow_proof/].)  Lean exports the
    declarations a root depends on as a JSON object; the parser and the
    constructor check it, the manifest and the digest write it again, and the
    owner modules are put in the order of their dependencies.  The exporter
    itself is in [LeanExport].  A Python set is a list without repetition; the
    text of a [JSONDecodeError] is not modelled. *)

From S2P Require Import Prelude PyDict GraphTypes Receipts Text Merkle EvidenceModel SchemeDatum Sort ReceiptGraph Json.

Definition LEAN_CLOSURE_SCHEMA_ID : string := "poo-flow.lean-declaration-closure.v1".

Definition LeanClosureError (code detail : string) : Exn :=
  PyError "LeanClosureError" (code +:+ ": " +:+ detail).

(** ** Reading fields *)

(** [value.get(key)]. *)
Definition get (d : dict string Json) (key : string) : Json := default JNull (dget key d).

Definition nonempty_string (v : Json) : option string :=
  match v with JStr s => if bool_decide (s = "") then None else Some s | _ => None end.

Definition lean_require_string (v : Json) (field : string) : result Exn string :=
  of_option (LeanClosureError "invalid-field" field) (nonempty_string v).
Definition lean_require_string_tuple (v : Json) (field : string) : result Exn (list string) :=
  of_option (LeanClosureError "invalid-field" field)
    (match v with JList l => mapM nonempty_string l | _ => None end).
Definition lean_require_mapping_list (v : Json) (field : string) : result Exn (list Json) :=
  match v with JList l => Ok l | _ => Raise (LeanClosureError "invalid-field" field) end.
(** A value that has to be an object. *)
Definition lean_require_mapping (v : Json) (code : string) : result Exn (dict string Json) :=
  match v with JObj d => Ok d | _ => Raise (LeanClosureError code "expected object") end.

(** [read(v) if v is not None else None]. *)
Definition optional {A} (read : Json → result Exn A) (v : Json) : result Exn (option A) :=
  if bool_decide (v = JNull) then Ok None else Some <$> read v.

(** ** Source ranges *)

(** An [int]; [bool] is a subclass of it, whose values are written differently. *)
Inductive Int : Type := IntZ (z : Z) | IntBool (b : bool).
Definition int_value (i : Int) : Z := match i with IntZ z => z | IntBool b => Z.b2z b end.
Definition int_json (i : Int) : Json := match i with IntZ z => JInt z | IntBool b => JBool b end.
Definition json_int (v : Json) : option Int :=
  match v with JInt z => Some (IntZ z) | JBool b => Some (IntBool b) | _ => None end.

Record LeanSourceRange : Type := MkRange {
  sr_start_line : Int;
  sr_start_column : Int;
  sr_start_char_utf16 : Int;
  sr_end_line : Int;
  sr_end_column : Int;
  sr_end_char_utf16 : Int
}.

(** Ranges are equal, and are the same key of a dict, when their numbers are. *)
Definition range_values (r : LeanSourceRange) : list Z :=
  int_value <$> [sr_start_line r; sr_start_column r; sr_start_char_utf16 r;
                 sr_end_line r; sr_end_column r; sr_end_char_utf16 r].

(** [(a, b) < (c, d)]. *)
Definition pair_ltb (x y : Z * Z) : bool := (x.1 <? y.1) || ((x.1 =? y.1) && (x.2 <? y.2)).

Definition range_start (r : LeanSourceRange) : Z * Z :=
  (int_value (sr_start_line r), int_value (sr_start_char_utf16 r)).
Definition range_end (r : LeanSourceRange) : Z * Z :=
  (int_value (sr_end_line r), int_value (sr_end_char_utf16 r)).

Definition range_int (d : dict string Json) (field : string) : result Exn Int :=
  let wrong := LeanClosureError "invalid-source-range" field in
  i ← of_option wrong (json_int (get d field));
  _ ← require (negb (int_value i <? 0)) wrong; Ok i.

Definition range_from_mapping (v : Json) : result Exn LeanSourceRange :=
  d ← lean_require_mapping v "invalid-source-range";
  start_line ← range_int d "start_line"; start_column ← range_int d "start_column";
  start_char ← range_int d "start_char_utf16"; end_line ← range_int d "end_line";
  end_column ← range_int d "end_column"; end_char ← range_int d "end_char_utf16";
  let r := MkRange start_line start_column start_char end_line end_column end_char in
  _ ← require (negb ((int_value start_line =? 0) || (int_value end_line =? 0)))
        (LeanClosureError "invalid-source-range" "line numbers are 1-based");
  _ ← require (negb (pair_ltb (range_end r) (range_start r)))
        (LeanClosureError "invalid-source-range" "end precedes start");
  Ok r.

Definition range_record (r : LeanSourceRange) : Json :=
  JObj [("start_line", int_json (sr_start_line r)); ("start_column", int_json (sr_start_column r));
        ("start_char_utf16", int_json (sr_start_char_utf16 r));
        ("end_line", int_json (sr_end_line r)); ("end_column", int_json (sr_end_column r));
        ("end_char_utf16", int_json (sr_end_char_utf16 r))].

(** ** Declarations *)

Record LeanDeclaration : Type := MkLeanDeclaration {
  ld_name : string;
  ld_kind : string;
  ld_owner_module : string;
  ld_local_dependencies : list string;
  ld_source_range : option LeanSourceRange
}.

Definition declaration_from_mapping (v : Json) : result Exn LeanDeclaration :=
  d ← lean_require_mapping v "invalid-declaration";
  name ← lean_require_string (get d "name") "declaration.name";
  kind ← lean_require_string (get d "kind") "declaration.kind";
  owner_module ← lean_require_string (get d "owner_module") "declaration.owner_module";
  local_dependencies ← lean_require_string_tuple (get d "local_dependencies")
                         "declaration.local_dependencies";
  source_range ← optional range_from_mapping (get d "source_range");
  Ok (MkLeanDeclaration name kind owner_module local_dependencies source_range).

Definition lean_declaration_record (d : LeanDeclaration) : Json :=
  JObj ([("kind", JStr (ld_kind d));
         ("local_dependencies", JList (JStr <$> ld_local_dependencies d));
         ("name", JStr (ld_name d)); ("owner_module", JStr (ld_owner_module d))]
        ++ match ld_source_range d with Some r => [("source_range", range_record r)] | None => [] end).

Record LeanProofBaseInterfaceDeclaration : Type := MkInterface {
  li_name : string;
  li_declaration_role : string;
  li_level_params : list string;
  li_type_source : string;
  li_value_source : option string
}.

Definition DECLARATION_ROLES : list string := ["abbrev"; "axiom"; "definition"; "instance"].

Definition interface_from_mapping (v : Json) : result Exn LeanProofBaseInterfaceDeclaration :=
  d ← lean_require_mapping v "invalid-proof-base-interface-declaration";
  value_source ← optional (λ s, lean_require_string s "proof_base_interface.value_source")
                   (get d "value_source");
  role ← lean_require_string (get d "declaration_role") "proof_base_interface.declaration_role";
  _ ← require (bool_decide (role ∈ DECLARATION_ROLES))
        (LeanClosureError "invalid-field" "proof_base_interface.declaration_role");
  name ← lean_require_string (get d "name") "proof_base_interface.name";
  level_params ← lean_require_string_tuple (get d "level_params") "proof_base_interface.level_params";
  type_source ← lean_require_string (get d "type_source") "proof_base_interface.type_source";
  Ok (MkInterface name role level_params type_source value_source).

Definition interface_record (i : LeanProofBaseInterfaceDeclaration) : Json :=
  JObj [("declaration_role", JStr (li_declaration_role i));
        ("level_params", JList (JStr <$> li_level_params i)); ("name", JStr (li_name i));
        ("type_source", JStr (li_type_source i));
        ("value_source", match li_value_source i with Some s => JStr s | None => JNull end)].

(** ** Closures *)

Record LeanDeclarationClosure : Type := MkLeanClosure {
  lc_lean_version : string;
  lc_root_module : string;
  lc_root_declarations : list string;
  lc_base_imports : list string;
  lc_proof_base_imports : list string;
  lc_proof_base_interface : list LeanProofBaseInterfaceDeclaration;
  lc_owner_modules : list string;
  lc_declarations : list LeanDeclaration;
  lc_schema_id : string
}.

(** The body of the loop over the declarations; [emitted] are their names so far. *)
Definition emit_declaration (emitted : list string) (d : LeanDeclaration) : result Exn (list string) :=
  _ ← require (negb (bool_decide (ld_name d ∈ emitted)))
        (LeanClosureError "duplicate-declaration" (ld_name d));
  let missing := filter (λ dependency, dependency ∉ emitted) (ld_local_dependencies d) in
  _ ← require (bool_decide (missing = []))
        (LeanClosureError "non-topological-declaration" (ld_name d +:+ ": " +:+ str_join "," missing));
  Ok (emitted ++ [ld_name d]).

(** [LeanDeclarationClosure.__post_init__]. *)
Definition check_closure (c : LeanDeclarationClosure) : result Exn LeanDeclarationClosure :=
  let fail code := LeanClosureError code (lc_root_module c) in
  _ ← require (bool_decide (lc_schema_id c = LEAN_CLOSURE_SCHEMA_ID))
        (LeanClosureError "unsupported-schema" (lc_schema_id c));
  _ ← lean_require_string (JStr (lc_lean_version c)) "lean_version";
  _ ← lean_require_string (JStr (lc_root_module c)) "root_module";
  _ ← require (negb (bool_decide (lc_root_declarations c = []))) (fail "missing-root-declaration");
  _ ← require (negb (has_duplicates (lc_root_declarations c))) (fail "duplicate-root-declaration");
  _ ← require (negb (bool_decide (lc_base_imports c = []))) (fail "missing-base-import");
  _ ← require (negb (has_duplicates (lc_proof_base_imports c))) (fail "duplicate-proof-base-import");
  _ ← require (negb (has_duplicates (li_name <$> lc_proof_base_interface c)))
        (fail "duplicate-proof-base-interface-declaration");
  _ ← require (bool_decide (sort_by str_leb (remove_dups (lc_owner_modules c)) = lc_owner_modules c))
        (fail "non-canonical-owner-modules");
  emitted ← foldM emit_declaration [] (lc_declarations c);
  let missing_roots := filter (λ declaration, declaration ∉ emitted) (lc_root_declarations c) in
  _ ← require (bool_decide (missing_roots = []))
        (LeanClosureError "root-outside-closure" (str_join "," missing_roots));
  let owners := ld_owner_module <$> lc_declarations c in
  _ ← require (forallb (λ o, bool_decide (o ∈ lc_owner_modules c)) owners
               && forallb (λ o, bool_decide (o ∈ owners)) (lc_owner_modules c))
        (fail "owner-module-mismatch");
  Ok c.

Definition closure_from_mapping (v : Json) : result Exn LeanDeclarationClosure :=
  d ← lean_require_mapping v "invalid-receipt";
  declarations ← lean_require_mapping_list (get d "declarations") "declarations";
  schema_id ← lean_require_string (get d "schema_id") "schema_id";
  lean_version ← lean_require_string (get d "lean_version") "lean_version";
  root_module ← lean_require_string (get d "root_module") "root_module";
  root_declarations ← lean_require_string_tuple (get d "root_declarations") "root_declarations";
  base_imports ← lean_require_string_tuple (get d "base_imports") "base_imports";
  proof_base_imports ← lean_require_string_tuple (get d "proof_base_imports") "proof_base_imports";
  interface ← lean_require_mapping_list (get d "proof_base_interface") "proof_base_interface";
  proof_base_interface ← mapM interface_from_mapping interface;
  owner_modules ← lean_require_string_tuple (get d "owner_modules") "owner_modules";
  declarations ← mapM declaration_from_mapping declarations;
  check_closure (MkLeanClosure lean_version root_module root_declarations base_imports
    proof_base_imports proof_base_interface owner_modules declarations schema_id).

Definition closure_from_json (float_repr : string → string) (source : string) :
    option (result Exn LeanDeclarationClosure) :=
  answer ← json_loads float_repr default_hook source;
  Some match answer with
       | Ok v => closure_from_mapping v
       | Raise _ => Raise (LeanClosureError "invalid-json" "")
       end.

Definition closure_manifest (c : LeanDeclarationClosure) : Json :=
  JObj [("base_imports", JList (JStr <$> lc_base_imports c));
        ("declarations", JList (lean_declaration_record <$> lc_declarations c));
        ("lean_version", JStr (lc_lean_version c));
        ("owner_modules", JList (JStr <$> lc_owner_modules c));
        ("proof_base_imports", JList (JStr <$> lc_proof_base_imports c));
        ("proof_base_interface", JList (interface_record <$> lc_proof_base_interface c));
        ("root_declarations", JList (JStr <$> lc_root_declarations c));
        ("root_module", JStr (lc_root_module c)); ("schema_id", JStr (lc_schema_id c))].

Definition closure_digest (sha256_hex : string → string) (c : LeanDeclarationClosure) :
    result Exn string :=
  sha256_digest sha256_hex <$> canonical_json (closure_manifest c).

(** ** The order of the owner modules *)

(** [declaration_owners]. *)
Definition declaration_owners (c : LeanDeclarationClosure) : dict string string :=
  dict_of ((λ d, (ld_name d, ld_owner_module d)) <$> lc_declarations c).

(** The body of the inner loop: a dependency of a declaration of module [owner]. *)
Definition add_owner_dependency (owners : dict string string) (owner : string)
    (dependencies : dict string (list string)) (dependency : string) :
    result Exn (dict string (list string)) :=
  dependency_owner ← of_option (KeyError dependency) (dget dependency owners);
  if bool_decide (dependency_owner = owner) then Ok dependencies
  else
    known ← of_option (KeyError owner) (dget owner dependencies);
    Ok (dset owner (if bool_decide (dependency_owner ∈ known) then known
                    else known ++ [dependency_owner]) dependencies).
Definition owner_dependencies (c : LeanDeclarationClosure) : result Exn (dict string (list string)) :=
  foldM (λ dependencies d,
      foldM (add_owner_dependency (declaration_owners c) (ld_owner_module d)) dependencies
        (ld_local_dependencies d))
    (dict_of ((λ owner, (owner, [])) <$> lc_owner_modules c)) (lc_declarations c).

Definition ready_owners (dependencies : dict string (list string)) (emitted : list string) :
    list string :=
  sort_by str_leb (fst <$> filter (λ '(owner, needs), owner ∉ emitted ∧
    forallb (λ need, bool_decide (need ∈ emitted)) needs = true) dependencies).

(** The [while] loop; the set [emitted] has the elements of [result]. *)
Fixpoint owner_rounds (fuel : nat) (dependencies : dict string (list string)) (result : list string) :
    option (Prelude.result Exn (list string)) :=
  if (length result <? length dependencies)%nat then
    match fuel with
    | O => None
    | S fuel =>
        let ready := ready_owners dependencies result in
        if bool_decide (ready = []) then
          Some (Raise (LeanClosureError "owner-module-cycle"
            (str_join "," (sort_by str_leb (filter (λ o, o ∉ result) (dkeys dependencies))))))
        else owner_rounds fuel dependencies (result ++ ready)
    end
  else Some (Ok result).

Definition owner_modules_in_dependency_order (c : LeanDeclarationClosure) :
    option (result Exn (list string)) :=
  match owner_dependencies c with
  | Raise e => Some (Raise e)
  | Ok dependencies => owner_rounds (length dependencies) dependencies []
  end.
