(* ===== verification/LeanClosureFacts.v ===== *)
(** * What a closure of Lean declarations is

    The parser answers on every text, and only closures that satisfy
    [LeanClosureSpec]; their manifest reads back; the owner modules are ordered
    by their dependencies unless these are cyclic. *)

From S2P Require Import Prelude PyDict GraphTypes Receipts Text Merkle EvidenceModel SchemeDatum Sort ReceiptGraph ReceiptGraphFacts Json JsonFacts LeanClosure.

#[global] Arguments range_from_mapping : simpl never.
#[global] Arguments declaration_from_mapping : simpl never.
#[global] Arguments interface_from_mapping : simpl never.
#[global] Arguments check_closure : simpl never.

(** ** The specification *)

Definition nonempty (s : string) : Prop := s ≠ "".

Record RangeOk (r : LeanSourceRange) : Prop := {
  rg_values : Forall (λ z, 0 <= z) (range_values r);
  rg_lines : 1 <= int_value (sr_start_line r) ∧ 1 <= int_value (sr_end_line r);
  rg_order : pair_ltb (range_end r) (range_start r) = false
}.
Record DeclarationOk (d : LeanDeclaration) : Prop := {
  dk_texts : Forall nonempty ([ld_name d; ld_kind d; ld_owner_module d] ++ ld_local_dependencies d);
  dk_range r : ld_source_range d = Some r → RangeOk r
}.
Record InterfaceOk (i : LeanProofBaseInterfaceDeclaration) : Prop := {
  ik_texts : Forall nonempty ([li_name i; li_type_source i] ++ li_level_params i);
  ik_role : li_declaration_role i ∈ DECLARATION_ROLES;
  ik_value s : li_value_source i = Some s → nonempty s
}.

(** Every declaration comes after those it depends on. *)
Definition declared_in_order (l : list LeanDeclaration) : Prop :=
  ∀ i d x, l !! i = Some d → x ∈ ld_local_dependencies d → x ∈ take i (ld_name <$> l).

Record LeanClosureSpec (c : LeanDeclarationClosure) : Prop := {
  ls_schema : lc_schema_id c = LEAN_CLOSURE_SCHEMA_ID;
  ls_texts : nonempty (lc_lean_version c) ∧ nonempty (lc_root_module c);
  ls_roots : lc_root_declarations c ≠ [] ∧ NoDup (lc_root_declarations c) ∧
    ∀ x, x ∈ lc_root_declarations c → x ∈ ld_name <$> lc_declarations c;
  ls_imports : lc_base_imports c ≠ [] ∧ NoDup (lc_proof_base_imports c);
  ls_interface : NoDup (li_name <$> lc_proof_base_interface c);
  ls_owners : NoDup (lc_owner_modules c) ∧ StronglySorted (ordered str_leb) (lc_owner_modules c) ∧
    ∀ o, o ∈ lc_owner_modules c ↔ o ∈ ld_owner_module <$> lc_declarations c;
  ls_names : NoDup (ld_name <$> lc_declarations c);
  ls_order : declared_in_order (lc_declarations c)
}.

(** What the types of the fields do not say. *)
Record LeanClosureFields (c : LeanDeclarationClosure) : Prop := {
  lf_texts : Forall nonempty (lc_root_declarations c ++ lc_base_imports c
                              ++ lc_proof_base_imports c ++ lc_owner_modules c);
  lf_interface : Forall InterfaceOk (lc_proof_base_interface c);
  lf_declarations : Forall DeclarationOk (lc_declarations c)
}.

(** ** The constructor *)

Lemma no_missing (l known : list string) :
  filter (λ x, x ∉ known) l = [] ↔ ∀ x, x ∈ l → x ∈ known.
Proof.
  rewrite <-length_zero_iff_nil, filter_length_0. split; intros H x Hx.
  - apply dec_stable. by apply H.
  - intros Hn. by apply Hn, H.
Qed.

Lemma emit_declaration_Ok emitted d l : emit_declaration emitted d = Ok l ↔
  l = emitted ++ [ld_name d] ∧ ld_name d ∉ emitted ∧ ∀ x, x ∈ ld_local_dependencies d → x ∈ emitted.
Proof.
  unfold emit_declaration. rewrite bind_Ok. setoid_rewrite require_Ok.
  setoid_rewrite negb_true_iff. setoid_rewrite bool_decide_eq_false.
  setoid_rewrite bind_Ok. setoid_rewrite require_Ok. setoid_rewrite bool_decide_eq_true.
  setoid_rewrite no_missing.
  split; [by intros (_ & ? & _ & ? & [= <-])|]. intros (-> & ? & ?). by exists (); split; [|exists ()].
Qed.

Lemma emit_declarations_Ok l : ∀ emitted names, NoDup emitted →
  foldM emit_declaration emitted l = Ok names ↔
  names = emitted ++ (ld_name <$> l) ∧ NoDup names ∧
  ∀ i d x, l !! i = Some d → x ∈ ld_local_dependencies d → x ∈ emitted ++ take i (ld_name <$> l).
Proof.
  induction l as [|d l IH]; intros emitted names Hnd; cbn [foldM].
  { csimpl. rewrite app_nil_r. split; [intros [= <-]; by split_and!|by intros [-> _]]. }
  rewrite bind_Ok. setoid_rewrite emit_declaration_Ok. split.
  - intros (e & (-> & Hn & Hd) & H). apply IH in H as (-> & Hnd' & H).
    2:{ apply NoDup_app. split_and!; [done| |apply NoDup_singleton].
        by intros x Hx ->%list_elem_of_singleton. }
    split; [by rewrite <-app_assoc|]. split; [done|]. intros [|i] d' x Hi Hx.
    + injection Hi as ->. rewrite app_nil_r. by apply Hd.
    + apply (H i d' x) in Hi; [|done]. by rewrite <-app_assoc in Hi.
  - intros (-> & Hnd' & H). exists (emitted ++ [ld_name d]). csimpl in Hnd'. split.
    + split; [done|]. split.
      * apply NoDup_app in Hnd' as (_ & Hnd' & _). intros Hin. apply (Hnd' _ Hin). by left.
      * intros x Hx. specialize (H 0%nat d x eq_refl Hx). by rewrite app_nil_r in H.
    + assert (NoDup (emitted ++ [ld_name d])) as He.
      { change (NoDup (emitted ++ [ld_name d] ++ (ld_name <$> l))) in Hnd'. rewrite app_assoc in Hnd'.
        by apply NoDup_app in Hnd' as (? & _ & _). }
      apply (IH _ _ He). rewrite <-!app_assoc. split; [done|]. split; [done|].
      intros i d' x Hi Hx. rewrite <-app_assoc. by apply (H (S i) d' x).
Qed.

Lemma lean_require_string_Ok v field s :
  lean_require_string v field = Ok s ↔ v = JStr s ∧ nonempty s.
Proof.
  unfold lean_require_string, nonempty. rewrite of_option_Ok. destruct v as [| | | |t| |]; try naive_solver.
  cbn [nonempty_string]. case_bool_decide; naive_solver.
Qed.

Lemma lean_texts_Ok l k : mapM nonempty_string l = Some k ↔ l = JStr <$> k ∧ Forall nonempty k.
Proof.
  rewrite mapM_Some. assert (∀ v s, nonempty_string v = Some s ↔ v = JStr s ∧ nonempty s) as Hn.
  { intros v s. pose proof (lean_require_string_Ok v "" s) as H.
    unfold lean_require_string in H. by rewrite of_option_Ok in H. }
  split.
  - induction 1 as [|v s l k [-> Hs]%Hn _ [-> IH]]; [by split|]. split; [done|]. by constructor.
  - intros [-> Hk]. induction Hk as [|s k Hs _ IH]; constructor; [|done]. by apply Hn.
Qed.

Lemma lean_require_string_tuple_Ok v field k :
  lean_require_string_tuple v field = Ok k ↔ v = JList (JStr <$> k) ∧ Forall nonempty k.
Proof.
  unfold lean_require_string_tuple. rewrite of_option_Ok. destruct v; try naive_solver.
  rewrite lean_texts_Ok. naive_solver.
Qed.

(** Reading what was written. *)
Lemma read_text s field : nonempty s → lean_require_string (JStr s) field = Ok s.
Proof. intros. by apply lean_require_string_Ok. Qed.
Lemma read_texts k field : Forall nonempty k → lean_require_string_tuple (JList (JStr <$> k)) field = Ok k.
Proof. intros. by apply lean_require_string_tuple_Ok. Qed.

(** A guard at the head of a chain. *)
Lemma guard_Ok {A} (b : bool) e (m : result Exn A) x : (_ ← require b e; m) = Ok x ↔ b = true ∧ m = Ok x.
Proof. destruct b; naive_solver. Qed.
Lemma text_guard_Ok {A} s field (m : result Exn A) x :
  (_ ← lean_require_string (JStr s) field; m) = Ok x ↔ nonempty s ∧ m = Ok x.
Proof. rewrite bind_Ok. setoid_rewrite lean_require_string_Ok. naive_solver. Qed.

Lemma all_members (l k : list string) :
  forallb (λ x, bool_decide (x ∈ k)) l = true ↔ ∀ x, x ∈ l → x ∈ k.
Proof. rewrite forallb_forall. setoid_rewrite <-list_elem_of_In. by setoid_rewrite bool_decide_eq_true. Qed.

(** The constructor accepts exactly the closures of the specification. *)
Lemma check_closure_Ok c c' : check_closure c = Ok c' ↔ c' = c ∧ LeanClosureSpec c.
Proof.
  unfold check_closure. cbv zeta. rewrite !guard_Ok, !text_guard_Ok, !guard_Ok.
  rewrite !has_duplicates_false, !negb_true_iff, !bool_decide_eq_false, !bool_decide_eq_true.
  rewrite sorted_set_id, bind_Ok. setoid_rewrite emit_declarations_Ok; [|constructor].
  setoid_rewrite guard_Ok. setoid_rewrite bool_decide_eq_true. setoid_rewrite no_missing.
  setoid_rewrite guard_Ok. setoid_rewrite andb_true_iff. repeat setoid_rewrite all_members. split.
  - intros (? & ? & ? & ? & ? & ? & ? & ? & [? ?] & names & (-> & ? & ?) & ? & [? ?] & [= <-]).
    split; [done|]. split; try done. split_and!; try done. intros o. split; auto.
  - intros [-> [? [? ?] (? & ? & ?) [? ?] ? (? & ? & Ho) ? ?]]. split_and!; try done.
    exists (ld_name <$> lc_declarations c). split_and!; try done; intros o; apply Ho.
Qed.

(** ** The parser *)

Lemma range_int_Ok d field i :
  range_int d field = Ok i ↔ get d field = int_json i ∧ 0 <= int_value i.
Proof.
  unfold range_int. rewrite bind_Ok. setoid_rewrite of_option_Ok. setoid_rewrite guard_Ok.
  assert (∀ v j, json_int v = Some j ↔ v = int_json j) as Hj.
  { intros v [z|b]; destruct v; cbn; naive_solver. }
  setoid_rewrite Hj. setoid_rewrite negb_true_iff. setoid_rewrite Z.ltb_ge. split.
  - by intros (j & ? & ? & [= <-]).
  - intros []. by exists i.
Qed.

Lemma lean_require_mapping_Ok v code d : lean_require_mapping v code = Ok d ↔ v = JObj d.
Proof. destruct v; naive_solver. Qed.
Lemma lean_require_mapping_list_Ok v field l : lean_require_mapping_list v field = Ok l ↔ v = JList l.
Proof. destruct v; naive_solver. Qed.

Lemma range_from_mapping_Ok v r : range_from_mapping v = Ok r ↔
  RangeOk r ∧ ∃ d, v = JObj d ∧
    get d "start_line" = int_json (sr_start_line r) ∧ get d "start_column" = int_json (sr_start_column r) ∧
    get d "start_char_utf16" = int_json (sr_start_char_utf16 r) ∧
    get d "end_line" = int_json (sr_end_line r) ∧ get d "end_column" = int_json (sr_end_column r) ∧
    get d "end_char_utf16" = int_json (sr_end_char_utf16 r).
Proof.
  unfold range_from_mapping. split.
  - intros Hm. apply bind_Ok in Hm as (d & ->%lean_require_mapping_Ok & Hm).
    do 6 (apply bind_Ok in Hm as (? & [? ?]%range_int_Ok & Hm)).
    apply guard_Ok in Hm as [Hl Hm]. apply guard_Ok in Hm as [Ho [= <-]].
    split; [|by exists d]. split.
    + by repeat constructor.
    + cbn [sr_start_line sr_end_line]. lia.
    + by apply negb_true_iff in Ho.
  - intros [[Hv Hl Ho] (d & -> & H1 & H2 & H3 & H4 & H5 & H6)]. destruct r as [a b x y z w].
    unfold range_values in Hv. cbn in *.
    repeat match type of Hv with Forall _ (_ :: _) => apply Forall_cons in Hv as [? Hv] end.
    assert (∀ field i, get d field = int_json i → 0 <= int_value i → range_int d field = Ok i) as Hi
      by (intros; by apply range_int_Ok).
    cbn [mbind result_bind lean_require_mapping].
    rewrite (Hi _ _ H1), (Hi _ _ H2), (Hi _ _ H3), (Hi _ _ H4), (Hi _ _ H5), (Hi _ _ H6) by done.
    cbn [mbind result_bind]. apply guard_Ok. split; [lia|]. apply guard_Ok. by rewrite Ho.
Qed.

Lemma optional_Ok {A} (read : Json → result Exn A) v o : (∀ x, read JNull ≠ Ok x) →
  optional read v = Ok o ↔ match o with Some x => read v = Ok x | None => v = JNull end.
Proof.
  intros Hn. unfold optional. case_bool_decide as Hv.
  - subst v. destruct o; naive_solver.
  - rewrite fmap_Ok. destruct o; naive_solver.
Qed.

Lemma declaration_from_mapping_Ok v x : declaration_from_mapping v = Ok x ↔
  DeclarationOk x ∧ ∃ d, v = JObj d ∧
    get d "name" = JStr (ld_name x) ∧ get d "kind" = JStr (ld_kind x) ∧
    get d "owner_module" = JStr (ld_owner_module x) ∧
    get d "local_dependencies" = JList (JStr <$> ld_local_dependencies x) ∧
    match ld_source_range x with
    | None => get d "source_range" = JNull
    | Some r => range_from_mapping (get d "source_range") = Ok r
    end.
Proof.
  unfold declaration_from_mapping. split.
  - intros Hm. apply bind_Ok in Hm as (d & ->%lean_require_mapping_Ok & Hm).
    do 3 (apply bind_Ok in Hm as (? & [? ?]%lean_require_string_Ok & Hm)).
    apply bind_Ok in Hm as (deps & [? ?]%lean_require_string_tuple_Ok & Hm).
    apply bind_Ok in Hm as (range & Hr & [= <-]). cbn [ld_source_range].
    apply optional_Ok in Hr; [|done].
    split; [|by exists d]. split; cbn.
    + by repeat constructor.
    + intros r ->. by apply range_from_mapping_Ok in Hr as [? _].
  - intros [[Ht _] (d & -> & H1 & H2 & H3 & H4 & H5)]. destruct x as [name kind owner deps range]. cbn in *.
    repeat match type of Ht with Forall _ (_ :: _) => apply Forall_cons in Ht as [? Ht] end.
    cbn [mbind result_bind lean_require_mapping]. rewrite H1, H2, H3, H4.
    rewrite !read_text, read_texts by done.
    by rewrite (proj2 (optional_Ok range_from_mapping _ range ltac:(done))) by exact H5.
Qed.

Lemma interface_from_mapping_Ok v x : interface_from_mapping v = Ok x ↔
  InterfaceOk x ∧ ∃ d, v = JObj d ∧
    get d "value_source" = (match li_value_source x with Some s => JStr s | None => JNull end) ∧
    get d "declaration_role" = JStr (li_declaration_role x) ∧ get d "name" = JStr (li_name x) ∧
    get d "level_params" = JList (JStr <$> li_level_params x) ∧
    get d "type_source" = JStr (li_type_source x).
Proof.
  unfold interface_from_mapping. split.
  - intros Hm. apply bind_Ok in Hm as (d & ->%lean_require_mapping_Ok & Hm).
    apply bind_Ok in Hm as (value & Hv & Hm).
    apply bind_Ok in Hm as (role & [Hr _]%lean_require_string_Ok & Hm).
    apply guard_Ok in Hm as [Hrole%bool_decide_eq_true Hm].
    apply bind_Ok in Hm as (name & [? ?]%lean_require_string_Ok & Hm).
    apply bind_Ok in Hm as (params & [? ?]%lean_require_string_tuple_Ok & Hm).
    apply bind_Ok in Hm as (type & [? ?]%lean_require_string_Ok & [= <-]).
    apply optional_Ok in Hv; [|done].
    assert (get d "value_source" = match value with Some s => JStr s | None => JNull end ∧
            ∀ s, value = Some s → nonempty s) as [? ?].
    { destruct value as [s|]; [|done]. apply lean_require_string_Ok in Hv as [-> ?]. split; [done|]. by intros ? [= <-]. }
    split; [|by exists d]. split; cbn; [|done|done]. by repeat constructor.
  - intros [[Ht Hrole Hvalue] (d & -> & H1 & H2 & H3 & H4 & H5)].
    destruct x as [name role params type value]. cbn in *.
    repeat match type of Ht with Forall _ (_ :: _) => apply Forall_cons in Ht as [? Ht] end.
    assert (nonempty role) as Hne.
    { intros ->. unfold DECLARATION_ROLES in Hrole. rewrite !elem_of_cons, elem_of_nil in Hrole. naive_solver. }
    cbn [mbind result_bind lean_require_mapping]. rewrite H2, H3, H4, H5.
    assert (optional (λ s, lean_require_string s "proof_base_interface.value_source")
              (get d "value_source") = Ok value) as ->.
    { apply optional_Ok; [done|]. destruct value as [s|]; [|done]. rewrite H1. apply read_text. auto. }
    cbn [mbind result_bind]. rewrite !read_text, read_texts by done. cbn [mbind result_bind].
    by rewrite bool_decide_eq_true_2.
Qed.

(** The fields of the object a closure is read from. *)
Definition closure_object (d : dict string Json) (c : LeanDeclarationClosure) : Prop :=
  get d "schema_id" = JStr (lc_schema_id c) ∧ get d "lean_version" = JStr (lc_lean_version c) ∧
  get d "root_module" = JStr (lc_root_module c) ∧
  get d "root_declarations" = JList (JStr <$> lc_root_declarations c) ∧
  get d "base_imports" = JList (JStr <$> lc_base_imports c) ∧
  get d "proof_base_imports" = JList (JStr <$> lc_proof_base_imports c) ∧
  get d "owner_modules" = JList (JStr <$> lc_owner_modules c) ∧
  (∃ l, get d "proof_base_interface" = JList l ∧
     mapM interface_from_mapping l = Ok (lc_proof_base_interface c)) ∧
  ∃ l, get d "declarations" = JList l ∧ mapM declaration_from_mapping l = Ok (lc_declarations c).

Lemma closure_from_mapping_Ok v c : closure_from_mapping v = Ok c ↔
  LeanClosureSpec c ∧ LeanClosureFields c ∧ ∃ d, v = JObj d ∧ closure_object d c.
Proof.
  unfold closure_from_mapping, closure_object. split.
  - intros Hm. apply bind_Ok in Hm as (d & ->%lean_require_mapping_Ok & Hm).
    apply bind_Ok in Hm as (declarations & Hd%lean_require_mapping_list_Ok & Hm).
    do 3 (apply bind_Ok in Hm as (? & [? ?]%lean_require_string_Ok & Hm)).
    do 3 (apply bind_Ok in Hm as (? & [? ?]%lean_require_string_tuple_Ok & Hm)).
    apply bind_Ok in Hm as (interface & Hi%lean_require_mapping_list_Ok & Hm).
    apply bind_Ok in Hm as (faces & Hmi & Hm).
    apply bind_Ok in Hm as (? & [? ?]%lean_require_string_tuple_Ok & Hm).
    apply bind_Ok in Hm as (ds & Hmd & [-> Hspec]%check_closure_Ok).
    split; [done|]. split.
    + split; cbn [lc_root_declarations lc_base_imports lc_proof_base_imports lc_owner_modules
        lc_proof_base_interface lc_declarations].
      * rewrite !Forall_app. by split_and!.
      * apply mapM_Ok in Hmi. clear -Hmi. induction Hmi as [|v x l k Hx _ IH]; constructor; [|done].
        by apply interface_from_mapping_Ok in Hx as [? _].
      * apply mapM_Ok in Hmd. clear -Hmd. induction Hmd as [|v x l k Hx _ IH]; constructor; [|done].
        by apply declaration_from_mapping_Ok in Hx as [? _].
    + exists d. split_and!; try done; by eexists.
  - intros (Hspec & [Ht _ _] & d & -> & H1 & H2 & H3 & H4 & H5 & H6 & H7 & (faces & H8 & Hmi) & ds & H9 & Hmd).
    rewrite !Forall_app in Ht. destruct Ht as (? & ? & ? & ?). destruct (ls_texts _ Hspec) as [? ?].
    assert (nonempty (lc_schema_id c)) by by rewrite (ls_schema _ Hspec).
    destruct c as [version root roots imports pimports interface owners declarations schema]. cbn in *.
    cbn [mbind result_bind lean_require_mapping]. rewrite H1, H2, H3, H4, H5, H6, H7, H8, H9.
    cbn [mbind result_bind lean_require_mapping_list]. rewrite !read_text, !read_texts by done.
    cbn [mbind result_bind]. rewrite Hmi, Hmd. cbn [mbind result_bind]. by apply check_closure_Ok.
Qed.

(** ** Reading what the manifest writes *)

Lemma get_tidy d k : dict_wf d → get (tidy_members d) k = tidy (get d k).
Proof. intros Hd. unfold get. rewrite dget_tidy by done. by destruct (dget k d). Qed.

Lemma tidy_int i : tidy (int_json i) = int_json i.
Proof. by destruct i. Qed.
Lemma tidy_texts l : tidy (JList (JStr <$> l)) = JList (JStr <$> l).
Proof. cbn [tidy]. f_equal. induction l as [|s l IH]; [done|]. csimpl. by rewrite IH. Qed.

(** An object of the manifest has each of its keys once. *)
Ltac closed_keys := refine (bool_decide_unpack (NoDup _) _); vm_compute; exact I.

Lemma range_reads_back r : RangeOk r → range_from_mapping (tidy (range_record r)) = Ok r.
Proof.
  intros Hr. apply range_from_mapping_Ok. split; [done|]. unfold range_record. rewrite tidy_obj.
  eexists. split; [done|]. rewrite !get_tidy by closed_keys. split_and!; apply tidy_int.
Qed.

Lemma declaration_reads_back d : DeclarationOk d →
  declaration_from_mapping (tidy (lean_declaration_record d)) = Ok d.
Proof.
  intros Hd. apply declaration_from_mapping_Ok. split; [done|]. destruct Hd as [_ Hr].
  destruct d as [name kind owner deps [r|]]; unfold lean_declaration_record; cbn [app ld_source_range
    ld_name ld_kind ld_owner_module ld_local_dependencies]; rewrite tidy_obj; (eexists; split; [done|]);
    rewrite !get_tidy by closed_keys; split_and!; try done; try apply tidy_texts.
  by apply range_reads_back, Hr.
Qed.

Lemma interface_reads_back i : InterfaceOk i → interface_from_mapping (tidy (interface_record i)) = Ok i.
Proof.
  intros Hi. apply interface_from_mapping_Ok. split; [done|]. unfold interface_record. rewrite tidy_obj.
  eexists. split; [done|]. rewrite !get_tidy by closed_keys.
  split_and!; try done; [by destruct (li_value_source i)|apply tidy_texts].
Qed.

Lemma mapM_reads_back {A} (read : Json → result Exn A) (write : A → Json) (P : A → Prop) l :
  (∀ x, P x → read (tidy (write x)) = Ok x) → Forall P l → mapM read (map tidy (write <$> l)) = Ok l.
Proof.
  intros Hr Hl. apply mapM_Ok. induction Hl as [|x l Hx _ IH]; constructor; [|done]. by apply Hr.
Qed.

Lemma manifest_reads_back c : LeanClosureSpec c → LeanClosureFields c →
  closure_from_mapping (tidy (closure_manifest c)) = Ok c.
Proof.
  intros Hs Hf. apply closure_from_mapping_Ok. split; [done|]. split; [done|].
  unfold closure_manifest. rewrite tidy_obj. eexists. split; [done|]. unfold closure_object.
  rewrite !get_tidy by closed_keys. split_and!; try done; try apply tidy_texts.
  - eexists. split; [done|]. apply (mapM_reads_back _ _ InterfaceOk); [apply interface_reads_back|apply Hf].
  - eexists. split; [done|]. apply (mapM_reads_back _ _ DeclarationOk); [apply declaration_reads_back|apply Hf].
Qed.

Lemma well_formed_texts float_repr l : well_formed float_repr (JList (JStr <$> l)).
Proof. constructor. apply Forall_fmap, Forall_true. intros s. constructor. Qed.

Lemma manifest_well_formed float_repr c : well_formed float_repr (closure_manifest c).
Proof.
  pose proof (well_formed_texts float_repr) as Ht. unfold closure_manifest.
  constructor; [closed_keys|]. repeat apply Forall_cons_2; try apply Forall_nil_2; cbn [snd]; try done;
    try constructor; apply Forall_fmap, Forall_true.
  - intros [name kind owner deps [r|]]; cbn; (constructor; [closed_keys|]);
      repeat apply Forall_cons_2; try apply Forall_nil_2; cbn [snd]; try done; try constructor.
    + closed_keys.
    + repeat apply Forall_cons_2; try apply Forall_nil_2; cbn [snd];
        match goal with |- well_formed _ (int_json ?i) => destruct i; constructor end.
  - intros [name role params type [s|]]; cbn; (constructor; [closed_keys|]);
      repeat apply Forall_cons_2; try apply Forall_nil_2; cbn [snd]; try done; constructor.
Qed.

Lemma default_hook_Ok d : NoDup d.*1 → default_hook d = Ok (JObj d).
Proof. intros Hd. unfold default_hook. by rewrite dict_of_id. Qed.

(** ** The parser raises nothing else *)

Definition lean_raises {A} (m : result Exn A) : Prop :=
  ∀ e, m = Raise e → ∃ code detail, e = LeanClosureError code detail.

Create HintDb lean_raises.

Lemma lean_raises_Ok {A} (x : A) : lean_raises (Ok x).
Proof. done. Qed.
Lemma lean_raises_error {A} code detail : lean_raises (A:=A) (Raise (LeanClosureError code detail)).
Proof. intros e [= <-]. eauto. Qed.
Lemma lean_raises_bind {A B} (m : result Exn A) (f : A → result Exn B) :
  lean_raises m → (∀ x, lean_raises (f x)) → lean_raises (m ≫= f).
Proof. intros Hm Hf e [H|(x & _ & H)]%bind_Raise; [by apply Hm|by eapply Hf]. Qed.
Lemma lean_raises_fmap {A B} (f : A → B) (m : result Exn A) : lean_raises m → lean_raises (f <$> m).
Proof. destruct m; [done|]. intros Hm e' [= <-]. by apply Hm. Qed.
Lemma lean_raises_require b code detail : lean_raises (require b (LeanClosureError code detail)).
Proof. destruct b; [done|apply lean_raises_error]. Qed.
Lemma lean_raises_option {A} (o : option A) code detail :
  lean_raises (of_option (LeanClosureError code detail) o).
Proof. destruct o; [done|apply lean_raises_error]. Qed.
Lemma lean_raises_mapM {A B} (f : A → result Exn B) l :
  (∀ x, lean_raises (f x)) → lean_raises (mapM f l).
Proof.
  intros Hf. induction l as [|x l IH]; [done|]. cbn [mapM].
  apply lean_raises_bind; [done|]. intros y. by apply lean_raises_bind.
Qed.
Lemma lean_raises_foldM {A B} (f : B → A → result Exn B) l :
  (∀ b x, lean_raises (f b x)) → ∀ b, lean_raises (foldM f b l).
Proof. intros Hf. induction l as [|x l IH]; intros b; [done|]. cbn [foldM]. by apply lean_raises_bind. Qed.

Lemma lean_raises_optional {A} (read : Json → result Exn A) v :
  (∀ x, lean_raises (read x)) → lean_raises (optional read v).
Proof. intros Hr. unfold optional. case_bool_decide; [done|]. by apply lean_raises_fmap. Qed.
Lemma lean_raises_mapping v code : lean_raises (lean_require_mapping v code).
Proof. destruct v; try apply lean_raises_error; done. Qed.
Lemma lean_raises_mapping_list v field : lean_raises (lean_require_mapping_list v field).
Proof. destruct v; try apply lean_raises_error; done. Qed.

#[export] Hint Resolve lean_raises_Ok lean_raises_error lean_raises_require lean_raises_option
  lean_raises_mapping lean_raises_mapping_list : lean_raises.

Ltac lean_raises := repeat match goal with
  | |- ∀ _, _ => intro
  | |- lean_raises (_ ≫= _) => apply lean_raises_bind
  | |- lean_raises (_ <$> _) => apply lean_raises_fmap
  | |- lean_raises (mapM _ _) => apply lean_raises_mapM
  | |- lean_raises (foldM _ _ _) => apply lean_raises_foldM
  | |- lean_raises (optional _ _) => apply lean_raises_optional
  | |- _ => solve [eauto 2 with lean_raises]
  end.

Lemma range_from_mapping_raises v : lean_raises (range_from_mapping v).
Proof. unfold range_from_mapping, range_int. lean_raises. Qed.
Lemma closure_from_mapping_raises v : lean_raises (closure_from_mapping v).
Proof.
  pose proof range_from_mapping_raises.
  unfold closure_from_mapping, check_closure, emit_declaration, interface_from_mapping,
    declaration_from_mapping, lean_require_string_tuple, lean_require_string. lean_raises.
Qed.

(** C32. [LeanDeclarationClosure.from_json] answers on every text, and only
    closures whose declarations come after those they depend on, with the
    roots among them and the owner modules sorted and complete; it answers
    every such closure when it reads its canonical manifest. *)
Theorem lean_closures_read_back (float_repr : string → string) :
  (∀ source, match closure_from_json float_repr source with
             | None => False
             | Some (Ok c) => LeanClosureSpec c ∧ LeanClosureFields c
             | Some (Raise e) => ∃ code detail, e = LeanClosureError code detail
             end) ∧
  ∀ c, LeanClosureSpec c → LeanClosureFields c →
    closure_from_json float_repr (write_json (closure_manifest c)) = Some (Ok c).
Proof.
  split.
  - intros source. unfold closure_from_json.
    pose proof (json_loads_total float_repr default_hook source) as Ht.
    destruct (json_loads float_repr default_hook source) as [[v|e]|]; [|by eexists _, _|done].
    cbn [mbind option_bind]. destruct (closure_from_mapping v) as [c|e] eqn:E.
    + by apply closure_from_mapping_Ok in E as (? & ? & _).
    + by apply (closure_from_mapping_raises v).
  - intros c Hs Hf. unfold closure_from_json.
    rewrite json_loads_tidy; [|apply default_hook_Ok|apply manifest_well_formed].
    cbn [mbind option_bind]. f_equal. by apply manifest_reads_back.
Qed.
