(* ===== verification/LeanOwnerOrder.v ===== *)
(** * The order of the owner modules

    [owner_modules_in_dependency_order] puts a module after those its
    declarations need, or the needs are cyclic. *)

From S2P Require Import Prelude PyDict GraphTypes Receipts Text Merkle EvidenceModel SchemeDatum Sort ReceiptGraph ReceiptGraphFacts Json JsonFacts LeanClosure LeanClosureFacts.

(** Module [m] needs module [n]. *)
Definition module_needs (c : LeanDeclarationClosure) (n m : string) : Prop :=
  n ≠ m ∧ ∃ d e, d ∈ lc_declarations c ∧ e ∈ lc_declarations c ∧ ld_owner_module d = m ∧
    ld_owner_module e = n ∧ ld_name e ∈ ld_local_dependencies d.

(** ** The rounds *)

Section rounds.
Context (dependencies : dict string (list string)) (Hwf : dict_wf dependencies).

Definition needs (n m : string) : Prop := ∃ l, dget m dependencies = Some l ∧ n ∈ l.
Context (Hneeds : ∀ n m, needs n m → n ∈ dkeys dependencies).

Record RoundInv (result : list string) : Prop := {
  ri_nodup : NoDup result;
  ri_sub m : m ∈ result → m ∈ dkeys dependencies;
  ri_order i m n : result !! i = Some m → needs n m → n ∈ take i result
}.

Lemma elem_of_ready_owners result m : m ∈ ready_owners dependencies result ↔
  m ∈ dkeys dependencies ∧ m ∉ result ∧ ∀ n, needs n m → n ∈ result.
Proof.
  unfold ready_owners. rewrite elem_of_sort_by, list_elem_of_fmap. unfold needs. split.
  - intros ([m' l] & -> & [[Hm Hl] Hin]%list_elem_of_filter). cbn.
    assert (dget m' dependencies = Some l) as E by by apply dget_elem_wf.
    split; [apply dget_is_Some; by eexists|]. split; [done|]. intros n (l' & E' & Hn).
    rewrite all_members in Hl. apply Hl. congruence.
  - intros (Hm & Hr & Hn). apply dget_is_Some in Hm as [l E]. exists (m, l). split; [done|].
    apply list_elem_of_filter. split; [|by apply dget_Some_elem]. split; [done|].
    apply all_members. intros n Hin. apply Hn. eauto.
Qed.

Lemma ready_NoDup result : NoDup (ready_owners dependencies result).
Proof.
  unfold ready_owners. rewrite (sort_by_perm str_leb).
  by apply NoDup_fmap_filter.
Qed.

Lemma round_step result : RoundInv result → RoundInv (result ++ ready_owners dependencies result).
Proof.
  intros [Hnd Hsub Hord]. split.
  - apply NoDup_app. split_and!; [done| |apply ready_NoDup]. intros m Hm (_ & Hr & _)%elem_of_ready_owners. done.
  - intros m [Hm|Hm]%elem_of_app; [by apply Hsub|by apply elem_of_ready_owners in Hm as [? _]].
  - intros i m n Hi Hn. apply lookup_app_Some in Hi as [Hi|[Hle Hi]].
    + rewrite take_app_le by (apply lookup_lt_Some in Hi; lia). by eapply Hord.
    + apply list_elem_of_lookup_2, elem_of_ready_owners in Hi as (_ & _ & Hi).
      rewrite take_app_ge by done. apply elem_of_app. left. by apply Hi.
Qed.

(** Some owner is ready unless all are done or the needs are cyclic. *)
Lemma round_ready result : well_founded needs → ready_owners dependencies result = [] →
  ∀ m, m ∈ dkeys dependencies → m ∈ result.
Proof.
  intros Hn Hr m. induction m as [m IH] using (well_founded_ind Hn). intros Hm.
  destruct (decide (m ∈ result)) as [|Hout]; [done|]. exfalso.
  assert (m ∈ ready_owners dependencies result) as Hin.
  { apply elem_of_ready_owners. split; [done|]. split; [done|]. intros n Hnm. apply IH; [done|]. by eapply Hneeds. }
  rewrite Hr in Hin. by apply not_elem_of_nil in Hin.
Qed.

Lemma round_length result : RoundInv result → (length result ≤ length dependencies)%nat ∧
  ((length dependencies ≤ length result)%nat → result ≡ₚ dkeys dependencies).
Proof.
  intros [Hnd Hsub _]. assert (length (dkeys dependencies) = length dependencies) as <- by apply length_fmap.
  split; [by apply submseteq_length, NoDup_submseteq|]. intros Hle. by apply NoDup_subset_perm.
Qed.

(** A complete order leaves no cycle. *)
Lemma complete_well_founded result : RoundInv result → result ≡ₚ dkeys dependencies → well_founded needs.
Proof.
  intros [_ _ Hord] Hperm.
  assert (∀ i m, result !! i = Some m → Acc needs m) as Hacc.
  { intros i; induction i as [i IH] using lt_wf_ind. intros m Hi. constructor. intros n Hn.
    pose proof (Hord i m n Hi Hn) as Hin. apply list_elem_of_lookup in Hin as [j Hj].
    apply lookup_take_Some in Hj as [Hj Hlt]. by apply (IH j). }
  intros m. constructor. intros n Hn. apply Hneeds in Hn. rewrite <-Hperm in Hn.
  apply list_elem_of_lookup in Hn as [i Hi]. by eapply Hacc.
Qed.

Lemma owner_rounds_spec fuel : ∀ result, RoundInv result →
  (length dependencies ≤ fuel + length result)%nat →
  match owner_rounds fuel dependencies result with
  | None => False
  | Some (Ok order) => RoundInv order ∧ order ≡ₚ dkeys dependencies
  | Some (Raise e) => (∃ detail, e = LeanClosureError "owner-module-cycle" detail) ∧ ¬ well_founded needs
  end.
Proof.
  induction fuel as [|fuel IH]; intros result Hr Hf; cbn [owner_rounds];
    pose proof (round_length _ Hr) as [Hle Hperm];
    destruct (Nat.ltb_spec (length result) (length dependencies)) as [Hlt|Hge]; auto; [lia|].
  case_bool_decide as Hnil.
  - split; [by eexists|]. intros Hn. pose proof (round_ready _ Hn Hnil) as Hall.
    assert (length (dkeys dependencies) ≤ length result)%nat; [|unfold dkeys in *; rewrite length_fmap in *; lia].
    by apply submseteq_length, NoDup_submseteq.
  - apply IH; [by apply round_step|]. rewrite length_app.
    destruct (ready_owners dependencies result); [done|]. cbn [length]. lia.
Qed.
End rounds.

(** ** The dependencies between the modules *)

Section edges.
Context (owners : dict string string).

(** The two loops as one, over the pairs of a module and a dependency. *)
Definition add_edge (dependencies : dict string (list string)) (m : string * string) :=
  add_owner_dependency owners m.1 dependencies m.2.
Definition module_edges (l : list LeanDeclaration) : list (string * string) :=
  l ≫= λ d, (λ x, (ld_owner_module d, x)) <$> ld_local_dependencies d.

Lemma add_edges_loop l : ∀ dependencies,
  foldM (λ dependencies d, foldM (add_owner_dependency owners (ld_owner_module d)) dependencies
           (ld_local_dependencies d)) dependencies l = foldM add_edge dependencies (module_edges l).
Proof.
  induction l as [|d l IH]; intros deps; [done|]. cbn [foldM]. unfold module_edges. csimpl.
  rewrite foldM_app.
  assert (∀ k deps, foldM add_edge deps ((λ x, (ld_owner_module d, x)) <$> k)
    = foldM (add_owner_dependency owners (ld_owner_module d)) deps k) as ->.
  { clear. induction k as [|x k IH]; intros deps; [done|]. csimpl. cbn [foldM].
    change (add_edge deps (ld_owner_module d, x))
      with (add_owner_dependency owners (ld_owner_module d) deps x).
    destruct (add_owner_dependency _ _ _ _); [apply IH|done]. }
  by destruct (foldM _ deps _); [apply IH|].
Qed.

Lemma add_owner_need_Ok deps m x n : dict_wf deps → dget x owners = Some n → m ∈ dkeys deps →
  ∃ deps', add_edge deps (m, x) = Ok deps' ∧ dkeys deps' = dkeys deps ∧
    ∀ n' m', needs deps' n' m' ↔ needs deps n' m' ∨ m' = m ∧ n' = n ∧ n ≠ m.
Proof.
  intros Hwf Hx Hm. apply dget_is_Some in Hm as [known Hk]. unfold add_edge, add_owner_dependency.
  cbn [fst snd]. rewrite Hx. cbn [of_option mbind result_bind]. case_bool_decide as Hnm.
  { exists deps. split_and!; [done..|]. naive_solver. }
  rewrite Hk. cbn [of_option mbind result_bind]. eexists. split; [done|]. split.
  { rewrite dkeys_dset. assert (dmem m deps = true) as -> by (apply dmem_spec, dget_is_Some; by eexists). done. }
  intros n' m'. unfold needs. destruct (decide (m' = m)) as [->|Hne].
  - setoid_rewrite dget_dset_eq. rewrite Hk.
    assert (∀ l : list string, (∃ l', Some l = Some l' ∧ n' ∈ l') ↔ n' ∈ l) as Hl by naive_solver. rewrite !Hl.
    case_bool_decide as Hin; [|rewrite elem_of_app, list_elem_of_singleton]; naive_solver.
  - setoid_rewrite dget_dset_ne; [|done]. naive_solver.
Qed.

Lemma add_owner_needs_Ok l : ∀ deps, dict_wf deps →
  (∀ m x, (m, x) ∈ l → m ∈ dkeys deps ∧ is_Some (dget x owners)) →
  ∃ deps', foldM add_edge deps l = Ok deps' ∧ dkeys deps' = dkeys deps ∧
    ∀ n m, needs deps' n m ↔ needs deps n m ∨ n ≠ m ∧ ∃ x, (m, x) ∈ l ∧ dget x owners = Some n.
Proof.
  induction l as [|[m x] l IH]; intros deps Hwf Hl; cbn [foldM].
  { exists deps. split_and!; [done..|]. intros n m. split; [by left|].
    intros [?|(_ & x & Hx & _)]; [done|]. by apply not_elem_of_nil in Hx. }
  destruct (Hl m x ltac:(by left)) as [Hm [n Hx]].
  destruct (add_owner_need_Ok deps m x n Hwf Hx Hm) as (deps1 & -> & Hk1 & Hn1). cbn [mbind result_bind].
  destruct (IH deps1) as (deps2 & -> & Hk2 & Hn2).
  { unfold dict_wf. by rewrite Hk1. }
  { intros m' x' Hin. rewrite Hk1. apply Hl. by right. }
  exists deps2. split; [done|]. split; [by rewrite Hk2|]. intros n' m'. rewrite Hn2, Hn1.
  setoid_rewrite elem_of_cons. split.
  - intros [[?|(-> & -> & ?)]|(? & x' & ? & ?)]; [by left|right; eauto..].
  - intros [?|(? & x' & [[= -> ->]|?] & ?)]; [by left; left| |right; eauto].
    left. right. assert (n' = n) as -> by congruence. done.
Qed.
End edges.

(** ** The order *)

Section order.
Context (c : LeanDeclarationClosure) (Hc : LeanClosureSpec c).

Lemma dget_owner x n : dget x (declaration_owners c) = Some n ↔
  ∃ e, e ∈ lc_declarations c ∧ ld_name e = x ∧ ld_owner_module e = n.
Proof.
  unfold declaration_owners. rewrite dget_dict_of_wf.
  2:{ rewrite <-list_fmap_compose. apply (ls_names _ Hc). }
  rewrite list_elem_of_fmap. naive_solver.
Qed.

Lemma elem_of_module_edges m x : (m, x) ∈ module_edges (lc_declarations c) ↔
  ∃ d, d ∈ lc_declarations c ∧ ld_owner_module d = m ∧ x ∈ ld_local_dependencies d.
Proof.
  unfold module_edges. rewrite list_elem_of_bind. setoid_rewrite list_elem_of_fmap. naive_solver.
Qed.

(** A dependency of a declaration is declared. *)
Lemma dependency_declared d x : d ∈ lc_declarations c → x ∈ ld_local_dependencies d →
  ∃ e, e ∈ lc_declarations c ∧ ld_name e = x.
Proof.
  intros [i Hi]%list_elem_of_lookup Hx. pose proof (ls_order _ Hc i d x Hi Hx) as Hin.
  apply elem_of_take in Hin as (j & Hj & _). apply list_lookup_fmap_Some in Hj as (e & -> & He).
  exists e. split; [by eapply list_elem_of_lookup_2|done].
Qed.

Lemma owner_dependencies_Ok : ∃ deps, owner_dependencies c = Ok deps ∧ dict_wf deps ∧
  (∀ m, m ∈ dkeys deps ↔ m ∈ lc_owner_modules c) ∧ ∀ n m, needs deps n m ↔ module_needs c n m.
Proof.
  destruct (ls_owners _ Hc) as (_ & _ & Ho). unfold owner_dependencies. rewrite add_edges_loop.
  set (deps0 := dict_of ((λ owner, (owner, [])) <$> lc_owner_modules c)).
  assert (∀ m, m ∈ dkeys deps0 ↔ m ∈ lc_owner_modules c) as H0.
  { intros m. unfold deps0. rewrite elem_of_dkeys_dict_of, <-list_fmap_compose. unfold compose. cbn.
    by rewrite list_fmap_id. }
  destruct (add_owner_needs_Ok (declaration_owners c) (module_edges (lc_declarations c)) deps0)
    as (deps & -> & Hk & Hn).
  { apply dict_of_wf. }
  { intros m x (d & Hd & <- & Hx)%elem_of_module_edges. split.
    - apply H0, Ho, list_elem_of_fmap. eauto.
    - destruct (dependency_declared d x Hd Hx) as (e & He & Hex). exists (ld_owner_module e).
      apply dget_owner. eauto. }
  exists deps. split; [done|]. split; [unfold dict_wf; rewrite Hk; apply dict_of_wf|].
  split; [by rewrite Hk|]. intros n m. rewrite Hn. unfold module_needs.
  setoid_rewrite elem_of_module_edges. setoid_rewrite dget_owner. split.
  - intros [(l & Hl & Hin)|(? & x & (d & ? & ? & ?) & e & ? & ? & ?)].
    + unfold deps0 in Hl. rewrite dget_constant in Hl. destruct (decide _); [|done].
      injection Hl as <-. by apply not_elem_of_nil in Hin.
    + split; [done|]. exists d, e. subst. by split_and!.
  - intros (? & d & e & ? & ? & ? & ? & ?). right. split; [done|]. exists (ld_name e). eauto 10.
Qed.
End order.

Lemma owner_order_spec (c : LeanDeclarationClosure) : LeanClosureSpec c →
  match owner_modules_in_dependency_order c with
  | None => False
  | Some (Ok order) => order ≡ₚ lc_owner_modules c ∧ well_founded (module_needs c) ∧
      ∀ i m n, order !! i = Some m → module_needs c n m → n ∈ take i order
  | Some (Raise e) => (∃ detail, e = LeanClosureError "owner-module-cycle" detail) ∧
      ¬ well_founded (module_needs c)
  end.
Proof.
  intros Hc.
  destruct (owner_dependencies_Ok c Hc) as (deps & E & Hwf & Hk & Hn).
  assert (∀ n m, needs deps n m → n ∈ dkeys deps) as Hneeds.
  { intros n m (_ & d & e & _ & He & _ & <- & _)%Hn. apply Hk.
    destruct (ls_owners _ Hc) as (_ & _ & Ho). apply Ho, list_elem_of_fmap. eauto. }
  assert (well_founded (needs deps) ↔ well_founded (module_needs c)) as Hw
    by (apply well_founded_iff; intros n m; apply Hn).
  unfold owner_modules_in_dependency_order. rewrite E.
  pose proof (owner_rounds_spec deps Hwf Hneeds (length deps) []) as H. cbn [length] in H.
  destruct (owner_rounds _ _ _) as [[order|e]|].
  - destruct H as [[Hnd Hsub Hord] Hperm]; [split; [constructor|by intros ? ?%not_elem_of_nil|done]|lia|].
    split_and!.
    + apply NoDup_Permutation; [done|apply (ls_owners _ Hc)|]. intros m. by rewrite Hperm, Hk.
    + apply Hw. by eapply complete_well_founded.
    + intros i m n Hi Hnm. apply (Hord i m n Hi). by apply Hn.
  - rewrite <-Hw. apply H; [split; [constructor|by intros ? ?%not_elem_of_nil|done]|lia].
  - apply H; [split; [constructor|by intros ? ?%not_elem_of_nil|done]|lia].
Qed.

(** C31. For every closure the constructor accepts, the order of the owner
    modules is found: it lists each of them once, after the modules it needs; or
    the needs are cyclic, and the error says so.  Which of the two happens is
    decided by the needs alone. *)
Theorem owner_order_follows_needs (c : LeanDeclarationClosure) :
  match check_closure c with
  | Raise _ => True
  | Ok _ =>
      match owner_modules_in_dependency_order c with
      | None => False
      | Some (Ok order) => order ≡ₚ lc_owner_modules c ∧ well_founded (module_needs c) ∧
          ∀ i m n, order !! i = Some m → module_needs c n m → n ∈ take i order
      | Some (Raise e) => (∃ detail, e = LeanClosureError "owner-module-cycle" detail) ∧
          ¬ well_founded (module_needs c)
      end
  end.
Proof.
  destruct (check_closure c) as [c'|] eqn:E; [|done]. apply check_closure_Ok in E as [_ Hc].
  by apply owner_order_spec.
Qed.
