(* ===== verification/SourceText.v ===== *)
(** * Source ranges ([axle_exact_closure.py], lines 341 to 438)

    (In [src/packages/proofs/python/src/poo_flow_proof/].)  Lean positions count
    lines from one and UTF-16 units inside a line; the sources cut the text of
    a declaration out of its file and coalesce nested ranges.  Units and lines
    of a range are not negative, as the parser of ranges checks. *)

From Stdlib Require Import Ascii.
From S2P Require Import Prelude PyDict GraphTypes Receipts Text Merkle EvidenceModel SchemeDatum Sort ReceiptGraph Json Refinement LeanClosure.

Definition ExactError (code detail : string) : Exn :=
  PyError "AxleExactClosureError" (code +:+ ": " +:+ detail).

(** [dict.fromkeys(l)], as the sequence of its keys. *)
Definition from_keys (l : list string) : list string := dkeys (dict_of ((λ x, (x, ())) <$> l)).

(** ** Text *)

(** [str.splitlines(keepends=True)]; [skip] counts the bytes of a separator
    still to come. *)
Fixpoint splitlines_keep_aux (skip : nat) (line s : string) : list string :=
  match s with
  | EmptyString => if bool_decide (line = "") then [] else [line]
  | String c s' =>
      let line' := line +:+ String c "" in
      match skip with
      | S O => line' :: splitlines_keep_aux 0 "" s'
      | S (S n) => splitlines_keep_aux (S n) line' s'
      | O =>
          match line_break s with
          | Some 1%nat => line' :: splitlines_keep_aux 0 "" s'
          | Some (S (S n)) => splitlines_keep_aux (S n) line' s'
          | _ => splitlines_keep_aux 0 line' s'
          end
      end
  end.
Definition splitlines_keep (s : string) : list string := splitlines_keep_aux 0 "" s.

(** The UTF-16 units of a character, which is given by its UTF-8 bytes. *)
Definition utf16_units (character : string) : Z :=
  match character with
  | String c _ => if (240 <=? nat_of_ascii c)%nat then 2 else 1
  | EmptyString => 0
  end.
Definition utf16_length (chars : list string) : Z := foldr Z.add 0 (utf16_units <$> chars).

(** The characters that take [units] units, unless one of them is split. *)
Fixpoint utf16_take (units : Z) (chars : list string) : option (list string) :=
  if units =? 0 then Some []
  else match chars with
       | [] => None
       | c :: chars => if units <? utf16_units c then None
                       else cons c <$> utf16_take (units - utf16_units c) chars
       end.

(** [_utf16_prefix], as a list of characters. *)
Definition utf16_prefix (text : string) (units : Z) : result Exn (list string) :=
  let available := utf16_length (characters text) in
  _ ← require (units <=? available)
        (ExactError "source-range-outside-line"
           ("utf16=" +:+ str_of_Z units +:+ "; available=" +:+ str_of_Z available));
  of_option (ExactError "source-range-splits-codepoint" ("utf16=" +:+ str_of_Z units))
    (utf16_take units (characters text)).

(** [lines[i]]. *)
Definition line_at (lines : list string) (i : Z) : result Exn string :=
  let i := if i <? 0 then i + Z.of_nat (length lines) else i in
  of_option (IndexError "list index out of range")
    (if i <? 0 then None else lines !! Z.to_nat i).

Definition slice_source_range (source : string) (r : LeanSourceRange) : result Exn string :=
  let lines := splitlines_keep source in
  let count := Z.of_nat (length lines) in
  let end_number := int_value (sr_end_line r) in
  _ ← require (end_number <=? count)
        (ExactError "source-range-outside-file"
           ("end-line=" +:+ str_of_Z end_number +:+ "; lines=" +:+ str_of_Z count));
  let start_index := int_value (sr_start_line r) - 1 in
  let end_index := end_number - 1 in
  start_line ← line_at lines start_index;
  end_line ← line_at lines end_index;
  start_prefix ← utf16_prefix start_line (int_value (sr_start_char_utf16 r));
  end_prefix ← utf16_prefix end_line (int_value (sr_end_char_utf16 r));
  if start_index =? end_index then Ok (str_concat (drop (length start_prefix) end_prefix))
  else Ok (str_concat (drop (length start_prefix) (characters start_line))
           +:+ str_concat (take (Z.to_nat (end_index - (start_index + 1)))
                             (drop (Z.to_nat (start_index + 1)) lines))
           +:+ str_concat end_prefix).

(** ** Ranges *)

(** [a <= b] of tuples. *)
Definition pair_le (x y : Z * Z) : bool := negb (pair_ltb y x).

Definition range_contains (outer inner : LeanSourceRange) : bool :=
  pair_le (range_start outer) (range_start inner) && pair_le (range_end inner) (range_end outer).

(** The key of the sort: the start, and the end backwards. *)
Definition range_leb (x y : LeanSourceRange * list string) : bool :=
  pair_ltb (range_start x.1) (range_start y.1)
  || (bool_decide (range_start x.1 = range_start y.1) && pair_le (range_end y.1) (range_end x.1)).

(** [str(range)]. *)
Definition int_repr (i : Int) : string :=
  match i with IntZ z => str_of_Z z | IntBool b => if b then "True" else "False" end.
Definition range_repr (r : LeanSourceRange) : string :=
  "LeanSourceRange(" +:+ str_join ", "
    ((λ m, m.1 +:+ "=" +:+ int_repr m.2) <$>
       [("start_line", sr_start_line r); ("start_column", sr_start_column r);
        ("start_char_utf16", sr_start_char_utf16 r); ("end_line", sr_end_line r);
        ("end_column", sr_end_column r); ("end_char_utf16", sr_end_char_utf16 r)]) +:+ ")".

(** The body of the loop of [_coalesce_source_ranges]. *)
Definition coalesce_step (coalesced : list (LeanSourceRange * list string))
    (entry : LeanSourceRange * list string) : result Exn (list (LeanSourceRange * list string)) :=
  let '(source_range, names) := entry in
  match list_find (λ existing, range_contains existing.1 source_range = true) coalesced with
  | Some (i, (existing_range, existing_names)) =>
      Ok (<[i := (existing_range, existing_names ++ names)]> coalesced)
  | None =>
      match list_find (λ existing,
              pair_ltb (range_start source_range) (range_end existing.1) = true) coalesced with
      | Some (_, (overlapping, _)) =>
          Raise (ExactError "partially-overlapping-source-ranges"
                   (range_repr overlapping +:+ " <> " +:+ range_repr source_range))
      | None => Ok (coalesced ++ [(source_range, names)])
      end
  end.

(** The argument is a dict from ranges to names, as the list of its items. *)
Definition coalesce_source_ranges (ranged_declarations : list (LeanSourceRange * list string)) :
    result Exn (list (LeanSourceRange * list string)) :=
  coalesced ← foldM coalesce_step [] (sort_by range_leb ranged_declarations);
  Ok (map (λ m, (m.1, from_keys m.2)) coalesced).

Example slice_of_two_lines :
  slice_source_range ("ab" +:+ newline +:+ "c😀d" +:+ newline)
    (MkRange (IntZ 1) (IntZ 1) (IntZ 1) (IntZ 2) (IntZ 2) (IntZ 3))
  = Ok ("b" +:+ newline +:+ "c😀").
Proof. vm_compute. reflexivity. Qed.
Example split_code_point :
  slice_source_range "😀" (MkRange (IntZ 1) (IntZ 0) (IntZ 0) (IntZ 1) (IntZ 1) (IntZ 1))
  = Raise (ExactError "source-range-splits-codepoint" "utf16=1").
Proof. vm_compute. reflexivity. Qed.
