(* ===== verification/SourceTextFacts.v ===== *)
(** * Slices are the text between two positions, coalesced ranges are apart *)

From Stdlib Require Import Ascii.
From S2P Require Import Prelude PyDict GraphTypes Receipts Text Merkle EvidenceModel SchemeDatum Sort ReceiptGraph ReceiptGraphFacts Json Refinement LeanClosure LeanClosureFacts SourceText.

(** ** Texts and their parts *)

Lemma str_concat_app l k : str_concat (l ++ k) = str_concat l +:+ str_concat k.
Proof.
  induction l as [|s l IH]; [done|]. unfold str_concat in *. cbn [app foldr]. by rewrite IH, sapp_assoc.
Qed.

Lemma splitlines_keep_concat s : str_concat (splitlines_keep s) = s.
Proof.
  assert (∀ s skip line, str_concat (splitlines_keep_aux skip line s) = line +:+ s) as H.
  { clear. induction s as [|c s IH]; intros skip line; cbn [splitlines_keep_aux].
    - case_bool_decide as Hl; [by rewrite Hl|]. unfold str_concat. cbn [foldr]. done.
    - assert (∀ k, str_concat ((line +:+ String c "") :: splitlines_keep_aux k "" s)
                   = line +:+ String c s) as Hc.
      { intros k. unfold str_concat. cbn [foldr]. fold (str_concat (splitlines_keep_aux k "" s)).
        rewrite IH, sapp_nil_l, sapp_assoc. done. }
      assert (∀ k, str_concat (splitlines_keep_aux k (line +:+ String c "") s) = line +:+ String c s) as Hk.
      { intros k. rewrite IH, sapp_assoc. done. }
      destruct skip as [|[|n]]; [|apply Hc|apply Hk].
      destruct (line_break _) as [[|[|n]]|]; [apply Hk|apply Hc|apply Hk|apply Hk]. }
  apply H.
Qed.

Lemma characters_concat s : str_concat (characters s) = s.
Proof.
  induction s as [|c s IH]; [done|]. cbn [characters]. unfold str_concat in *.
  destruct (characters s) as [|first rest] eqn:E, s as [|d s]; cbn [foldr] in *.
  - done.
  - rewrite IH. done.
  - rewrite IH. done.
  - destruct (_ && _); cbn [foldr]; by rewrite <-IH.
Qed.

Lemma utf16_length_app l k : utf16_length (l ++ k) = utf16_length l + utf16_length k.
Proof. induction l as [|c l IH]; [done|]. unfold utf16_length in *. csimpl. cbn [foldr]. lia. Qed.

Lemma utf16_units_nonneg c : 0 <= utf16_units c.
Proof. unfold utf16_units. destruct c as [|d c]; [lia|]. destruct (240 <=? nat_of_ascii d)%nat; lia. Qed.
Lemma utf16_length_nonneg l : 0 <= utf16_length l.
Proof.
  induction l as [|c l IH]; [done|]. unfold utf16_length in *. csimpl. cbn [foldr].
  pose proof (utf16_units_nonneg c). lia.
Qed.

(** Every character of a text takes a unit or two. *)
Lemma characters_units s : Forall (λ c, 0 < utf16_units c) (characters s).
Proof.
  assert (∀ d t, 0 < utf16_units (String d t)) as H.
  { intros d t. unfold utf16_units. destruct (240 <=? nat_of_ascii d)%nat; lia. }
  induction s as [|c s IH]; [constructor|]. cbn [characters].
  destruct (characters s) as [|first rest], s as [|d s]; try (constructor; [apply H|done]).
  destruct (_ && _); [|constructor; [apply H|done]]. apply Forall_cons in IH as [_ IH].
  constructor; [apply H|done].
Qed.

(** What a prefix of [units] units is. *)
Lemma utf16_take_Some chars : Forall (λ c, 0 < utf16_units c) chars → ∀ units p, 0 <= units →
  utf16_take units chars = Some p ↔ p `prefix_of` chars ∧ utf16_length p = units.
Proof.
  induction 1 as [|c chars Hc _ IH]; intros units p Hu; cbn [utf16_take]; destruct (Z.eqb_spec units 0) as [->|Hne].
  - split; [intros [= <-]; split; [apply prefix_nil|done]|]. intros [->%prefix_nil_inv _]. done.
  - split; [done|]. intros [->%prefix_nil_inv H]. cbn in H. lia.
  - split; [intros [= <-]; split; [apply prefix_nil|done]|]. intros [[k Hk] H].
    destruct p as [|d p]; [done|]. injection Hk as <- _. exfalso. revert H. unfold utf16_length. csimpl.
    cbn [foldr]. pose proof (utf16_length_nonneg p). unfold utf16_length in *. lia.
  - destruct (Z.ltb_spec units (utf16_units c)) as [Hlt|Hge].
    + split; [done|]. intros [[k Hk] H]. exfalso. destruct p as [|d p]; [cbn in H; lia|].
      injection Hk as <- _. revert H. unfold utf16_length. csimpl. cbn [foldr].
      pose proof (utf16_length_nonneg p). unfold utf16_length in *. lia.
    + rewrite fmap_Some. setoid_rewrite IH; [|lia]. split.
      * intros (q & [Hq Hl] & ->). split; [by apply prefix_cons|]. unfold utf16_length in *. csimpl. cbn [foldr]. lia.
      * intros [[k Hk] H]. destruct p as [|d p]; [cbn in H; lia|]. injection Hk as <- ->.
        exists p. split; [|done]. split; [by eexists|]. unfold utf16_length in *. csimpl in H. cbn [foldr] in H. lia.
Qed.

Lemma utf16_prefix_Ok text units p : 0 <= units →
  utf16_prefix text units = Ok p ↔ p `prefix_of` characters text ∧ utf16_length p = units.
Proof.
  intros Hu. unfold utf16_prefix. rewrite guard_Ok, of_option_Ok, utf16_take_Some;
    [|apply characters_units|done].
  split; [by intros [_ ?]|]. intros [[k Hk] Hl]. split; [|split; [by eexists|done]].
  rewrite Hk, utf16_length_app. pose proof (utf16_length_nonneg k). lia.
Qed.

(** ** Slices *)

(** [before] is the part of a text before a position, a line and UTF-16 units. *)
Definition at_position (source : string) (position : Z * Z) (before : string) : Prop :=
  ∃ line chars, splitlines_keep source !! Z.to_nat (position.1 - 1) = Some line ∧
    chars `prefix_of` characters line ∧ utf16_length chars = position.2 ∧
    before = str_concat (take (Z.to_nat (position.1 - 1)) (splitlines_keep source)) +:+ str_concat chars.

Lemma line_at_Ok lines i l : 0 <= i → line_at lines i = Ok l ↔ lines !! Z.to_nat i = Some l.
Proof.
  intros Hi. unfold line_at. destruct (Z.ltb_spec i 0); [lia|].
  destruct (Z.ltb_spec i 0); [lia|]. by rewrite of_option_Ok.
Qed.

(** Prefixes of one list are told apart by their units. *)
Lemma prefix_by_units p q l : Forall (λ c, 0 < utf16_units c) l → p `prefix_of` l → q `prefix_of` l →
  utf16_length p <= utf16_length q → p `prefix_of` q.
Proof.
  intros Hl Hp Hq Hle. destruct (prefix_weak_total p q l Hp Hq) as [?|[k ->]]; [done|].
  rewrite utf16_length_app in Hle. destruct k as [|c k]; [by rewrite app_nil_r|]. exfalso.
  destruct Hp as [k' ->]. rewrite !Forall_app in Hl. destruct Hl as [[_ [Hc _]%Forall_cons] _].
  revert Hle. unfold utf16_length at 2. csimpl. cbn [foldr].
  pose proof (utf16_length_nonneg k). unfold utf16_length in *. lia.
Qed.

Lemma drop_prefix {A} (p q : list A) : p `prefix_of` q → p ++ drop (length p) q = q.
Proof. intros [k ->]. by rewrite drop_app_length. Qed.

Section slice.
Context (r : LeanSourceRange) (Hr : RangeOk r) (source : string).
Let lines : list string := splitlines_keep source.

Lemma range_order_cases :
  int_value (sr_start_line r) < int_value (sr_end_line r) ∨
  int_value (sr_start_line r) = int_value (sr_end_line r) ∧
  int_value (sr_start_char_utf16 r) <= int_value (sr_end_char_utf16 r).
Proof.
  pose proof (rg_order _ Hr) as Ho. unfold pair_ltb, range_end, range_start in Ho. cbn [fst snd] in Ho. lia.
Qed.

Lemma range_nonneg : 0 <= int_value (sr_start_char_utf16 r) ∧ 0 <= int_value (sr_end_char_utf16 r).
Proof.
  pose proof (rg_values _ Hr) as Hv. unfold range_values in Hv. csimpl in Hv.
  repeat match type of Hv with Forall _ (_ :: _) => apply Forall_cons in Hv as [? Hv] end. done.
Qed.

(** The text of a slice when both positions exist. *)
Lemma slice_between before until :
  at_position source (range_start r) before → at_position source (range_end r) until →
  ∃ text after, slice_source_range source r = Ok text ∧ until = before +:+ text ∧
    source = until +:+ after.
Proof.
  destruct (rg_lines _ Hr) as [Hl1 Hl2]. destruct range_nonneg as [Hu1 Hu2].
  intros (sl & sp & Hsl & Hsp & Hsu & ->) (el & ep & Hel & Hep & Heu & ->). cbn [range_start range_end fst snd] in *.
  fold lines in Hsl, Hel |- *. unfold slice_source_range. fold lines.
  pose proof (lookup_lt_Some _ _ _ Hel) as Hcount.
  assert ((int_value (sr_end_line r) <=? Z.of_nat (length lines)) = true) as -> by lia.
  cbn [require mbind result_bind].
  assert (line_at lines (int_value (sr_start_line r) - 1) = Ok sl) as -> by (apply line_at_Ok; [lia|done]).
  assert (line_at lines (int_value (sr_end_line r) - 1) = Ok el) as -> by (apply line_at_Ok; [lia|done]).
  cbn [mbind result_bind].
  rewrite (proj2 (utf16_prefix_Ok sl _ sp Hu1)), (proj2 (utf16_prefix_Ok el _ ep Hu2)) by done.
  cbn [mbind result_bind].
  set (a := Z.to_nat (int_value (sr_start_line r) - 1)) in *.
  set (b := Z.to_nat (int_value (sr_end_line r) - 1)) in *.
  assert (source = str_concat (take b lines) +:+ str_concat ep +:+ str_concat (drop (length ep) (characters el))
                   +:+ str_concat (drop (S b) lines)) as Hsource.
  { rewrite <-(splitlines_keep_concat source) at 1. fold lines.
    rewrite <-(take_drop_middle _ _ _ Hel) at 1. rewrite str_concat_app. f_equal.
    rewrite <-(sapp_assoc (str_concat ep)), <-str_concat_app, drop_prefix, characters_concat by done. done. }
  destruct range_order_cases as [Hlt|[Heq Hle]].
  - assert ((int_value (sr_start_line r) - 1 =? int_value (sr_end_line r) - 1) = false) as -> by lia.
    eexists _, _. split; [done|]. split.
    2:{ rewrite sapp_assoc. exact Hsource. }
    assert (take b lines = take a lines ++ [sl] ++ take (b - S a) (drop (S a) lines)) as ->.
    { rewrite <-(take_drop_middle _ _ _ Hsl) at 1. assert (a < b)%nat by lia.
      rewrite take_app_ge; rewrite length_take_le by (pose proof (lookup_lt_Some _ _ _ Hsl); lia); [|lia].
      replace (b - a)%nat with (S (b - S a)) by lia. done. }
    rewrite !str_concat_app, !sapp_assoc. f_equal.
    assert (str_concat [sl] = str_concat sp +:+ str_concat (drop (length sp) (characters sl))) as ->.
    { rewrite <-str_concat_app, drop_prefix, characters_concat by done. unfold str_concat. cbn [foldr].
      by rewrite sapp_nil_r. }
    rewrite !sapp_assoc. do 3 f_equal. f_equal; f_equal; [lia|]. f_equal. lia.
  - assert (a = b) as Hab by (unfold a, b; lia). 
    assert ((int_value (sr_start_line r) - 1 =? int_value (sr_end_line r) - 1) = true) as -> by lia.
    assert (sl = el) as -> by congruence.
    eexists _, _. split; [done|]. split; [|rewrite sapp_assoc; exact Hsource].
    rewrite sapp_assoc, Hab. f_equal. rewrite <-str_concat_app, drop_prefix; [done|].
    apply (prefix_by_units _ _ (characters el)); [apply characters_units|done|done|lia].
Qed.

Lemma slice_positions text : slice_source_range source r = Ok text →
  ∃ before until, at_position source (range_start r) before ∧ at_position source (range_end r) until.
Proof.
  destruct (rg_lines _ Hr) as [Hl1 Hl2]. destruct range_nonneg as [Hu1 Hu2].
  unfold slice_source_range. cbv zeta. intros [_ H]%guard_Ok.
  apply bind_Ok in H as (sl & Hsl%line_at_Ok & H); [|lia].
  apply bind_Ok in H as (el & Hel%line_at_Ok & H); [|lia].
  apply bind_Ok in H as (sp & [Hsp Hsu]%utf16_prefix_Ok & H); [|done].
  apply bind_Ok in H as (ep & [Hep Heu]%utf16_prefix_Ok & _); [|done].
  unfold at_position. cbn [range_start range_end fst snd]. eexists _, _. split; [exists sl, sp|exists el, ep]; done.
Qed.
End slice.

Lemma sapp_inj_l (s t1 t2 : string) : s +:+ t1 = s +:+ t2 → t1 = t2.
Proof. induction s as [|c s IH]; [done|]. rewrite !sapp_cons. intros [= H]. by apply IH. Qed.

Lemma at_position_unique source position s t :
  at_position source position s → at_position source position t → s = t.
Proof.
  intros (l1 & c1 & Hl1 & Hc1 & Hu1 & ->) (l2 & c2 & Hl2 & Hc2 & Hu2 & ->). f_equal.
  assert (l1 = l2) as -> by congruence. f_equal. apply (anti_symm prefix);
    (eapply prefix_by_units; [apply characters_units|done|done|lia]).
Qed.

(** For a range that Lean exports, [_slice_source_range] answers exactly the
    text of the file between its two positions, and answers whenever both are
    positions of the file: a line of it, and a number of UTF-16 units that ends
    between two characters of the line. *)
Theorem slices_are_between_positions (exported : Json) :
  match range_from_mapping exported with
  | Raise _ => True
  | Ok r => ∀ source text, slice_source_range source r = Ok text ↔
      ∃ before after, source = before +:+ text +:+ after ∧
        at_position source (range_start r) before ∧ at_position source (range_end r) (before +:+ text)
  end.
Proof.
  destruct (range_from_mapping exported) as [r|] eqn:E; [|done].
  apply range_from_mapping_Ok in E as [Hr _]. intros source text. split.
  - intros H. destruct (slice_positions r Hr source text H) as (before & until & Hb & Hu).
    destruct (slice_between r Hr source before until Hb Hu) as (text' & after & H' & -> & Hs).
    assert (text' = text) as -> by congruence. exists before, after. by rewrite sapp_assoc in Hs.
  - intros (before & after & Hs & Hb & Hu).
    destruct (slice_between r Hr source before _ Hb Hu) as (text' & after' & H' & Ht & _).
    by apply sapp_inj_l in Ht as ->.
Qed.

(** ** Coalesced ranges *)

Lemma pair_ltb_spec x y : pair_ltb x y = true ↔ x.1 < y.1 ∨ x.1 = y.1 ∧ x.2 < y.2.
Proof. unfold pair_ltb. lia. Qed.
Lemma pair_ltb_false x y : pair_ltb x y = false ↔ y.1 < x.1 ∨ y.1 = x.1 ∧ y.2 <= x.2.
Proof. unfold pair_ltb. lia. Qed.
Lemma pair_le_spec x y : pair_le x y = true ↔ pair_ltb y x = false.
Proof. unfold pair_le. apply negb_true_iff. Qed.
Lemma range_contains_spec o i : range_contains o i = true ↔
  pair_ltb (range_start i) (range_start o) = false ∧ pair_ltb (range_end o) (range_end i) = false.
Proof. unfold range_contains. by rewrite andb_true_iff, !pair_le_spec. Qed.
Lemma pair_eq (x y : Z * Z) : x = y ↔ x.1 = y.1 ∧ x.2 = y.2.
Proof. destruct x, y. cbn. naive_solver. Qed.
Lemma range_leb_spec x y : range_leb x y = true ↔
  pair_ltb (range_start x.1) (range_start y.1) = true ∨
  range_start x.1 = range_start y.1 ∧ pair_ltb (range_end x.1) (range_end y.1) = false.
Proof. unfold range_leb. by rewrite orb_true_iff, andb_true_iff, bool_decide_eq_true, pair_le_spec. Qed.

Lemma range_leb_total x y : range_leb x y = true ∨ range_leb y x = true.
Proof. rewrite !range_leb_spec, !pair_ltb_spec, !pair_ltb_false, !pair_eq. lia. Qed.
Lemma range_leb_trans x y z : range_leb x y = true → range_leb y z = true → range_leb x z = true.
Proof. rewrite !range_leb_spec, !pair_ltb_spec, !pair_ltb_false, !pair_eq. lia. Qed.

(** Ranges one after the other; two that neither contain each other nor are so. *)
Definition before_range (a b : LeanSourceRange) : Prop := pair_ltb (range_start b) (range_end a) = false.
Definition partial_overlap (a b : LeanSourceRange) : Prop :=
  pair_ltb (range_start b) (range_start a) = false ∧ pair_ltb (range_start b) (range_end a) = true ∧
  pair_ltb (range_end a) (range_end b) = true.

Notation entry := (LeanSourceRange * list string)%type.

Record CoalesceInv (seen coalesced : list entry) : Prop := {
  cv_from g : g ∈ coalesced → ∃ e, e ∈ seen ∧ e.1 = g.1 ∧ ∀ n, n ∈ e.2 → n ∈ g.2;
  cv_sorted : StronglySorted before_range coalesced.*1;
  cv_covers e : e ∈ seen → ∃ g, g ∈ coalesced ∧ range_contains g.1 e.1 = true ∧ ∀ n, n ∈ e.2 → n ∈ g.2;
  cv_only g n : g ∈ coalesced → n ∈ g.2 → ∃ e, e ∈ seen ∧ range_contains g.1 e.1 = true ∧ n ∈ e.2;
  cv_names : coalesced ≫= snd ≡ₚ seen ≫= snd
}.

Lemma range_contains_refl r : range_contains r r = true.
Proof. rewrite range_contains_spec, !pair_ltb_false. lia. Qed.

Lemma strongly_sorted_snoc {A} (R : A → A → Prop) l x :
  StronglySorted R l → Forall (λ y, R y x) l → StronglySorted R (l ++ [x]).
Proof.
  induction 1 as [|y l Hl IH Hy]; intros Hx; [by repeat constructor|].
  apply Forall_cons in Hx as [Hyx Hx]. constructor; [by apply IH|].
  apply Forall_app. split; [done|]. by repeat constructor.
Qed.

(** A group takes the names of a range inside its own. *)
Lemma absorb_inv seen l1 er ens l2 r names :
  CoalesceInv seen (l1 ++ (er, ens) :: l2) → range_contains er r = true →
  CoalesceInv (seen ++ [(r, names)]) (l1 ++ (er, ens ++ names) :: l2).
Proof.
  intros [Hfrom Hsort Hcov Honly Hnames] Hc.
  assert (∀ g, g ∈ l1 ++ (er, ens ++ names) :: l2 →
    g ∈ l1 ++ (er, ens) :: l2 ∨ g = (er, ens ++ names)) as Hdown by (intros g; set_solver).
  assert ((er, ens) ∈ l1 ++ (er, ens) :: l2) as Hin by set_solver. split.
  - intros g Hg. destruct (Hdown g Hg) as [Hg'| ->].
    + destruct (Hfrom g Hg') as (e & He & ?). exists e. split; [set_solver|done].
    + destruct (Hfrom (er, ens) Hin) as (e & He & Ee & Hn). exists e. split; [set_solver|]. split; [done|].
      intros n Hen. apply elem_of_app. left. by apply Hn.
  - rewrite fmap_app, fmap_cons in Hsort |- *. exact Hsort.
  - assert ((er, ens ++ names) ∈ l1 ++ (er, ens ++ names) :: l2) as Hnew by set_solver.
    intros e [He| ->%list_elem_of_singleton]%elem_of_app.
    + destruct (Hcov e He) as (g & Hg & Hge & Hn).
      assert (g = (er, ens) ∨ g ∈ l1 ++ (er, ens ++ names) :: l2) as [->|Hg'] by set_solver.
      * exists (er, ens ++ names). split_and!; [done..|]. intros n Hen. apply elem_of_app. left. by apply Hn.
      * exists g. by split.
    + exists (er, ens ++ names). split_and!; [done..|]. intros n Hn. apply elem_of_app. by right.
  - assert (∀ g n, g ∈ l1 ++ (er, ens) :: l2 → n ∈ g.2 →
      ∃ e, e ∈ seen ++ [(r, names)] ∧ range_contains g.1 e.1 = true ∧ n ∈ e.2) as Hold.
    { intros g n Hg Hn. destruct (Honly g n Hg Hn) as (e & He & ?). exists e. split; [set_solver|done]. }
    intros g n Hg Hn. destruct (Hdown g Hg) as [?| ->]; [by apply Hold|].
    apply elem_of_app in Hn as [Hn|Hn]; [by apply (Hold (er, ens))|].
    exists (r, names). split; [set_solver|done].
  - rewrite !bind_app, !bind_cons in *. cbn [snd] in *. rewrite <-Hnames.
    cbn [mbind list_bind]. rewrite app_nil_r. solve_Permutation.
Qed.

(** A range after all others starts a group. *)
Lemma append_inv seen coalesced r names :
  CoalesceInv seen coalesced → Forall (λ g, before_range g.1 r) coalesced →
  CoalesceInv (seen ++ [(r, names)]) (coalesced ++ [(r, names)]).
Proof.
  intros [Hfrom Hsort Hcov Honly Hnames] Hr. pose proof (range_contains_refl r) as Href. split.
  - intros g [Hg| ->%list_elem_of_singleton]%elem_of_app.
    + destruct (Hfrom g Hg) as (e & He & ?). exists e. split; [set_solver|done].
    + exists (r, names). split; [set_solver|done].
  - rewrite fmap_app. apply strongly_sorted_snoc; [done|]. by apply Forall_fmap.
  - intros e [He| ->%list_elem_of_singleton]%elem_of_app.
    + destruct (Hcov e He) as (g & Hg & ?). exists g. split; [set_solver|done].
    + exists (r, names). split; [set_solver|done].
  - intros g n [Hg| ->%list_elem_of_singleton]%elem_of_app Hn.
    + destruct (Honly g n Hg Hn) as (e & He & ?). exists e. split; [set_solver|done].
    + exists (r, names). split; [set_solver|done].
  - rewrite !bind_app. by rewrite Hnames.
Qed.

Lemma coalesce_step_inv seen coalesced e :
  CoalesceInv seen coalesced → Forall (λ s, range_leb s e = true) seen →
  match coalesce_step coalesced e with
  | Ok coalesced' => CoalesceInv (seen ++ [e]) coalesced'
  | Raise _ => ∃ a, a ∈ seen.*1 ∧ partial_overlap a e.1
  end.
Proof.
  intros Hinv Hle. destruct e as [r names]. unfold coalesce_step.
  destruct (list_find _ coalesced) as [[i [er ens]]|] eqn:Ef.
  { apply list_find_Some in Ef as (Hi & Hc & _). cbn [fst] in Hc.
    rewrite <-(take_drop_middle _ _ _ Hi) in Hinv |- * at 1.
    rewrite insert_app_r_alt; rewrite length_take_le by (apply lookup_lt_Some in Hi; lia); [|done].
    rewrite Nat.sub_diag. by apply absorb_inv. }
  apply list_find_None in Ef. destruct (list_find _ coalesced) as [[i [o ons]]|] eqn:Eo.
  - apply list_find_Some in Eo as (Hi & Ho & _). apply list_elem_of_lookup_2 in Hi. cbn [fst] in Ho.
    destruct (cv_from _ _ Hinv _ Hi) as (s & Hs & Es & _). cbn [fst] in Es. subst o.
    exists s.1. split; [by apply list_elem_of_fmap_2|].
    rewrite Forall_forall in Hle, Ef. pose proof (Hle _ Hs) as Hl. pose proof (Ef _ Hi) as Hc.
    rewrite range_contains_spec in Hc. rewrite range_leb_spec in Hl. cbn [fst] in Hc, Hl |- *.
    assert (pair_ltb (range_start r) (range_start s.1) = false) as Hstart.
    { rewrite pair_ltb_false. destruct Hl as [Hl%pair_ltb_spec|[-> _]]; lia. }
    split_and!; [done..|]. apply not_false_iff_true. intros Hn. by apply Hc.
  - apply list_find_None in Eo. apply append_inv; [done|].
    eapply Forall_impl; [exact Eo|]. intros g Hg. by apply not_true_iff_false in Hg.
Qed.

Lemma coalesce_loop l : ∀ seen coalesced,
  CoalesceInv seen coalesced → StronglySorted (ordered range_leb) (seen ++ l) →
  match foldM coalesce_step coalesced l with
  | Ok coalesced' => CoalesceInv (seen ++ l) coalesced'
  | Raise _ => ∃ a b, a ∈ (seen ++ l).*1 ∧ b ∈ (seen ++ l).*1 ∧ partial_overlap a b
  end.
Proof.
  induction l as [|e l IH]; intros seen coalesced Hinv Hs; cbn [foldM]; [by rewrite app_nil_r|].
  assert (Forall (λ s, range_leb s e = true) seen) as Hle.
  { apply Forall_forall. intros s Hin. change (ordered range_leb s e).
    eapply (StronglySorted_app_1_elem_of _ seen (e :: l)); [done..|by left]. }
  pose proof (coalesce_step_inv _ _ _ Hinv Hle) as Hstep.
  destruct (coalesce_step coalesced e) as [coalesced'|x]; cbn [mbind result_bind].
  - rewrite cons_middle, app_assoc in Hs |- *. by apply IH.
  - destruct Hstep as (a & Ha & Ho). exists a, e.1. split; [|split; [|done]]; rewrite fmap_app; apply elem_of_app;
      [by left|right; by left].
Qed.

Lemma elem_of_from_keys l x : x ∈ from_keys l ↔ x ∈ l.
Proof.
  unfold from_keys. rewrite elem_of_dkeys_dict_of, <-list_fmap_compose. unfold compose. cbn.
  by rewrite list_fmap_id.
Qed.
Lemma from_keys_NoDup l : NoDup (from_keys l).
Proof. apply dict_of_wf. Qed.
Lemma from_keys_id l : NoDup l → from_keys l = l.
Proof.
  intros Hl. unfold from_keys. rewrite dict_of_id; unfold dict_wf, dkeys; rewrite <-list_fmap_compose;
    unfold compose; cbn; by rewrite list_fmap_id.
Qed.

Lemma coalesce_source_ranges_raises ranged e : coalesce_source_ranges ranged = Raise e →
  ∃ detail, e = ExactError "partially-overlapping-source-ranges" detail.
Proof.
  unfold coalesce_source_ranges. intros [H|(? & _ & [=])]%bind_Raise. revert H.
  generalize (@nil entry). induction (sort_by range_leb ranged) as [|[r names] l IH]; intros c H; [done|].
  cbn [foldM] in H. apply bind_Raise in H as [H|(c' & _ & H)]; [|by eapply IH].
  unfold coalesce_step in H. destruct (list_find _ c) as [[? []]|]; [done|].
  destruct (list_find _ c) as [[? []]|]; [|done]. injection H as <-. eauto.
Qed.

(** [_coalesce_source_ranges] answers groups that extend some of the given
    ranges with more names and follow one another; every range lies inside the range of a group
    that has its names, and a group has only names of ranges inside its own;
    names that are distinct all come back once.  It raises only when two of the
    ranges overlap and neither contains the other. *)
Lemma coalesce_source_ranges_spec (ranged : list entry) :
  match coalesce_source_ranges ranged with
  | Ok groups =>
      (∀ g, g ∈ groups → NoDup g.2 ∧ ∃ e, e ∈ ranged ∧ e.1 = g.1 ∧ ∀ n, n ∈ e.2 → n ∈ g.2) ∧
      StronglySorted before_range groups.*1 ∧
      (∀ e, e ∈ ranged → ∃ g, g ∈ groups ∧ range_contains g.1 e.1 = true ∧ ∀ n, n ∈ e.2 → n ∈ g.2) ∧
      (∀ g n, g ∈ groups → n ∈ g.2 → ∃ e, e ∈ ranged ∧ range_contains g.1 e.1 = true ∧ n ∈ e.2) ∧
      (NoDup (ranged ≫= snd) → groups ≫= snd ≡ₚ ranged ≫= snd)
  | Raise e => (∃ detail, e = ExactError "partially-overlapping-source-ranges" detail) ∧
      ∃ a b, a ∈ ranged.*1 ∧ b ∈ ranged.*1 ∧ partial_overlap a b
  end.
Proof.
  destruct (coalesce_source_ranges ranged) as [groups|e] eqn:E.
  2:{ split; [by eapply coalesce_source_ranges_raises|]. revert E. unfold coalesce_source_ranges.
      pose proof (coalesce_loop (sort_by range_leb ranged) [] []) as H.
      destruct (foldM _ _ _) as [c|x]; [done|]. intros _.
      setoid_rewrite <-(sort_by_perm range_leb ranged). apply H.
      - split; try (by intros ? ?%not_elem_of_nil); [constructor| |done]. by intros ? ? ?%not_elem_of_nil.
      - apply sort_by_sorted; [apply range_leb_total|apply range_leb_trans]. }
  unfold coalesce_source_ranges in E. apply bind_Ok in E as (c & Ec & [= <-]).
  pose proof (coalesce_loop (sort_by range_leb ranged) [] []) as H. rewrite Ec in H.
  destruct H as [Hfrom Hsort Hcov Honly Hnames].
  { split; try (by intros ? ?%not_elem_of_nil); [constructor| |done]. by intros ? ? ?%not_elem_of_nil. }
  { apply sort_by_sorted; [apply range_leb_total|apply range_leb_trans]. }
  cbn [app] in *. setoid_rewrite elem_of_sort_by in Hcov. setoid_rewrite elem_of_sort_by in Honly.
  assert (∀ g, g ∈ map (λ m : entry, (m.1, from_keys m.2)) c ↔ ∃ m, m ∈ c ∧ g = (m.1, from_keys m.2)) as Hg.
  { intros g. rewrite list_elem_of_fmap. naive_solver. }
  split_and!.
  - intros g (m & Hm & ->)%Hg. split; [apply from_keys_NoDup|]. destruct (Hfrom m Hm) as (e & He & Ee & Hn).
    rewrite elem_of_sort_by in He. exists e. split_and!; [done..|]. intros n. cbn [snd].
    rewrite elem_of_from_keys. apply Hn.
  - assert ((map (λ m : entry, (m.1, from_keys m.2)) c).*1 = c.*1) as ->; [|done].
    clear. induction c as [|m c IH]; [done|]. csimpl. by rewrite IH.
  - intros e He. destruct (Hcov e He) as (g & Hgc & ? & Hn). exists (g.1, from_keys g.2).
    split; [apply Hg; eauto|]. split; [done|]. intros n. cbn [snd]. rewrite elem_of_from_keys. apply Hn.
  - intros g n (m & Hm & ->)%Hg Hn. cbn [fst snd] in *. rewrite elem_of_from_keys in Hn. by apply Honly.
  - intros Hnd. rewrite (sort_by_perm range_leb) in Hnames. rewrite <-Hnames in Hnd |- *. clear -Hnd.
    induction c as [|m c IH]; [done|]. csimpl in Hnd. csimpl. apply NoDup_app in Hnd as (Hm & _ & Hc).
    rewrite (from_keys_id m.2 Hm). by rewrite IH.
Qed.
