(* ===== verification/ExactClosure.v ===== *)
(** * The closure of source declarations ([axle_exact_closure.py], the names)

    (In [src/packages/proofs/python/src/poo_flow_proof/].)  AXLE splits a source
    into documents, one per declaration, with the names each depends on.  Lean
    constants are mapped to the declarations that own them, the declarations
    that are needed are collected and put in the order of their dependencies.
    [set_order] is the order in which Python iterates over a set with the given
    elements.  A mapping of documents is the list of its values. *)

From Stdlib Require Import Ascii.
From S2P Require Import Prelude PyDict GraphTypes Receipts Text Merkle EvidenceModel SchemeDatum Sort ReceiptGraph Json Refinement LeanClosure SourceText.

(** ** Names *)

(** [name == owner or name.startswith(f"{owner}.")]. *)
Definition is_under (name owner : string) : bool :=
  bool_decide (name = owner) || String.prefix (owner +:+ ".") name.

(** [max(candidates, key=len, default=None)]: the first of the longest. *)
Definition longest (candidates : list string) : option string :=
  foldl (λ best x,
      match best with
      | None => Some x
      | Some b => if (text_length b <? text_length x)%nat then Some x else best
      end) None candidates.

(** [_covering_document]. *)
Definition covering_document (name : string) (document_names : list string) : option string :=
  longest (filter (λ d, is_under name d = true) document_names).

(** [s.rpartition(".")]. *)
Fixpoint rpartition_dot (s : string) : string * bool * string :=
  match s with
  | EmptyString => ("", false, "")
  | String c s =>
      let '(before, found, after) := rpartition_dot s in
      if found then (String c before, true, after)
      else if Ascii.eqb c "." then ("", true, after) else ("", false, String c after)
  end.
Definition namespace_of (s : string) : string := (rpartition_dot s).1.1.

(** [s.split(sep, maxsplit=1)]: what is before the first [sep] and after it. *)
Fixpoint split_first (sep s : string) : option (string * string) :=
  if String.prefix sep s then Some ("", sdrop (String.length sep) s)
  else match s with
       | EmptyString => None
       | String c s => '(before, after) ← split_first sep s; Some (String c before, after)
       end.
Definition first_part (sep s : string) : string :=
  match split_first sep s with Some (before, _) => before | None => s end.

Definition removeprefix (prefix s : string) : string :=
  if String.prefix prefix s then sdrop (String.length prefix) s else s.
Definition ends_with (suffix s : string) : bool :=
  let n := (String.length s - String.length suffix)%nat in
  (String.length suffix <=? String.length s)%nat && bool_decide (sdrop n s = suffix).

(** ** Aliases *)

Section aliases.
Context (set_order : list string → list string) (aliases : dict string string).

(** [set(aliases.values())], as it is iterated over. *)
Definition anchors : list string := set_order (remove_dups (dvalues aliases)).

(** The alias of the longest declared name that covers [name]. *)
Definition declared_alias (name : string) : option string :=
  owner ← longest (filter (λ d, is_under name d = true) (dkeys aliases)); dget owner aliases.

(** Is [name] an instance that Lean generated for [anchor]? *)
Definition generated_for (name anchor : string) : bool :=
  let namespace := namespace_of anchor in
  String.prefix (namespace +:+ ".inst") name &&
  ends_with (removeprefix (namespace +:+ ".") anchor)
    (first_part "." (removeprefix (namespace +:+ ".") name)).
(** [source_name] of [source_declaration_closure]. *)
Definition source_name (name : string) : string :=
  match declared_alias name with
  | Some alias => alias
  | None => default name (longest (filter (λ anchor, generated_for name anchor = true) anchors))
  end.

(** The same test in [_normalized_source_declaration_name]. *)
Definition generated_in_namespace (name anchor : string) : bool :=
  let '(namespace, _, base_name) := rpartition_dot anchor in
  let generated_head := first_part "." (removeprefix (namespace +:+ ".") name) in
  negb (bool_decide (namespace = "")) && String.prefix (namespace +:+ ".inst") name
  && ends_with base_name generated_head.

(** The owner in [«_owner».rest], a name Lean generated inside [owner]; the
    opening takes three bytes. *)
Definition internal_owner (name : string) : option string :=
  if String.prefix "«_" name then fst <$> split_first "»" (sdrop 3 name) else None.

(** [_normalized_source_declaration_name]; [fuel] bounds the nesting of names,
    each of which is shorter than the one around it. *)
Fixpoint normalized_name (fuel : nat) (name : string) : string :=
  match declared_alias name with
  | Some alias => alias
  | None =>
      let generated :=
        default name (longest (filter (λ anchor, generated_in_namespace name anchor = true) anchors)) in
      match internal_owner name, fuel with
      | Some internal, S fuel =>
          let normalized := normalized_name fuel internal in
          if negb (bool_decide (normalized = internal)) || bool_decide (internal ∈ dvalues aliases)
          then normalized else generated
      | _, _ => generated
      end
  end.
Definition normalized_source_declaration_name (name : string) : string :=
  normalized_name (String.length name) name.
End aliases.

(** ** Topological order *)

(** A loop whose body may run out of fuel or raise. *)
Fixpoint foldMO {A B} (f : B → A → option (result Exn B)) (b : B) (l : list A) : option (result Exn B) :=
  match l with
  | [] => Some (Ok b)
  | a :: l => answer ← f b a;
              match answer with Ok b => foldMO f b l | Raise e => Some (Raise e) end
  end.

Section order.
Context (dependencies : dict string (list string)).

(** [visit]; the set [visited] has the elements of [ordered]. *)
Fixpoint visit (fuel : nat) (visiting ordered : list string) (name : string) :
    option (result Exn (list string)) :=
  if bool_decide (name ∈ ordered) then Some (Ok ordered)
  else
    match list_find (λ n, n = name) visiting with
    | Some (cycle_start, _) =>
        Some (Raise (ExactError "source-declaration-cycle"
                (str_join " -> " (drop cycle_start visiting ++ [name]))))
    | None =>
        match fuel, dget name dependencies with
        | O, _ => None
        | S _, None => Some (Raise (KeyError name))
        | S fuel, Some needed =>
            answer ← foldMO (visit fuel (visiting ++ [name])) ordered (sort_by str_leb needed);
            Some (ordered ← answer; Ok (ordered ++ [name]))
        end
    end.
Definition topological_order : option (result Exn (list string)) :=
  foldMO (visit (length dependencies) []) [] (sort_by str_leb (dkeys dependencies)).
End order.

(** ** The closure *)

(** What the code reads of a document. *)
Record AxleDocument : Type := MkDocument {
  dc_name : string;
  dc_kind : string;
  dc_declaration : string;
  dc_type_dependencies : list string;
  dc_value_dependencies : list string;
  dc_syntactic_dependencies : list string
}.
Definition document_dependencies (d : AxleDocument) : list string :=
  from_keys (dc_type_dependencies d ++ dc_value_dependencies d ++ dc_syntactic_dependencies d).

(** [{document.name: document for document in documents.values()}]. *)
Definition documents_by_name (documents : list AxleDocument) : dict string AxleDocument :=
  dict_of ((λ d, (dc_name d, d)) <$> documents).

Section closure.
Context (set_order : list string → list string).
Context (documents : list AxleDocument) (aliases : dict string string).

Definition owner_of (name : string) : option string :=
  covering_document (source_name set_order aliases name) (dkeys (documents_by_name documents)).

(** The body of the loops over the declarations and the roots. *)
Definition select (code : string) (selected : list string) (name : string) :
    result Exn (list string) :=
  owner ← of_option (ExactError code name) (owner_of name);
  Ok (if bool_decide (owner ∈ selected) then selected else selected ++ [owner]).

Definition dependencies_of (name : string) : result Exn (list string) :=
  document_dependencies <$> of_option (KeyError name) (dget name (documents_by_name documents)).

(** The body of the loop over the dependencies of [name]; the top of the stack
    [pending] is its head. *)
Definition select_dependency (name : string) (state : list string * list string) (dependency : string) :
    result Exn (list string * list string) :=
  let '(selected, pending) := state in
  owner ← of_option (ExactError "local-dependency-without-source-declaration"
                       (name +:+ " -> " +:+ dependency)) (owner_of dependency);
  Ok (if bool_decide (owner ∈ selected) then (selected, pending)
      else (selected ++ [owner], owner :: pending)).
Fixpoint select_all (fuel : nat) (selected pending : list string) : option (result Exn (list string)) :=
  match pending with
  | [] => Some (Ok selected)
  | name :: pending =>
      match fuel with
      | O => None
      | S fuel =>
          match (dependencies ← dependencies_of name;
                 foldM (select_dependency name) (selected, pending) dependencies) with
          | Raise e => Some (Raise e)
          | Ok (selected, pending) => select_all fuel selected pending
          end
      end
  end.

(** The selected owners that [name] depends on. *)
Definition selected_dependencies (selected : list string) (name : string) :
    result Exn (string * list string) :=
  dependencies ← dependencies_of name;
  Ok (name, remove_dups (filter (λ owner, owner ∈ selected ∧ owner ≠ name) (omap owner_of dependencies))).

Definition source_declaration_closure (lean_declarations root_declarations : list string) :
    option (result Exn (list string)) :=
  match (selected ← foldM (select "lean-constant-without-source-declaration") [] lean_declarations;
         foldM (select "root-without-source-declaration") selected root_declarations) with
  | Raise e => Some (Raise e)
  | Ok selected =>
      answer ← select_all (length (documents_by_name documents)) selected (rev (set_order selected));
      match (selected ← answer; mapM (selected_dependencies selected) (set_order selected)) with
      | Raise e => Some (Raise e)
      | Ok dependencies => topological_order (dict_of dependencies)
      end
  end.
End closure.

(** ** The aliases of a closure *)

(** [ranged.setdefault(source_range, []).append(name)]. *)
Fixpoint append_to_range (r : LeanSourceRange) (name : string)
    (ranged : list (LeanSourceRange * list string)) : list (LeanSourceRange * list string) :=
  match ranged with
  | [] => [(r, [name])]
  | (r', names) :: ranged =>
      if bool_decide (range_values r' = range_values r) then (r', names ++ [name]) :: ranged
      else (r', names) :: append_to_range r name ranged
  end.

(** The loop that groups the declarations by module and range. *)
Definition group_declaration (by_module : dict string (list (LeanSourceRange * list string)))
    (d : LeanDeclaration) : result Exn (dict string (list (LeanSourceRange * list string))) :=
  r ← of_option (ExactError "declaration-source-range-missing" (ld_name d)) (ld_source_range d);
  Ok (dset (ld_owner_module d)
        (append_to_range r (ld_name d) (default [] (dget (ld_owner_module d) by_module))) by_module).
Definition declarations_by_module (c : LeanDeclarationClosure) :
    result Exn (dict string (list (LeanSourceRange * list string))) :=
  foldM group_declaration [] (lc_declarations c).

(** [name.count(".")]. *)
Definition count_dots (s : string) : nat := length (split_on "." s) - 1.
(** [(name.count("."), len(name), name)], and the first of the least. *)
Definition anchor_ltb (a b : string) : bool :=
  if (count_dots a =? count_dots b)%nat then
    if (text_length a =? text_length b)%nat then negb (str_leb b a)
    else (text_length a <? text_length b)%nat
  else (count_dots a <? count_dots b)%nat.
Definition least_anchor (names : list string) : option string :=
  foldl (λ best x,
      match best with
      | None => Some x
      | Some b => if anchor_ltb x b then Some x else best
      end) None names.

(** Does [declaration_by_name[name]] have this range? *)
Definition has_range (c : LeanDeclarationClosure) (outer_range : LeanSourceRange) (name : string) : bool :=
  match dget name (dict_of ((λ d, (ld_name d, d)) <$> lc_declarations c)) with
  | Some d => bool_decide (range_values <$> ld_source_range d = Some (range_values outer_range))
  | None => false
  end.

Definition alias_group (c : LeanDeclarationClosure) (aliases : dict string string)
    (group : LeanSourceRange * list string) : result Exn (dict string string) :=
  let '(outer_range, names) := group in
  anchor ← of_option (ExactError "source-declaration-anchor-missing" (str_join "," names))
             (least_anchor (filter (λ name, has_range c outer_range name = true) names));
  Ok (dupdate aliases ((λ name, (name, anchor)) <$> names)).
Definition source_declaration_aliases (c : LeanDeclarationClosure) : result Exn (dict string string) :=
  by_module ← declarations_by_module c;
  foldM (λ aliases ranged_declarations,
      groups ← coalesce_source_ranges ranged_declarations;
      foldM (alias_group c) aliases groups) [] (dvalues by_module).
