(* ===== verification/ExactClosureFacts.v ===== *)
(** * The source closure is what the roots need, in dependency order *)

From Stdlib Require Import Ascii.
From S2P Require Import Prelude PyDict GraphTypes Receipts Text Merkle EvidenceModel SchemeDatum Sort ReceiptGraph ReceiptGraphFacts Json Refinement LeanClosure LeanClosureFacts SourceText SourceTextFacts ExactClosure.

(** ** Topological order *)

(** Consecutive elements of a list are related. *)
Definition chain {A} (R : A → A → Prop) (l : list A) : Prop :=
  ∀ i a b, l !! i = Some a → l !! S i = Some b → R a b.

Lemma chain_snoc {A} (R : A → A → Prop) l x :
  chain R (l ++ [x]) ↔ chain R l ∧ ∀ a, last l = Some a → R a x.
Proof.
  unfold chain. rewrite last_lookup. split.
  - intros H. split.
    + intros i a b Ha Hb. apply (H i); apply lookup_app_l_Some; done.
    + intros a Ha. apply (H (Nat.pred (length l))); [by apply lookup_app_l_Some|].
      destruct l as [|y l]; [done|]. cbn [length Nat.pred]. rewrite lookup_app_r by (cbn; lia).
      cbn [length]. replace (S (length l) - S (length l))%nat with 0%nat by lia. done.
  - intros [H Hx] i a b Ha Hb. apply lookup_app_Some in Hb as [Hb|[Hle Hb]].
    + pose proof (lookup_lt_Some _ _ _ Hb). rewrite lookup_app_l in Ha by lia. by apply (H i).
    + destruct (S i - length l)%nat as [|k] eqn:E; [|by destruct k]. injection Hb as <-.
      assert (length l = S i) as El by lia. rewrite lookup_app_l in Ha by lia. apply Hx. by rewrite El.
Qed.

(** A cycle, as the error writes it: the name it starts with is also the last. *)
Definition is_cycle (R : string → string → Prop) (cycle : list string) : Prop :=
  ∃ name path, cycle = name :: path ++ [name] ∧ chain R cycle.

Lemma is_cycle_mono (R R' : string → string → Prop) cycle :
  (∀ a b, R a b → R' a b) → is_cycle R cycle → is_cycle R' cycle.
Proof. intros H (name & path & -> & Hc). exists name, path. split; [done|]. intros i a b ??. by eapply H, Hc. Qed.

(** Every name on a cycle is the source of one of its steps. *)
Lemma is_cycle_elem R cycle n : is_cycle R cycle → n ∈ cycle → ∃ m, R n m.
Proof.
  intros (name & path & -> & Hc) Hn.
  assert (n ∈ name :: path) as [i Hi]%list_elem_of_lookup_1 by set_solver.
  rewrite app_comm_cons in Hc. pose proof (lookup_lt_Some _ _ _ Hi) as Hlt.
  destruct (lookup_lt_is_Some_2 ((name :: path) ++ [name]) (S i)) as [m Hm]; [rewrite length_app; cbn in *; lia|].
  exists m. eapply Hc; [|done]. by apply lookup_app_l_Some.
Qed.

Section order.
Context (dependencies : dict string (list string)).

Definition edge (a b : string) : Prop := ∃ l, dget a dependencies = Some l ∧ b ∈ l.
Context (Hclosed : ∀ a b, edge a b → b ∈ dkeys dependencies).

Record Ordered (ordered : list string) : Prop := {
  od_nodup : NoDup ordered;
  od_sub n : n ∈ ordered → n ∈ dkeys dependencies;
  od_order i a b : ordered !! i = Some a → edge a b → b ∈ take i ordered
}.
(** The names being visited: a path to [name], none of them ordered yet. *)
Record Visiting (visiting ordered : list string) (name : string) : Prop := {
  vs_nodup : NoDup visiting;
  vs_sub n : n ∈ visiting → n ∈ dkeys dependencies;
  vs_chain : chain edge (visiting ++ [name]);
  vs_apart n : n ∈ visiting → n ∉ ordered;
  vs_name : name ∈ dkeys dependencies
}.

Definition visit_spec (visiting ordered : list string) (goals : list string)
    (answer : option (result Exn (list string))) : Prop :=
  match answer with
  | None => False
  | Some (Ok ordered') => Ordered ordered' ∧ ordered `prefix_of` ordered' ∧
      (∀ g, g ∈ goals → g ∈ ordered') ∧ ∀ n, n ∈ visiting → n ∉ ordered'
  | Some (Raise e) => ∃ cycle, is_cycle edge cycle ∧
      e = ExactError "source-declaration-cycle" (str_join " -> " cycle)
  end.

Lemma edge_elem a l b : dget a dependencies = Some l → b ∈ l → edge a b.
Proof. intros. by exists l. Qed.

(** A loop over [goals] whose body visits each of them. *)
Lemma visit_goals fuel visiting goals : ∀ ordered,
  Ordered ordered → (∀ n, n ∈ visiting → n ∉ ordered) →
  (∀ ordered g, g ∈ goals → Ordered ordered → (∀ n, n ∈ visiting → n ∉ ordered) →
     visit_spec visiting ordered [g] (visit dependencies fuel visiting ordered g)) →
  visit_spec visiting ordered goals (foldMO (visit dependencies fuel visiting) ordered goals).
Proof.
  induction goals as [|g goals IH]; intros ordered Ho Hv Hvisit; cbn [foldMO].
  { split; [done|]. split; [done|]. split; [by intros ? ?%not_elem_of_nil|done]. }
  pose proof (Hvisit ordered g ltac:(by left) Ho Hv) as Hg.
  destruct (visit dependencies fuel visiting ordered g) as [[ordered1|e]|]; [|done|done].
  cbn [mbind option_bind]. destruct Hg as (Ho1 & Hp1 & Hg1 & Hv1).
  pose proof (IH ordered1 Ho1 Hv1) as H. unfold visit_spec in H |- *.
  destruct (foldMO _ _ _) as [[ordered2|e]|].
  - destruct H as (Ho2 & Hp2 & Hg2 & Hv2); [intros; apply Hvisit; [by right|done..]|].
    split; [done|]. split; [by etrans|]. split; [|done].
    intros x [->|Hx]%elem_of_cons; [|by apply Hg2]. destruct Hp2 as [k ->]. apply elem_of_app. left.
    apply Hg1. by left.
  - apply H. intros; apply Hvisit; [by right|done..].
  - apply H. intros; apply Hvisit; [by right|done..].
Qed.

Lemma visiting_cycle visiting ordered name start : Visiting visiting ordered name →
  visiting !! start = Some name → is_cycle edge (drop start visiting ++ [name]).
Proof.
  intros [_ _ Hc _ _] Hs. exists name, (drop (S start) visiting). split; [by rewrite (drop_S _ _ _ Hs)|].
  intros i a b Ha Hb. apply (Hc (start + i)%nat).
  - rewrite <-lookup_drop, drop_app_le; [done|]. apply lookup_lt_Some in Hs. lia.
  - replace (S (start + i)) with (start + S i)%nat by lia.
    rewrite <-lookup_drop, drop_app_le; [done|]. apply lookup_lt_Some in Hs. lia.
Qed.

Lemma visiting_bound visiting ordered name : Visiting visiting ordered name → name ∉ visiting →
  (S (length visiting) ≤ length dependencies)%nat.
Proof.
  intros [Hnd Hsub _ _ Hname] Hn.
  assert (NoDup (name :: visiting)) as Hnd' by by constructor.
  assert (name :: visiting ⊆+ dkeys dependencies) as H.
  { apply NoDup_submseteq; [done|]. intros x [->|Hx]%elem_of_cons; [done|by apply Hsub]. }
  apply submseteq_length in H. unfold dkeys in H. by rewrite length_fmap in H.
Qed.

Lemma visiting_next visiting ordered name g : Visiting visiting ordered name → name ∉ visiting →
  edge name g → (∀ n, n ∈ visiting ++ [name] → n ∉ ordered) → ∀ ordered',
  (∀ n, n ∈ visiting ++ [name] → n ∉ ordered') → Visiting (visiting ++ [name]) ordered' g.
Proof.
  intros [Hnd Hsub Hc Ha Hname] Hn Hg _ ordered' Hap. split.
  - apply NoDup_app. split_and!; [done| |apply NoDup_singleton]. by intros x Hx ->%list_elem_of_singleton.
  - intros n [?| ->%list_elem_of_singleton]%elem_of_app; [by apply Hsub|done].
  - apply chain_snoc. split; [done|]. intros a Hla. rewrite last_snoc in Hla. by injection Hla as <-.
  - done.
  - by eapply Hclosed.
Qed.

(** What is put after the names it needs stays ordered. *)
Lemma ordered_snoc ordered name : Ordered ordered → name ∉ ordered → name ∈ dkeys dependencies →
  (∀ b, edge name b → b ∈ ordered) → Ordered (ordered ++ [name]).
Proof.
  intros [Hnd Hsub Hord] Hn Hname Hb. split.
  - apply NoDup_app. split_and!; [done| |apply NoDup_singleton]. by intros x Hx ->%list_elem_of_singleton.
  - intros n [?| ->%list_elem_of_singleton]%elem_of_app; [by apply Hsub|done].
  - intros i a b Ha Hab. apply lookup_app_Some in Ha as [Ha|[Hle Ha]].
    + rewrite take_app_le by (apply lookup_lt_Some in Ha; lia). by eapply Hord.
    + apply list_elem_of_lookup_2, list_elem_of_singleton in Ha as ->.
      rewrite take_app_ge by done. apply elem_of_app. left. by apply Hb.
Qed.

Lemma visit_visits fuel : ∀ visiting ordered name, Ordered ordered → Visiting visiting ordered name →
  (length dependencies ≤ fuel + length visiting)%nat →
  visit_spec visiting ordered [name] (visit dependencies fuel visiting ordered name).
Proof.
  induction fuel as [|fuel IH]; intros visiting ordered name Ho Hv Hf; cbn [visit];
    (case_bool_decide as Hdone;
      [split_and!; [done..|by intros ? ->%list_elem_of_singleton|apply Hv]|]);
    (destruct (list_find _ visiting) as [[start n]|] eqn:Ef;
      [apply list_find_Some in Ef as (Hs & -> & _); eexists; split; [by eapply visiting_cycle|done]|]);
    assert (name ∉ visiting) as Hn by
      (apply list_find_None in Ef; rewrite Forall_forall in Ef; intros Hin; by apply (Ef name));
    pose proof (visiting_bound _ _ _ Hv Hn) as Hbound.
  { lia. }
  destruct (proj2 (dget_is_Some dependencies name) (vs_name _ _ _ Hv)) as [needed Hneeded].
  rewrite Hneeded. assert (∀ m, m ∈ visiting ++ [name] → m ∉ ordered) as Hap.
  { intros m [?| ->%list_elem_of_singleton]%elem_of_app; [by apply Hv|done]. }
  assert (∀ o g, g ∈ sort_by str_leb needed → Ordered o → (∀ m, m ∈ visiting ++ [name] → m ∉ o) →
    visit_spec (visiting ++ [name]) o [g] (visit dependencies fuel (visiting ++ [name]) o g)) as Hstep.
  { intros o g Hin Hoo Hoa. rewrite elem_of_sort_by in Hin. apply IH; [done| |rewrite length_app; cbn; lia].
    eapply visiting_next; [done..|by eapply edge_elem|done|done]. }
  pose proof (visit_goals fuel _ _ ordered Ho Hap Hstep) as H.
  unfold visit_spec in H |- *. destruct (foldMO _ _ _) as [[ordered'|e]|]; [|exact H..].
  cbn [mbind option_bind result_bind]. destruct H as (Ho' & [k Hk] & Hg & Hap').
  split; [|split; [|split]].
  - apply ordered_snoc; [done| |exact (vs_name _ _ _ Hv)|].
    + apply Hap', elem_of_app. right. by left.
    + intros b (l & Hl & Hb). apply Hg. rewrite elem_of_sort_by. congruence.
  - exists (k ++ [name]). by rewrite Hk, app_assoc.
  - intros g ->%list_elem_of_singleton. apply elem_of_app. right. by left.
  - intros m Hm [Hin| ->%list_elem_of_singleton]%elem_of_app; [|done].
    revert Hin. apply Hap', elem_of_app. by left.
Qed.

(** The order of all names, or a cycle. *)
Lemma topological_order_spec : dict_wf dependencies →
  match topological_order dependencies with
  | None => False
  | Some (Ok order) => order ≡ₚ dkeys dependencies ∧
      ∀ i a b, order !! i = Some a → edge a b → b ∈ take i order
  | Some (Raise e) => ∃ cycle, is_cycle edge cycle ∧
      e = ExactError "source-declaration-cycle" (str_join " -> " cycle)
  end.
Proof.
  intros Hwf. unfold topological_order.
  assert (∀ (n : string) (o : list string), n ∈ @nil string → n ∉ o) as Hnil
    by (intros n o Hn; by apply not_elem_of_nil in Hn).
  assert (Ordered []) as H0 by (split; [constructor|by intros ? ?%not_elem_of_nil|done]).
  assert (visit_spec [] [] (sort_by str_leb (dkeys dependencies))
    (foldMO (visit dependencies (length dependencies) []) [] (sort_by str_leb (dkeys dependencies)))) as H.
  { apply visit_goals; [done|intros n; apply Hnil|]. intros o g Hg Ho _. rewrite elem_of_sort_by in Hg.
    apply visit_visits; [done| |cbn; lia]. split; [constructor|intros n Hn; by apply not_elem_of_nil in Hn| |
      intros n; apply Hnil|done]. by intros [|[]] a b Ha Hb. }
  unfold visit_spec in H. destruct (foldMO _ _ _) as [[order|e]|]; [|done..].
  destruct H as ([Hnd Hsub Hord] & _ & Hall & _). split; [|exact Hord].
  apply NoDup_Permutation; [done|done|]. intros n. split; [apply Hsub|].
  intros Hn. apply Hall. by rewrite elem_of_sort_by.
Qed.
End order.

(** ** The source closure *)

Lemma longest_elem l x : longest l = Some x → x ∈ l.
Proof.
  unfold longest. enough (∀ best, foldl (λ best x, match best with
    | None => Some x
    | Some b => if (text_length b <? text_length x)%nat then Some x else best
    end) best l = Some x → best = Some x ∨ x ∈ l) as H by (intros Hx; by destruct (H _ Hx)).
  induction l as [|y l IH]; intros best; cbn [foldl]; [by left|]. intros [H|H]%IH; [|right; by right].
  destruct best as [b|]; [destruct (_ <? _)%nat|]; simplify_eq; rewrite ?elem_of_cons; auto.
Qed.

Section closure.
Context (set_order : list string → list string).
Context (Horder : ∀ l, NoDup l → set_order l ≡ₚ l).
Context (documents : list AxleDocument) (aliases : dict string string).
Notation owner := (owner_of set_order documents aliases).
Notation docs := (documents_by_name documents).

(** The document [n] lists [x] as a dependency. *)
Definition mentions (n x : string) : Prop :=
  ∃ d, dget n docs = Some d ∧ x ∈ document_dependencies d.
Definition depends_on (a b : string) : Prop := ∃ x, mentions a x ∧ owner x = Some b.
(** The declarations that the owners of [goals] need. *)
Definition needed (goals : list string) (n : string) : Prop :=
  ∃ g r, g ∈ goals ∧ owner g = Some r ∧ rtc depends_on r n.

Lemma owner_known x b : owner x = Some b → b ∈ dkeys docs.
Proof. intros H%longest_elem. by apply list_elem_of_filter in H as [_ H]. Qed.
Lemma needed_known goals n : needed goals n → n ∈ dkeys docs.
Proof.
  intros (g & r & _ & Hr & Hn). apply rtc_inv_r in Hn as [<-|(m & _ & x & _ & Hx)]; by eapply owner_known.
Qed.
Lemma needed_step goals a b : needed goals a → depends_on a b → needed goals b.
Proof. intros (g & r & ? & ? & ?) ?. exists g, r. split_and!; [done..|]. by eapply rtc_r. Qed.

Record Selection (goals selected : list string) : Prop := {
  se_nodup : NoDup selected;
  se_needed n : n ∈ selected → needed goals n
}.
Lemma selection_length goals selected : Selection goals selected → (length selected ≤ length docs)%nat.
Proof.
  intros [Hnd Hn]. rewrite <-(length_fmap fst docs). apply submseteq_length, NoDup_submseteq; [done|].
  intros n ?. by eapply needed_known, Hn.
Qed.
Lemma selection_snoc goals selected n : Selection goals selected → n ∉ selected → needed goals n →
  Selection goals (selected ++ [n]).
Proof.
  intros [Hnd Hs] Hn Hg. split.
  - apply NoDup_app. split_and!; [done| |apply NoDup_singleton]. by intros x Hx ->%list_elem_of_singleton.
  - by intros m [Hm| ->%list_elem_of_singleton]%elem_of_app; [apply Hs|].
Qed.

(** [x] is owned by a declaration of [selected]. *)
Definition owned (selected : list string) (x : string) : Prop := ∃ b, owner x = Some b ∧ b ∈ selected.
Lemma owned_mono selected selected' x : selected ⊆ selected' → owned selected x → owned selected' x.
Proof. intros Hs (b & ? & ?). exists b. split; [done|]. by apply Hs. Qed.

Definition push (selected : list string) (b : string) : list string :=
  if bool_decide (b ∈ selected) then selected else selected ++ [b].
Lemma select_eq code selected name : select set_order documents aliases code selected name =
  match owner name with Some b => Ok (push selected b) | None => Raise (ExactError code name) end.
Proof. unfold select. by destruct (owner name). Qed.
Lemma select_dependency_eq name selected pending x :
  select_dependency set_order documents aliases name (selected, pending) x =
  match owner x with
  | Some b => Ok (push selected b, if bool_decide (b ∈ selected) then pending else b :: pending)
  | None => Raise (ExactError "local-dependency-without-source-declaration" (name +:+ " -> " +:+ x))
  end.
Proof. unfold select_dependency, push. destruct (owner x); [|done]. cbn. by case_bool_decide. Qed.

Lemma select_goals code goals names : ∀ selected, names ⊆ goals → Selection goals selected →
  match foldM (select set_order documents aliases code) selected names with
  | Ok selected' => Selection goals selected' ∧ selected ⊆ selected' ∧ ∀ g, g ∈ names → owned selected' g
  | Raise e => ∃ g, g ∈ names ∧ owner g = None ∧ e = ExactError code g
  end.
Proof.
  induction names as [|g names IH]; intros selected Hsub Hs; cbn [foldM].
  { split_and!; [done..|by intros ? ?%not_elem_of_nil]. }
  rewrite select_eq. destruct (owner g) as [b|] eqn:Eb; cbn [mbind result_bind];
    [|exists g; split_and!; [by left|done..]].
  assert (needed goals b) as Hb by (exists g, b; split_and!; [apply Hsub; by left|done|done]).
  set (s := push _ _).
  assert (Selection goals s ∧ selected ⊆ s ∧ b ∈ s) as (Hs' & Hss & Hbs).
  { subst s. unfold push. case_bool_decide; [done|]. split_and!; [by apply selection_snoc|set_solver..]. }
  specialize (IH s ltac:(set_solver) Hs'). destruct (foldM _ _ _) as [s'|e].
  - destruct IH as (? & Hs2 & Hg). split_and!; [done|by etrans|].
    intros x [->|Hx]%elem_of_cons; [|by apply Hg]. exists b. split; [done|]. by apply Hs2.
  - destruct IH as (x & ? & ?). exists x. split; [by right|done].
Qed.

(** The names still to look at, and what is known of the others. *)
Record Frontier (goals selected pending : list string) (but : string → Prop) : Prop := {
  fr_selection : Selection goals selected;
  fr_nodup : NoDup pending;
  fr_sub : pending ⊆ selected;
  fr_closed n x : n ∈ selected → n ∉ pending → ¬ but n → mentions n x → owned selected x
}.
Definition unowned (goals : list string) (e : Exn) : Prop :=
  ∃ n x, needed goals n ∧ mentions n x ∧ owner x = None ∧
    e = ExactError "local-dependency-without-source-declaration" (n +:+ " -> " +:+ x).

Lemma select_dependencies goals name l : ∀ selected pending,
  (∀ x, x ∈ l → mentions name x) → name ∈ selected → name ∉ pending →
  Frontier goals selected pending (λ n, n = name) →
  match foldM (select_dependency set_order documents aliases name) (selected, pending) l with
  | Ok (selected', pending') =>
      Frontier goals selected' pending' (λ n, n = name) ∧ name ∉ pending' ∧ selected ⊆ selected' ∧
      (length selected' + length pending = length selected + length pending')%nat ∧
      ∀ x, x ∈ l → owned selected' x
  | Raise e => unowned goals e
  end.
Proof.
  induction l as [|x l IH]; intros selected pending Hl Hname Hp Hf; cbn [foldM].
  { split_and!; [done..|by intros ? ?%not_elem_of_nil]. }
  pose proof (Hl x ltac:(by left)) as Hx. pose proof (fr_selection _ _ _ _ Hf) as Hs.
  pose proof (se_needed _ _ Hs _ Hname) as Hneed.
  rewrite select_dependency_eq. destruct (owner x) as [b|] eqn:Eb; cbn [mbind result_bind];
    [|by exists name, x].
  assert (needed goals b) as Hb by (eapply needed_step; [done|by exists x]).
  assert (∀ y, y ∈ l → mentions name y) as Hl' by (intros; apply Hl; by right).
  unfold push. case_bool_decide as Hin.
  - specialize (IH selected pending Hl' Hname Hp Hf). destruct (foldM _ _ _) as [[s' p']|]; [|done].
    destruct IH as (? & ? & Hss & ? & Hall). split_and!; [done..|].
    intros y [->|?]%elem_of_cons; [|by apply Hall]. exists b. split; [done|]. by apply Hss.
  - assert (b ≠ name) by (by intros ->).
    assert (Frontier goals (selected ++ [b]) (b :: pending) (λ n, n = name)) as Hf'.
    { destruct Hf as [_ Hnd Hsub Hc]. split;
        [by apply selection_snoc|constructor; [by intros Hbp%Hsub|done]|set_solver|].
      intros n y Hn Hnp Hne Hy. apply (owned_mono selected); [set_solver|].
      apply (Hc n); [set_solver|set_solver|done|done]. }
    specialize (IH (selected ++ [b]) (b :: pending) Hl' ltac:(set_solver) ltac:(set_solver) Hf').
    destruct (foldM _ _ _) as [[s' p']|]; [|done]. destruct IH as (? & ? & Hss & ? & Hall).
    split_and!; [done|done|set_solver|rewrite length_app in *; cbn in *; lia|].
    intros y [->|?]%elem_of_cons; [|by apply Hall]. exists b. split; [done|]. apply Hss. set_solver.
Qed.

Lemma dependencies_of_eq name d : dget name docs = Some d →
  dependencies_of documents name = Ok (document_dependencies d).
Proof. intros Hd. unfold dependencies_of. by rewrite Hd. Qed.

Lemma select_all_closes goals fuel : ∀ selected pending,
  Frontier goals selected pending (λ _, False) →
  (length docs + length pending ≤ fuel + length selected)%nat →
  match select_all set_order documents aliases fuel selected pending with
  | None => False
  | Some (Ok selected') => Frontier goals selected' [] (λ _, False) ∧ selected ⊆ selected'
  | Some (Raise e) => unowned goals e
  end.
Proof.
  induction fuel as [|fuel IH]; intros selected [|name pending] Hf Hlen; cbn [select_all]; try done.
  { pose proof (selection_length _ _ (fr_selection _ _ _ _ Hf)). cbn in Hlen. lia. }
  pose proof (fr_selection _ _ _ _ Hf) as Hs.
  assert (name ∈ selected) as Hname by (apply (fr_sub _ _ _ _ Hf); by left).
  destruct (proj2 (dget_is_Some docs name) (needed_known _ _ (se_needed _ _ Hs _ Hname))) as [d Hd].
  rewrite (dependencies_of_eq _ _ Hd). cbn [mbind result_bind].
  destruct Hf as [_ [Hn Hnd]%NoDup_cons Hsub Hc].
  pose proof (select_dependencies goals name (document_dependencies d) selected pending) as H.
  destruct (foldM _ _ _) as [[s' p']|e].
  - destruct H as (Hf' & Hp & Hss & Hl & Hall); [by exists d|done|done| |].
    { split; [done|done|set_solver|]. intros n x ? ? ?. apply Hc; set_solver. }
    specialize (IH s' p'). destruct (select_all _ _ _ _ _ _) as [[s2|]|].
    1: split; [|etrans; [exact Hss|]].
    all: apply IH; [|cbn in Hlen; lia].
    all: destruct Hf' as [? ? ? Hc']; split; [done..|]; intros n x ? ? _ Hx.
    all: destruct (decide (n = name)) as [->|]; [|by eapply Hc'].
    all: destruct Hx as (d' & Hd' & ?); apply Hall; congruence.
  - apply H; [by exists d|done|done|]. split; [done|done|set_solver|]. intros n x ? ? ?. apply Hc; set_solver.
Qed.
(** The selected owners that [a] depends on. *)
Definition selected_owners (selected : list string) (a : string) : list string :=
  remove_dups (filter (λ b, b ∈ selected ∧ b ≠ a)
    (omap owner (default [] (document_dependencies <$> dget a docs)))).
Lemma elem_of_selected_owners selected a b :
  b ∈ selected_owners selected a ↔ b ∈ selected ∧ b ≠ a ∧ depends_on a b.
Proof.
  unfold selected_owners, depends_on, mentions.
  rewrite elem_of_remove_dups, list_elem_of_filter, list_elem_of_omap.
  destruct (dget a docs) as [d|]; cbn [default option_fmap option_map fmap from_option id]; [set_solver|].
  split; [by intros [? (x & ?%not_elem_of_nil & _)]|by intros (_ & _ & x & (d & ? & _) & _)].
Qed.

Lemma selected_dependencies_all selected : (∀ n, n ∈ selected → n ∈ dkeys docs) →
  ∀ l, l ⊆ selected → mapM (selected_dependencies set_order documents aliases selected) l =
    Ok ((λ n, (n, selected_owners selected n)) <$> l).
Proof.
  intros Hk l Hl. apply mapM_Ok, Forall2_fmap_r, Forall_Forall2_diag, Forall_forall. intros n Hn.
  destruct (proj2 (dget_is_Some docs n)) as [d Hd]; [by apply Hk, Hl|].
  unfold selected_dependencies, selected_owners, compose. by rewrite (dependencies_of_eq _ _ Hd), Hd.
Qed.

(** The two loops over the declarations and the roots. *)
Lemma select_starts declarations roots :
  match (selected ← foldM (select set_order documents aliases
                             "lean-constant-without-source-declaration") [] declarations;
         foldM (select set_order documents aliases "root-without-source-declaration") selected roots) with
  | Ok selected => Selection (declarations ++ roots) selected ∧
      ∀ g, g ∈ declarations ++ roots → owned selected g
  | Raise e => ∃ g, owner g = None ∧
      (g ∈ declarations ∧ e = ExactError "lean-constant-without-source-declaration" g ∨
       g ∈ roots ∧ e = ExactError "root-without-source-declaration" g)
  end.
Proof.
  assert (Selection (declarations ++ roots) []) as H0
    by (split; [constructor|by intros ? ?%not_elem_of_nil]).
  pose proof (select_goals "lean-constant-without-source-declaration" (declarations ++ roots)
                declarations [] ltac:(set_solver) H0) as H1.
  destruct (foldM _ [] declarations) as [s1|e]; cbn [mbind result_bind]; [|naive_solver].
  destruct H1 as (Hs1 & _ & Ho1).
  pose proof (select_goals "root-without-source-declaration" (declarations ++ roots)
                roots s1 ltac:(set_solver) Hs1) as H2.
  destruct (foldM _ s1 roots) as [s2|e]; [|naive_solver].
  destruct H2 as (Hs2 & Hss & Ho2). split; [done|].
  intros g [Hg|Hg]%elem_of_app; [|by apply Ho2]. by eapply owned_mono, Ho1.
Qed.

(** A selection that has the owners of the goals and of all that it mentions is
    all that is needed. *)
Lemma selection_complete goals selected : Frontier goals selected [] (λ _, False) →
  (∀ g, g ∈ goals → owned selected g) → ∀ n, n ∈ selected ↔ needed goals n.
Proof.
  intros [Hs _ _ Hc] Hg n. split; [apply Hs|]. intros (g & r & Hin & Hr & Hrn).
  destruct (Hg g Hin) as (r' & Hr' & Hsel). assert (r' = r) as -> by congruence. clear Hin Hr Hr'.
  induction Hrn as [|a b c (x & Hx & Hb) _ IH]; [done|]. apply IH.
  destruct (Hc a x) as (b' & ? & ?); [done|by apply not_elem_of_nil|by intros []|done|]. congruence.
Qed.

Lemma start_frontier goals selected : Selection goals selected →
  Frontier goals selected (rev (set_order selected)) (λ _, False).
Proof.
  intros Hs. pose proof (Horder selected (se_nodup _ _ Hs)) as Hp.
  assert (rev (set_order selected) ≡ₚ selected) as Hr by (by rewrite <-Permutation_rev).
  split; [done|rewrite Hr; apply Hs|intros n; by rewrite Hr|intros n x ? Hn]. by rewrite Hr in Hn.
Qed.

(** The dependencies among the selected, as they are handed to the search. *)
Definition selected_edges (selected : list string) : dict string (list string) :=
  (λ n, (n, selected_owners selected n)) <$> set_order selected.
Lemma dkeys_selected_edges selected : dkeys (selected_edges selected) = set_order selected.
Proof. unfold dkeys, selected_edges. rewrite <-list_fmap_compose. apply list_fmap_id. Qed.
Lemma selected_edges_wf selected : NoDup selected → dict_wf (selected_edges selected).
Proof. intros H. unfold dict_wf. by rewrite dkeys_selected_edges, Horder. Qed.
Lemma edge_selected selected a b : NoDup selected →
  edge (selected_edges selected) a b ↔ a ∈ selected ∧ b ∈ selected ∧ b ≠ a ∧ depends_on a b.
Proof.
  intros Hnd. unfold edge. setoid_rewrite <-elem_of_selected_owners. split.
  - intros (l & Hl & Hb). apply dget_Some_elem, list_elem_of_fmap in Hl as (n & [= -> ->] & Hn).
    by rewrite Horder in Hn.
  - intros [Ha Hb]. eexists. split; [|exact Hb]. apply dget_elem_wf; [by apply selected_edges_wf|].
    apply list_elem_of_fmap. exists a. by rewrite Horder.
Qed.

(** What the closure answers or raises. *)
Definition closure_outcome (declarations roots : list string) (answer : option (result Exn (list string))) : Prop :=
  let goals := declarations ++ roots in
  match answer with
  | None => False
  | Some (Ok names) => NoDup names ∧ (∀ n, n ∈ names ↔ needed goals n) ∧
      (∀ g, g ∈ goals → is_Some (owner g)) ∧
      (∀ n x, n ∈ names → mentions n x → is_Some (owner x)) ∧
      ∀ i a b, names !! i = Some a → depends_on a b → b ≠ a → b ∈ take i names
  | Some (Raise e) =>
      (∃ g, owner g = None ∧
        (g ∈ declarations ∧ e = ExactError "lean-constant-without-source-declaration" g ∨
         g ∈ roots ∧ e = ExactError "root-without-source-declaration" g)) ∨
      unowned goals e ∨
      ∃ cycle, is_cycle (λ a b, depends_on a b ∧ b ≠ a) cycle ∧ (∀ n, n ∈ cycle → needed goals n) ∧
        e = ExactError "source-declaration-cycle" (str_join " -> " cycle)
  end.
Lemma source_closure_reaches declarations roots : closure_outcome declarations roots
  (source_declaration_closure set_order documents aliases declarations roots).
Proof.
  unfold closure_outcome, source_declaration_closure. set (goals := declarations ++ roots).
  pose proof (select_starts declarations roots) as H.
  destruct (_ ← _; _) as [s1|e]; [|by left]. destruct H as (Hs1 & Ho1).
  pose proof (select_all_closes goals (length docs) s1 _ (start_frontier _ _ Hs1)) as H.
  destruct (select_all _ _ _ _ _ _) as [[s2|e]|]; cbn [mbind option_bind result_bind].
  2, 3: try (right; left); apply H; rewrite length_rev, (Horder s1) by apply Hs1; lia.
  destruct H as (Hf & Hss); [rewrite length_rev, (Horder s1) by apply Hs1; lia|].
  pose proof (selection_complete goals s2 Hf (λ g Hg, owned_mono _ _ _ Hss (Ho1 g Hg))) as Hneed.
  destruct Hf as [[Hnd Hs2] _ _ Hc]. pose proof (Horder s2 Hnd) as Hp2.
  rewrite (selected_dependencies_all s2);
    [|by intros n ?%Hneed; eapply needed_known|by intros n; rewrite Hp2].
  fold (selected_edges s2). rewrite (dict_of_id (selected_edges s2)) by (by apply selected_edges_wf).
  pose proof (topological_order_spec (selected_edges s2)) as H. rewrite dkeys_selected_edges in H.
  destruct (topological_order _) as [[names|e]|].
  - destruct H as (Hp & Hord); [intros a b (_ & Hb & _)%edge_selected; [by rewrite Hp2|done]|
      by apply selected_edges_wf|].
    rewrite Hp2 in Hp. split_and!; [by rewrite Hp|intros n; by rewrite Hp| | |].
    + intros g Hg. destruct (Ho1 g Hg) as (b & ? & _). by exists b.
    + intros n x Hn Hx. rewrite Hp in Hn.
      destruct (Hc n x Hn (not_elem_of_nil n) (λ F, F) Hx) as (b & ? & _). by exists b.
    + intros i a b Ha Hab Hne. apply (Hord i a b Ha). apply edge_selected; [done|].
      assert (a ∈ s2) as Has by (rewrite <-Hp; by eapply list_elem_of_lookup_2).
      split_and!; [done| |done|done]. apply Hneed. by eapply needed_step; [apply Hs2|].
  - right; right. destruct H as (cycle & Hcy & ->);
      [intros a b (_ & Hb & _)%edge_selected; [by rewrite Hp2|done]|by apply selected_edges_wf|].
    exists cycle. split_and!; [|intros n Hn|done].
    + eapply is_cycle_mono, Hcy. by intros a b (_ & _ & ? & ?)%edge_selected.
    + destruct (is_cycle_elem _ _ _ Hcy Hn) as [m Hm]. apply edge_selected in Hm as [Hm _]; [|done].
      by apply Hs2.
  - apply H; [intros a b (_ & Hb & _)%edge_selected; [by rewrite Hp2|done]|by apply selected_edges_wf].
Qed.

(** C14. The source declarations of a Lean closure are the documents that its
    declarations and roots need: the owners of their names, and the owners of
    all that a needed document depends on.  The worklist and the depth-first
    search always end.  The answer has each needed document once, after all
    that it depends on (itself apart), for every order in which Python iterates
    over its sets; the code raises when a declaration, a root or a dependency of
    a needed document has no owner, or when needed documents depend on each
    other in a cycle, which the error spells out. *)
Theorem source_closure_is_needed declarations roots :
  let goals := declarations ++ roots in
  match source_declaration_closure set_order documents aliases declarations roots with
  | None => False
  | Some (Ok names) => NoDup names ∧ (∀ n, n ∈ names ↔ needed goals n) ∧
      (∀ g, g ∈ goals → is_Some (owner g)) ∧
      (∀ n x, n ∈ names → mentions n x → is_Some (owner x)) ∧
      ∀ i a b, names !! i = Some a → depends_on a b → b ≠ a → b ∈ take i names
  | Some (Raise e) =>
      (∃ g, owner g = None ∧
        (g ∈ declarations ∧ e = ExactError "lean-constant-without-source-declaration" g ∨
         g ∈ roots ∧ e = ExactError "root-without-source-declaration" g)) ∨
      unowned goals e ∨
      ∃ cycle, is_cycle (λ a b, depends_on a b ∧ b ≠ a) cycle ∧ (∀ n, n ∈ cycle → needed goals n) ∧
        e = ExactError "source-declaration-cycle" (str_join " -> " cycle)
  end.
Proof. exact (source_closure_reaches declarations roots). Qed.
End closure.

(** Two documents, the instance generated for an alias and a needed name. *)
Definition sample_documents : list AxleDocument :=
  [MkDocument "B" "theorem" "theorem B : A" ["A.x"] [] ["A"]; MkDocument "A" "def" "def A := 0" [] ["A"] []].
Theorem source_closure_is_needed_witness :
  source_declaration_closure id sample_documents [("instA", "A")] ["instA.y"] ["B"] = Some (Ok ["A"; "B"]) ∧
  (∀ n, n ∈ ["A"; "B"] ↔ needed id sample_documents [("instA", "A")] (["instA.y"] ++ ["B"]) n).
Proof.
  pose proof (source_closure_is_needed id (λ l _, reflexivity l) sample_documents [("instA", "A")]
                ["instA.y"] ["B"]) as H.
  assert (source_declaration_closure id sample_documents [("instA", "A")] ["instA.y"] ["B"] =
    Some (Ok ["A"; "B"])) as E by (vm_compute; reflexivity).
  rewrite E in H. split; [exact E|]. destruct H as (_ & H & _). exact H.
Defined.
