(* ===== verification/ExactAliasFacts.v ===== *)
(** * Every declaration has one anchor

    The declarations of a module are grouped by their source ranges; each group
    has an anchor, a declaration that spans the whole range of the group. *)

From Stdlib Require Import Ascii.
From S2P Require Import Prelude PyDict GraphTypes Receipts Text Merkle EvidenceModel SchemeDatum Sort ReceiptGraph ReceiptGraphFacts Json Refinement LeanClosure LeanClosureFacts SourceText SourceTextFacts ExactClosure.

Notation by_module := (dict string (list entry)).

(** [d] has the range [r]. *)
Definition ranged (d : LeanDeclaration) (r : LeanSourceRange) : Prop :=
  range_values <$> ld_source_range d = Some (range_values r).

Lemma range_values_same o o' r r' : range_values o = range_values o' → range_values r = range_values r' →
  range_contains o r = range_contains o' r'.
Proof.
  unfold range_values, range_contains, range_start, range_end. intros [= H1 H2 H3 H4 H5 H6] [= K1 K2 K3 K4 K5 K6].
  by rewrite ?H1, ?H2, ?H3, ?H4, ?H5, ?H6, ?K1, ?K2, ?K3, ?K4, ?K5, ?K6.
Qed.

(** ** The declarations of the modules *)

Definition names_of (m : string) (g : by_module) : list entry := default [] (dget m g).

Record ModulesInv (seen : list LeanDeclaration) (g : by_module) : Prop := {
  mi_names m : names_of m g ≫= snd ≡ₚ ld_name <$> filter (λ d, ld_owner_module d = m) seen;
  mi_ranges m e : e ∈ names_of m g → e.2 ≠ [] ∧
    ∀ n, n ∈ e.2 → ∃ d, d ∈ seen ∧ ld_name d = n ∧ ld_owner_module d = m ∧ ranged d e.1
}.

Lemma append_to_range_names r name l : append_to_range r name l ≫= snd ≡ₚ name :: (l ≫= snd).
Proof.
  induction l as [|[r' names] l IH]; [done|]. cbn [append_to_range]. case_bool_decide.
  - cbn [mbind list_bind snd]. rewrite <-app_assoc. cbn [app]. solve_Permutation.
  - cbn [mbind list_bind snd] in *. rewrite IH. solve_Permutation.
Qed.
Lemma append_to_range_elem r name l e : e ∈ append_to_range r name l → e ∈ l ∨
  ∃ r' names, e = (r', names ++ [name]) ∧ range_values r = range_values r' ∧
    (names = [] ∨ (r', names) ∈ l).
Proof.
  induction l as [|[r' names] l IH]; cbn [append_to_range].
  - intros ->%list_elem_of_singleton. right. exists r, []. by split_and!; [|auto|left].
  - case_bool_decide as Hr; intros [->|He]%elem_of_cons.
    + right. exists r', names. split_and!; [done|done|right; by left].
    + left. by right.
    + left. by left.
    + destruct (IH He) as [?|(r2 & k & ? & ? & [?|?])]; [left; by right|right; exists r2, k..].
      * by split_and!; [| |left].
      * split_and!; [done|done|right; by right].
Qed.

Lemma group_declaration_inv seen g d g' : ModulesInv seen g → group_declaration g d = Ok g' →
  ModulesInv (seen ++ [d]) g'.
Proof.
  unfold group_declaration. intros [Hn Hr] H. apply bind_Ok in H as (r & Hsr & [= <-]).
  apply of_option_Ok in Hsr. split; intros m; unfold names_of in *;
    rewrite dget_dset; (case_decide as Hm; cbn [default from_option id]).
  - subst m. rewrite append_to_range_names, Hn, filter_app, filter_cons_True, fmap_app by done.
    cbn. solve_Permutation.
  - rewrite Hn, filter_app, filter_cons_False by congruence. cbn. by rewrite app_nil_r.
  - intros e He. subst m. apply append_to_range_elem in He as [He|(r' & k & -> & Hv & Hk)].
    + destruct (Hr _ e He) as [? Hd]. split; [done|]. intros n Hin. destruct (Hd n Hin) as (d' & ? & ?).
      exists d'. split; [set_solver|done].
    + split; [by destruct k|]. cbn [snd fst]. intros n [Hin| ->%list_elem_of_singleton]%elem_of_app.
      * destruct Hk as [->|Hk]; [by apply not_elem_of_nil in Hin|].
        destruct (Hr _ _ Hk) as [_ Hd]. destruct (Hd n Hin) as (d' & ? & ?).
        exists d'. split; [set_solver|done].
      * exists d. split_and!; [set_solver|done|done|]. unfold ranged. by rewrite Hsr, <-Hv.
  - intros e He. destruct (Hr _ e He) as [? Hd]. split; [done|]. intros n Hin.
    destruct (Hd n Hin) as (d' & ? & ?). exists d'. split; [set_solver|done].
Qed.

Lemma declarations_by_module_spec c :
  match declarations_by_module c with
  | Ok g => ModulesInv (lc_declarations c) g ∧ dict_wf g
  | Raise e => ∃ d, d ∈ lc_declarations c ∧ ld_source_range d = None ∧
      e = ExactError "declaration-source-range-missing" (ld_name d)
  end.
Proof.
  unfold declarations_by_module. destruct (foldM _ _ _) as [g|e] eqn:E.
  - revert E. apply (foldM_inv (λ seen g, ModulesInv seen g ∧ dict_wf g)).
    + split; [|constructor]. split; intros m; [done|by intros e ?%not_elem_of_nil].
    + intros seen d g1 g2 _ [Hi Hw] Hg. split; [by eapply group_declaration_inv|].
      unfold group_declaration in Hg. apply bind_Ok in Hg as (r & _ & [= <-]). by apply dset_wf.
  - revert E. generalize (@nil (string * list entry)). induction (lc_declarations c) as [|d l IH]; intros g; [done|].
    cbn [foldM]. intros [H|(g' & _ & H)]%bind_Raise.
    + unfold group_declaration in H. apply bind_Raise in H as [H|(? & _ & [=])].
      apply of_option_Raise in H as [? ->]. exists d. split; [by left|done].
    + destruct (IH g' H) as (d' & ? & ?). exists d'. split; [by right|done].
Qed.

(** ** The anchors of the groups *)

Lemma least_anchor_elem names : names ≠ [] → ∃ a, least_anchor names = Some a ∧ a ∈ names.
Proof.
  destruct names as [|n names]; [done|]. intros _. unfold least_anchor. cbn [foldl].
  enough (∀ l b, ∃ a, foldl (λ best x, match best with
    | None => Some x
    | Some b => if anchor_ltb x b then Some x else best
    end) (Some b) l = Some a ∧ a ∈ b :: l) as H by apply H.
  clear. induction l as [|x l IH]; intros b; cbn [foldl]; [exists b; split; [done|by left]|].
  destruct (anchor_ltb x b).
  - destruct (IH x) as (a & ? & ?). exists a. split; [done|]. by right.
  - destruct (IH b) as (a & ? & ?). exists a. split; [done|]. set_solver.
Qed.

Lemma NoDup_bind_inj {A B} (f : A → list B) (l : list A) x y n :
  NoDup (l ≫= f) → x ∈ l → y ∈ l → n ∈ f x → n ∈ f y → x = y.
Proof.
  induction l as [|z l IH]; [by intros _ ?%not_elem_of_nil|]. cbn [mbind list_bind].
  intros (_ & Hd & Hl)%NoDup_app. specialize (IH Hl).
  intros [->|Hx]%elem_of_cons [->|Hy]%elem_of_cons Hnx Hny; [done|exfalso..|by apply IH].
  - apply (Hd n Hnx), list_elem_of_bind. by exists y.
  - apply (Hd n Hny), list_elem_of_bind. by exists x.
Qed.

Section anchors.
Context (c : LeanDeclarationClosure) (g : by_module).
Context (Hnames : NoDup (ld_name <$> lc_declarations c)).
Context (Hg : ModulesInv (lc_declarations c) g) (Hwf : dict_wf g).

Lemma declared_unique d d' : d ∈ lc_declarations c → d' ∈ lc_declarations c → ld_name d = ld_name d' → d = d'.
Proof.
  intros Hd Hd' E. revert Hnames. generalize dependent (lc_declarations c). intros l _ Hd Hd' Hnd.
  apply list_elem_of_lookup_1 in Hd as [i Hi], Hd' as [j Hj].
  assert (i = j) as ->; [|congruence]. apply (NoDup_lookup (ld_name <$> l) i j (ld_name d)); [done|..].
  - by rewrite list_lookup_fmap, Hi.
  - by rewrite list_lookup_fmap, Hj, E.
Qed.

Lemma has_range_spec r n : has_range c r n = true ↔ ∃ d, d ∈ lc_declarations c ∧ ld_name d = n ∧ ranged d r.
Proof.
  unfold has_range. set (by_name := dict_of _).
  assert (∀ d, d ∈ lc_declarations c → dget (ld_name d) by_name = Some d) as Hget.
  { intros d Hd. subst by_name. rewrite dict_of_id.
    - apply dget_elem_wf; [|apply list_elem_of_fmap; by exists d].
      unfold dict_wf, dkeys. by rewrite <-list_fmap_compose.
    - unfold dict_wf, dkeys. by rewrite <-list_fmap_compose. }
  assert (∀ d, dget n by_name = Some d → d ∈ lc_declarations c ∧ ld_name d = n) as Hof.
  { intros d Hd. apply dget_dict_of, list_elem_of_fmap in Hd as (d' & [= -> ->] & ?). done. }
  destruct (dget n by_name) as [d|] eqn:E.
  - rewrite bool_decide_eq_true. destruct (Hof d eq_refl) as [Hd En]. split; [eauto|].
    intros (d' & Hd' & <- & Hr). rewrite (Hget d' Hd') in E. by injection E as <-.
  - split; [done|]. intros (d & Hd & <- & _). by rewrite (Hget d Hd) in E.
Qed.

Definition anchor_of (group : entry) : option string :=
  least_anchor (filter (λ n, has_range c group.1 n = true) group.2).
(** A group of the module [m]. *)
Definition group_of (m : string) (group : entry) : Prop :=
  ∃ l groups, dget m g = Some l ∧ coalesce_source_ranges l = Ok groups ∧ group ∈ groups.
Definition aliased (n a : string) : Prop := ∃ m group, group_of m group ∧ n ∈ group.2 ∧ anchor_of group = Some a.

Lemma module_names m l : dget m g = Some l →
  l ≫= snd ≡ₚ ld_name <$> filter (λ d, ld_owner_module d = m) (lc_declarations c).
Proof. intros H. pose proof (mi_names _ _ Hg m) as Hm. unfold names_of in Hm. by rewrite H in Hm. Qed.
Lemma module_ranges m l e n : dget m g = Some l → e ∈ l → n ∈ e.2 →
  ∃ d, d ∈ lc_declarations c ∧ ld_name d = n ∧ ld_owner_module d = m ∧ ranged d e.1.
Proof.
  intros H He Hn. pose proof (mi_ranges _ _ Hg m e) as Hm. unfold names_of in Hm. rewrite H in Hm.
  by apply Hm.
Qed.
Lemma module_names_NoDup m l : dget m g = Some l → NoDup (l ≫= snd).
Proof. intros H. rewrite (module_names m l H). by apply NoDup_fmap_filter. Qed.

(** A name of a group is that of a declaration inside the range of the group. *)
Lemma group_member m group n : group_of m group → n ∈ group.2 →
  ∃ d r, d ∈ lc_declarations c ∧ ld_name d = n ∧ ld_owner_module d = m ∧
    ld_source_range d = Some r ∧ range_contains group.1 r = true.
Proof.
  intros (l & groups & Hl & Hgr & Hin) Hn. pose proof (coalesce_source_ranges_spec l) as H.
  rewrite Hgr in H. destruct H as (_ & _ & _ & Honly & _).
  destruct (Honly group n Hin Hn) as (e & He & Hc & Hne).
  destruct (module_ranges m l e n Hl He Hne) as (d & Hd & Hdn & Hdm & Hdr).
  unfold ranged in Hdr. destruct (ld_source_range d) as [r|] eqn:Er; [|done]. apply (inj Some) in Hdr.
  exists d, r. split_and!; try done. rewrite <-Hc. by apply range_values_same; rewrite ?Hdr.
Qed.

(** Some declaration of a group has its range, and so has the anchor. *)
Lemma group_anchor m group : group_of m group →
  ∃ a d, anchor_of group = Some a ∧ a ∈ group.2 ∧ d ∈ lc_declarations c ∧ ld_name d = a ∧ ranged d group.1.
Proof.
  intros (l & groups & Hl & Hgr & Hin). pose proof (coalesce_source_ranges_spec l) as H.
  rewrite Hgr in H. destruct H as (Hown & _). destruct (Hown group Hin) as (_ & e & He & Ee & Hsub).
  pose proof (mi_ranges _ _ Hg m e) as Hm. unfold names_of in Hm. rewrite Hl in Hm. destruct (Hm He) as [Hne Hd].
  destruct (least_anchor_elem (filter (λ n, has_range c group.1 n = true) group.2)) as (a & Ha & Hin').
  { destruct e.2 as [|n k]; [done|]. destruct (Hd n ltac:(by left)) as (d & Hdd & Hdn & _ & Hdr).
    rewrite Ee in Hdr. assert (n ∈ filter (λ n, has_range c group.1 n = true) group.2) as Hn.
    { apply list_elem_of_filter. split; [|apply Hsub; by left]. apply has_range_spec. eauto. }
    intros E. rewrite E in Hn. by apply not_elem_of_nil in Hn. }
  apply list_elem_of_filter in Hin' as [(d & ? & ? & ?)%has_range_spec ?]. by exists a, d.
Qed.

Lemma aliased_functional n a b : aliased n a → aliased n b → a = b.
Proof.
  intros (m & x & Hx & Hnx & Ha) (m' & y & Hy & Hny & Hb).
  destruct (group_member _ _ _ Hx Hnx) as (d & _ & Hd & Hdn & Hdm & _).
  destruct (group_member _ _ _ Hy Hny) as (d' & _ & Hd' & Hdn' & Hdm' & _).
  assert (d = d') as <- by (apply declared_unique; congruence). assert (m = m') as <- by congruence.
  destruct Hx as (l & groups & Hl & Hgr & Hx), Hy as (l' & groups' & Hl' & Hgr' & Hy).
  assert (l = l') as <- by congruence. assert (groups = groups') as <- by congruence.
  pose proof (coalesce_source_ranges_spec l) as H. rewrite Hgr in H. destruct H as (_ & _ & _ & _ & Hp).
  pose proof (module_names_NoDup m l Hl) as Hnd.
  assert (x = y) as <-; [|congruence]. by eapply (NoDup_bind_inj snd groups x y n); [rewrite (Hp Hnd)|..].
Qed.

(** ** The dict of the aliases *)

Definition AliasesSound (aliases : dict string string) : Prop := ∀ n a, dget n aliases = Some a → aliased n a.

Lemma alias_groups m groups : ∀ aliases, AliasesSound aliases → (∀ x, x ∈ groups → group_of m x) →
  ∃ aliases', foldM (alias_group c) aliases groups = Ok aliases' ∧ AliasesSound aliases' ∧
    dkeys aliases ⊆ dkeys aliases' ∧ ∀ x n, x ∈ groups → n ∈ x.2 → n ∈ dkeys aliases'.
Proof.
  induction groups as [|x groups IH]; intros aliases Hs Hgr; cbn [foldM].
  { exists aliases. split_and!; [done..|by intros ? ? ?%not_elem_of_nil]. }
  destruct (group_anchor m x) as (a & d & Ha & _); [by apply Hgr; left|].
  assert (alias_group c aliases x = Ok (dupdate aliases ((λ n, (n, a)) <$> x.2))) as ->.
  { unfold alias_group, anchor_of in *. destruct x as [r names]. cbn [fst snd] in *. by rewrite Ha. }
  cbn [mbind result_bind]. set (aliases1 := dupdate _ _).
  assert (dkeys ((λ n, (n, a)) <$> x.2) = x.2) as Hk.
  { unfold dkeys. rewrite <-list_fmap_compose. apply list_fmap_id. }
  destruct (IH aliases1) as (aliases2 & H2 & Hs2 & Hk2 & Hin2); [|intros; apply Hgr; by right|].
  - intros n b. subst aliases1. rewrite dget_dupdate.
    + destruct (dget n ((λ n, (n, a)) <$> x.2)) as [b'|] eqn:E; [|apply Hs]. intros [= ->].
      apply dget_Some_elem, list_elem_of_fmap in E as (n' & [= -> ->] & Hn).
      exists m, x. split_and!; [apply Hgr; by left|done..].
    + unfold dict_wf. rewrite Hk. destruct (Hgr x ltac:(by left)) as (l & gs & _ & Hgs & Hx).
      pose proof (coalesce_source_ranges_spec l) as H. rewrite Hgs in H. by apply H.
  - exists aliases2. split_and!; [done..| |].
    + intros n Hn. apply Hk2. subst aliases1. rewrite elem_of_dkeys_dupdate. by left.
    + intros y n [->|Hy]%elem_of_cons Hn; [|by eapply Hin2]. apply Hk2. subst aliases1.
      rewrite elem_of_dkeys_dupdate, Hk. by right.
Qed.

Lemma module_aliases ls : ∀ aliases, AliasesSound aliases → ls ⊆ dvalues g →
  match foldM (λ aliases ranged_declarations,
           groups ← coalesce_source_ranges ranged_declarations;
           foldM (alias_group c) aliases groups) aliases ls with
  | Ok aliases' => AliasesSound aliases' ∧ dkeys aliases ⊆ dkeys aliases' ∧
      ∀ l n, l ∈ ls → n ∈ l ≫= snd → n ∈ dkeys aliases'
  | Raise e => ∃ l, l ∈ dvalues g ∧ coalesce_source_ranges l = Raise e
  end.
Proof.
  induction ls as [|l ls IH]; intros aliases Hs Hsub; cbn [foldM].
  { split_and!; [done..|by intros ? ? ?%not_elem_of_nil]. }
  assert (l ∈ dvalues g) as Hl by (apply Hsub; by left).
  destruct (coalesce_source_ranges l) as [groups|e] eqn:E; cbn [mbind result_bind]; [|by exists l].
  assert (∃ m, dget m g = Some l) as [m Hm].
  { apply list_elem_of_fmap in Hl as ([m k] & -> & Hin). exists m. by apply dget_elem_wf. }
  destruct (alias_groups m groups aliases Hs) as (aliases1 & -> & Hs1 & Hk1 & Hin1).
  { intros x Hx. by exists l, groups. }
  cbn [mbind result_bind]. pose proof (IH aliases1 Hs1 ltac:(set_solver)) as H.
  destruct (foldM _ _ _) as [aliases2|e]; [|done]. destruct H as (Hs2 & Hk2 & Hin2).
  split_and!; [done|by etrans|]. intros k n [->|Hk]%elem_of_cons Hn; [|by eapply Hin2].
  apply Hk2. pose proof (coalesce_source_ranges_spec l) as H. rewrite E in H. destruct H as (_ & _ & Hcov & _).
  apply list_elem_of_bind in Hn as (e & Hne & He).
  destruct (Hcov e He) as (x & Hx & _ & Hxn). by apply (Hin1 x); [|apply Hxn].
Qed.

(** What an alias says of two declarations. *)
Definition anchored (aliases : dict string string) (d : LeanDeclaration) : Prop :=
  ∃ b r s, b ∈ lc_declarations c ∧ dget (ld_name d) aliases = Some (ld_name b) ∧
    ld_owner_module b = ld_owner_module d ∧ ld_source_range d = Some r ∧ ld_source_range b = Some s ∧
    range_contains s r = true ∧ dget (ld_name b) aliases = Some (ld_name b).

Lemma aliased_anchor n a : aliased n a → aliased a a ∧
  ∃ d b r s, d ∈ lc_declarations c ∧ b ∈ lc_declarations c ∧ ld_name d = n ∧ ld_name b = a ∧
    ld_owner_module b = ld_owner_module d ∧ ld_source_range d = Some r ∧ ld_source_range b = Some s ∧
    range_contains s r = true.
Proof.
  intros (m & x & Hx & Hn & Ha). destruct (group_anchor m x Hx) as (a' & b & Ha' & Hin & Hb & Hbn & Hbr).
  assert (a' = a) as -> by congruence. split; [by exists m, x|].
  destruct (group_member m x n Hx Hn) as (d & r & Hd & Hdn & Hdm & Hr & Hc).
  destruct (group_member m x a Hx Hin) as (b' & _ & Hb' & Hbn' & Hbm & _).
  assert (b' = b) as -> by (apply declared_unique; congruence).
  unfold ranged in Hbr. destruct (ld_source_range b) as [s|] eqn:Es; [|done]. apply (inj Some) in Hbr.
  exists d, b, r, s. split_and!; try done; [congruence|]. rewrite <-Hc. by apply range_values_same; rewrite ?Hdr.
Qed.

Lemma aliases_complete aliases : AliasesSound aliases →
  (∀ l n, l ∈ dvalues g → n ∈ l ≫= snd → n ∈ dkeys aliases) →
  ∀ d, d ∈ lc_declarations c → anchored aliases d.
Proof.
  intros Hs Hk.
  assert (∀ d, d ∈ lc_declarations c → ld_name d ∈ dkeys aliases) as Hkeys.
  { intros d Hd. pose proof (mi_names _ _ Hg (ld_owner_module d)) as Hm. unfold names_of in Hm.
    assert (ld_name d ∈ ld_name <$> filter (λ d', ld_owner_module d' = ld_owner_module d) (lc_declarations c)) as Hin.
    { apply list_elem_of_fmap. exists d. split; [done|]. by apply list_elem_of_filter. }
    rewrite <-Hm in Hin. destruct (dget (ld_owner_module d) g) as [l|] eqn:E;
      [|by apply not_elem_of_nil in Hin].
    apply (Hk l); [|done]. apply dget_Some_elem in E. apply list_elem_of_fmap. by exists (ld_owner_module d, l). }
  assert (∀ n a, n ∈ dkeys aliases → aliased n a → dget n aliases = Some a) as Hget.
  { intros n a [b Hb]%dget_is_Some Ha. rewrite Hb. f_equal. symmetry. apply (aliased_functional n); [done|].
    by apply Hs. }
  intros d Hd. destruct (proj2 (dget_is_Some _ _) (Hkeys d Hd)) as [a Ha].
  destruct (aliased_anchor _ _ (Hs _ _ Ha)) as (Haa & d' & b & r & s & Hd' & Hb & Hdn & <- & Hm & Hr & Hsr & Hc).
  assert (d' = d) as -> by (by apply declared_unique).
  exists b, r, s. split_and!; try done. apply Hget; [|done]. by apply Hkeys.
Qed.
End anchors.

(** C30. In a closure of Lean declarations [_source_declaration_aliases] gives
    every declaration an anchor: a declaration of the same module whose source
    range holds its own, and which is its own anchor; nothing else gets an
    alias.  It raises only when a declaration has no source range or the ranges
    of two declarations of one module overlap and neither holds the other: a
    group never lacks its anchor. *)
Theorem declarations_are_anchored (c : LeanDeclarationClosure) :
  match check_closure c with
  | Raise _ => True
  | Ok c =>
      match source_declaration_aliases c with
      | Ok aliases => (∀ d, d ∈ lc_declarations c → anchored c aliases d) ∧
          ∀ n a, dget n aliases = Some a → n ∈ ld_name <$> lc_declarations c
      | Raise e =>
          (∃ d, d ∈ lc_declarations c ∧ ld_source_range d = None ∧
            e = ExactError "declaration-source-range-missing" (ld_name d)) ∨
          (∃ detail, e = ExactError "partially-overlapping-source-ranges" detail) ∧
          ∃ d d' r r', d ∈ lc_declarations c ∧ d' ∈ lc_declarations c ∧
            ld_owner_module d = ld_owner_module d' ∧
            range_values <$> ld_source_range d = Some (range_values r) ∧
            range_values <$> ld_source_range d' = Some (range_values r') ∧ partial_overlap r r'
      end
  end.
Proof.
  destruct (check_closure c) as [c'|] eqn:Ec; [|done]. apply check_closure_Ok in Ec as [-> Hc].
  pose proof (ls_names _ Hc) as Hnd. unfold source_declaration_aliases.
  pose proof (declarations_by_module_spec c) as H.
  destruct (declarations_by_module c) as [g|e]; cbn [mbind result_bind]; [|by left].
  destruct H as [Hg Hwf]. pose proof (module_aliases c g Hnd Hg Hwf (dvalues g) []) as H.
  destruct (foldM _ _ _) as [aliases|e].
  - destruct H as (Hs & _ & Hk); [done|done|]. split; [by eapply aliases_complete|].
    intros n a Ha. destruct (aliased_anchor c g Hnd Hg n a (Hs _ _ Ha)) as (_ & d & _ & _ & _ & ? & _ & <- & _).
    apply list_elem_of_fmap. by exists d.
  - right. destruct H as (l & Hl & E); [done|done|].
    pose proof (coalesce_source_ranges_spec l) as H. rewrite E in H.
    destruct H as (He & r & r' & Hr & Hr' & Ho). split; [done|].
    apply list_elem_of_fmap in Hl as ([m k] & -> & Hin). apply dget_elem_wf in Hin; [|done]. cbn [snd] in *.
    assert (∀ x, x ∈ k.*1 → ∃ d, d ∈ lc_declarations c ∧ ld_owner_module d = m ∧ ranged d x) as Hd.
    { intros x ([y ns] & -> & He')%list_elem_of_fmap. pose proof (mi_ranges _ _ Hg m (y, ns)) as Hm.
      unfold names_of in Hm. rewrite Hin in Hm. destruct (Hm He') as [Hne Hn]. cbn [fst snd] in *.
      destruct ns as [|n ns]; [done|]. destruct (Hn n ltac:(by left)) as (d & ? & _ & ? & ?). by exists d. }
    destruct (Hd r Hr) as (d & Hdd & Hdm & Hdr), (Hd r' Hr') as (d' & Hdd' & Hdm' & Hdr').
    exists d, d', r, r'. split_and!; try done. congruence.
Qed.
