(* ===== verification/Effects.v ===== *)
(** * Computations on a world that may raise

    A computation reads and changes a world [W], and answers or raises; [None]
    is a loop that ran out of fuel.  [wp m Q w] says that [m], started in [w],
    ends, and ends in an answer and a world that satisfy [Q]; its rules follow
    the shape of the computation. *)

From S2P Require Import Prelude PyDict GraphTypes.

Definition Eff (W A : Type) : Type := W → option (W * result Exn A).

#[export] Instance Eff_bind {W} : MBind (Eff W) := λ A B f m w,
  match m w with
  | None => None
  | Some (w', Ok a) => f a w'
  | Some (w', Raise e) => Some (w', Raise e)
  end.

Section effects.
Context {W : Type}.

Definition ret {A} (a : A) : Eff W A := λ w, Some (w, Ok a).
Definition raise {A} (e : Exn) : Eff W A := λ w, Some (w, Raise e).
(** A computation without a world, one with fuel, and one that ends. *)
Definition lift {A} (r : result Exn A) : Eff W A := λ w, Some (w, r).
Definition fueled {A} (r : option (result Exn A)) : Eff W A := λ w, r ← r; Some (w, r).
Definition call {A} (f : W → W * result Exn A) : Eff W A := λ w, Some (f w).
(** What cannot raise. *)
Definition ask {A} (f : W → W * A) : Eff W A := λ w, let '(w', a) := f w in Some (w', Ok a).

(** [try: m except BaseException as e: handler(e)]. *)
Definition except {A} (m : Eff W A) (handler : Exn → Eff W A) : Eff W A := λ w,
  match m w with
  | Some (w', Raise e) => handler e w'
  | o => o
  end.
(** [try: m finally: last]. *)
Definition finally {A} (m : Eff W A) (last : Eff W unit) : Eff W A := λ w,
  match m w with
  | None => None
  | Some (w', r) =>
      match last w' with
      | None => None
      | Some (w'', Ok _) => Some (w'', r)
      | Some (w'', Raise e) => Some (w'', Raise e)
      end
  end.

(** A comprehension whose body has effects. *)
Fixpoint each {A B} (f : A → Eff W B) (l : list A) : Eff W (list B) :=
  match l with
  | [] => ret []
  | a :: l => b ← f a; k ← each f l; ret (b :: k)
  end.

Definition wp {A} (m : Eff W A) (Q : result Exn A → W → Prop) (w : W) : Prop :=
  match m w with None => False | Some (w', r) => Q r w' end.

Lemma wp_mono {A} (m : Eff W A) (P Q : result Exn A → W → Prop) w :
  (∀ r w', P r w' → Q r w') → wp m P w → wp m Q w.
Proof. unfold wp. destruct (m w) as [[w' r]|]; [|by intros _ []]. auto. Qed.

Lemma wp_bind {A B} (m : Eff W A) (f : A → Eff W B) Q w :
  wp m (λ r w', match r with Ok a => wp (f a) Q w' | Raise e => Q (Raise e) w' end) w → wp (m ≫= f) Q w.
Proof. unfold wp, mbind, Eff_bind. by destruct (m w) as [[w' [a|e]]|]. Qed.

Lemma wp_ret {A} (a : A) (Q : result Exn A → W → Prop) w : Q (Ok a) w → wp (ret a) Q w.
Proof. done. Qed.
Lemma wp_lift {A} (r : result Exn A) (Q : result Exn A → W → Prop) w : Q r w → wp (lift r) Q w.
Proof. done. Qed.
Lemma wp_raise {A} e (Q : result Exn A → W → Prop) w : Q (Raise e) w → wp (raise e) Q w.
Proof. done. Qed.
Lemma wp_fueled {A} (o : option (result Exn A)) r (Q : result Exn A → W → Prop) w :
  o = Some r → Q r w → wp (fueled o) Q w.
Proof. by intros ->. Qed.
Lemma wp_call {A} (f : W → W * result Exn A) Q w : Q (f w).2 (f w).1 → wp (call f) Q w.
Proof. unfold wp, call. by destruct (f w). Qed.
Lemma wp_ask {A} (f : W → W * A) Q w : Q (Ok (f w).2) (f w).1 → wp (ask f) Q w.
Proof. unfold wp, ask. by destruct (f w). Qed.

Lemma wp_except {A} (m : Eff W A) h Q w :
  wp m (λ r w', match r with Ok a => Q (Ok a) w' | Raise e => wp (h e) Q w' end) w → wp (except m h) Q w.
Proof. unfold wp, except. by destruct (m w) as [[w' [a|e]]|]. Qed.
Lemma wp_finally {A} (m : Eff W A) last Q w :
  wp m (λ r w', wp last (λ r' w'', match r' with Ok _ => Q r w'' | Raise e => Q (Raise e) w'' end) w') w →
  wp (finally m last) Q w.
Proof.
  unfold wp, finally. destruct (m w) as [[w' r]|]; [|done]. by destruct (last w') as [[w'' [u|e]]|].
Qed.

(** ** What is known of an answer and what stays true of the world *)

(** [m] ends, keeps [I] true, and what it answers satisfies [P]. *)
Definition keeps {A} (I : W → Prop) (m : Eff W A) (P : A → Prop) : Prop :=
  ∀ w, I w → wp m (λ r w', I w' ∧ match r with Ok a => P a | Raise _ => True end) w.
(** [f] answers [a] in some world. *)
Definition answered {A} (f : W → W * result Exn A) (a : A) : Prop := ∃ w w', f w = (w', Ok a).

Section keeps.
Context (I : W → Prop).

Lemma keeps_mono {A} (m : Eff W A) (P Q : A → Prop) : keeps I m P → (∀ a, P a → Q a) → keeps I m Q.
Proof. intros Hm H w Hw. eapply wp_mono, Hm; [|done]. intros [a|e] w' [? ?]; auto. Qed.
Lemma keeps_bind {A B} (m : Eff W A) (f : A → Eff W B) (P : A → Prop) Q :
  keeps I m P → (∀ a, P a → keeps I (f a) Q) → keeps I (m ≫= f) Q.
Proof.
  intros Hm Hf w Hw. apply wp_bind. eapply wp_mono, Hm; [|done].
  intros [a|e] w' [Hw' Ha]; cbn beta iota in *; [|done]. by apply Hf.
Qed.
Lemma keeps_ret {A} (a : A) (P : A → Prop) : P a → keeps I (ret a) P.
Proof. by intros H w. Qed.
Lemma keeps_raise {A} e (P : A → Prop) : keeps I (raise e) P.
Proof. by intros w. Qed.
Lemma keeps_lift {A} (r : result Exn A) : keeps I (lift r) (λ a, r = Ok a).
Proof. intros w Hw. apply wp_lift. by destruct r. Qed.
Lemma keeps_fueled {A} (o : option (result Exn A)) : is_Some o → keeps I (fueled o) (λ a, o = Some (Ok a)).
Proof. intros [r ->] w Hw. eapply wp_fueled; [done|]. by destruct r. Qed.
Lemma keeps_call {A} (f : W → W * result Exn A) : (∀ w, I w → I (f w).1) → keeps I (call f) (answered f).
Proof.
  intros Hf w Hw. apply wp_call. split; [by apply Hf|]. destruct (f w) as [w' [a|e]] eqn:E; [|done]. by exists w, w'.
Qed.
Lemma keeps_ask {A} (f : W → W * A) : (∀ w, I w → I (f w).1) → keeps I (ask f) (λ _, True).
Proof. intros Hf w Hw. apply wp_ask. split; [by apply Hf|done]. Qed.
Lemma keeps_except {A} (m : Eff W A) h P : keeps I m P → (∀ e, keeps I (h e) P) → keeps I (except m h) P.
Proof.
  intros Hm Hh w Hw. apply wp_except. eapply wp_mono, Hm; [|done].
  intros [a|e] w' [Hw' Ha]; cbn beta iota in *; [done|]. by apply Hh.
Qed.
Lemma keeps_finally {A} (m : Eff W A) last P : keeps I m P → keeps I last (λ _, True) →
  keeps I (finally m last) P.
Proof.
  intros Hm Hl w Hw. apply wp_finally. eapply wp_mono, Hm; [|done]. intros r w' [Hw' Hr]; cbn beta in *.
  eapply wp_mono, Hl; [|done]. by intros [u|e] w'' [? _].
Qed.
Lemma keeps_each {A B} (f : A → Eff W B) (R : A → B → Prop) l :
  (∀ a, a ∈ l → keeps I (f a) (R a)) → keeps I (each f l) (Forall2 R l).
Proof.
  induction l as [|a l IH]; intros Hf; cbn [each]; [apply keeps_ret; constructor|].
  eapply keeps_bind; [apply Hf; by left|]. intros b Hb.
  eapply keeps_bind; [apply IH; intros; apply Hf; by right|]. intros k Hk. apply keeps_ret. by constructor.
Qed.
End keeps.

(** The same when nothing is said of the world. *)
Notation answers := (keeps (λ _ : W, True)).
Lemma answers_wp {A} (m : Eff W A) (P : A → Prop) w : answers m P →
  wp m (λ r _, match r with Ok a => P a | Raise _ => True end) w.
Proof. intros H. eapply wp_mono, H; [|done]. by intros r w' [_ ?]. Qed.
Lemma answers_call {A} (f : W → W * result Exn A) : answers (call f) (answered f).
Proof. by apply keeps_call. Qed.
Lemma answers_ask {A} (f : W → W * A) : answers (ask f) (λ _, True).
Proof. by apply keeps_ask. Qed.
End effects.
Notation answers := (keeps (λ _, True)).
