(* ===== verification/ExactBuild.v ===== *)
(** * Building an exact closure ([axle_exact_closure.py], lines 46 to 165 and 480 to 882)

    (In [src/packages/proofs/python/src/poo_flow_proof/].)  The sources of the
    owner modules are composed to one text, AXLE extracts its declarations,
    which must be those that the Lean closure needs, and verifies the theorems
    among the roots.  The AXLE service, the file system, the clock and the
    observer of phases act on a world [W]; times and limits are floats. *)

From Stdlib Require Import Ascii.
From S2P Require Import Prelude PyDict GraphTypes Receipts Text Merkle EvidenceModel SchemeDatum Sort ReceiptGraph Json Refinement LeanClosure SourceText ExactClosure Effects.

(** ** The closure and its manifest *)

Definition EXACT_SCHEMA_ID : string := "poo-flow.axle-exact-declaration-closure.v1".
Definition PHASE_SCHEMA_ID : string := "poo-flow.axle-phase.v1".

Record SourceDeclaration : Type := MkSourceDeclaration {
  sd_name : string;
  sd_kind : string;
  sd_declaration : string;
  sd_local_dependencies : list string
}.
Record ExactAxleClosure : Type := MkExactClosure {
  xc_lean_closure_digest : string;
  xc_environment : string;
  xc_root_declarations : list string;
  xc_source_declarations : list string;
  xc_declarations : list SourceDeclaration;
  xc_canonical_source : string;
  xc_theorem2sorry : dict string Json;
  xc_verification : dict string Json;
  xc_schema_id : string
}.
Definition texts (l : list string) : Json := JList (JStr <$> l).

Section digests.
Context (sha256_hex : string → string).

Definition canonical_source_digest (c : ExactAxleClosure) : result Exn string :=
  sha256_digest sha256_hex <$> encode_utf8 (xc_canonical_source c).
Definition exact_declaration_record (d : SourceDeclaration) : Json :=
  JObj [("name", JStr (sd_name d)); ("kind", JStr (sd_kind d));
        ("local_dependencies", texts (sd_local_dependencies d))].
Definition exact_identity_manifest (c : ExactAxleClosure) : result Exn (dict string Json) :=
  digest ← canonical_source_digest c;
  Ok [("schema_id", JStr (xc_schema_id c)); ("lean_closure_digest", JStr (xc_lean_closure_digest c));
      ("environment", JStr (xc_environment c)); ("root_declarations", texts (xc_root_declarations c));
      ("source_declarations", texts (xc_source_declarations c));
      ("declarations", JList (exact_declaration_record <$> xc_declarations c));
      ("canonical_source_digest", JStr digest)].
Definition exact_bundle_digest (c : ExactAxleClosure) : result Exn string :=
  identity ← exact_identity_manifest c; sha256_digest sha256_hex <$> canonical_json (JObj identity).
Definition exact_manifest (c : ExactAxleClosure) : result Exn (dict string Json) :=
  identity ← exact_identity_manifest c; digest ← exact_bundle_digest c;
  Ok (dupdate identity
        [("bundle_digest", JStr digest); ("canonical_source", JStr (xc_canonical_source c));
         ("theorem2sorry", JObj (xc_theorem2sorry c)); ("verification", JObj (xc_verification c))]).
End digests.

(** ** The text of the closure *)

(** [needle in s]. *)
Fixpoint is_infix (needle s : string) : bool :=
  String.prefix needle s || match s with EmptyString => false | String _ s => is_infix needle s end.
(** [s.split()]; [skip] counts the bytes of white space still to come. *)
Fixpoint split_words_aux (skip : nat) (word s : string) : list string :=
  let flush rest := if bool_decide (word = "") then rest else word :: rest in
  match s with
  | EmptyString => flush []
  | String c s' =>
      match skip with
      | S n => split_words_aux n word s'
      | O => match white_prefix s with
             | O => split_words_aux 0 (word +:+ String c "") s'
             | S n => flush (split_words_aux n "" s')
             end
      end
  end.
Definition split_words (s : string) : list string := split_words_aux 0 "" s.

Definition lines (l : list string) : string := str_join newline l.
Definition blank : string := newline +:+ newline.
Definition paragraphs (l : list string) : string := str_join blank l.
(** [sorted(set)]. *)
Definition sorted_set (l : list string) : list string := sort_by str_leb (remove_dups l).

(** The modules the targets of one line that starts with [open] resolve to. *)
Definition opened_targets (parent_namespace : string) (selected_modules : list string)
    (stripped : string) : list string :=
  omap (λ target,
      let candidates := [target; if bool_decide (parent_namespace = "") then target
                                 else parent_namespace +:+ "." +:+ target] in
      snd <$> list_find (λ candidate, candidate ∈ selected_modules) candidates)
    (split_words (removeprefix "open " stripped)).
Definition selected_open_commands (source_text source_module : string) (selected_modules : list string) :
    list string :=
  from_keys (map (λ resolved, "open " +:+ resolved)
    (flat_map (λ line,
        let stripped := ustrip line in
        if String.prefix "open " stripped
        then opened_targets (namespace_of source_module) selected_modules stripped else [])
      (splitlines source_text))).

Record LeanOwnerSource : Type := MkOwnerSource {
  ow_module : string;
  ow_path : string;
  ow_owner_path : string;
  ow_source_digest : string
}.

(** The body of the loop over the sources, once the source was read. *)
Definition owner_body (by_module : dict string (list (LeanSourceRange * list string)))
    (visible_modules : list string) (source : LeanOwnerSource) (source_text : string) : result Exn string :=
  coalesced ← coalesce_source_ranges (default [] (dget (ow_module source) by_module));
  _ ← require (negb (bool_decide (coalesced = [])))
        (ExactError "owner-source-without-ranged-declaration" (ow_module source));
  let open_commands := lines (selected_open_commands source_text (ow_module source) visible_modules) in
  chunks ← mapM (λ group, ustrip <$> slice_source_range source_text group.1) coalesced;
  let declarations := paragraphs chunks in
  let context := if bool_decide (open_commands = "") then "" else open_commands +:+ blank in
  let fully_qualified :=
    forallb (λ '(group, chunk), existsb (λ name, is_infix name chunk) group.2)
      (zip coalesced chunks) in
  Ok (if fully_qualified then context +:+ declarations
      else "namespace " +:+ ow_module source +:+ blank +:+ context +:+ declarations +:+ blank
           +:+ "end " +:+ ow_module source).

(** The name spaces of the interface of the proof base, those that are empty apart. *)
Definition proof_base_namespaces (c : LeanDeclarationClosure) : list string :=
  filter (λ namespace, namespace ≠ "") ((λ d, namespace_of (li_name d)) <$> lc_proof_base_interface c).
Definition interface_declaration (d : LeanProofBaseInterfaceDeclaration) : string :=
  (if bool_decide (li_declaration_role d = "abbrev") then "abbrev"
   else if bool_decide (li_declaration_role d = "definition") then "def" else "axiom")
  +:+ " " +:+ li_name d +:+ " : " +:+ li_type_source d
  +:+ match li_value_source d with Some value => " := " +:+ value | None => "" end.
Definition proof_base_prelude (c : LeanDeclarationClosure) : string :=
  let interface := lc_proof_base_interface c in
  let universes := sorted_set (flat_map li_level_params interface) in
  let instances := li_name <$> filter (λ d, li_declaration_role d = "instance") interface in
  paragraphs (filter (λ part, part ≠ "")
    [if bool_decide (universes = []) then "" else "universe " +:+ str_join " " universes;
     paragraphs (interface_declaration <$> interface);
     lines ((λ name, "attribute [local instance] " +:+ name) <$> instances);
     if bool_decide (instances = []) then "" else "noncomputable section"]).
(** What stands before the bodies. *)
Definition source_prelude (c : LeanDeclarationClosure) (visible_modules : list string) : string :=
  lines ((λ base_import, "import " +:+ base_import) <$> lc_base_imports c) +:+ blank
  +:+ lines ((λ module, "namespace " +:+ module +:+ newline +:+ "end " +:+ module) <$>
               sorted_set (visible_modules ++ proof_base_namespaces c)) +:+ blank
  +:+ proof_base_prelude c +:+ blank.

(** [_compose_source_declarations], which nothing calls any more. *)
Definition composed_declaration (documents : dict string AxleDocument) (names : list string) (name : string) :
    result Exn string :=
  let '(namespace, separator, _) := rpartition_dot name in
  document ← of_option (KeyError name) (dget name documents);
  let declaration := ustrip (dc_declaration document) in
  let owners := omap (λ dependency, covering_document dependency names) (document_dependencies document) in
  let dependency_namespaces :=
    namespace_of <$> filter (λ owner, owner ≠ name ∧ namespace_of owner ≠ namespace) owners in
  let opened := lines ((λ n, "open " +:+ n) <$> sorted_set dependency_namespaces) in
  declaration_head ← of_option (PyError "IndexError" "list index out of range")
                       (head (splitlines declaration));
  let in_context := if bool_decide (opened = "") then declaration else opened +:+ blank +:+ declaration in
  Ok (if is_infix name declaration_head then in_context
      else if separator : bool then
        let context := if bool_decide (opened = "") then newline else newline +:+ opened +:+ newline in
        "namespace " +:+ namespace +:+ newline +:+ context +:+ declaration +:+ blank +:+ "end " +:+ namespace
      else in_context).
Definition compose_source_declarations (names : list string) (documents : dict string AxleDocument)
    (base_imports : list string) : result Exn string :=
  declarations ← mapM (composed_declaration documents names) names;
  Ok (lines ((λ base_import, "import " +:+ base_import) <$> base_imports) +:+ blank
      +:+ paragraphs declarations +:+ newline).

(** ** AXLE and its answers *)

Record AxleMessages : Type := MkMessages {
  mg_errors : list string;
  mg_warnings : list string;
  mg_infos : list string
}.
(** [message_payload] of [axle_verify.py]. *)
Definition message_payload (m : AxleMessages) : Json :=
  JObj [("errors", texts (mg_errors m)); ("warnings", texts (mg_warnings m)); ("infos", texts (mg_infos m))].

(** The messages of Lean and of the tool that come with every answer. *)
Record AxleResponse (A : Type) : Type := MkResponse {
  rp_value : A;
  rp_lean_messages : AxleMessages;
  rp_tool_messages : AxleMessages
}.
Arguments MkResponse {A}. Arguments rp_value {A}.
Arguments rp_lean_messages {A}. Arguments rp_tool_messages {A}.
Record AxleStatement : Type := MkStatement { as_content : string; as_info : Json }.
Record AxleVerified : Type := MkVerified {
  av_okay : bool;
  av_failed_declarations : list string;
  av_timings : Json;
  av_info : Json
}.
Definition response_errors {A} (r : AxleResponse A) : list string :=
  mg_errors (rp_lean_messages r) ++ mg_errors (rp_tool_messages r).
Definition require_clean {A} (response : AxleResponse A) (operation : string) : result Exn unit :=
  let errors := response_errors response in
  require (bool_decide (errors = []))
    (ExactError "axle-projection-failed" (operation +:+ ": " +:+ str_join " | " errors)).

(** [AxleClient]; the arguments are texts, the environment and the time limit. *)
Record AxleClient (W Float : Type) : Type := MkClient {
  extract_decls : string → string → Float → W → W * result Exn (AxleResponse (list AxleDocument));
  theorem2sorry : string → string → list string → Float → W → W * result Exn (AxleResponse AxleStatement);
  verify_proof : string → string → string → Float → W → W * result Exn (AxleResponse AxleVerified);
  close_client : W → W * result Exn unit
}.
Arguments extract_decls {W Float}. Arguments theorem2sorry {W Float}.
Arguments verify_proof {W Float}. Arguments close_client {W Float}.

(** [str(tuple)] and [repr(dict)] of strings. *)
Definition repr_tuple (l : list string) : string :=
  "(" +:+ str_join ", " (repr_str <$> l) +:+ (if (length l =? 1)%nat then ",)" else ")").
Definition repr_dict (d : dict string string) : string :=
  "{" +:+ str_join ", " ((λ '(k, v), repr_str k +:+ ": " +:+ repr_str v) <$> d) +:+ "}".

(** ** The phases *)

Section build.
Context {W Float : Type}.
Context (monotonic : W → W * Float) (elapsed_ms : Float → Float → Z).
Context (type_name : Exn → string).
Context (read_text : string → W → W * result Exn string).
Context (nonpositive : Float → bool) (float_str : Float → string).
Context (sha256_hex : string → string) (set_order : list string → list string).
Context (new_client : Float → AxleClient W Float).

Notation Observer := (option (Json → W → W * result Exn unit)).

(** What the observer is told; the clock is read only if there is one. *)
Definition notify (observer : Observer) (event : Eff W Json) : Eff W unit :=
  match observer with
  | None => ret tt
  | Some observe => e ← event; call (observe e)
  end.
Definition phase_event (phase state : string) (payload_bytes elapsed : Z) (more : list (string * Json)) : Json :=
  JObj ([("schema_id", JStr PHASE_SCHEMA_ID); ("phase", JStr phase); ("state", JStr state);
         ("payload_bytes", JInt payload_bytes); ("elapsed_ms", JInt elapsed)] ++ more).
Definition run_phase {A} (phase : string) (payload_bytes : Z) (observer : Observer)
    (operation : W → W * result Exn A) : Eff W A :=
  started ← ask monotonic;
  _ ← notify observer (ret (phase_event phase "started" payload_bytes 0 []));
  result ← except (call operation) (λ error,
    _ ← notify observer (now ← ask monotonic;
          ret (phase_event phase "failed" payload_bytes (elapsed_ms started now)
                 [("error_type", JStr (type_name error))]));
    raise error);
  _ ← notify observer (now ← ask monotonic;
        ret (phase_event phase "completed" payload_bytes (elapsed_ms started now) []));
  ret result.

Definition compose_owner_sources (c : LeanDeclarationClosure) (sources : list LeanOwnerSource) : Eff W string :=
  by_module ← lift (declarations_by_module c);
  let visible_modules := dkeys by_module ++ lc_proof_base_imports c ++ proof_base_namespaces c in
  bodies ← each (λ source,
    source_text ← call (read_text (ow_path source));
    lift (owner_body by_module visible_modules source source_text)) sources;
  ret (source_prelude c visible_modules +:+ paragraphs bodies +:+ newline).

(** [len(text.encode())]. *)
Definition payload_size (text : string) : result Exn Z :=
  (λ bytes, Z.of_nat (String.length bytes)) <$> encode_utf8 text.

Definition external_owner_modules (c : LeanDeclarationClosure) (sources : list LeanOwnerSource) : list string :=
  let root_package := first_part "." (lc_root_module c) in
  sorted_set (filter (λ module, first_part "." module ≠ root_package) (ow_module <$> sources)).

(** The document that covers a root, unless its name is empty. *)
Definition canonical_root (source_names : list string) (root : string) : result Exn string :=
  of_option (ExactError "root-without-source-declaration" root)
    (covering ← covering_document root source_names;
     if bool_decide (covering = "") then None else Some covering).

(** [actual_names]. *)
Definition normalized_names (aliases : dict string string) (proof_base_names : list string)
    (documents : list AxleDocument) : list string :=
  sorted_set (filter (λ name, name ∉ proof_base_names)
    ((λ d, normalized_source_declaration_name set_order aliases (dc_name d)) <$> documents)).
Definition check_roundtrip (actual_names expected_names : list string) : result Exn unit :=
  let missing := sorted_set (filter (λ name, name ∉ actual_names) expected_names) in
  let extra := sorted_set (filter (λ name, name ∉ expected_names) actual_names) in
  require (bool_decide (missing = []) && bool_decide (extra = []))
    (ExactError "exact-roundtrip-mismatch"
       ("missing=" +:+ repr_list missing +:+ "; extra=" +:+ repr_list extra)).

(** [root_declaration_kinds]. *)
Definition root_kinds (by_name : dict string AxleDocument) (roots : list string) :
    result Exn (dict string string) :=
  kinds ← mapM (λ root, document ← of_option (KeyError root) (dget root by_name);
                        Ok (root, dc_kind document)) roots;
  let root_declaration_kinds := dict_of kinds in
  _ ← require (forallb (λ kind, negb (bool_decide (ustrip kind = ""))) (dvalues root_declaration_kinds))
        (ExactError "invalid-root-declaration-kind" (repr_dict root_declaration_kinds));
  Ok root_declaration_kinds.
Definition kinds_record (kinds : dict string string) : Json := JObj ((λ '(k, v), (k, JStr v)) <$> kinds).

(** The receipts when there are no theorems among the roots. *)
Definition no_theorem_obligation (kinds : dict string string) : dict string Json :=
  [("schema_id", JStr "poo-flow.axle-root-theorem-obligation.v1"); ("status", JStr "not-applicable");
   ("root_declarations", JList []); ("root_declaration_kinds", kinds_record kinds)].
Definition no_theorem_validation (roots : list string) (kinds : dict string string) : dict string Json :=
  [("schema_id", JStr "poo-flow.axle-root-declaration-validation.v1"); ("status", JStr "accepted");
   ("roundtrip", JStr "accepted"); ("theorem_proof", JStr "not-applicable"); ("okay", JBool true);
   ("failed_declarations", JList []); ("lean_messages", JList []); ("tool_messages", JList []);
   ("timings", JObj []);
   ("request", JObj [("root_declarations", texts roots); ("root_declaration_kinds", kinds_record kinds)])].
(** And when AXLE proved them. *)
Definition theorem_obligation (theorem_roots : list string) (kinds : dict string string)
    (statement : AxleResponse AxleStatement) : dict string Json :=
  [("schema_id", JStr "poo-flow.axle-root-theorem-obligation.v1"); ("status", JStr "generated");
   ("root_declarations", texts theorem_roots); ("root_declaration_kinds", kinds_record kinds);
   ("request", as_info (rp_value statement));
   ("messages", JObj [("lean", message_payload (rp_lean_messages statement));
                      ("tool", message_payload (rp_tool_messages statement))])].
Definition theorem_validation (verified : AxleResponse AxleVerified) : dict string Json :=
  [("schema_id", JStr "poo-flow.axle-root-declaration-validation.v1"); ("status", JStr "accepted");
   ("roundtrip", JStr "accepted"); ("theorem_proof", JStr "accepted");
   ("okay", JBool (av_okay (rp_value verified)));
   ("failed_declarations", texts (av_failed_declarations (rp_value verified)));
   ("lean_messages", message_payload (rp_lean_messages verified));
   ("tool_messages", message_payload (rp_tool_messages verified));
   ("timings", av_timings (rp_value verified)); ("request", av_info (rp_value verified))].

(** The two phases that prove the theorems among the roots. *)
Definition verify_roots (client : AxleClient W Float) (observer : Observer) (limit : Float)
    (environment canonical_source : string) (canonical_payload_bytes : Z)
    (roots theorem_roots : list string) (kinds : dict string string) :
    Eff W (dict string Json * dict string Json) :=
  if bool_decide (theorem_roots = []) then ret (no_theorem_obligation kinds, no_theorem_validation roots kinds)
  else
    statement ← run_phase "root-theorem2sorry" canonical_payload_bytes observer
      (theorem2sorry client canonical_source environment theorem_roots limit);
    _ ← lift (require_clean statement "theorem2sorry exact closure roots");
    let content := as_content (rp_value statement) in
    statement_bytes ← lift (payload_size content);
    verified ← run_phase "root-proof-verify" (canonical_payload_bytes + statement_bytes) observer
      (verify_proof client content canonical_source environment limit);
    _ ← lift (require_clean verified "verify exact declaration closure");
    _ ← lift (require (av_okay (rp_value verified)
                       && bool_decide (av_failed_declarations (rp_value verified) = []))
                (ExactError "exact-proof-verification-failed"
                   (str_join ", " (av_failed_declarations (rp_value verified)))));
    ret (theorem_obligation theorem_roots kinds statement, theorem_validation verified).

Definition exact_declaration (by_name : dict string AxleDocument) (name : string) :
    result Exn SourceDeclaration :=
  document ← of_option (KeyError name) (dget name by_name);
  Ok (MkSourceDeclaration name (dc_kind document) (dc_declaration document)
        (filter (λ dependency, dmem dependency by_name = true) (document_dependencies document))).

(** What happens between opening and closing the client. *)
Definition build_with (client : AxleClient W Float) (c : LeanDeclarationClosure)
    (sources : list LeanOwnerSource) (environment : string) (limit : Float) (observer : Observer) :
    Eff W ExactAxleClosure :=
  let external := external_owner_modules c sources in
  _ ← lift (require (bool_decide (external = []))
    (ExactError "external-proof-base-required"
       ("root_package=" +:+ first_part "." (lc_root_module c) +:+ "; external_owner_modules="
        +:+ repr_tuple external +:+
        "; declare external dependencies through --base-import or --proof-base-import")));
  combined_source ← compose_owner_sources c sources;
  payload_bytes ← lift (payload_size combined_source);
  extracted ← run_phase "owner-source-extract" payload_bytes observer
    (extract_decls client combined_source environment limit);
  _ ← lift (require_clean extracted "extract composed owner sources");
  aliases ← lift (source_declaration_aliases c);
  let proof_base_names := li_name <$> lc_proof_base_interface c in
  needed ← fueled (source_declaration_closure set_order (rp_value extracted) aliases
                     (ld_name <$> lc_declarations c) (lc_root_declarations c));
  let source_names := filter (λ name, name ∉ proof_base_names) needed in
  roots ← lift (mapM (canonical_root source_names) (lc_root_declarations c));
  roundtrip ← run_phase "canonical-roundtrip-extract" payload_bytes observer
    (extract_decls client combined_source environment limit);
  _ ← lift (require_clean roundtrip "extract exact merged closure");
  let by_name := documents_by_name (rp_value roundtrip) in
  _ ← lift (check_roundtrip (normalized_names aliases proof_base_names (rp_value roundtrip)) source_names);
  kinds ← lift (root_kinds by_name roots);
  let theorem_roots := (filter (λ '(_, kind), kind = "theorem") kinds).*1 in
  receipts ← verify_roots client observer limit environment combined_source payload_bytes
               roots theorem_roots kinds;
  let names := from_keys (source_names ++ filter (λ name, dmem name by_name = true)
                            (sorted_set proof_base_names)) in
  declarations ← lift (mapM (exact_declaration by_name) names);
  digest ← lift (closure_digest sha256_hex c);
  ret (MkExactClosure digest environment roots source_names declarations combined_source
         receipts.1 receipts.2 EXACT_SCHEMA_ID).

Definition build_exact_axle_closure (client : option (AxleClient W Float)) (c : LeanDeclarationClosure)
    (sources : list LeanOwnerSource) (environment : string)
    (operation_timeout_seconds base_timeout_seconds : Float) (observer : Observer) : Eff W ExactAxleClosure :=
  _ ← lift (require (negb (nonpositive operation_timeout_seconds || nonpositive base_timeout_seconds))
    (ExactError "invalid-axle-timeout"
       ("operation=" +:+ float_str operation_timeout_seconds +:+ ";base=" +:+ float_str base_timeout_seconds)));
  match client with
  | Some client => build_with client c sources environment operation_timeout_seconds observer
  | None =>
      let client := new_client base_timeout_seconds in
      finally (build_with client c sources environment operation_timeout_seconds observer)
        (call (close_client client))
  end.
End build.
