(* ===== verification/ExactBuildFacts.v ===== *)
(** * An exact closure is what AXLE extracted and verified *)

From Stdlib Require Import Ascii.
From S2P Require Import Prelude PyDict GraphTypes Receipts Text Merkle EvidenceModel SchemeDatum Sort ReceiptGraph ReceiptGraphFacts Json Refinement LeanClosure LeanClosureFacts SourceText SourceTextFacts ExactClosure ExactClosureFacts Effects ExactBuild.

Lemma elem_of_sorted_set l x : x ∈ sorted_set l ↔ x ∈ l.
Proof. unfold sorted_set. by rewrite elem_of_sort_by, elem_of_remove_dups. Qed.
Lemma sorted_set_nil l : sorted_set l = [] ↔ l = [].
Proof.
  split; [|by intros ->]. intros H. destruct l as [|x l]; [done|].
  assert (x ∈ sorted_set (x :: l)) as Hx by (rewrite elem_of_sorted_set; by left).
  rewrite H in Hx. by apply not_elem_of_nil in Hx.
Qed.
Lemma filter_nil_iff {A} (P : A → Prop) `{∀ x, Decision (P x)} l : filter P l = [] ↔ ∀ x, x ∈ l → ¬ P x.
Proof.
  split.
  - intros Hl x Hx HP. assert (x ∈ filter P l) as Hf by (by apply list_elem_of_filter).
    rewrite Hl in Hf. by apply not_elem_of_nil in Hf.
  - intros Hl. destruct (filter P l) as [|x k] eqn:E; [done|].
    assert (x ∈ filter P l) as Hx by (rewrite E; by left). apply list_elem_of_filter in Hx as [HP Hx].
    by destruct (Hl x Hx).
Qed.

Lemma Forall2_elem_of_l {A B} (P : A → B → Prop) l k x : Forall2 P l k → x ∈ l → ∃ y, y ∈ k ∧ P x y.
Proof. induction 1; set_solver. Qed.
Lemma Forall2_elem_of_r {A B} (P : A → B → Prop) l k y : Forall2 P l k → y ∈ k → ∃ x, x ∈ l ∧ P x y.
Proof. induction 1; set_solver. Qed.

Lemma check_roundtrip_Ok actual expected u :
  check_roundtrip actual expected = Ok u ↔ ∀ n, n ∈ actual ↔ n ∈ expected.
Proof.
  unfold check_roundtrip. rewrite require_Ok, andb_true_iff, !bool_decide_eq_true, !sorted_set_nil, !filter_nil_iff.
  split.
  - intros [H1 H2] n. split; intros Hn; apply dec_stable; auto.
  - intros H. split; intros n Hn Hc; apply Hc, H, Hn.
Qed.

Section facts.
Context {W Float : Type}.
Context (monotonic : W → W * Float) (elapsed_ms : Float → Float → Z).
Context (type_name : Exn → string).
Context (read_text : string → W → W * result Exn string).
Context (nonpositive : Float → bool) (float_str : Float → string).
Context (sha256_hex : string → string) (set_order : list string → list string).
Context (Horder : ∀ l, NoDup l → set_order l ≡ₚ l).
Context (new_client : Float → AxleClient W Float).

Lemma answers_notify observer event : answers event (λ _, True) →
  answers (notify (W:=W) observer event) (λ _, True).
Proof.
  intros He. destruct observer as [observe|]; cbn [notify]; [|by apply keeps_ret].
  eapply keeps_bind; [done|]. intros e _. eapply keeps_mono; [apply answers_call|done].
Qed.

(** A phase answers what its operation answered. *)
Lemma answers_run_phase {A} phase bytes observer (operation : W → W * result Exn A) :
  answers (run_phase monotonic elapsed_ms type_name phase bytes observer operation) (answered operation).
Proof.
  assert (∀ event : Eff W Json, answers event (λ _, True) →
    answers (notify observer event) (λ _, True)) as Hn by (intros; by apply answers_notify).
  assert (∀ f : Float → Json, answers (now ← ask monotonic; ret (f now)) (λ _, True)) as Hnow.
  { intros f. eapply keeps_bind; [apply answers_ask|]. intros; by apply keeps_ret. }
  eapply keeps_bind; [apply answers_ask|]. intros started _.
  eapply keeps_bind; [by apply Hn, keeps_ret|]. intros _ _. eapply keeps_bind.
  { apply keeps_except; [apply answers_call|]. intros e. eapply keeps_bind; [by apply Hn, Hnow|].
    intros _ _. apply keeps_raise. }
  intros a Ha. eapply keeps_bind; [by apply Hn, Hnow|]. intros _ _. by apply keeps_ret.
Qed.

(** ** The parts *)

Lemma documents_by_name_spec documents n d : dget n (documents_by_name documents) = Some d →
  d ∈ documents ∧ dc_name d = n.
Proof. intros H%dget_dict_of. by apply list_elem_of_fmap in H as (d' & [= -> ->] & ?). Qed.
Lemma dmem_documents documents n : dmem n (documents_by_name documents) = true ↔ n ∈ dc_name <$> documents.
Proof.
  rewrite dmem_spec. unfold documents_by_name. rewrite elem_of_dkeys_dict_of, <-list_fmap_compose. done.
Qed.

Lemma canonical_roots_Ok names roots l : mapM (canonical_root names) roots = Ok l →
  Forall2 (λ root r, r ∈ names ∧ is_under root r = true ∧ r ≠ "") roots l.
Proof.
  intros H%mapM_Ok. eapply Forall2_impl; [exact H|]. intros root r Hr. unfold canonical_root in Hr.
  apply of_option_Ok, bind_Some in Hr as (covering & Hc & Hr). case_bool_decide; simplify_eq.
  apply longest_elem, list_elem_of_filter in Hc as [? ?]. done.
Qed.

Lemma elem_of_normalized_names aliases proof_base documents n :
  n ∈ normalized_names set_order aliases proof_base documents ↔ n ∉ proof_base ∧
    ∃ d, d ∈ documents ∧ normalized_source_declaration_name set_order aliases (dc_name d) = n.
Proof.
  unfold normalized_names. rewrite elem_of_sorted_set, list_elem_of_filter, list_elem_of_fmap. naive_solver.
Qed.

Lemma root_kinds_Ok by_name roots kinds r d : root_kinds by_name roots = Ok kinds → r ∈ roots →
  dget r by_name = Some d → dget r kinds = Some (dc_kind d).
Proof.
  intros H Hr Hd. unfold root_kinds in H. apply bind_Ok in H as (l & Hl%mapM_Ok & H).
  apply bind_Ok in H as (u & _ & [= <-]).
  assert (∀ x k, (x, k) ∈ l → ∃ y, dget x by_name = Some y ∧ dc_kind y = k) as Hk.
  { intros x k Hx. destruct (Forall2_elem_of_r _ _ _ _ Hl Hx) as (y & _ & Hy).
    apply bind_Ok in Hy as (z & Hz%of_option_Ok & [= -> <-]). by exists z. }
  assert (r ∈ dkeys (dict_of l)) as [k Hkr]%dget_is_Some.
  { rewrite elem_of_dkeys_dict_of. destruct (Forall2_elem_of_l _ _ _ _ Hl Hr) as (y & Hy & Hyr).
    apply bind_Ok in Hyr as (z & _ & [= <-]). by apply (list_elem_of_fmap_2 fst) in Hy. }
  rewrite Hkr. destruct (Hk r k (dget_dict_of _ _ _ Hkr)) as (y & Hy & <-). congruence.
Qed.

Lemma exact_declaration_Ok documents n d : exact_declaration (documents_by_name documents) n = Ok d →
  sd_name d = n ∧ ∃ document, document ∈ documents ∧ dc_name document = sd_name d ∧
    dget (sd_name d) (documents_by_name documents) = Some document ∧
    dc_kind document = sd_kind d ∧ dc_declaration document = sd_declaration d ∧
    ∀ x, x ∈ sd_local_dependencies d ↔ x ∈ document_dependencies document ∧ x ∈ dc_name <$> documents.
Proof.
  intros H. unfold exact_declaration in H. apply bind_Ok in H as (document & Hd%of_option_Ok & [= <-]).
  pose proof (documents_by_name_spec _ _ _ Hd) as [? ?]. split; [done|]. exists document. split_and!; try done.
  intros x. cbn [sd_local_dependencies]. rewrite list_elem_of_filter, dmem_documents. naive_solver.
Qed.

(** What an exact closure promises. *)
Section promise.
Context (client : AxleClient W Float) (c : LeanDeclarationClosure) (sources : list LeanOwnerSource)
        (environment : string) (limit : Float).
Notation proof_base := (li_name <$> lc_proof_base_interface c).

(** AXLE answered [r] to [f], without errors. *)
Definition clean_answer {A} (f : W → W * result Exn (AxleResponse A)) (r : AxleResponse A) : Prop :=
  answered f r ∧ response_errors r = [].

(** AXLE proved the theorems [names] of [source]. *)
Definition proved_by (source : string) (names : list string) (statement : AxleResponse AxleStatement)
    (verified : AxleResponse AxleVerified) : Prop :=
  clean_answer (theorem2sorry client source environment names limit) statement ∧
  clean_answer (verify_proof client (as_content (rp_value statement)) source environment limit) verified ∧
  av_okay (rp_value verified) = true ∧ av_failed_declarations (rp_value verified) = [].
Definition axle_proved (source : string) (names : list string) : Prop :=
  ∃ statement verified, proved_by source names statement verified.

(** The receipts of the roots, with their kinds. *)
Definition theorem_names (kinds : dict string string) : list string :=
  (filter (λ '(_, kind), kind = "theorem") kinds).*1.
Inductive root_receipts (source : string) (roots : list string) (kinds : dict string string) :
    dict string Json * dict string Json → Prop :=
| no_theorem_receipts : theorem_names kinds = [] →
    root_receipts source roots kinds (no_theorem_obligation kinds, no_theorem_validation roots kinds)
| theorem_receipts statement verified : theorem_names kinds ≠ [] →
    proved_by source (theorem_names kinds) statement verified →
    root_receipts source roots kinds
      (theorem_obligation (theorem_names kinds) kinds statement, theorem_validation verified).

Record ExactSpec (exact : ExactAxleClosure) (extracted roundtrip : AxleResponse (list AxleDocument))
    (aliases : dict string string) : Prop := {
  xs_source : ∃ w w', compose_owner_sources read_text c sources w = Some (w', Ok (xc_canonical_source exact));
  xs_package s : s ∈ sources → first_part "." (ow_module s) = first_part "." (lc_root_module c);
  xs_extracted : clean_answer (extract_decls client (xc_canonical_source exact) environment limit) extracted;
  xs_roundtrip : clean_answer (extract_decls client (xc_canonical_source exact) environment limit) roundtrip;
  xs_aliases : source_declaration_aliases c = Ok aliases;
  xs_nodup : NoDup (xc_source_declarations exact);
  (** the sources are those that the closure needs, *)
  xs_needed n : n ∈ xc_source_declarations exact ↔ n ∉ proof_base ∧
    needed set_order (rp_value extracted) aliases ((ld_name <$> lc_declarations c) ++ lc_root_declarations c) n;
  (** and those that are in the composed source; *)
  xs_present n : n ∈ xc_source_declarations exact ↔ n ∉ proof_base ∧ ∃ d, d ∈ rp_value roundtrip ∧
    normalized_source_declaration_name set_order aliases (dc_name d) = n;
  xs_roots : Forall2 (λ root r, r ∈ xc_source_declarations exact ∧ is_under root r = true ∧ r ≠ "")
               (lc_root_declarations c) (xc_root_declarations exact);
  (** AXLE proved the roots that are theorems; *)
  xs_proved r d : r ∈ xc_root_declarations exact → dget r (documents_by_name (rp_value roundtrip)) = Some d →
    dc_kind d = "theorem" → ∃ names, r ∈ names ∧ axle_proved (xc_canonical_source exact) names;
  xs_receipts : ∃ kinds, root_kinds (documents_by_name (rp_value roundtrip)) (xc_root_declarations exact) = Ok kinds ∧
    root_receipts (xc_canonical_source exact) (xc_root_declarations exact) kinds
      (xc_theorem2sorry exact, xc_verification exact);
  xs_names : NoDup (sd_name <$> xc_declarations exact) ∧
    ∀ n, n ∈ sd_name <$> xc_declarations exact ↔ n ∈ xc_source_declarations exact ∨
      n ∈ proof_base ∧ n ∈ dc_name <$> rp_value roundtrip;
  (** a declaration is what the extraction answers, and depends on extracted ones. *)
  xs_declarations d : d ∈ xc_declarations exact → ∃ document,
    document ∈ rp_value roundtrip ∧ dc_name document = sd_name d ∧
    dget (sd_name d) (documents_by_name (rp_value roundtrip)) = Some document ∧ dc_kind document = sd_kind d ∧
    dc_declaration document = sd_declaration d ∧ ∀ x, x ∈ sd_local_dependencies d ↔
      x ∈ document_dependencies document ∧ x ∈ dc_name <$> rp_value roundtrip;
  xs_digest : closure_digest sha256_hex c = Ok (xc_lean_closure_digest exact);
  xs_constants : xc_environment exact = environment ∧ xc_schema_id exact = EXACT_SCHEMA_ID
}.

Lemma answers_clean {A B} phase bytes observer operation label (f : AxleResponse A → Eff W B) Q :
  (∀ r, clean_answer operation r → answers (f r) Q) →
  answers (r ← run_phase monotonic elapsed_ms type_name phase bytes observer operation;
           _ ← lift (require_clean r label); f r) Q.
Proof.
  intros H. eapply keeps_bind; [apply answers_run_phase|]. intros r Hr.
  eapply keeps_bind; [apply keeps_lift|]. intros u Hu. apply H. split; [done|].
  by apply require_Ok, bool_decide_eq_true in Hu.
Qed.

Notation run := (run_phase monotonic elapsed_ms type_name).

Lemma answers_compose : answers (compose_owner_sources read_text c sources)
  (λ source, ∃ w w', compose_owner_sources read_text c sources w = Some (w', Ok source)).
Proof.
  assert (answers (compose_owner_sources read_text c sources) (λ _, True)) as H.
  { unfold compose_owner_sources. eapply keeps_bind; [apply keeps_lift|]. intros g _.
    eapply keeps_bind; [|intros; by apply keeps_ret].
    apply (keeps_each _ _ (λ _ _, True)). intros s _. eapply keeps_bind; [apply answers_call|]. intros text _.
    eapply keeps_mono; [apply keeps_lift|done]. }
  intros w _. specialize (H w I). unfold wp in *. destruct (compose_owner_sources _ _ _ w) as [[w' [source|e]]|] eqn:E;
    [split; [done|by exists w, w']|done|done].
Qed.

(** The names of the declarations: the sources, then the extracted part of the
    interface of the proof base. *)
Lemma exact_names documents names declarations :
  Forall2 (λ n d, exact_declaration (documents_by_name documents) n = Ok d)
    (from_keys (names ++ filter (λ n, dmem n (documents_by_name documents) = true) (sorted_set proof_base)))
    declarations →
  NoDup (sd_name <$> declarations) ∧
  ∀ n, n ∈ sd_name <$> declarations ↔ n ∈ names ∨ n ∈ proof_base ∧ n ∈ dc_name <$> documents.
Proof.
  intros H. assert (sd_name <$> declarations =
    from_keys (names ++ filter (λ n, dmem n (documents_by_name documents) = true) (sorted_set proof_base))) as ->.
  { induction H as [|n d ns ds Hd _ IH]; [done|]. apply exact_declaration_Ok in Hd as [Hd _]. csimpl.
    by rewrite Hd, IH. }
  split; [apply from_keys_NoDup|]. intros n.
  rewrite elem_of_from_keys, elem_of_app, list_elem_of_filter, elem_of_sorted_set, dmem_documents. tauto.
Qed.

(** The phases of the roots answer only what AXLE proved. *)
Lemma answers_verify_roots observer source bytes roots kinds :
  answers (verify_roots monotonic elapsed_ms type_name client observer limit environment source bytes
             roots (theorem_names kinds) kinds) (root_receipts source roots kinds).
Proof.
  unfold verify_roots. case_bool_decide as En; [apply keeps_ret; by constructor|]. apply answers_clean. intros statement Hs.
  eapply keeps_bind; [apply keeps_lift|]. intros n _. apply answers_clean. intros verified Hv.
  eapply keeps_bind; [apply keeps_lift|]. intros u Hu. apply keeps_ret.
  apply require_Ok, andb_true_iff in Hu as [? ?%bool_decide_eq_true]. by constructor.
Qed.

Lemma answers_build observer :
  answers (build_with monotonic elapsed_ms type_name read_text sha256_hex set_order client c sources
             environment limit observer) (λ exact, ∃ extracted roundtrip aliases,
               ExactSpec exact extracted roundtrip aliases).
Proof.
  unfold build_with.
  eapply keeps_bind; [apply keeps_lift|]. intros ? Hext%require_Ok.
  rewrite bool_decide_eq_true in Hext. unfold external_owner_modules in Hext.
  rewrite sorted_set_nil, filter_nil_iff in Hext.
  eapply keeps_bind; [apply answers_compose|]. intros source Hsource.
  eapply keeps_bind; [apply keeps_lift|]. intros bytes _.
  apply answers_clean. intros extracted Hextracted.
  eapply keeps_bind; [apply keeps_lift|]. intros aliases Haliases.
  pose proof (source_closure_reaches set_order Horder (rp_value extracted) aliases
                (ld_name <$> lc_declarations c) (lc_root_declarations c)) as Hclosure.
  unfold closure_outcome in Hclosure.
  eapply keeps_bind; [apply keeps_fueled; by destruct (source_declaration_closure _ _ _ _ _)|].
  intros names Hnames. rewrite Hnames in Hclosure. destruct Hclosure as (Hnd & Hneeded & _).
  eapply keeps_bind; [apply keeps_lift|]. intros roots Hroots%canonical_roots_Ok.
  apply answers_clean. intros roundtrip Hround.
  eapply keeps_bind; [apply keeps_lift|]. intros ? Hpresent. rewrite check_roundtrip_Ok in Hpresent.
  eapply keeps_bind; [apply keeps_lift|]. intros kinds Hkinds.
  eapply keeps_bind; [apply answers_verify_roots|]. intros receipts Hreceipts.
  eapply keeps_bind; [apply keeps_lift|]. intros declarations Hdecls%mapM_Ok.
  eapply keeps_bind; [apply keeps_lift|]. intros digest Hdigest.
  apply keeps_ret. exists extracted, roundtrip, aliases. split; try done.
  - intros s Hs. apply dec_stable, Hext. by apply list_elem_of_fmap_2.
  - by apply NoDup_filter.
  - intros n. cbn [xc_source_declarations]. by rewrite list_elem_of_filter, Hneeded.
  - intros n. cbn [xc_source_declarations]. rewrite <-Hpresent. apply elem_of_normalized_names.
  - intros r d Hr Hd Hk. exists (theorem_names kinds).
    assert (r ∈ theorem_names kinds) as Hin.
    { apply list_elem_of_fmap. exists (r, "theorem"). split; [done|]. apply list_elem_of_filter. split; [done|].
      apply dget_Some_elem. rewrite <-Hk. exact (root_kinds_Ok _ _ _ _ _ Hkinds Hr Hd). }
    split; [done|]. destruct Hreceipts as [E|statement verified ? Hp]; [|by exists statement, verified].
    rewrite E in Hin. by apply not_elem_of_nil in Hin.
  - exists kinds. split; [done|]. by destruct receipts.
  - by apply exact_names in Hdecls.
  - intros d Hd. destruct (Forall2_elem_of_r _ _ _ _ Hdecls Hd) as (n & _ & Hn).
    by apply exact_declaration_Ok in Hn as [_ ?].
Qed.
End promise.

Lemma wp_call_last (f : W → W * result Exn unit) w : wp (call f) (λ _ w', ∃ w0, (f w0).1 = w') w.
Proof. apply wp_call. by exists w. Qed.

(** What [build_exact_axle_closure] promises of its answer and of the last world. *)
Definition exact_outcome (client : option (AxleClient W Float)) c sources environment
    operation_timeout base_timeout (answer : result Exn ExactAxleClosure) (w' : W) : Prop :=
  let active := default (new_client base_timeout) client in
  match answer with
  | Ok exact => (nonpositive operation_timeout = false ∧ nonpositive base_timeout = false) ∧
      ∃ extracted roundtrip aliases,
        ExactSpec active c sources environment operation_timeout exact extracted roundtrip aliases
  | Raise e => True
  end ∧
  (client = None → nonpositive operation_timeout = false → nonpositive base_timeout = false →
   ∃ w0, (close_client active w0).1 = w').
Lemma wp_build_exact client c sources environment operation_timeout base_timeout observer w :
  wp (build_exact_axle_closure monotonic elapsed_ms type_name read_text nonpositive float_str sha256_hex
        set_order new_client client c sources environment operation_timeout base_timeout observer)
    (exact_outcome client c sources environment operation_timeout base_timeout) w.
Proof.
  unfold build_exact_axle_closure, exact_outcome.
  apply wp_bind, wp_lift. destruct (nonpositive operation_timeout), (nonpositive base_timeout); try done.
  cbn [require negb orb]. destruct client as [client|].
  - eapply wp_mono, answers_wp, (answers_build client). intros [exact|e] w'; by split.
  - apply wp_finally. eapply wp_mono, answers_wp, (answers_build (new_client base_timeout)). intros r w' Hr.
    eapply wp_mono, wp_call_last. intros [u|e] w'' Hw; [|by split]. split; [|done]. by destruct r.
Qed.


(** C12. [build_exact_axle_closure] ends, and answers a closure only when its
    source was composed from the sources of the root package alone, AXLE
    extracted it twice without errors, the first extraction has a declaration
    for each that the Lean closure needs, the second has exactly these, and AXLE
    proved, without errors, every root that is a theorem in this very source; its
    declarations are those of the second extraction.  A client that the code
    opened itself is closed last, whatever happened. *)
Theorem exact_closures_are_verified (client : option (AxleClient W Float)) c sources environment
    operation_timeout base_timeout observer w :
  let active := default (new_client base_timeout) client in
  match build_exact_axle_closure monotonic elapsed_ms type_name read_text nonpositive float_str sha256_hex
          set_order new_client client c sources environment operation_timeout base_timeout observer w with
  | None => False
  | Some (w', answer) =>
      match answer with
      | Ok exact => (nonpositive operation_timeout = false ∧ nonpositive base_timeout = false) ∧
          ∃ extracted roundtrip aliases,
            ExactSpec active c sources environment operation_timeout exact extracted roundtrip aliases
      | Raise e => True
      end ∧
      (client = None → nonpositive operation_timeout = false → nonpositive base_timeout = false →
       ∃ w0, (close_client active w0).1 = w')
  end.
Proof.
  intros active.
  pose proof (wp_build_exact client c sources environment operation_timeout base_timeout observer w) as H.
  unfold wp, exact_outcome in H.
  by destruct (build_exact_axle_closure _ _ _ _ _ _ _ _ _ _ _ _ _ _ _ _ w) as [[w' [exact|e]]|].
Qed.
End facts.

(** ** One theorem, extracted and proved *)

Definition sample_range : LeanSourceRange :=
  MkRange (IntZ 1) (IntZ 0) (IntZ 0) (IntZ 1) (IntZ 27) (IntZ 27).
Definition sample_closure : LeanDeclarationClosure :=
  MkLeanClosure "4.31.0" "M" ["M.t"] ["Init"] [] [] ["M"]
    [MkLeanDeclaration "M.t" "theorem" "M" [] (Some sample_range)] LEAN_CLOSURE_SCHEMA_ID.
Definition no_messages : AxleMessages := MkMessages [] [] [].
(** A service that knows one theorem and counts its calls. *)
Definition sample_client (_ : Z) : AxleClient nat Z := MkClient nat Z
  (λ _ _ _ w, (S w, Ok (MkResponse [MkDocument "M.t" "theorem" "theorem M.t" [] [] []] no_messages no_messages)))
  (λ _ _ _ _ w, (S w, Ok (MkResponse (MkStatement "theorem M.t : True := sorry" JNull) no_messages no_messages)))
  (λ _ _ _ _ w, (S w, Ok (MkResponse (MkVerified true [] (JObj []) JNull) no_messages no_messages)))
  (λ w, (S w, Ok tt)).
Definition sample_build : Eff nat ExactAxleClosure :=
  build_exact_axle_closure (λ w, (w, 0)) Z.sub (λ _, "Error") (λ _ w, (w, Ok "theorem M.t : True := trivial"))
    (λ t, bool_decide (t <= 0)) str_of_Z (λ _, "00") id sample_client None sample_closure
    [MkOwnerSource "M" "M.lean" "M.lean" ""] "lean-4.31.0" 10 2 None.

Theorem exact_closures_are_verified_witness : ∃ exact extracted roundtrip aliases,
  sample_build 0%nat = Some (5%nat, Ok exact) ∧
  ExactSpec (λ _ w, (w, Ok "theorem M.t : True := trivial")) (λ _, "00") id (sample_client 2) sample_closure
    [MkOwnerSource "M" "M.lean" "M.lean" ""] "lean-4.31.0" 10 exact extracted roundtrip aliases.
Proof.
  pose proof (exact_closures_are_verified (λ w, (w, 0)) Z.sub (λ _, "Error")
    (λ _ w, (w, Ok "theorem M.t : True := trivial")) (λ t, bool_decide (t <= 0)) str_of_Z (λ _, "00") id
    (λ l _, reflexivity l) sample_client None sample_closure
    [MkOwnerSource "M" "M.lean" "M.lean" ""] "lean-4.31.0" 10 2 None 0%nat) as H. cbv zeta in H.
  fold sample_build in H. destruct (sample_build 0%nat) as [[w' [exact|e]]|] eqn:E;
    [|vm_compute in E; discriminate E..].
  destruct H as [[_ (extracted & roundtrip & aliases & Hs)] _]. exists exact, extracted, roundtrip, aliases.
  split; [|exact Hs]. f_equal. f_equal. vm_compute in E. injection E as <- _. reflexivity.
Defined.
