(* ===== verification/LeanExport.v ===== *)
(** * Exporting closures ([lean_declaration_closure.py], lines 391 to 955)

    (In [src/packages/proofs/python/src/poo_flow_proof/].)  The exporter is a
    program that Lake builds and runs; what it prints is parsed, compared with
    what was asked for, and kept in a cache that is keyed by the request and the
    contents of the files it was made from.  Files are texts at paths;
    directories are not modelled.  The programs that are run change the files
    and the rest of the world; the clock and the observer of phases change only
    the rest. *)

From Stdlib Require Import Ascii.
From stdpp Require Import gmap strings.
From S2P Require Import Prelude PyDict GraphTypes Receipts Text Merkle EvidenceModel SchemeDatum Sort ReceiptGraph Json Refinement LeanClosure SourceText ExactClosure Effects ExactBuild.

(** ** Paths *)

Record Path : Type := MkPath { pt_absolute : bool; pt_parts : list string }.
Definition path_of (text : string) : Path :=
  MkPath (starts_with_char "/" text) (filter (λ part, part ≠ "" ∧ part ≠ ".") (split_on "/" text)).
(** [p / q]. *)
Definition path_join (p q : Path) : Path :=
  if pt_absolute q then q else MkPath (pt_absolute p) (pt_parts p ++ pt_parts q).
Definition path_str (p : Path) : string :=
  let text := (if pt_absolute p then "/" else "") +:+ str_join "/" (pt_parts p) in
  if bool_decide (text = "") then "." else text.
(** [Path] of several parts. *)
Definition path_of_parts (parts : list string) : Path := foldl path_join (MkPath false []) (path_of <$> parts).
(** [name] without its suffix: what stands before the last dot, unless that is
    the first or the last character. *)
Definition stem (name : string) : string :=
  let '(before, found, after) := rpartition_dot name in
  if (found : bool) && negb (bool_decide (before = "")) && negb (bool_decide (after = "")) then before else name.
(** [p.with_suffix(suffix)]. *)
Definition with_suffix (p : Path) (suffix : string) : result Exn Path :=
  match last (pt_parts p) with
  | None => Raise (ValueError "has an empty name")
  | Some name =>
      Ok (MkPath (pt_absolute p) (take (length (pt_parts p) - 1) (pt_parts p) ++ [stem name +:+ suffix]))
  end.

(** ** Requests *)

Record LeanDeclarationClosureRequest : Type := MkRequest {
  rq_root_module : string;
  rq_root_declarations : list string;
  rq_base_imports : list string;
  rq_proof_base_imports : list string
}.
Record CompletedProcess : Type := MkProcess {
  cp_returncode : Z;
  cp_stdout : string;
  cp_stderr : string
}.

(** [subprocess.TimeoutExpired]. *)
Definition is_timeout (e : Exn) : bool :=
  match e with PyError cls _ => bool_decide (cls = "TimeoutExpired") | _ => false end.

(** [json.dumps(v, ensure_ascii=False, separators=(",", ":"))]: members in their order. *)
Fixpoint json_dumps (v : Json) : string :=
  match v with
  | JList l => "[" +:+ str_join "," (map json_dumps l) +:+ "]"
  | JObj d => "{" +:+ str_join "," (map (λ '(k, v), json_quote k +:+ ":" +:+ json_dumps v) d) +:+ "}"
  | v => write_json v
  end.

(** [a.strip() or b.strip() or c]. *)
Definition first_text (a b c : string) : string :=
  if negb (bool_decide (ustrip a = "")) then ustrip a
  else if negb (bool_decide (ustrip b = "")) then ustrip b else c.

Definition EXPORTER : string := ".lake/build/bin/pooFlowDeclarationClosure".
Definition with_imports (base_imports proof_base_imports : list string) : list string :=
  flat_map (λ i, ["--base-import"; i]) (filter (λ i, i ≠ "Init") base_imports)
  ++ flat_map (λ i, ["--proof-base-import"; i]) proof_base_imports.
Definition export_command (request : LeanDeclarationClosureRequest) : list string :=
  ["lake"; "env"; EXPORTER; "--root-module"; rq_root_module request]
  ++ flat_map (λ d, ["--root-declaration"; d]) (rq_root_declarations request)
  ++ with_imports (rq_base_imports request) (rq_proof_base_imports request).
Definition batch_command (first_request : LeanDeclarationClosureRequest)
    (requests : list LeanDeclarationClosureRequest) : list string :=
  ["lake"; "env"; EXPORTER]
  ++ flat_map (λ r, ["--batch-root"; rq_root_module r] ++ take 1 (rq_root_declarations r)) requests
  ++ with_imports (rq_base_imports first_request) (rq_proof_base_imports first_request).

(** What the answer of the exporter is compared with. *)
Definition check_request (request : LeanDeclarationClosureRequest) (c : LeanDeclarationClosure) :
    result Exn unit :=
  let fail code := LeanClosureError code (rq_root_module request) in
  _ ← require (bool_decide (lc_root_module c = rq_root_module request))
        (LeanClosureError "root-module-mismatch" (rq_root_module request +:+ " != " +:+ lc_root_module c));
  _ ← require (bool_decide (lc_root_declarations c = rq_root_declarations request))
        (fail "root-declaration-mismatch");
  _ ← require (bool_decide (lc_base_imports c = "Init" :: filter (λ i, i ≠ "Init") (rq_base_imports request)))
        (fail "base-import-mismatch");
  require (bool_decide (lc_proof_base_imports c = rq_proof_base_imports request))
    (fail "proof-base-import-mismatch").

(** ** The world *)

(** [ew_batch] is the variable [batch_payloads] of the batch being exported;
    [ew_commands] lists the commands that were run. *)
Record ExportWorld (X : Type) : Type := MkExportWorld {
  ew_files : gmap string string;
  ew_rest : X;
  ew_batch : option (list string);
  ew_commands : list (list string)
}.
Arguments MkExportWorld {X}.
Arguments ew_files {X}. Arguments ew_rest {X}. Arguments ew_batch {X}. Arguments ew_commands {X}.

Section export.
Context {X Float : Type}.
(** The programs, the clock, floats and their texts, hashes, the process id. *)
Context (runner : list string → string → option Float → gmap string string * X →
                  (gmap string string * X) * result Exn CompletedProcess).
(** [runner is subprocess.run]. *)
Context (native : bool).
Context (monotonic : X → X * Float) (fadd fsub : Float → Float → Float).
Context (nonpositive : Float → bool) (valid_timeout : Float → bool) (elapsed_ms : Float → Float → Z).
Context (float_repr : Float → string) (float_g : Float → string).
Context (json_float : string → string).
Context (sha256 sha256_hex : string → string) (pid : Z).
Context (observer : option (Json → X → X * result Exn unit)).

Notation World := (ExportWorld X).
Notation E := (Eff World).

Definition now : E Float := λ w,
  let '(x, t) := monotonic (ew_rest w) in Some (MkExportWorld (ew_files w) x (ew_batch w) (ew_commands w), Ok t).
Definition observe (event : Json) : E unit := λ w,
  match observer with
  | None => Some (w, Ok tt)
  | Some observe =>
      let '(x, r) := observe event (ew_rest w) in
      Some (MkExportWorld (ew_files w) x (ew_batch w) (ew_commands w), r)
  end.
Definition run (command : list string) (cwd : string) (timeout : option Float) : E CompletedProcess := λ w,
  let '((files, x), r) := runner command cwd timeout (ew_files w, ew_rest w) in
  Some (MkExportWorld files x (ew_batch w) (ew_commands w ++ [command]), r).
Definition is_file (p : Path) : E bool := λ w, Some (w, Ok (bool_decide (is_Some (ew_files w !! path_str p)))).
Definition read_bytes (p : Path) : E string := λ w,
  Some (w, of_option (PyError "FileNotFoundError" (path_str p)) (ew_files w !! path_str p)).
Definition update_files (f : gmap string string → gmap string string) : E unit := λ w,
  Some (MkExportWorld (f (ew_files w)) (ew_rest w) (ew_batch w) (ew_commands w), Ok tt).
Definition get_batch : E (option (list string)) := λ w, Some (w, Ok (ew_batch w)).
Definition set_batch (batch : option (list string)) : E unit := λ w,
  Some (MkExportWorld (ew_files w) (ew_rest w) batch (ew_commands w), Ok tt).

(** [_artifact_digest]; the chunks of the stream make up its content. *)
Definition artifact_digest (p : Path) : E (string * Z) :=
  content ← read_bytes p; ret (sha256 content, Z.of_nat (String.length content)).

(** [_observe_export_phase]. *)
Definition observe_export_phase (phase : string) (started : Float) (fields : list (string * Json)) : E unit :=
  match observer with
  | None => ret tt
  | Some _ =>
      t ← now;
      observe (JObj ([("elapsed_ms", JInt (elapsed_ms started t)); ("phase", JStr phase);
                      ("schema_id", JStr "poo-flow.lean-export-driver-phase.v1");
                      ("state", JStr "completed")] ++ fields))
  end.

(** [_observe_native_export_phases]. *)
Definition is_native_phase (v : Json) : bool :=
  match v with
  | JObj d => bool_decide (dget "schema_id" d = Some (JStr "poo-flow.lean-export-phase.v1"))
  | _ => false
  end.
Definition observe_native_line (line : string) : E unit :=
  value ← fueled (answer ← json_loads json_float default_hook line; Some (Ok (res_to_option answer)));
  match value with
  | Some v => if is_native_phase v then observe v else ret tt
  | None => ret tt
  end.
Definition observe_native_export_phases (stderr : string) : E unit :=
  match observer with
  | None => ret tt
  | Some _ => _ ← each observe_native_line (splitlines stderr); ret tt
  end.

(** ** One export *)

Definition timeout_error (detail : string) (timeout_seconds : Float) : Exn :=
  LeanClosureError "lean-declaration-closure-export-timeout"
    (detail +:+ "; budget_seconds=" +:+ float_g timeout_seconds).
(** [except subprocess.TimeoutExpired]. *)
Definition expired (error : Exn) {A} (m : E A) : E A :=
  except m (λ e, if is_timeout e then raise error else raise e).
Definition require_timeout (timeout_seconds : Float) : E unit :=
  lift (require (valid_timeout timeout_seconds)
    (LeanClosureError "invalid-lean-export-timeout"
       ("expected a positive finite number; actual=" +:+ float_repr timeout_seconds))).

(** [run_export_phase]. *)
Definition run_export_phase (lean_root : Path) (root_module : string) (timeout_seconds deadline : Float)
    (command : list string) (phase : string) : E CompletedProcess :=
  let error := timeout_error ("phase=" +:+ phase +:+ "; root_module=" +:+ root_module) timeout_seconds in
  t ← now;
  let remaining_seconds := fsub deadline t in
  _ ← lift (require (negb (nonpositive remaining_seconds)) error);
  expired error (
    started ← now;
    result ← run command (path_str lean_root) (Some remaining_seconds);
    _ ← observe_export_phase phase started [("returncode", JInt (cp_returncode result))];
    ret result).

(** The key of a request, given the digests of its artifacts. *)
Definition cache_request (request : LeanDeclarationClosureRequest) : Json :=
  JObj [("base_imports", texts (rq_base_imports request));
        ("proof_base_imports", texts (rq_proof_base_imports request));
        ("root_declarations", texts (rq_root_declarations request));
        ("root_module", JStr (rq_root_module request));
        ("schema_id", JStr "poo-flow.lean-declaration-closure-cache.v2")].
Definition cache_key (request_bytes root_olean_digest exporter_digest : string) : string :=
  sha256_hex (request_bytes +:+ root_olean_digest +:+ exporter_digest).
Definition cache_path (lean_root : Path) (key : string) : Path :=
  path_join lean_root
    (MkPath false [".lake"; "build"; "poo-flow"; "declaration-closure-cache"; key +:+ ".json"]).
Definition root_olean_path (lean_root : Path) (root_module : string) : result Exn Path :=
  relative ← with_suffix (path_of_parts (split_on "." root_module)) ".olean";
  Ok (path_join (path_join lean_root (path_of ".lake/build/lib/lean")) relative).
Definition exporter_path (lean_root : Path) : Path := path_join lean_root (path_of EXPORTER).

(** [cache_path] and what it holds. *)
Definition cache_lookup (lean_root : Path) (request : LeanDeclarationClosureRequest)
    (given_digest : option string) : E (option Path * option string) :=
  if native then
    root_olean ← lift (root_olean_path lean_root (rq_root_module request));
    has_olean ← is_file root_olean;
    has_exporter ← is_file (exporter_path lean_root);
    if has_olean && has_exporter then
      cache_hash_started ← now;
      request_bytes ← lift (canonical_json (cache_request request));
      root_artifact ← artifact_digest root_olean;
      exporter_artifact ← match given_digest with
                          | Some digest => ret (digest, 0)
                          | None => artifact_digest (exporter_path lean_root)
                          end;
      _ ← observe_export_phase "artifact-hash" cache_hash_started
            [("artifact_bytes", JInt (root_artifact.2 + exporter_artifact.2));
             ("exporter_digest_reused", JBool (bool_decide (is_Some given_digest)))];
      let path := cache_path lean_root (cache_key request_bytes root_artifact.1 exporter_artifact.1) in
      cache_read_started ← now;
      hit ← is_file path;
      if hit : bool then
        bytes ← read_bytes path;
        text ← lift (decode_utf8 bytes);
        _ ← observe_export_phase "closure-cache-read" cache_read_started [("cache_state", JStr "hit")];
        ret (Some path, Some text)
      else
        _ ← observe_export_phase "closure-cache-read" cache_read_started [("cache_state", JStr "miss")];
        ret (Some path, None)
    else ret (None, None)
  else ret (None, None).

(** The file is written beside its place and then moved there; a text that has
    no encoding leaves an empty file behind. *)
Definition cache_write (path : Path) (exported_json : string) : E unit :=
  temporary ← lift (with_suffix path (".tmp." +:+ str_of_Z pid));
  _ ← update_files (<[path_str temporary := ""]>);
  bytes ← lift (encode_utf8 exported_json);
  update_files (λ files, <[path_str path := bytes]> (delete (path_str temporary) files)).

Definition export_declaration_closure (lean_root : Path) (request : LeanDeclarationClosureRequest)
    (timeout_seconds : Float) (build_prepared : bool) (given_digest : option string)
    (exported_json_provider : option (E string)) : E LeanDeclarationClosure :=
  let root_module := rq_root_module request in
  _ ← lift (require (negb (bool_decide (rq_root_declarations request = [])))
              (LeanClosureError "missing-root-declaration" root_module));
  _ ← require_timeout timeout_seconds;
  t ← now;
  let deadline := fadd t timeout_seconds in
  let run_phase := run_export_phase lean_root root_module timeout_seconds deadline in
  _ ← (if build_prepared then
         lift (require (negb (bool_decide (given_digest = None) && native))
           (LeanClosureError "lean-export-generation-invalid" "prepared build requires exporter digest"))
       else
         build ← run_phase ["lake"; "build"; root_module; "pooFlowDeclarationClosure"] "lake-build";
         lift (require (cp_returncode build =? 0)
           (LeanClosureError "lake-build-failed" (first_text (cp_stderr build) (cp_stdout build) root_module))));
  cache ← cache_lookup lean_root request given_digest;
  exported_json ← match cache.2, exported_json_provider with
                  | Some text, _ => ret text
                  | None, Some provider => provider
                  | None, None =>
                      exported ← run_phase (export_command request) "lean-export";
                      _ ← lift (require (cp_returncode exported =? 0)
                        (LeanClosureError "lean-export-failed"
                           (first_text (cp_stderr exported) (cp_stdout exported) root_module)));
                      _ ← observe_native_export_phases (cp_stderr exported);
                      ret (cp_stdout exported)
                  end;
  parse_started ← now;
  closure ← fueled (closure_from_json json_float exported_json);
  _ ← observe_export_phase "closure-parse" parse_started
        [("declaration_count", JInt (Z.of_nat (length (lc_declarations closure))));
         ("proof_base_declaration_count", JInt (Z.of_nat (length (lc_proof_base_interface closure))))];
  _ ← lift (check_request request closure);
  _ ← match cache with
      | (Some path, None) => cache_write path exported_json
      | _ => ret tt
      end;
  ret closure.

(** ** Several exports after one build *)

(** Can one run of the exporter answer all requests? *)
Definition batch_compatible (first_request : LeanDeclarationClosureRequest)
    (requests : list LeanDeclarationClosureRequest) : bool :=
  forallb (λ r, bool_decide (rq_base_imports r = rq_base_imports first_request)
                && bool_decide (rq_proof_base_imports r = rq_proof_base_imports first_request)
                && (length (rq_root_declarations r) =? 1)%nat) requests.

Definition batch_error (detail : string) : Exn := LeanClosureError "invalid-lean-export-batch" detail.
Definition is_object (v : Json) : bool := match v with JObj _ => true | _ => false end.
(** The closures in what the exporter printed. *)
Definition batch_payloads (count : nat) (stdout : string) : option (result Exn (list string)) :=
  answer ← json_loads json_float default_hook stdout;
  Some (match answer with
        | Raise _ => Raise (batch_error "")
        | Ok (JList items) =>
            _ ← require (length items =? count)%nat
                  (batch_error ("expected " +:+ str_of_Z (Z.of_nat count) +:+ " closures"));
            _ ← require (forallb is_object items) (batch_error "expected closure objects");
            Ok (json_dumps <$> items)
        | Ok _ => Raise (batch_error ("expected " +:+ str_of_Z (Z.of_nat count) +:+ " closures"))
        end).

(** [native_batch_payloads]. *)
Definition native_batch_payloads (lean_root : Path) (root_modules : list string)
    (timeout_seconds deadline : Float) (first_request : LeanDeclarationClosureRequest)
    (requests : list LeanDeclarationClosureRequest) : E (list string) :=
  known ← get_batch;
  match known with
  | Some payloads => ret payloads
  | None =>
      t ← now;
      let remaining_seconds := fsub deadline t in
      export ← expired (timeout_error "phase=generation-lean-export" timeout_seconds) (
        export_started ← now;
        exported ← run (batch_command first_request requests) (path_str lean_root) (Some remaining_seconds);
        ret (export_started, exported));
      let '(export_started, exported) := export in
      _ ← observe_export_phase "generation-lean-export" export_started
            [("returncode", JInt (cp_returncode exported));
             ("root_count", JInt (Z.of_nat (length requests)))];
      _ ← lift (require (cp_returncode exported =? 0)
            (LeanClosureError "lean-export-failed"
               (first_text (cp_stderr exported) (cp_stdout exported) (str_join "," root_modules))));
      _ ← observe_native_export_phases (cp_stderr exported);
      payloads ← fueled (batch_payloads (length requests) (cp_stdout exported));
      _ ← set_batch (Some payloads);
      ret payloads
  end.

(** The build that comes before the exports. *)
Definition generation_build (lean_root : Path) (root_modules : list string)
    (timeout_seconds deadline : Float) : E unit :=
  t ← now;
  let remaining_seconds := fsub deadline t in
  build ← expired (timeout_error "phase=generation-lake-build" timeout_seconds) (
    build_started ← now;
    build ← run (["lake"; "build"] ++ root_modules ++ ["pooFlowDeclarationClosure"])
              (path_str lean_root) (Some remaining_seconds);
    ret (build_started, build));
  let '(build_started, build) := build in
  _ ← observe_export_phase "generation-lake-build" build_started
        [("returncode", JInt (cp_returncode build)); ("root_count", JInt (Z.of_nat (length root_modules)))];
  lift (require (cp_returncode build =? 0)
    (LeanClosureError "lake-build-failed"
       (first_text (cp_stderr build) (cp_stdout build) (str_join "," root_modules)))).

(** [exporter_digest]. *)
Definition generation_exporter (lean_root : Path) : E (option string) :=
  if native then
    has_exporter ← is_file (exporter_path lean_root);
    _ ← lift (require has_exporter
          (LeanClosureError "lean-exporter-artifact-missing" (path_str (exporter_path lean_root))));
    hash_started ← now;
    artifact ← artifact_digest (exporter_path lean_root);
    _ ← observe_export_phase "generation-exporter-hash" hash_started [("artifact_bytes", JInt artifact.2)];
    ret (Some artifact.1)
  else ret None.

(** The body of the loop over the requests, which [index] counts. *)
Definition export_request (lean_root : Path) (timeout_seconds deadline : Float) (exporter_digest : option string)
    (provider : option (nat → E string)) (indexed : nat * LeanDeclarationClosureRequest) :
    E LeanDeclarationClosure :=
  let '(index, request) := indexed in
  t ← now;
  let remaining_seconds := fsub deadline t in
  _ ← lift (require (negb (nonpositive remaining_seconds))
        (timeout_error ("phase=generation-export; root_module=" +:+ rq_root_module request) timeout_seconds));
  export_declaration_closure lean_root request remaining_seconds true exporter_digest
    ((λ p, p index) <$> provider).

Definition export_declaration_closures (lean_root : Path) (requests : list LeanDeclarationClosureRequest)
    (timeout_seconds : Float) : E (list LeanDeclarationClosure) :=
  match requests with
  | [] => raise (LeanClosureError "missing-lean-export-request" (path_str lean_root))
  | first_request :: _ =>
      _ ← require_timeout timeout_seconds;
      _ ← lift (foldM (λ _ r, require (negb (bool_decide (rq_root_declarations r = [])))
                                (LeanClosureError "missing-root-declaration" (rq_root_module r))) () requests);
      t ← now;
      let deadline := fadd t timeout_seconds in
      let root_modules := from_keys (rq_root_module <$> requests) in
      _ ← generation_build lean_root root_modules timeout_seconds deadline;
      exporter_digest ← generation_exporter lean_root;
      _ ← set_batch None;
      let provider index :=
        payloads ← native_batch_payloads lean_root root_modules timeout_seconds deadline first_request requests;
        lift (of_option (PyError "IndexError" "list index out of range") (payloads !! index)) in
      each (export_request lean_root timeout_seconds deadline exporter_digest
              (if batch_compatible first_request requests then Some provider else None))
        (zip (seq 0 (length requests)) requests)
  end.

(** ** The sources of the owner modules *)

(** [Path.resolve] and [Path.is_dir]: symbolic links and directories, which
    nothing here changes. *)
Context (resolve : Path → Path) (is_dir : Path → bool).

(** The path without its last parts, if these are [marker]. *)
Definition strip_parts (marker : list string) (entry : Path) : option Path :=
  let n := (length (pt_parts entry) - length marker)%nat in
  if (length marker <=? length (pt_parts entry))%nat && bool_decide (drop n (pt_parts entry) = marker)
  then Some (MkPath (pt_absolute entry) (take n (pt_parts entry))) else None.
#[export] Instance path_eq_dec : EqDecision Path.
Proof. solve_decision. Defined.
Definition source_roots (lean_root : Path) (lean_path : string) : list Path :=
  let entries := (λ raw, resolve (path_of raw)) <$> filter (λ raw, raw ≠ "") (split_on ":" lean_path) in
  let packages := omap (strip_parts [".lake"; "build"; "lib"; "lean"]) entries in
  let toolchains := (λ p, path_join p (path_of "src/lean")) <$> omap (strip_parts ["lib"; "lean"]) entries in
  dkeys (dict_of ((λ p, (p, ())) <$>
    (resolve lean_root :: packages ++ (resolve <$> filter (λ p, is_dir p = true) toolchains)))).

(** [path.relative_to(root).as_posix()]. *)
Definition relative_to (path root : Path) : option string :=
  if bool_decide (pt_absolute path = pt_absolute root)
     && bool_decide (take (length (pt_parts root)) (pt_parts path) = pt_parts root)
  then Some (path_str (MkPath false (drop (length (pt_parts root)) (pt_parts path)))) else None.

(** The body of the loop over the modules. *)
Definition owner_source (lean_root : Path) (roots : list Path) (module : string) : E LeanOwnerSource :=
  relative ← lift (with_suffix (path_of_parts (split_on "." module)) ".lean");
  found ← each (λ root, let candidate := resolve (path_join root relative) in
                        present ← is_file candidate; ret (if present : bool then [candidate] else [])) roots;
  match concat found with
  | [path] =>
      content ← read_bytes path;
      ret (MkOwnerSource module (path_str path)
             (default (module +:+ ":" +:+ path_str path) (relative_to path lean_root))
             (sha256_digest sha256_hex content))
  | matches =>
      raise (LeanClosureError "owner-source-resolution-failed"
               (module +:+ ": matches=" +:+ str_of_Z (Z.of_nat (length matches))))
  end.
Definition resolve_owner_sources (c : LeanDeclarationClosure) (lean_root : Path) : E (list LeanOwnerSource) :=
  receipt ← run ["lake"; "env"; "printenv"; "LEAN_PATH"] (path_str lean_root) None;
  _ ← lift (require (cp_returncode receipt =? 0)
        (LeanClosureError "lean-path-failed" (first_text (cp_stderr receipt) "" (path_str lean_root))));
  let lean_root := resolve lean_root in
  let roots := source_roots lean_root (ustrip (cp_stdout receipt)) in
  modules ← fueled (owner_modules_in_dependency_order c);
  each (owner_source lean_root roots) modules.
End export.
