(* ===== verification/LeanExportFacts.v ===== *)
(** * Exports answer what was asked, and the cache holds only such answers *)

From Stdlib Require Import Ascii.
From stdpp Require Import gmap strings.
From S2P Require Import Prelude PyDict GraphTypes Receipts Text SchemeDatum Merkle EvidenceModel Sort ReceiptGraph ReceiptGraphFacts ReceiptGraphTheorems Json JsonFacts Refinement LeanClosure LeanClosureFacts LeanOwnerOrder SourceText SourceTextFacts ExactClosure ExactClosureFacts Effects ExactBuild ExactBuildFacts LeanExport.

(** ** Requests *)

Record Requested (request : LeanDeclarationClosureRequest) (c : LeanDeclarationClosure) : Prop := {
  rd_root_module : lc_root_module c = rq_root_module request;
  rd_roots : lc_root_declarations c = rq_root_declarations request;
  rd_base : lc_base_imports c = "Init" :: filter (λ i, i ≠ "Init") (rq_base_imports request);
  rd_proof_base : lc_proof_base_imports c = rq_proof_base_imports request
}.
Lemma check_request_Ok request c u : check_request request c = Ok u ↔ Requested request c.
Proof.
  unfold check_request. rewrite !guard_Ok, require_Ok, !bool_decide_eq_true. split.
  - by intros (? & ? & ? & ?).
  - by intros [? ? ? ?].
Qed.

Lemma closure_from_json_total json_float s : is_Some (closure_from_json json_float s).
Proof.
  unfold closure_from_json. destruct (json_loads _ _ _) as [r|] eqn:E; [by eexists|].
  by apply json_loads_total in E.
Qed.
Lemma closure_from_json_spec json_float s c : closure_from_json json_float s = Some (Ok c) →
  LeanClosureSpec c ∧ LeanClosureFields c.
Proof.
  unfold closure_from_json. destruct (json_loads _ _ _) as [[v|e]|]; cbn [mbind option_bind]; [|done..].
  intros [= H]. by apply closure_from_mapping_Ok in H as (? & ? & _).
Qed.

(** The text of a request in the key determines it. *)
Lemma cache_request_inj r1 r2 b : canonical_json (cache_request r1) = Ok b →
  canonical_json (cache_request r2) = Ok b → r1 = r2.
Proof.
  assert (∀ r, json_loads id default_hook (write_json (cache_request r)) = Some (Ok (cache_request r))) as Hc.
  { intros r. apply json_loads_write; [apply default_hook_Ok|]. unfold cache_request, texts.
    canonical_object; auto with json. }
  unfold canonical_json, encode_utf8. intros H1 H2.
  apply guard_Ok in H1 as [_ H1], H2 as [_ H2].
  assert (write_json (cache_request r1) = write_json (cache_request r2)) as E by congruence.
  pose proof (Hc r1) as E1. pose proof (Hc r2) as E2. rewrite <-E, E1 in E2.
  unfold cache_request, texts in E2. injection E2 as Hb Hp Hr Hm. destruct r1, r2. cbn in Hb, Hp, Hr, Hm.
  assert (Inj (=) (=) JStr) as Hinj by (intros x y [= ->]; done).
  apply (list_fmap_eq_inj JStr Hinj) in Hb, Hp, Hr. by subst.
Qed.

(** ** Paths of the cache *)

Definition cache_directory (lean_root : Path) : string :=
  (if pt_absolute lean_root then "/" else "") +:+
  str_join "/" (pt_parts lean_root ++ [".lake"; "build"; "poo-flow"; "declaration-closure-cache"]) +:+ "/".

Lemma str_join_cons sep x l : l ≠ [] → str_join sep (x :: l) = x +:+ sep +:+ str_join sep l.
Proof. by destruct l. Qed.
Lemma str_join_snoc sep l x : l ≠ [] → str_join sep (l ++ [x]) = str_join sep l +:+ sep +:+ x.
Proof.
  induction l as [|y l IH]; [done|]. intros _. destruct (decide (l = [])) as [->|Hl]; [done|].
  rewrite <-app_comm_cons, !str_join_cons by (by destruct l). by rewrite IH, !sapp_assoc.
Qed.
Lemma path_str_in_cache lean_root name :
  path_str (path_join lean_root
    (MkPath false [".lake"; "build"; "poo-flow"; "declaration-closure-cache"; name])) =
  cache_directory lean_root +:+ name.
Proof.
  unfold path_str, path_join, cache_directory. cbn [pt_absolute pt_parts].
  change [".lake"; "build"; "poo-flow"; "declaration-closure-cache"; name] with
    ([".lake"; "build"; "poo-flow"; "declaration-closure-cache"] ++ [name]).
  rewrite app_assoc, str_join_snoc by (by destruct (pt_parts lean_root)).
  rewrite !sapp_assoc. case_bool_decide as H; [|done]. exfalso. apply (f_equal String.length) in H.
  rewrite !slen_app in H. cbn in H. lia.
Qed.
Lemma cache_path_str lean_root key : path_str (cache_path lean_root key) = cache_directory lean_root +:+ key +:+ ".json".
Proof. apply path_str_in_cache. Qed.
Lemma cache_path_inj lean_root k1 k2 :
  path_str (cache_path lean_root k1) = path_str (cache_path lean_root k2) → k1 = k2.
Proof. rewrite !cache_path_str. intros H%sapp_inj_l. by apply sapp_inj_r in H. Qed.

(** The last character of a number is a digit, that of a file in the cache is not. *)
Lemma ascii_list_app s t : String.list_ascii_of_string (s +:+ t) =
  String.list_ascii_of_string s ++ String.list_ascii_of_string t.
Proof. induction s as [|c s IH]; [done|]. rewrite sapp_cons. cbn. by rewrite IH. Qed.
Lemma temporary_path pid lean_root key p : 0 <= pid →
  with_suffix (cache_path lean_root key) (".tmp." +:+ str_of_Z pid) = Ok p →
  ∀ key', path_str p ≠ path_str (cache_path lean_root key').
Proof.
  intros Hpid H key'. unfold with_suffix, cache_path, path_join in H. cbn [pt_absolute pt_parts] in H.
  change [".lake"; "build"; "poo-flow"; "declaration-closure-cache"; key +:+ ".json"] with
    ([".lake"; "build"; "poo-flow"; "declaration-closure-cache"] ++ [key +:+ ".json"]) in H.
  rewrite app_assoc, last_snoc in H. injection H as <-.
  rewrite length_app, Nat.add_sub, take_app_length, <-app_assoc.
  change (MkPath (pt_absolute lean_root) (pt_parts lean_root ++ ?l)) with
    (path_join lean_root (MkPath false l)). cbn [app].
  rewrite path_str_in_cache, cache_path_str. intros H%sapp_inj_l.
  apply (f_equal (last ∘ String.list_ascii_of_string)) in H. unfold compose in H.
  rewrite !ascii_list_app, !last_app in H. cbn in H.
  assert (sforall is_digit (str_of_Z pid) = true) as Hd.
  { apply str_of_Z_forall; [|done]. intros n. destruct n as [|m]; [done|].
    do 4 (destruct m as [m|m|]; try done). }
  assert (String.list_ascii_of_string (str_of_Z pid) ≠ []) as Hne.
  { destruct (str_of_Z_head pid) as (c & t & -> & _). done. }
  destruct (last (String.list_ascii_of_string (str_of_Z pid))) as [c|] eqn:E; [|by apply last_None in E].
  injection H as ->. assert ("n"%char ∈ String.list_ascii_of_string (str_of_Z pid)) as Hin
    by by apply last_Some_elem_of.
  by pose proof (elem_of_sforall _ _ _ Hd Hin).
Qed.

(** ** What an export keeps *)

Section facts.
Context {X Float : Type}.
Context (runner : list string → string → option Float → gmap string string * X →
                  (gmap string string * X) * result Exn CompletedProcess).
Context (native : bool).
Context (monotonic : X → X * Float) (fadd fsub : Float → Float → Float).
Context (nonpositive : Float → bool) (valid_timeout : Float → bool) (elapsed_ms : Float → Float → Z).
Context (float_repr float_g : Float → string) (json_float : string → string).
Context (sha256 sha256_hex : string → string) (pid : Z).
Context (observer : option (Json → X → X * result Exn unit)).
Context (lean_root : Path).

(** A property of the files that the programs keep. *)
Context (I : gmap string string → Prop).
Context (Hrunner : ∀ command cwd timeout files x, I files → I (runner command cwd timeout (files, x)).1.1).
Notation World := (ExportWorld X).
Notation holds := (λ w : World, I (ew_files w)).
Notation keep := (keeps holds).
Notation observe_phase := (observe_export_phase monotonic elapsed_ms observer).

Lemma keeps_now : keep (now monotonic) (λ _, True).
Proof. intros w Hw. unfold wp, now. by destruct (monotonic _). Qed.
Lemma keeps_observe event : keep (observe observer event) (λ _, True).
Proof.
  intros w Hw. unfold wp, observe. destruct observer as [f|]; [|done]. destruct (f event _) as [x [u|e]]; done.
Qed.
Lemma keeps_run command cwd timeout : keep (run runner command cwd timeout) (λ _, True).
Proof.
  intros w Hw. unfold wp, run. pose proof (Hrunner command cwd timeout _ (ew_rest w) Hw) as H.
  destruct (runner _ _ _ _) as [[files x] r]. cbn in *. by destruct r.
Qed.
Lemma keeps_is_file p : keep (is_file p) (λ _, True).
Proof. by intros w Hw. Qed.
Lemma keeps_read_bytes p : keep (read_bytes p) (λ _, True).
Proof. intros w Hw. unfold wp, read_bytes. split; [done|]. by destruct (of_option _ _). Qed.
Lemma keeps_artifact p : keep (artifact_digest sha256 p) (λ a, ∃ s, a.1 = sha256 s).
Proof. eapply keeps_bind; [apply keeps_read_bytes|]. intros s _. apply keeps_ret. by exists s. Qed.
Lemma keeps_observe_phase phase started fields : keep (observe_phase phase started fields) (λ _, True).
Proof.
  unfold observe_export_phase. destruct observer eqn:E; [|by apply keeps_ret].
  eapply keeps_bind; [apply keeps_now|]. intros t _. rewrite <-E. apply keeps_observe.
Qed.
Lemma keeps_native_phases stderr : keep (observe_native_export_phases json_float observer stderr) (λ _, True).
Proof.
  unfold observe_native_export_phases. destruct observer eqn:E; [|by apply keeps_ret].
  rewrite <-E. eapply keeps_bind; [|intros; by apply keeps_ret].
  apply (keeps_each _ _ (λ _ _, True)). intros line _. eapply keeps_bind.
  - apply keeps_fueled. destruct (json_loads _ _ _) as [r|] eqn:El; [by eexists|]. by apply json_loads_total in El.
  - intros [v|] _; [|by apply keeps_ret]. case_match; [apply keeps_observe|by apply keeps_ret].
Qed.
Lemma keeps_expired {A} error (m : Eff World A) P : keep m P → keep (expired error m) P.
Proof. intros Hm. apply keeps_except; [done|]. intros e. case_match; apply keeps_raise. Qed.
Lemma keeps_require b (e : Exn) : keep (lift (require b e)) (λ _, b = true).
Proof. eapply keeps_mono; [apply keeps_lift|]. by intros u ->%require_Ok. Qed.

Create HintDb keeps.
Hint Resolve keeps_now keeps_observe keeps_run keeps_is_file keeps_read_bytes keeps_artifact
  keeps_observe_phase keeps_native_phases : keeps.
(** The next command of a computation; what it answers does not matter. *)
Ltac step := first
  [ eapply keeps_bind; [solve [eauto with keeps | apply keeps_require | apply keeps_lift]|intros ? _]
  | apply keeps_ret; done ].

Lemma keeps_run_phase root_module timeout deadline command phase :
  keep (run_export_phase runner monotonic fsub nonpositive elapsed_ms float_g observer lean_root root_module
          timeout deadline command phase) (λ _, True).
Proof. unfold run_export_phase. do 2 step. apply keeps_expired. repeat step. Qed.
Hint Resolve keeps_run_phase : keeps.

(** The place in the cache is that of the key of the request. *)
Definition cache_place (request : LeanDeclarationClosureRequest) (p : Path) : Prop :=
  ∃ b root_olean exporter, canonical_json (cache_request request) = Ok b ∧
    p = cache_path lean_root (cache_key sha256_hex b (sha256 root_olean) (sha256 exporter)).
Definition digest_ok (digest : option string) : Prop := ∀ d, digest = Some d → ∃ s, d = sha256 s.
Notation lookup := (cache_lookup native monotonic elapsed_ms sha256 sha256_hex observer lean_root).

Lemma keeps_lookup request digest : digest_ok digest →
  keep (lookup request digest) (λ found, ∀ p, found.1 = Some p → cache_place request p).
Proof.
  intros Hd. unfold cache_lookup. destruct native; [|by apply keeps_ret].
  do 3 step. case_match; [|by apply keeps_ret]. step.
  eapply keeps_bind; [apply keeps_lift|]. intros b Hb.
  eapply keeps_bind; [apply keeps_artifact|]. intros [rd n] [s Hs]. cbn in Hs.
  eapply (keeps_bind _ _ _ (λ a, ∃ t, a.1 = sha256 t)).
  { destruct digest as [d|]; [apply keeps_ret; by apply Hd|apply keeps_artifact]. }
  intros [ed k] [t Ht]. cbn in Ht. do 3 step.
  assert (cache_place request (cache_path lean_root (cache_key sha256_hex b rd ed))) as Hp.
  { exists b, s, t. by rewrite Hs, Ht. }
  case_match; repeat (step || (apply keeps_ret; intros p [= <-]; done)).
Qed.

(** Keeping a checked answer in the cache. *)
Definition checked (request : LeanDeclarationClosureRequest) (text : string) : Prop :=
  ∃ c, closure_from_json json_float text = Some (Ok c) ∧ Requested request c.
Context (Hwrite : ∀ request p text temporary files, cache_place request p → checked request text →
  with_suffix p (".tmp." +:+ str_of_Z pid) = Ok temporary → I files →
  I (<[path_str temporary := ""]> files) ∧
  (utf8_valid text = true →
   I (<[path_str p := text]> (delete (path_str temporary) (<[path_str temporary := ""]> files))))).

Lemma keeps_write request p text : cache_place request p → checked request text →
  keep (cache_write pid p text) (λ _, True).
Proof.
  intros Hp Ht w Hw. unfold cache_write. apply wp_bind, wp_lift.
  destruct (with_suffix p _) as [temporary|e] eqn:Es; [|by split].
  destruct (Hwrite request p text temporary (ew_files w) Hp Ht Es Hw) as [H1 H2].
  apply wp_bind. unfold wp at 1, update_files at 1. cbn beta iota.
  apply wp_bind, wp_lift. unfold encode_utf8. destruct (utf8_valid text); cbn [require mbind result_bind]; [|by split].
  unfold wp, update_files. cbn [ew_files]. split; [by apply H2|done].
Qed.

Notation export := (export_declaration_closure runner native monotonic fadd fsub nonpositive valid_timeout
  elapsed_ms float_repr float_g json_float sha256 sha256_hex pid observer lean_root).

(** What an export answers is what was asked. *)
Lemma keeps_export request timeout prepared digest provider : digest_ok digest →
  (∀ p, provider = Some p → keep p (λ _, True)) →
  keep (export request timeout prepared digest provider) (λ c, Requested request c ∧ LeanClosureSpec c ∧ LeanClosureFields c).
Proof.
  intros Hd Hp. unfold export_declaration_closure, require_timeout. do 3 step.
  eapply (keeps_bind _ _ _ (λ _, True)).
  { destruct prepared; [eapply keeps_mono; [apply keeps_require|done]|]. step.
    eapply keeps_mono; [apply keeps_require|done]. }
  intros _ _. eapply keeps_bind; [by apply keeps_lookup|]. intros cache Hcache.
  eapply (keeps_bind _ _ _ (λ _, True)).
  { destruct (cache.2) as [text|]; [by apply keeps_ret|]. destruct provider as [p|]; [by apply Hp|]. repeat step. }
  intros text _. step. eapply keeps_bind; [apply keeps_fueled, closure_from_json_total|]. intros c Hc. step.
  eapply keeps_bind; [apply keeps_lift|]. intros u Hr%check_request_Ok.
  eapply (keeps_bind _ _ _ (λ _, True)).
  { destruct cache as [[p|] [known|]]; try by apply keeps_ret. eapply keeps_write; [by apply Hcache|]. by exists c. }
  intros _ _. apply keeps_ret. split; [done|]. exact (closure_from_json_spec _ _ _ Hc).
Qed.

Notation exports := (export_declaration_closures runner native monotonic fadd fsub nonpositive valid_timeout
  elapsed_ms float_repr float_g json_float sha256 sha256_hex pid observer lean_root).

Lemma keeps_get_batch : keep get_batch (λ _, True).
Proof. by intros w Hw. Qed.
Lemma keeps_set_batch b : keep (set_batch b) (λ _, True).
Proof. by intros w Hw. Qed.
Hint Resolve keeps_get_batch keeps_set_batch : keeps.

Lemma batch_payloads_total n stdout : is_Some (batch_payloads json_float n stdout).
Proof.
  unfold batch_payloads. destruct (json_loads _ _ _) as [r|] eqn:E; [by eexists|]. by apply json_loads_total in E.
Qed.
Lemma keeps_batch root_modules timeout deadline first requests :
  keep (native_batch_payloads runner monotonic fsub elapsed_ms float_g json_float observer lean_root
          root_modules timeout deadline first requests) (λ _, True).
Proof.
  unfold native_batch_payloads. step. case_match; [by apply keeps_ret|]. step.
  eapply (keeps_bind _ _ _ (λ _, True)); [apply keeps_expired; repeat step|]. intros [t exported] _. cbv beta iota. do 3 step.
  eapply keeps_bind; [apply keeps_fueled, batch_payloads_total|]. intros payloads _. repeat step.
Qed.

Lemma keeps_exports requests timeout :
  keep (exports requests timeout) (Forall2 (λ r c, Requested r c ∧ LeanClosureSpec c ∧ LeanClosureFields c) requests).
Proof.
  unfold export_declaration_closures. destruct requests as [|first requests]; [apply keeps_raise|].
  unfold require_timeout. do 3 step. unfold generation_build.
  eapply (keeps_bind _ _ _ (λ _, True)).
  { step. eapply (keeps_bind _ _ _ (λ _, True)); [apply keeps_expired; repeat step|]. intros [t build] _. cbv beta iota. step.
    eapply keeps_mono; [apply keeps_require|done]. }
  intros _ _. eapply (keeps_bind _ _ _ digest_ok).
  { unfold generation_exporter. destruct native; [|by apply keeps_ret]. do 3 step.
    eapply keeps_bind; [apply keeps_artifact|]. intros [digest n] [s Hs]. step. apply keeps_ret.
    intros d [= <-]. by exists s. }
  intros digest Hd. step. eapply keeps_mono.
  - apply (keeps_each _ _ (λ indexed c, Requested indexed.2 c ∧ LeanClosureSpec c ∧ LeanClosureFields c)). intros [i r] _.
    unfold export_request. do 2 step. apply keeps_export; [done|].
    intros p Hp. apply fmap_Some in Hp as (f & Hf & ->). case_match; [|done]. injection Hf as <-.
    eapply keeps_bind; [apply keeps_batch|]. intros payloads _. eapply keeps_mono; [apply keeps_lift|done].
  - intros l Hl. rewrite <-(snd_zip (seq 0 (length (first :: requests))) (first :: requests))
      by (rewrite length_seq; lia). apply Forall2_fmap_l. exact Hl.
Qed.
End facts.

(** ** The cache *)

Section cache.
Context {X Float : Type}.
Context (runner : list string → string → option Float → gmap string string * X →
                  (gmap string string * X) * result Exn CompletedProcess).
Context (native : bool).
Context (monotonic : X → X * Float) (fadd fsub : Float → Float → Float).
Context (nonpositive : Float → bool) (valid_timeout : Float → bool) (elapsed_ms : Float → Float → Z).
Context (float_repr float_g : Float → string) (json_float : string → string).
Context (sha256 sha256_hex : string → string) (pid : Z).
Context (observer : option (Json → X → X * result Exn unit)).
Context (lean_root : Path).

(** What is kept for a request is an answer to it. *)
Definition CacheSound (files : gmap string string) : Prop := ∀ request p text,
  cache_place sha256 sha256_hex lean_root request p → files !! path_str p = Some text →
  utf8_valid text = true ∧ checked json_float request text.

(** SHA-256 has digests of 32 bytes and does not collide, the process has an
    id, and the programs that are run leave the cache alone. *)
Context (Hsize : ∀ s, String.length (sha256 s) = 32%nat).
Context (Hsha : ∀ s t, sha256_hex s = sha256_hex t → s = t).
Context (Hpid : 0 <= pid).
Context (Hrunner : ∀ command cwd timeout files x key,
  (runner command cwd timeout (files, x)).1.1 !! path_str (cache_path lean_root key) =
  files !! path_str (cache_path lean_root key)).

Lemma cache_place_inj r1 r2 p1 p2 : cache_place sha256 sha256_hex lean_root r1 p1 →
  cache_place sha256 sha256_hex lean_root r2 p2 → path_str p1 = path_str p2 → r1 = r2.
Proof.
  intros (b1 & o1 & x1 & Hb1 & ->) (b2 & o2 & x2 & Hb2 & ->) H%cache_path_inj%Hsha.
  apply sapp_inj_length in H as [H _].
  - subst b2. by eapply cache_request_inj.
  - apply (f_equal String.length) in H. rewrite !slen_app, !Hsize in H. lia.
Qed.
Lemma cache_sound_runner command cwd timeout files x : CacheSound files →
  CacheSound (runner command cwd timeout (files, x)).1.1.
Proof.
  intros H request p text Hp Ht. apply (H request p text Hp). destruct Hp as (b & o & e & _ & ->).
  by rewrite Hrunner in Ht.
Qed.
Lemma cache_sound_write request p text temporary files :
  cache_place sha256 sha256_hex lean_root request p → checked json_float request text →
  with_suffix p (".tmp." +:+ str_of_Z pid) = Ok temporary → CacheSound files →
  CacheSound (<[path_str temporary := ""]> files) ∧
  (utf8_valid text = true →
   CacheSound (<[path_str p := text]> (delete (path_str temporary) (<[path_str temporary := ""]> files)))).
Proof.
  intros Hp Ht Htmp H.
  assert (∀ r q, cache_place sha256 sha256_hex lean_root r q → path_str temporary ≠ path_str q) as Hne.
  { intros r q (b & o & e & _ & ->). destruct Hp as (? & ? & ? & _ & ->). by eapply temporary_path. }
  split; [|intros Hv]; intros r q t Hq Hl.
  - rewrite lookup_insert_ne in Hl by by eapply Hne. by eapply H.
  - destruct (decide (path_str p = path_str q)) as [E|E].
    + rewrite E, lookup_insert_eq in Hl. injection Hl as <-. split; [done|].
      by rewrite <-(cache_place_inj _ _ _ _ Hp Hq E).
    + rewrite lookup_insert_ne, delete_insert_eq, lookup_delete_ne in Hl by (done || by eapply Hne). by eapply H.
Qed.

(** C15. However many closures are exported and whatever the programs, the clock
    and the observer do, the export ends; what it answers are, one by one,
    well-formed closures of what was requested, from the cache or not; and, also
    when it raises, the cache then holds for every request only texts that
    answer it, if it did before. *)
Theorem exports_keep_the_cache requests timeout_seconds (w : ExportWorld X) : CacheSound (ew_files w) →
  match export_declaration_closures runner native monotonic fadd fsub nonpositive valid_timeout elapsed_ms
          float_repr float_g json_float sha256 sha256_hex pid observer lean_root requests timeout_seconds w with
  | None => False
  | Some (w', answer) => CacheSound (ew_files w') ∧
      match answer with
      | Ok closures => Forall2 (λ request c, Requested request c ∧ LeanClosureSpec c ∧ LeanClosureFields c)
                       requests closures
      | Raise _ => True
      end
  end.
Proof.
  intros Hw. apply (keeps_exports runner native monotonic fadd fsub nonpositive valid_timeout elapsed_ms
    float_repr float_g json_float sha256 sha256_hex pid observer lean_root CacheSound); [| |done].
  - intros; by apply cache_sound_runner.
  - intros request p text temporary files ????. by eapply cache_sound_write.
Qed.

(** Commands that only read, on given files. *)
Lemma wp_now files batch commands (Q : result Exn Float → ExportWorld X → Prop) x :
  (∀ x' t, Q (Ok t) (MkExportWorld files x' batch commands)) →
  wp (now monotonic) Q (MkExportWorld files x batch commands).
Proof. intros HQ. unfold wp, now. cbn [ew_rest]. destruct (monotonic x) as [x' t]. apply HQ. Qed.
Lemma wp_is_file (w : ExportWorld X) (Q : result Exn bool → ExportWorld X → Prop) p bytes :
  ew_files w !! path_str p = Some bytes → Q (Ok true) w → wp (is_file p) Q w.
Proof. intros Hp HQ. unfold wp, is_file. by rewrite Hp. Qed.
Lemma wp_read_bytes (w : ExportWorld X) (Q : result Exn string → ExportWorld X → Prop) p bytes :
  ew_files w !! path_str p = Some bytes → Q (Ok bytes) w → wp (read_bytes p) Q w.
Proof. intros Hp HQ. unfold wp, read_bytes. by rewrite Hp. Qed.
(** An observer that does not raise. *)
Definition quiet : Prop := ∀ observe event x, observer = Some observe → (observe event x).2 = Ok tt.
Lemma wp_observed files batch commands (Q : result Exn unit → ExportWorld X → Prop) x phase started fields :
  quiet → (∀ x', Q (Ok tt) (MkExportWorld files x' batch commands)) →
  wp (observe_export_phase monotonic elapsed_ms observer phase started fields) Q
    (MkExportWorld files x batch commands).
Proof.
  intros Hquiet HQ. unfold observe_export_phase. destruct observer as [observe|] eqn:Ho; [|apply HQ].
  apply wp_bind, wp_now. intros x1 t1. unfold wp, LeanExport.observe. cbn [ew_rest].
  match goal with |- context [observe ?event x1] => pose proof (Hquiet observe event x1 Ho) as H; destruct (observe event x1) as [x2 r] end.
  simpl in H. subst r. apply HQ.
Qed.

(** Files in which the cache holds [text] for a request, whose exporter has the
    given digest or, when none is given, that of its file. *)
Definition Hit (files : gmap string string) (request : LeanDeclarationClosureRequest)
    (given_digest : option string) (text : string) : Prop :=
  CacheSound files ∧ ∃ key_text root_olean root_bytes exporter_bytes other_bytes,
    canonical_json (cache_request request) = Ok key_text ∧
    root_olean_path lean_root (rq_root_module request) = Ok root_olean ∧
    files !! path_str root_olean = Some root_bytes ∧
    files !! path_str (exporter_path lean_root) = Some other_bytes ∧
    default (sha256 other_bytes) given_digest = sha256 exporter_bytes ∧
    files !! path_str (cache_path lean_root
      (cache_key sha256_hex key_text (sha256 root_bytes) (sha256 exporter_bytes))) = Some text.

Lemma hit_answers files request given_digest text : Hit files request given_digest text →
  utf8_valid text = true ∧ ∃ c, closure_from_json json_float text = Some (Ok c) ∧ Requested request c.
Proof.
  intros (Hs & key_text & root_olean & root_bytes & exporter_bytes & other & Hkey & _ & _ & _ & _ & Ht).
  apply (Hs request _ text (ex_intro _ key_text (ex_intro _ root_bytes (ex_intro _ exporter_bytes
    (conj Hkey eq_refl)))) Ht).
Qed.

(** The lookup finds the text. *)
Lemma wp_hit files x batch commands request given_digest text Q :
  quiet → Hit files request given_digest text →
  (∀ x' path, Q (Ok (Some path, Some text)) (MkExportWorld files x' batch commands)) →
  wp (cache_lookup true monotonic elapsed_ms sha256 sha256_hex observer lean_root request given_digest) Q
    (MkExportWorld files x batch commands).
Proof.
  intros Hquiet Hhit HQ. destruct (hit_answers _ _ _ _ Hhit) as [Hv _].
  destruct Hhit as (_ & key_text & root_olean & root_bytes & exporter_bytes & other & Hkey & Holean & Hroot & Hex & Hd & Ht).
  unfold cache_lookup. apply wp_bind, wp_lift. rewrite Holean. apply wp_bind. eapply wp_is_file; [done|].
  apply wp_bind. eapply wp_is_file; [done|]. cbn [andb]. apply wp_bind, wp_now. intros x2 t2.
  apply wp_bind, wp_lift. rewrite Hkey. unfold artifact_digest. apply wp_bind, wp_bind.
  eapply wp_read_bytes; [done|]. apply wp_ret. apply wp_bind.
  assert (∀ Q', (∀ n, Q' (Ok (sha256 exporter_bytes, n)) (MkExportWorld files x2 batch commands)) →
    wp (match given_digest with
        | Some digest => ret (digest, 0)
        | None => content ← read_bytes (exporter_path lean_root);
                  ret (sha256 content, Z.of_nat (String.length content))
        end) Q' (MkExportWorld files x2 batch commands)) as Hdigest.
  { intros Q' HQ'. destruct given_digest as [d|]; simpl in Hd.
    - subst d. apply wp_ret, HQ'.
    - apply wp_bind. eapply wp_read_bytes; [done|]. apply wp_ret. rewrite Hd. apply HQ'. }
  apply Hdigest. intros n. apply wp_bind, wp_observed; [done|]. intros x3. cbn [fst snd].
  apply wp_bind, wp_now. intros x4 t4. apply wp_bind. eapply wp_is_file; [done|]. apply wp_bind.
  eapply wp_read_bytes; [done|]. apply wp_bind, wp_lift. unfold decode_utf8. rewrite Hv. cbn [require mbind result_bind].
  apply wp_bind, wp_observed; [done|]. intros x5. apply wp_ret, HQ.
Qed.

(** The build that an export runs first when it is not told that it was made,
    and how it went. *)
Definition build_command (request : LeanDeclarationClosureRequest) : list string :=
  ["lake"; "build"; rq_root_module request; "pooFlowDeclarationClosure"].
Definition build_ran (files : gmap string string) (request : LeanDeclarationClosureRequest)
    (files1 : gmap string string) (answer : result Exn CompletedProcess) : Prop :=
  ∃ x x' timeout, runner (build_command request) (path_str lean_root) (Some timeout) (files, x) = ((files1, x'), answer).
Definition succeeded (answer : result Exn CompletedProcess) : bool :=
  match answer with Ok p => cp_returncode p =? 0 | Raise _ => false end.

(** The files with which an export goes on. *)
Definition built (build_prepared : bool) (files : gmap string string)
    (request : LeanDeclarationClosureRequest) (files1 : gmap string string) : Prop :=
  if build_prepared then files1 = files
  else ∃ answer, build_ran files request files1 answer ∧ succeeded answer = true.

Notation run_phase root_module := (run_export_phase runner monotonic fsub nonpositive elapsed_ms float_g observer
  lean_root root_module).
Lemma wp_build request timeout_seconds deadline files x batch commands Q : quiet →
  (∀ x' e, Q (Raise e) (MkExportWorld files x' batch commands)) →
  (∀ files1 x' answer, build_ran files request files1 answer →
     match answer with
     | Ok p => Q (Ok p) (MkExportWorld files1 x' batch (commands ++ [build_command request]))
     | Raise _ => ∀ e, Q (Raise e) (MkExportWorld files1 x' batch (commands ++ [build_command request]))
     end) →
  wp (run_phase (rq_root_module request) timeout_seconds deadline (build_command request) "lake-build") Q
    (MkExportWorld files x batch commands).
Proof.
  intros Hquiet Hlate Hran. unfold run_export_phase. apply wp_bind, wp_now. intros x1 t1.
  apply wp_bind, wp_lift. destruct (nonpositive _); cbn [negb require]; [apply Hlate|].
  unfold expired. apply wp_except.
  assert (wp (started ← now monotonic;
    result ← run runner (build_command request) (path_str lean_root) (Some (fsub deadline t1));
    _ ← observe_export_phase monotonic elapsed_ms observer "lake-build" started
          [("returncode", JInt (cp_returncode result))];
    ret result) (λ r w', (∀ e, r = Raise e → ∀ e', Q (Raise e') w') ∧ (∀ p, r = Ok p → Q (Ok p) w'))
    (MkExportWorld files x1 batch commands)) as H.
  { apply wp_bind, wp_now. intros x2 t2. apply wp_bind. unfold wp at 1, run. cbn [ew_files ew_rest ew_batch ew_commands].
    destruct (runner _ _ _ _) as [[files1 x3] answer] eqn:Er.
    assert (build_ran files request files1 answer) as Hb by by exists x2, x3, (fsub deadline t1).
    destruct answer as [p|e].
    - apply wp_bind, wp_observed; [done|]. intros x4. apply wp_ret. split; [done|]. intros p' [= <-].
      exact (Hran files1 x4 _ Hb).
    - split; [|done]. intros e' _. exact (Hran files1 x3 _ Hb). }
  eapply wp_mono, H. intros [p|e] w' [H1 H2]; [by apply H2|].
  destruct (is_timeout e); unfold wp, raise; by eapply H1.
Qed.

(** C40. A request that the cache holds is answered from it.  When the build was
    made, nothing is run and no file changes; otherwise exactly the build is
    run, and when the cache holds the request in the files it leaves, nothing
    else is run and no other file changes.  The answer is what the cached text
    says, whatever the clock, the provider and the observer, if that does not
    raise; the export raises only when the build is to be run and no time is
    left for it, or it fails. *)
Theorem cached_request_is_answered request timeout_seconds build_prepared given_digest provider (w : ExportWorld X) text :
  quiet → rq_root_declarations request ≠ [] → valid_timeout timeout_seconds = true →
  (build_prepared = true → given_digest ≠ None) →
  (∀ files1, built build_prepared (ew_files w) request files1 → Hit files1 request given_digest text) →
  match export_declaration_closure runner true monotonic fadd fsub nonpositive valid_timeout elapsed_ms
          float_repr float_g json_float sha256 sha256_hex pid observer lean_root request timeout_seconds
          build_prepared given_digest provider w with
  | None => False
  | Some (w', Ok c) =>
      closure_from_json json_float text = Some (Ok c) ∧ Requested request c ∧
      built build_prepared (ew_files w) request (ew_files w') ∧
      ew_commands w' = ew_commands w ++ (if build_prepared then [] else [build_command request])
  | Some (w', Raise _) =>
      build_prepared = false ∧
      ((ew_files w' = ew_files w ∧ ew_commands w' = ew_commands w) ∨
       (ew_commands w' = ew_commands w ++ [build_command request] ∧
        ∃ answer, build_ran (ew_files w) request (ew_files w') answer ∧ succeeded answer = false))
  end.
Proof.
  intros Hquiet Hroots Htime Hgiven Hhit. destruct w as [files x0 batch commands]. cbn [ew_files ew_commands] in *.
  set (export := export_declaration_closure _ _ _ _ _ _ _ _ _ _ _ _ _ _ _ _ _ _ _ _ _).
  enough (wp export (λ r w', match r with
    | Ok c => closure_from_json json_float text = Some (Ok c) ∧ Requested request c ∧
        built build_prepared files request (ew_files w') ∧
        ew_commands w' = commands ++ (if build_prepared then [] else [build_command request])
    | Raise _ => build_prepared = false ∧
        ((ew_files w' = files ∧ ew_commands w' = commands) ∨
         (ew_commands w' = commands ++ [build_command request] ∧
          ∃ answer, build_ran files request (ew_files w') answer ∧ succeeded answer = false))
    end) (MkExportWorld files x0 batch commands)) as H.
  { unfold wp in H. destruct (export _) as [[w' [c|e]]|]; done. }
  subst export. unfold export_declaration_closure, require_timeout.
  apply wp_bind, wp_lift. rewrite bool_decide_eq_false_2 by done.
  apply wp_bind, wp_lift. rewrite Htime. apply wp_bind, wp_now. intros x1 t1. apply wp_bind.
  assert (∀ files1 x2 Q, built build_prepared files request files1 →
    (∀ x3 c, closure_from_json json_float text = Some (Ok c) → Requested request c →
       Q (Ok c) (MkExportWorld files1 x3 batch (commands ++ if build_prepared then [] else [build_command request]))) →
    wp (cache ← cache_lookup true monotonic elapsed_ms sha256 sha256_hex observer lean_root request given_digest;
        exported_json ← match cache.2, provider with
                  | Some text, _ => ret text
                  | None, Some provider => provider
                  | None, None =>
                      exported ← run_phase (rq_root_module request) timeout_seconds (fadd t1 timeout_seconds)
                                   (export_command request) "lean-export";
                      _ ← lift (require (cp_returncode exported =? 0)
                        (LeanClosureError "lean-export-failed"
                           (first_text (cp_stderr exported) (cp_stdout exported) (rq_root_module request))));
                      _ ← observe_native_export_phases json_float observer (cp_stderr exported);
                      ret (cp_stdout exported)
                  end;
        parse_started ← now monotonic;
        closure ← fueled (closure_from_json json_float exported_json);
        _ ← observe_export_phase monotonic elapsed_ms observer "closure-parse" parse_started
              [("declaration_count", JInt (Z.of_nat (length (lc_declarations closure))));
               ("proof_base_declaration_count", JInt (Z.of_nat (length (lc_proof_base_interface closure))))];
        _ ← lift (check_request request closure);
        _ ← match cache with
            | (Some path, None) => cache_write pid path exported_json
            | _ => ret tt
            end;
        ret closure) Q
      (MkExportWorld files1 x2 batch (commands ++ if build_prepared then [] else [build_command request]))) as Hrest.
  { intros files1 x2 Q Hb HQ. pose proof (Hhit _ Hb) as Hh.
    destruct (hit_answers _ _ _ _ Hh) as (_ & c & Hc & Hr).
    apply wp_bind, (wp_hit files1 x2 batch _ request given_digest text); [done|done|]. intros x3 path.
    apply wp_bind. cbn [snd]. apply wp_ret.
    apply wp_bind, wp_now. intros x4 t4. apply wp_bind. eapply wp_fueled; [done|].
    apply wp_bind, wp_observed; [done|]. intros x5. apply wp_bind, wp_lift.
    assert (check_request request c = Ok tt) as -> by by apply check_request_Ok.
    apply wp_bind. cbn [fst snd]. apply wp_ret, wp_ret. by apply HQ. }
  destruct build_prepared; cbn [negb andb].
  - rewrite bool_decide_eq_false_2 by by apply Hgiven. apply wp_lift. cbn [negb require].
    pose proof (Hrest files x1) as Hrest'. rewrite app_nil_r in Hrest'. apply Hrest'; [done|]. intros x3 c Hc Hr. split_and!; [done..|by rewrite app_nil_r].
  - apply wp_bind, wp_build; [done|by auto|]. intros files1 x2 answer Hran.
    destruct answer as [p|e].
    + apply wp_lift. destruct (Z.eqb_spec (cp_returncode p) 0) as [H0|H0]; cbn [require].
      * assert (built false files request files1) as Hb by (exists (Ok p); split; [done|]; simpl; by rewrite H0).
        apply Hrest; [done|]. intros x3 c Hc Hr. by split_and!.
      * split; [done|]. right. split; [done|]. exists (Ok p). split; [done|]. by apply Z.eqb_neq.
    + intros e'. split; [done|]. right. split; [done|]. by exists (Raise e).
Qed.
End cache.

(** ** One export with a cache *)

Definition sample_sha256 (_ : string) : string := "--------------------------------".
Definition sample_root : Path := path_of "/r".
Definition sample_request : LeanDeclarationClosureRequest := MkRequest "M" ["M.t"] ["Init"] [].
Definition sample_text : string := json_dumps (closure_manifest sample_closure).
Definition sample_runner (command : list string) (cwd : string) (timeout : option Z)
    (w : gmap string string * unit) : (gmap string string * unit) * result Exn CompletedProcess :=
  (w, Ok (MkProcess 0 ("[" +:+ sample_text +:+ "]") "")).
Definition sample_files : gmap string string :=
  <["/r/.lake/build/lib/lean/M.olean" := "olean"]> (<["/r/" +:+ EXPORTER := "exporter"]> ∅).
Definition sample_world (files : gmap string string) : ExportWorld unit := MkExportWorld files tt None [].
Definition sample_exports : Eff (ExportWorld unit) (list LeanDeclarationClosure) :=
  export_declaration_closures sample_runner true (λ x, (x, 0)) Z.add Z.sub (λ t, bool_decide (t <= 0))
    (λ t, bool_decide (0 < t)) Z.sub str_of_Z str_of_Z id sample_sha256 id 7 None sample_root [sample_request] 30.

Lemma sample_files_sound : CacheSound id sample_sha256 id sample_root sample_files.
Proof.
  intros request p text (b & o & e & _ & ->) H. exfalso. revert H. rewrite cache_path_str. unfold sample_files.
  intros [[H _]|[_ H]]%lookup_insert_Some; [vm_compute in H; discriminate H|].
  apply lookup_insert_Some in H as [[H _]|[_ H]]; [vm_compute in H; discriminate H|]. by rewrite lookup_empty in H.
Qed.

Theorem exports_keep_the_cache_witness : ∃ w',
  sample_exports (sample_world sample_files) = Some (w', Ok [sample_closure]) ∧ length (ew_commands w') = 2%nat ∧
  CacheSound id sample_sha256 id sample_root (ew_files w').
Proof.
  pose proof (exports_keep_the_cache sample_runner true (λ x, (x, 0)) Z.add Z.sub (λ t, bool_decide (t <= 0))
    (λ t, bool_decide (0 < t)) Z.sub str_of_Z str_of_Z id sample_sha256 id 7 None sample_root
    (λ _, eq_refl) (λ _ _ H, H) ltac:(lia) (λ _ _ _ _ _ _, eq_refl) [sample_request] 30
    (sample_world sample_files) sample_files_sound) as H. fold sample_exports in H.
  assert ((λ o, match o with Some (w, r) => Some (length (ew_commands w), r) | None => None end)
    (sample_exports (sample_world sample_files)) = Some (2%nat, Ok [sample_closure])) as E
    by (vm_compute; reflexivity).
  destruct (sample_exports (sample_world sample_files)) as [[w' r]|]; [|discriminate E].
  injection E as E1 E2. exists w'. destruct H as [H _]. by rewrite E2.
Defined.

Definition sample_key : string :=
  cache_key id (write_json (cache_request sample_request)) (sample_sha256 "olean") (sample_sha256 "exporter").
Definition sample_cached (temporary : Path) : gmap string string :=
  <[path_str (cache_path sample_root sample_key) := sample_text]>
    (delete (path_str temporary) (<[path_str temporary := ""]> sample_files)).

(** The export builds first, and then finds the request in the cache. *)
Definition sample_build : list string := ["lake"; "build"; "M"; "pooFlowDeclarationClosure"].
Definition sample_export (files : gmap string string) : option (ExportWorld unit * result Exn LeanDeclarationClosure) :=
  export_declaration_closure sample_runner true (λ x, (x, 0)) Z.add Z.sub (λ t, bool_decide (t <= 0))
    (λ t, bool_decide (0 < t)) Z.sub str_of_Z str_of_Z id sample_sha256 id 7 None sample_root sample_request 30
    false None None (sample_world files).
Theorem cached_request_is_answered_witness : ∃ temporary w',
  sample_export (sample_cached temporary) = Some (w', Ok sample_closure) ∧
  closure_from_json id sample_text = Some (Ok sample_closure) ∧ ew_commands w' = [sample_build].
Proof.
  destruct (with_suffix (cache_path sample_root sample_key) (".tmp." +:+ str_of_Z 7)) as [temporary|e] eqn:E;
    [|vm_compute in E; discriminate E].
  exists temporary.
  assert (CacheSound id sample_sha256 id sample_root (sample_cached temporary)) as Hs.
  { apply (proj2 (cache_sound_write id sample_sha256 id 7 sample_root (λ _, eq_refl) (λ _ _ H, H) ltac:(lia)
      sample_request (cache_path sample_root sample_key) sample_text temporary sample_files
      ltac:(exists (write_json (cache_request sample_request)), "olean", "exporter"; split; vm_compute; reflexivity)
      ltac:(exists sample_closure; split; [vm_compute; reflexivity|by split]) E sample_files_sound)).
    vm_compute. reflexivity. }
  vm_compute in E. injection E as <-.
  match type of Hs with CacheSound _ _ _ _ ?fs => set (files := fs) in * end.
  pose proof (cached_request_is_answered sample_runner (λ x, (x, 0)) Z.add Z.sub (λ t, bool_decide (t <= 0))
    (λ t, bool_decide (0 < t)) Z.sub str_of_Z str_of_Z id sample_sha256 id 7 None sample_root
    sample_request 30 false None None (sample_world files) sample_text
    ltac:(discriminate) ltac:(discriminate) eq_refl ltac:(discriminate)) as H.
  fold (sample_export files) in H.
  assert (∀ files1, built sample_runner sample_root false files sample_request files1 →
    Hit id sample_sha256 id sample_root files1 sample_request None sample_text) as Hhit.
  { intros files1 (answer & (x & x' & timeout & Hrun) & _). injection Hrun as <- _ _. split; [exact Hs|].
    exists (write_json (cache_request sample_request)), (path_of "/r/.lake/build/lib/lean/M.olean"),
      "olean", "exporter", "exporter".
    split_and!; vm_compute; reflexivity. }
  specialize (H Hhit).
  assert ((λ o, match o with Some (w, r) => Some (ew_commands w, r) | None => None end)
    (sample_export files) = Some ([sample_build], Ok sample_closure)) as Er by (vm_compute; reflexivity).
  destruct (sample_export files) as [[w' r]|]; [|discriminate Er].
  injection Er as Ec ->. exists w'. split; [done|]. split; [apply H|]. destruct H as (_ & _ & _ & H). exact H.
Defined.


(** * The sources of owner modules *)

Section facts.
Context {X Float : Type}.
Context (runner : list string → string → option Float → gmap string string * X →
                  (gmap string string * X) * result Exn CompletedProcess).
Context (sha256_hex : string → string) (resolve : Path → Path) (is_dir : Path → bool).
Notation World := (ExportWorld X).

(** The files with these texts. *)
Definition present (files : gmap string string) (p : Path) : bool := bool_decide (is_Some (files !! path_str p)).
Notation on files := (λ w : World, ew_files w = files).

(** The file of a module below one of the roots. *)
Record SourceOf (files : gmap string string) (roots : list Path) (lean_root : Path) (module : string)
    (s : LeanOwnerSource) : Prop := {
  so_module : ow_module s = module;
  so_file : ∃ relative path content,
    with_suffix (path_of_parts (split_on "." module)) ".lean" = Ok relative ∧
    filter (λ p, present files p = true) ((λ root, resolve (path_join root relative)) <$> roots) = [path] ∧
    ow_path s = path_str path ∧ files !! path_str path = Some content ∧
    ow_source_digest s = sha256_digest sha256_hex content ∧
    ow_owner_path s = default (module +:+ ":" +:+ path_str path) (relative_to path lean_root)
}.

Lemma keeps_found files relative roots : keeps (on files)
  (each (λ root, let candidate := resolve (path_join root relative) in
                 present ← is_file candidate; ret (if present : bool then [candidate] else [])) roots)
  (λ found, concat found = filter (λ p, present files p = true)
                             ((λ root, resolve (path_join root relative)) <$> roots)).
Proof.
  induction roots as [|root roots IH]; cbn [each]; [by apply keeps_ret|].
  eapply (keeps_bind _ _ _ (λ l, l = filter (λ p, present files p = true) [resolve (path_join root relative)])).
  { intros w Hw. unfold wp, mbind, Eff_bind, is_file, ret. split; [done|]. rewrite Hw.
    rewrite filter_cons. unfold present at 1. fold (present files (resolve (path_join root relative))).
    case_decide as H; [by rewrite H|]. by apply not_true_is_false in H as ->. }
  intros l ->. eapply keeps_bind; [exact IH|]. intros k Hk. apply keeps_ret. cbn [concat]. rewrite Hk.
  by rewrite fmap_cons, <-filter_app.
Qed.

Lemma keeps_owner_source files roots lean_root module : keeps (on files)
  (owner_source (X:=X) sha256_hex resolve lean_root roots module) (SourceOf files roots lean_root module).
Proof.
  unfold owner_source. eapply keeps_bind; [apply keeps_lift|]. intros relative Hrel.
  eapply keeps_bind; [apply keeps_found|]. intros found Hf. rewrite Hf.
  set (matches := filter _ _) in *. destruct matches as [|path [|? ?]] eqn:Em; try apply keeps_raise.
  eapply (keeps_bind _ _ _ (λ content, files !! path_str path = Some content)).
  { intros w Hw. unfold wp, read_bytes. split; [done|]. rewrite Hw. by destruct (files !! _). }
  intros content Hc. apply keeps_ret. split; [done|]. by exists relative, path, content.
Qed.

(** What [resolve_owner_sources] promises for a closure with the properties of the
    constructor. *)
Definition resolved_sources (c : LeanDeclarationClosure) (lean_root : Path)
    (r : result Exn (list LeanOwnerSource)) (w' : World) : Prop :=
  match r with
  | Raise _ => True
  | Ok sources => ∃ lean_path order, owner_modules_in_dependency_order c = Some (Ok order) ∧
      Forall2 (SourceOf (ew_files w') (source_roots resolve is_dir (resolve lean_root) lean_path)
                 (resolve lean_root)) order sources
  end.
Lemma wp_resolve_sources (c : LeanDeclarationClosure) lean_root (w : World) : LeanClosureSpec c →
  wp (resolve_owner_sources runner sha256_hex resolve is_dir c lean_root) (resolved_sources c lean_root) w.
Proof.
  intros Hc.
  assert (is_Some (owner_modules_in_dependency_order c)) as Ho.
  { pose proof (owner_order_spec c Hc) as H. by destruct (owner_modules_in_dependency_order c). }
  unfold resolve_owner_sources. cbv zeta.
  apply wp_bind. unfold wp at 1, run. destruct (runner _ _ _ _) as [[files x] [receipt|e]]; [|done].
  apply wp_bind, wp_lift. destruct (require _ _); [|done].
  eapply wp_mono, (keeps_bind (on files) _ _ (λ order, owner_modules_in_dependency_order c = Some (Ok order))
    (λ sources, ∃ order, owner_modules_in_dependency_order c = Some (Ok order) ∧ Forall2 (SourceOf files
      (source_roots resolve is_dir (resolve lean_root) (ustrip (cp_stdout receipt))) (resolve lean_root)) order sources));
    [|by apply keeps_fueled| |done].
  - intros [sources|e] w' [<- H]; [|done]. destruct H as (order & ? & ?). by eexists _, order.
  - intros order Horder. eapply keeps_mono; [apply keeps_each; intros; apply keeps_owner_source|].
    intros sources Hs. by exists order.
Qed.


(** For a closure that the constructor accepts, the sources that
    [resolve_owner_sources] answers are those of its owner modules in the order of
    their dependencies; the path of a module names a file below exactly one of
    the source roots, and the digest is that of this file. *)
Theorem owner_sources_resolve (c : LeanDeclarationClosure) lean_root (w : World) :
  match check_closure c with
  | Raise _ => True
  | Ok _ =>
      match resolve_owner_sources runner sha256_hex resolve is_dir c lean_root w with
      | None => False
      | Some (_, Raise _) => True
      | Some (w', Ok sources) => ∃ lean_path order,
          owner_modules_in_dependency_order c = Some (Ok order) ∧
          Forall2 (SourceOf (ew_files w') (source_roots resolve is_dir (resolve lean_root) lean_path)
                     (resolve lean_root)) order sources
      end
  end.
Proof.
  destruct (check_closure c) as [c'|] eqn:E; [|done]. apply check_closure_Ok in E as [_ Hc].
  pose proof (wp_resolve_sources c lean_root w Hc) as H. unfold wp, resolved_sources in H.
  by destruct (resolve_owner_sources _ _ _ _ _ _ w) as [[w' [sources|e]]|].
Qed.
End facts.
