(* ===== verification/BundleProjection.v ===== *)
(** * From an exact closure to a bundle ([independent_bundle_projection.py])

    (In [src/packages/proofs/python/src/poo_flow_proof/].)  The declarations that
    AXLE extracted are sorted into those the closure of Lean owns and those of
    the proof base, each gets the source file of its module, and the constructor
    of bundles checks the result.  [decode_bytes] is how [json.loads] decodes
    bytes, [set_order] the order in which Python iterates over a set; of the
    text of an error of the operating system only what names the file is kept. *)

From Stdlib Require Import Ascii.
From stdpp Require Import gmap strings.
From S2P Require Import Prelude PyDict GraphTypes Receipts Text SchemeDatum Merkle EvidenceModel Sort ReceiptGraph ReceiptGraphFacts ReceiptGraphTheorems Json JsonFacts IndependentBundle IndependentBundleFacts Refinement LeanClosure LeanClosureFacts SourceText ExactClosure Effects ExactBuild ExactBuildFacts LeanExport.

Definition ProjectionError (code detail : string) : Exn :=
  PyError "IndependentBundleProjectionError" (code +:+ ": " +:+ detail).

(** [s.removesuffix(suffix)]. *)
Definition removesuffix (suffix s : string) : string :=
  if ends_with suffix s then String.substring 0 (String.length s - String.length suffix) s else s.

(** ** The identities of the parts *)

Definition root_package_id (manifest : dict string Json) : result Exn string :=
  match nonempty_string (get manifest "name") with
  | Some value => Ok (removesuffix "»" (removeprefix "«" value))
  | None => Raise (ProjectionError "lake-manifest-package-name-missing" "lake-manifest.json")
  end.

Definition owner_path_leb (s t : LeanOwnerSource) : bool := str_leb (ow_owner_path s) (ow_owner_path t).

(** [source_range is not None] for all declarations, and the aliases. *)
Definition all_ranged (c : LeanDeclarationClosure) : bool :=
  forallb (λ d, bool_decide (is_Some (ld_source_range d))) (lc_declarations c).
Definition declaration_aliases (c : LeanDeclarationClosure) : result Exn (dict string string) :=
  if all_ranged c then source_declaration_aliases c
  else Ok (dict_of ((λ d, (ld_name d, ld_name d)) <$> lc_declarations c)).

Definition sources_by_module (sources : list LeanOwnerSource) : dict string LeanOwnerSource :=
  dict_of ((λ s, (ow_module s, s)) <$> sources).

(** The modules that declare [name] or something below it. *)
Definition modules_of (c : LeanDeclarationClosure) (name : string) : list string :=
  remove_dups (ld_owner_module <$> filter (λ d, is_under (ld_name d) name = true) (lc_declarations c)).
(** [_owner_source]. *)
Definition declaration_owner (c : LeanDeclarationClosure) (sources : list LeanOwnerSource)
    (declaration_name : string) : result Exn LeanOwnerSource :=
  match modules_of c declaration_name with
  | [] => Raise (ProjectionError "source-declaration-owner-missing" declaration_name)
  | [module] => of_option (ProjectionError "owner-module-source-missing" module)
                  (dget module (sources_by_module sources))
  | modules => Raise (ProjectionError "source-declaration-owner-ambiguous"
                        (declaration_name +:+ ": " +:+ repr_list (sort_by str_leb modules)))
  end.

Section projection.
Context (sha256_hex : string → string) (set_order : list string → list string).

Definition owner_source_tree_digest (sources : list LeanOwnerSource) : result Exn string :=
  sha256_digest sha256_hex <$> encode_utf8
    (lines ((λ s, ow_owner_path s +:+ String (chr 0) (ow_source_digest s)) <$> sort_by owner_path_leb sources)).

(** Is the declaration one that the closure owns, under the name of its source? *)
Definition is_owned (aliases : dict string string) (d : SourceDeclaration) : bool :=
  bool_decide (normalized_source_declaration_name set_order aliases (sd_name d) ∈ dvalues aliases).

(** One declaration of the proof base. *)
Definition proof_base_identity (proof_base_names : list string) (exact_by_name : dict string SourceDeclaration)
    (d : LeanProofBaseInterfaceDeclaration) : result Exn ProofBaseInterfaceDeclarationIdentity :=
  let '(kind, local_dependencies) :=
    match dget (li_name d) exact_by_name with
    | None => (if bool_decide (li_declaration_role d ∈ ["abbrev"; "definition"]) then "def" else "axiom", [])
    | Some exact_declaration =>
        (sd_kind exact_declaration,
         sort_by str_leb (filter (λ dependency, dependency ∈ proof_base_names ∧ dependency ≠ li_name d)
                            (sd_local_dependencies exact_declaration)))
    end in
  check_proof_base (ProofBaseDeclaration (li_name d) kind (li_level_params d) (li_type_source d)
                      (li_value_source d) local_dependencies).

(** One owned declaration, as it is first built and with normalised dependencies. *)
Definition owned_identity (c : LeanDeclarationClosure) (sources : list LeanOwnerSource)
    (d : SourceDeclaration) : result Exn DeclarationIdentity :=
  owner ← declaration_owner c sources (sd_name d);
  check_declaration (Declaration (sd_name d) (sd_kind d) (ow_owner_path owner) (ow_source_digest owner)
                       (sd_local_dependencies d)).
Definition normalized_identity (aliases : dict string string) (d : DeclarationIdentity) :
    result Exn DeclarationIdentity :=
  check_declaration (Declaration (de_name d) (de_kind d) (de_owner_path d) (de_owner_source_digest d)
    (sort_by str_leb (filter (λ dependency, dependency ≠ de_name d) (remove_dups
       (normalized_source_declaration_name set_order aliases <$> de_local_dependencies d))))).

(** [build_independent_declaration_bundle] after the manifest was loaded. *)
Definition project_bundle (c : LeanDeclarationClosure) (exact : ExactAxleClosure)
    (sources : list LeanOwnerSource) (manifest_bytes : string) (manifest : dict string Json) :
    result Exn IndependentDeclarationBundle :=
  source_tree_digest ← owner_source_tree_digest sources;
  package_id ← root_package_id manifest;
  resolved_source ← check_source (ResolvedSource package_id
    ("workspace:" +:+ removeprefix "sha256:" source_tree_digest) source_tree_digest
    (sha256_digest sha256_hex manifest_bytes));
  aliases ← declaration_aliases c;
  let proof_base_names := li_name <$> lc_proof_base_interface c in
  let owned := filter (λ d, is_owned aliases d = true) (xc_declarations exact) in
  let proof_base := filter (λ d, sd_name d ∈ proof_base_names) (xc_declarations exact) in
  let classified_names := sd_name <$> owned ++ proof_base in
  let unclassified_names :=
    sort_by str_leb (filter (λ name, name ∉ classified_names) (sd_name <$> xc_declarations exact)) in
  _ ← require (bool_decide (unclassified_names = []))
        (ProjectionError "unclassified-exact-declaration" (str_join ", " unclassified_names));
  let exact_by_name := dict_of ((λ d, (sd_name d, d)) <$> proof_base) in
  proof_base_declarations ← mapM (proof_base_identity proof_base_names exact_by_name)
                              (lc_proof_base_interface c);
  let interface_digest := canonical_proof_base_interface_digest sha256_hex (lc_proof_base_imports c)
                            proof_base_declarations in
  declarations ← mapM (owned_identity c sources) owned;
  declarations ← mapM (normalized_identity aliases) declarations;
  environment ← check_environment (AxleEnvironment (xc_environment exact) (lc_lean_version c)
                                     (lc_base_imports c) None None None);
  check_bundle sha256_hex (Bundle (lc_root_module c) (xc_root_declarations exact) (lc_lean_version c)
    environment [resolved_source] (lc_proof_base_imports c) interface_digest proof_base_declarations
    declarations (xc_canonical_source exact) IndependentBundle.SCHEMA_ID).

Section build.
Context {X : Type}.
Context (decode_bytes : string → result Exn string) (json_float : string → string).

(** [except (OSError, json.JSONDecodeError)]. *)
Definition unreadable (manifest_path : Path) (e : Exn) : Exn :=
  match e with
  | PyError cls detail =>
      if bool_decide (cls ∈ ["FileNotFoundError"; "JSONDecodeError"])
      then ProjectionError "lake-manifest-unreadable" (path_str manifest_path +:+ ": " +:+ detail) else e
  | _ => e
  end.
(** [json.loads(manifest_bytes)]. *)
Definition load_manifest (manifest_bytes : string) : option (result Exn Json) :=
  match decode_bytes manifest_bytes with
  | Ok text => json_loads json_float default_hook text
  | Raise e => Some (Raise e)
  end.
Definition build_independent_declaration_bundle (c : LeanDeclarationClosure) (exact : ExactAxleClosure)
    (sources : list LeanOwnerSource) (lean_root : Path) : Eff (ExportWorld X) IndependentDeclarationBundle :=
  let manifest_path := path_join lean_root (MkPath false ["lake-manifest.json"]) in
  loaded ← except (manifest_bytes ← read_bytes manifest_path;
                   manifest ← fueled (load_manifest manifest_bytes); ret (manifest_bytes, manifest))
             (λ e, raise (unreadable manifest_path e));
  match loaded.2 with
  | JObj manifest => lift (project_bundle c exact sources loaded.1 manifest)
  | _ => raise (ProjectionError "lake-manifest-invalid" (path_str manifest_path))
  end.
End build.
End projection.

(** * What a projected bundle is *)

(** ** Constructors answer what they are given *)

Lemma check_declaration_same d e : check_declaration d = Ok e → e = d ∧ de_name d ∉ de_local_dependencies d.
Proof.
  unfold check_declaration. cbv zeta. intros H.
  repeat (apply bind_Ok in H as ([] & ? & H)). injection H as <-. split; [done|].
  match goal with H : require (negb (bool_decide (de_name d ∈ _))) _ = _ |- _ =>
    apply require_Ok, negb_true_iff, bool_decide_eq_false in H; done end.
Qed.
Lemma check_proof_base_same d e : check_proof_base d = Ok e → e = d.
Proof.
  unfold check_proof_base. cbv zeta. intros H.
  repeat (apply bind_Ok in H as ([] & ? & H)). by injection H as <-.
Qed.
Lemma check_environment_same e e' : check_environment e = Ok e' → e' = e ∧ has_text (ae_name e).
Proof.
  unfold check_environment. intros H. apply text_bind in H as [Hn H].
  repeat (apply bind_Ok in H as ([] & ? & H)). destruct (ae_repo_url e).
  - apply bind_Ok in H as ([] & _ & H). apply bind_Ok in H as (r & _ & H).
    apply bind_Ok in H as ([] & _ & H). by injection H as <-.
  - apply bind_Ok in H as ([] & _ & H). by injection H as <-.
Qed.
Lemma check_source_same s s' : check_source s = Ok s' → s' = s.
Proof.
  unfold check_source. intros H. repeat (apply bind_Ok in H as ([] & ? & H)). by injection H as <-.
Qed.

Lemma Forall2_listed {A B} (P Q : A → B → Prop) l k :
  Forall2 P l k → (∀ x y, x ∈ l → P x y → Q x y) → Forall2 Q l k.
Proof. induction 1; constructor; set_solver. Qed.

(** ** Owners *)

(** [s] is the source of the one module that declares [name] or what is below it. *)
Record OwnerOf (c : LeanDeclarationClosure) (sources : list LeanOwnerSource) (name : string)
    (s : LeanOwnerSource) : Prop := {
  oo_listed : s ∈ sources;
  oo_some : ∃ d, d ∈ lc_declarations c ∧ is_under (ld_name d) name = true;
  oo_all d : d ∈ lc_declarations c → is_under (ld_name d) name = true → ld_owner_module d = ow_module s
}.
Lemma declaration_owner_Ok c sources name s :
  declaration_owner c sources name = Ok s → OwnerOf c sources name s.
Proof.
  unfold declaration_owner. intros H.
  assert (∀ m, m ∈ modules_of c name ↔
    ∃ d, d ∈ lc_declarations c ∧ is_under (ld_name d) name = true ∧ ld_owner_module d = m) as Hm.
  { intros m. unfold modules_of. rewrite elem_of_remove_dups, list_elem_of_fmap.
    setoid_rewrite list_elem_of_filter. naive_solver. }
  destruct (modules_of c name) as [|module [|? ?]]; try done.
  apply of_option_Ok, dget_dict_of, list_elem_of_fmap in H as (s' & [= -> ->] & Hs).
  split; [done| |].
  - destruct (proj1 (Hm (ow_module s')) ltac:(by left)) as (d & ? & ? & _). by exists d.
  - intros d Hd Hu. assert (ld_owner_module d ∈ [ow_module s']) as H%list_elem_of_singleton; [|done].
    apply Hm. by exists d.
Qed.

(** ** The projection *)

Section facts.
Context (sha256_hex : string → string) (set_order : list string → list string).

(** The declaration of the bundle that an extracted one becomes. *)
Record ProjectedDeclaration (c : LeanDeclarationClosure) (sources : list LeanOwnerSource)
    (aliases : dict string string) (d : SourceDeclaration) (e : DeclarationIdentity) : Prop := {
  pd_name : de_name e = sd_name d;
  pd_kind : de_kind e = sd_kind d;
  pd_owner : ∃ s, OwnerOf c sources (sd_name d) s ∧ de_owner_path e = ow_owner_path s ∧
    de_owner_source_digest e = ow_source_digest s;
  pd_self : sd_name d ∉ sd_local_dependencies d;
  pd_dependencies x : x ∈ de_local_dependencies e ↔ x ≠ sd_name d ∧
    ∃ y, y ∈ sd_local_dependencies d ∧ normalized_source_declaration_name set_order aliases y = x
}.

Lemma projected_declaration c sources aliases d e e' :
  owned_identity c sources d = Ok e → normalized_identity set_order aliases e = Ok e' →
  ProjectedDeclaration c sources aliases d e'.
Proof.
  unfold owned_identity, normalized_identity. intros H H'.
  apply bind_Ok in H as (s & Hs%declaration_owner_Ok & H).
  apply check_declaration_same in H as [-> Hself]. apply check_declaration_same in H' as [-> _].
  split; try done; [by exists s|]. intros x.
  cbn [de_local_dependencies de_name]. rewrite elem_of_sort_by, list_elem_of_filter, elem_of_remove_dups, list_elem_of_fmap. naive_solver.
Qed.

(** The declaration of the proof base that an interface becomes. *)
Record ProjectedInterface (exact : ExactAxleClosure) (names : list string)
    (i : LeanProofBaseInterfaceDeclaration) (p : ProofBaseInterfaceDeclarationIdentity) : Prop := {
  pf_same : (pb_name p, pb_level_params p, pb_type_source p, pb_value_source p)
            = (li_name i, li_level_params i, li_type_source i, li_value_source i);
  pf_extracted : (∃ d, d ∈ xc_declarations exact ∧ sd_name d = li_name i ∧ pb_kind p = sd_kind d ∧
      ∀ x, x ∈ pb_local_dependencies p ↔ x ∈ names ∧ x ≠ li_name i ∧ x ∈ sd_local_dependencies d) ∨
    (li_name i ∉ sd_name <$> xc_declarations exact) ∧ pb_local_dependencies p = [] ∧
      pb_kind p = if bool_decide (li_declaration_role i ∈ ["abbrev"; "definition"]) then "def" else "axiom"
}.

(** What a bundle takes from the closures, the sources and the Lake manifest. *)
Record Projected (c : LeanDeclarationClosure) (exact : ExactAxleClosure) (sources : list LeanOwnerSource)
    (manifest_bytes : string) (b : IndependentDeclarationBundle) : Prop := {
  pr_spec : BundleSpec sha256_hex b;
  pr_roots : bu_root_module b = lc_root_module c ∧ bu_root_declarations b = xc_root_declarations exact;
  pr_source : bu_canonical_source b = xc_canonical_source exact;
  pr_environment : has_text (xc_environment exact) ∧ bu_axle_environment b
    = AxleEnvironment (xc_environment exact) (lc_lean_version c) (lc_base_imports c) None None None;
  pr_imports : bu_proof_base_imports b = lc_proof_base_imports c;
  pr_resolved : ∃ package revision tree_digest, owner_source_tree_digest sha256_hex sources = Ok tree_digest ∧
    bu_resolved_sources b
    = [ResolvedSource package revision tree_digest (sha256_digest sha256_hex manifest_bytes)];
  pr_declarations : ∃ aliases, declaration_aliases c = Ok aliases ∧
    (∀ d, d ∈ xc_declarations exact →
       is_owned set_order aliases d = true ∨ sd_name d ∈ li_name <$> lc_proof_base_interface c) ∧
    Forall2 (ProjectedDeclaration c sources aliases)
      (filter (λ d, is_owned set_order aliases d = true) (xc_declarations exact)) (bu_declarations b);
  pr_proof_base : Forall2 (ProjectedInterface exact (li_name <$> lc_proof_base_interface c))
                    (lc_proof_base_interface c) (bu_proof_base_declarations b)
}.

Lemma projected_interface exact names i p : li_name i ∈ names →
  proof_base_identity names
    (dict_of ((λ d, (sd_name d, d)) <$> filter (λ d, sd_name d ∈ names) (xc_declarations exact))) i = Ok p →
  ProjectedInterface exact names i p.
Proof.
  intros Hi. unfold proof_base_identity. destruct (dget (li_name i) _) as [d|] eqn:E.
  - intros ->%check_proof_base_same. split; [done|left].
    apply dget_dict_of, list_elem_of_fmap in E as (d' & [= Hn ->] & [_ Hd]%list_elem_of_filter).
    exists d'. split_and!; try done. intros x.
    cbn [pb_local_dependencies]. rewrite elem_of_sort_by, list_elem_of_filter. naive_solver.
  - intros ->%check_proof_base_same. split; [done|right]. split_and!; try done.
    intros (d & Hn & Hd)%list_elem_of_fmap. apply dget_None in E. apply E.
    rewrite elem_of_dkeys_dict_of, <-list_fmap_compose. apply list_elem_of_fmap. exists d.
    split; [done|]. apply list_elem_of_filter. split; [by rewrite <-Hn|done].
Qed.

Lemma project_bundle_Ok c exact sources manifest_bytes manifest b :
  project_bundle sha256_hex set_order c exact sources manifest_bytes manifest = Ok b →
  Projected c exact sources manifest_bytes b.
Proof.
  unfold project_bundle. cbv zeta. intros H.
  apply bind_Ok in H as (tree & Htree & H). apply bind_Ok in H as (package & _ & H).
  apply bind_Ok in H as (resolved & ->%check_source_same & H).
  apply bind_Ok in H as (aliases & Haliases & H). apply require_bind in H as [Hclass H].
  apply bind_Ok in H as (base & Hbase%mapM_Ok & H). apply bind_Ok in H as (owned & Howned%mapM_Ok & H).
  apply bind_Ok in H as (declarations & Hdecls%mapM_Ok & H).
  apply bind_Ok in H as (environment & [-> Henv]%check_environment_same & H).
  apply check_bundle_Ok in H as [-> Hspec]. split; try done.
  - by eexists _, _, tree.
  - exists aliases. split; [done|]. split.
    + intros d Hd. apply bool_decide_eq_true, sort_by_nil in Hclass. rewrite filter_nil_iff in Hclass.
      assert (sd_name d ∈ sd_name <$> xc_declarations exact) as Hn by by apply list_elem_of_fmap_2.
      apply Hclass, dec_stable in Hn. rewrite fmap_app, elem_of_app, !list_elem_of_fmap in Hn.
      destruct Hn as [(d' & E & [H _]%list_elem_of_filter)|(d' & -> & [H _]%list_elem_of_filter)]; [|by right].
      left. unfold is_owned in *. by rewrite E.
    + cbn. clear Hspec. revert Howned Hdecls. generalize (filter (λ d, is_owned set_order aliases d = true) (xc_declarations exact)).
      intros l Hl. revert declarations. induction Hl as [|d e l k Hd _ IH]; intros ds Hds;
        inversion Hds; subst; constructor; [by eapply projected_declaration|by apply IH].
  - cbn. eapply Forall2_listed; [exact Hbase|]. intros i p Hi. apply projected_interface.
    by apply list_elem_of_fmap_2.
Qed.

(** ** Reading the manifest *)

Section build.
Context {X : Type}.
Context (decode_bytes : string → result Exn string) (json_float : string → string).

Lemma load_manifest_total bytes : is_Some (load_manifest decode_bytes json_float bytes).
Proof.
  unfold load_manifest. destruct (decode_bytes bytes) as [text|]; [|done].
  apply not_eq_None_Some, json_loads_total.
Qed.

(** The projection ends, changes nothing, and answers only bundles that the
    manifest of the package, the closures and the sources give. *)
Lemma build_bundle_spec c exact sources lean_root (w : ExportWorld X) :
  wp (build_independent_declaration_bundle sha256_hex set_order decode_bytes json_float c exact sources lean_root)
    (λ r w', w' = w ∧ match r with
       | Ok b => ∃ manifest_bytes, Projected c exact sources manifest_bytes b ∧
           ew_files w !! path_str (path_join lean_root (MkPath false ["lake-manifest.json"])) = Some manifest_bytes
       | Raise _ => True
       end) w.
Proof.
  unfold build_independent_declaration_bundle. cbv zeta. apply wp_bind, wp_except, wp_bind.
  unfold wp at 1, read_bytes. destruct (ew_files w !! _) as [bytes|] eqn:E; cbn [of_option]; [|done].
  apply wp_bind. destruct (load_manifest_total bytes) as [r Hr]. eapply wp_fueled; [exact Hr|].
  destruct r as [v|e]; [|done]. apply wp_ret. cbn [fst snd]. destruct v; try done.
  apply wp_lift. destruct (project_bundle _ _ _ _ _ _ _) as [b|] eqn:Eb; [|done]. split; [done|].
  exists bytes. split; [|done]. by eapply project_bundle_Ok.
Qed.
End build.
End facts.
