(* ===== verification/JsonIndent.v ===== *)
(** * Indented JSON texts ([json.dumps] with [indent=2])

    The writer with [indent=2], [sort_keys=True] and [ensure_ascii=False], and
    that the reader gets back what it wrote. *)

From Stdlib Require Import Ascii.
From S2P Require Import Prelude PyDict GraphTypes Receipts Text SchemeDatum Merkle EvidenceModel Sort Json JsonFacts.

(** A new line at a level of nesting. *)
Definition spaces (n : nat) : string := Nat.iter n (String " ") "".
Definition indent (level : nat) : string := String nl (spaces (2 * level)).

Definition separator (level : nat) : string := "," +:+ indent level.

Definition json_pair (m : string * string) : string := json_quote m.1 +:+ ": " +:+ m.2.

Fixpoint write_json_indent (v : Json) (level : nat) : string :=
  let block opening items closing :=
    opening +:+ indent (S level) +:+ str_join (separator (S level)) items
      +:+ indent level +:+ closing in
  match v with
  | JList [] => "[]"
  | JObj [] => "{}"
  | JList l => block "[" (map (λ v, write_json_indent v (S level)) l) "]"
  | JObj d => block "{" (json_pair <$> sort_by key_leb (map (λ '(k, v), (k, write_json_indent v (S level))) d)) "}"
  | v => write_json v
  end.

Example json_indent_text : write_json_indent (JObj [("b", JList []); ("a", JList [JInt 1; JObj []])]) 0
  = "{" +:+ newline +:+ "  " +:+ json_quote "a" +:+ ": [" +:+ newline +:+ "    1," +:+ newline +:+ "    {}"
    +:+ newline +:+ "  ]," +:+ newline +:+ "  " +:+ json_quote "b" +:+ ": []" +:+ newline +:+ "}".
Proof. vm_compute. reflexivity. Qed.

Lemma skip_ws_indent n s : skip_ws (indent n +:+ s) = skip_ws s.
Proof.
  unfold indent. rewrite sapp_cons. cbn [skip_ws]. change (is_ws nl) with true. cbv iota.
  unfold spaces. induction (2 * n)%nat as [|k IH]; [by rewrite sapp_nil_l|].
  cbn [Nat.iter nat_rect]. rewrite sapp_cons. cbn [skip_ws]. by change (is_ws " ") with true.
Qed.
Lemma value_end_indent n s : value_end (indent n +:+ s) = true.
Proof. done. Qed.

Section reader.
Context (float_repr : string → string) (hook : list (string * Json) → result Exn Json).
Context (Hhook : ∀ d, NoDup d.*1 → hook d = Ok (JObj d)).

(** [text] starts as a value and is read as [v], whatever follows. *)
Definition value_text (text : string) : Prop :=
  ∃ c t, text = String c t ∧ value_start c = true.
Definition reads_as (text : string) (v : Json) : Prop :=
  value_text text ∧ ∀ rest fuel, value_end rest = true →
    (2 * String.length (text +:+ rest) + 1 ≤ fuel)%nat →
    json_value float_repr hook fuel (text +:+ rest) = Some (Ok (v, rest)).

Lemma skip_ws_text text rest : value_text text → skip_ws (text +:+ rest) = text +:+ rest.
Proof.
  intros (c & t & -> & Hc). rewrite sapp_cons. cbn [skip_ws]. by destruct (value_start_facts c Hc) as [-> _].
Qed.
Lemma not_closing text rest : value_text text → starts_with_char "]" (text +:+ rest) = false.
Proof. intros (c & t & -> & Hc). rewrite sapp_cons. cbn [starts_with_char]. by apply value_start_facts. Qed.

(** An item or a member that is followed by a comma or by the closing bracket. *)
Lemma peek_separator n s : peek_char (skip_ws (separator n +:+ s)) = Ok (","%char, indent n +:+ s).
Proof. done. Qed.
Lemma peek_closing n c s : is_ws c = false → peek_char (skip_ws (indent n +:+ String c s)) = Ok (c, s).
Proof. intros H. rewrite skip_ws_indent. cbn [skip_ws]. by rewrite H. Qed.

Lemma elements_indent n m rest l : ∀ texts fuel items,
  Forall2 reads_as texts l → l ≠ [] →
  (2 * String.length (str_join (separator n) texts +:+ indent m +:+ String "]" rest) + 2 ≤ fuel)%nat →
  json_elements float_repr hook fuel items (str_join (separator n) texts +:+ indent m +:+ String "]" rest)
  = Some (Ok (JList (items ++ l), rest)).
Proof.
  induction l as [|v l IH]; intros [|text texts] fuel items Hl Hne Hf; try by inversion Hl.
  apply Forall2_cons in Hl as [[Ht Hv] Hl]. destruct fuel as [|fuel]; [lia|]. rewrite json_elements_S.
  destruct l as [|v2 l].
  - inversion Hl; subst. cbn [str_join] in *. rewrite Hv by (apply value_end_indent || lia).
    by rewrite peek_closing.
  - inversion Hl as [|text2 ? texts' ? H2 Hl']; subst. destruct H2 as [Ht2 H2].
    change (str_join (separator n) (text :: text2 :: texts'))
      with (text +:+ (separator n) +:+ str_join (separator n) (text2 :: texts')) in *.
    rewrite !sapp_assoc in *.
    rewrite Hv by (done || lia). 
    rewrite peek_separator. change (Ascii.eqb "," "]") with false. change (Ascii.eqb "," ",") with true. cbv iota.
    rewrite skip_ws_indent.
    assert (∃ t, str_join (separator n) (text2 :: texts') +:+ indent m +:+ String "]" rest = text2 +:+ t) as [t Et].
    { destruct texts'; [by eexists|]. eexists. cbn [str_join]. by rewrite !sapp_assoc. }
    rewrite Et, skip_ws_text, <-Et by done. rewrite IH; [by rewrite <-app_assoc|done|done|].
    rewrite !slen_app in *. change (separator n) with (String "," (indent n)) in *.
    cbn [String.length] in *. lia.
Qed.

Lemma members_indent n m rest (d : list (string * Json)) : ∀ texts fuel pairs,
  Forall2 (λ text m, ∃ t, text = json_pair (m.1, t) ∧ reads_as t m.2) texts d → d ≠ [] → NoDup (pairs ++ d).*1 →
  (2 * String.length (str_join (separator n) texts +:+ indent m +:+ String "}" rest) + 2 ≤ fuel)%nat →
  json_members float_repr hook fuel pairs (str_join (separator n) texts +:+ indent m +:+ String "}" rest)
  = Some (Ok (JObj (pairs ++ d), rest)).
Proof.
  assert (∀ k t rest, value_text t → read_key (json_pair (k, t) +:+ rest) = Ok (k, t +:+ rest)) as Hkey.
  { clear. intros k t rest Ht. unfold json_pair, json_quote. cbn [fst snd].
    rewrite !sapp_assoc, !sapp_cons, !sapp_assoc, !sapp_cons, !sapp_nil_l. unfold read_key.
    rewrite (proj2 (expect_char_Ok dq _ _) eq_refl). cbn [mbind result_bind]. rewrite json_chars_escape.
    cbn [mbind result_bind skip_ws]. change (is_ws ":"%char) with false. cbv iota.
    rewrite (proj2 (expect_char_Ok ":" _ _) eq_refl). cbn [mbind result_bind skip_ws].
    change (is_ws " "%char) with true. cbv iota. by rewrite skip_ws_text. }
  assert (∀ k t rest, String.length (t +:+ rest) + 2 ≤ String.length (json_pair (k, t) +:+ rest))%nat as Hlen.
  { clear. intros k t rest. unfold json_pair, json_quote. cbn [fst snd]. rewrite !slen_app. cbn [String.length].
    rewrite !slen_app. cbn [String.length]. lia. }
  induction d as [|[k v] d IH]; intros [|text texts] fuel pairs Hl Hne Hnd Hf; try by inversion Hl.
  apply Forall2_cons in Hl as [(t & -> & Ht & Hv) Hl]. cbn [fst snd] in *.
  destruct fuel as [|fuel]; [lia|]. rewrite json_members_S. destruct d as [|[k2 v2] d].
  - inversion Hl; subst. cbn [str_join] in *. rewrite Hkey by done.
    rewrite Hv by (apply value_end_indent || (pose proof (Hlen k t (indent m +:+ String "}" rest)); lia)).
    rewrite peek_closing by done. change (Ascii.eqb "}" "}") with true. cbv iota. by rewrite Hhook.
  - inversion Hl as [|text2 ? texts' ? H2 Hl']; subst. destruct H2 as (t2 & -> & H2). cbn [fst snd] in *.
    change (str_join (separator n) (json_pair (k, t) :: json_pair (k2, t2) :: texts'))
      with (json_pair (k, t) +:+ (separator n) +:+ str_join (separator n) (json_pair (k2, t2) :: texts')) in *.
    rewrite !sapp_assoc in *. set (tail := str_join (separator n) (json_pair (k2, t2) :: texts') +:+ _) in *.
    rewrite Hkey by done. rewrite Hv by (done || (pose proof (Hlen k t (separator n +:+ tail)); lia)).
    rewrite peek_separator. change (Ascii.eqb "," "}") with false.
    change (Ascii.eqb "," ",") with true. cbv iota. rewrite skip_ws_indent.
    assert (skip_ws tail = tail) as -> by (unfold tail; destruct texts'; done).
    unfold tail. rewrite IH; [by rewrite <-app_assoc|done|done|by rewrite <-app_assoc|].
    pose proof (Hlen k t (separator n +:+ tail)). fold tail.
    rewrite !slen_app in H, Hf. change (separator n) with (String "," (indent n)) in *.
    cbn [String.length] in *. lia.
Qed.

(** ** The round trip *)

Lemma write_json_indent_start v level : canonical float_repr v → value_text (write_json_indent v level).
Proof.
  intros Hv. destruct v as [| | | | |[]|[]]; try (by eexists _, _); apply (write_json_start float_repr _ Hv).
Qed.

Lemma sorted_pairs (f : Json → string) d : StronglySorted (ordered key_leb) d →
  sort_by key_leb (map (λ '(k, v), (k, f v)) d) = map (λ '(k, v), (k, f v)) d.
Proof.
  intros Hd. apply sort_by_idem. induction Hd as [|[k v] d Hd IH Hm]; simpl; constructor; [done|].
  apply Forall_map. eapply Forall_impl; [exact Hm|]. by intros [k' v'].
Qed.

Lemma indent_reads_back v : canonical float_repr v → ∀ level, reads_as (write_json_indent v level) v.
Proof.
  induction v as [|b|z|s|s|l IH|d IH] using json_ind; intros Hc level;
    (split; [by apply write_json_indent_start|intros rest fuel Hd Hf; destruct fuel as [|fuel]; [lia|]]).
  - by destruct rest.
  - by destruct b, rest.
  - cbn [write_json_indent write_json] in *. pose proof (read_atom_int float_repr z rest Hd) as Hz.
    destruct (str_of_Z_head z) as (c & t & E & _ & H1 & H2 & H3). rewrite E, sapp_cons in *.
    rewrite json_value_S. by rewrite H1, H2, H3, Hz.
  - assert (float_text float_repr s) as [(c & t & E & _ & H1 & H2 & H3) Hs] by by inversion Hc.
    cbn [write_json_indent write_json] in *. specialize (Hs rest Hd). rewrite E, sapp_cons in *.
    rewrite json_value_S. by rewrite H1, H2, H3, Hs.
  - cbn [write_json_indent write_json]. unfold json_quote. rewrite sapp_cons, sapp_assoc, sapp_cons, sapp_nil_l.
    rewrite json_value_S. change (Ascii.eqb dq dq) with true. cbv iota. by rewrite json_chars_escape.
  - assert (Forall (canonical float_repr) l) as Hl by by inversion Hc.
    destruct l as [|v l]; [done|]. cbn [write_json_indent] in *.
    rewrite !sapp_assoc, !sapp_cons, !sapp_nil_l in *. rewrite json_value_S.
    change (Ascii.eqb "[" dq) with false. change (Ascii.eqb "[" "{") with false.
    change (Ascii.eqb "[" "[") with true. cbv iota zeta. rewrite skip_ws_indent.
    set (texts := map (λ v, write_json_indent v (S level)) (v :: l)) in *.
    assert (Forall2 reads_as texts (v :: l)) as Ht.
    { unfold texts. clear -IH Hl. induction IH as [|x xs Hx _ IHk]; [constructor|].
      apply Forall_cons in Hl as [? ?]. constructor; [by apply Hx|by apply IHk]. }
    set (text := str_join _ texts +:+ _) in *.
    assert (∃ t, text = write_json_indent v (S level) +:+ t) as [t Et].
    { unfold text, texts. destruct l; [by eexists|]. cbn [map str_join]. rewrite !sapp_assoc. by eexists. }
    pose proof (write_json_indent_start v (S level) (Forall_inv Hl)) as Hv.
    rewrite Et, skip_ws_text, not_closing, <-Et by done. unfold text in *.
    rewrite (elements_indent _ _ _ (v :: l)) by (done || (cbn [String.length] in *; rewrite !slen_app in *; cbn [String.length] in *; lia)).
    done.
  - inversion Hc as [| | | | | |? Hnd Hs Hl]; subst. destruct d as [|[k v] d].
    { cbn [write_json_indent]. rewrite sapp_cons, json_value_S. cbn. by rewrite (Hhook []). }
    cbn [write_json_indent] in *. rewrite (sorted_pairs (λ v, write_json_indent v (S level))) in * by done.
    rewrite !sapp_assoc, !sapp_cons, !sapp_nil_l in *. rewrite json_value_S.
    change (Ascii.eqb "{" dq) with false. change (Ascii.eqb "{" "{") with true. cbv iota zeta.
    rewrite skip_ws_indent. set (members := (k, v) :: d) in *.
    set (texts := json_pair <$> map (λ '(k, v), (k, write_json_indent v (S level))) members) in *.
    assert (Forall2 (λ text m, ∃ t, text = json_pair (m.1, t) ∧ reads_as t m.2) texts members) as Ht.
    { unfold texts. clear -IH Hl. induction IH as [|[a x] ms Hx _ IHk]; [constructor|].
      apply Forall_cons in Hl as [? ?]. constructor; [|by apply IHk]. eexists. split; [done|]. by apply Hx. }
    set (text := str_join _ texts +:+ _) in *.
    assert (∃ t, text = String dq t) as [t Et].
    { unfold text, texts, members. destruct d as [|[? ?] ?]; by eexists. }
    assert (skip_ws text = text) as -> by by rewrite Et.
    assert (starts_with_char "}" text = false) as -> by by rewrite Et.
    unfold text in *.
    rewrite (members_indent _ _ _ members) by (done || (cbn [String.length] in *; rewrite !slen_app in *; cbn [String.length] in *; lia)).
    done.
Qed.

(** The members that are written do not depend on the order they are listed in. *)
Lemma sorted_written (f : Json → string) (d : list (string * Json)) :
  (∀ m, m ∈ d → f (tidy m.2) = f m.2) →
  sort_by key_leb (map (λ '(k, v), (k, f v)) (sort_by key_leb (map (λ '(k, v), (k, tidy v)) d)))
  = sort_by key_leb (map (λ '(k, v), (k, f v)) d).
Proof.
  intros Hf. rewrite !(sort_by_map key_leb key_leb (λ '(k, v), (k, f v))) by (by intros [] []).
  rewrite sort_by_idem by apply key_sorted.
  rewrite (sort_by_map key_leb key_leb (λ '(k, v), (k, tidy v))) by (by intros [] []).
  rewrite map_map. apply map_ext_in. intros [k v] Hin. f_equal. apply (Hf (k, v)).
  by rewrite <-(elem_of_sort_by key_leb), list_elem_of_In.
Qed.

Lemma write_json_indent_tidy v : ∀ level, write_json_indent (tidy v) level = write_json_indent v level.
Proof.
  induction v as [|b|z|s|s|l IH|d IH] using json_ind; intros level; try done; rewrite Forall_forall in IH.
  - destruct l as [|v l]; [done|]. cbn [tidy map write_json_indent]. rewrite map_map, (IH v) by left.
    rewrite (map_ext_in _ (λ v, write_json_indent v (S level)) l); [done|].
    intros x Hx. apply IH. right. by apply list_elem_of_In.
  - destruct d as [|m d]; [done|]. pose proof (sorted_written (λ v, write_json_indent v (S level)) (m :: d)
      (λ m Hm, IH m Hm (S level))) as H.
    cbn [tidy]. remember (sort_by key_leb (map (λ '(k, v), (k, tidy v)) (m :: d))) as sorted eqn:E.
    destruct sorted as [|x sorted]; [by symmetry in E; apply sort_by_nil in E|].
    cbn [write_json_indent]. by rewrite H.
Qed.

(** [json.loads] reads what [json.dumps] wrote, up to the order of the members. *)
Lemma json_loads_indent v : well_formed float_repr v →
  json_loads float_repr hook (write_json_indent v 0 +:+ newline) = Some (Ok (tidy v)).
Proof.
  intros Hv%tidy_canonical. rewrite <-write_json_indent_tidy. unfold json_loads.
  destruct (indent_reads_back _ Hv 0%nat) as [Ht H].
  rewrite skip_ws_text by done. rewrite H by (done || lia). done.
Qed.
End reader.

(** * Which texts are Unicode

    A text is encoded only when it is Unicode; that of a value is when its
    strings are. *)

Definition is_ascii (c : ascii) : bool := (nat_of_ascii c <? 128)%nat.

(** The bytes still to come are not ASCII. *)
Definition high (awaited : list (nat * nat)) : Prop := Forall (λ r, 128 ≤ r.1)%nat awaited.

Lemma utf8_run_app s t : ∀ awaited, utf8_run awaited (s +:+ t) = (a ← utf8_run awaited s; utf8_run a t).
Proof.
  induction s as [|c s IH]; intros awaited; [done|]. rewrite sapp_cons. cbn [utf8_run].
  destruct (utf8_step awaited c) as [a|]; cbn [mbind option_bind]; [apply IH|done].
Qed.

Lemma utf8_step_high awaited c a : high awaited → utf8_step awaited c = Some a → high a.
Proof.
  unfold utf8_step. cbv zeta. destruct awaited as [|[low hi] awaited]; intros Ha.
  - unfold utf8_awaits. cbv zeta.
    repeat match goal with |- context [if ?b then _ else _] => destruct b end; intros [= <-];
      repeat constructor; cbn; lia.
  - apply Forall_cons in Ha as [_ Ha]. case_match; [|done]. by intros [= <-].
Qed.
Lemma utf8_step_ascii awaited c : high awaited → is_ascii c = true →
  utf8_step awaited c = match awaited with [] => Some [] | _ => None end.
Proof.
  unfold is_ascii, utf8_step. cbv zeta. intros Ha Hc.
  destruct awaited as [|[low hi] awaited]; [unfold utf8_awaits; by rewrite Hc|].
  apply Forall_cons in Ha as [Hl _]. cbn [fst] in Hl. apply Nat.ltb_lt in Hc.
  assert ((low <=? nat_of_ascii c)%nat = false) as -> by (apply Nat.leb_gt; lia). done.
Qed.
Lemma utf8_run_high s : ∀ awaited a, high awaited → utf8_run awaited s = Some a → high a.
Proof.
  induction s as [|c s IH]; intros awaited a Ha; cbn [utf8_run]; [by intros [= <-]|].
  destruct (utf8_step awaited c) as [b|] eqn:E; cbn [mbind option_bind]; [|done].
  apply IH. by eapply utf8_step_high.
Qed.
Lemma utf8_run_ascii s awaited : high awaited → sforall is_ascii s = true → s ≠ "" →
  utf8_run awaited s = match awaited with [] => Some [] | _ => None end.
Proof.
  revert awaited. induction s as [|c s IH]; intros awaited Ha Hs Hne; [done|].
  apply sforall_cons in Hs as [Hc Hs]. cbn [utf8_run]. rewrite utf8_step_ascii by done.
  destruct awaited as [|r awaited]; [|done]. cbn [mbind option_bind].
  destruct (decide (s = "")) as [->|Hs']; [done|]. by apply IH.
Qed.

Lemma utf8_valid_spec s : utf8_valid s = true ↔ utf8_run [] s = Some [].
Proof. apply bool_decide_eq_true. Qed.
(** ASCII separates texts. *)
Lemma utf8_valid_between s a t : sforall is_ascii a = true → a ≠ "" →
  utf8_valid (s +:+ a +:+ t) = true ↔ utf8_valid s = true ∧ utf8_valid t = true.
Proof.
  intros Ha Hne. rewrite !utf8_valid_spec, !utf8_run_app.
  destruct (utf8_run [] s) as [b|] eqn:E; cbn [mbind option_bind]; [|naive_solver].
  rewrite utf8_run_app, utf8_run_ascii by (done || (eapply utf8_run_high; [|exact E]; constructor)).
  destruct b; cbn [mbind option_bind]; naive_solver.
Qed.
Lemma utf8_valid_before a t : sforall is_ascii a = true → utf8_valid (a +:+ t) = true ↔ utf8_valid t = true.
Proof.
  intros Ha. destruct (decide (a = "")) as [->|Hne]; [by rewrite sapp_nil_l|].
  rewrite <-(sapp_nil_l (a +:+ t)), utf8_valid_between by done. split; [by intros []|]. by split.
Qed.
Lemma utf8_valid_after s a : sforall is_ascii a = true → utf8_valid (s +:+ a) = true ↔ utf8_valid s = true.
Proof.
  intros Ha. destruct (decide (a = "")) as [->|Hne]; [by rewrite sapp_nil_r|].
  rewrite <-(sapp_nil_r a), utf8_valid_between by done. split; [by intros []|]. by split.
Qed.
Lemma utf8_valid_ascii a : sforall is_ascii a = true → utf8_valid a = true.
Proof. intros Ha. rewrite <-(sapp_nil_r a). by apply utf8_valid_before. Qed.

(** An escaped string. *)
Lemma escape_char_run c awaited : high awaited → utf8_run awaited (json_escape_char c) = utf8_step awaited c.
Proof.
  intros Ha. destruct (is_ascii c) eqn:Hc.
  - rewrite utf8_step_ascii by done. apply utf8_run_ascii; [done| |];
      revert Hc; clear; destruct c as [[] [] [] [] [] [] [] []]; done.
  - assert (json_escape_char c = String c "") as ->.
    { revert Hc. clear. destruct c as [[] [] [] [] [] [] [] []]; intros H; solve [discriminate H|done]. }
    cbn [utf8_run]. by destruct (utf8_step awaited c).
Qed.
Lemma escape_run s : ∀ awaited, high awaited → utf8_run awaited (json_escape s) = utf8_run awaited s.
Proof.
  induction s as [|c s IH]; intros awaited Ha; [done|]. cbn [json_escape utf8_run].
  rewrite utf8_run_app, escape_char_run by done. destruct (utf8_step awaited c) as [b|] eqn:E; [|done].
  cbn [mbind option_bind]. apply IH. by eapply utf8_step_high.
Qed.
Lemma json_quote_utf8 s : utf8_valid (json_quote s) = true ↔ utf8_valid s = true.
Proof.
  unfold json_quote. change (String dq (json_escape s +:+ String dq "")) with (String dq "" +:+ (json_escape s +:+ String dq "")).
  rewrite utf8_valid_before, utf8_valid_after by done. rewrite !utf8_valid_spec, escape_run by constructor. done.
Qed.

(** ** The strings of a value *)

Fixpoint json_strings (v : Json) : list string :=
  match v with
  | JStr s | JFloat s => [s]
  | JList l => flat_map json_strings l
  | JObj d => flat_map (λ '(k, v), k :: json_strings v) d
  | _ => []
  end.
Definition json_utf8 (v : Json) : Prop := Forall (λ s, utf8_valid s = true) (json_strings v).

Lemma join_utf8 sep l : sforall is_ascii sep = true → sep ≠ "" →
  utf8_valid (str_join sep l) = true ↔ Forall (λ s, utf8_valid s = true) l.
Proof.
  intros Hs Hne. induction l as [|s [|t l] IH].
  - split; [constructor|done].
  - rewrite Forall_singleton. done.
  - change (str_join sep (s :: t :: l)) with (s +:+ sep +:+ str_join sep (t :: l)).
    rewrite utf8_valid_between, IH, (Forall_cons _ s) by done. done.
Qed.
Lemma flat_map_Forall {A} (f : A → list string) (P : string → Prop) l :
  Forall P (flat_map f l) ↔ Forall (λ x, Forall P (f x)) l.
Proof.
  induction l as [|x l IH]; cbn [flat_map]; [by rewrite !Forall_nil|]. by rewrite Forall_app, Forall_cons, IH.
Qed.
Lemma Forall_ext {A} (P Q : A → Prop) l : (∀ x, x ∈ l → P x ↔ Q x) → Forall P l ↔ Forall Q l.
Proof. rewrite !Forall_forall. naive_solver. Qed.

(** A writer that puts ASCII around the texts of the members. *)
Lemma members_utf8 (f : Json → string) (colon : string) (d : list (string * Json)) :
  sforall is_ascii colon = true → colon ≠ "" →
  (∀ m, m ∈ d → utf8_valid (f m.2) = true ↔ json_utf8 m.2) →
  Forall (λ s, utf8_valid s = true)
    ((λ m, json_quote m.1 +:+ colon +:+ m.2) <$> sort_by key_leb (map (λ '(k, v), (k, f v)) d))
  ↔ json_utf8 (JObj d).
Proof.
  intros Hc Hne Hf. rewrite Forall_fmap. unfold compose.
  rewrite (sort_by_perm key_leb), Forall_map. unfold json_utf8. cbn [json_strings].
  rewrite flat_map_Forall. apply Forall_ext. intros [k v] Hm. cbn [fst snd].
  rewrite utf8_valid_between, json_quote_utf8, Forall_cons by done. by rewrite (Hf (k, v) Hm).
Qed.
Lemma elements_utf8 (f : Json → string) (l : list Json) :
  (∀ v, v ∈ l → utf8_valid (f v) = true ↔ json_utf8 v) →
  Forall (λ s, utf8_valid s = true) (map f l) ↔ json_utf8 (JList l).
Proof.
  intros Hf. rewrite Forall_map. unfold json_utf8. cbn [json_strings]. rewrite flat_map_Forall. by apply Forall_ext.
Qed.

Lemma str_of_Z_ascii z : sforall is_ascii (str_of_Z z) = true.
Proof.
  assert (∀ p, sforall is_ascii (str_of_Z (Zpos p)) = true) as Hp.
  { intros p. pose proof (str_of_pos_digits p) as H. revert H. generalize (str_of_Z (Zpos p)). clear.
    induction s as [|c s IH]; [done|]. intros [Hc Hs]%sforall_cons. apply sforall_cons. split; [|by apply IH].
    revert Hc. destruct c as [[] [] [] [] [] [] [] []]; intros H; solve [discriminate H|done]. }
  destruct z as [|p|p]; [done|apply Hp|]. apply sforall_cons. split; [done|apply Hp].
Qed.

Lemma write_json_utf8 v : utf8_valid (write_json v) = true ↔ json_utf8 v.
Proof.
  induction v as [|b|z|s|s|l IH|d IH] using json_ind; try rewrite Forall_forall in IH.
  - split; [constructor|done].
  - split; [constructor|by destruct b].
  - split; [constructor|]. intros _. apply utf8_valid_ascii, str_of_Z_ascii.
  - unfold json_utf8. cbn [json_strings write_json]. by rewrite Forall_singleton.
  - unfold json_utf8. cbn [json_strings write_json]. by rewrite Forall_singleton, json_quote_utf8.
  - cbn [write_json]. rewrite utf8_valid_before, utf8_valid_after, join_utf8 by done. by apply elements_utf8.
  - cbn [write_json]. rewrite utf8_valid_before, utf8_valid_after, join_utf8 by done.
    exact (members_utf8 write_json ":" d eq_refl ltac:(done) IH).
Qed.

Lemma indent_ascii n : sforall is_ascii (indent n) = true.
Proof.
  apply sforall_cons. split; [done|]. unfold spaces. induction (2 * n)%nat as [|k IH]; [done|].
  cbn [Nat.iter nat_rect]. by apply sforall_cons.
Qed.
Lemma separator_ascii n : sforall is_ascii (separator n) = true.
Proof. apply sforall_cons. split; [done|apply indent_ascii]. Qed.

Lemma write_json_indent_utf8 v : ∀ level, utf8_valid (write_json_indent v level) = true ↔ json_utf8 v.
Proof.
  induction v as [|b|z|s|s|l IH|d IH] using json_ind; intros level; try apply write_json_utf8;
    rewrite Forall_forall in IH.
  - destruct l as [|v l]; [apply (write_json_utf8 (JList []))|]. cbn [write_json_indent].
    rewrite utf8_valid_before, utf8_valid_before, utf8_valid_between, join_utf8
      by (done || apply indent_ascii || apply separator_ascii).
    rewrite (elements_utf8 (λ v, write_json_indent v (S level)) (v :: l)) by (intros; by apply IH).
    split; [by intros []|done].
  - destruct d as [|m d]; [apply (write_json_utf8 (JObj []))|]. cbn [write_json_indent].
    rewrite utf8_valid_before, utf8_valid_before, utf8_valid_between, join_utf8
      by (done || apply indent_ascii || apply separator_ascii).
    rewrite (members_utf8 (λ v, write_json_indent v (S level)) ": " (m :: d)) by (done || (intros; by apply IH)).
    split; [by intros []|done].
Qed.
