(* ===== verification/ClosureVerify.v ===== *)
(** * The verification of a closure ([axle_closure_verify.py])

    (In [src/packages/proofs/python/src/poo_flow_proof/].)  One run exports the
    closure of a root from Lean, resolves the sources of its owner modules,
    builds the exact closure with AXLE, projects the bundle and writes all of it
    to one artifact.  [LiveAxleClosureReceiptAuthorityV1]
    ([axle_receipt_authority.py]) repeats such a run for a declared receipt.
    The deadline of a run ends the call in flight, which then raises
    [CancelledError]. *)

From Stdlib Require Import Ascii.
From stdpp Require Import gmap strings.
From S2P Require Import Prelude PyDict GraphTypes Receipts Text SchemeDatum Merkle EvidenceModel Sort ReceiptGraph ReceiptGraphFacts ReceiptGraphTheorems Json JsonFacts ReceiptAudit AxleAuthority IndependentBundle IndependentBundleFacts Refinement LeanClosure LeanClosureFacts LeanOwnerOrder SourceText ExactClosure Effects ExactBuild ExactBuildFacts LeanExport LeanExportFacts BundleProjection JsonIndent.

Definition RECEIPT_SCHEMA_ID : string := "poo-flow.axle-closure-preflight.v1".

(** What the command line says. *)
Record VerifyArguments (Float : Type) : Type := MkVerifyArguments {
  va_paths : list Path;
  va_environment : string;
  va_lean_root : Path;
  va_root_module : string;
  va_root_declarations : list string;
  va_base_imports : list string;
  va_closure_output : option Path;
  va_proof_base_imports : list string;
  va_lean_export_timeout_seconds : Float;
  va_axle_operation_timeout_seconds : Float;
  va_axle_base_timeout_seconds : Float
}.
Arguments MkVerifyArguments {Float}.
Arguments va_paths {Float}. Arguments va_environment {Float}. Arguments va_lean_root {Float}.
Arguments va_root_module {Float}. Arguments va_root_declarations {Float}. Arguments va_base_imports {Float}.
Arguments va_closure_output {Float}. Arguments va_proof_base_imports {Float}.
Arguments va_lean_export_timeout_seconds {Float}. Arguments va_axle_operation_timeout_seconds {Float}.
Arguments va_axle_base_timeout_seconds {Float}.

(** ** The checks *)

Definition environment_version (environment : string) : option string :=
  if String.prefix "lean-" environment then Some (removeprefix "lean-" environment) else None.
Definition verify_environment (c : LeanDeclarationClosure) (environment : string) : result Exn unit :=
  match environment_version environment with
  | Some expected =>
      require (bool_decide (expected = lc_lean_version c))
        (LeanClosureError "axle-environment-toolchain-mismatch"
           (environment +:+ " != Lean " +:+ lc_lean_version c))
  | None => Ok ()
  end.

(** [set(a) == set(b)]. *)
Definition same_paths (a b : list Path) : bool :=
  forallb (λ p, bool_decide (p ∈ b)) a && forallb (λ p, bool_decide (p ∈ a)) b.

Section verify.
Context {X Float : Type}.
Context (runner : list string → string → option Float → gmap string string * X →
                  (gmap string string * X) * result Exn CompletedProcess).
Context (monotonic : X → X * Float) (fadd fsub : Float → Float → Float).
Context (nonpositive : Float → bool) (valid_timeout : Float → bool) (elapsed_ms : Float → Float → Z).
(** [repr], [str], the format [:g] and the JSON text of a float. *)
Context (float_repr float_str float_g float_json : Float → string).
Context (json_float : string → string) (decode_bytes : string → result Exn string).
Context (sha256 sha256_hex : string → string) (pid : Z).
Context (resolve : Path → Path) (is_dir : Path → bool) (type_name : Exn → string).
Notation World := (ExportWorld X).
Notation E := (Eff World).
Context (read_text : string → World → World * result Exn string).
Context (set_order : list string → list string).
Context (new_client : Float → AxleClient World Float).
(** [print] to standard output and to standard error. *)
Context (print_out print_err : string → X → X * result Exn unit).

Definition verify_paths (provided : list Path) (sources : list LeanOwnerSource) : result Exn (list Path) :=
  let expected := (λ s, resolve (path_of (ow_path s))) <$> sources in
  if bool_decide (provided = []) then Ok expected
  else
    let actual := resolve <$> provided in
    _ ← require (same_paths actual expected && (length actual =? length expected)%nat)
          (LeanClosureError "axle-source-set-mismatch"
             ("expected=" +:+ str_join "," (path_str <$> expected) +:+ ";actual="
              +:+ str_join "," (path_str <$> actual)));
    let order := dict_of (imap (λ i p, (p, i)) expected) in
    Ok (sort_by (λ p q, default 0%nat (dget p order) <=? default 0%nat (dget q order))%nat actual).

Definition owner_source_record (s : LeanOwnerSource) : Json :=
  JObj [("module", JStr (ow_module s)); ("owner_path", JStr (ow_owner_path s));
        ("source_digest", JStr (ow_source_digest s))].
Definition preflight_receipt (c : LeanDeclarationClosure) (sources : list LeanOwnerSource)
    (args : VerifyArguments Float) : result Exn Json :=
  digest ← closure_digest sha256_hex c;
  Ok (JObj [("axle_environment", JStr (va_environment args));
            ("axle_base_timeout_seconds", JFloat (float_json (va_axle_base_timeout_seconds args)));
            ("axle_operation_timeout_seconds", JFloat (float_json (va_axle_operation_timeout_seconds args)));
            ("lean_export_timeout_seconds", JFloat (float_json (va_lean_export_timeout_seconds args)));
            ("proof_base_imports", texts (lc_proof_base_imports c));
            ("proof_base_interface_count", JInt (Z.of_nat (length (lc_proof_base_interface c))));
            ("closure_digest", JStr digest);
            ("declaration_count", JInt (Z.of_nat (length (lc_declarations c))));
            ("owner_sources", JList (owner_source_record <$> sources));
            ("root_declarations", texts (lc_root_declarations c));
            ("root_module", JStr (lc_root_module c)); ("schema_id", JStr RECEIPT_SCHEMA_ID)]).

(** ** Effects *)

(** [json.dumps(receipt, ...)] of the compact form, printed. *)
Definition print (printer : string → X → X * result Exn unit) (v : Json) : E unit := λ w,
  let '(x, r) := printer (write_json v +:+ newline) (ew_rest w) in
  Some (MkExportWorld (ew_files w) x (ew_batch w) (ew_commands w), r).
(** [_observe_phase], for the exporter and for AXLE. *)
Definition observe_phase (receipt : Json) (x : X) : X * result Exn unit :=
  print_err (write_json receipt +:+ newline) x.
Definition observe_axle_phase (receipt : Json) (w : World) : World * result Exn unit :=
  let '(x, r) := observe_phase receipt (ew_rest w) in
  (MkExportWorld (ew_files w) x (ew_batch w) (ew_commands w), r).
Definition clock (w : World) : World * Float :=
  let '(x, t) := monotonic (ew_rest w) in (MkExportWorld (ew_files w) x (ew_batch w) (ew_commands w), t).

(** [path.write_text(text)]: the file is emptied before the text is encoded. *)
Definition write_text (p : Path) (text : string) : E unit :=
  _ ← update_files (<[path_str p := ""]>);
  bytes ← lift (encode_utf8 text);
  update_files (<[path_str p := bytes]>).
(** What is written when an output is asked for. *)
Definition write_artifact (output : option Path) (artifact : Json) : E unit :=
  match output with
  | None => ret tt
  | Some p => write_text p (write_json_indent artifact 0 +:+ newline)
  end.

Definition is_deadline (e : Exn) : bool :=
  match e with PyError cls _ => bool_decide (cls ∈ ["TimeoutError"; "CancelledError"]) | _ => false end.
(** [_build_exact_axle_closure_with_deadline]. *)
Definition build_with_deadline (c : LeanDeclarationClosure) (sources : list LeanOwnerSource)
    (environment : string) (operation_timeout_seconds base_timeout_seconds : Float) : E ExactAxleClosure :=
  except (build_exact_axle_closure clock elapsed_ms type_name read_text nonpositive float_str sha256_hex
            set_order new_client None c sources environment operation_timeout_seconds base_timeout_seconds
            (Some observe_axle_phase))
    (λ e, if is_deadline e
          then raise (LeanClosureError "axle-operation-deadline-exceeded"
                 ("AXLE verification exceeded the configured "
                  +:+ float_g (fadd operation_timeout_seconds base_timeout_seconds) +:+ "-second deadline"))
          else raise e).

(** ** A run *)

(** The two artifacts and what is printed last. *)
Definition preflight_artifact (c : LeanDeclarationClosure) (receipt : Json) : Json :=
  JObj [("closure", closure_manifest c); ("preflight", receipt)].
Definition verification_artifact (c : LeanDeclarationClosure) (receipt : Json) (exact : ExactAxleClosure)
    (b : IndependentDeclarationBundle) : result Exn Json :=
  exact_bundle ← exact_manifest sha256_hex exact;
  exact_digest ← exact_bundle_digest sha256_hex exact;
  independent ← canonical_manifest sha256_hex b;
  independent_digest ← bundle_digest sha256_hex b;
  Ok (JObj [("closure", closure_manifest c); ("preflight", receipt); ("exact_bundle", JObj exact_bundle);
            ("exact_bundle_digest", JStr exact_digest); ("independent_declaration_bundle", independent);
            ("independent_declaration_bundle_digest", JStr independent_digest)]).
Definition verification_summary (exact : ExactAxleClosure) (b : IndependentDeclarationBundle) :
    result Exn Json :=
  exact_digest ← exact_bundle_digest sha256_hex exact;
  source_digest ← ExactBuild.canonical_source_digest sha256_hex exact;
  independent_digest ← bundle_digest sha256_hex b;
  Ok (JObj [("schema_id", JStr (xc_schema_id exact)); ("bundle_digest", JStr exact_digest);
            ("canonical_source_digest", JStr source_digest);
            ("environment_declaration_count", JInt (Z.of_nat (length (xc_declarations exact))));
            ("proof_base_declaration_count", JInt (Z.of_nat (length (bu_proof_base_declarations b))));
            ("source_declaration_count", JInt (Z.of_nat (length (bu_declarations b))));
            ("root_declarations", texts (xc_root_declarations exact));
            ("independent_declaration_bundle_digest", JStr independent_digest);
            ("verification", JObj (xc_verification exact))]).

(** What the exporter is asked for. *)
Definition verify_request (args : VerifyArguments Float) : LeanDeclarationClosureRequest :=
  MkRequest (va_root_module args) (va_root_declarations args) ("Init" :: va_base_imports args)
    (va_proof_base_imports args).

(** [run]. *)
Definition verify_closure (args : VerifyArguments Float) : E Z :=
  c ← export_declaration_closure runner true monotonic fadd fsub nonpositive valid_timeout elapsed_ms
        float_repr float_g json_float sha256 sha256_hex pid (Some observe_phase) (va_lean_root args)
        (verify_request args) (va_lean_export_timeout_seconds args) false None None;
  _ ← lift (verify_environment c (va_environment args));
  sources ← resolve_owner_sources runner sha256_hex resolve is_dir c (va_lean_root args);
  _ ← lift (verify_paths (va_paths args) sources);
  receipt ← lift (preflight_receipt c sources args);
  _ ← write_artifact (va_closure_output args) (preflight_artifact c receipt);
  _ ← print print_out receipt;
  exact ← build_with_deadline c sources (va_environment args) (va_axle_operation_timeout_seconds args)
            (va_axle_base_timeout_seconds args);
  b ← build_independent_declaration_bundle sha256_hex set_order decode_bytes json_float c exact sources
        (va_lean_root args);
  artifact ← lift (verification_artifact c receipt exact b);
  _ ← write_artifact (va_closure_output args) artifact;
  summary ← lift (verification_summary exact b);
  _ ← print print_out summary;
  ret 0.
End verify.

(** ** The live authority *)

Section live.
Context {X Float : Type}.
Context (runner : list string → string → option Float → gmap string string * X →
                  (gmap string string * X) * result Exn CompletedProcess).
Context (monotonic : X → X * Float) (fadd fsub : Float → Float → Float).
Context (nonpositive : Float → bool) (valid_timeout : Float → bool) (elapsed_ms : Float → Float → Z).
Context (float_repr float_str float_g float_json : Float → string).
Context (json_float : string → string) (decode_bytes : string → result Exn string).
Context (sha256 sha256_hex : string → string) (pid : Z).
Context (resolve : Path → Path) (is_dir : Path → bool) (type_name : Exn → string).
Notation World := (ExportWorld X).
Notation E := (Eff World).
Context (read_text : string → World → World * result Exn string).
Context (set_order : list string → list string).
Context (new_client : Float → AxleClient World Float).
(** [tempfile.mkdtemp]. *)
Context (temporary_directory : X → X * Path).

Record LiveAuthority : Type := MkLiveAuthority {
  la_lean_root : Path;
  la_lean_export_timeout_seconds : Float;
  la_axle_operation_timeout_seconds : Float;
  la_axle_base_timeout_seconds : Float
}.

(** What is printed goes to a [StringIO]. *)
Definition captured (_ : string) (x : X) : X * result Exn unit := (x, Ok tt).

Definition request_arguments (a : LiveAuthority) (request : AxleClosureVerificationRequestV1) (output : Path) :
    VerifyArguments Float :=
  MkVerifyArguments [] (AxleAuthority.rq_environment request) (la_lean_root a)
    (AxleAuthority.rq_root_module request) (AxleAuthority.rq_root_declarations request)
    (AxleAuthority.rq_base_imports request) (Some output) (AxleAuthority.rq_proof_base_imports request)
    (la_lean_export_timeout_seconds a) (la_axle_operation_timeout_seconds a) (la_axle_base_timeout_seconds a).

(** [with TemporaryDirectory() as temporary_directory: ...]; of the files of the
    directory only [closure.json] is written. *)
Definition with_temporary_directory {A} (body : Path → E A) : E A :=
  directory ← (λ w : World, let '(x, p) := temporary_directory (ew_rest w) in
                 Some (MkExportWorld (ew_files w) x (ew_batch w) (ew_commands w), Ok p));
  let output := path_join directory (MkPath false ["closure.json"]) in
  finally (body output) (update_files (delete (path_str output))).

(** [_reverify]; a run answers zero or raises, and the text of the error for
    another answer leaves out the digest of what was printed. *)
Definition live_reverify (a : LiveAuthority) (request : AxleClosureVerificationRequestV1) : E string :=
  with_temporary_directory (λ output,
    code ← verify_closure runner monotonic fadd fsub nonpositive valid_timeout elapsed_ms float_repr float_str
             float_g float_json json_float decode_bytes sha256 sha256_hex pid resolve is_dir type_name read_text
             set_order new_client captured captured (request_arguments a request output);
    _ ← lift (require (code =? 0)
          (AuthorityError "axle-owner-reverification-failed"
             ("AXLE closure verification returned " +:+ str_of_Z code)));
    present ← is_file output;
    _ ← lift (require present
          (AuthorityError "axle-owner-receipt-missing" "AXLE closure verification did not emit its artifact"));
    read_bytes output).

(** [validate], which runs [AxleClosureReceiptAuthorityV1.validate] with
    [_reverify]. *)
Definition live_validate (a : LiveAuthority) (declared : DeclaredReceiptEvidenceV1) :
    E AuthorityVerifiedReceiptEvidenceV1 :=
  if bool_decide (dr_engine_identity declared = AXLE_RECEIPT_ENGINE_IDENTITY_V1) then
    claimed ← fueled (parse_axle sha256_hex json_float (dr_canonical_receipt_bytes declared) true);
    fresh_bytes ← live_reverify a (ax_request claimed);
    fresh ← fueled (parse_axle sha256_hex json_float fresh_bytes false);
    lift (axle_accept sha256_hex declared claimed fresh)
  else raise (AuthorityError "wrong-receipt-authority" ("expected " +:+ AXLE_RECEIPT_ENGINE_IDENTITY_V1)).
End live.

(** * What a run establishes *)

Lemma verify_environment_Ok c environment u : verify_environment c environment = Ok u →
  ∀ version, environment = "lean-" +:+ version → version = lc_lean_version c.
Proof.
  unfold verify_environment, environment_version. intros H version ->.
  assert (∀ s t : string, String.prefix s (s +:+ t) = true) as Hp.
  { clear. induction s as [|a s IH]; intros t; [by destruct t|]. rewrite sapp_cons. cbn.
    destruct (ascii_dec a a); [apply IH|done]. }
  rewrite Hp in H. unfold removeprefix in H. rewrite Hp in H. apply require_Ok, bool_decide_eq_true in H.
  rewrite <-H. clear. induction ("lean-") as [|a s IH]; [by destruct version|]. done.
Qed.

Section facts.
Context {X Float : Type}.
Context (runner : list string → string → option Float → gmap string string * X →
                  (gmap string string * X) * result Exn CompletedProcess).
Context (monotonic : X → X * Float) (fadd fsub : Float → Float → Float).
Context (nonpositive : Float → bool) (valid_timeout : Float → bool) (elapsed_ms : Float → Float → Z).
Context (float_repr float_str float_g float_json : Float → string).
Context (json_float : string → string) (decode_bytes : string → result Exn string).
Context (sha256 sha256_hex : string → string) (pid : Z).
Context (resolve : Path → Path) (is_dir : Path → bool) (type_name : Exn → string).
Notation World := (ExportWorld X).
Context (read_text : string → World → World * result Exn string).
Context (set_order : list string → list string).
Context (Horder : ∀ l, NoDup l → set_order l ≡ₚ l).
Context (new_client : Float → AxleClient World Float).
Context (print_out print_err : string → X → X * result Exn unit).

Notation verify := (verify_closure runner monotonic fadd fsub nonpositive valid_timeout elapsed_ms
  float_repr float_str float_g float_json json_float decode_bytes sha256 sha256_hex pid resolve is_dir
  type_name read_text set_order new_client print_out print_err).

(** What a run that succeeded has established of the closure [c], the sources,
    the exact closure and the bundle. *)
Record VerifiedRun (args : VerifyArguments Float) (c : LeanDeclarationClosure)
    (sources : list LeanOwnerSource) (exact : ExactAxleClosure) (b : IndependentDeclarationBundle) : Prop := {
  vr_closure : Requested (verify_request args) c ∧ LeanClosureSpec c ∧ LeanClosureFields c;
  vr_environment version : va_environment args = "lean-" +:+ version → version = lc_lean_version c;
  vr_sources : ∃ files roots order, owner_modules_in_dependency_order c = Some (Ok order) ∧
    Forall2 (SourceOf sha256_hex resolve files roots (resolve (va_lean_root args))) order sources;
  vr_paths : is_ok (verify_paths resolve (va_paths args) sources) = true;
  vr_exact : ∃ extracted roundtrip aliases,
    ExactSpec read_text sha256_hex set_order (new_client (va_axle_base_timeout_seconds args)) c sources
      (va_environment args) (va_axle_operation_timeout_seconds args) exact extracted roundtrip aliases;
  vr_bundle : ∃ manifest_bytes, Projected sha256_hex set_order c exact sources manifest_bytes b
}.

(** The file a run leaves behind. *)
Definition artifact_text (artifact : Json) : string := write_json_indent artifact 0 +:+ newline.
Definition written (output : option Path) (artifact : Json) (files : gmap string string) : Prop :=
  ∀ p, output = Some p → utf8_valid (artifact_text artifact) = true ∧
    files !! path_str p = Some (artifact_text artifact).

Lemma wp_write_artifact output artifact (w : World) :
  wp (write_artifact output artifact) (λ r w', match r with
    | Ok _ => written output artifact (ew_files w')
    | Raise _ => True
    end) w.
Proof.
  destruct output as [p|]; cbn [write_artifact]; [|by apply wp_ret].
  unfold write_text. apply wp_bind. unfold wp at 1, update_files. apply wp_bind, wp_lift.
  unfold encode_utf8. destruct (utf8_valid _) eqn:E; cbn [require mbind result_bind]; [|done].
  unfold wp, update_files. cbn [ew_files]. intros q [= <-]. split; [done|]. apply lookup_insert_eq.
Qed.
Lemma wp_print (printer : string → X → X * result Exn unit) v (w : World) :
  wp (print printer v) (λ _ w', ew_files w' = ew_files w) w.
Proof. unfold wp, print. by destruct (printer _ _) as [x r]. Qed.

Lemma wp_export args (w : World) :
  wp (export_declaration_closure runner true monotonic fadd fsub nonpositive valid_timeout elapsed_ms
        float_repr float_g json_float sha256 sha256_hex pid (Some (observe_phase print_err)) (va_lean_root args)
        (verify_request args) (va_lean_export_timeout_seconds args) false None None)
    (λ r _, match r with
      | Ok c => Requested (verify_request args) c ∧ LeanClosureSpec c ∧ LeanClosureFields c
      | Raise _ => True
      end) w.
Proof.
  eapply wp_mono, (keeps_export runner true monotonic fadd fsub nonpositive valid_timeout elapsed_ms float_repr
    float_g json_float sha256 sha256_hex pid (Some (observe_phase print_err)) (va_lean_root args) (λ _, True)); try done.
  intros r w' [_ H]. exact H.
Qed.

Lemma wp_build_with_deadline c sources environment operation base (w : World) :
  wp (build_with_deadline monotonic fadd nonpositive elapsed_ms float_str float_g sha256_hex type_name read_text
        set_order new_client print_err c sources environment operation base)
    (λ r _, match r with
      | Ok exact => ∃ extracted roundtrip aliases, ExactSpec read_text sha256_hex set_order (new_client base) c
          sources environment operation exact extracted roundtrip aliases
      | Raise _ => True
      end) w.
Proof.
  unfold build_with_deadline. apply wp_except. eapply wp_mono, wp_build_exact; [|done].
  intros [exact|e] w' [H _]; [by destruct H as [_ H]|]. by case_match; apply wp_raise.
Qed.

(** What the artifact of a run is made of. *)
Definition run_artifact (args : VerifyArguments Float) (c : LeanDeclarationClosure)
    (sources : list LeanOwnerSource) (exact : ExactAxleClosure) (b : IndependentDeclarationBundle) :
    result Exn Json :=
  receipt ← preflight_receipt float_json sha256_hex c sources args;
  verification_artifact sha256_hex c receipt exact b.

Definition run_outcome (args : VerifyArguments Float) (r : result Exn Z) (w' : World) : Prop :=
  match r with
  | Ok code => code = 0 ∧ ∃ c sources exact b artifact, VerifiedRun args c sources exact b ∧
      run_artifact args c sources exact b = Ok artifact ∧ written (va_closure_output args) artifact (ew_files w')
  | Raise _ => True
  end.

Lemma wp_verify_closure args (w : World) : wp (verify args) (run_outcome args) w.
Proof.
  unfold verify_closure, run_outcome. apply wp_bind. eapply wp_mono, wp_export.
  intros [c|e] w1 Hc; [|done]. apply wp_bind, wp_lift.
  destruct (verify_environment c _) as [u|] eqn:He; [|done]. apply wp_bind.
  eapply wp_mono, wp_resolve_sources, Hc. intros [sources|e] w2 Hs; [|done]. apply wp_bind, wp_lift.
  destruct (verify_paths _ _ _) as [paths|] eqn:Hp; [|done]. apply wp_bind, wp_lift.
  destruct (preflight_receipt _ _ _ _ _) as [receipt|] eqn:Hr; [|done]. apply wp_bind.
  eapply wp_mono, wp_write_artifact. intros [u'|e] w3 _; [|done]. apply wp_bind.
  eapply wp_mono, wp_print. intros [u''|e] w4 _; [|done]. apply wp_bind.
  eapply wp_mono, wp_build_with_deadline. intros [exact|e] w5 Hx; [|done]. apply wp_bind.
  eapply wp_mono, build_bundle_spec. intros [b|e] w6 [_ Hb]; [|done]. apply wp_bind, wp_lift.
  destruct (verification_artifact _ _ _ _ _) as [artifact|] eqn:Ha; [|done]. apply wp_bind.
  eapply wp_mono, wp_write_artifact. intros [u3|e] w7 Hw; [|done]. apply wp_bind, wp_lift.
  destruct (verification_summary _ _ _) as [summary|]; [|done]. apply wp_bind.
  eapply wp_mono, wp_print. intros [u4|e] w8 Ew; [|done]. apply wp_ret. split; [done|].
  exists c, sources, exact, b, artifact. split_and!.
  - split; [done|by eapply verify_environment_Ok| |by rewrite Hp|done|].
    + destruct Hs as (lean_path & order & ? & ?). by eexists _, _, order.
    + destruct Hb as (bytes & Hb & _). by exists bytes.
  - unfold run_artifact. by rewrite Hr.
  - by rewrite Ew.
Qed.
End facts.
