(* ===== verification/ClosureVerifyTheorems.v ===== *)
(** * The authority reads the artifact of a run

    What [verify_closure] writes is read by [parse_axle_closure_artifact_v1]
    under conditions that the two modules do not agree on: the roots must
    include a theorem and the imports of the proof base must be sorted. *)

From Stdlib Require Import Ascii.
From stdpp Require Import gmap strings.
From S2P Require Import Prelude PyDict GraphTypes Receipts Text SchemeDatum Merkle EvidenceModel Sort ReceiptGraph ReceiptGraphFacts ReceiptGraphTheorems Json JsonFacts ReceiptAudit ReceiptAuditTheorems AxleAuthority AxleAuthorityFacts AxleAuthorityTheorems IndependentBundle IndependentBundleFacts Refinement LeanClosure LeanClosureFacts LeanOwnerOrder SourceText ExactClosure Effects ExactBuild ExactBuildFacts LeanExport LeanExportFacts BundleProjection JsonIndent ClosureVerify.

(** ** Paths into artifacts *)

Section paths.
Context (float_repr : string → string).

Lemma at_path_wf path : ∀ v w, well_formed float_repr v → at_path path v = Some w → well_formed float_repr w.
Proof.
  induction path as [|k path IH]; intros v w Hv; [by intros [= <-]|]. destruct v as [| | | | | |d]; try done.
  cbn [at_path]. intros (x & Hx & H)%bind_Some. eapply IH; [|exact H]. by eapply wf_dict_get.
Qed.
Lemma at_path_tidy path : ∀ v, well_formed float_repr v → at_path path (tidy v) = tidy <$> at_path path v.
Proof.
  induction path as [|k path IH]; intros v Hv; [done|]. destruct v as [| | | | | |d]; try done.
  rewrite tidy_obj. cbn [at_path]. rewrite dget_tidy by by apply wf_dict_keys in Hv.
  destruct (dget k d) as [w|] eqn:E; cbn [mbind option_bind fmap option_fmap option_map]; [|done].
  apply IH. by eapply wf_dict_get.
Qed.
End paths.
Lemma at_path_utf8 path : ∀ v w, json_utf8 v → at_path path v = Some w → json_utf8 w.
Proof.
  induction path as [|k path IH]; intros v w Hv; [by intros [= <-]|]. destruct v as [| | | | | |d]; try done.
  cbn [at_path]. intros (x & Hx%dget_Some_elem & H)%bind_Some. eapply IH; [|exact H].
  unfold json_utf8 in *. cbn [json_strings] in Hv. rewrite flat_map_Forall, Forall_forall in Hv.
  by apply Hv in Hx as [_ ?]%Forall_cons.
Qed.

Lemma json_utf8_obj d :
  json_utf8 (JObj d) ↔ Forall (λ m, utf8_valid m.1 = true ∧ json_utf8 m.2) d.
Proof.
  unfold json_utf8 at 1. cbn [json_strings]. rewrite flat_map_Forall. apply Forall_ext. intros [k v] _.
  by rewrite Forall_cons.
Qed.
Lemma json_utf8_texts l : json_utf8 (texts l) ↔ Forall (λ s, utf8_valid s = true) l.
Proof.
  unfold json_utf8, texts. cbn [json_strings]. rewrite flat_map_Forall, Forall_fmap. apply Forall_ext.
  intros s _. unfold compose. cbn [json_strings]. by rewrite Forall_singleton.
Qed.

(** ** The artifact of a run *)

Section artifact.
Context {X Float : Type}.
Context (float_json : Float → string) (json_float : string → string) (sha256_hex : string → string).
Context (resolve : Path → Path).
Notation World := (ExportWorld X).
Context (read_text : string → World → World * result Exn string).
Context (set_order : list string → list string) (new_client : Float → AxleClient World Float).

(** The members of the sections that do not depend on the kinds of the roots. *)
Definition preflight_members (c : LeanDeclarationClosure) (sources : list LeanOwnerSource)
    (args : VerifyArguments Float) (digest : string) : dict string Json :=
  [("axle_environment", JStr (va_environment args));
   ("axle_base_timeout_seconds", JFloat (float_json (va_axle_base_timeout_seconds args)));
   ("axle_operation_timeout_seconds", JFloat (float_json (va_axle_operation_timeout_seconds args)));
   ("lean_export_timeout_seconds", JFloat (float_json (va_lean_export_timeout_seconds args)));
   ("proof_base_imports", texts (lc_proof_base_imports c));
   ("proof_base_interface_count", JInt (Z.of_nat (length (lc_proof_base_interface c))));
   ("closure_digest", JStr digest); ("declaration_count", JInt (Z.of_nat (length (lc_declarations c))));
   ("owner_sources", JList (owner_source_record <$> sources));
   ("root_declarations", texts (lc_root_declarations c)); ("root_module", JStr (lc_root_module c));
   ("schema_id", JStr RECEIPT_SCHEMA_ID)].
Definition exact_members (exact : ExactAxleClosure) (source_digest digest : string) : dict string Json :=
  [("schema_id", JStr (xc_schema_id exact)); ("lean_closure_digest", JStr (xc_lean_closure_digest exact));
   ("environment", JStr (xc_environment exact)); ("root_declarations", texts (xc_root_declarations exact));
   ("source_declarations", texts (xc_source_declarations exact));
   ("declarations", JList (exact_declaration_record <$> xc_declarations exact));
   ("canonical_source_digest", JStr source_digest); ("bundle_digest", JStr digest);
   ("canonical_source", JStr (xc_canonical_source exact)); ("theorem2sorry", JObj (xc_theorem2sorry exact));
   ("verification", JObj (xc_verification exact))].
Definition independent_members (b : IndependentDeclarationBundle) (source_digest : string) : dict string Json :=
  [("axle_environment", environment_record (bu_axle_environment b));
   ("canonical_source_digest", JStr source_digest);
   ("declarations", JList (declaration_record <$> bu_declarations b));
   ("lean_toolchain", JStr (bu_lean_toolchain b));
   ("proof_base_declarations", JList (proof_base_record <$> bu_proof_base_declarations b));
   ("proof_base_imports", texts (sort_by str_leb (bu_proof_base_imports b)));
   ("proof_base_interface_digest", JStr (bu_proof_base_interface_digest b));
   ("resolved_sources", JList (source_record <$> sort_by source_leb (bu_resolved_sources b)));
   ("root_declarations", texts (sort_by str_leb (bu_root_declarations b)));
   ("root_module", JStr (bu_root_module b)); ("schema_id", JStr (bu_schema_id b))].
Definition closure_members (c : LeanDeclarationClosure) : dict string Json :=
  match closure_manifest c with JObj d => d | _ => [] end.
Definition artifact_members (c : LeanDeclarationClosure) (sources : list LeanOwnerSource)
    (args : VerifyArguments Float) (exact : ExactAxleClosure) (b : IndependentDeclarationBundle)
    (closure_digest source_digest exact_digest independent_source independent_digest : string) :
    dict string Json :=
  [("closure", JObj (closure_members c)); ("preflight", JObj (preflight_members c sources args closure_digest));
   ("exact_bundle", JObj (exact_members exact source_digest exact_digest));
   ("exact_bundle_digest", JStr exact_digest);
   ("independent_declaration_bundle", JObj (independent_members b independent_source));
   ("independent_declaration_bundle_digest", JStr independent_digest)].

Lemma run_artifact_Ok args c sources exact b artifact :
  run_artifact float_json sha256_hex args c sources exact b = Ok artifact →
  ∃ closure_digest source_digest exact_digest independent_source independent_digest,
    artifact = JObj (artifact_members c sources args exact b closure_digest source_digest exact_digest
                       independent_source independent_digest) ∧
    ExactBuild.canonical_source_digest sha256_hex exact = Ok source_digest ∧
    exact_bundle_digest sha256_hex exact = Ok exact_digest ∧
    IndependentBundle.canonical_source_digest sha256_hex b = Ok independent_source ∧
    bundle_digest sha256_hex b = Ok independent_digest.
Proof.
  unfold run_artifact, preflight_receipt, verification_artifact, exact_manifest, canonical_manifest. intros H.
  apply bind_Ok in H as (receipt & Hr & H). apply bind_Ok in Hr as (d1 & _ & [= <-]).
  apply bind_Ok in H as (members & Hm & H). apply bind_Ok in Hm as (identity & Hi & Hm).
  unfold exact_identity_manifest in Hi. apply bind_Ok in Hi as (d2 & Hd2 & [= <-]).
  apply bind_Ok in Hm as (d3 & Hd3 & [= <-]). apply bind_Ok in H as (d3' & Hd3' & H).
  apply bind_Ok in H as (independent & Hi & H). apply bind_Ok in Hi as (d4 & Hd4 & [= <-]).
  apply bind_Ok in H as (d5 & Hd5 & [= <-]). rewrite Hd3' in Hd3. injection Hd3 as ->.
  exists d1, d2, d3, d4, d5. split_and!; try done.
Qed.

(** ** Its parts are well formed *)

(** What AXLE says of a request is JSON, and floats are written so that they
    read back. *)
Definition json_answers (client : AxleClient World Float) : Prop :=
  (∀ source environment names limit r, answered (theorem2sorry client source environment names limit) r →
     well_formed json_float (as_info (rp_value r))) ∧
  ∀ content source environment limit r, answered (verify_proof client content source environment limit) r →
     well_formed json_float (av_timings (rp_value r)) ∧ well_formed json_float (av_info (rp_value r)).
Context (Hclient : ∀ base, json_answers (new_client base)).
Context (Hfloat : ∀ t, float_text json_float (float_json t)).

Notation wf := (well_formed json_float).
Lemma wf_texts l : wf (texts l).
Proof. apply well_formed_texts. Qed.
Lemma wf_records {A} (f : A → Json) (l : list A) : (∀ x, wf (f x)) → wf (JList (f <$> l)).
Proof. intros Hf. constructor. by apply Forall_fmap, Forall_true. Qed.
Lemma wf_option o : wf (json_option o).
Proof. destruct o; constructor. Qed.
Ltac wf_object :=
  constructor; [closed_keys|]; repeat apply Forall_cons_2; try apply Forall_nil_2; cbn [snd];
  auto using wf_texts, wf_option; try (by constructor).

Lemma wf_message_payload m : wf (message_payload m).
Proof. wf_object. Qed.
Lemma wf_kinds kinds : dict_wf kinds → wf (kinds_record kinds).
Proof.
  intros Hk. constructor.
  - unfold dict_wf, dkeys in Hk. rewrite <-list_fmap_compose.
    rewrite (list_fmap_ext _ fst) by (by intros ? [] ?). exact Hk.
  - apply Forall_fmap, Forall_true. intros [k v]. constructor.
Qed.
Lemma wf_receipts client source environment limit roots kinds receipts : json_answers client → dict_wf kinds →
  root_receipts client environment limit source roots kinds receipts →
  wf (JObj receipts.1) ∧ wf (JObj receipts.2).
Proof.
  intros [Hs Hv] Hk [Hn|statement verified _ ([Hst _] & [Hve _] & _)]; cbn [fst snd].
  - split; wf_object; first [by apply wf_kinds|wf_object; by apply wf_kinds].
  - apply Hs in Hst. apply Hv in Hve as [? ?]. split; wf_object; auto using wf_message_payload, wf_kinds.
    wf_object; apply wf_message_payload.
Qed.

Lemma wf_artifact args c sources exact b d1 d2 d3 d4 d5 :
  wf (JObj (xc_theorem2sorry exact)) → wf (JObj (xc_verification exact)) →
  wf (JObj (artifact_members c sources args exact b d1 d2 d3 d4 d5)).
Proof.
  intros Ht Hv. wf_object.
  - apply (manifest_well_formed json_float c).
  - wf_object; try (constructor; apply Hfloat). apply wf_records. intros s. wf_object.
  - wf_object. apply wf_records. intros d. wf_object.
  - wf_object; try (apply wf_records; intros ?); wf_object; apply wf_texts.
Qed.

(** ** The kinds of the roots *)

(** A root is a theorem. *)
Definition has_theorem_root (exact : ExactAxleClosure) : Prop :=
  ∃ d, d ∈ xc_declarations exact ∧ sd_name d ∈ xc_root_declarations exact ∧ sd_kind d = "theorem".

Lemma root_kinds_wf by_name roots kinds : root_kinds by_name roots = Ok kinds → dict_wf kinds.
Proof.
  unfold root_kinds. intros H. apply bind_Ok in H as (l & _ & H). apply bind_Ok in H as (u & _ & [= <-]).
  apply dict_of_wf.
Qed.
Lemma root_kinds_elem by_name roots kinds r k : root_kinds by_name roots = Ok kinds → (r, k) ∈ kinds →
  r ∈ roots ∧ ∃ d, dget r by_name = Some d ∧ dc_kind d = k.
Proof.
  intros H Hr. pose proof (dget_elem_wf _ _ _ (root_kinds_wf _ _ _ H) Hr) as Hk. unfold root_kinds in H.
  apply bind_Ok in H as (l & Hl%mapM_Ok & H). apply bind_Ok in H as (u & _ & [= <-]).
  apply dget_dict_of in Hk. destruct (Forall2_elem_of_r _ _ _ _ Hl Hk) as (root & Hroot & Hk').
  apply bind_Ok in Hk' as (d & Hd%of_option_Ok & [= <- <-]). split; [done|]. by exists d.
Qed.

Section spec.
Context (client : AxleClient World Float) (c : LeanDeclarationClosure) (sources : list LeanOwnerSource)
        (environment : string) (limit : Float) (exact : ExactAxleClosure)
        (extracted roundtrip : AxleResponse (list AxleDocument)) (aliases : dict string string).
Context (Hx : ExactSpec read_text sha256_hex set_order client c sources environment limit exact
                extracted roundtrip aliases).

Lemma theorem_names_root kinds :
  root_kinds (documents_by_name (rp_value roundtrip)) (xc_root_declarations exact) = Ok kinds →
  theorem_names kinds ≠ [] ↔ has_theorem_root exact.
Proof.
  intros Hk. unfold theorem_names. split.
  - destruct (filter _ kinds) as [|[r k] l] eqn:E; [done|]. intros _.
    assert ((r, k) ∈ filter (λ '(_, kind), kind = "theorem") kinds) as [Ht Hr]%list_elem_of_filter
      by (rewrite E; by left).
    destruct (root_kinds_elem _ _ _ _ _ Hk Hr) as (Hroot & document & Hd & Hdk).
    assert (r ∈ sd_name <$> xc_declarations exact) as (d & -> & Hin)%list_elem_of_fmap.
    { apply (xs_names _ _ _ _ _ _ _ _ _ _ _ _ Hx). left.
      by destruct (Forall2_elem_of_r _ _ _ _ (xs_roots _ _ _ _ _ _ _ _ _ _ _ _ Hx) Hroot) as (? & _ & ? & _). }
    exists d. split_and!; try done.
    destruct (xs_declarations _ _ _ _ _ _ _ _ _ _ _ _ Hx d Hin) as (document' & _ & _ & Hd' & Hkind & _).
    congruence.
  - intros (d & Hin & Hroot & Hkind) E%fmap_nil_inv.
    destruct (xs_declarations _ _ _ _ _ _ _ _ _ _ _ _ Hx d Hin) as (document & _ & _ & Hd & Hdk & _).
    pose proof (root_kinds_Ok _ _ _ _ _ Hk Hroot Hd) as Hget%dget_Some_elem.
    assert ((sd_name d, dc_kind document) ∈ filter (λ '(_, kind), kind = "theorem") kinds) as Hf.
    { apply list_elem_of_filter. split; [congruence|done]. }
    rewrite E in Hf. by apply not_elem_of_nil in Hf.
Qed.

(** The receipts of the closure, and that they have the keys the authority
    expects exactly when a root is a theorem. *)
Lemma receipts_keys : json_answers client →
  wf (JObj (xc_theorem2sorry exact)) ∧ wf (JObj (xc_verification exact)) ∧
  ((∀ k, k ∈ dkeys (xc_theorem2sorry exact) ↔ k ∈ THEOREM2SORRY_KEYS) ↔ has_theorem_root exact) ∧
  (∀ k, k ∈ dkeys (xc_verification exact) ↔ k ∈ VERIFICATION_KEYS) ∧
  dget "schema_id" (xc_verification exact) = Some (JStr "poo-flow.axle-root-declaration-validation.v1") ∧
  dget "status" (xc_verification exact) = Some (JStr "accepted") ∧
  dget "okay" (xc_verification exact) = Some (JBool true) ∧
  dget "failed_declarations" (xc_verification exact) = Some (JList []).
Proof.
  intros Hc. destruct (xs_receipts _ _ _ _ _ _ _ _ _ _ _ _ Hx) as (kinds & Hk & Hr).
  pose proof (theorem_names_root _ Hk) as Ht.
  destruct (wf_receipts _ _ _ _ _ _ _ Hc (root_kinds_wf _ _ _ Hk) Hr) as [Hw1 Hw2].
  split; [exact Hw1|]. split; [exact Hw2|]. rewrite <-Ht.
  assert (∀ keys l : list string, bool_decide (keys ≡ₚ l) = true → ∀ k, k ∈ keys ↔ k ∈ l) as Hp.
  { intros keys l H%bool_decide_eq_true k. by rewrite H. }
  remember (xc_theorem2sorry exact, xc_verification exact) as receipts eqn:E.
  destruct Hr as [Hn|statement verified Hn (_ & _ & Hokay & Hfailed)]; injection E as <- <-.
  - split_and!; [|by apply Hp; vm_compute|done..]. split; [|done]. intros H. exfalso.
    assert ("messages" ∈ dkeys (no_theorem_obligation kinds)) as Hm by (apply H; vm_compute; set_solver).
    vm_compute in Hm. set_solver.
  - split_and!; [|by apply Hp; vm_compute|done|done|..].
    + split; [done|]. intros _. apply Hp. by vm_compute.
    + cbn. by rewrite Hokay.
    + cbn. by rewrite Hfailed.
Qed.
End spec.

(** ** Reading the artifact *)

(** A SHA-256 digest is 64 hexadecimal digits. *)
Context (Hsha : ∀ payload, digest_form (sha256_digest sha256_hex payload) = true).

Notation parse artifact := (parse_axle sha256_hex json_float (artifact_text artifact) false).
Notation Run := (VerifiedRun sha256_hex resolve read_text set_order new_client).

(** What the authority expects of the closures beyond what a run establishes. *)
Record Readable (c : LeanDeclarationClosure) (exact : ExactAxleClosure) : Prop := {
  rb_theorem : has_theorem_root exact;
  rb_roots : xc_root_declarations exact ≡ₚ lc_root_declarations c;
  rb_base : NoDup (lc_base_imports c);
  rb_proof_base : sort_by str_leb (lc_proof_base_imports c) = lc_proof_base_imports c
}.

Section run.
Context (args : VerifyArguments Float) (c : LeanDeclarationClosure) (sources : list LeanOwnerSource)
        (exact : ExactAxleClosure) (b : IndependentDeclarationBundle) (d1 d2 d3 d4 d5 : string).
Context (Hrun : Run args c sources exact b).
Notation members := (artifact_members c sources args exact b d1 d2 d3 d4 d5).
Notation artifact := (JObj members).

Lemma run_receipts :
  wf (JObj (xc_theorem2sorry exact)) ∧ wf (JObj (xc_verification exact)) ∧
  ((∀ k, k ∈ dkeys (xc_theorem2sorry exact) ↔ k ∈ THEOREM2SORRY_KEYS) ↔ has_theorem_root exact) ∧
  (∀ k, k ∈ dkeys (xc_verification exact) ↔ k ∈ VERIFICATION_KEYS) ∧
  dget "schema_id" (xc_verification exact) = Some (JStr "poo-flow.axle-root-declaration-validation.v1") ∧
  dget "status" (xc_verification exact) = Some (JStr "accepted") ∧
  dget "okay" (xc_verification exact) = Some (JBool true) ∧
  dget "failed_declarations" (xc_verification exact) = Some (JList []).
Proof. destruct (vr_exact _ _ _ _ _ _ _ _ _ _ Hrun) as (? & ? & ? & Hx). by eapply receipts_keys. Qed.

Lemma run_artifact_wf : wf artifact.
Proof. destruct run_receipts as (? & ? & _). by apply wf_artifact. Qed.

(** The text is read as the artifact with its members in order. *)
Lemma load_artifact : utf8_valid (artifact_text artifact) = true →
  load_axle json_float (artifact_text artifact) = Some (Ok (tidy artifact)).
Proof.
  intros Hu. apply load_axle_Ok. split; [done|]. apply json_loads_indent; [|apply run_artifact_wf].
  apply reject_duplicates_Ok.
Qed.

(** What the parser answers is about the artifact. *)
Lemma parsed_artifact p : utf8_valid (artifact_text artifact) = true →
  parse artifact = Some (Ok p) → AxleArtifact sha256_hex (tidy artifact) p.
Proof.
  intros Hu (v & Hv & Hp & _)%parse_axle_artifact. rewrite load_artifact in Hv by done. by injection Hv as <-.
Qed.
Lemma artifact_at path v : at_path path artifact = Some v → at_path path (tidy artifact) = Some (tidy v).
Proof. intros H. rewrite (at_path_tidy json_float) by apply run_artifact_wf. by rewrite H. Qed.
Lemma artifact_names path l k : at_path path artifact = Some (texts l) → names_at (tidy artifact) path k →
  k = l ∧ NoDup l.
Proof.
  intros H%artifact_at (Hk & _ & Hnd). rewrite H in Hk. unfold texts in Hk. rewrite tidy_texts in Hk.
  injection Hk as Hk%json_strings_inj. by subst.
Qed.

(** Whatever the authority reads is what the run was asked for and computed. *)
Lemma parsed_readable p : utf8_valid (artifact_text artifact) = true → parse artifact = Some (Ok p) →
  Readable c exact ∧
  ax_request p = AxleRequest (xc_environment exact) (lc_root_module c) (lc_root_declarations c)
                   (lc_base_imports c) (lc_proof_base_imports c) ∧
  ax_exact_bundle_digest p = d3 ∧ ax_independent_bundle_digest p = d5 ∧ ax_canonical_source_digest p = d2.
Proof.
  intros Hu Hp. pose proof (parsed_artifact p Hu Hp) as H.
  pose proof (aa_shapes _ _ _ H) as Hshapes. rewrite !Forall_cons in Hshapes.
  destruct Hshapes as (_ & _ & _ & _ & _ & _ & (t & Ht & Hkeys) & _).
  rewrite (artifact_at _ (JObj (xc_theorem2sorry exact))), tidy_obj in Ht by done. injection Ht as <-.
  destruct (artifact_names ["closure"; "root_declarations"] (lc_root_declarations c) _ eq_refl (aa_roots _ _ _ H)) as [Hroots _].
  pose proof (aa_same_roots _ _ _ H) as Hs. rewrite !Forall_cons in Hs. destruct Hs as (_ & (l & Hl & Hperm) & _).
  apply (artifact_names ["exact_bundle"; "root_declarations"] (xc_root_declarations exact) _ eq_refl) in Hl as [-> _].
  pose proof (aa_imports _ _ _ H) as Hi. rewrite !Forall_cons in Hi. destruct Hi as (Hi1 & _ & Hi2 & _).
  apply (artifact_names ["closure"; "proof_base_imports"] (lc_proof_base_imports c) _ eq_refl) in Hi1 as [Hi1 _].
  apply (artifact_names ["independent_declaration_bundle"; "proof_base_imports"]
    (sort_by str_leb (bu_proof_base_imports b)) _ eq_refl) in Hi2 as [Hi2 _].
  destruct (artifact_names ["closure"; "base_imports"] (lc_base_imports c) _ eq_refl (aa_base_imports _ _ _ H)) as [Hb Hnd].
  destruct (aa_environment _ _ _ H) as [He _]. destruct (aa_module _ _ _ H) as [Hm _].
  rewrite (artifact_at _ (JStr (xc_environment exact))) in He by done.
  rewrite (artifact_at _ (JStr (lc_root_module c))) in Hm by done.
  pose proof (aa_exact_digest _ _ _ H) as Hd. rewrite !Forall_cons in Hd. destruct Hd as ([Hd _] & _).
  destruct (aa_independent_digest _ _ _ H) as [Hd' _].
  pose proof (aa_source_digest _ _ _ H) as Hd''. rewrite !Forall_cons in Hd''. destruct Hd'' as ([Hd'' _] & _).
  rewrite (artifact_at _ (JStr d3)) in Hd by done. rewrite (artifact_at _ (JStr d5)) in Hd' by done.
  rewrite (artifact_at _ (JStr d2)) in Hd'' by done.
  destruct (vr_bundle _ _ _ _ _ _ _ _ _ _ Hrun) as (mb & Hbundle).
  destruct run_receipts as (_ & _ & Hkinds & _).
  split; [split|split_and!].
  - apply Hkinds. intros k. rewrite <-Hkeys. by rewrite tidy_members_keys.
  - by rewrite Hperm, Hroots.
  - done.
  - rewrite (pr_imports _ _ _ _ _ _ _ Hbundle) in Hi2. congruence.
  - destruct (ax_request p). cbn in *. by simplify_eq.
  - by injection Hd as ->.
  - by injection Hd' as ->.
  - by injection Hd'' as ->.
Qed.

(** The digests of the artifact. *)
Context (Hd2 : ExactBuild.canonical_source_digest sha256_hex exact = Ok d2).
Context (Hd3 : exact_bundle_digest sha256_hex exact = Ok d3).
Context (Hd4 : IndependentBundle.canonical_source_digest sha256_hex b = Ok d4).
Context (Hd5 : bundle_digest sha256_hex b = Ok d5).

Lemma digests_formed : d2 = d4 ∧ Forall (λ d, digest_form d = true) [d2; d3; d5].
Proof.
  destruct (vr_bundle _ _ _ _ _ _ _ _ _ _ Hrun) as (mb & Hb).
  unfold ExactBuild.canonical_source_digest in Hd2. unfold IndependentBundle.canonical_source_digest in Hd4.
  rewrite (pr_source _ _ _ _ _ _ _ Hb) in Hd4. split; [congruence|].
  unfold exact_bundle_digest in Hd3. apply bind_Ok in Hd3 as (identity & _ & H3).
  unfold bundle_digest in Hd5. repeat constructor.
  - destruct (encode_utf8 _); [|done]. injection Hd2 as <-. apply Hsha.
  - destruct (canonical_json _); [|done]. injection H3 as <-. apply Hsha.
  - destruct (bundle_payload _ _); [|done]. injection Hd5 as <-. apply Hsha.
Qed.

(** The sections, and what the parser answers. *)
Definition run_sections : AxleSections :=
  MkAxleSections (closure_members c) (preflight_members c sources args d1) (exact_members exact d2 d3)
    (independent_members b d4) (xc_verification exact).
Definition run_source_identity : Json :=
  JObj [("canonical_source", JStr (xc_canonical_source exact)); ("canonical_source_digest", JStr d2);
        ("resolved_sources", JList (source_record <$> sort_by source_leb (bu_resolved_sources b)));
        ("root_module", JStr (lc_root_module c)); ("schema_id", JStr AXLE_SOURCE_IDENTITY_SCHEMA_V1)].
Definition run_interface : Json :=
  JObj [("canonical_source", JStr (xc_canonical_source exact)); ("canonical_source_digest", JStr d2);
        ("declarations", JList (exact_declaration_record <$> xc_declarations exact));
        ("exact_bundle_digest", JStr d3);
        ("root_declarations", JList (JStr <$> sort_by str_leb (lc_root_declarations c)));
        ("schema_id", JStr AXLE_PROVIDED_INTERFACE_SCHEMA_V1);
        ("source_declarations", texts (xc_source_declarations exact))].
Definition run_parsed : ParsedAxleClosureArtifactV1 :=
  ParsedAxle members (write_json artifact)
    (AxleRequest (xc_environment exact) (lc_root_module c) (lc_root_declarations c) (lc_base_imports c)
       (lc_proof_base_imports c)) d3 d5 d2
    (CanonicalSourceIdentity (write_json run_source_identity) (sha256_digest sha256_hex (write_json run_source_identity)))
    (CanonicalInterface (write_json run_interface) (sha256_digest sha256_hex (write_json run_interface))).

Lemma run_canonical_json v : json_utf8 v → canonical_json v = Ok (write_json v).
Proof. intros Hv%write_json_utf8. by apply canonical_json_Ok. Qed.

Lemma run_verdict : axle_verdict run_sections = Ok ().
Proof.
  assert (∀ d k v code detail, dget k d = Some v → axle_check d k v code detail = Ok ()) as Hc
    by (intros; by apply axle_check_Ok).
  destruct run_receipts as (_ & _ & _ & _ & H1 & H2 & H3 & H4).
  destruct (vr_closure _ _ _ _ _ _ _ _ _ _ Hrun) as (_ & Hl & _).
  destruct (vr_exact _ _ _ _ _ _ _ _ _ _ Hrun) as (? & ? & ? & Hx).
  destruct (vr_bundle _ _ _ _ _ _ _ _ _ _ Hrun) as (mb & Hb).
  destruct (xs_constants _ _ _ _ _ _ _ _ _ _ _ _ Hx) as [_ Hs].
  unfold axle_verdict, axle_schemas, run_sections. cbn [foldM se_closure se_preflight se_exact se_independent se_verification].
  rewrite (Hc (closure_members c)) by (cbn; by rewrite (ls_schema _ Hl)). cbn [mbind result_bind].
  rewrite (Hc (preflight_members _ _ _ _)) by done. cbn [mbind result_bind].
  rewrite (Hc (exact_members _ _ _)) by (cbn; by rewrite Hs). cbn [mbind result_bind].
  rewrite (Hc (independent_members _ _)) by (cbn; by rewrite (bs_schema _ _ (pr_spec _ _ _ _ _ _ _ Hb))).
  cbn [mbind result_bind]. by rewrite !Hc by done.
Qed.

Lemma run_names d key label l : dget key d = Some (texts l) → Forall (λ s, s ≠ "") l → NoDup l →
  names_of d key label = Ok l.
Proof. intros ???. by apply names_of_Ok. Qed.

(** The lists of names are lists of names. *)
Lemma run_name_lists : Forall (λ l, Forall (λ s, s ≠ "") l ∧ NoDup l)
  [lc_root_declarations c; xc_root_declarations exact; sort_by str_leb (bu_root_declarations b);
   lc_proof_base_imports c].
Proof.
  destruct (vr_closure _ _ _ _ _ _ _ _ _ _ Hrun) as (_ & Hl & Hf).
  destruct (vr_exact _ _ _ _ _ _ _ _ _ _ Hrun) as (? & ? & ? & Hx).
  destruct (vr_bundle _ _ _ _ _ _ _ _ _ _ Hrun) as (mb & Hb).
  pose proof (lf_texts _ Hf) as Ht. rewrite !Forall_app in Ht. destruct Ht as (Hr & _ & Hp & _).
  destruct (pr_roots _ _ _ _ _ _ _ Hb) as [_ Hroots].
  destruct (bs_roots _ _ (pr_spec _ _ _ _ _ _ _ Hb)) as (_ & Hnd & _). rewrite Hroots in *.
  assert (Forall (λ s, s ≠ "") (xc_root_declarations exact)) as Hne.
  { apply Forall_forall. intros r Hin.
    by destruct (Forall2_elem_of_r _ _ _ _ (xs_roots _ _ _ _ _ _ _ _ _ _ _ _ Hx) Hin) as (? & _ & _ & _ & ?). }
  destruct (ls_roots _ Hl) as (_ & ? & _). destruct (ls_imports _ Hl) as [_ ?].
  repeat constructor; try done; by rewrite (sort_by_perm str_leb).
Qed.

Lemma sort_texts_perm (l k : list string) : l ≡ₚ k → sort_by str_leb l = sort_by str_leb k.
Proof. apply sort_by_unique; [apply str_leb_total|apply str_leb_trans|intros; by apply str_leb_anti]. Qed.

Lemma run_roots : Readable c exact → axle_roots run_sections = Ok (lc_root_declarations c).
Proof.
  intros Hr. pose proof run_name_lists as Hn. rewrite !Forall_cons in Hn.
  destruct Hn as ([? ?] & [? ?] & [? ?] & _). destruct (vr_bundle _ _ _ _ _ _ _ _ _ _ Hrun) as (mb & Hb).
  destruct (pr_roots _ _ _ _ _ _ _ Hb) as [_ Hroots]. unfold axle_roots.
  cbn [run_sections se_closure se_preflight se_exact se_independent].
  rewrite (run_names (closure_members c) _ _ (lc_root_declarations c)) by done. cbn [mbind result_bind].
  rewrite (run_names (preflight_members _ _ _ _) _ _ (lc_root_declarations c)) by done. cbn [mbind result_bind].
  rewrite (run_names (exact_members _ _ _) _ _ (xc_root_declarations exact)) by done. cbn [mbind result_bind].
  rewrite (run_names (independent_members _ _) _ _ (sort_by str_leb (bu_root_declarations b))) by done.
  cbn [mbind result_bind forallb].
  rewrite (sort_texts_perm (sort_by str_leb _) (lc_root_declarations c))
    by (by rewrite (sort_by_perm str_leb), Hroots, (rb_roots _ _ Hr)).
  rewrite (sort_texts_perm (xc_root_declarations exact) (lc_root_declarations c)) by apply (rb_roots _ _ Hr).
  by rewrite bool_decide_eq_true_2.
Qed.

(** The steps of the parser on the artifact. *)
Lemma run_parts : Readable c exact → json_utf8 artifact →
  axle_parts sha256_hex members run_sections run_parsed.
Proof.
  intros Hr Hu. pose proof run_name_lists as Hn. rewrite !Forall_cons in Hn. destruct Hn as (_ & _ & _ & [Hp1 Hp2] & _).
  destruct (vr_closure _ _ _ _ _ _ _ _ _ _ Hrun) as (_ & Hl & Hf).
  destruct (vr_bundle _ _ _ _ _ _ _ _ _ _ Hrun) as (mb & Hb).
  destruct (pr_roots _ _ _ _ _ _ _ Hb) as [Hmodule _].
  destruct run_receipts as (_ & _ & Ht & Hv & _). destruct digests_formed as [Hd Hforms].
  rewrite !Forall_cons in Hforms. destruct Hforms as (Hf2 & Hf3 & Hf5 & _).
  pose proof (lf_texts _ Hf) as Hlt. rewrite !Forall_app in Hlt. destruct Hlt as (_ & Hbase & _ & _).
  assert (∀ d keys, bool_decide (dkeys d ≡ₚ keys) = true → ∀ k : string, k ∈ dkeys (V:=Json) d ↔ k ∈ keys) as Hkeys.
  { intros d keys H%bool_decide_eq_true k. by rewrite H. }
  split.
  - apply axle_sections_Ok. cbn [run_sections se_closure se_preflight se_exact se_independent se_verification].
    split_and!; try done; try (by apply Hkeys; vm_compute).
    exists (xc_theorem2sorry exact). split; [done|]. by apply Ht, (rb_theorem _ _ Hr).
  - apply run_verdict.
  - by apply run_roots.
  - unfold axle_root_module. cbn [run_sections se_closure se_preflight se_independent].
    rewrite (proj2 (field_Ok (closure_members c) "root_module" (JStr (lc_root_module c)))) by done. cbn [mbind result_bind].
    rewrite (proj2 (axle_string_Ok _ _ (lc_root_module c))) by (split; [done|apply (ls_texts _ Hl)]).
    cbn [mbind result_bind]. rewrite (proj2 (axle_check_Ok (preflight_members _ _ _ _) _ _ _ _ tt)) by done. cbn [mbind result_bind].
    rewrite (proj2 (axle_check_Ok (independent_members _ _) _ _ _ _ tt)) by (cbn; by rewrite Hmodule). done.
  - unfold axle_proof_base_imports. cbn [run_sections se_closure se_preflight se_independent].
    rewrite (run_names (closure_members c) _ _ (lc_proof_base_imports c)) by done. cbn [mbind result_bind].
    rewrite (run_names (preflight_members _ _ _ _) _ _ (lc_proof_base_imports c)) by done. cbn [mbind result_bind].
    rewrite bool_decide_eq_true_2 by done. cbn [require mbind result_bind].
    rewrite (run_names (independent_members _ _) _ _ (lc_proof_base_imports c));
      [|cbn; by rewrite (pr_imports _ _ _ _ _ _ _ Hb), (rb_proof_base _ _ Hr)|done..].
    cbn [mbind result_bind]. by rewrite bool_decide_eq_true_2.
  - unfold axle_digests. cbn [run_sections se_exact se_independent run_parsed ax_canonical_source_digest
      ax_exact_bundle_digest ax_independent_bundle_digest].
    rewrite (proj2 (field_Ok (exact_members _ _ _) "canonical_source_digest" (JStr d2))) by done. cbn [mbind result_bind].
    rewrite (proj2 (axle_digest_Ok _ _ d2)) by done. cbn [mbind result_bind].
    rewrite (proj2 (axle_check_Ok (independent_members _ _) _ _ _ _ tt)) by (cbn; by rewrite Hd). cbn [mbind result_bind].
    rewrite (proj2 (field_Ok members "exact_bundle_digest" (JStr d3))) by done. cbn [mbind result_bind].
    rewrite (proj2 (axle_digest_Ok _ _ d3)) by done. cbn [mbind result_bind].
    rewrite (proj2 (axle_check_Ok (exact_members _ _ _) _ _ _ _ tt)) by done. cbn [mbind result_bind].
    rewrite (proj2 (field_Ok members "independent_declaration_bundle_digest" (JStr d5))) by done. cbn [mbind result_bind].
    by rewrite (proj2 (axle_digest_Ok _ _ d5)) by done.
  - by apply run_canonical_json.
  - exists run_source_identity. split; [done|]. split; [|split_and!; try done; apply Hsha].
    apply run_canonical_json, json_utf8_obj.
    repeat apply Forall_cons_2; try apply Forall_nil_2; cbn [fst snd]; (split; [by vm_compute|]).
    + by apply (at_path_utf8 ["exact_bundle"; "canonical_source"] artifact).
    + by apply (at_path_utf8 ["exact_bundle"; "canonical_source_digest"] artifact).
    + by apply (at_path_utf8 ["independent_declaration_bundle"; "resolved_sources"] artifact).
    + by apply (at_path_utf8 ["closure"; "root_module"] artifact).
    + by repeat constructor.
  - exists run_interface. split; [done|]. split; [|split_and!; try done; apply Hsha].
    apply run_canonical_json, json_utf8_obj.
    repeat apply Forall_cons_2; try apply Forall_nil_2; cbn [fst snd]; (split; [by vm_compute|]).
    + by apply (at_path_utf8 ["exact_bundle"; "canonical_source"] artifact).
    + by apply (at_path_utf8 ["exact_bundle"; "canonical_source_digest"] artifact).
    + by apply (at_path_utf8 ["exact_bundle"; "declarations"] artifact).
    + by apply (at_path_utf8 ["exact_bundle"; "bundle_digest"] artifact).
    + apply json_utf8_texts. rewrite (sort_by_perm str_leb). apply json_utf8_texts.
      by apply (at_path_utf8 ["closure"; "root_declarations"] artifact).
    + by repeat constructor.
    + by apply (at_path_utf8 ["exact_bundle"; "source_declarations"] artifact).
  - split; [done|]. destruct (pr_environment _ _ _ _ _ _ _ Hb) as [He _]. intros E.
    cbn in E. rewrite E in He. done.
  - apply run_names; [done|done|apply (rb_base _ _ Hr)].
  - done.
Qed.

(** The authority reads the artifact when, and only when, it is readable. *)
Lemma artifact_readable : utf8_valid (artifact_text artifact) = true →
  (∃ p, parse artifact = Some (Ok p)) ↔ Readable c exact.
Proof.
  intros Hu. split; [intros [p Hp]; by eapply parsed_readable|]. intros Hr.
  assert (json_utf8 artifact) as Hj.
  { apply write_json_indent_utf8 with 0%nat. apply utf8_valid_after with newline; [done|exact Hu]. }
  pose proof (run_parts Hr Hj) as Hparts.
  exists (with_manifest (tidy_members members) run_parsed). apply parse_axle_Ok.
  exists (tidy artifact). split; [by apply load_artifact|]. rewrite tidy_obj.
  eapply parse_axle_manifest_of_parts; [|eapply axle_parts_tidy; [apply run_artifact_wf|exact Hparts]|done].
  intros k. rewrite tidy_members_keys. unfold members. set_solver.
Qed.
End run.
End artifact.

(** * Verification runs from end to end

    What a run establishes, which artifacts the authority reads back, and what
    stands behind a receipt that the live authority accepts. *)

Section theorems.
Context {X Float : Type}.
Context (runner : list string → string → option Float → gmap string string * X →
                  (gmap string string * X) * result Exn CompletedProcess).
Context (monotonic : X → X * Float) (fadd fsub : Float → Float → Float).
Context (nonpositive : Float → bool) (valid_timeout : Float → bool) (elapsed_ms : Float → Float → Z).
Context (float_repr float_str float_g float_json : Float → string).
Context (json_float : string → string) (decode_bytes : string → result Exn string).
Context (sha256 sha256_hex : string → string) (pid : Z).
Context (resolve : Path → Path) (is_dir : Path → bool) (type_name : Exn → string).
Notation World := (ExportWorld X).
Context (read_text : string → World → World * result Exn string).
Context (set_order : list string → list string).
Context (Horder : ∀ l, NoDup l → set_order l ≡ₚ l).
Context (new_client : Float → AxleClient World Float).
Notation Run := (VerifiedRun sha256_hex resolve read_text set_order new_client).
Notation verify := (verify_closure runner monotonic fadd fsub nonpositive valid_timeout elapsed_ms
  float_repr float_str float_g float_json json_float decode_bytes sha256 sha256_hex pid resolve is_dir
  type_name read_text set_order new_client).

(** C2. A run of [axle_closure_verify] always ends.  When it answers, it answers
    zero, and has a closure of what was asked for that the constructor accepts,
    made by the Lean of the environment; the sources of its owner modules, those
    on the command line if there are any; an exact closure that AXLE extracted
    and proved from them; and the bundle that these determine, which the
    constructor of bundles accepts.  The file that was asked for holds exactly
    the artifact of these, whatever happened before. *)
Theorem closure_runs_are_verified (print_out print_err : string → X → X * result Exn unit)
    (args : VerifyArguments Float) (w : World) :
  match verify print_out print_err args w with
  | None => False
  | Some (_, Raise _) => True
  | Some (w', Ok code) => code = 0 ∧ ∃ c sources exact b artifact, Run args c sources exact b ∧
      run_artifact float_json sha256_hex args c sources exact b = Ok artifact ∧
      ∀ p, va_closure_output args = Some p → ew_files w' !! path_str p = Some (artifact_text artifact)
  end.
Proof.
  pose proof (wp_verify_closure runner monotonic fadd fsub nonpositive valid_timeout elapsed_ms float_repr
    float_str float_g float_json json_float decode_bytes sha256 sha256_hex pid resolve is_dir type_name read_text
    set_order Horder new_client print_out print_err args w) as H. unfold wp in H.
  destruct (verify_closure _ _ _ _ _ _ _ _ _ _ _ _ _ _ _ _ _ _ _ _ _ _ _ _ args w) as [[w' [code|e]]|]; [|done..].
  destruct H as (-> & c & sources & exact & b & artifact & Hrun & Ha & Hw). split; [done|].
  exists c, sources, exact, b, artifact. split_and!; [done..|]. intros p Hp. by apply Hw.
Qed.

(** ** What the authority makes of a run *)

Section authority.
Context (Hclient : ∀ base, json_answers json_float (new_client base)).
Context (Hfloat : ∀ t, float_text json_float (float_json t)).
Context (Hsha : ∀ payload, digest_form (sha256_digest sha256_hex payload) = true).

(** C13. The authority reads the artifact of a run exactly when some root is a
    theorem, the exact closure has the roots of the closure of Lean, no base
    import is listed twice and the imports of the proof base are sorted; then it
    takes from it the request that the run was made for and its digests. *)
Theorem run_artifacts_are_read args c sources exact b artifact : Run args c sources exact b →
  run_artifact float_json sha256_hex args c sources exact b = Ok artifact →
  utf8_valid (artifact_text artifact) = true →
  let parsed := parse_axle sha256_hex json_float (artifact_text artifact) false in
  ((∃ p, parsed = Some (Ok p)) ↔ Readable c exact) ∧
  ∀ p, parsed = Some (Ok p) →
    ax_request p = AxleRequest (xc_environment exact) (lc_root_module c) (lc_root_declarations c)
                     (lc_base_imports c) (lc_proof_base_imports c) ∧
    ExactBuild.canonical_source_digest sha256_hex exact = Ok (ax_canonical_source_digest p) ∧
    exact_bundle_digest sha256_hex exact = Ok (ax_exact_bundle_digest p) ∧
    bundle_digest sha256_hex b = Ok (ax_independent_bundle_digest p).
Proof.
  intros Hrun Ha Hu. apply run_artifact_Ok in Ha as (d1 & d2 & d3 & d4 & d5 & -> & H2 & H3 & H4 & H5).
  split; [by eapply artifact_readable|]. intros p Hp.
  eapply parsed_readable in Hp as (_ & Hreq & -> & -> & ->); done.
Qed.

(** What stands behind the bytes that a repeated run answers. *)
Definition repeated (args : VerifyArguments Float) (output : Path) (bytes : string) : Prop :=
  ∃ c sources exact b artifact, Run args c sources exact b ∧
    run_artifact float_json sha256_hex args c sources exact b = Ok artifact ∧
    utf8_valid (artifact_text artifact) = true ∧ bytes = artifact_text artifact.

Lemma wp_live_reverify temporary_directory (a : LiveAuthority) request (w : World) :
  wp (live_reverify runner monotonic fadd fsub nonpositive valid_timeout elapsed_ms
        float_repr float_str float_g float_json json_float decode_bytes sha256 sha256_hex pid resolve is_dir
        type_name read_text set_order new_client temporary_directory a request)
    (λ r _, match r with
      | Ok bytes => ∃ output, repeated (request_arguments a request output) output bytes
      | Raise _ => True
      end) w.
Proof.
  unfold live_reverify, with_temporary_directory. apply wp_bind. unfold wp at 1.
  destruct (temporary_directory _) as [x directory]. apply wp_finally.
  set (output := path_join _ _). clearbody output. apply wp_bind.
  eapply wp_mono, wp_verify_closure; [|exact Horder].
  intros [code|e] w1 H; [|done].
  destruct H as (-> & c & sources & exact & b & artifact & Hrun & Ha & Hw).
  destruct (Hw output eq_refl) as [Hu Hf].
  apply wp_bind, wp_lift. cbn [require Z.eqb]. apply wp_bind. eapply wp_is_file; [exact Hf|].
  apply wp_bind, wp_lift. cbn [require]. eapply wp_read_bytes; [exact Hf|].
  unfold wp, update_files. exists output, c, sources, exact, b, artifact. by split_and!.
Qed.

Notation validate := (live_validate runner monotonic fadd fsub nonpositive valid_timeout elapsed_ms
  float_repr float_str float_g float_json json_float decode_bytes sha256 sha256_hex pid resolve is_dir
  type_name read_text set_order new_client).

(** C3. [LiveAxleClosureReceiptAuthorityV1.validate] always ends.  When it accepts
    a receipt it has made a run for the request in it that succeeded: there are a
    closure, sources, an exact closure and a bundle that this run verified, with
    the very roots, imports, environment and digests that the receipt claims, and
    the evidence it answers carries the receipt, the roots and the digest of that
    bundle. *)
Theorem live_authority_repeats_runs temporary_directory (a : LiveAuthority) declared (w : World) :
  match validate temporary_directory a declared w with
  | None => False
  | Some (_, Raise _) => True
  | Some (_, Ok e) => ∃ claimed output c sources exact b,
      parse_axle sha256_hex json_float (dr_canonical_receipt_bytes declared) true = Some (Ok claimed) ∧
      Run (request_arguments a (ax_request claimed) output) c sources exact b ∧ Readable c exact ∧
      ax_request claimed = AxleRequest (xc_environment exact) (lc_root_module c) (lc_root_declarations c)
                             (lc_base_imports c) (lc_proof_base_imports c) ∧
      ExactBuild.canonical_source_digest sha256_hex exact = Ok (ax_canonical_source_digest claimed) ∧
      exact_bundle_digest sha256_hex exact = Ok (ax_exact_bundle_digest claimed) ∧
      bundle_digest sha256_hex b = Ok (av_independent_bundle_digest e) ∧
      declared_of (av_acceptance e) = declared ∧
      av_root_declarations e = sort_by str_leb (lc_root_declarations c)
  end.
Proof.
  assert (wp (validate temporary_directory a declared) (λ r _, match r with
    | Raise _ => True
    | Ok e => ∃ claimed fresh output bytes, repeated (request_arguments a (ax_request claimed) output) output bytes ∧
        parse_axle sha256_hex json_float (dr_canonical_receipt_bytes declared) true = Some (Ok claimed) ∧
        parse_axle sha256_hex json_float bytes false = Some (Ok fresh) ∧
        dr_engine_identity declared = AXLE_RECEIPT_ENGINE_IDENTITY_V1 ∧
        axle_accept sha256_hex declared claimed fresh = Ok e
    end) w) as H.
  { unfold live_validate. case_bool_decide as He; [|by apply wp_raise]. apply wp_bind.
    destruct (parse_axle _ _ _ true) as [claimed|] eqn:Hp; [|by apply parse_axle_answers in Hp].
    eapply wp_fueled; [done|]. destruct claimed as [claimed|e]; [|done]. apply wp_bind.
    eapply wp_mono, wp_live_reverify. intros [bytes|e] w1 H; [|done]. destruct H as (output & H).
    apply wp_bind. destruct (parse_axle _ _ _ false) as [fresh|] eqn:Hq; [|by apply parse_axle_answers in Hq].
    eapply wp_fueled; [done|]. destruct fresh as [fresh|e]; [|done]. apply wp_lift.
    destruct (axle_accept _ _ _ _) as [e|] eqn:Ha; [|done]. by exists claimed, fresh, output, bytes. }
  unfold wp in H. destruct (validate temporary_directory a declared w) as [[w' [e|e]]|]; [|done..].
  destruct H as (claimed & fresh & output & bytes & Hrep & Hp & Hq & He & Hacc).
  destruct Hrep as (c & sources & exact & b & artifact & Hrun & Ha & Hu & ->).
  apply axle_accept_Ok in Hacc as (Hsame & Hd & _ & _ & _ & Hi & _ & Hroots); [|done].
  exists claimed, output, c, sources, exact, b. split; [done|]. split; [done|].
  apply run_artifact_Ok in Ha as (d1 & d2 & d3 & d4 & d5 & -> & H2 & H3 & H4 & H5).
  eapply parsed_readable in Hq as (Hr & Hreq & E3 & E5 & E2); [|done..].
  destruct Hsame as (-> & -> & _ & -> & _). rewrite Hi, Hroots, Hreq, E3, E5, E2. by split_and!.
Qed.
End authority.
End theorems.

(** ** A sample run *)

Definition live_runner (closure : LeanDeclarationClosure) (command : list string) (cwd : string) (timeout : option Z)
    (w : gmap string string * unit) : (gmap string string * unit) * result Exn CompletedProcess :=
  (w, Ok (MkProcess 0 (if bool_decide (command = ["lake"; "env"; "printenv"; "LEAN_PATH"]) then "/r" +:+ newline
                       else json_dumps (closure_manifest closure)) "")).
(** A service that knows one declaration, of this kind. *)
Definition live_client (kind : string) (_ : Z) : AxleClient (ExportWorld unit) Z := MkClient (ExportWorld unit) Z
  (λ _ _ _ w, (w, Ok (MkResponse [MkDocument "M.t" kind (kind +:+ " M.t") [] [] []] no_messages no_messages)))
  (λ _ _ _ _ w, (w, Ok (MkResponse (MkStatement "theorem M.t : 1 = 1 := sorry" JNull) no_messages no_messages)))
  (λ _ _ _ _ w, (w, Ok (MkResponse (MkVerified true [] (JObj []) JNull) no_messages no_messages)))
  (λ w, (w, Ok tt)).
Definition live_read (path : string) (w : ExportWorld unit) : ExportWorld unit * result Exn string :=
  (w, of_option (PyError "FileNotFoundError" path) (ew_files w !! path)).
Definition live_files : gmap string string :=
  <["/r/M.lean" := "theorem M.t : 1 = 1 := rfl" +:+ newline]> (<["/r/lake-manifest.json" := write_json (JObj [("name", JStr "m")])]> sample_files).
Notation with_sample f closure kind :=
  (f (live_runner closure) (λ x : unit, (x, 0)) Z.add Z.sub (λ t, bool_decide (t <= 0)) (λ t, bool_decide (0 < t)) Z.sub
     str_of_Z str_of_Z str_of_Z (λ _, "0.5") demo_float decode_utf8 sample_sha256 demo_hex 7 id (λ _, false)
     (λ _, "Error") live_read id (live_client kind)) (only parsing).
Definition live_arguments : VerifyArguments Z :=
  MkVerifyArguments [] "lean-4.31.0" sample_root "M" ["M.t"] [] (Some (path_of "/out.json")) [] 30 10 2.
Definition live_print (_ : string) (x : unit) : unit * result Exn unit := (x, Ok tt).
Definition live_run (closure : LeanDeclarationClosure) (kind : string) (args : VerifyArguments Z) :
    Eff (ExportWorld unit) Z :=
  with_sample (@verify_closure unit Z) closure kind live_print live_print args.
(** The file that a run leaves behind. *)
Definition live_output (closure : LeanDeclarationClosure) (kind : string) (args : VerifyArguments Z) : string :=
  match live_run closure kind args (sample_world live_files) with
  | Some (w, Ok _) => default "" (ew_files w !! "/out.json")
  | _ => ""
  end.

(** The run answers. *)
Definition succeeds {A} (o : option (ExportWorld unit * result Exn A)) : bool :=
  match o with Some (_, Ok _) => true | _ => false end.
Lemma succeeds_Ok {A} (o : option (ExportWorld unit * result Exn A)) :
  succeeds o = true → ∃ w a, o = Some (w, Ok a).
Proof. destruct o as [[w [a|e]]|]; [eauto|done..]. Qed.
Lemma live_run_succeeds : succeeds (live_run sample_closure "theorem" live_arguments (sample_world live_files)) = true.
Proof. vm_compute. reflexivity. Qed.

Lemma live_answers kind base : json_answers demo_float (live_client kind base).
Proof.
  split.
  - intros source environment names limit r (w & w' & [= <- <-]). constructor.
  - intros content source environment limit r (w & w' & [= <- <-]). split; [|constructor].
    constructor; [apply NoDup_nil_2|apply Forall_nil_2].
Qed.
Lemma live_float (t : Z) : float_text demo_float "0.5".
Proof. exact (demo_float_text ""). Qed.
Lemma live_digest payload : digest_form (sha256_digest demo_hex payload) = true.
Proof. by vm_compute. Qed.

Theorem closure_runs_are_verified_witness : ∃ w' c sources exact b artifact,
  live_run sample_closure "theorem" live_arguments (sample_world live_files) = Some (w', Ok 0) ∧
  VerifiedRun demo_hex id live_read id (live_client "theorem") live_arguments c sources exact b ∧
  ew_files w' !! "/out.json" = Some (artifact_text artifact).
Proof.
  pose proof (closure_runs_are_verified (live_runner sample_closure) (λ x, (x, 0)) Z.add Z.sub
    (λ t, bool_decide (t <= 0)) (λ t, bool_decide (0 < t)) Z.sub str_of_Z str_of_Z str_of_Z (λ _, "0.5")
    demo_float decode_utf8 sample_sha256 demo_hex 7 id (λ _, false) (λ _, "Error") live_read id
    (λ l _, reflexivity l) (live_client "theorem") live_print live_print live_arguments (sample_world live_files)) as H.
  fold (live_run sample_closure "theorem" live_arguments) in H.
  destruct (succeeds_Ok _ live_run_succeeds) as (w' & code & E). rewrite E in H.
  destruct H as (-> & c & sources & exact & b & artifact & Hrun & _ & Hw).
  exists w', c, sources, exact, b, artifact. split; [exact E|]. split; [exact Hrun|].
  exact (Hw (path_of "/out.json") eq_refl).
Defined.

Lemma live_run_verified closure kind args : is_Some (va_closure_output args) →
  match live_run closure kind args (sample_world live_files) with
  | Some (w', Ok _) => ∃ c sources exact b artifact,
      VerifiedRun demo_hex id live_read id (live_client kind) args c sources exact b ∧
      run_artifact (λ _, "0.5") demo_hex args c sources exact b = Ok artifact ∧
      utf8_valid (artifact_text artifact) = true ∧ written (va_closure_output args) artifact (ew_files w')
  | _ => True
  end.
Proof.
  intros [p Hp].
  pose proof (wp_verify_closure (live_runner closure) (λ x, (x, 0)) Z.add Z.sub
    (λ t, bool_decide (t <= 0)) (λ t, bool_decide (0 < t)) Z.sub str_of_Z str_of_Z str_of_Z (λ _, "0.5")
    demo_float decode_utf8 sample_sha256 demo_hex 7 id (λ _, false) (λ _, "Error") live_read id
    (λ l _, reflexivity l) (live_client kind) live_print live_print args (sample_world live_files)) as H.
  unfold wp in H. fold (live_run closure kind args) in H.
  destruct (live_run _ _ _ _) as [[w' [code|e]]|]; [|done..].
  destruct H as (_ & c & sources & exact & b & artifact & Hrun & Ha & Hw).
  exists c, sources, exact, b, artifact. split_and!; try done. by apply (Hw p).
Qed.

Lemma live_run_is_read :
  ∃ p, parse_axle demo_hex demo_float (live_output sample_closure "theorem" live_arguments) false = Some (Ok p).
Proof.
  assert ((λ o : option (result Exn ParsedAxleClosureArtifactV1), match o with Some (Ok _) => true | _ => false end)
    (parse_axle demo_hex demo_float (live_output sample_closure "theorem" live_arguments) false) = true) as H
    by (vm_compute; reflexivity).
  destruct (parse_axle _ _ _ _) as [[p|e]|]; [by exists p|discriminate H..].
Qed.

Theorem run_artifacts_are_read_witness : ∃ c exact p, Readable c exact ∧
  parse_axle demo_hex demo_float (live_output sample_closure "theorem" live_arguments) false = Some (Ok p) ∧
  ax_request p = AxleRequest (xc_environment exact) (lc_root_module c) (lc_root_declarations c)
                   (lc_base_imports c) (lc_proof_base_imports c).
Proof.
  pose proof (live_run_verified sample_closure "theorem" live_arguments (ltac:(by eexists))) as H.
  destruct live_run_is_read as [p Hp]. unfold live_output in *.
  destruct (succeeds_Ok _ live_run_succeeds) as (w' & code & E). rewrite E in H, Hp |- *. clear E.
  destruct H as (c & sources & exact & b & artifact & Hrun & Ha & Hu & Hw).
  destruct (Hw (path_of "/out.json") eq_refl) as [_ Hf]. change (path_str _) with "/out.json" in Hf.
  rewrite Hf in Hp |- *. cbn [default] in Hp |- *.
  destruct (run_artifacts_are_read (λ _, "0.5") demo_float demo_hex id live_read id (live_client "theorem")
    (live_answers "theorem") live_float live_digest live_arguments c sources exact b artifact Hrun Ha Hu)
    as [Hread Hall].
  exists c, exact, p. split; [apply Hread; by exists p|]. split; [done|]. by apply Hall.
Defined.

(** A run whose roots are no theorems and one whose imports of the proof base
    are not sorted succeed, and the authority reads neither. *)
Definition imports_closure (imports : list string) : LeanDeclarationClosure :=
  MkLeanClosure "4.31.0" "M" ["M.t"] ["Init"] imports [MkInterface "B.a" "axiom" [] "True" None] ["M"]
    [MkLeanDeclaration "M.t" "theorem" "M" [] (Some sample_range)] LEAN_CLOSURE_SCHEMA_ID.
Definition imports_arguments (imports : list string) : VerifyArguments Z :=
  MkVerifyArguments [] "lean-4.31.0" sample_root "M" ["M.t"] [] (Some (path_of "/out.json")) imports 30 10 2.
Definition reads (output : string) : option (option Exn) :=
  match parse_axle demo_hex demo_float output false with
  | Some (Ok _) => Some None
  | Some (Raise e) => Some (Some e)
  | None => None
  end.
Example runs_that_are_not_read :
  reads (live_output sample_closure "def" live_arguments) =
    Some (Some (AuthorityError "axle-receipt-shape-mismatch"
      "exact_bundle.theorem2sorry missing=['messages', 'request'] unknown=[]")) ∧
  reads (live_output (imports_closure ["B"; "A"]) "theorem" (imports_arguments ["B"; "A"])) =
    Some (Some (AuthorityError "axle-proof-base-import-mismatch"
      "all AXLE owner artifacts must bind the same proof-base imports")) ∧
  reads (live_output (imports_closure ["A"; "B"]) "theorem" (imports_arguments ["A"; "B"])) = Some None.
Proof. by vm_compute. Qed.

(** ** A sample of the live authority *)

Definition live_authority : LiveAuthority := MkLiveAuthority sample_root 30 10 2.
Definition live_directory (x : unit) : unit * Path := (x, path_of "/tmp/d").
Definition live_declared : DeclaredReceiptEvidenceV1 :=
  match declare_axle demo_hex demo_float (live_output sample_closure "theorem" live_arguments) with
  | Some (Ok d) => d
  | _ => DeclaredReceiptEvidence "" "" ""
  end.
Definition live_answer : option (ExportWorld unit * result Exn AuthorityVerifiedReceiptEvidenceV1) :=
  with_sample (@live_validate unit Z) sample_closure "theorem" live_directory live_authority live_declared
    (sample_world live_files).

Lemma live_answer_succeeds : succeeds live_answer = true.
Proof. vm_compute. reflexivity. Qed.

Theorem live_authority_repeats_runs_witness : ∃ w' e c exact, live_answer = Some (w', Ok e) ∧ Readable c exact ∧
  declared_of (av_acceptance e) = live_declared ∧
  av_root_declarations e = sort_by str_leb (lc_root_declarations c).
Proof.
  pose proof (live_authority_repeats_runs (live_runner sample_closure) (λ x, (x, 0)) Z.add Z.sub
    (λ t, bool_decide (t <= 0)) (λ t, bool_decide (0 < t)) Z.sub str_of_Z str_of_Z str_of_Z (λ _, "0.5")
    demo_float decode_utf8 sample_sha256 demo_hex 7 id (λ _, false) (λ _, "Error") live_read id
    (λ l _, reflexivity l) (live_client "theorem") (live_answers "theorem") live_float
    live_directory live_authority live_declared (sample_world live_files)) as H.
  fold live_answer in H. destruct (succeeds_Ok _ live_answer_succeeds) as (w' & e & E). rewrite E in H.
  destruct H as (claimed & output & c & sources & exact & b & _ & _ & Hr & _ & _ & _ & _ & Hd & Hroots).
  exists w', e, c, exact. exact (conj E (conj Hr (conj Hd Hroots))).
Defined.
