(* ===== verification/SchemeLoad.v ===== *)
(** * Loading Scheme projections ([_scheme_load*.py])

    A fragment of the control plane is a Scheme module.  Its rows are what a
    Gerbil program prints that includes a projection source and the module.
    Rows are kept in a cache of the process, in artifacts beside the module or
    below the working directory, and in compiled runners; each of them is tried
    before Gerbil is run.  Files have contents and a time of modification;
    directories are a parameter, as are Gerbil, the environment variables,
    [sha256] and what the world does to the time of a file that is written. *)

From Stdlib Require Import Ascii.
From stdpp Require Import gmap strings.
From S2P Require Import Prelude PyDict GraphTypes Receipts Text Merkle EvidenceModel SchemeDatum Anyio FunFlow FunFlowScheme Json Effects LeanExport.

Definition RuntimeError (msg : string) : Exn := PyError "RuntimeError" msg.
Definition FileNotFoundError (msg : string) : Exn := PyError "FileNotFoundError" msg.

(** ** Paths *)

(** [p.name], [p.with_name(name)], [p.parents[n]]. *)
Definition path_name (p : Path) : string := default "" (last (pt_parts p)).
Definition with_name (p : Path) (name : string) : result Exn Path :=
  if bool_decide (path_name p = "") then Raise (ValueError (path_str p +:+ " has an empty name"))
  else Ok (MkPath (pt_absolute p) (take (length (pt_parts p) - 1) (pt_parts p) ++ [name])).
Definition path_parents (p : Path) (n : nat) : result Exn Path :=
  if (S n <=? length (pt_parts p))%nat
  then Ok (MkPath (pt_absolute p) (take (length (pt_parts p) - S n) (pt_parts p)))
  else Raise (IndexError (str_of_Z (Z.of_nat n))).
Definition below (p : Path) (parts : list string) : Path := path_join p (MkPath false parts).

(** ** The world *)

Record File : Type := MkFile { fl_bytes : string; fl_mtime_ns : Z }.
(** What [_file_fingerprint] answers, and the key of a load. *)
Record Fingerprint : Type := MkFingerprint { fp_path : string; fp_mtime_ns : Z; fp_size : Z }.
#[export] Instance fingerprint_eq_dec : EqDecision Fingerprint.
Proof. solve_decision. Defined.
Record CacheKey : Type := MkCacheKey {
  ck_version : Z;
  ck_workdir : string;
  ck_module : Fingerprint;
  ck_projection : Fingerprint;
  ck_dependencies : list Fingerprint
}.
#[export] Instance cache_key_eq_dec : EqDecision CacheKey.
Proof. solve_decision. Defined.

(** [lw_cache] is [_SCHEME_LOAD_CACHE]; [lw_commands] lists the programs that
    were run. *)
Record LoadWorld (X : Type) : Type := MkLoadWorld {
  lw_files : gmap string File;
  lw_cache : dict CacheKey Value;
  lw_commands : list (list string);
  lw_rest : X
}.
Arguments MkLoadWorld {X}.
Arguments lw_files {X}. Arguments lw_cache {X}. Arguments lw_commands {X}. Arguments lw_rest {X}.

(** [repr] of a key. *)
Definition repr_fingerprint (f : Fingerprint) : string :=
  Receipts.repr_tuple [repr_str (fp_path f); str_of_Z (fp_mtime_ns f); str_of_Z (fp_size f)].
Definition repr_key (k : CacheKey) : string :=
  Receipts.repr_tuple [str_of_Z (ck_version k); repr_str (ck_workdir k); repr_fingerprint (ck_module k);
    repr_fingerprint (ck_projection k); Receipts.repr_tuple (repr_fingerprint <$> ck_dependencies k)].

(** ** Sources of the programs that are run *)

Definition scheme_string (value : string) : string :=
  dquote (replace_char dq (String bs (String dq "")) (replace_char bs (String bs (String bs "")) value)).
Definition runner_imports : list string :=
  ["(import :core/profile-composition/selection-syntax";
   "        :poo-flow/src/scenario/composition-syntax";
   "        :core/profile-composition/profile-bundle";
   "        :poo-flow/src/scenario/profile-root";
   "        :poo-flow/modules/funflow/profile-library)"].
Definition runner_source (module_path projection_path : Path) : string :=
  render_lines (runner_imports ++
    ["(include " +:+ scheme_string (path_str projection_path) +:+ ")"; "(poo-flow-runtime-load-write!";
     " (let () (include " +:+ scheme_string (path_str module_path) +:+ ")))"]).
Definition aot_runner_source (module_path projection_path : Path) : string :=
  render_lines (runner_imports ++
    ["(include " +:+ scheme_string (path_str projection_path) +:+ ")"; "(export main)"; "(def (main . args)";
     "  (poo-flow-runtime-load-write!";
     "   (let () (include " +:+ scheme_string (path_str module_path) +:+ "))))"]).

(** ** Texts of files *)

(** What reading a file as text makes of its line ends. *)
Fixpoint universal_newlines (s : string) : string :=
  match s with
  | EmptyString => ""
  | String c s' =>
      if Ascii.eqb c (chr 13) then
        match s' with
        | String d s'' => if Ascii.eqb d nl then String nl (universal_newlines s'') else String nl (universal_newlines s')
        | EmptyString => String nl ""
        end
      else String c (universal_newlines s')
  end.
(** [except (OSError, ValueError)]. *)
Definition is_unreadable (e : Exn) : bool :=
  match e with
  | PyError cls _ => bool_decide (cls ∈ ["FileNotFoundError"; "ValueError"; "UnicodeDecodeError"])
  | _ => false
  end.

(** [_rows] of an artifact. *)
Fixpoint artifact_table (text : Value → string) (rows : dict string Value) (l : list Value) : dict string Value :=
  match l with
  | [] => rows
  | row :: l =>
      match row with
      | VTuple (key :: values) | VList (key :: values) =>
          artifact_table text (dset (text key) (match values with [x] => x | _ => VTuple values end) rows) l
      | _ => []
      end
  end.
(** [artifact.get(key) == value] for a text. *)
Definition has_text (table : dict string Value) (key value : string) : bool :=
  match dget key table with Some (VStr s) => bool_decide (s = value) | _ => false end.

Definition SCHEME_LOAD_PROJECTION_ARTIFACT_SCHEMA : string := "poo-flow.scheme-load-projection-artifact.v1".
Definition SCHEME_LOAD_CACHE_RUNNER_VERSION : Z := 3.
Definition SCHEME_LOAD_DEPENDENCIES : list (list string) :=
  [["src"; "user-interface"; "init-syntax.ss"]; ["modules"; "funflow"; "runtime-load-projection.ss"];
   ["core"; "profile-composition"; "selection-syntax.ss"]; ["src"; "scenario"; "composition-syntax.ss"];
   ["core"; "profile-composition"; "profile-bundle.ss"]; ["core"; "profile-composition"; "bindings.ss"];
   ["src"; "scenario"; "profile-root.ss"]; ["src"; "scenario"; "case.ss"]; ["src"; "scenario"; "accessors.ss"];
   ["modules"; "funflow"; "config.ss"]; ["modules"; "funflow"; "config-prototypes.ss"]].
Definition PROJECTION_SOURCE : list string := ["modules"; "funflow"; "runtime-load-projection.ss"].

(** [_artifact_rows_payload]. *)
Definition artifact_rows_payload (rows : Value) : result Exn Value :=
  match rows with
  | VDict d => Ok (VTuple ((λ '(k, v), VTuple [VStr k; v]) <$> d))
  | _ => VTuple <$> iterate rows
  end.

Definition adjacent_projection_artifact (module_path : Path) : result Exn Path :=
  with_name module_path (path_name module_path +:+ ".poo-flow-projection.sexp").

Section load.
Context {X : Type}.
(** Gerbil and the compiled runners: what they print and how they change the
    files.  A program that cannot be started raises. *)
Context (runner : list string → string → option (dict string string) → gmap string File * X →
                  (gmap string File * X) * result Exn CompletedProcess).
(** The time of modification of a file that is written now; a fresh name. *)
Context (touch : X → X * Z) (temporary_file : X → X * Path).
Context (is_dir : Path → bool) (expand_resolve : Path → Path) (getcwd package_root : Path).
Context (environ : dict string string) (sha256_hex : string → string) (repr : Value → string).
Notation World := (LoadWorld X).
Notation E := (Eff World).

(** ** Files, switches, programs *)

Definition exists_at (p : Path) : E bool := λ w,
  Some (w, Ok (bool_decide (is_Some (lw_files w !! path_str p)) || is_dir p)).
Definition file_bytes (p : Path) : E string := λ w,
  Some (w, of_option (FileNotFoundError (path_str p)) (fl_bytes <$> lw_files w !! path_str p)).
Definition put_file (p : Path) (bytes : string) : E unit := λ w,
  let '(x, mtime) := touch (lw_rest w) in
  Some (MkLoadWorld (<[path_str p := MkFile bytes mtime]> (lw_files w)) (lw_cache w) (lw_commands w) x, Ok tt).
Definition unlink (p : Path) : E unit := λ w,
  Some (MkLoadWorld (delete (path_str p) (lw_files w)) (lw_cache w) (lw_commands w) (lw_rest w), Ok tt).
Definition read_text (p : Path) : E string :=
  bytes ← file_bytes p; text ← lift (decode_utf8 bytes); ret (universal_newlines text).
(** The file is emptied before the text is encoded. *)
Definition write_text (p : Path) (text : string) : E unit :=
  _ ← put_file p ""; bytes ← lift (encode_utf8 text); put_file p bytes.
Definition file_digest (p : Path) : E string := bytes ← file_bytes p; ret (sha256_hex bytes).
Definition file_fingerprint (p : Path) : E Fingerprint := λ w,
  Some (w, Ok (match lw_files w !! path_str p with
               | Some f => MkFingerprint (path_str p) (fl_mtime_ns f) (Z.of_nat (String.length (fl_bytes f)))
               | None => MkFingerprint (path_str p) (-1) (-1)
               end)).

(** [os.environ.get(name, default).strip().lower()]. *)
Definition switch (name default_value : string) : string :=
  lower (ustrip (default default_value (dget name environ))).
Definition off_words : list string := ["0"; "false"; "no"; "off"].
Definition on_words : list string := ["1"; "true"; "yes"; "on"].
Definition scheme_load_cache_enabled : bool := bool_decide (switch "POO_FLOW_SCHEME_LOAD_CACHE" "1" ∉ off_words).
Definition scheme_load_artifact_enabled : bool :=
  bool_decide (switch "POO_FLOW_SCHEME_LOAD_ARTIFACT" "1" ∉ off_words).
Definition scheme_load_aot_enabled : bool := bool_decide (switch "POO_FLOW_SCHEME_LOAD_AOT" "1" ∉ off_words).
Definition scheme_load_aot_compile_enabled : bool :=
  bool_decide (switch "POO_FLOW_SCHEME_LOAD_AOT_COMPILE" "0" ∈ on_words).

(** [subprocess.run(argv, cwd=workdir, env=env, text=True, ...)] without [check]. *)
Definition as_text (p : CompletedProcess) : CompletedProcess :=
  MkProcess (cp_returncode p) (universal_newlines (cp_stdout p)) (universal_newlines (cp_stderr p)).
Definition run_program (workdir : Path) (argv : list string) (env : option (dict string string)) :
    E CompletedProcess := λ w,
  let '((files, x), r) := runner argv (path_str workdir) env (lw_files w, lw_rest w) in
  Some (MkLoadWorld files (lw_cache w) (lw_commands w ++ [argv]) x, as_text <$> r).
(** [(exc.stderr or exc.stdout or "").strip()]. *)
Definition failure_detail (p : CompletedProcess) : string :=
  ustrip (if bool_decide (cp_stderr p = "") then cp_stdout p else cp_stderr p).
Definition failure_text (argv : list string) (p : CompletedProcess) : string :=
  str_join " " (take 3 argv) +:+ ": " +:+ failure_detail p.
(** The loop of [_run_scheme_loader] and of [_compile_aot_projection]: the first
    command that succeeds answers. *)
Fixpoint first_success (workdir : Path) (error : string → Exn) (failures : list string)
    (commands : list (list string * option (dict string string))) : E CompletedProcess :=
  match commands with
  | [] => raise (error (str_join "; " failures))
  | (argv, env) :: commands =>
      p ← run_program workdir argv env;
      if cp_returncode p =? 0 then ret p
      else first_success workdir error (failures ++ [failure_text argv p]) commands
  end.

(** ** The runner ([_scheme_load_runner.py]) *)

Fixpoint first_existing (candidates : list Path) : E (option Path) :=
  match candidates with
  | [] => ret None
  | candidate :: candidates =>
      found ← exists_at candidate;
      if found : bool then ret (Some candidate) else first_existing candidates
  end.
Definition find_runtime_projection_source (workdir : Path) : E (option Path) :=
  first_existing [below workdir PROJECTION_SOURCE; below package_root PROJECTION_SOURCE].
Definition runtime_projection_source (workdir : Path) : E Path :=
  candidate ← find_runtime_projection_source workdir;
  match candidate with
  | Some p => ret p
  | None => raise (FileNotFoundError ("cannot find Scheme runtime load projection: "
                                        +:+ str_join "/" PROJECTION_SOURCE))
  end.

Definition gerbil_env (gerbil_path : Path) (with_bin : bool) : dict string string :=
  let env := dset "GERBIL_PATH" (path_str gerbil_path) environ in
  if with_bin then dset "PATH" (path_str (below gerbil_path ["bin"]) +:+ ":" +:+ default "" (dget "PATH" env)) env
  else env.
Definition has_poo_flow (gerbil_path : Path) : E bool := exists_at (below gerbil_path ["lib"; "poo-flow"]).
Fixpoint first_gerbil (candidates : list Path) : E (option Path) :=
  match candidates with
  | [] => ret None
  | candidate :: candidates =>
      found ← has_poo_flow candidate;
      if found : bool then ret (Some candidate) else first_gerbil candidates
  end.
Definition direct_scheme_loader_env (workdir : Path) : E (option (dict string string)) :=
  let inherited := match dget "GERBIL_PATH" environ with
                   | Some text => if bool_decide (text = "") then [] else [path_of text]
                   | None => []
                   end in
  let workspace_candidate := below workdir [".gerbil"] in
  found ← first_gerbil (inherited ++ [workspace_candidate]);
  ret ((λ gerbil_path, gerbil_env gerbil_path (bool_decide (gerbil_path = workspace_candidate))) <$> found).
Definition scheme_loader_commands (workdir runner_path : Path) :
    E (list (list string * option (dict string string))) :=
  let fallback := (["gxpkg"; "env"; "gxi"; path_str runner_path], None) in
  direct_env ← direct_scheme_loader_env workdir;
  ret (match direct_env with
       | None => [fallback]
       | Some env => [(["gxi"; path_str runner_path], Some env); fallback]
       end).
Definition run_scheme_loader (module_path workdir runner_path : Path) : E CompletedProcess :=
  commands ← scheme_loader_commands workdir runner_path;
  first_success workdir
    (λ failures, RuntimeError ("Scheme load failed for " +:+ path_str module_path +:+ ": " +:+ failures)) []
    commands.
Definition fresh_file : E Path := λ w,
  let '(x, p) := temporary_file (lw_rest w) in
  Some (MkLoadWorld (lw_files w) (lw_cache w) (lw_commands w) x, Ok p).
Definition run_scheme_projection (module_path workdir projection_path : Path) : E Value :=
  runner_path ← fresh_file;
  _ ← write_text runner_path (runner_source module_path projection_path);
  result ← finally (run_scheme_loader module_path workdir runner_path) (unlink runner_path);
  fueled (parse_scheme_datum (cp_stdout result)).

(** ** The cache of the process ([_scheme_load_cache.py]) *)

Definition scheme_load_cache_key (module_path workdir projection_path : Path) : E CacheKey :=
  project_root ← lift (path_parents projection_path 2);
  module ← file_fingerprint module_path;
  projection ← file_fingerprint projection_path;
  dependencies ← each (λ dependency, file_fingerprint (below project_root dependency)) SCHEME_LOAD_DEPENDENCIES;
  ret (MkCacheKey SCHEME_LOAD_CACHE_RUNNER_VERSION (path_str workdir) module projection dependencies).
Definition get_cached_projection_rows (key : CacheKey) : E (option Value) := λ w, Some (w, Ok (dget key (lw_cache w))).
Definition store_cached_projection_rows (key : CacheKey) (rows : Value) : E unit := λ w,
  Some (MkLoadWorld (lw_files w) (dset key rows (lw_cache w)) (lw_commands w) (lw_rest w), Ok tt).
Definition clear_load_cache : E unit := λ w,
  Some (MkLoadWorld (lw_files w) [] (lw_commands w) (lw_rest w), Ok tt).

(** ** Artifacts ([_scheme_load_artifact.py]) *)

Definition cached_projection_artifact (workdir : Path) (key : CacheKey) : Path :=
  let digest := sha256_hex (repr_key key) in
  below workdir [".cache"; "poo-flow-runtime-projections"; String.substring 0 2 digest; digest; "projection.sexp"].
Definition projection_artifact_candidates (module_path workdir : Path) (key : CacheKey) : result Exn (list Path) :=
  adjacent ← adjacent_projection_artifact module_path;
  Ok [adjacent; cached_projection_artifact workdir key].

Definition artifact_fingerprints (module_path : Path) (projection_path : option Path) : E (string * string) :=
  projection_digest ← match projection_path with None => ret "" | Some p => file_digest p end;
  source_digest ← file_digest module_path;
  ret (source_digest, projection_digest).

(** The rows of an artifact that is for these sources. *)
Definition artifact_rows (artifact : Value) (expected : string * string) (require_projection_digest : bool) :
    option Value :=
  let table := artifact_table (py_str repr) [] (match artifact with VTuple l => l | _ => [] end) in
  if negb (has_text table "schema" SCHEME_LOAD_PROJECTION_ARTIFACT_SCHEMA) then None
  else if negb (has_text table "source-digest" expected.1) then None
  else if require_projection_digest && negb (has_text table "projection-digest" expected.2) then None
  else match dget "rows" table with Some (VTuple l) => Some (VTuple l) | _ => None end.
Definition read_artifact_rows (artifact_path : Path) (expected : string * string)
    (require_projection_digest : bool) : E (option Value) :=
  artifact ← except (text ← read_text artifact_path; v ← fueled (parse_scheme_datum text); ret (Some v))
               (λ e, if is_unreadable e then ret None else raise e);
  ret (artifact ← artifact; artifact_rows artifact expected require_projection_digest).
Fixpoint first_artifact (expected : string * string) (candidates : list Path) : E (option Value) :=
  match candidates with
  | [] => ret None
  | artifact_path :: candidates =>
      found ← exists_at artifact_path;
      rows ← (if found : bool then read_artifact_rows artifact_path expected true else ret None);
      match rows with Some rows => ret (Some rows) | None => first_artifact expected candidates end
  end.
Definition load_projection_artifact (module_path workdir projection_path : Path) (key : CacheKey) :
    E (option Value) :=
  expected ← artifact_fingerprints module_path (Some projection_path);
  candidates ← lift (projection_artifact_candidates module_path workdir key);
  first_artifact expected candidates.
Definition load_adjacent_projection_artifact (module_path : Path) (projection_path : option Path) :
    E (option Value) :=
  artifact_path ← lift (adjacent_projection_artifact module_path);
  found ← exists_at artifact_path;
  if found : bool then
    expected ← artifact_fingerprints module_path projection_path;
    read_artifact_rows artifact_path expected (bool_decide (is_Some projection_path))
  else ret None.
Definition read_projection_artifact (artifact_path module_path projection_path : Path) : E (option Value) :=
  expected ← artifact_fingerprints module_path (Some projection_path);
  read_artifact_rows artifact_path expected true.

Definition artifact_datum (digests : string * string) (payload : Value) : Value :=
  VTuple [VTuple [VStr "schema"; VStr SCHEME_LOAD_PROJECTION_ARTIFACT_SCHEMA];
          VTuple [VStr "source-digest"; VStr digests.1]; VTuple [VStr "projection-digest"; VStr digests.2];
          VTuple [VStr "rows"; payload]].
Definition write_projection_artifact (path module_path projection_path : Path) (rows : Value) : E Path :=
  digests ← artifact_fingerprints module_path (Some projection_path);
  payload ← lift (artifact_rows_payload rows);
  text ← lift (write_scheme_datum (artifact_datum digests payload));
  _ ← write_text path (text +:+ newline);
  ret path.

(** ** Compiled runners ([_scheme_load_aot.py]) *)

Record SchemeAotArtifact : Type := MkSchemeAotArtifact { aot_source : Path; aot_binary : Path }.
Definition scheme_aot_artifact (workdir : Path) (key : CacheKey) : SchemeAotArtifact :=
  let digest := sha256_hex (repr_key key) in
  let artifact_dir := below workdir [".cache"; "poo-flow-runtime-aot"; String.substring 0 2 digest; digest] in
  MkSchemeAotArtifact (below artifact_dir ["projection-runner.ss"]) (below artifact_dir ["projection-runner"]).
Definition direct_gerbil_env (workdir : Path) : E (option (dict string string)) :=
  let gerbil_path := below workdir [".gerbil"] in
  found ← has_poo_flow gerbil_path;
  ret (if found : bool then Some (gerbil_env gerbil_path true) else None).
(** [run_aot_projection]; the process may have failed, where the code raises. *)
Definition run_aot_projection (workdir : Path) (key : CacheKey) : E (option CompletedProcess) :=
  let artifact := scheme_aot_artifact workdir key in
  found ← exists_at (aot_binary artifact);
  if found : bool then
    env ← direct_gerbil_env workdir;
    p ← run_program workdir [path_str (aot_binary artifact)] (Some (default environ env));
    ret (Some p)
  else ret None.
Definition scheme_aot_compile_commands (workdir : Path) (artifact : SchemeAotArtifact) :
    E (list (list string * option (dict string string))) :=
  let output := ["-exe"; "-o"; path_str (aot_binary artifact); path_str (aot_source artifact)] in
  let fallback := (["gxpkg"; "env"; "gxc"] ++ output, None) in
  direct_env ← direct_gerbil_env workdir;
  ret (match direct_env with
       | None => [fallback]
       | Some env => [(["gxc"] ++ output, Some env); fallback]
       end).
Definition compile_aot_projection (workdir : Path) (artifact : SchemeAotArtifact) : E unit :=
  commands ← scheme_aot_compile_commands workdir artifact;
  _ ← first_success workdir (λ failures, RuntimeError ("Scheme AOT compile failed: " +:+ failures)) [] commands;
  ret tt.
Definition build_aot_projection (workdir : Path) (key : CacheKey) (source : string) : E SchemeAotArtifact :=
  let artifact := scheme_aot_artifact workdir key in
  _ ← write_text (aot_source artifact) source;
  _ ← compile_aot_projection workdir artifact;
  ret artifact.

(** ** Loading ([_scheme_load.py]) *)

(** The switches of a load. *)
Record LoadOptions : Type := MkLoadOptions {
  lo_cache : bool;
  lo_projection_artifact : bool;
  lo_aot : bool;
  lo_compile_aot : bool
}.
Definition default_options : LoadOptions := MkLoadOptions true true true false.

Definition load_aot_projection_rows (module_path workdir projection_path : Path) (key : CacheKey)
    (aot compile_aot : bool) : E (option Value) :=
  if negb (aot && scheme_load_aot_enabled) then ret None
  else
    let should_compile := compile_aot || scheme_load_aot_compile_enabled in
    _ ← (if should_compile
         then _ ← build_aot_projection workdir key (aot_runner_source module_path projection_path); ret tt
         else ret tt);
    result ← run_aot_projection workdir key;
    match result with
    | None => ret None
    | Some p =>
        if cp_returncode p =? 0 then
          rows ← fueled (parse_scheme_datum (cp_stdout p)); ret (Some rows)
        else if should_compile
        then raise (RuntimeError ("Scheme AOT runner failed for " +:+ path_str module_path +:+ ": " +:+ failure_detail p))
        else ret None
    end.

(** [_load_projection_rows_uncached] and the routes before it, in their order. *)
Definition remember (options : LoadOptions) (key : CacheKey) (rows : Value) : E unit :=
  if lo_cache options && scheme_load_cache_enabled then store_cached_projection_rows key rows else ret tt.
Definition load_from_sources (options : LoadOptions) (module_path workdir projection_path : Path) : E Value :=
  key ← scheme_load_cache_key module_path workdir projection_path;
  cached ← (if lo_cache options && scheme_load_cache_enabled then get_cached_projection_rows key else ret None);
  match cached with
  | Some rows => ret rows
  | None =>
      artifact ← (if lo_projection_artifact options && scheme_load_artifact_enabled
                  then load_projection_artifact module_path workdir projection_path key else ret None);
      match artifact with
      | Some rows => _ ← remember options key rows; ret rows
      | None =>
          compiled ← load_aot_projection_rows module_path workdir projection_path key (lo_aot options)
                       (lo_compile_aot options);
          match compiled with
          | Some rows => _ ← remember options key rows; ret rows
          | None =>
              rows ← run_scheme_projection module_path workdir projection_path;
              _ ← remember options key rows;
              ret rows
          end
      end
  end.

Definition module_of (path : Path) : Path := expand_resolve path.
Definition workdir_of (cwd : option Path) : Path := match cwd with Some p => expand_resolve p | None => getcwd end.
Definition load_projection_rows (path : Path) (cwd : option Path) (options : LoadOptions) : E Value :=
  let module_path := module_of path in
  let workdir := workdir_of cwd in
  projection_path ← find_runtime_projection_source workdir;
  match projection_path with
  | Some projection_path => load_from_sources options module_path workdir projection_path
  | None =>
      rows ← (if lo_projection_artifact options && scheme_load_artifact_enabled
              then load_adjacent_projection_artifact module_path None else ret None);
      match rows with
      | Some rows => ret rows
      | None =>
          projection_path ← runtime_projection_source workdir;
          load_from_sources options module_path workdir projection_path
      end
  end.

Definition precompile_load (path : Path) (cwd : option Path) (force : bool) : E Path :=
  let module_path := module_of path in
  let workdir := workdir_of cwd in
  projection_path ← runtime_projection_source workdir;
  key ← scheme_load_cache_key module_path workdir projection_path;
  let artifact := scheme_aot_artifact workdir key in
  found ← (if force : bool then ret false else exists_at (aot_binary artifact));
  _ ← (if found : bool then ret artifact
       else build_aot_projection workdir key (aot_runner_source module_path projection_path));
  ret (aot_binary artifact).

Definition preproject_load (path : Path) (cwd output : option Path) (force : bool) : E Path :=
  let module_path := module_of path in
  let workdir := workdir_of cwd in
  projection_path ← runtime_projection_source workdir;
  artifact_path ← match output with
                  | Some p => ret (expand_resolve p)
                  | None => lift (adjacent_projection_artifact module_path)
                  end;
  found ← (if force : bool then ret false else exists_at artifact_path);
  kept ← (if found : bool then read_projection_artifact artifact_path module_path projection_path else ret None);
  match kept with
  | Some _ => ret artifact_path
  | None =>
      rows ← load_projection_rows module_path (Some workdir) (MkLoadOptions false false true false);
      write_projection_artifact artifact_path module_path projection_path rows
  end.

Definition load {C : Type} (path : Path) (actions : dict string (RuntimeState → C)) (cwd : option Path)
    (options : LoadOptions) : E (FunFlowPlanProjection C) :=
  rows ← load_projection_rows path cwd options;
  lift (funflow_projection_from_scheme_plan repr rows actions None).
End load.
