(* ===== verification/SchemeLoadFacts.v ===== *)
(** * Reading artifacts and loading rows

    Reading a file as text turns line ends into line feeds; the reader of data
    commutes with that.  Then: what a load answers, and where its rows come from
    ([Obtained], [Provided], [Current]: from an artifact, a compiled runner or
    Gerbil, when the files were what they are); and that a module that was
    projected before loads without a program, from the cache or its artifact. *)

From Stdlib Require Import Ascii.
From stdpp Require Import gmap strings.
From S2P Require Import Prelude PyDict GraphTypes Receipts Text SchemeDatum Merkle EvidenceModel Json Effects LeanExport SchemeLoad.

(** Induction on the length. *)
Lemma string_length_ind (P : string → Prop) :
  (∀ s, (∀ t, (String.length t < String.length s)%nat → P t) → P s) → ∀ s, P s.
Proof. intros H s. induction (well_founded_ltof _ String.length s) as [s _ IH]. by apply H. Qed.

(** ** Line ends *)

Definition cr : ascii := chr 13.
Definition to_newline (c : ascii) : ascii := if Ascii.eqb c cr then nl else c.
Fixpoint newlines (s : string) : string :=
  match s with EmptyString => "" | String c s => String (to_newline c) (newlines s) end.
Fixpoint value_newlines (v : Value) : Value :=
  match v with
  | VStr s => VStr (newlines s)
  | VTuple l => VTuple (value_newlines <$> l)
  | v => v
  end.

Lemma newlines_app s t : newlines (s +:+ t) = newlines s +:+ newlines t.
Proof. induction s as [|c s IH]; [done|]. rewrite sapp_cons. cbn. by rewrite IH. Qed.
Lemma newlines_length s : String.length (newlines s) = String.length s.
Proof. induction s as [|c s IH]; [done|]. cbn. by rewrite IH. Qed.
Lemma newlines_drop n s : sdrop n (newlines s) = newlines (sdrop n s).
Proof. revert s. induction n as [|n IH]; intros [|c s]; [done..|]. apply IH. Qed.
Lemma newlines_none s : sforall (λ c, negb (Ascii.eqb c cr)) s = true → newlines s = s.
Proof.
  induction s as [|c s IH]; [done|]. intros [Hc Hs]%sforall_cons. cbn. rewrite IH by done. f_equal.
  unfold to_newline. by apply negb_true_iff in Hc as ->.
Qed.
Lemma newlines_empty s : newlines s = "" ↔ s = "".
Proof. by destruct s. Qed.

Lemma to_newline_eqb c d : d ≠ cr → d ≠ nl → Ascii.eqb (to_newline c) d = Ascii.eqb c d.
Proof.
  intros Hc Hn. unfold to_newline. destruct (Ascii.eqb_spec c cr) as [->|]; [|done].
  rewrite (proj2 (Ascii.eqb_neq nl d)), (proj2 (Ascii.eqb_neq cr d)); congruence.
Qed.
Lemma white_newlines s : white_prefix (newlines s) = white_prefix s.
Proof.
  destruct s as [|c [|d s]]; [done|by destruct c as [[] [] [] [] [] [] [] []]|].
  assert (white_prefix (String c (String (to_newline d) (newlines s))) = white_prefix (String c (String d s))) as E.
  { destruct c as [[] [] [] [] [] [] [] []]; try reflexivity.
    all: destruct d as [[] [] [] [] [] [] [] []]; try reflexivity.
    all: destruct s as [|e s]; try reflexivity.
    all: destruct e as [[] [] [] [] [] [] [] []]; reflexivity. }
  rewrite <-E. cbn [newlines]. unfold to_newline at 1. destruct (Ascii.eqb_spec c cr) as [->|]; [|done].
  by rewrite E.
Qed.

Lemma skip_newlines s : ∀ n, skip_space n (newlines s) = newlines (skip_space n s).
Proof.
  induction s as [|c s IH]; intros n; [done|]. pose proof (white_newlines (String c s)) as E.
  cbn [newlines skip_space] in *. destruct n as [|n]; [|apply IH]. rewrite E.
  by destruct (white_prefix (String c s)).
Qed.
Lemma starts_white_newlines s : starts_white (newlines s) = starts_white s.
Proof. unfold starts_white. by rewrite white_newlines. Qed.
Lemma dot_token_newlines s : dot_token (newlines s) = dot_token s.
Proof.
  destruct s as [|c s]; [done|]. cbn [newlines dot_token]. rewrite to_newline_eqb by done.
  rewrite starts_white_newlines, (bool_decide_ext _ _ (newlines_empty s)).
  destruct s as [|d s]; [done|]. cbn [newlines]. by rewrite to_newline_eqb.
Qed.
Lemma atom_newlines s : atom_token (newlines s) = ((atom_token s).1, newlines (atom_token s).2).
Proof.
  induction s as [|c s IH]; [done|].
  assert (ends_atom (newlines (String c s)) = ends_atom (String c s)) as E.
  { pose proof (starts_white_newlines (String c s)) as E. cbn [newlines ends_atom] in *.
    by rewrite E, !to_newline_eqb by done. }
  change (newlines (String c s)) with (String (to_newline c) (newlines s)) in *. cbn [atom_token].
  rewrite E. destruct (ends_atom (String c s)) eqn:Ha; [done|]. rewrite IH.
  destruct (atom_token s) as [token rest]. cbn [fst snd]. f_equal. f_equal.
  unfold to_newline. destruct (Ascii.eqb_spec c cr) as [->|]; [|done]. cbn in Ha. done.
Qed.
Lemma atom_newline_free s : newlines (atom_token s).1 = (atom_token s).1.
Proof.
  induction s as [|c s IH]; [done|]. cbn [atom_token]. destruct (ends_atom (String c s)) eqn:Ha; [done|].
  destruct (atom_token s) as [token rest]. cbn in *. rewrite IH. f_equal.
  unfold to_newline. destruct (Ascii.eqb_spec c cr) as [->|]; [|done]. done.
Qed.

(** What the reader answers on the translated text. *)
Definition newlines_result (r : result Exn (string * string)) : result Exn (string * string) :=
  (λ '(chars, rest), (newlines chars, newlines rest)) <$> r.
Definition newlines_answer (r : result Exn (Value * string)) : result Exn (Value * string) :=
  (λ '(v, rest), (value_newlines v, newlines rest)) <$> r.

Lemma string_chars_newlines s : string_chars (newlines s) = newlines_result (string_chars s).
Proof.
  revert s; apply string_length_ind; intros s IH.
  destruct s as [|c s]; [done|]. cbn [newlines string_chars]. rewrite !to_newline_eqb by done.
  destruct (Ascii.eqb c dq); [done|]. destruct (Ascii.eqb c bs).
  - destruct s as [|e s]; [done|]. cbn [newlines]. rewrite IH by (cbn; lia).
    destruct (string_chars s) as [[chars rest]|err]; [|done]. cbn. do 4 f_equal.
    rewrite to_newline_eqb by done. destruct (Ascii.eqb_spec e "n") as [->|]; reflexivity.
  - rewrite IH by (cbn; lia). by destruct (string_chars s) as [[chars rest]|err].
Qed.
Lemma parse_string_newlines s : parse_string (newlines s) = newlines_result (parse_string s).
Proof.
  unfold parse_string, consume. destruct s as [|c s]; [done|]. cbn [newlines peek mbind result_bind].
  rewrite to_newline_eqb by done. destruct (Ascii.eqb c dq); [|done]. cbn [mbind result_bind].
  change (String (to_newline c) (newlines s)) with (newlines (String c s)).
  by rewrite newlines_drop, string_chars_newlines.
Qed.
Lemma parse_atom_newlines s : parse_atom (newlines s) = newlines_answer (parse_atom s).
Proof.
  unfold parse_atom. rewrite atom_newlines. pose proof (atom_newline_free s) as Hf.
  destruct (atom_token s) as [token rest]. cbn [fst snd] in *. case_bool_decide; [done|].
  unfold atom_value. repeat case_bool_decide; try done.
  destruct (isdigit _); [destruct (int10 token); done|]. cbn. by rewrite Hf.
Qed.
Lemma dotted_newlines items cdr :
  value_newlines (dotted items cdr) = dotted (value_newlines <$> items) (value_newlines cdr).
Proof. unfold dotted. induction items as [|v items IH]; [done|]. cbn. by rewrite IH. Qed.

(** The reader commutes with the translation of line ends. *)
Lemma datum_newlines fuel :
  (∀ s, datum fuel (newlines s) = newlines_answer <$> datum fuel s) ∧
  ∀ items s, list_items fuel (value_newlines <$> items) (newlines s) = newlines_answer <$> list_items fuel items s.
Proof.
  induction fuel as [|fuel [IHd IHl]]; [done|].
  assert (∀ s, peek (newlines s) = to_newline <$> peek s) as Hpeek by (by intros [|c s]).
  split.
  - intros s. cbn [datum]. rewrite skip_newlines, Hpeek. destruct (peek (skip_space 0 s)) as [c|e] eqn:E; [|done].
    cbn [fmap result_fmap]. rewrite !to_newline_eqb by done. rewrite !newlines_drop.
    destruct (Ascii.eqb c "("); [apply (IHl [])|]. destruct (Ascii.eqb c dq).
    { rewrite parse_string_newlines. by destruct (parse_string _) as [[chars rest]|]. }
    assert (bool_decide (peek_next (newlines (skip_space 0 s)) = Some "("%char)
            = bool_decide (peek_next (skip_space 0 s) = Some "("%char)) as ->.
    { apply bool_decide_ext. destruct (skip_space 0 s) as [|? [|d t]]; [done..|]. cbn.
      pose proof (to_newline_eqb d "("%char) as Hd. split; intros [= Hp]; f_equal.
      - apply Ascii.eqb_eq. rewrite <-Hd by done. by rewrite Hp.
      - apply Ascii.eqb_eq. rewrite Hd by done. by rewrite Hp. }
    destruct (_ && _); [apply (IHl [])|]. by rewrite parse_atom_newlines.
  - intros items s. cbn [list_items]. rewrite skip_newlines, Hpeek.
    destruct (peek (skip_space 0 s)) as [c|e] eqn:E; [|done]. cbn [fmap result_fmap].
    rewrite !to_newline_eqb by done. rewrite dot_token_newlines, !newlines_drop.
    destruct (Ascii.eqb c ")"); [done|]. destruct (dot_token _).
    + destruct items as [|v items]; [done|]. cbn [fmap list_fmap]. rewrite IHd.
      destruct (datum fuel _) as [[[cdr rest]|]|]; [|done..]. cbn -[sdrop]. unfold consume.
      rewrite skip_newlines, Hpeek. destruct (peek (skip_space 0 rest)) as [d|]; [|done]. cbn -[sdrop].
      rewrite to_newline_eqb by done. destruct (Ascii.eqb d ")"); [|done]. cbn -[sdrop].
      rewrite newlines_drop. pose proof (dotted_newlines items cdr) as Hd. unfold dotted in Hd. by rewrite Hd.
    + rewrite IHd. destruct (datum fuel _) as [[[v rest]|]|]; [|done..]. cbn [fmap option_fmap option_map newlines_answer result_fmap].
      rewrite <-IHl. f_equal. by rewrite fmap_app.
Qed.

Lemma parse_newlines s : parse_scheme_datum (newlines s) = (λ r : result Exn Value, value_newlines <$> r) <$> parse_scheme_datum s.
Proof.
  unfold parse_scheme_datum, parser_parse. rewrite newlines_length, (proj1 (datum_newlines _)).
  destruct (datum _ s) as [[[v rest]|]|]; [|done..]. cbn. rewrite skip_newlines.
  rewrite (bool_decide_ext _ _ (newlines_empty _)). case_bool_decide; [|done]. by destruct v.
Qed.

Lemma newlines_universal s : newlines (universal_newlines s) = universal_newlines s.
Proof.
  revert s; apply string_length_ind; intros s IH. destruct s as [|c s]; [done|]. cbn [universal_newlines].
  change (chr 13) with cr. destruct (Ascii.eqb c cr) eqn:Hc.
  - destruct s as [|d s]; [done|]. destruct (Ascii.eqb d nl); cbn [newlines]; rewrite IH by (cbn; lia); done.
  - cbn [newlines]. rewrite IH by (cbn; lia). unfold to_newline. by rewrite Hc.
Qed.

Lemma universal_twice s : universal_newlines (universal_newlines s) = universal_newlines s.
Proof.
  assert (∀ t, newlines t = t → universal_newlines t = t) as H; [|apply H, newlines_universal].
  intros t. induction t as [|c t IH]; [done|]. cbn [newlines universal_newlines]. intros [= Hc Ht].
  change (chr 13) with cr. unfold to_newline in Hc. destruct (Ascii.eqb_spec c cr) as [->|]; [discriminate Hc|].
  by rewrite IH.
Qed.

(** Texts that are written hold no line feed, so each carriage return becomes one. *)
Definition newline_free (s : string) : bool := sforall (λ c, negb (Ascii.eqb c nl)) s.
Lemma newline_free_app s t : newline_free (s +:+ t) = true ↔ newline_free s = true ∧ newline_free t = true.
Proof. apply sforall_app. Qed.
Lemma universal_newlines_app t c : Ascii.eqb c nl = false →
  universal_newlines (String c t) = newlines (String c t) → ∀ s, newline_free s = true →
  universal_newlines (s +:+ String c t) = newlines (s +:+ String c t).
Proof.
  intros Hc Ht s. revert s; apply (string_length_ind (λ s, newline_free s = true → _)). intros s IH Hs.
  destruct s as [|d s]; [done|]. apply sforall_cons in Hs as [Hd Hs]. rewrite !sapp_cons.
  cbn [universal_newlines newlines]. unfold to_newline. change (chr 13) with cr.
  rewrite (IH s) by (done || (cbn; lia)). destruct (Ascii.eqb d cr); [|done].
  destruct s as [|e s]; [by rewrite sapp_nil_l, Hc|]. rewrite sapp_cons.
  apply sforall_cons in Hs as [He _]. by apply negb_true_iff in He as ->.
Qed.
Lemma universal_newlines_closed s : newline_free s = true →
  universal_newlines (s +:+ ")" +:+ newline) = newlines (s +:+ ")" +:+ newline).
Proof. by apply universal_newlines_app. Qed.

Lemma newline_free_join texts : Forall (λ t, newline_free t = true) texts →
  newline_free (str_join " " texts) = true.
Proof.
  induction 1 as [|t texts Ht Hts IH]; [done|]. destruct texts as [|t' texts]; [done|].
  change (str_join " " (t :: t' :: texts)) with (t +:+ " " +:+ str_join " " (t' :: texts)).
  rewrite !newline_free_app. done.
Qed.
Lemma write_newline_free v : ∀ text, write_scheme_datum v = Ok text → newline_free text = true.
Proof.
  induction v as [|b|z|s|s|d|cls f|l IH|l IH] using datum_ind; intros text Hw; try discriminate Hw.
  - by destruct b; injection Hw as <-.
  - injection Hw as <-. destruct (str_of_Z_atom z) as (c & token & -> & _ & _ & Ha & _).
    revert Ha. generalize (String c token). intros t. induction t as [|d t IH]; [done|].
    intros [Hd Ht]%sforall_cons. apply sforall_cons. split; [|by apply IH].
    by destruct d as [[] [] [] [] [] [] [] []].
  - injection Hw as <-. apply sforall_cons. split; [done|]. apply newline_free_app. split; [|done].
    induction s as [|c s IH]; [done|]. rewrite escape_cons. apply newline_free_app. split; [|done].
    unfold escape_char. destruct (Ascii.eqb c bs); [done|]. destruct (Ascii.eqb c dq); [done|].
    destruct (Ascii.eqb c nl) eqn:E; [done|]. apply sforall_cons. by rewrite E.
  - rewrite (proj2 (write_list l)) in Hw. apply bind_Ok in Hw as (texts & Ht%mapM_Ok & [= <-]).
    rewrite !newline_free_app. split_and!; [done| |done]. apply newline_free_join.
    clear -IH Ht. induction Ht; inversion IH; subst; constructor; auto.
  - rewrite (proj1 (write_list l)) in Hw. apply bind_Ok in Hw as (texts & Ht%mapM_Ok & [= <-]).
    rewrite !newline_free_app. split_and!; [done| |done]. apply newline_free_join.
    clear -IH Ht. induction Ht; inversion IH; subst; constructor; auto.
Qed.

(** What is read of a file that a datum was written to. *)
Lemma read_written l text : write_scheme_datum (VTuple l) = Ok text →
  parse_scheme_datum (universal_newlines (text +:+ newline)) = Some (Ok (value_newlines (datum_norm (VTuple l)))).
Proof.
  intros Hw. assert (universal_newlines (text +:+ newline) = newlines (text +:+ newline)) as ->.
  { pose proof (write_newline_free _ _ Hw) as Hf. rewrite (proj1 (write_list l)) in Hw.
    apply bind_Ok in Hw as (texts & _ & [= <-]). rewrite !newline_free_app in Hf. destruct Hf as (_ & Hf & _).
    assert (("(" +:+ str_join " " texts +:+ ")") +:+ newline = ("(" +:+ str_join " " texts) +:+ ")" +:+ newline) as ->
      by by rewrite !sapp_assoc.
    apply universal_newlines_closed. by apply newline_free_app. }
  rewrite parse_newlines. unfold parse_scheme_datum, parser_parse.
  rewrite (datum_write (VTuple l) text newline _ Hw eq_refl (le_n _)). done.
Qed.

(** ** The places of artifacts *)

Lemma list_ascii_app s t :
  String.list_ascii_of_string (s +:+ t) = String.list_ascii_of_string s ++ String.list_ascii_of_string t.
Proof. induction s as [|c s IH]; [done|]. rewrite sapp_cons. cbn. by rewrite IH. Qed.
(** All paths that differ in their last part only have texts that do. *)
Lemma path_text_snoc absolute parts : ∃ before, ∀ name, name ≠ "" →
  path_str (MkPath absolute (parts ++ [name])) = before +:+ name.
Proof.
  assert (∃ before, ∀ name, str_join "/" (parts ++ [name]) = before +:+ name) as [before Hb].
  { induction parts as [|part parts [before IH]]; [by exists ""|].
    exists (part +:+ "/" +:+ before). intros name. cbn [app]. destruct (parts ++ [name]) as [|x l] eqn:E;
      [by destruct parts|]. change (str_join "/" (part :: x :: l)) with (part +:+ "/" +:+ str_join "/" (x :: l)).
    rewrite <-E, IH. by rewrite !sapp_assoc. }
  exists ((if absolute then "/" else "") +:+ before). intros name Hn. unfold path_str. cbn [pt_absolute pt_parts].
  rewrite Hb, <-sapp_assoc. rewrite bool_decide_eq_false_2; [done|].
  intros E. apply (f_equal String.length) in E. rewrite !slen_app in E. destruct name; [done|cbn in E; lia].
Qed.

Lemma adjacent_elsewhere module p root : adjacent_projection_artifact module = Ok p →
  path_str p ≠ path_str module ∧ path_str p ≠ path_str (below root PROJECTION_SOURCE).
Proof.
  unfold adjacent_projection_artifact, with_name. destruct module as [absolute parts].
  case_bool_decide as Hne; [done|]. intros [= <-]. unfold path_name in Hne |- *. cbn [pt_parts pt_absolute] in Hne |- *.
  destruct (last parts) as [name|] eqn:El; [|done]. apply last_Some in El as [l ->]. cbn [default] in Hne |- *.
  rewrite length_app. cbn [length default]. replace (length l + 1 - 1)%nat with (length l) by lia.
  rewrite take_app_length. destruct (path_text_snoc absolute l) as [before Hb].
  set (suffix := ".poo-flow-projection.sexp").
  assert (name +:+ suffix ≠ "") as Hs by (by destruct name). cbn in Hne. rewrite !Hb by done. split.
  - intros E. apply (f_equal String.length) in E. rewrite !slen_app in E. cbn in E. lia.
  - change (below root PROJECTION_SOURCE) with (MkPath (pt_absolute root)
      (pt_parts root ++ ["modules"; "funflow"; "runtime-load-projection.ss"])).
    destruct (path_text_snoc (pt_absolute root) (pt_parts root ++ ["modules"; "funflow"])) as [before' Hb'].
    pose proof (Hb' "runtime-load-projection.ss" ltac:(done)) as Hq. rewrite <-app_assoc in Hq. cbn [app] in Hq.
    rewrite Hq. intros E. apply (f_equal (λ s, last (String.list_ascii_of_string s))) in E.
    rewrite !list_ascii_app in E. unfold suffix in E. cbn [String.list_ascii_of_string] in E.
    rewrite !last_app in E. done.
Qed.

(** ** What operations answer *)

Lemma bind_answers {W A B} (m : Eff W A) (f : A → Eff W B) w w' b :
  (m ≫= f) w = Some (w', Ok b) ↔ ∃ w1 a, m w = Some (w1, Ok a) ∧ f a w1 = Some (w', Ok b).
Proof.
  unfold mbind, Eff_bind. destruct (m w) as [[w1 [a|e]]|]; [|naive_solver..]. split; [eauto|].
  by intros (w2 & a' & [= -> ->] & H).
Qed.

(** What the reader answers holds tuples only. *)
Lemma dotted_norm items cdr : Forall (λ v, datum_norm v = v) items → datum_norm cdr = cdr →
  datum_norm (dotted items cdr) = dotted items cdr.
Proof. unfold dotted. induction 1 as [|v items Hv _ IH]; [done|]. intros Hc. cbn. by rewrite Hv, IH. Qed.
Lemma parse_norm fuel :
  (∀ s v rest, datum fuel s = Some (Ok (v, rest)) → datum_norm v = v) ∧
  ∀ items s v rest, Forall (λ v, datum_norm v = v) items → list_items fuel items s = Some (Ok (v, rest)) →
    datum_norm v = v.
Proof.
  induction fuel as [|fuel [IHd IHl]]; [done|]. split.
  - intros s v rest. cbn [datum]. destruct (peek _) as [c|]; [|done].
    destruct (Ascii.eqb c "("); [by apply IHl|]. destruct (Ascii.eqb c dq).
    { intros [= H]. apply bind_Ok in H as ([chars rest'] & _ & [= <- _]). done. }
    destruct (_ && _); [by apply IHl|]. intros [= H]. unfold parse_atom in H.
    destruct (atom_token _) as [token rest']. case_bool_decide; [done|].
    apply bind_Ok in H as (a & Ha & [= <- _]). unfold atom_value in Ha.
    repeat case_bool_decide; try by injection Ha as <-.
    destruct (isdigit _); [|by injection Ha as <-]. destruct (int10 token); [by injection Ha as <-|done].
  - intros items s v rest Hi. cbn [list_items]. destruct (peek _) as [c|]; [|done].
    destruct (Ascii.eqb c ")").
    { intros [= <- _]. cbn. f_equal. by induction Hi as [|i items Hi' _ IH]; csimpl; rewrite ?Hi', ?IH. }
    destruct (dot_token _).
    + destruct items as [|i items]; [done|]. destruct (datum fuel _) as [[[cdr rest']|]|] eqn:E; [|done..].
      intros [= H]. apply bind_Ok in H as (rest'' & _ & [= <- _]). apply (dotted_norm (i :: items)); [done|]. by eapply IHd.
    + destruct (datum fuel _) as [[[item rest']|]|] eqn:E; [|done..]. apply IHl.
      apply Forall_app. split; [done|]. constructor; [by eapply IHd|done].
Qed.
(** Data that a text can hold: tuples, and texts without carriage returns. *)
Definition normal (v : Value) : Prop := datum_norm v = v ∧ value_newlines v = v.
Lemma parsed_normal s v : parse_scheme_datum (universal_newlines s) = Some (Ok v) → normal v ∧ ∃ l, v = VTuple l.
Proof.
  intros H. pose proof (parse_newlines (universal_newlines s)) as Hn. rewrite newlines_universal, H in Hn.
  injection Hn as Hn. unfold normal. rewrite <-Hn. revert H. generalize (universal_newlines s). clear. intros s.
  unfold parse_scheme_datum, parser_parse. destruct (datum _ s) as [[[a rest]|]|] eqn:E; [|done..].
  cbn. case_bool_decide; [|done]. cbn. destruct a; try done. intros [= <-]. split; [|by eexists].
  split; [|done]. by eapply (proj1 (parse_norm _)).
Qed.

Section facts.
Context {X : Type}.
Context (runner : list string → string → option (dict string string) → gmap string File * X →
                  (gmap string File * X) * result Exn CompletedProcess).
Context (touch : X → X * Z) (temporary_file : X → X * Path).
Context (is_dir : Path → bool) (expand_resolve : Path → Path) (getcwd package_root : Path).
Context (environ : dict string string) (sha256_hex : string → string) (repr : Value → string).
Notation World := (LoadWorld X).

(** ** What is read leaves the world alone *)

Notation observes w m P := (keeps (λ w' : World, w' = w) m P).
Definition present (w : World) (p : Path) : bool := bool_decide (is_Some (lw_files w !! path_str p)) || is_dir p.
Definition contents (w : World) (p : Path) : option string := fl_bytes <$> lw_files w !! path_str p.

Lemma observes_answers {A} (w : World) (m : Eff World A) P : observes w m P →
  ∃ r, m w = Some (w, r) ∧ ∀ a, r = Ok a → P a.
Proof.
  intros H. specialize (H w eq_refl). unfold wp in H. destruct (m w) as [[w' r]|]; [|done].
  destruct H as [-> H]. exists r. split; [done|]. by intros a ->.
Qed.

Lemma observes_exists w p : observes w (exists_at is_dir p) (λ b, b = present w p).
Proof. intros w' ->. by unfold wp, exists_at. Qed.
Lemma observes_bytes w p : observes w (file_bytes p) (λ bytes, contents w p = Some bytes).
Proof. intros w' ->. unfold wp, file_bytes, contents. split; [done|]. by destruct (_ <$> _). Qed.
Lemma observes_digest w p :
  observes w (file_digest sha256_hex p) (λ d, ∃ bytes, contents w p = Some bytes ∧ d = sha256_hex bytes).
Proof. eapply keeps_bind; [apply observes_bytes|]. intros bytes Hb. apply keeps_ret. by exists bytes. Qed.
Lemma observes_text w p : observes w (read_text p)
  (λ text, ∃ bytes, contents w p = Some bytes ∧ utf8_valid bytes = true ∧ text = universal_newlines bytes).
Proof.
  eapply keeps_bind; [apply observes_bytes|]. intros bytes Hb. eapply keeps_bind; [apply keeps_lift|].
  intros text Ht. apply keeps_ret. exists bytes. unfold decode_utf8 in Ht.
  destruct (utf8_valid bytes); [|done]. by injection Ht as <-.
Qed.
Lemma observes_fingerprint w p : observes w (file_fingerprint p) (λ f, fp_path f = path_str p).
Proof. intros w' ->. unfold wp, file_fingerprint. split; [done|]. by destruct (_ !! _). Qed.
Lemma observes_first_existing w candidates : observes w (first_existing is_dir candidates)
  (λ found, match found with
    | Some p => p ∈ candidates ∧ present w p = true
    | None => Forall (λ p, present w p = false) candidates
    end).
Proof.
  induction candidates as [|p candidates IH]; [by apply keeps_ret|]. cbn [first_existing].
  eapply keeps_bind; [apply observes_exists|]. intros [] Hp.
  - apply keeps_ret. split; [by left|done].
  - eapply keeps_mono; [exact IH|]. intros [q|]; [by intros [? ?]; split; [right|]|by constructor].
Qed.
Lemma observes_find w workdir : observes w (find_runtime_projection_source is_dir package_root workdir)
  (λ found, match found with
    | Some q => present w q = true ∧ ∃ root, q = below root PROJECTION_SOURCE
    | None => present w (below workdir PROJECTION_SOURCE) = false
    end).
Proof.
  eapply keeps_mono; [apply observes_first_existing|]. intros [q|].
  - intros [[->|[->|[]%not_elem_of_nil]%elem_of_cons]%elem_of_cons Hq]; eauto.
  - by intros [? _]%Forall_cons.
Qed.

(** The digests an artifact has to have. *)
Lemma observes_fingerprints w module projection :
  observes w (artifact_fingerprints sha256_hex module projection)
    (λ digests, (∃ source, contents w module = Some source ∧ digests.1 = sha256_hex source) ∧
       ∀ q, projection = Some q → ∃ bytes, contents w q = Some bytes ∧ digests.2 = sha256_hex bytes).
Proof.
  unfold artifact_fingerprints. eapply keeps_bind with (P := λ d, ∀ q, projection = Some q →
    ∃ bytes, contents w q = Some bytes ∧ d = sha256_hex bytes).
  - destruct projection as [q|]; [|by apply keeps_ret]. eapply keeps_mono; [apply observes_digest|].
    by intros d Hd q' [= <-].
  - intros d Hd. eapply keeps_bind; [apply observes_digest|]. intros d' Hd'. by apply keeps_ret.
Qed.

(** An artifact at [p] that is made from the contents of the module and, when
    there is one, of the projection source, and holds these rows. *)
Definition ArtifactFor (w : World) (module : Path) (projection : option Path) (p : Path) (rows : Value) : Prop :=
  ∃ source bytes l, contents w module = Some source ∧ contents w p = Some bytes ∧ utf8_valid bytes = true ∧
    parse_scheme_datum (universal_newlines bytes) = Some (Ok (VTuple l)) ∧
    let table := artifact_table (py_str repr) [] l in
    dget "schema" table = Some (VStr SCHEME_LOAD_PROJECTION_ARTIFACT_SCHEMA) ∧
    dget "source-digest" table = Some (VStr (sha256_hex source)) ∧
    (∀ q, projection = Some q → ∃ text, contents w q = Some text ∧
       dget "projection-digest" table = Some (VStr (sha256_hex text))) ∧
    dget "rows" table = Some rows ∧ ∃ k, rows = VTuple k.

Lemma has_text_true table key value : has_text table key value = true ↔ dget key table = Some (VStr value).
Proof.
  unfold has_text. destruct (dget key table) as [[]|]; try (split; [done|intros [=]]).
  rewrite bool_decide_eq_true. naive_solver.
Qed.
Lemma artifact_rows_Some l digests strict rows : artifact_rows repr (VTuple l) digests strict = Some rows →
  let table := artifact_table (py_str repr) [] l in
  dget "schema" table = Some (VStr SCHEME_LOAD_PROJECTION_ARTIFACT_SCHEMA) ∧
  dget "source-digest" table = Some (VStr digests.1) ∧
  (strict = true → dget "projection-digest" table = Some (VStr digests.2)) ∧
  dget "rows" table = Some rows ∧ ∃ k, rows = VTuple k.
Proof.
  unfold artifact_rows. intros H. cbv zeta. revert H.
  generalize (artifact_table (py_str repr) [] l) as table. intros table. rewrite <-!has_text_true.
  destruct (has_text table "schema" _); [|done]. destruct (has_text table "source-digest" _); [|done].
  cbn [negb]. destruct (strict && _) eqn:E; [done|]. destruct (dget "rows" table) as [v|]; [|done].
  destruct v; try done. intros [= <-]. split_and!; [done..| |done|by eexists].
  intros ->. by destruct (has_text table "projection-digest" _).
Qed.

Lemma observes_artifact w module projection p digests :
  (∃ source, contents w module = Some source ∧ digests.1 = sha256_hex source) →
  (∀ q, projection = Some q → ∃ bytes, contents w q = Some bytes ∧ digests.2 = sha256_hex bytes) →
  observes w (read_artifact_rows repr p digests (bool_decide (is_Some projection)))
    (λ rows, ∀ v, rows = Some v → ArtifactFor w module projection p v).
Proof.
  intros (source & Hs & H1) H2. unfold read_artifact_rows.
  eapply keeps_bind with (P := λ artifact, ∀ v, artifact = Some v → ∃ bytes, contents w p = Some bytes ∧
    utf8_valid bytes = true ∧ parse_scheme_datum (universal_newlines bytes) = Some (Ok v)).
  - apply keeps_except.
    + eapply keeps_bind; [apply observes_text|]. intros text (bytes & Hb & Hu & ->).
      eapply keeps_bind; [apply keeps_fueled|].
      { unfold parse_scheme_datum. destruct (scheme_parser_total (universal_newlines bytes)) as (r & -> & _). by eexists. }
      intros v Hv. apply keeps_ret. intros v' [= <-]. by exists bytes.
    + intros e. destruct (is_unreadable e); [by apply keeps_ret|apply keeps_raise].
  - intros artifact Ha. apply keeps_ret. intros v (a & -> & Hv)%bind_Some.
    destruct (Ha a eq_refl) as (bytes & Hb & Hu & Hp). pose proof Hp as [_ [l ->]]%parsed_normal.
    apply artifact_rows_Some in Hv as (H3 & H4 & H5 & H6 & H7). exists source, bytes, l.
    rewrite <-H1. do 4 (split; [done|]). cbv zeta. split_and!; [done..| |done|done]. intros q ->.
    destruct (H2 q eq_refl) as (text & Ht & Hd).
    exists text. rewrite <-Hd. split; [done|]. by apply H5.
Qed.

(** ** What may change the world *)

Notation keeping c m P := (keeps (λ w' : World, lw_cache w' = c) m P).
Lemma observes_keeps {A} (m : Eff World A) c : (∀ w, observes w m (λ _, True)) → keeping c m (λ _, True).
Proof. intros H w Hw. eapply wp_mono, H; [|done]. by intros r w' [-> ?]. Qed.

Lemma keeping_put c p bytes : keeping c (put_file touch p bytes) (λ _, True).
Proof. intros w Hw. unfold wp, put_file. by destruct (touch _). Qed.
Lemma wp_put (w : World) p bytes : wp (put_file touch p bytes)
  (λ r w', r = Ok tt ∧ lw_cache w' = lw_cache w ∧ contents w' p = Some bytes ∧
     ∀ q, path_str q ≠ path_str p → lw_files w' !! path_str q = lw_files w !! path_str q) w.
Proof.
  unfold wp, put_file, contents. destruct (touch _) as [x mtime]. cbn [lw_files lw_cache].
  split_and!; try done; [by rewrite lookup_insert_eq|]. intros q Hq. by rewrite lookup_insert_ne.
Qed.
Lemma wp_write_text (w : World) p text : wp (write_text touch p text)
  (λ r w', lw_cache w' = lw_cache w ∧
     (∀ q, path_str q ≠ path_str p → lw_files w' !! path_str q = lw_files w !! path_str q) ∧
     (r = Ok tt → utf8_valid text = true ∧ contents w' p = Some text)) w.
Proof.
  unfold write_text. apply wp_bind. eapply wp_mono, wp_put. intros r w1 (-> & H1 & _ & H2).
  apply wp_bind, wp_lift. unfold encode_utf8. destruct (utf8_valid text); [|done].
  cbn [require mbind result_bind]. eapply wp_mono, wp_put. intros r w2 (-> & H3 & H4 & H5).
  split_and!; [congruence| |done]. intros q Hq. by rewrite H5, H2.
Qed.
Lemma keeping_write c p text : keeping c (write_text touch p text) (λ _, True).
Proof. intros w Hw. eapply wp_mono, wp_write_text. intros r w' (H & _). split; [congruence|by destruct r]. Qed.
(** Line ends of what is printed are line feeds. *)
Definition printed_text (p : CompletedProcess) : Prop := cp_stdout p = universal_newlines (cp_stdout p).
Lemma keeping_run c workdir argv env : keeping c (run_program runner workdir argv env) printed_text.
Proof.
  intros w Hw. unfold wp, run_program. destruct (runner _ _ _ _) as [[files x] r]. split; [done|].
  destruct r as [p|e]; [|done]. cbn. unfold printed_text. cbn. by rewrite universal_twice.
Qed.
Lemma keeping_first_success c workdir error commands : ∀ failures,
  keeping c (first_success runner workdir error failures commands) (λ p, cp_returncode p = 0 ∧ printed_text p).
Proof.
  induction commands as [|[argv env] commands IH]; intros failures; cbn [first_success]; [apply keeps_raise|].
  eapply keeps_bind; [apply keeping_run|]. intros p Ht. destruct (Z.eqb_spec (cp_returncode p) 0) as [Hp|].
  - by apply keeps_ret.
  - apply IH.
Qed.
Lemma observes_has_poo_flow w p : observes w (has_poo_flow is_dir p) (λ _, True).
Proof. eapply keeps_mono; [apply observes_exists|done]. Qed.
Lemma observes_first_gerbil w candidates : observes w (first_gerbil is_dir candidates) (λ _, True).
Proof.
  induction candidates as [|p candidates IH]; cbn [first_gerbil]; [by apply keeps_ret|].
  eapply keeps_bind; [apply observes_has_poo_flow|]. intros [] _; [by apply keeps_ret|exact IH].
Qed.
Lemma keeping_loader c module workdir p :
  keeping c (run_scheme_loader runner is_dir environ module workdir p) (λ p, cp_returncode p = 0 ∧ printed_text p).
Proof.
  eapply keeps_bind with (P := λ _, True); [|intros commands _; apply keeping_first_success].
  apply observes_keeps. intros w. unfold scheme_loader_commands, direct_scheme_loader_env.
  eapply keeps_bind with (P := λ _, True); [|intros env _; by apply keeps_ret].
  eapply keeps_bind; [apply observes_first_gerbil|]. intros found _. by apply keeps_ret.
Qed.
Lemma observes_direct_env w workdir : observes w (direct_gerbil_env is_dir environ workdir) (λ _, True).
Proof. eapply keeps_bind; [apply observes_has_poo_flow|]. intros found _. by apply keeps_ret. Qed.
Lemma keeping_build c workdir key source :
  keeping c (build_aot_projection runner touch is_dir environ sha256_hex workdir key source) (λ _, True).
Proof.
  unfold build_aot_projection, compile_aot_projection. eapply keeps_bind; [apply keeping_write|]. intros u _.
  eapply keeps_bind with (P := λ _, True); [|intros u' _; by apply keeps_ret].
  eapply keeps_bind with (P := λ _, True).
  - apply observes_keeps. intros w. unfold scheme_aot_compile_commands.
    eapply keeps_bind; [apply observes_direct_env|]. intros env _. by apply keeps_ret.
  - intros commands _. eapply keeps_bind; [apply keeping_first_success|]. intros p _. by apply keeps_ret.
Qed.

Lemma parse_answers text : is_Some (parse_scheme_datum text).
Proof. unfold parse_scheme_datum. destruct (scheme_parser_total text) as (r & -> & _). by eexists. Qed.

(** ** Where rows come from *)

Notation aot_rows := (load_aot_projection_rows runner touch is_dir environ sha256_hex).
Notation gerbil_rows := (run_scheme_projection runner touch temporary_file is_dir environ).

(** What a file looks like to the cache, and the files that rows depend on: the
    module, the projection source and the sources of the project. *)
Definition fingerprint_in (w : World) (p : Path) : Fingerprint :=
  match lw_files w !! path_str p with
  | Some f => MkFingerprint (path_str p) (fl_mtime_ns f) (Z.of_nat (String.length (fl_bytes f)))
  | None => MkFingerprint (path_str p) (-1) (-1)
  end.
Definition files_behind (module q root : Path) : list Path :=
  module :: q :: (below root <$> SCHEME_LOAD_DEPENDENCIES).
Definition key_in (w : World) (module workdir q root : Path) : CacheKey :=
  MkCacheKey SCHEME_LOAD_CACHE_RUNNER_VERSION (path_str workdir) (fingerprint_in w module)
    (fingerprint_in w q) (fingerprint_in w <$> (below root <$> SCHEME_LOAD_DEPENDENCIES)).

(** What a load that begins in [w] gets from a program: the rows its compiled
    runner printed, or, when that has none for it, those that Gerbil printed,
    run on a file with the source of the runner. *)
Inductive Ran (module workdir q root : Path) (w : World) : Value → Prop :=
| ran_compiled aot compile w' v v' env p rows :
    aot_rows module workdir q (key_in w module workdir q root) aot compile w = Some (w', Ok (Some rows)) →
    run_program runner workdir
      [path_str (aot_binary (scheme_aot_artifact sha256_hex workdir (key_in w module workdir q root)))] env v
      = Some (v', Ok p) →
    cp_returncode p = 0 → parse_scheme_datum (cp_stdout p) = Some (Ok rows) → Ran module workdir q root w rows
| ran_gerbil aot compile w1 w' v v' runner_path p rows :
    aot_rows module workdir q (key_in w module workdir q root) aot compile w = Some (w1, Ok None) →
    gerbil_rows module workdir q w1 = Some (w', Ok rows) →
    contents v runner_path = Some (runner_source module q) →
    run_scheme_loader runner is_dir environ module workdir runner_path v = Some (v', Ok p) →
    cp_returncode p = 0 → parse_scheme_datum (cp_stdout p) = Some (Ok rows) → Ran module workdir q root w rows.

(** What a load that begins in [w] gets without the cache. *)
Inductive Obtained (module workdir q root : Path) (w : World) (rows : Value) : Prop :=
| obtained_artifact candidates p :
    projection_artifact_candidates sha256_hex module workdir (key_in w module workdir q root) = Ok candidates →
    p ∈ candidates → ArtifactFor w module (Some q) p rows → Obtained module workdir q root w rows
| obtained_run : Ran module workdir q root w rows → Obtained module workdir q root w rows.
Hint Constructors Ran Obtained : core.

(** Rows in the cache are those that a load got when the files were as the key
    has them. *)
Definition Provided (key : CacheKey) (rows : Value) : Prop :=
  ∃ module workdir q root w, path_parents q 2 = Ok root ∧ key = key_in w module workdir q root ∧
    Obtained module workdir q root w rows.
Definition CacheSound (c : dict CacheKey Value) : Prop := ∀ key rows, dget key c = Some rows → Provided key rows.

(** Rows that some load of the same paths got in a world in which every file they
    depend on had the time of modification and the size it has in [w]. *)
Definition Current (module workdir q root : Path) (w : World) (rows : Value) : Prop :=
  ∃ module0 workdir0 q0 root0 w0,
    path_str workdir0 = path_str workdir ∧
    path_str <$> files_behind module0 q0 root0 = path_str <$> files_behind module q root ∧
    fingerprint_in w0 <$> files_behind module q root = fingerprint_in w <$> files_behind module q root ∧
    Obtained module0 workdir0 q0 root0 w0 rows.

Lemma two_cons_inj {A} (x y x' y' : A) l l' : x :: y :: l = x' :: y' :: l' → x = x' ∧ y = y' ∧ l = l'.
Proof. by intros [= -> -> ->]. Qed.
Lemma key_fields v wd m q d v' wd' m' q' d' :
  MkCacheKey v wd m q d = MkCacheKey v' wd' m' q' d' → wd = wd' ∧ m = m' ∧ q = q' ∧ d = d'.
Proof. by intros [= _ -> -> -> ->]. Qed.
Lemma fingerprint_paths w w' (l l' : list Path) :
  fingerprint_in w <$> l = fingerprint_in w' <$> l' → path_str <$> l = path_str <$> l'.
Proof.
  intros H. apply (f_equal (fmap fp_path)) in H. rewrite <-!list_fmap_compose in H.
  assert (∀ v (k : list Path), (fp_path ∘ fingerprint_in v) <$> k = path_str <$> k) as Hk.
  { intros v k. apply list_fmap_ext. intros i x _. unfold compose, fingerprint_in. by destruct (_ !! _). }
  by rewrite !Hk in H.
Qed.

(** Rows under the key of the files as they are. *)
Lemma provided_current (w : World) module workdir q root rows :
  Provided (key_in w module workdir q root) rows → Current module workdir q root w rows.
Proof.
  intros (module0 & workdir0 & q0 & root0 & w0 & _ & Hkey & Ho). apply key_fields in Hkey as (Hw & Hm & Hq & Hd).
  assert (fingerprint_in w0 <$> files_behind module0 q0 root0 = fingerprint_in w <$> files_behind module q root) as H.
  { unfold files_behind. rewrite !fmap_cons. by rewrite Hm, Hq, Hd. }
  exists module0, workdir0, q0, root0, w0. pose proof (fingerprint_paths _ _ _ _ H) as Hp.
  split_and!; [done|done| |done]. rewrite <-H.
  assert (∀ l l' : list Path, path_str <$> l = path_str <$> l' → fingerprint_in w0 <$> l = fingerprint_in w0 <$> l') as Hext.
  { induction l as [|x l IH]; intros [|y l']; csimpl; try done. intros [= Hx Hl]. f_equal; [|by apply IH].
    unfold fingerprint_in. by rewrite Hx. }
  by apply Hext.
Qed.

(** What a run of a compiled runner printed. *)
Definition Printed (workdir : Path) (key : CacheKey) (rows : Value) : Prop :=
  ∃ v v' env p,
    run_program runner workdir [path_str (aot_binary (scheme_aot_artifact sha256_hex workdir key))] env v
      = Some (v', Ok p) ∧
    cp_returncode p = 0 ∧ parse_scheme_datum (cp_stdout p) = Some (Ok rows).

Lemma keeping_compiled c module workdir q key aot compile_aot :
  keeping c (aot_rows module workdir q key aot compile_aot)
    (λ rows, ∀ v, rows = Some v → Printed workdir key v).
Proof.
  unfold load_aot_projection_rows. destruct (negb _); [by apply keeps_ret|].
  eapply keeps_bind with (P := λ _, True).
  { destruct (_ || _); [|by apply keeps_ret]. eapply keeps_bind; [apply keeping_build|]. intros. by apply keeps_ret. }
  intros u _. eapply keeps_bind with (P := λ result, ∀ p, result = Some p → ∃ w w' env,
    run_program runner workdir [path_str (aot_binary (scheme_aot_artifact sha256_hex workdir key))] env w = Some (w', Ok p)).
  - unfold run_aot_projection. eapply keeps_bind with (P := λ _, True).
    { apply observes_keeps. intros w. eapply keeps_mono; [apply observes_exists|done]. }
    intros [] _; [|by apply keeps_ret]. eapply keeps_bind with (P := λ _, True).
    { apply observes_keeps. intros w. apply observes_direct_env. }
    intros env _ w Hw. apply wp_bind. pose proof (keeping_run c workdir
      [path_str (aot_binary (scheme_aot_artifact sha256_hex workdir key))] (Some (default environ env)) w Hw) as H.
    unfold wp in H |- *. destruct (run_program _ _ _ _ w) as [[w' [p|e]]|] eqn:E; [|done..].
    destruct H as [H _]. cbn. split; [done|]. intros p' [= <-]. eauto.
  - intros [p|] Hp; [|by apply keeps_ret]. destruct (Z.eqb_spec (cp_returncode p) 0) as [H0|].
    + eapply keeps_bind; [apply keeps_fueled, parse_answers|]. intros v Hv. apply keeps_ret. intros v' [= <-].
      destruct (Hp p eq_refl) as (w & w' & env & E). by exists w, w', env, p.
    + destruct (_ || _); [apply keeps_raise|by apply keeps_ret].
Qed.

Lemma keeping_gerbil c module workdir q :
  keeping c (gerbil_rows module workdir q)
    (λ rows, ∃ v v' runner_path p, contents v runner_path = Some (runner_source module q) ∧
       run_scheme_loader runner is_dir environ module workdir runner_path v = Some (v', Ok p) ∧
       cp_returncode p = 0 ∧ parse_scheme_datum (cp_stdout p) = Some (Ok rows)).
Proof.
  intros w Hw. unfold run_scheme_projection. apply wp_bind. unfold wp at 1, fresh_file.
  destruct (temporary_file _) as [x runner_path]. cbn. apply wp_bind. eapply wp_mono, wp_write_text. cbn.
  intros [u|e] w1 (H1 & _ & H2); [|split; [congruence|done]]. destruct u. destruct (H2 eq_refl) as [_ Hc].
  apply wp_bind, wp_finally. pose proof (keeping_loader c module workdir runner_path w1) as H.
  unfold wp in H. unfold wp at 1. destruct (run_scheme_loader _ _ _ _ _ _ w1) as [[w2 r]|] eqn:E;
    [|by apply H; congruence]. destruct H as [H3 H4]; [congruence|].
  unfold wp at 1, unlink. destruct r as [p|e]; [|split; [exact H3|done]].
  destruct (parse_answers (cp_stdout p)) as [r Hr]. eapply wp_fueled; [exact Hr|]. split; [exact H3|].
  destruct r as [v|e]; [|done]. destruct H4 as [H4 _]. by exists w1, w2, runner_path, p.
Qed.

(** The two programs in their turn, from the world of the key. *)
Definition program_rows (module workdir q : Path) (key : CacheKey) (aot compile : bool) : Eff World Value :=
  compiled ← aot_rows module workdir q key aot compile;
  match compiled with Some rows => ret rows | None => gerbil_rows module workdir q end.
Lemma program_rows_ran c module workdir q root aot compile (w : World) : lw_cache w = c →
  wp (program_rows module workdir q (key_in w module workdir q root) aot compile)
    (λ r w', lw_cache w' = c ∧ match r with
       | Ok rows => Ran module workdir q root w rows
       | Raise _ => True
       end) w.
Proof.
  intros Hw. apply wp_bind. set (key := key_in w module workdir q root).
  pose proof (keeping_compiled c module workdir q key aot compile w Hw) as H. unfold wp in H |- *.
  destruct (aot_rows module workdir q key aot compile w) as [[w1 [[rows|]|e]]|] eqn:E; [..|done]; cbn.
  - destruct H as [Hw1 H]. split; [done|]. destruct (H rows eq_refl) as (v & v' & env & p & ? & ? & ?). eauto.
  - destruct H as [Hw1 _]. pose proof (keeping_gerbil c module workdir q w1 Hw1) as Hg. unfold wp in Hg.
    destruct (gerbil_rows module workdir q w1) as [[w2 [rows|e]]|] eqn:Eg; [..|done].
    + destruct Hg as [Hw2 (v & v' & rp & p & ? & ? & ? & ?)]. split; [done|]. eauto 10.
    + by destruct Hg.
  - by destruct H.
Qed.

(** ** A load *)

Lemma observes_same {A} (w : World) (m : Eff World A) P : observes w m P →
  observes w m (λ a, P a ∧ m w = Some (w, Ok a)).
Proof.
  intros H w' ->. specialize (H w eq_refl). unfold wp in *. destruct (m w) as [[w' r]|]; [|done].
  destruct H as [-> H]. split; [done|]. by destruct r.
Qed.

Lemma each_answers {A B} (f : A → Eff World B) (g : A → B) l w : (∀ a, f a w = Some (w, Ok (g a))) →
  each f l w = Some (w, Ok (g <$> l)).
Proof.
  intros Hf. induction l as [|a l IH]; [done|]. cbn [each]. unfold mbind, Eff_bind. by rewrite Hf, IH.
Qed.
(** The key has the fingerprints of all the files. *)
Lemma key_answers (w : World) module workdir q :
  scheme_load_cache_key module workdir q w =
    Some (w, root ← path_parents q 2; Ok (key_in w module workdir q root)).
Proof.
  unfold scheme_load_cache_key. unfold mbind at 1, Eff_bind at 1, lift.
  destruct (path_parents q 2) as [root|]; [|done].
  unfold mbind at 1 2 3, Eff_bind at 1 2 3, file_fingerprint at 1 2.
  rewrite (each_answers _ (λ dependency, fingerprint_in w (below root dependency))) by done.
  cbn [mbind result_bind]. unfold key_in. rewrite <-(list_fmap_compose (below root) (fingerprint_in w)).
  reflexivity.
Qed.
Lemma key_in_ext (w w' : World) module workdir q root :
  fingerprint_in w <$> files_behind module q root = fingerprint_in w' <$> files_behind module q root →
  key_in w module workdir q root = key_in w' module workdir q root.
Proof. intros (H1 & H2 & H3)%two_cons_inj. unfold key_in. rewrite H1, H2. f_equal. exact H3. Qed.

Lemma observes_first_artifact w module q digests candidates :
  (∃ source, contents w module = Some source ∧ digests.1 = sha256_hex source) →
  (∃ bytes, contents w q = Some bytes ∧ digests.2 = sha256_hex bytes) →
  observes w (first_artifact is_dir repr digests candidates)
    (λ rows, ∀ v, rows = Some v → ∃ p, p ∈ candidates ∧ ArtifactFor w module (Some q) p v).
Proof.
  intros H1 H2. induction candidates as [|p candidates IH]; cbn [first_artifact]; [by apply keeps_ret|].
  eapply keeps_bind; [apply observes_exists|]. intros found _.
  eapply keeps_bind with (P := λ rows, ∀ v, rows = Some v → ArtifactFor w module (Some q) p v).
  - destruct found; [|by apply keeps_ret]. apply (observes_artifact w module (Some q)); [done|]. by intros q' [= <-].
  - intros [rows|] Hv; [apply keeps_ret; intros v [= <-]; exists p; split; [by left|by apply Hv]|].
    eapply keeps_mono; [exact IH|]. intros [v|] Hall v' Hv'; [|done]. destruct (Hall v' Hv') as (p' & ? & ?).
    exists p'. split; [by right|done].
Qed.
Lemma observes_load_artifact w module workdir q key :
  observes w (load_projection_artifact is_dir sha256_hex repr module workdir q key)
    (λ rows, ∀ v, rows = Some v → ∃ candidates p, projection_artifact_candidates sha256_hex module workdir key = Ok candidates ∧
       p ∈ candidates ∧ ArtifactFor w module (Some q) p v).
Proof.
  eapply keeps_bind; [apply observes_fingerprints|]. intros digests [H1 H2].
  eapply keeps_bind; [apply keeps_lift|]. intros candidates Hc.
  eapply keeps_mono; [apply observes_first_artifact; [exact H1|by apply H2]|].
  intros rows Hrows v Hv. destruct (Hrows v Hv) as (p & ? & ?). by exists candidates, p.
Qed.
Lemma observes_adjacent w module : observes w (load_adjacent_projection_artifact is_dir sha256_hex repr module None)
  (λ rows, ∀ v, rows = Some v → ∃ p, adjacent_projection_artifact module = Ok p ∧ ArtifactFor w module None p v).
Proof.
  unfold load_adjacent_projection_artifact. eapply keeps_bind; [apply keeps_lift|]. intros p Hp.
  eapply keeps_bind; [apply observes_exists|]. intros [] _; [|by apply keeps_ret].
  eapply keeps_bind; [apply observes_fingerprints|]. intros digests [H1 H2].
  eapply keeps_mono; [apply (observes_artifact w module None); done|]. intros rows Hrows v Hv.
  exists p. split; [done|]. by apply Hrows.
Qed.

Notation caching options := (lo_cache options && scheme_load_cache_enabled environ).
Notation from_sources := (load_from_sources runner touch temporary_file is_dir environ sha256_hex repr).
Notation load_rows := (load_projection_rows runner touch temporary_file is_dir expand_resolve getcwd package_root
  environ sha256_hex repr).
Notation found workdir w q := (find_runtime_projection_source is_dir package_root workdir w = Some (w, Ok q)).

Lemma wp_remember (w : World) options key rows : CacheSound (lw_cache w) → Provided key rows →
  wp (remember environ options key rows) (λ r w', r = Ok tt ∧ CacheSound (lw_cache w') ∧
    (caching options = true → dget key (lw_cache w') = Some rows)) w.
Proof.
  intros Hs Hp. unfold remember. destruct (caching options); [|by apply wp_ret].
  unfold wp, store_cached_projection_rows. cbn [lw_cache]. split; [done|]. split.
  - intros key' rows'. rewrite dget_dset. case_decide as E; [by intros [= <-]; subst|apply Hs].
  - intros _. apply dget_dset_eq.
Qed.

(** What a load from the sources answers. *)
Definition Loaded (options : LoadOptions) (module workdir q : Path) (w : World) (r : result Exn Value) (w' : World) : Prop :=
  CacheSound (lw_cache w') ∧ match r with
    | Ok rows => ∃ root, path_parents q 2 = Ok root ∧ Provided (key_in w module workdir q root) rows ∧
        (caching options = true → dget (key_in w module workdir q root) (lw_cache w') = Some rows)
    | Raise _ => True
    end.

Lemma wp_programs {B} module workdir q key aot compile (f : Value → Eff World B) Q (w : World) :
  wp (program_rows module workdir q key aot compile ≫= f) Q w →
  wp (compiled ← aot_rows module workdir q key aot compile;
      match compiled with Some rows => f rows | None => rows ← gerbil_rows module workdir q; f rows end) Q w.
Proof.
  unfold wp, program_rows, mbind, Eff_bind.
  by destruct (aot_rows module workdir q key aot compile w) as [[w1 [[rows|]|e]]|].
Qed.

Lemma wp_from_sources options module workdir q (w : World) : CacheSound (lw_cache w) →
  wp (from_sources options module workdir q) (Loaded options module workdir q w) w.
Proof.
  intros Hs. unfold load_from_sources, Loaded. apply wp_bind. unfold wp at 1. rewrite key_answers.
  destruct (path_parents q 2) as [root|e] eqn:Hroot; cbn [mbind result_bind]; [|done].
  set (key := key_in w module workdir q root).
  assert (∀ rows, Obtained module workdir q root w rows → Provided key rows) as Hprovided.
  { intros rows Hr. by exists module, workdir, q, root, w. }
  assert (∀ rows w', lw_cache w' = lw_cache w → Obtained module workdir q root w rows →
    wp (_ ← remember environ options key rows; ret rows) (Loaded options module workdir q w) w') as Hremember.
  { intros rows w' Hw' Hr. apply wp_bind. eapply wp_mono, wp_remember; [|by rewrite Hw'|by apply Hprovided].
    intros r w'' (-> & H1 & H2). apply wp_ret. split; [done|]. exists root. split_and!; auto. }
  unfold Loaded in Hremember. rewrite Hroot in Hremember. cbn [mbind result_bind] in Hremember.
  apply wp_bind. eapply wp_mono with (P := λ r w', w' = w ∧ ∃ cached, r = Ok cached ∧
    ∀ rows, cached = Some rows → dget key (lw_cache w) = Some rows).
  2:{ destruct (caching options); (split; [done|]); [by exists (dget key (lw_cache w))|by exists None]. }
  intros r w2 (-> & cached & -> & Hcached). destruct cached as [rows|].
  { apply wp_ret. split; [done|]. exists root. split_and!; [done|by apply Hs, Hcached|by auto]. }
  apply wp_bind. eapply wp_mono with (P := λ r w', w' = w ∧ match r with
    | Ok rows => ∀ v, rows = Some v → Obtained module workdir q root w v
    | Raise _ => True
    end).
  2:{ destruct (lo_projection_artifact options && _); [|by apply wp_ret]. eapply wp_mono, observes_load_artifact; [|done].
      intros [rows|e] w3 [-> Hv]; [|done]. split; [done|]. intros v Hv'.
      destruct (Hv v Hv') as (candidates & p & ? & ? & ?). by eapply obtained_artifact. }
  intros [[rows|]|e] w3 [-> Ha]; [by apply Hremember, Ha| |done].
  apply (wp_programs module workdir q key _ _ (λ rows, _ ← remember environ options key rows; ret rows)), wp_bind.
  eapply wp_mono, (program_rows_ran (lw_cache w)); [|done].
  intros [rows|e] w4 [Hw4 Hr]; [by apply Hremember, obtained_run|by rewrite Hw4].
Qed.

Lemma find_answers (w : World) workdir : ∃ q, found workdir w q.
Proof.
  unfold find_runtime_projection_source. cbn [first_existing]. unfold mbind, Eff_bind, exists_at.
  destruct (_ || _); [by eexists|]. destruct (_ || _); by eexists.
Qed.
Lemma load_found path cwd options (w : World) q : found (workdir_of expand_resolve getcwd cwd) w (Some q) →
  load_rows path cwd options w =
  from_sources options (module_of expand_resolve path) (workdir_of expand_resolve getcwd cwd) q w.
Proof. intros H. unfold load_projection_rows, mbind, Eff_bind. by rewrite H. Qed.

(** Rows under the current key are answered as they are. *)
Lemma from_sources_cached options module workdir q root (w : World) rows : caching options = true →
  path_parents q 2 = Ok root → dget (key_in w module workdir q root) (lw_cache w) = Some rows →
  from_sources options module workdir q w = Some (w, Ok rows).
Proof.
  intros Hc Hroot Hd. unfold load_from_sources, mbind, Eff_bind. rewrite key_answers, Hroot.
  cbn [mbind result_bind]. rewrite Hc. unfold get_cached_projection_rows. by rewrite Hd.
Qed.

Lemma wp_load path cwd options (w : World) : CacheSound (lw_cache w) →
  let module := module_of expand_resolve path in let workdir := workdir_of expand_resolve getcwd cwd in
  wp (load_rows path cwd options) (λ r w',
    (∃ q, found workdir w (Some q) ∧ Loaded options module workdir q w r w') ∨
    found workdir w None ∧ w' = w ∧ ∀ rows, r = Ok rows →
      ∃ p, adjacent_projection_artifact module = Ok p ∧ ArtifactFor w module None p rows) w.
Proof.
  intros Hs module workdir. destruct (find_answers w workdir) as [[q|] Hf].
  - unfold wp. rewrite (load_found path cwd options w q Hf).
    pose proof (wp_from_sources options module workdir q w Hs) as H. unfold wp in H.
    fold module workdir. destruct (from_sources _ _ _ _ w) as [[w' r]|]; [|done]. left. by exists q.
  - unfold load_projection_rows. apply wp_bind. fold workdir. unfold wp at 1. rewrite Hf. apply wp_bind.
    eapply wp_mono with (P := λ r w', w' = w ∧ match r with
      | Ok rows => ∀ v, rows = Some v → ∃ p, adjacent_projection_artifact module = Ok p ∧ ArtifactFor w module None p v
      | Raise _ => True
      end).
    + intros [[rows|]|e] w1 [-> Ha].
      * apply wp_ret. right. split_and!; [done..|]. intros v [= <-]. by apply Ha.
      * unfold wp, mbind, Eff_bind, runtime_projection_source, mbind, Eff_bind. rewrite Hf. by right.
      * by right.
    + destruct (_ && _); [|by apply wp_ret]. by apply observes_adjacent.
Qed.

(** ** Rows are data that can be written *)

Lemma ran_normal module workdir q root w rows : Ran module workdir q root w rows →
  normal rows ∧ ∃ l, rows = VTuple l.
Proof.
  destruct 1 as [? ? ? v v' env p rows _ Hrun _ Hp|? ? ? ? v v' p' p rows _ _ _ Hrun _ Hp].
  - unfold run_program in Hrun. destruct (runner _ _ _ _) as [[files x] [p'|e]]; [|done]. injection Hrun as _ <-.
    by apply parsed_normal in Hp.
  - pose proof (keeping_loader (lw_cache v) module workdir p' v eq_refl) as Hl. unfold wp in Hl. rewrite Hrun in Hl.
    destruct Hl as (_ & _ & Hl). rewrite Hl in Hp. by apply parsed_normal in Hp.
Qed.

(** A load without cache and artifacts answers what a program printed. *)
Notation bare aot compile := (MkLoadOptions false false aot compile).
Lemma wp_bare path cwd aot compile (w : World) :
  let module := module_of expand_resolve path in let workdir := workdir_of expand_resolve getcwd cwd in
  wp (load_rows path cwd (bare aot compile)) (λ r _, ∀ rows, r = Ok rows →
    ∃ q root, found workdir w (Some q) ∧ path_parents q 2 = Ok root ∧ Ran module workdir q root w rows) w.
Proof.
  intros module workdir. destruct (find_answers w workdir) as [[q|] Hf].
  - unfold wp at 1. rewrite (load_found path cwd _ w q Hf). fold module workdir.
    change (wp (from_sources (bare aot compile) module workdir q) (λ r _, ∀ rows, r = Ok rows →
      ∃ q root, found workdir w (Some q) ∧ path_parents q 2 = Ok root ∧ Ran module workdir q root w rows) w).
    unfold load_from_sources. cbn [lo_cache lo_projection_artifact lo_aot lo_compile_aot andb].
    apply wp_bind. unfold wp at 1. rewrite key_answers.
    destruct (path_parents q 2) as [root|e] eqn:Hroot; cbn [mbind result_bind]; [|done].
    apply wp_bind, wp_ret, wp_bind, wp_ret.
    apply (wp_programs module workdir q _ aot compile (λ rows, _ ← remember environ (bare aot compile) _ rows; ret rows)), wp_bind.
    eapply wp_mono, (program_rows_ran (lw_cache w)); [|done].
    intros [rows|e] w2 [_ Hr]; [|done]. apply wp_bind, wp_ret, wp_ret. intros v [= <-]. eauto.
  - unfold load_projection_rows. apply wp_bind. unfold wp at 1. fold workdir. rewrite Hf. apply wp_bind, wp_ret.
    unfold wp, mbind, Eff_bind, runtime_projection_source, mbind, Eff_bind. by rewrite Hf.
Qed.

(** ** An artifact that is written is read *)

(** SHA-256 digests are hexadecimal. *)
Context (Hhex : ∀ payload, sforall lower_hex (sha256_hex payload) = true).
Lemma digest_newlines payload : newlines (sha256_hex payload) = sha256_hex payload.
Proof.
  apply newlines_none. generalize (Hhex payload). generalize (sha256_hex payload). intros s.
  induction s as [|c s IH]; [done|]. intros [Hc Hs]%sforall_cons. apply sforall_cons. split; [|by apply IH].
  by destruct c as [[] [] [] [] [] [] [] []].
Qed.

Notation read_artifact p module q := (read_projection_artifact sha256_hex repr p module q).
Lemma fingerprints_of (w : World) module q source text : contents w module = Some source → contents w q = Some text →
  artifact_fingerprints sha256_hex module (Some q) w = Some (w, Ok (sha256_hex source, sha256_hex text)).
Proof.
  intros H1 H2. unfold artifact_fingerprints, file_digest, mbind, Eff_bind, file_bytes. unfold contents in *.
  rewrite H2. cbn. by rewrite H1.
Qed.

Lemma artifact_newlines digests l : newlines digests.1 = digests.1 → newlines digests.2 = digests.2 →
  value_newlines (datum_norm (artifact_datum digests (VTuple l))) =
  artifact_datum digests (value_newlines (datum_norm (VTuple l))).
Proof.
  intros H1 H2. destruct digests as [d1 d2]. cbn [fst snd] in *. unfold artifact_datum.
  cbn [datum_norm value_newlines fmap list_fmap fst snd]. by rewrite H1, H2.
Qed.
Lemma artifact_rows_of digests l : artifact_rows repr (artifact_datum digests (VTuple l)) digests true = Some (VTuple l).
Proof.
  unfold artifact_rows, artifact_datum.
  set (table := artifact_table _ _ _).
  assert (table = [("schema", VStr SCHEME_LOAD_PROJECTION_ARTIFACT_SCHEMA); ("source-digest", VStr digests.1);
    ("projection-digest", VStr digests.2); ("rows", VTuple l)]) as -> by reflexivity.
  assert (∀ key s d, dget key d = Some (VStr s) → has_text d key s = true) as Htext.
  { intros key s d Hd. unfold has_text. rewrite Hd. by apply bool_decide_eq_true_2. }
  by rewrite !Htext by reflexivity.
Qed.
Lemma written_rows d1 d2 l :
  let digests := (sha256_hex d1, sha256_hex d2) in
  artifact_rows repr (value_newlines (datum_norm (artifact_datum digests (VTuple l)))) digests true =
  Some (value_newlines (datum_norm (VTuple l))).
Proof. intros digests. rewrite artifact_newlines by apply digest_newlines. apply artifact_rows_of. Qed.

Lemma written_artifact_is_read (w w' : World) p p' module q rows l : artifact_rows_payload rows = Ok (VTuple l) →
  path_str p ≠ path_str module → path_str p ≠ path_str q →
  write_projection_artifact touch sha256_hex p module q rows w = Some (w', Ok p') →
  p' = p ∧ present w' p = true ∧
  read_artifact p module q w' = Some (w', Ok (Some (value_newlines (datum_norm (VTuple l))))).
Proof.
  intros Hl Hm Hq H. unfold write_projection_artifact in H. rewrite Hl in H.
  apply bind_answers in H as (w1 & digests & Hd & H).
  destruct (observes_answers w _ _ (observes_fingerprints w module (Some q))) as (r & Hr & Hcontents).
  rewrite Hd in Hr. injection Hr as -> <-. destruct (Hcontents digests eq_refl) as [(source & Hs & Hd1) Hd2].
  destruct (Hd2 q eq_refl) as (text & Ht & Hd2'). destruct digests as [d1 d2]. cbn [fst snd] in *. subst d1 d2.
  apply bind_answers in H as (w2 & payload & [= <- <-] & H).
  apply bind_answers in H as (w3 & datum_text & Hlift & H).
  assert (w3 = w ∧ write_scheme_datum (artifact_datum (sha256_hex source, sha256_hex text) (VTuple l)) = Ok datum_text)
    as [-> Hw] by (unfold lift in Hlift; split; congruence). clear Hlift.
  apply bind_answers in H as (w4 & [] & Hwrite & [= <- <-]).
  pose proof (wp_write_text w p (datum_text +:+ newline)) as Hwp. unfold wp in Hwp. rewrite Hwrite in Hwp.
  destruct Hwp as (_ & Hother & Hp). destruct (Hp eq_refl) as [Hu Hc]. split; [done|]. split.
  { unfold present. unfold contents in Hc. by destruct (lw_files w4 !! path_str p). }
  unfold read_projection_artifact, mbind, Eff_bind. erewrite fingerprints_of;
    [|by unfold contents; rewrite Hother|by unfold contents; rewrite Hother].
  unfold read_artifact_rows, mbind, Eff_bind, except, read_text, mbind, Eff_bind, file_bytes. unfold contents in Hc.
  rewrite Hc. unfold lift, decode_utf8. cbn [of_option]. rewrite Hu. cbn [require mbind result_bind].
  assert (parse_scheme_datum (universal_newlines (datum_text +:+ newline)) =
    Some (Ok (value_newlines (datum_norm (artifact_datum (sha256_hex source, sha256_hex text) (VTuple l)))))) as Hread
    by exact (read_written _ _ Hw).
  unfold fueled, ret. rewrite Hread. cbn [mbind option_bind]. by rewrite written_rows.
Qed.

(** ** A load from an artifact *)

(** The world after a load that answered [rows] without running anything. *)
Definition remembered (options : LoadOptions) (key : CacheKey) (rows : Value) (w : World) : World :=
  if caching options then MkLoadWorld (lw_files w) (dset key rows (lw_cache w)) (lw_commands w) (lw_rest w) else w.
(** A load that is to use artifacts and finds one beside the module that is
    current answers what the cache holds, or else the rows of the artifact. *)
Lemma load_from_artifact path cwd options (w : World) q p rows :
  let module := module_of expand_resolve path in let workdir := workdir_of expand_resolve getcwd cwd in
  scheme_load_artifact_enabled environ = true → lo_projection_artifact options = true →
  found workdir w (Some q) →
  adjacent_projection_artifact module = Ok p → present w p = true →
  read_artifact p module q w = Some (w, Ok (Some rows)) →
  ∃ root, path_parents q 2 = Ok root ∧
    let key := key_in w module workdir q root in
    load_rows path cwd options w =
      match (if caching options then dget key (lw_cache w) else None) with
      | Some cached => Some (w, Ok cached)
      | None => Some (remembered options key rows w, Ok rows)
      end.
Proof.
  intros module workdir He Hart Hf Hp Hpresent Hread. rewrite (load_found path cwd _ w q Hf). fold module workdir.
  destruct (observes_answers w _ _ (observes_find w workdir)) as (r & Hr & Hq). rewrite Hf in Hr. injection Hr as <-.
  destruct (Hq _ eq_refl) as [_ [root0 ->]]. set (q := below root0 PROJECTION_SOURCE) in *.
  destruct (path_parents q 2) as [root|e] eqn:Hroot.
  2:{ exfalso. unfold path_parents in Hroot. rewrite (proj2 (Nat.leb_le _ _)) in Hroot; [done|].
      unfold q, below, path_join. cbn [pt_absolute]. cbn [pt_parts]. rewrite length_app. cbn. lia. }
  exists root. split; [done|]. intros key.
  apply bind_answers in Hread as (w1 & digests & Hd & Hread).
  destruct (observes_answers w _ _ (observes_fingerprints w module (Some q))) as (r & Hr & _).
  rewrite Hd in Hr. injection Hr as -> _.
  assert (load_projection_artifact is_dir sha256_hex repr module workdir q key w = Some (w, Ok (Some rows))) as Ha.
  { unfold load_projection_artifact. apply bind_answers. exists w, digests. split; [exact Hd|].
    unfold projection_artifact_candidates. rewrite Hp. cbn [mbind result_bind].
    apply bind_answers. eexists w, _. split; [done|]. cbn [first_artifact].
    apply bind_answers. exists w, true. split; [unfold exists_at; by fold (present w p); rewrite Hpresent|].
    apply bind_answers. by exists w, (Some rows). }
  assert ((_ ← remember environ options key rows; ret rows) w = Some (remembered options key rows w, Ok rows)) as Hrows
    by (unfold remember, remembered; by destruct (caching options)).
  unfold load_from_sources. unfold mbind at 1, Eff_bind at 1. rewrite key_answers, Hroot.
  cbn [mbind result_bind]. fold key. rewrite Hart, He. cbn [andb].
  destruct (caching options) eqn:Hc.
  - unfold mbind at 1, Eff_bind at 1, get_cached_projection_rows.
    destruct (dget key (lw_cache w)) as [cached|]; [done|].
    unfold mbind at 1, Eff_bind at 1. rewrite Ha. exact Hrows.
  - unfold mbind at 1, Eff_bind at 1, ret at 1. unfold mbind at 1, Eff_bind at 1. rewrite Ha. exact Hrows.
Qed.

(** ** Projecting a module *)

Lemma source_found (w : World) workdir q : found workdir w (Some q) →
  runtime_projection_source is_dir package_root workdir w = Some (w, Ok q).
Proof. intros H. unfold runtime_projection_source, mbind, Eff_bind. by rewrite H. Qed.
Lemma keeping_write_artifact c p module q rows :
  keeping c (write_projection_artifact touch sha256_hex p module q rows) (λ _, True).
Proof.
  unfold write_projection_artifact. eapply keeps_bind with (P := λ _, True).
  { apply observes_keeps. intros w. by eapply keeps_mono; [apply observes_fingerprints|]. }
  intros digests _. eapply keeps_bind; [apply keeps_lift|]. intros payload _.
  eapply keeps_bind; [apply keeps_lift|]. intros text _.
  eapply keeps_bind; [apply keeping_write|]. intros u _. by apply keeps_ret.
Qed.

(** The artifact that is kept when there is a current one. *)
Definition keep_artifact (force : bool) (p module q : Path) : Eff World (option Value) :=
  found ← (if force then ret false else exists_at is_dir p);
  if found : bool then read_artifact p module q else ret None.
Lemma read_is_for (w : World) p module q rows :
  read_artifact p module q w = Some (w, Ok (Some rows)) → ArtifactFor w module (Some q) p rows.
Proof.
  intros H. assert (observes w (read_artifact p module q)
    (λ rows, ∀ v, rows = Some v → ArtifactFor w module (Some q) p v)) as Ho.
  { eapply keeps_bind; [apply observes_fingerprints|]. intros digests [H1 H2].
    by apply (observes_artifact w module (Some q)). }
  destruct (observes_answers w _ _ Ho) as (r & Hr & Hrows). rewrite H in Hr. injection Hr as <-. by eapply Hrows.
Qed.
Lemma observes_keep force p module q (w : World) : observes w (keep_artifact force p module q)
  (λ kept, ∀ rows, kept = Some rows → force = false ∧ present w p = true ∧
     read_artifact p module q w = Some (w, Ok (Some rows))).
Proof.
  eapply keeps_bind with (P := λ b, b = true → force = false ∧ present w p = true).
  { destruct force; [by apply keeps_ret|]. eapply keeps_mono; [apply observes_exists|]. by intros b ->. }
  intros [] Hb; [|by apply keeps_ret]. destruct (Hb eq_refl) as [Hforce Hp].
  eapply keeps_mono with (P := λ kept, True ∧ read_artifact p module q w = Some (w, Ok kept)).
  - apply observes_same. eapply keeps_bind; [apply observes_fingerprints|]. intros digests [H1 H2].
    eapply keeps_mono; [by apply (observes_artifact w module (Some q))|done].
  - by intros kept [_ H] rows ->.
Qed.

Notation preproject := (preproject_load runner touch temporary_file is_dir expand_resolve getcwd package_root
  environ sha256_hex repr).
(** What a projection that answers leaves: a current artifact, which was there
    and is kept, or has the rows that a program printed. *)
Lemma wp_preproject path cwd force (w : World) q :
  let module := module_of expand_resolve path in let workdir := workdir_of expand_resolve getcwd cwd in
  found workdir w (Some q) →
  wp (preproject path cwd None force) (λ r w', ∀ p, r = Ok p → adjacent_projection_artifact module = Ok p ∧
    present w' p = true ∧ ∃ rows, read_artifact p module q w' = Some (w', Ok (Some rows)) ∧
      ArtifactFor w' module (Some q) p rows ∧
      ((force = false ∧ w' = w) ∨
       ∃ q1 root, found (expand_resolve workdir) w (Some q1) ∧ path_parents q1 2 = Ok root ∧
         Ran (expand_resolve module) (expand_resolve workdir) q1 root w rows)) w.
Proof.
  intros module workdir Hf. unfold preproject_load. fold module workdir. apply wp_bind. unfold wp at 1.
  rewrite (source_found w workdir q Hf). apply wp_bind, wp_lift.
  destruct (adjacent_projection_artifact module) as [p|e] eqn:Hp; [|done].
  assert (∀ (f : option Value → Eff World Path) Q, wp (keep_artifact force p module q ≫= f) Q w →
    wp (found ← (if force then ret false else exists_at is_dir p);
        kept ← (if found : bool then read_artifact p module q else ret None); f kept) Q w) as Hassoc.
  { intros f Q. unfold keep_artifact, wp, mbind, Eff_bind.
    destruct ((if force then ret false else exists_at is_dir p) w) as [[w1 [b|e]]|]; auto. }
  apply Hassoc, wp_bind. eapply wp_mono, observes_keep; [|done]. intros [[rows|]|e] w1 [-> Hkept]; [| |done].
  { destruct (Hkept rows eq_refl) as (-> & Hpresent & Hread). apply wp_ret. intros p' [= <-].
    split_and!; [done..|]. exists rows. split_and!; [done|by apply read_is_for|auto]. }
  apply wp_bind. pose proof (wp_bare module (Some workdir) true false w) as Hload. cbv zeta in Hload.
  unfold wp in Hload. unfold wp at 1.
  destruct (load_rows module (Some workdir) _ w) as [[w1 [loaded|e]]|] eqn:El; [|done..].
  destruct (Hload loaded eq_refl) as (q1 & root1 & Hf1 & Hroot1 & Hran).
  pose proof (ran_normal _ _ _ _ _ _ Hran) as (Hnormal & l & ->).
  pose proof (keeping_write_artifact (lw_cache w1) p module q (VTuple l) w1 eq_refl) as Hw. unfold wp in Hw |- *.
  destruct (write_projection_artifact _ _ _ _ _ _ w1) as [[w' [p'|e]]|] eqn:E; [|done..].
  intros p'' [= <-].
  destruct (observes_answers w _ _ (observes_find w workdir)) as (r & Hr & Hq). rewrite Hf in Hr. injection Hr as <-.
  destruct (Hq _ eq_refl) as [_ [root ->]]. destruct (adjacent_elsewhere module p root Hp) as [Hne1 Hne2].
  eapply written_artifact_is_read in E as (-> & Hpresent & Hread); [|done..].
  destruct Hnormal as [Hn1 Hn2]. rewrite Hn1, Hn2 in Hread.
  split_and!; [done..|]. exists (VTuple l). split_and!; [exact Hread|by apply read_is_for|]. right. by exists q1, root1.
Qed.

(** ** Theorems *)


End facts.

(** ** Samples *)

Definition sample_hex (s : string) : string :=
  foldr (λ c text, String (hex_digit (nat_of_ascii c / 16)) (String (hex_digit (nat_of_ascii c mod 16)) text)) ""
    (String.list_ascii_of_string s).
Lemma sample_hex_digits s : sforall lower_hex (sample_hex s) = true.
Proof.
  unfold sample_hex. induction (String.list_ascii_of_string s) as [|c l IH]; [done|]. cbn [foldr].
  pose proof (nat_ascii_bounded c).
  rewrite !sforall_cons. split_and!; [apply hex_digit_facts, Nat.Div0.div_lt_upper_bound; lia| |done].
  apply hex_digit_facts, Nat.mod_upper_bound. lia.
Qed.

(** A Gerbil whose rows name what is in the configuration. *)
Definition config_path : string := "/w/modules/funflow/config.ss".
Definition sample_gerbil (argv : list string) (cwd : string) (env : option (dict string string))
    (w : gmap string File * Z) : (gmap string File * Z) * result Exn CompletedProcess :=
  (w, Ok (MkProcess 0 ("((name " +:+ scheme_string (default "" (fl_bytes <$> w.1 !! config_path)) +:+ "))") "")).
Definition sample_source (config : string) : gmap string File :=
  <["/w/m.ss" := MkFile "(flow)" 1]> (<["/w/modules/funflow/runtime-load-projection.ss" := MkFile "(write)" 1]>
    (<[config_path := MkFile config 1]> ∅)).
Definition loading (config : string) : LoadWorld Z := MkLoadWorld (sample_source config) [] [] 1.
Notation with_gerbil f := (f sample_gerbil (λ x, (x + 1, x)) (λ x, (x, path_of "/tmp/runner.ss")) (λ _, false) id
  (path_of "/w") (path_of "/p") [] sample_hex (λ _, "value")) (only parsing).
Definition sample_load (options : LoadOptions) : Eff (LoadWorld Z) Value :=
  with_gerbil (@load_projection_rows Z) (path_of "/w/m.ss") None options.
Definition sample_preproject : Eff (LoadWorld Z) Path :=
  with_gerbil (@preproject_load Z) (path_of "/w/m.ss") None None false.
(** The world with another configuration. *)
Definition configure (config : string) (w : LoadWorld Z) : LoadWorld Z :=
  MkLoadWorld (<[config_path := MkFile config 2]> (lw_files w)) (lw_cache w) (lw_commands w) (lw_rest w).
Definition answer {A} (o : option (LoadWorld Z * result Exn A)) : option (result Exn A) := snd <$> o.
Definition named (name : string) : option (result Exn Value) := Some (Ok (VTuple [VTuple [VStr "name"; VStr name]])).
Definition after_preproject (config : string) : LoadWorld Z :=
  match sample_preproject (loading config) with Some (w, _) => w | None => loading config end.

(** The artifact answers what Gerbil answered before the configuration was
    changed, on which the rows depend. *)
Example artifacts_ignore_dependencies :
  answer (sample_load default_options (configure "two" (after_preproject "one"))) = named "one" ∧
  answer (sample_load (MkLoadOptions true false true false) (configure "two" (after_preproject "one"))) = named "two".
Proof. by vm_compute. Qed.
Lemma loaded_one : answer (sample_load default_options (loading "one")) = named "one".
Proof. vm_compute. reflexivity. Qed.


Definition sample_find : Eff (LoadWorld Z) (option Path) :=
  find_runtime_projection_source (λ _, false) (path_of "/p") (path_of "/w").
Definition sample_projection : Path := below (path_of "/w") PROJECTION_SOURCE.
Lemma sample_find_present w : present (λ _, false) w sample_projection = true →
  sample_find w = Some (w, Ok (Some sample_projection)).
Proof.
  intros H. unfold sample_find, find_runtime_projection_source. cbn [first_existing]. apply bind_answers.
  exists w, true. split; [|done]. unfold exists_at. unfold present, sample_projection in H. by rewrite H.
Qed.

